(* ===== verification/_CoqProject ===== *)
-Q . S2P
Prelude.v
BTree.v
Ram.v
RamProps.v
TableTree.v
RamBuilder.v
PageTableProps.v
Env.v
EnvProps.v
Bitflag.v
BitflagProps.v
Blocks.v
PhysMem.v
PhysMemProps.v
Dmem.v
DmemProps.v
Thread.v
Lock.v
LockProps.v
Vm.v
VmProps.v
Uma.v
Heap.v
UmaProps.v
HeapProps.v
Channel.v
ChannelProps.v
Console.v
Krt.v
ConsoleProps.v
Kernel.v
Loader.v
KernelProps.v
LoaderProps.v
BootProps.v
Gdb.v
GdbProps.v
X86.v
X86Props.v
Aarch64.v
Aarch64Props.v
VPath.v
VPathProps.v
VmSpace.v
VmSpaceProps.v
VmUpdateProps.v
VmMapProps.v
VmSpaceSpec.v
Orbis.v
OrbisProps.v
Module.v
Resolver.v
Cred.v
CredProps.v
FileDesc.v
FileDescProps.v
RegMgr.v
RegMgrProps.v
Sysctl.v
SysctlProps.v
Signal.v
SignalProps.v
Process.v
ProcessProps.v
Time.v
Rtld.v
ResolverProps.v
ModuleProps.v
RtldProps.v
Vnode.v
VnodeProps.v
Fs.v
FsProps.v
ChrootProps.v
MountProps.v
