(* ===== verification/Prelude.v ===== *)
(** * Obliteration: a verification of its kernel and its virtual machine monitor

    Obliteration runs the software of a game console on a PC.  Its program has
    two halves.  The virtual machine monitor (directories [gui], [lib/hv],
    [config]) creates a virtual machine, loads a kernel into it and serves the
    devices the kernel uses.  The kernel ([kernel], [lib/krt], [lib/bitflag])
    runs in the virtual machine: it takes over the physical memory, sets up
    its allocators and runs its threads.  The macros of [macros] generate code
    for both.  This development models both halves, and their meeting points:
    the boot environment that the monitor writes and the kernel reads, the
    console device that the kernel writes and the monitor reads, and the note
    in the image of the kernel that tells the monitor its page size.

    ** How the code is modelled

    A function that returns [Result<A, E>] is a function to [outcome E A],
    which returns a value, an error, or a panic; [todo!()], failed assertions,
    [unwrap] on [None], indices out of range and integer overflow are panics
    (the overflow checks of debug builds are on).  Integers are [Z] with the
    bounds of their type in the operations.  State is passed explicitly.
    Code that several threads run at once is a step relation whose steps are
    the atomic accesses or the critical sections of the code; the theorems are
    invariants over all interleavings.  The operating system, the hypervisor,
    the allocator of the talc crate and the escape sequences of a terminal are
    parameters.  [BTreeMap] is a sorted association list (BTree.v).

    ** Files

    - Prelude.v: outcomes, machine integers, arrays, bytes and slices, texts
      with separators, the state monad [io] of the code that reads files or
      answers requests, with their lemmas, the tactics [inv_ok],
      [bool_to_prop], and the hints.
    - BTree.v: ordered maps.  Blocks.v: flat arrays of address ranges.
    - Ram.v, RamProps.v: [lib/hv/src/ram/mod.rs] and [lock.rs], the RAM of the
      virtual machine: blocks, guards, and threads that wait for each other.
    - TableTree.v: trees of four levels of tables in memory, whatever the
      format of their entries.
    - RamBuilder.v, PageTableProps.v: [lib/hv/src/ram/builder.rs] and
      [x86_64.rs], the page tables; the specification is the page walk of the
      processor.  Aarch64.v, Aarch64Props.v: the same for [aarch64.rs], with
      [gui/src/vmm/aarch64.rs] that loads the registers of the CPU.
    - Env.v, EnvProps.v: [config/src/lib.rs], [kernel/src/config/mod.rs], the
      configuration of the kernel and its variables.
    - Bitflag.v, BitflagProps.v: [macros/src/bitflag.rs], [lib/bitflag].
    - PhysMem.v, PhysMemProps.v: the memory map in [kernel/src/main.rs].
    - Dmem.v, DmemProps.v: [kernel/src/dmem/mod.rs], direct memory.
    - Thread.v, Lock.v, LockProps.v: [kernel/src/proc], [kernel/src/lock].
    - Vm.v, VmProps.v: [kernel/src/vm].  Uma.v, UmaProps.v: [kernel/src/uma],
      the zone allocator.  Heap.v, HeapProps.v: [kernel/src/malloc].
    - Channel.v, ChannelProps.v: [gui/src/util/channel], the log channel.
    - Console.v: [gui/src/hw] and the loop of a virtual CPU in
      [gui/src/vmm/mod.rs].  Krt.v: [lib/krt], the console of the kernel.
      ConsoleProps.v: both together.
    - Kernel.v, KernelProps.v: [gui/src/vmm/kernel], the image of the kernel.
    - Loader.v, LoaderProps.v, BootProps.v: [Vmm::new] and [relocate_kernel]
      of [gui/src/vmm/mod.rs], from the image to a machine that can run.
    - Gdb.v, GdbProps.v: [gui/src/gdb], the session with a debugger.
    - X86.v, X86Props.v: [kernel/src/x86_64.rs] and [lib/x86-64], descriptor
      tables and system registers.
    - VPath.v, VPathProps.v: [legacy/src/fs/path.rs], paths of the previous
      kernel.
    - VmSpace.v: [legacy/src/vm], the address space of a process in the
      previous kernel.  VmSpaceProps.v: its table and [munmap].
      VmUpdateProps.v: the loops of [mprotect] and [mname].  VmMapProps.v:
      [mmap].  VmSpaceSpec.v: what the operations do, and what is reachable.
    - Orbis.v, OrbisProps.v: [legacy/src/imgact], the images of programs.
    - Module.v, ModuleProps.v: [legacy/src/rtld/mem.rs] and [module.rs], the
      memory of a program or library in an address space of VmSpace.v.
    - Resolver.v, ResolverProps.v: [legacy/src/rtld/resolver.rs], symbols.
    - Rtld.v, RtldProps.v: [legacy/src/rtld/mod.rs], the runtime linker, over
      the three files before and Cred.v.
    - Cred.v, CredProps.v: [legacy/src/ucred], [legacy/src/fs/perm.rs] and
      [legacy/src/rcmgr], the rights of a process.
    - FileDesc.v, FileDescProps.v: [legacy/src/process/filedesc.rs],
      [legacy/src/idt] and [legacy/src/budget], tables of open files and of
      named objects.
    - RegMgr.v, RegMgrProps.v: [legacy/src/regmgr], the registry.
    - Sysctl.v, SysctlProps.v: [legacy/src/sysctl] and [legacy/src/arnd.rs],
      the parameters of the system and the random bytes.
    - Signal.v, SignalProps.v: [legacy/src/signal] and
      [legacy/src/process/signal.rs], signals.
    - Process.v, ProcessProps.v: the rest of [legacy/src/process], processes
      and threads.  Time.v: [legacy/src/time], clocks, with its theorems.
    - Vnode.v, VnodeProps.v: vnodes, mounts and the file systems of
      [legacy/src/fs] ([host], [dev], [tmp], [null]), as objects that are
      shared and dropped with their last reference.
    - Fs.v, FsProps.v: [legacy/src/fs/mod.rs] and [mount.rs], paths, mounting
      and opening.  ChrootProps.v: what a process can reach.  MountProps.v:
      the identifiers of mounts, and directories of a memory file system.

    A file [XProps.v] holds the theorems on the definitions of [X.v].

    ** What the theorems show

    - Memory of the virtual machine: a locked block has one owner in every
      interleaving and no lock leaks; [alloc], [dealloc] and [lock] do what
      they say on every branch; a wakeup can be lost.
    - Address translation: the page tables translate exactly the regions that
      were requested and never map a page twice, on x86-64 and on aarch64 with
      the registers that the monitor loads.  [boot_mapping] carries this
      through [Vmm::new] to the address space the kernel starts in.
    - The image: its segments do not overlap, lie in memory as in the file,
      and are relocated, up to the first relocation of type NONE, or refused;
      the loops over it end; its note is read back.
    - Boot: the configuration and its variables arrive in the kernel; the
      memory map is turned into the blocks of available memory; direct memory
      is carved out of them.  The page tables are not protected by the map.
    - Allocation in the kernel: zones have items that fit their slabs, for
      every set of flags, the heap picks a zone whose items hold the request,
      and each allocation goes to the allocator that is ready for it.
    - Locks of the kernel: mutual exclusion in every interleaving.
    - Devices: accesses reach the device they address; what the kernel prints
      is what the host logs; the log channel neither loses nor reorders items.
    - Flags: the macro accepts flag sets whose flags do not overlap.
    - Debugger: the answers do not depend on how the bytes arrive, also in a
      session that fails, and are well-formed packets.
    - CPU: descriptors and registers decode to what the kernel means.  System
      calls start with a stack pointer outside their stack.
    - Address spaces: [mmap], [munmap], [mprotect] and [mname] change a function
      from addresses to attributes as their names say, and the protections of
      the host agree with it in every reachable state, as long as the host
      changes and unmaps memory that it has given: the code panics otherwise.
    - Paths: the operations on strings are operations on lists of components.
    - Images of programs: an image that opens is well formed, and the bytes of
      a file open as the image they were written from.
    - Linker: the segments of a module lie in memory as in its image with the
      protection they ask for, and the answers for code and data follow the
      order of the headers; searching a symbol ends unless it reaches a cycle
      in the hash chain of the file; the relocations of a module and its slots
      are applied once, up to the first of type NONE; every module with
      thread-local storage has its own index and its own part of the block,
      aligned if the alignment is a power of two.
    - Parameters of the system: their tree is well typed, so that a call never
      fails a cast; names and numbers agree; a value is read as far as the
      buffer goes.  Signals: masks are sets without [SIGKILL] and [SIGSTOP],
      and an action is read back but for one flag.
    - Processes: identifiers are unique in every interleaving of spawns of
      programs; spawns of kernel processes that overlap fail.  Clocks: the time
      of a counter is exact.
    - Files: a file has at most one vnode in use, in every state that mounts,
      lookups, new directories and devices reach; a file of the host is what
      has one identifier, under any names and links.  A lookup stays below the
      root directory of the process, except through a nullfs or through a link
      to a directory of the host.  Mounts get different identifiers.  Files of
      the host must keep their identifiers.
    - Rights: the bits of a file that decide an access are those of its owner,
      its group or the others.  Open files: a new file gets the lowest free
      descriptor, and the table is a finite map.  Registry: keys decode to
      their entries, and a value that is set is checked and authorized.

    ** Fuel

    Loops that are not structural take fuel.  [header_loop], [note_loop] and
    [relocate_loop] get one more than the number of headers, or than the bytes
    they consume, and [image_loops_terminate] shows that this is enough.
    [write_loop] gets one more than the length of the string, of which every
    round consumes a byte or more (ConsoleProps.v).  [chain] of Resolver.v gets
    one more than the number of symbols, and [chain_terminates] shows that a
    search that takes longer never ends; [tls_search] gets as many rounds as
    the largest index.  [set_id] of Fs.v gets as many rounds as there are
    mounts, and [mount_id_fresh] shows that this is enough; a vnode of nullfs
    is newer than the one below it, so that its number bounds the depth, and
    [survivors] gets one round for each vnode.  [name_walk] and [find_oid] of Sysctl.v are
    structural in the name, and the depth of the tree that is enumerated in the
    theorems is the longest name the call accepts.  The other fuelled loops
    return their result when the loop of the code ends and the lemmas beside
    them show that the fuel given is enough.

    ** What is not modelled

    - The calls into the operating system and the hypervisor ([lib/hv/src/linux],
      [macos], [windows]), the user interface, graphics and settings of [gui],
      and assembly: they have no behaviour that Rust code determines.
    - The kernel on aarch64 ([kernel/src/aarch64.rs]), which is unfinished.
    - The requests of a debugger to a stopped CPU, which unfinished code in
      [handle_breakpoint] precedes.
    - Reads, writes, [stat] and [ioctl] of files, which are mostly unfinished.
    - The rest of [legacy], the previous implementation of the kernel, which
      the program no longer builds.
    - Parts of the kernel that are unfinished and panic. *)
From stdpp Require Export base numbers list gmap strings.
From Stdlib Require Export ZArith Lia.

#[global] Open Scope Z_scope.

(** ** Outcomes of Rust code *)

(** The ways in which a Rust function can abort.  Every profile of the
    workspace sets [panic = "abort"], so a panic ends the program. *)
Inductive panic :=
  | PTodo (* [todo!()], [unimplemented!()] *)
  | PAssert (* [assert!], [assert_eq!] *)
  | PUnwrap (* [unwrap] on [None] or [Err], integer conversion out of range *)
  | PIndex (* slice or array index out of range *)
  | POverflow (* integer overflow with overflow checks on *)
  | PDivZero
  | PUnreachable
  | PExplicit (msg : string). (* [panic!(msg)] *)

(** [outcome E A] is the result of a function returning [Result<A, E>]: it
    returns a value, returns an error, or panics. *)
Inductive outcome (E A : Type) :=
  | Ok (a : A)
  | Err (e : E)
  | Panic (p : panic).
Arguments Ok {E A} a.
Arguments Err {E A} e.
Arguments Panic {E A} p.

#[export] Instance outcome_ret E : MRet (outcome E) := fun A a => Ok a.
#[export] Instance outcome_bind E : MBind (outcome E) := fun A B f m =>
  match m with
  | Ok a => f a
  | Err e => Err e
  | Panic p => Panic p
  end.

#[export] Instance panic_eq_dec : EqDecision panic.
Proof. solve_decision. Defined.

(** [Option::unwrap] and friends: [None] panics with [p]. *)
Definition unwrap_or_panic {E A} (p : panic) (o : option A) : outcome E A :=
  match o with Some a => Ok a | None => Panic p end.

(** [Option::ok_or] followed by [?]. *)
Definition ok_or {E A} (e : E) (o : option A) : outcome E A :=
  match o with Some a => Ok a | None => Err e end.

(** [assert!]. *)
Definition assert_that {E} (b : bool) : outcome E unit :=
  if b then Ok tt else Panic PAssert.

(** An early [return Err(e)] guarded by [b]. *)
Definition fail_if {E} (b : bool) (e : E) : outcome E unit :=
  if b then Err e else Ok tt.

(** A panic guarded by [b]. *)
Definition panic_if {E} (b : bool) (p : panic) : outcome E unit :=
  if b then Panic p else Ok tt.

(** [Result::map_err]. *)
Definition map_err {E E' A} (f : E -> E') (m : outcome E A) : outcome E' A :=
  match m with Ok a => Ok a | Err e => Err (f e) | Panic p => Panic p end.

Definition is_ok {E A} (m : outcome E A) : bool :=
  match m with Ok _ => true | _ => false end.

(** A function that works on a state of type [I] and can fail: the state it
    leaves is kept when it does. *)
Definition io (I E A : Type) : Type := I -> I * outcome E A.
#[export] Instance io_ret I E : MRet (io I E) := fun A a i => (i, Ok a).
#[export] Instance io_bind I E : MBind (io I E) := fun A B f m i =>
  match m i with
  | (i, Ok a) => f a i
  | (i, Err e) => (i, Err e)
  | (i, Panic p) => (i, Panic p)
  end.
Definition lift {I E A} (m : outcome E A) : io I E A := fun i => (i, m).

Section io_lemmas.
Context {I E A B : Type}.
Implicit Types (m : io I E A) (f : A -> io I E B).

Lemma io_bind_Ok m f i i' b :
  (m ≫= f) i = (i', Ok b) <-> exists i1 a, m i = (i1, Ok a) /\ f a i1 = (i', Ok b).
Proof. unfold mbind, io_bind. destruct (m i) as [i1 [a|e|p]]; naive_solver. Qed.

Lemma lift_Ok (m : outcome E A) i i' a : @lift I E A m i = (i', Ok a) <-> i' = i /\ m = Ok a.
Proof. unfold lift. naive_solver. Qed.

Lemma ret_Ok i i' a b : (mret a : io I E A) i = (i', Ok b) <-> i' = i /\ b = a.
Proof. unfold mret, io_ret. naive_solver. Qed.
End io_lemmas.

Section outcome_lemmas.
Context {E A B : Type}.
Implicit Types (m : outcome E A) (f : A -> outcome E B).

Lemma bind_Ok m f b : (m ≫= f) = Ok b <-> exists a, m = Ok a /\ f a = Ok b.
Proof. destruct m; cbn; naive_solver. Qed.

Lemma bind_Err m f e :
  (m ≫= f) = Err e <-> m = Err e \/ exists a, m = Ok a /\ f a = Err e.
Proof. destruct m; cbn; naive_solver. Qed.

Lemma bind_Panic m f p :
  (m ≫= f) = Panic p <-> m = Panic p \/ exists a, m = Ok a /\ f a = Panic p.
Proof. destruct m; cbn; naive_solver. Qed.

Lemma bind_of_Ok m f a : m = Ok a -> (m ≫= f) = f a.
Proof. by intros ->. Qed.
End outcome_lemmas.

Section guard_lemmas.
Context {E A : Type}.

Lemma assert_that_Ok b u : @assert_that E b = Ok u <-> b = true.
Proof. destruct b, u; naive_solver. Qed.

Lemma assert_that_Err b (e : E) : assert_that b <> Err e.
Proof. by destruct b. Qed.

Lemma fail_if_Ok b (e : E) u : fail_if b e = Ok u <-> b = false.
Proof. destruct b, u; naive_solver. Qed.

Lemma panic_if_Ok b p u : @panic_if E b p = Ok u <-> b = false.
Proof. destruct b, u; naive_solver. Qed.

Lemma unwrap_or_panic_Ok p (o : option A) a :
  @unwrap_or_panic E A p o = Ok a <-> o = Some a.
Proof. destruct o; cbn; naive_solver. Qed.

Lemma ok_or_Ok (e : E) (o : option A) a : ok_or e o = Ok a <-> o = Some a.
Proof. destruct o; cbn; naive_solver. Qed.

Lemma map_err_Ok {E'} (g : E' -> E) (m : outcome E' A) a :
  map_err g m = Ok a <-> m = Ok a.
Proof. destruct m; cbn; naive_solver. Qed.
End guard_lemmas.

(** Replaces a successful computation in the hypotheses by the successes of
    its steps. *)
Ltac inv_ok_step :=
  match goal with
  | H : (_ ≫= _) = Ok _ |- _ =>
      let x := fresh "x" in
      apply bind_Ok in H as (x & ? & ?)
  | H : assert_that _ = Ok _ |- _ => apply assert_that_Ok in H
  | H : fail_if _ _ = Ok _ |- _ => apply fail_if_Ok in H
  | H : panic_if _ _ = Ok _ |- _ => apply panic_if_Ok in H
  | H : unwrap_or_panic _ _ = Ok _ |- _ => apply unwrap_or_panic_Ok in H
  | H : ok_or _ _ = Ok _ |- _ => apply ok_or_Ok in H
  | H : map_err _ _ = Ok _ |- _ => apply map_err_Ok in H
  | H : Ok _ = Ok _ |- _ => injection H as H
  | H : mret _ = Ok _ |- _ => injection H as H
  | H : Err _ = Ok _ |- _ => discriminate H
  | H : Panic _ = Ok _ |- _ => discriminate H
  end.
Ltac inv_ok := repeat (inv_ok_step; simplify_eq/=).

(** Turns the boolean tests of the code into propositions. *)
Ltac bool_to_prop :=
  repeat match goal with
  | H : (_ =? _) = true |- _ => apply Z.eqb_eq in H
  | H : (_ =? _) = false |- _ => apply Z.eqb_neq in H
  | H : (_ <? _) = true |- _ => apply Z.ltb_lt in H
  | H : (_ <? _) = false |- _ => apply Z.ltb_ge in H
  | H : (_ <=? _) = true |- _ => apply Z.leb_le in H
  | H : (_ <=? _) = false |- _ => apply Z.leb_gt in H
  | H : negb _ = true |- _ => apply negb_true_iff in H
  | H : negb _ = false |- _ => apply negb_false_iff in H
  | H : (_ && _)%bool = true |- _ => apply andb_true_iff in H as [? ?]
  | H : (_ || _)%bool = false |- _ => apply orb_false_iff in H as [? ?]
  end.

(** Case analysis on the condition of an [if] in the goal. *)
Ltac case_if :=
  match goal with
  | |- context [if ?b then _ else _] => destruct b eqn:?
  end.

(** ** Machine integers *)

(** [usize] and [u64] are 64 bits wide on every target of the repository. *)
Definition u64_max : Z := 2 ^ 64 - 1.

Definition is_u64 (z : Z) : Prop := 0 <= z < 2 ^ 64.

(** [a + b], [a - b] and [a * b] on [usize]/[u64]; overflow panics. *)
Definition uadd {E} (a b : Z) : outcome E Z :=
  if a + b <? 2 ^ 64 then Ok (a + b) else Panic POverflow.
Definition usub {E} (a b : Z) : outcome E Z :=
  if b <=? a then Ok (a - b) else Panic POverflow.
Definition umul {E} (a b : Z) : outcome E Z :=
  if a * b <? 2 ^ 64 then Ok (a * b) else Panic POverflow.

(** [checked_add]. *)
Definition checked_add (a b : Z) : option Z :=
  if a + b <? 2 ^ 64 then Some (a + b) else None.

(** [wrapping] view of an integer as a [u64]. *)
Definition u64_wrap (z : Z) : Z := z mod 2 ^ 64.

(** The smallest multiple of [m] that is at least [a], as the mathematical
    value behind [next_multiple_of]. *)
Definition round_up (a m : Z) : Z := if a mod m =? 0 then a else a + (m - a mod m).

(** [next_multiple_of] and [checked_next_multiple_of]. *)
Definition next_multiple_of {E} (a m : Z) : outcome E Z :=
  if m =? 0 then Panic PDivZero
  else if round_up a m <? 2 ^ 64 then Ok (round_up a m) else Panic POverflow.
Definition checked_next_multiple_of (a m : Z) : option Z :=
  if m =? 0 then None
  else if round_up a m <? 2 ^ 64 then Some (round_up a m) else None.

(** ** Arrays and slices *)

(** [a[i]] and [a[i] = v]; out of range panics. *)
Definition arr_get {E A} (l : list A) (i : Z) : outcome E A :=
  if i <? 0 then Panic PIndex else unwrap_or_panic PIndex (l !! Z.to_nat i).
Definition arr_set {E A} (l : list A) (i : Z) (v : A) : outcome E (list A) :=
  if (0 <=? i) && (i <? Z.of_nat (length l))
  then Ok (<[Z.to_nat i := v]> l) else Panic PIndex.

(** The values of [(lo..hi).step_by(st)], for a non-zero step. *)
Definition step_by (lo hi st : Z) : list Z :=
  (fun i => lo + st * i) <$> seqZ 0 ((hi - lo + st - 1) / st).

(** ** Generic lemmas *)

Create HintDb obl.

Section arith_lemmas.
Context {E : Type}.
Implicit Types a b r m : Z.

Lemma uadd_Ok a b r : @uadd E a b = Ok r <-> r = a + b /\ a + b < 2 ^ 64.
Proof. unfold uadd. destruct (Z.ltb_spec (a + b) (2 ^ 64)); naive_solver lia. Qed.

Lemma usub_Ok a b r : @usub E a b = Ok r <-> r = a - b /\ b <= a.
Proof. unfold usub. destruct (Z.leb_spec b a); naive_solver lia. Qed.

Lemma umul_Ok a b r : @umul E a b = Ok r <-> r = a * b /\ a * b < 2 ^ 64.
Proof. unfold umul. destruct (Z.ltb_spec (a * b) (2 ^ 64)); naive_solver lia. Qed.

Lemma checked_add_Some a b r :
  checked_add a b = Some r <-> r = a + b /\ a + b < 2 ^ 64.
Proof. unfold checked_add. destruct (Z.ltb_spec (a + b) (2 ^ 64)); naive_solver lia. Qed.

Lemma round_up_spec a m :
  0 < m -> a <= round_up a m < a + m /\ (round_up a m) mod m = 0.
Proof.
  intros Hm. unfold round_up. pose proof (Z.mod_pos_bound a m Hm).
  destruct (Z.eqb_spec (a mod m) 0) as [He|He]; [lia|].
  split; [lia|].
  replace (a + (m - a mod m)) with ((a / m + 1) * m) by (pose proof (Z.div_mod a m); lia).
  apply Z.mod_mul; lia.
Qed.

Lemma round_up_id a m : a mod m = 0 -> round_up a m = a.
Proof. intros H. unfold round_up. by rewrite H. Qed.

Lemma next_multiple_of_Ok a m r :
  @next_multiple_of E a m = Ok r <-> m <> 0 /\ r = round_up a m /\ round_up a m < 2 ^ 64.
Proof.
  unfold next_multiple_of. destruct (Z.eqb_spec m 0); [naive_solver|].
  destruct (Z.ltb_spec (round_up a m) (2 ^ 64)); naive_solver lia.
Qed.

Lemma checked_next_multiple_of_Some a m r :
  checked_next_multiple_of a m = Some r
  <-> m <> 0 /\ r = round_up a m /\ round_up a m < 2 ^ 64.
Proof.
  unfold checked_next_multiple_of. destruct (Z.eqb_spec m 0); [naive_solver|].
  destruct (Z.ltb_spec (round_up a m) (2 ^ 64)); naive_solver lia.
Qed.

(** Multiples of [m] that differ are at least [m] apart. *)
Lemma mult_gap a b m : 0 < m -> a mod m = 0 -> b mod m = 0 -> a < b -> a + m <= b.
Proof.
  intros Hm Ha Hb Hlt. apply Z.mod_divide in Ha; [|lia]. apply Z.mod_divide in Hb; [|lia].
  destruct Ha as [x ->], Hb as [y ->]. assert (x < y) by nia. nia.
Qed.

Lemma mult_add a b m : a mod m = 0 -> b mod m = 0 -> (a + b) mod m = 0.
Proof.
  destruct (decide (m = 0)) as [->|Hm]; [rewrite !Zmod_0_r; lia|].
  intros Ha Hb. by rewrite Z.add_mod, Ha, Hb, Z.mod_0_l by done.
Qed.
End arith_lemmas.

(** Bit fields: [x & mask] for a mask of [n] ones at bit [lo]. *)
Lemma land_field x lo n :
  0 <= lo -> 0 <= n ->
  Z.land x (Z.shiftl (Z.ones n) lo) = ((x / 2 ^ lo) mod 2 ^ n) * 2 ^ lo.
Proof.
  intros Hlo Hn. rewrite <- Z.shiftl_mul_pow2, <- Z.land_ones, <- Z.shiftr_div_pow2 by done.
  apply Z.bits_inj'. intros i Hi. rewrite Z.land_spec, !Z.shiftl_spec by done.
  destruct (decide (i < lo)).
  - rewrite !(Z.testbit_neg_r _ (i - lo)) by lia. by rewrite andb_false_r.
  - rewrite Z.land_spec, Z.shiftr_spec by lia. by replace (i - lo + lo) with i by lia.
Qed.

Lemma shiftr_field x lo n :
  0 <= lo -> 0 <= n ->
  Z.shiftr (Z.land x (Z.shiftl (Z.ones n) lo)) lo = (x / 2 ^ lo) mod 2 ^ n.
Proof.
  intros Hlo Hn. rewrite land_field, Z.shiftr_div_pow2 by done.
  apply Z.div_mul, Z.pow_nonzero; lia.
Qed.

(** Clearing the low bits of a 64-bit integer. *)
Lemma land_high d a : 0 <= a < 64 -> 0 <= d < 2 ^ 64 -> Z.land d (2 ^ 64 - 2 ^ a) = d - d mod 2 ^ a.
Proof.
  intros Ha Hd. assert (0 < 2 ^ a) by (apply Z.pow_pos_nonneg; lia).
  assert (2 ^ 64 = 2 ^ (64 - a) * 2 ^ a) as H64 by (rewrite <- Z.pow_add_r by lia; f_equal; lia).
  replace (2 ^ 64 - 2 ^ a) with (Z.shiftl (Z.ones (64 - a)) a)
    by (rewrite Z.shiftl_mul_pow2, Z.ones_equiv by lia; lia).
  rewrite land_field by lia.
  rewrite (Z.mod_small (d / 2 ^ a)); [pose proof (Z.div_mod d (2 ^ a)); lia|].
  split; [apply Z.div_pos; lia|]. apply Z.div_lt_upper_bound; lia.
Qed.

(** Setting bits below the alignment of an address is an addition. *)
Lemma lor_low x y n :
  0 <= n -> x mod 2 ^ n = 0 -> 0 <= y < 2 ^ n -> Z.lor x y = x + y.
Proof.
  intros Hn Hx Hy. rewrite <- Z.lxor_lor, <- Z.add_nocarry_lxor; [done| |].
  - rewrite <- (Z.mod_small y (2 ^ n)), <- Z.land_ones by lia.
    rewrite <- Z.land_ones in Hx by lia.
    rewrite (Z.land_comm y), Z.land_assoc, Hx. apply Z.land_0_l.
  - rewrite <- (Z.mod_small y (2 ^ n)), <- Z.land_ones by lia.
    rewrite <- Z.land_ones in Hx by lia.
    rewrite (Z.land_comm y), Z.land_assoc, Hx. apply Z.land_0_l.
Qed.

Section array_lemmas.
Context {E A : Type}.
Implicit Types (l : list A) (i : Z) (v : A).

Lemma arr_get_Ok l i v :
  @arr_get E A l i = Ok v <-> 0 <= i /\ l !! Z.to_nat i = Some v.
Proof.
  unfold arr_get. destruct (Z.ltb_spec i 0); [naive_solver lia|].
  rewrite unwrap_or_panic_Ok. naive_solver lia.
Qed.

Lemma arr_set_Ok l i v l' :
  @arr_set E A l i v = Ok l'
  <-> 0 <= i < Z.of_nat (length l) /\ l' = <[Z.to_nat i := v]> l.
Proof.
  unfold arr_set.
  destruct (Z.leb_spec 0 i), (Z.ltb_spec i (Z.of_nat (length l))); cbn; naive_solver lia.
Qed.
End array_lemmas.

Lemma elem_of_step_by lo hi st x :
  0 < st -> x ∈ step_by lo hi st <-> lo <= x < hi /\ (x - lo) mod st = 0.
Proof.
  intros Hst. unfold step_by. rewrite list_elem_of_fmap. setoid_rewrite elem_of_seqZ. split.
  - intros (i & -> & Hi).
    assert (st * i < hi - lo).
    { assert (i + 1 <= (hi - lo + st - 1) / st) as Hle by lia.
      apply (Z.mul_le_mono_nonneg_l _ _ st) in Hle; [|lia].
      pose proof (Z.mul_div_le (hi - lo + st - 1) st Hst). lia. }
    split; [nia|]. replace (lo + st * i - lo) with (i * st) by lia. apply Z.mod_mul; lia.
  - intros [Hx Hm]. apply Z.mod_divide in Hm as [i Hi]; [|lia].
    exists i. split; [lia|]. split; [nia|].
    assert (i + 1 <= (hi - lo + st - 1) / st); [|lia].
    apply Z.div_le_lower_bound; [lia|]. nia.
Qed.

Lemma step_by_NoDup lo hi st : 0 < st -> NoDup (step_by lo hi st).
Proof.
  intros Hst. unfold step_by. apply NoDup_fmap_2; [|apply NoDup_seqZ].
  intros i j Hij. nia.
Qed.

Lemma step_by_nil lo hi st : 0 < st -> hi <= lo -> step_by lo hi st = [].
Proof.
  intros Hst Hle. apply elem_of_nil_inv. intros x Hx.
  apply elem_of_step_by in Hx; lia.
Qed.

Lemma step_by_cons lo hi st :
  0 < st -> lo < hi -> step_by lo hi st = lo :: step_by (lo + st) hi st.
Proof.
  intros Hst Hlt. unfold step_by.
  assert (1 <= (hi - lo + st - 1) / st) by (apply Z.div_le_lower_bound; lia).
  rewrite seqZ_cons by lia. cbn. f_equal; [lia|].
  replace (hi - (lo + st) + st - 1) with (hi - lo + st - 1 + (-1) * st) by lia.
  rewrite Z.div_add by lia.
  replace (Z.succ 0) with 1 by lia.
  replace ((hi - lo + st - 1) / st + -1) with (Z.pred ((hi - lo + st - 1) / st)) by lia.
  unfold seqZ.
  rewrite <- !list_fmap_compose. apply list_fmap_ext. intros ? ? _. cbn. lia.
Qed.

#[export] Hint Resolve mult_add : obl.

(** Computations that never return an error. *)
Section never_err.
Context {E A : Type}.

Lemma uadd_Err a b (e : E) : uadd a b <> Err e.
Proof. unfold uadd. by case_match. Qed.

Lemma usub_Err a b (e : E) : usub a b <> Err e.
Proof. unfold usub. by case_match. Qed.

Lemma umul_Err a b (e : E) : umul a b <> Err e.
Proof. unfold umul. by case_match. Qed.

Lemma next_multiple_of_Err a b (e : E) : next_multiple_of a b <> Err e.
Proof. unfold next_multiple_of. by repeat case_match. Qed.

Lemma unwrap_or_panic_Err p (o : option A) (e : E) : unwrap_or_panic p o <> Err e.
Proof. by destruct o. Qed.

Lemma arr_get_Err (l : list A) i (e : E) : arr_get l i <> Err e.
Proof. unfold arr_get. case_match; [done|apply unwrap_or_panic_Err]. Qed.

Lemma arr_set_Err (l : list A) i v (e : E) : arr_set l i v <> Err e.
Proof. unfold arr_set. by case_match. Qed.
End never_err.

(** ** Loops *)

(** A [for] loop whose body can return from the function. *)
Fixpoint foldM {E S A} (f : S -> A -> outcome E S) (s : S) (l : list A) : outcome E S :=
  match l with
  | [] => Ok s
  | a :: l => s ← f s a; foldM f s l
  end.

Section foldM.
Context {E S A : Type} (f : S -> A -> outcome E S).

(** An invariant of the elements that are done and the state. *)
Lemma foldM_inv (I : list A -> S -> Prop) d s l s' :
  (forall d s a s', I d s -> a ∈ l -> f s a = Ok s' -> I (d ++ [a]) s') ->
  I d s -> foldM f s l = Ok s' -> I (d ++ l) s'.
Proof.
  revert d s. induction l as [|a l IH]; intros d s Hf HI H; cbn in H.
  - injection H as <-. by rewrite app_nil_r.
  - apply bind_Ok in H as (s1 & H1 & H). rewrite cons_middle, app_assoc.
    apply (IH _ s1); [|by apply (Hf d s); [|apply list_elem_of_here|]|done].
    intros d' s2 a' s3 HI' Ha'. apply Hf; [done|by apply list_elem_of_further].
Qed.

Lemma foldM_app s l1 l2 : foldM f s (l1 ++ l2) = (s ← foldM f s l1; foldM f s l2).
Proof. revert s. induction l1 as [|a l1 IH]; intros s; cbn; [done|]. destruct (f s a); cbn; [apply IH|done|done]. Qed.

(** An error is the error of an element, after the ones before it. *)
Lemma foldM_Err s l e :
  foldM f s l = Err e ->
  exists pre a post s1, l = pre ++ a :: post /\ foldM f s pre = Ok s1 /\ f s1 a = Err e.
Proof.
  revert s. induction l as [|a l IH]; intros s H; cbn in H; [done|].
  apply bind_Err in H as [H|(s1 & H1 & H)].
  - by exists [], a, l, s.
  - apply IH in H as (pre & b & post & s2 & -> & Hp & Hb). exists (a :: pre), b, post, s2.
    split; [done|]. split; [|done]. cbn. by rewrite H1.
Qed.
End foldM.

(** Replaces a computation that returns an error in the hypotheses by the
    step that does. *)
Ltac inv_err_step :=
  match goal with
  | H : (_ ≫= _) = Err _ |- _ => apply bind_Err in H as [H|(? & ? & H)]
  | H : assert_that _ = Err _ |- _ => by destruct (assert_that_Err _ _ H)
  | H : panic_if ?b _ = Err _ |- _ => by destruct b
  | H : fail_if ?b _ = Err _ |- _ => destruct b eqn:?; [injection H as H|discriminate H]
  | H : unwrap_or_panic _ _ = Err _ |- _ => by destruct (unwrap_or_panic_Err _ _ _ H)
  | H : arr_get _ _ = Err _ |- _ => by destruct (arr_get_Err _ _ _ H)
  | H : arr_set _ _ _ = Err _ |- _ => by destruct (arr_set_Err _ _ _ _ H)
  | H : uadd _ _ = Err _ |- _ => by destruct (uadd_Err _ _ _ H)
  | H : usub _ _ = Err _ |- _ => by destruct (usub_Err _ _ _ H)
  | H : umul _ _ = Err _ |- _ => by destruct (umul_Err _ _ _ H)
  | H : next_multiple_of _ _ = Err _ |- _ => by destruct (next_multiple_of_Err _ _ _ H)
  | H : map_err _ ?m = Err _ |- _ => destruct m eqn:?; simpl in H; simplify_eq
  | H : Ok _ = Err _ |- _ => discriminate H
  | H : mret _ = Err _ |- _ => discriminate H
  | H : Panic _ = Err _ |- _ => discriminate H
  end.
Ltac inv_err := repeat (inv_err_step; try subst).

(** Success of the arithmetic operations, in the hypotheses. *)
Ltac inv_arith :=
  repeat (inv_ok; match goal with
  | H : uadd _ _ = Ok _ |- _ => apply uadd_Ok in H as [-> ?]
  | H : usub _ _ = Ok _ |- _ => apply usub_Ok in H as [-> ?]
  | H : umul _ _ = Ok _ |- _ => apply umul_Ok in H as [-> ?]
  | H : checked_add _ _ = Some _ |- _ => apply checked_add_Some in H as [-> ?]
  | H : next_multiple_of _ _ = Ok _ |- _ => apply next_multiple_of_Ok in H as (? & -> & ?)
  | H : checked_next_multiple_of _ _ = Some _ |- _ =>
      apply checked_next_multiple_of_Some in H as (? & -> & ?)
  end); inv_ok.

(** ** Bytes *)

(** [to_ne_bytes] and [from_ne_bytes] on the little-endian targets of the
    repository. *)
Fixpoint le_bytes (n : nat) (v : Z) : list Z :=
  match n with O => [] | S n => v mod 256 :: le_bytes n (v / 256) end.
Fixpoint le_value (l : list Z) : Z :=
  match l with [] => 0 | b :: l => b + 256 * le_value l end.

Definition is_byte (b : Z) : Prop := 0 <= b < 256.

Lemma length_le_bytes n v : length (le_bytes n v) = n.
Proof. revert v. induction n as [|n IH]; intros v; cbn; [done|by rewrite IH]. Qed.

Lemma le_value_bytes n v : 0 <= v < 256 ^ Z.of_nat n -> le_value (le_bytes n v) = v.
Proof.
  revert v. induction n as [|n IH]; intros v Hv; cbn [le_bytes le_value]; [change (256 ^ Z.of_nat 0) with 1 in Hv; lia|].
  rewrite Nat2Z.inj_succ, Z.pow_succ_r in Hv by lia.
  rewrite IH; [pose proof (Z.div_mod v 256); lia|].
  split; [apply Z.div_pos; lia|]. apply Z.div_lt_upper_bound; lia.
Qed.

Lemma le_value_bound l : Forall is_byte l -> 0 <= le_value l < 256 ^ Z.of_nat (length l).
Proof.
  unfold is_byte. induction 1 as [|b l Hb Hl IH]; cbn [le_value length]; [done|].
  rewrite Nat2Z.inj_succ, Z.pow_succ_r by lia. lia.
Qed.

Lemma le_bytes_value l : Forall is_byte l -> le_bytes (length l) (le_value l) = l.
Proof.
  unfold is_byte. induction 1 as [|b l Hb Hl IH]; cbn [le_value le_bytes length]; [done|].
  rewrite (Z.mul_comm 256), Z.mod_add, Z.mod_small, Z.div_add, (Z.div_small b), Z.add_0_l, IH by lia. done.
Qed.

Lemma le_bytes_is_byte n v : Forall is_byte (le_bytes n v).
Proof.
  unfold is_byte. revert v. induction n as [|n IH]; intros v; cbn; constructor; [|apply IH].
  apply Z.mod_pos_bound. lia.
Qed.

(** ** Slices of bytes *)

(** [len] elements from index [off] on, as many as there are. *)
Definition slice {A} (l : list A) (off n : Z) : list A := take (Z.to_nat n) (drop (Z.to_nat off) l).

(** [l.get(lo..hi)]. *)
Definition get_range {A} (l : list A) (lo hi : Z) : option (list A) :=
  if (lo <=? hi) && (hi <=? Z.of_nat (length l)) then Some (slice l lo (hi - lo)) else None.

(** [l[off..][..s.len()].copy_from_slice(s)], where it is in range. *)
Definition overwrite {A} (l : list A) (off : Z) (s : list A) : list A :=
  take (Z.to_nat off) l ++ s ++ drop (Z.to_nat off + length s) l.

(** An unsigned integer of [n] bytes at offset [off]. *)
Definition field (l : list Z) (off n : Z) : Z := le_value (slice l off n).

Section slices.
Context {A : Type}.
Implicit Types l s : list A.

Lemma length_slice l off n :
  0 <= off -> 0 <= n -> off + n <= Z.of_nat (length l) -> Z.of_nat (length (slice l off n)) = n.
Proof. intros. unfold slice. rewrite length_take, length_drop. lia. Qed.

Lemma lookup_slice l off n i :
  0 <= off -> (i < Z.to_nat n)%nat -> slice l off n !! i = l !! (Z.to_nat off + i)%nat.
Proof. intros. unfold slice. rewrite lookup_take_lt by done. by rewrite lookup_drop. Qed.

Lemma get_range_Some l lo hi s :
  get_range l lo hi = Some s <-> lo <= hi <= Z.of_nat (length l) /\ s = slice l lo (hi - lo).
Proof.
  unfold get_range. destruct (Z.leb_spec lo hi), (Z.leb_spec hi (Z.of_nat (length l))); cbn; naive_solver lia.
Qed.

Lemma length_overwrite l off s :
  0 <= off -> off + Z.of_nat (length s) <= Z.of_nat (length l) -> length (overwrite l off s) = length l.
Proof. intros. unfold overwrite. rewrite !length_app, length_take, length_drop. lia. Qed.

Lemma lookup_overwrite_in l off s i :
  0 <= off -> off + Z.of_nat (length s) <= Z.of_nat (length l) -> (i < length s)%nat ->
  overwrite l off s !! (Z.to_nat off + i)%nat = s !! i.
Proof.
  intros. unfold overwrite. rewrite lookup_app_r by (rewrite length_take; lia). rewrite length_take.
  rewrite Nat.min_l by lia. replace (Z.to_nat off + i - Z.to_nat off)%nat with i by lia.
  by rewrite lookup_app_l.
Qed.

Lemma lookup_overwrite_out l off s i :
  0 <= off -> off + Z.of_nat (length s) <= Z.of_nat (length l) ->
  Z.of_nat i < off \/ off + Z.of_nat (length s) <= Z.of_nat i ->
  overwrite l off s !! i = l !! i.
Proof.
  intros ?? [Hi|Hi]; unfold overwrite.
  - rewrite lookup_app_l by (rewrite length_take; lia). by rewrite lookup_take_lt by lia.
  - rewrite lookup_app_r by (rewrite length_take; lia). rewrite length_take, Nat.min_l by lia.
    rewrite lookup_app_r by lia. rewrite lookup_drop. f_equal. lia.
Qed.

(** A slice that was just written, and one that does not touch it. *)
Lemma slice_overwrite_in l off s :
  0 <= off -> off + Z.of_nat (length s) <= Z.of_nat (length l) ->
  slice (overwrite l off s) off (Z.of_nat (length s)) = s.
Proof.
  intros. unfold slice, overwrite. rewrite drop_app_length' by (rewrite length_take; lia).
  rewrite Nat2Z.id. by rewrite take_app_length.
Qed.

Lemma slice_overwrite_out l off s o n :
  0 <= off -> off + Z.of_nat (length s) <= Z.of_nat (length l) -> 0 <= o ->
  o + n <= off \/ off + Z.of_nat (length s) <= o ->
  slice (overwrite l off s) o n = slice l o n.
Proof.
  intros. apply list_eq. intros i. destruct (decide (i < Z.to_nat n)%nat).
  - rewrite !lookup_slice by lia. apply lookup_overwrite_out; lia.
  - unfold slice. by rewrite !lookup_take_ge by lia.
Qed.
End slices.

(** ** Splitting *)

(** [split(c)] and [join(c)]. *)
Fixpoint split_on (c : Z) (s : list Z) : list (list Z) :=
  match s with
  | [] => [[]]
  | x :: s => if x =? c then [] :: split_on c s
              else match split_on c s with p :: ps => (x :: p) :: ps | [] => [[x]] end
  end.
Fixpoint join_on (c : Z) (l : list (list Z)) : list Z :=
  match l with [] => [] | [p] => p | p :: ps => p ++ c :: join_on c ps end.

Lemma split_on_part c p : c ∉ p -> split_on c p = [p].
Proof.
  induction p as [|x p IH]; intros Hc; [done|]. apply not_elem_of_cons in Hc as [Hx Hc]. cbn.
  rewrite (proj2 (Z.eqb_neq x c)) by done. by rewrite IH.
Qed.
Lemma split_on_cons c p s : c ∉ p -> split_on c (p ++ c :: s) = p :: split_on c s.
Proof.
  induction p as [|x p IH]; intros Hc; cbn; [by rewrite Z.eqb_refl|]. apply not_elem_of_cons in Hc as [Hx Hc].
  rewrite (proj2 (Z.eqb_neq x c)) by done. by rewrite IH.
Qed.
(** Parts without the separator survive. *)
Lemma split_join c l : l <> [] -> Forall (fun p => c ∉ p) l -> split_on c (join_on c l) = l.
Proof.
  intros Hn Hl. induction Hl as [|p l Hp Hl IH]; [done|]. destruct l as [|q l]; [by apply split_on_part|].
  change (join_on c (p :: q :: l)) with (p ++ c :: join_on c (q :: l)). rewrite split_on_cons by done. by rewrite IH.
Qed.

(** ** Chunks *)

(** [l.iter().enumerate()]. *)
Definition enumerate {A} (l : list A) : list (nat * A) := zip (seq 0 (length l)) l.

Fixpoint chunks_go {A} (fuel n : nat) (l : list A) : list (list A) :=
  match fuel with
  | O => []
  | S fuel => match l with [] => [] | _ => take n l :: chunks_go fuel n (drop n l) end
  end.
(** [l.chunks(n)]: pieces of [n] elements, and what is left. *)
Definition chunks {A} (n : nat) (l : list A) : list (list A) := chunks_go (length l) n l.
(** [l.chunks_exact(n)]. *)
Definition chunks_exact {A} (n : nat) (l : list A) : list (list A) := filter (fun c => length c = n) (chunks n l).

(** The signed integer of [n] bits with the bits of [v]. *)
Definition to_signed (n v : Z) : Z := if v <? 2 ^ (n - 1) then v else v - 2 ^ n.

Section chunks.
Context {A : Type}.
Implicit Types (l c : list A) (n : nat).

Lemma enumerate_snoc l a : enumerate (l ++ [a]) = enumerate l ++ [(length l, a)].
Proof.
  unfold enumerate. rewrite length_app, seq_app. cbn. rewrite zip_with_app by (by rewrite length_seq). done.
Qed.

Lemma enumerate_lookup l i j a : enumerate l !! i = Some (j, a) <-> j = i /\ l !! i = Some a.
Proof.
  unfold enumerate. rewrite lookup_zip_with_Some. split.
  - intros (x & y & [= -> ->] & [-> _]%lookup_seq & H). done.
  - intros [-> H]. exists i, a. split; [done|]. split; [|done]. apply lookup_seq. cbn.
    split; [done|]. by apply lookup_lt_Some in H.
Qed.

Lemma chunks_go_fuel f n l : (0 < n)%nat -> (length l <= f)%nat -> chunks_go f n l = chunks n l.
Proof.
  intros Hn. unfold chunks. remember (length l) as k eqn:Hk. assert (length l <= k)%nat as Hl by lia. clear Hk.
  revert f l Hl. induction k as [|k IH]; intros [|f] l Hl Hf; try lia; destruct l as [|a l]; try done; cbn in Hl; try lia.
  cbn [chunks_go]. f_equal. apply IH; [rewrite length_drop; cbn; lia|lia].
Qed.

Lemma chunks_cons n c l : (0 < n)%nat -> length c = n -> chunks n (c ++ l) = c :: chunks n l.
Proof.
  intros Hn Hc. destruct c as [|a c]; [cbn in Hc; lia|].
  rewrite <-(chunks_go_fuel (S (length (c ++ l))) n) by (done || (cbn; lia)).
  change ((a :: c) ++ l) with (a :: c ++ l) at 1. cbn [chunks_go].
  replace (take n (a :: c ++ l)) with (a :: c) by (symmetry; apply (take_app_length' (a :: c)); done).
  replace (drop n (a :: c ++ l)) with l by (symmetry; apply (drop_app_length' (a :: c)); done).
  f_equal. apply chunks_go_fuel; [done|]. rewrite length_app. lia.
Qed.

Lemma chunks_concat n cs : (0 < n)%nat -> Forall (fun c => length c = n) cs -> chunks n (concat cs) = cs.
Proof. intros Hn. induction 1 as [|c cs Hc _ IH]; [done|]. cbn [concat]. by rewrite chunks_cons, IH. Qed.

Lemma chunks_exact_length n l : Forall (fun c => length c = n) (chunks_exact n l).
Proof. apply Forall_forall. intros c [Hc _]%list_elem_of_filter. done. Qed.

Lemma chunks_exact_concat n cs :
  (0 < n)%nat -> Forall (fun c => length c = n) cs -> chunks_exact n (concat cs) = cs.
Proof.
  intros Hn Hc. unfold chunks_exact. rewrite chunks_concat by done.
  induction Hc as [|c cs Hc _ IH]; [done|]. rewrite filter_cons_True by done. by rewrite IH.
Qed.
End chunks.

Lemma slice_slice {A} (l : list A) a n b m :
  0 <= a -> 0 <= b -> 0 <= m -> b + m <= n -> slice (slice l a n) b m = slice l (a + b) m.
Proof.
  intros. unfold slice. rewrite skipn_firstn_comm, firstn_firstn, skipn_skipn. f_equal; [lia|]. f_equal. lia.
Qed.

Lemma Forall_slice {A} (P : A -> Prop) l off n : Forall P l -> Forall P (slice l off n).
Proof. intros H. unfold slice. by apply Forall_take, Forall_drop. Qed.

Lemma Forall_overwrite {A} (P : A -> Prop) l off s : Forall P l -> Forall P s -> Forall P (overwrite l off s).
Proof. intros. unfold overwrite. rewrite !Forall_app. split_and!; [by apply Forall_take|done|by apply Forall_drop]. Qed.

Lemma field_bound l off n : 0 <= n -> Forall is_byte l -> 0 <= field l off n < 256 ^ n.
Proof.
  intros Hn H. unfold field. destruct (le_value_bound (slice l off n)) as [H1 H2]; [by apply Forall_slice|].
  split; [done|]. eapply Z.lt_le_trans; [done|]. apply Z.pow_le_mono_r; [lia|].
  unfold slice. rewrite length_take. lia.
Qed.

Lemma field_nonneg l off n : Forall is_byte l -> 0 <= field l off n.
Proof. intros H. unfold field. apply le_value_bound. by apply Forall_slice. Qed.

#[global] Arguments le_bytes : simpl never.
