(* ===== verification/BTree.v ===== *)
(** * Ordered maps

    [std::collections::BTreeMap<usize, V>] as the list of its entries in
    increasing key order, with the operations the repository uses:
    [get], [insert], [remove], [range] and [range_mut].  The lemmas describe
    each operation by its effect on [get]. *)
From Stdlib Require Import Sorted.
From S2P Require Import Prelude.

Section btree.
Context {V : Type}.
Implicit Types (m : list (Z * V)) (k lo hi : Z) (v : V).

Definition key_lt (a b : Z * V) : Prop := a.1 < b.1.

(** The entries are in strictly increasing key order. *)
Definition bt_ok m : Prop := StronglySorted key_lt m.

Fixpoint bt_get k m : option V :=
  match m with
  | [] => None
  | (k', v) :: m' => if k =? k' then Some v else bt_get k m'
  end.

Fixpoint bt_insert k v m : list (Z * V) :=
  match m with
  | [] => [(k, v)]
  | (k', v') :: m' =>
      if k <? k' then (k, v) :: m
      else if k =? k' then (k, v) :: m'
      else (k', v') :: bt_insert k v m'
  end.

Definition bt_remove k m : list (Z * V) :=
  List.filter (fun p => negb (p.1 =? k)) m.

Definition in_range lo hi k : bool := (lo <=? k) && (k <? hi).

(** [range(lo..hi)], in key order. *)
Definition bt_range lo hi m : list (Z * V) :=
  List.filter (fun p => in_range lo hi p.1) m.

(** A loop over [range_mut(lo..hi)] that replaces every value by [v]. *)
Definition bt_fill lo hi v m : list (Z * V) :=
  List.map (fun p => if in_range lo hi p.1 then (p.1, v) else p) m.

Lemma in_range_true lo hi k : in_range lo hi k = true <-> lo <= k < hi.
Proof. unfold in_range. rewrite andb_true_iff, Z.leb_le, Z.ltb_lt. lia. Qed.

Lemma bt_ok_nil : bt_ok [].
Proof. constructor. Qed.

Lemma bt_ok_cons k v m :
  bt_ok ((k, v) :: m) <-> bt_ok m /\ forall k' v', bt_get k' m = Some v' -> k < k'.
Proof.
  split.
  - intros H. apply StronglySorted_inv in H as [H1 H2]. split; [done|].
    intros k' v'. induction m as [|[k0 v0] m IH]; cbn; [done|].
    inversion H2; subst. apply StronglySorted_inv in H1 as [H1 _].
    destruct (Z.eqb_spec k' k0) as [->|]; [by intros _|auto].
  - intros [H1 H2]. constructor; [done|].
    clear H1. assert (forall k' v', bt_get k' m = Some v' -> k < k') as H by done. clear H2.
    revert H. induction m as [|[k0 v0] m IH]; intros H; constructor.
    + apply (H k0 v0). cbn. by rewrite Z.eqb_refl.
    + apply IH. intros k' v' Hk. destruct (Z.eqb_spec k' k0) as [->|Hne].
      * apply (H k0 v0). cbn. by rewrite Z.eqb_refl.
      * apply (H k' v'). cbn. by rewrite (proj2 (Z.eqb_neq k' k0)).
Qed.

Lemma bt_get_elem_of k v m : bt_get k m = Some v -> In (k, v) m.
Proof.
  induction m as [|[k0 v0] m IH]; cbn; [done|].
  destruct (Z.eqb_spec k k0) as [->|]; naive_solver.
Qed.

Lemma bt_get_In k v m : bt_ok m -> In (k, v) m <-> bt_get k m = Some v.
Proof.
  intros Hok. split; [|apply bt_get_elem_of].
  induction m as [|[k0 v0] m IH]; cbn; [done|].
  apply bt_ok_cons in Hok as [Hok Hlt]. intros [[= -> ->]|Hin].
  - by rewrite Z.eqb_refl.
  - specialize (IH Hok Hin). specialize (Hlt _ _ IH).
    rewrite (proj2 (Z.eqb_neq k k0)) by lia. done.
Qed.

Lemma bt_get_insert k v m k' :
  bt_get k' (bt_insert k v m) = if k' =? k then Some v else bt_get k' m.
Proof.
  induction m as [|[k0 v0] m IH]; cbn; [done|].
  destruct (Z.ltb_spec k k0); [done|].
  destruct (Z.eqb_spec k k0) as [->|]; cbn.
  - by destruct (k' =? k0).
  - rewrite IH. destruct (Z.eqb_spec k' k0), (Z.eqb_spec k' k); try done. lia.
Qed.

Lemma bt_insert_ok k v m : bt_ok m -> bt_ok (bt_insert k v m).
Proof.
  induction m as [|[k0 v0] m IH]; intros Hok; cbn.
  { apply bt_ok_cons. split; [apply bt_ok_nil|done]. }
  destruct (Z.ltb_spec k k0).
  { apply bt_ok_cons. split; [done|]. intros k' v'. cbn.
    apply bt_ok_cons in Hok as [_ Hok].
    destruct (Z.eqb_spec k' k0) as [->|]; [done|]. intros Hk. specialize (Hok _ _ Hk). lia. }
  apply bt_ok_cons in Hok as [Hok Hlt].
  destruct (Z.eqb_spec k k0) as [->|]; apply bt_ok_cons; [done|].
  split; [by apply IH|]. intros k' v'. rewrite bt_get_insert.
  destruct (Z.eqb_spec k' k) as [->|]; [lia|apply Hlt].
Qed.

(** Filtering by key. *)
Lemma bt_get_filter (f : Z -> bool) m k :
  bt_get k (List.filter (fun p => f p.1) m) = if f k then bt_get k m else None.
Proof.
  induction m as [|[k0 v0] m IH]; cbn; [by destruct (f k)|].
  destruct (f k0) eqn:Hf0; cbn; rewrite IH;
    destruct (Z.eqb_spec k k0) as [->|]; try done; by rewrite Hf0.
Qed.

Lemma bt_filter_ok (f : Z * V -> bool) m : bt_ok m -> bt_ok (List.filter f m).
Proof.
  induction 1 as [|p m Hs IH Hf]; cbn; [constructor|].
  destruct (f p); [|done]. constructor; [done|].
  rewrite List.Forall_forall in *. intros q [Hq _]%filter_In. auto.
Qed.

Lemma bt_get_remove k m k' :
  bt_get k' (bt_remove k m) = if k' =? k then None else bt_get k' m.
Proof.
  unfold bt_remove. rewrite (bt_get_filter (fun x => negb (x =? k))).
  by destruct (k' =? k).
Qed.

Lemma bt_remove_ok k m : bt_ok m -> bt_ok (bt_remove k m).
Proof. apply bt_filter_ok. Qed.

Lemma bt_get_range lo hi m k :
  bt_get k (bt_range lo hi m) = if in_range lo hi k then bt_get k m else None.
Proof. apply (bt_get_filter (in_range lo hi)). Qed.

Lemma bt_range_ok lo hi m : bt_ok m -> bt_ok (bt_range lo hi m).
Proof. apply bt_filter_ok. Qed.

Lemma bt_range_nil lo hi m :
  bt_range lo hi m = [] <-> forall k, lo <= k < hi -> bt_get k m = None.
Proof.
  split.
  - intros H k Hk. pose proof (bt_get_range lo hi m k) as Hg.
    rewrite H, (proj2 (in_range_true lo hi k)) in Hg by done. by rewrite <- Hg.
  - intros H. destruct (bt_range lo hi m) as [|[k v] l] eqn:He; [done|exfalso].
    pose proof (bt_get_range lo hi m k) as Hg. rewrite He in Hg. cbn in Hg.
    rewrite Z.eqb_refl in Hg. destruct (in_range lo hi k) eqn:Hr; [|done].
    apply in_range_true in Hr. by rewrite H in Hg.
Qed.

Lemma bt_get_fill lo hi v m k :
  bt_get k (bt_fill lo hi v m)
  = if in_range lo hi k then (fun _ => v) <$> bt_get k m else bt_get k m.
Proof.
  induction m as [|[k0 v0] m IH]; cbn.
  { by destruct (in_range lo hi k). }
  unfold bt_fill in IH.
  destruct (in_range lo hi k0) eqn:H0; cbn; rewrite IH;
    destruct (Z.eqb_spec k k0) as [->|]; try done; by rewrite H0.
Qed.

Lemma bt_fill_ok lo hi v m : bt_ok m -> bt_ok (bt_fill lo hi v m).
Proof.
  induction m as [|[k0 v0] m IH]; cbn; [done|].
  intros [Hok Hlt]%bt_ok_cons.
  assert (bt_ok ((k0, if in_range lo hi k0 then v else v0) :: bt_fill lo hi v m)) as H.
  { apply bt_ok_cons. split; [by apply IH|]. intros k' v'. rewrite bt_get_fill.
    destruct (bt_get k' m) eqn:Hk; [|by destruct (in_range lo hi k')].
    intros _. by eapply Hlt. }
  by destruct (in_range lo hi k0).
Qed.

(** Maps with the same lookups are equal. *)
Lemma bt_ext m1 m2 :
  bt_ok m1 -> bt_ok m2 -> (forall k, bt_get k m1 = bt_get k m2) -> m1 = m2.
Proof.
  revert m2. induction m1 as [|[k1 v1] m1 IH]; intros [|[k2 v2] m2] H1 H2 H.
  - done.
  - specialize (H k2). cbn in H. by rewrite Z.eqb_refl in H.
  - specialize (H k1). cbn in H. by rewrite Z.eqb_refl in H.
  - apply bt_ok_cons in H1 as [H1 L1], H2 as [H2 L2].
    assert (k1 = k2) as ->.
    { pose proof (H k1) as A. pose proof (H k2) as B. cbn in A, B.
      rewrite Z.eqb_refl in A, B.
      destruct (Z.eqb_spec k1 k2) as [|Hne]; [done|].
      rewrite (proj2 (Z.eqb_neq k2 k1)) in B by done.
      specialize (L2 _ _ (eq_sym A)). specialize (L1 _ _ B). lia. }
    pose proof (H k2) as A. cbn in A. rewrite Z.eqb_refl in A. injection A as ->.
    f_equal. apply IH; [done..|]. intros k. specialize (H k). cbn in H.
    destruct (Z.eqb_spec k k2) as [Hk|]; [rewrite Hk|done].
    destruct (bt_get k2 m1) eqn:E1; [specialize (L1 _ _ E1); lia|].
    destruct (bt_get k2 m2) eqn:E2; [specialize (L2 _ _ E2); lia|done].
Qed.

(** The first entry of a range is its least key. *)
Lemma bt_range_cons lo hi m k v l :
  bt_ok m -> bt_range lo hi m = (k, v) :: l ->
  lo <= k < hi /\ bt_get k m = Some v
  /\ (forall k', lo <= k' < k -> bt_get k' m = None)
  /\ l = bt_range (k + 1) hi m.
Proof.
  intros Hok He. pose proof (bt_range_ok lo hi m Hok) as Hr. rewrite He in Hr.
  apply bt_ok_cons in Hr as [Hl Hlt].
  assert (lo <= k < hi /\ bt_get k m = Some v) as [Hk Hg].
  { pose proof (bt_get_range lo hi m k) as Hg. rewrite He in Hg. cbn in Hg.
    rewrite Z.eqb_refl in Hg. destruct (in_range lo hi k) eqn:Hr; [|done].
    by apply in_range_true in Hr. }
  assert (forall k', bt_get k' l = if in_range (k + 1) hi k' then bt_get k' m else None) as Hgl.
  { intros k'. pose proof (bt_get_range lo hi m k') as Hg'. rewrite He in Hg'. cbn in Hg'.
    destruct (Z.eqb_spec k' k) as [Heq|Hne].
    - rewrite Heq. destruct (bt_get k l) eqn:E; [specialize (Hlt _ _ E); lia|].
      destruct (in_range (k + 1) hi k) eqn:Hr; [|done]. apply in_range_true in Hr; lia.
    - destruct (in_range (k + 1) hi k') eqn:Hr.
      + apply in_range_true in Hr. rewrite Hg'.
        by rewrite (proj2 (in_range_true lo hi k')) by lia.
      + destruct (bt_get k' l) eqn:E; [|done]. exfalso.
        specialize (Hlt _ _ E).
        destruct (in_range lo hi k') eqn:Hr2; [|done].
        apply in_range_true in Hr2.
        assert (in_range (k + 1) hi k' = true); [|congruence]. apply in_range_true; lia. }
  split; [done|]. split; [done|]. split.
  - intros k' Hk'. pose proof (bt_get_range lo hi m k') as Hg'. rewrite He in Hg'. cbn in Hg'.
    rewrite (proj2 (in_range_true lo hi k')) in Hg' by lia.
    rewrite (proj2 (Z.eqb_neq k' k)) in Hg' by lia. rewrite <- Hg', Hgl.
    destruct (in_range (k + 1) hi k') eqn:Hr; [|done]. apply in_range_true in Hr; lia.
  - apply bt_ext; [done|by apply bt_range_ok|]. intros k'. by rewrite Hgl, bt_get_range.
Qed.
End btree.

Arguments bt_ok {V} m.
#[export] Hint Resolve bt_ok_nil bt_insert_ok bt_remove_ok bt_fill_ok bt_range_ok : obl.
