(* ===== verification/Ram.v ===== *)
(** * RAM of the virtual machine

    Models [lib/hv/src/ram/mod.rs] and the locking half of
    [lib/hv/src/ram/lock.rs]: a range of guest memory, the map of its
    allocated blocks with their lock state, and the operations that
    allocate, deallocate and lock blocks under one mutex and one condition
    variable. *)
From S2P Require Import Prelude BTree.

Module Ram.

(** ** Data *)

(** State of an allocated block. *)
Inductive State := Locked | Unlocked.

#[export] Instance State_eq_dec : EqDecision State.
Proof. solve_decision. Defined.

(** Errors of the operating system are carried as raw error codes. *)
Inductive RamError :=
  | InvalidAddr
  | AlreadyAllocated
  | Commit (os : Z)
  | Map (os : Z)
  | Decommit (os : Z).

(** The errors of [HvError] that [Ram::new] returns. *)
Inductive HvError :=
  | GetHostPageSize (os : Z)
  | InvalidRamSize
  | CreateRamFailed (os : Z).

(** The services of the host: [ram/unix.rs] and [ram/windows.rs] forward to
    the system, [RamMapper::map] to the hypervisor.  Each returns an error
    code or succeeds. *)
Record host := Host {
  os_get_page_size : Z + Z;
  os_reserve : Z -> Z + Z; (* length to host address *)
  os_commit : Z -> Z -> Z + unit; (* host address and length *)
  os_decommit : Z -> Z -> Z + unit;
  mapper_map : Z -> Z -> Z -> Z + unit (* host address, guest address, length *)
}.

Record t := Mk {
  mem : Z; (* host address of guest address 0 *)
  len : Z;
  vm_page_size : Z;
  host_page_size : Z;
  allocated : list (Z * State) (* BTreeMap<usize, State> *)
}.

(** RAII guard that keeps a range locked ([ram/lock.rs]). *)
Record LockedMem := Guard { lm_addr : Z; lm_len : Z }.

Definition set_allocated (a : list (Z * State)) (r : t) : t :=
  Mk (mem r) (len r) (vm_page_size r) (host_page_size r) a.

(** [usize::is_power_of_two]. *)
Definition is_power_of_two (z : Z) : bool := (0 <? z) && (Z.land z (z - 1) =? 0).

(** ** Operations *)

Definition block_size (r : t) : Z := Z.max (vm_page_size r) (host_page_size r).

Definition new (h : host) (vm_page_size len : Z) : outcome HvError t :=
  match os_get_page_size h with
  | inl e => Err (GetHostPageSize e)
  | inr host_page_size =>
      assert_that (is_power_of_two host_page_size);;
      assert_that (is_power_of_two vm_page_size);;
      let block_size := Z.max vm_page_size host_page_size in
      if negb (len mod block_size =? 0) then Err InvalidRamSize
      else match os_reserve h len with
           | inl e => Err (CreateRamFailed e)
           | inr mem => Ok (Mk mem len vm_page_size host_page_size [])
           end
  end.

(** [assert!(allocated.insert(addr, State::Locked).is_none())] for every
    address of the list. *)
Fixpoint insert_blocks {E} (addrs : list Z) (a : list (Z * State))
    : outcome E (list (Z * State)) :=
  match addrs with
  | [] => Ok a
  | addr :: rest =>
      assert_that (match bt_get addr a with None => true | Some _ => false end);;
      insert_blocks rest (bt_insert addr Locked a)
  end.

Definition alloc (h : host) (r : t) (addr len' : Z) : outcome RamError (LockedMem * t) :=
  assert_that (addr mod block_size r =? 0);;
  assert_that (len' mod block_size r =? 0);;
  end_ ← ok_or InvalidAddr (checked_add addr len');
  fail_if (len r <? end_) InvalidAddr;;
  match bt_range addr end_ (allocated r) with
  | _ :: _ => Err AlreadyAllocated
  | [] =>
      let start := mem r + addr in
      match os_commit h start len' with
      | inl e => Err (Commit e)
      | inr _ =>
          match mapper_map h start addr len' with
          | inl e => Err (Map e)
          | inr _ =>
              a ← insert_blocks (step_by addr end_ (block_size r)) (allocated r);
              Ok (Guard addr len', set_allocated a r)
          end
      end
  end.

(** One pass of the loop of [dealloc], between two waits on the condition
    variable: either it returns, or it waits and continues at an address. *)
Inductive dealloc_result :=
  | DDone
  | DWait (addr : Z).

(** The inner loop: the last address of the run of unlocked blocks that
    starts at [last], and whether a locked block ends it. *)
Fixpoint unlocked_run (range : list (Z * State)) (last : Z) : Z * bool :=
  match range with
  | [] => (last, false)
  | (_, Locked) :: _ => (last, true)
  | (addr, Unlocked) :: rest => unlocked_run rest addr
  end.

Definition dealloc_pass (h : host) (r : t) (addr end_ : Z)
    : outcome RamError (dealloc_result * t) :=
  match bt_range addr end_ (allocated r) with
  | [] => Ok (DDone, r)
  | (_, Locked) :: _ => Ok (DWait addr, r)
  | (addr', Unlocked) :: range =>
      let (last, locked) := unlocked_run range addr' in
      let end' := last + block_size r in
      match os_decommit h (mem r + addr') (end' - addr') with
      | inl e => Err (Decommit e)
      | inr _ =>
          let a := foldl (fun a addr => bt_remove addr a) (allocated r)
                         (step_by addr' end' (block_size r)) in
          Ok (if locked then DWait end' else DDone, set_allocated a r)
      end
  end.

(** The checks before the loop of [dealloc]; the result is the end address. *)
Definition dealloc_check (r : t) (addr len' : Z) : outcome RamError Z :=
  assert_that (addr mod block_size r =? 0);;
  assert_that (len' mod block_size r =? 0);;
  end_ ← ok_or InvalidAddr (checked_add addr len');
  fail_if (len r <? end_) InvalidAddr;;
  Ok end_.

(** [dealloc] up to its return or its first wait. *)
Definition dealloc (h : host) (r : t) (addr len' : Z)
    : outcome RamError (dealloc_result * t) :=
  end_ ← dealloc_check r addr len';
  dealloc_pass h r addr end_.

(** How the [for] loop of [lock] over the range ends. *)
Inductive scan := ScanGap | ScanBlocked | ScanEnd.

Fixpoint lock_scan (bs next : Z) (range a : list (Z * State))
    : scan * Z * list (Z * State) :=
  match range with
  | [] => (ScanEnd, next, a)
  | (addr, state) :: rest =>
      if negb (addr =? next) then (ScanGap, next, a)
      else match state with
           | Locked => (ScanBlocked, next, a)
           | Unlocked => lock_scan bs (next + bs) rest (bt_insert addr Locked a)
           end
  end.

(** Result of a pass of [lock]: a guard, [None] (with whether [notify_one]
    was called), or a wait with the progress made so far. *)
Inductive lock_result :=
  | LSome (g : LockedMem)
  | LNone (notify : bool)
  | LWait (next : Z).

(** One pass of the loop of [lock], from label ['top] to a wait or to the
    end of the function.  [begin] is the address rounded down. *)
Definition lock_pass (r : t) (addr len' next : Z) : lock_result * t :=
  let begin := addr - addr mod block_size r in
  let end_ := addr + len' in
  let '(k, next', a) :=
    lock_scan (block_size r) next (bt_range next end_ (allocated r)) (allocated r) in
  match k with
  | ScanBlocked => (LWait next', set_allocated a r)
  | _ =>
      let ok := match k with ScanEnd => true | _ => false end in
      if negb ok || (next' <? end_) then
        (LNone (negb (next' =? begin)),
         set_allocated (bt_fill begin next' Unlocked a) r)
      else (LSome (Guard addr len'), set_allocated a r)
  end.

(** [lock] up to its return or its first wait. *)
Definition lock (r : t) (addr len' : Z) : lock_result * t :=
  match checked_add addr len' with
  | None => (LNone false, r)
  | Some _ => lock_pass r addr len' (addr - addr mod block_size r)
  end.

(** [Drop for LockedMem], before its [notify_one]. *)
Definition drop_guard (r : t) (g : LockedMem) : t :=
  let begin := lm_addr g - lm_addr g mod block_size r in
  let end_ := lm_addr g + lm_len g in
  set_allocated (bt_fill begin end_ Unlocked (allocated r)) r.

(** ** The concurrent system

    Threads run the operations above; the mutex makes every pass atomic, so
    the interleavings are sequences of passes.  A thread in [Condvar::wait]
    is a [pending] operation with a flag that says whether it has been woken
    and only waits for the mutex. *)

Inductive pending :=
  | PLock (addr len' next : Z)
  | PDealloc (addr end_ : Z).

Record sys := Sys {
  ram : t;
  waiters : gmap nat (pending * bool); (* thread id to operation, woken *)
  guards : gmap nat LockedMem (* live guards *)
}.

(** [Condvar::notify_one]: wakes one sleeping thread if there is one. *)
Inductive notify_one : gmap nat (pending * bool) -> gmap nat (pending * bool) -> Prop :=
  | notify_some w tid p :
      w !! tid = Some (p, false) -> notify_one w (<[tid := (p, true)]> w)
  | notify_none w :
      (forall tid p, w !! tid <> Some (p, false)) -> notify_one w w.

(** The effect of the result of a pass of [lock] by thread [tid], from a
    state in which [tid] is not waiting. *)
Inductive lock_finish (addr len' : Z) (tid : nat) (s : sys) (r : t) : lock_result -> sys -> Prop :=
  | finish_some g :
      guards s !! g = None ->
      lock_finish addr len' tid s r (LSome (Guard addr len'))
        (Sys r (waiters s) (<[g := Guard addr len']> (guards s)))
  | finish_none :
      lock_finish addr len' tid s r (LNone false) (Sys r (waiters s) (guards s))
  | finish_none_notify w :
      notify_one (waiters s) w ->
      lock_finish addr len' tid s r (LNone true) (Sys r w (guards s))
  | finish_wait next :
      lock_finish addr len' tid s r (LWait next)
        (Sys r (<[tid := (PLock addr len' next, false)]> (waiters s)) (guards s)).

Inductive dealloc_finish (end_ : Z) (tid : nat) (s : sys) (r : t) : dealloc_result -> sys -> Prop :=
  | dfinish_done : dealloc_finish end_ tid s r DDone (Sys r (waiters s) (guards s))
  | dfinish_wait addr :
      dealloc_finish end_ tid s r (DWait addr)
        (Sys r (<[tid := (PDealloc addr end_, false)]> (waiters s)) (guards s)).

Definition remove_waiter (tid : nat) (s : sys) : sys :=
  Sys (ram s) (delete tid (waiters s)) (guards s).

(** The steps of the system.  [spurious] says whether [Condvar::wait] may
    return without a notification, which its documentation allows. *)
Inductive step (spurious : bool) : sys -> sys -> Prop :=
  | step_alloc s h addr len' g gd r :
      0 <= addr -> 0 < len' -> guards s !! g = None ->
      alloc h (ram s) addr len' = Ok (gd, r) ->
      step spurious s (Sys r (waiters s) (<[g := gd]> (guards s)))
  | step_lock s s' tid addr len' r res :
      0 <= addr -> 0 < len' -> waiters s !! tid = None ->
      lock (ram s) addr len' = (res, r) ->
      lock_finish addr len' tid s r res s' ->
      step spurious s s'
  | step_lock_resume s s' tid addr len' next r res :
      waiters s !! tid = Some (PLock addr len' next, true) ->
      lock_pass (ram s) addr len' next = (res, r) ->
      lock_finish addr len' tid (remove_waiter tid s) r res s' ->
      step spurious s s'
  | step_dealloc s s' h tid addr len' r res :
      0 <= addr -> 0 < len' -> waiters s !! tid = None ->
      dealloc h (ram s) addr len' = Ok (res, r) ->
      dealloc_finish (addr + len') tid s r res s' ->
      step spurious s s'
  | step_dealloc_resume s s' h tid addr end_ r res :
      waiters s !! tid = Some (PDealloc addr end_, true) ->
      dealloc_pass h (ram s) addr end_ = Ok (res, r) ->
      dealloc_finish end_ tid (remove_waiter tid s) r res s' ->
      step spurious s s'
  | step_dealloc_failed s h tid addr end_ e :
      waiters s !! tid = Some (PDealloc addr end_, true) ->
      dealloc_pass h (ram s) addr end_ = Err e ->
      step spurious s (remove_waiter tid s)
  | step_drop s g gd w :
      guards s !! g = Some gd ->
      notify_one (waiters s) w ->
      step spurious s (Sys (drop_guard (ram s) gd) w (delete g (guards s)))
  | step_spurious s tid p :
      spurious = true ->
      waiters s !! tid = Some (p, false) ->
      step spurious s (Sys (ram s) (<[tid := (p, true)]> (waiters s)) (guards s)).

(** A fresh RAM with no waiter and no guard. *)
Inductive initial : sys -> Prop :=
  | initial_intro h vm len' r :
      new h vm len' = Ok r -> 0 < len' -> initial (Sys r ∅ ∅).

Definition reachable (spurious : bool) (s : sys) : Prop :=
  exists s0, initial s0 /\ rtc (step spurious) s0 s.

(** The blocks that a guard covers. *)
Definition covers (r : t) (g : LockedMem) (k : Z) : Prop :=
  k mod block_size r = 0
  /\ lm_addr g - lm_addr g mod block_size r <= k < lm_addr g + lm_len g.

(** The blocks that a waiting [lock] has locked so far. *)
Definition pending_covers (r : t) (p : pending) (k : Z) : Prop :=
  match p with
  | PLock addr _ next =>
      k mod block_size r = 0 /\ addr - addr mod block_size r <= k < next
  | PDealloc _ _ => False
  end.

(** An owner of locked blocks is a live guard or a waiting thread. *)
Definition owns (s : sys) (o : nat + nat) (k : Z) : Prop :=
  match o with
  | inl g => exists gd, guards s !! g = Some gd /\ covers (ram s) gd k
  | inr tid => exists p b, waiters s !! tid = Some (p, b) /\ pending_covers (ram s) p k
  end.

(** Well-formedness of the RAM alone. *)
Record ram_ok (r : t) : Prop := {
  ok_block : 0 < block_size r;
  ok_sorted : bt_ok (allocated r);
  ok_keys : forall k st, bt_get k (allocated r) = Some st ->
    k mod block_size r = 0 /\ 0 <= k /\ k + block_size r <= len r
}.

(** The invariant of the system: a block is locked exactly when it has an
    owner, and its owner is unique. *)
Record inv (s : sys) : Prop := {
  inv_ram : ram_ok (ram s);
  inv_owned : forall o k, owns s o k -> bt_get k (allocated (ram s)) = Some Locked;
  inv_owner : forall k, bt_get k (allocated (ram s)) = Some Locked -> exists o, owns s o k;
  inv_unique : forall o o' k, owns s o k -> owns s o' k -> o = o';
  inv_next : forall tid addr len' next b,
    waiters s !! tid = Some (PLock addr len' next, b) ->
    next mod block_size (ram s) = 0
    /\ addr - addr mod block_size (ram s) <= next < addr + len'
}.

(** ** Lemmas on single passes *)

(** The block addresses of an interval. *)
Definition in_blocks (bs lo hi x : Z) : bool := in_range lo hi x && (x mod bs =? 0).

Lemma in_blocks_true bs lo hi x :
  in_blocks bs lo hi x = true <-> lo <= x < hi /\ x mod bs = 0.
Proof. unfold in_blocks. rewrite andb_true_iff, in_range_true, Z.eqb_eq. done. Qed.

Lemma in_blocks_false bs lo hi x :
  in_blocks bs lo hi x = false <-> ~ (lo <= x < hi /\ x mod bs = 0).
Proof. rewrite <- in_blocks_true. by destruct (in_blocks bs lo hi x). Qed.

Lemma block_size_set a r : block_size (set_allocated a r) = block_size r.
Proof. done. Qed.

Lemma block_align bs x : 0 < bs -> (x - x mod bs) mod bs = 0 /\ x - x mod bs <= x < x - x mod bs + bs.
Proof.
  intros Hbs. pose proof (Z.mod_pos_bound x bs Hbs). split; [|lia].
  replace (x - x mod bs) with (x / bs * bs) by (pose proof (Z.div_mod x bs); lia).
  apply Z.mod_mul. lia.
Qed.

Lemma insert_blocks_Ok {E} l a a' :
  @insert_blocks E l a = Ok a' -> bt_ok a ->
  bt_ok a' /\ (forall k, k ∈ l -> bt_get k a' = Some Locked)
  /\ (forall k, k ∉ l -> bt_get k a' = bt_get k a).
Proof.
  revert a. induction l as [|x l IH]; cbn; intros a H Hok.
  { inv_ok. split; [done|]. split; [by intros k ?%not_elem_of_nil|done]. }
  inv_ok. destruct (bt_get x a) eqn:Hx; [done|].
  apply IH in H0 as (Hok' & Hin & Hout); [|by apply bt_insert_ok].
  split; [done|]. split.
  - intros k Hk. destruct (decide (k ∈ l)) as [|Hl]; [by apply Hin|].
    apply elem_of_cons in Hk as [->|]; [|done]. by rewrite Hout, bt_get_insert, Z.eqb_refl.
  - intros k [Hne Hl]%not_elem_of_cons. rewrite Hout, bt_get_insert by done.
    by rewrite (proj2 (Z.eqb_neq k x)).
Qed.

Lemma insert_blocks_complete {E} l a :
  bt_ok a -> NoDup l -> (forall k, k ∈ l -> bt_get k a = None) ->
  exists a', @insert_blocks E l a = Ok a'.
Proof.
  revert a. induction l as [|x l IH]; intros a Hok Hnd Hfree; cbn; [eauto|].
  rewrite (Hfree x) by (by left). cbn. apply NoDup_cons in Hnd as [Hx Hnd].
  apply IH; [by apply bt_insert_ok|done|]. intros k Hk. rewrite bt_get_insert.
  destruct (Z.eqb_spec k x) as [->|]; [done|]. apply Hfree. by right.
Qed.

Lemma elem_of_blocks bs lo hi x :
  0 < bs -> lo mod bs = 0 -> x ∈ step_by lo hi bs <-> in_blocks bs lo hi x = true.
Proof.
  intros Hbs Hlo. rewrite elem_of_step_by, in_blocks_true by done.
  rewrite Zminus_mod, Hlo, Z.sub_0_r, Zmod_mod. done.
Qed.

(** What a successful [alloc] does. *)
Lemma alloc_Ok h r addr len' g r' :
  ram_ok r -> 0 <= addr -> 0 < len' -> alloc h r addr len' = Ok (g, r') ->
  g = Guard addr len' /\ addr mod block_size r = 0 /\ len' mod block_size r = 0
  /\ addr + len' <= len r
  /\ (forall k, addr <= k < addr + len' -> bt_get k (allocated r) = None)
  /\ (exists a, r' = set_allocated a r)
  /\ ram_ok r'
  /\ (forall k, bt_get k (allocated r')
        = if in_blocks (block_size r) addr (addr + len') k
          then Some Locked else bt_get k (allocated r)).
Proof.
  intros [Hbs Hok Hkeys] Ha Hl H. unfold alloc in H. inv_arith. bool_to_prop.
  destruct (bt_range addr (addr + len') (allocated r)) eqn:Hrange; [|done].
  destruct (os_commit _ _ _); [done|]. destruct (mapper_map _ _ _ _); [done|]. inv_ok.
  lazymatch goal with Hi : insert_blocks _ _ = Ok ?a' |- _ => rename a' into a; rename Hi into Hins end.
  apply insert_blocks_Ok in Hins as (Hok' & Hin & Hout); [|done].
  assert (forall k, bt_get k a = if in_blocks (block_size r) addr (addr + len') k
            then Some Locked else bt_get k (allocated r)) as Hget'.
  { intros k. destruct (in_blocks _ _ _ k) eqn:Hb.
    - apply Hin, elem_of_blocks; done.
    - apply Hout. rewrite elem_of_blocks by done. congruence. }
  split; [done|]. split; [done|]. split; [done|]. split; [lia|].
  split; [by apply bt_range_nil|]. split; [by eexists|].
  split; [split; [done|done|]|done].
  intros k st. cbn. rewrite Hget'. destruct (in_blocks _ _ _ k) eqn:Hb; [|apply Hkeys].
  apply in_blocks_true in Hb as [Hk Hm]. intros _. split; [done|]. split; [lia|].
  assert (k + block_size r <= addr + len'); [|rewrite block_size_set; cbn; lia].
  apply mult_gap; [done..| |lia]. by apply mult_add.
Qed.

Lemma lock_scan_spec bs end_ a0 range :
  0 < bs -> bt_ok a0 -> (forall x st, bt_get x a0 = Some st -> x mod bs = 0) ->
  forall next a k next' a',
  range = bt_range next end_ a0 -> next mod bs = 0 -> bt_ok a ->
  lock_scan bs next range a = (k, next', a') ->
  bt_ok a' /\ next <= next' /\ next' mod bs = 0
  /\ (forall x, bt_get x a' = if in_blocks bs next next' x then Some Locked else bt_get x a)
  /\ (forall x, in_blocks bs next next' x = true -> bt_get x a0 = Some Unlocked /\ x < end_)
  /\ match k with
     | ScanBlocked => bt_get next' a0 = Some Locked /\ next' < end_
     | ScanGap => bt_get next' a0 = None /\ next' < end_
     | ScanEnd => forall x, next' <= x < end_ -> bt_get x a0 = None
     end.
Proof.
  intros Hbs Hok0 Hkeys. induction range as [|[addr st] range IH];
    intros next a k next' a' Hrange Hnext Hok H; cbn in H.
  { injection H as <- <- <-. symmetry in Hrange. pose proof (proj1 (bt_range_nil _ _ _) Hrange).
    split; [done|]. split; [lia|]. split; [done|]. split; [|split; [|done]].
    - intros x. rewrite (proj2 (in_blocks_false _ _ _ _)) by lia. done.
    - intros x [? _]%in_blocks_true. lia. }
  symmetry in Hrange. apply bt_range_cons in Hrange as (Hr & Hg & Hn & ->); [|done].
  assert (forall y, in_blocks bs next next y = false) as Hempty.
  { intros y. apply in_blocks_false. lia. }
  destruct (Z.eqb_spec addr next) as [Hadd|Hadd]; [subst addr|]; cbn in H.
  2: { injection H as <- <- <-. split; [done|]. split; [lia|]. split; [done|].
       split; [intros x; by rewrite Hempty|]. split; [intros x; by rewrite Hempty|].
       split; [apply Hn|]; lia. }
  destruct st.
  { injection H as <- <- <-. split; [done|]. split; [lia|]. split; [done|].
    split; [intros x; by rewrite Hempty|]. split; [intros x; by rewrite Hempty|]. split; [done|lia]. }
  apply IH in H as (Hok' & Hle & Hm & Hget & Hun & Hk);
    [| |rewrite <- Hnext; rewrite <- Z.add_mod_idemp_r, Z_mod_same_full, Z.add_0_r by lia; done
      |by apply bt_insert_ok].
  2: { apply bt_ext; [by apply bt_range_ok..|]. intros x. rewrite !bt_get_range.
       destruct (in_range (next + 1) end_ x) eqn:R1, (in_range (next + bs) end_ x) eqn:R2; try done.
       - destruct (bt_get x a0) eqn:Hx; [exfalso|done]. apply Hkeys in Hx.
         apply in_range_true in R1.
         assert (next + bs <= x) by (apply mult_gap; [done..|lia]).
         assert (in_range (next + bs) end_ x = true); [apply in_range_true; lia|congruence].
       - apply in_range_true in R2.
         assert (in_range (next + 1) end_ x = true); [apply in_range_true; lia|congruence]. }
  assert (forall x, in_blocks bs next next' x = (x =? next) || in_blocks bs (next + bs) next' x) as Hsplit.
  { intros x. apply eq_true_iff_eq. rewrite orb_true_iff, Z.eqb_eq, !in_blocks_true. split.
    - intros [Hx Hxm]. destruct (decide (x = next)); [by left|right].
      assert (next + bs <= x) by (apply mult_gap; [done..|lia]). lia.
    - intros [->|[Hx Hxm]]; split; (lia || done). }
  split; [done|]. split; [lia|]. split; [done|]. split; [|split; [|done]].
  - intros x. rewrite Hget, Hsplit, bt_get_insert.
    destruct (x =? next), (in_blocks bs (next + bs) next' x); done.
  - intros x. rewrite Hsplit. intros [->%Z.eqb_eq|Hx]%orb_true_iff; [split; [done|lia]|by apply Hun].
Qed.

Lemma unlocked_run_spec end_ a range :
  bt_ok a -> forall last0 last locked,
  range = bt_range (last0 + 1) end_ a -> bt_get last0 a = Some Unlocked ->
  unlocked_run range last0 = (last, locked) ->
  last0 <= last /\ bt_get last a = Some Unlocked
  /\ (last = last0 \/ last < end_)
  /\ (forall x, last0 <= x <= last -> bt_get x a <> Some Locked)
  /\ (locked = false -> forall x, last < x < end_ -> bt_get x a = None).
Proof.
  intros Hok. induction range as [|[addr st] range IH]; intros last0 last locked Hr Hl H; cbn in H.
  - injection H as <- <-. split; [lia|]. split; [done|]. split; [by left|]. split.
    + intros x Hx. assert (x = last0) as -> by lia. congruence.
    + intros _ x Hx. symmetry in Hr. rewrite (proj1 (bt_range_nil _ _ _) Hr); [done|lia].
  - symmetry in Hr. apply bt_range_cons in Hr as (Hr & Hg & Hn & Hrest); [|done].
    destruct st.
    + injection H as <- <-. split; [lia|]. split; [done|]. split; [by left|]. split; [|done].
      intros x Hx. assert (x = last0) as -> by lia. congruence.
    + apply IH in H as (H1 & H2 & H3 & H4 & H5); [|done..].
      split; [lia|]. split; [done|]. split; [right; lia|]. split; [|done].
      intros x Hx. destruct (decide (addr <= x)); [apply H4; lia|].
      destruct (decide (x = last0)) as [->|]; [congruence|]. rewrite Hn by lia. done.
Qed.

Lemma fold_remove_get l (a : list (Z * State)) k :
  (k ∈ l -> bt_get k (foldl (fun a addr => bt_remove addr a) a l) = None)
  /\ (k ∉ l -> bt_get k (foldl (fun a addr => bt_remove addr a) a l) = bt_get k a).
Proof.
  revert a. induction l as [|x l IH]; intros a; cbn.
  { split; [by intros ?%not_elem_of_nil|done]. }
  destruct (IH (bt_remove x a)) as [Hin Hout]. split.
  - intros Hk. destruct (decide (k ∈ l)) as [|Hl]; [by apply Hin|].
    apply elem_of_cons in Hk as [->|]; [|done]. by rewrite Hout, bt_get_remove, Z.eqb_refl.
  - intros [Hne Hl]%not_elem_of_cons. rewrite Hout, bt_get_remove by done.
    by rewrite (proj2 (Z.eqb_neq k x)).
Qed.

Lemma fold_remove_ok l (a : list (Z * State)) :
  bt_ok a -> bt_ok (foldl (fun a addr => bt_remove addr a) a l).
Proof. revert a. induction l; cbn; auto with obl. Qed.

(** What a pass of [dealloc] does: it only removes unlocked blocks of the
    range, and when it is done no block of the range is left. *)
Lemma dealloc_pass_Ok h r addr end_ res r' :
  ram_ok r -> dealloc_pass h r addr end_ = Ok (res, r') ->
  exists a, r' = set_allocated a r /\ bt_ok a
  /\ (forall k, bt_get k a = bt_get k (allocated r)
        \/ bt_get k a = None /\ addr <= k < end_ /\ bt_get k (allocated r) = Some Unlocked)
  /\ (res = DDone -> forall k, addr <= k < end_ -> bt_get k a = None).
Proof.
  intros [Hbs Hok Hkeys] H. unfold dealloc_pass in H.
  destruct (bt_range addr end_ (allocated r)) as [|[addr' st] range] eqn:Hr.
  { inv_ok. exists (allocated r'). split; [by destruct r'|]. split; [done|].
    split; [by left|]. intros _ k Hk. by apply (proj1 (bt_range_nil _ _ _) Hr). }
  apply bt_range_cons in Hr as (Hr & Hg & Hn & ->); [|done].
  destruct st.
  { inv_ok. exists (allocated r'). split; [by destruct r'|]. split; [done|]. split; [by left|done]. }
  destruct (unlocked_run _ addr') as [last locked] eqn:Hrun.
  destruct (os_decommit _ _ _); [done|]. inv_ok.
  apply (unlocked_run_spec end_ (allocated r)) in Hrun as (H1 & H2 & H3 & H4 & H5); [|done..].
  destruct (Hkeys _ _ Hg) as [Hm' _]. destruct (Hkeys _ _ H2) as [Hml _].
  eexists. split; [done|]. split; [by apply fold_remove_ok|]. split.
  - intros k. destruct (fold_remove_get
      (step_by addr' (last + block_size r) (block_size r)) (allocated r) k) as [Hrm Hkeep].
    destruct (decide (k ∈ step_by addr' (last + block_size r) (block_size r))) as [Hin|Hin];
      [rewrite (Hrm Hin); clear Hrm Hkeep|left; by apply Hkeep].
    apply elem_of_blocks in Hin; [|done..]. apply in_blocks_true in Hin as [Hk Hkm].
    assert (k <= last).
    { destruct (decide (k <= last)); [done|].
      assert (last + block_size r <= k) by (apply mult_gap; [done..|lia]). lia. }
    destruct (bt_get k (allocated r)) as [[]|] eqn:Hgk; [|by right; split; [|split; [lia|]]|by left].
    exfalso. by apply (H4 k); [lia|].
  - intros Hres k Hk. destruct locked; [done|]. destruct (fold_remove_get
      (step_by addr' (last + block_size r) (block_size r)) (allocated r) k) as [Hrm Hkeep].
    destruct (decide (k ∈ step_by addr' (last + block_size r) (block_size r))) as [Hin|Hin];
      [by apply Hrm|rewrite (Hkeep Hin)].
    destruct (bt_get k (allocated r)) eqn:Hgk; [exfalso|done].
    destruct (Hkeys _ _ Hgk) as [Hkm _].
    destruct (decide (k < addr')); [rewrite Hn in Hgk by lia; done|].
    destruct (decide (last < k)); [rewrite H5 in Hgk by (done || lia); done|].
    apply Hin. apply elem_of_blocks; [done..|]. apply in_blocks_true. split; [lia|done].
Qed.

(** What a pass of [lock] does. *)
Lemma lock_pass_spec r addr len' next res r' :
  ram_ok r -> next mod block_size r = 0 -> addr - addr mod block_size r <= next ->
  lock_pass r addr len' next = (res, r') ->
  let begin := addr - addr mod block_size r in
  exists a next', r' = set_allocated a r /\ bt_ok a
  /\ next <= next' /\ next' mod block_size r = 0
  /\ (forall x, in_blocks (block_size r) next next' x = true ->
        bt_get x (allocated r) = Some Unlocked /\ x < addr + len')
  /\ match res with
     | LSome g => g = Guard addr len' /\ addr + len' <= next' /\
         (forall x, bt_get x a
            = if in_blocks (block_size r) next next' x then Some Locked else bt_get x (allocated r))
     | LWait n => n = next' /\ n < addr + len'
         /\ bt_get n (allocated r) = Some Locked /\
         (forall x, bt_get x a
            = if in_blocks (block_size r) next next' x then Some Locked else bt_get x (allocated r))
     | LNone b => b = negb (next' =? begin) /\
         (exists x, begin <= x < addr + len' /\ x mod block_size r = 0
            /\ bt_get x (allocated r) = None) /\
         (forall x, bt_get x a
            = if in_range begin next' x
              then (fun _ => Unlocked) <$> bt_get x (allocated r) else bt_get x (allocated r))
     end.
Proof.
  intros [Hbs Hok Hkeys] Hm Hbn H begin. unfold lock_pass in H.
  destruct (lock_scan _ _ _ _) as [[k next'] a] eqn:Hscan.
  apply (lock_scan_spec _ (addr + len') (allocated r)) in Hscan
    as (Hoka & Hle & Hm' & Hget & Hun & Hk); [|try done..].
  2: { intros x st Hx. by apply (Hkeys x st). }
  fold begin in H.
  assert (next' < addr + len' -> (k = ScanGap \/ k = ScanEnd) ->
    exists x, begin <= x < addr + len' /\ x mod block_size r = 0 /\ bt_get x (allocated r) = None) as Hgap.
  { intros Hlt Hkk. exists next'. split; [lia|]. split; [done|].
    destruct Hkk as [-> | ->]; [by apply Hk|apply Hk; lia]. }
  assert (forall x, bt_get x (bt_fill begin next' Unlocked a)
    = if in_range begin next' x then (fun _ => Unlocked) <$> bt_get x (allocated r)
      else bt_get x (allocated r)) as Hfill.
  { intros x. rewrite bt_get_fill, Hget.
    destruct (in_range begin next' x) eqn:R.
    - destruct (in_blocks _ next next' x) eqn:B; [|done]. cbn. apply Hun in B as [-> _]. done.
    - rewrite (proj2 (in_blocks_false _ _ _ _)); [done|]. intros [Hx _].
      assert (in_range begin next' x = true); [apply in_range_true; lia|congruence]. }
  destruct k; cbn in H.
  - injection H as <- <-. exists (bt_fill begin next' Unlocked a), next'.
    split; [done|]. split; [by apply bt_fill_ok|]. do 3 (split; [done|]).
    split; [done|]. split; [apply Hgap; [apply Hk|by left]|done].
  - injection H as <- <-. exists a, next'. do 5 (split; [done|]). naive_solver.
  - destruct (Z.ltb_spec next' (addr + len')) as [Hlt|Hge]; injection H as <- <-.
    + exists (bt_fill begin next' Unlocked a), next'.
      split; [done|]. split; [by apply bt_fill_ok|]. do 3 (split; [done|]).
      split; [done|]. split; [apply Hgap; [done|by right]|done].
    + exists a, next'. do 5 (split; [done|]). naive_solver.
Qed.

End Ram.
