(* ===== verification/RamProps.v ===== *)
(** * Safety of the RAM of the virtual machine

    The invariant of the concurrent system of [Ram.v] and what follows from
    it for the users of the RAM: a live [LockedMem] keeps its blocks
    allocated and locked and shares none of them, whatever the threads do. *)
From S2P Require Import Prelude BTree Ram.

Module RamProps.
Import Ram.

(** ** Ownership *)

Section coherence.
Context {O : Type} `{EqDecision O}.
Implicit Types (L : Z -> Prop) (own : O -> Z -> Prop).

(** [L] is the set of locked blocks: each has exactly one owner. *)
Record coherent L own : Prop := {
  co_owned : forall o k, own o k -> L k;
  co_owner : forall k, L k -> exists o, own o k;
  co_unique : forall o o' k, own o k -> own o' k -> o = o'
}.

(** The owner [o] gives up its blocks and the owner [o'], which had none
    unless it is [o], ends up with the blocks [N]. *)
Lemma coherent_update L L' own own' o o' (N : Z -> Prop) :
  coherent L own ->
  (forall k, N k -> ~ L k \/ own o k) ->
  (forall p k, p <> o -> p <> o' -> own' p k <-> own p k) ->
  (forall k, own' o' k <-> N k) ->
  (o <> o' -> forall k, ~ own' o k /\ ~ own o' k) ->
  (forall k, L' k <-> (L k /\ ~ own o k) \/ N k) ->
  coherent L' own'.
Proof.
  intros [H1 H2 H3] HN Hother Ho' Hne HL'.
  assert (forall p k, own' p k -> (p <> o' /\ p <> o /\ own p k) \/ (p = o' /\ N k)) as Hcase.
  { intros p k Hp. destruct (decide (p = o')) as [->|]; [right; split; [done|by apply Ho']|left].
    destruct (decide (p = o)) as [->|]; [by destruct (Hne ltac:(done) k)|].
    split; [done|]. split; [done|]. by apply Hother. }
  assert (forall p k, p <> o -> own p k -> ~ N k) as Hdisj.
  { intros p k Hpo Hp Hk. destruct (HN k Hk) as [Hn|Ho]; [by apply Hn, (H1 p)|].
    by apply Hpo, (H3 _ _ k). }
  split.
  - intros p k Hp. apply HL'. destruct (Hcase p k Hp) as [(? & ? & Hpk)|[-> ?]]; [left|by right].
    split; [by eapply H1|]. intros Hok. by specialize (H3 _ _ _ Hpk Hok).
  - intros k [[Hl Hn]|Hk]%HL'; [|exists o'; by apply Ho'].
    destruct (H2 k Hl) as [p Hp]. exists p.
    destruct (decide (p = o)) as [->|]; [done|].
    destruct (decide (p = o')) as [->|]; [|by apply Hother].
    by destruct (Hne ltac:(congruence) k) as [_ ?].
  - intros p q k Hp Hq. destruct (Hcase p k Hp) as [(? & ? & Hpk)|[-> Hk]],
      (Hcase q k Hq) as [(? & ? & Hqk)|[-> Hk']]; [by eapply H3| | |done].
    + by destruct (Hdisj p k ltac:(done) Hpk).
    + by destruct (Hdisj q k ltac:(done) Hqk).
Qed.

Lemma coherent_ext L L' own own' :
  coherent L own -> (forall k, L' k <-> L k) -> (forall o k, own' o k <-> own o k) ->
  coherent L' own'.
Proof.
  intros [H1 H2 H3] HL Ho. split.
  - intros o k. rewrite HL, Ho. apply H1.
  - intros k. rewrite HL. intros [o Hk]%H2. exists o. by apply Ho.
  - intros o o' k. rewrite !Ho. apply H3.
Qed.
End coherence.

Definition locked (r : t) (k : Z) : Prop := bt_get k (allocated r) = Some Locked.

Lemma inv_iff s :
  inv s <-> ram_ok (ram s) /\ coherent (locked (ram s)) (owns s)
    /\ (forall tid addr len' next b,
          waiters s !! tid = Some (PLock addr len' next, b) ->
          next mod block_size (ram s) = 0
          /\ addr - addr mod block_size (ram s) <= next < addr + len').
Proof. split; [intros []; split_and!; [done|by split|done]|intros (? & [] & ?); by split]. Qed.

(** Waking a thread changes neither ownership nor progress. *)
Definition same_ops (w w' : gmap nat (pending * bool)) : Prop :=
  forall tid, fst <$> w' !! tid = fst <$> w !! tid.

Lemma notify_same_ops w w' : notify_one w w' -> same_ops w w'.
Proof.
  intros [w0 tid p Hw|w0 _] i; [|done]. destruct (decide (i = tid)) as [->|].
  - by rewrite lookup_insert_eq, Hw.
  - by rewrite lookup_insert_ne.
Qed.

Lemma same_ops_lookup w w' tid p b :
  same_ops w w' -> w' !! tid = Some (p, b) -> exists b', w !! tid = Some (p, b').
Proof.
  intros H Hw. specialize (H tid). rewrite Hw in H. cbn in H.
  destruct (w !! tid) as [[p' b']|]; naive_solver.
Qed.

Lemma same_ops_sym w w' : same_ops w w' -> same_ops w' w.
Proof. intros H tid. by rewrite H. Qed.

Lemma owns_same_ops r w w' g o k : same_ops w w' -> owns (Sys r w' g) o k <-> owns (Sys r w g) o k.
Proof.
  intros H. destruct o as [i|tid]; [done|]. cbn. split; intros (p & b & Hw & Hc).
  - destruct (same_ops_lookup _ _ _ _ _ H Hw) as [b' ?]; eauto.
  - destruct (same_ops_lookup _ _ _ _ _ (same_ops_sym _ _ H) Hw) as [b' ?]; eauto.
Qed.

Lemma inv_same_ops r w w' g : same_ops w w' -> inv (Sys r w g) -> inv (Sys r w' g).
Proof.
  intros Hw (Hr & Hc & Hn)%inv_iff. apply inv_iff. split; [done|]. split.
  - eapply coherent_ext; [exact Hc|done|]. intros o k. by apply owns_same_ops.
  - intros tid addr len' next b H. destruct (same_ops_lookup _ _ _ _ _ Hw H) as [b' H'].
    by apply (Hn tid addr len' next b').
Qed.

(** Ownership depends on the RAM only through the block size. *)
Lemma owns_set_allocated a r w g o k :
  owns (Sys (set_allocated a r) w g) o k <-> owns (Sys r w g) o k.
Proof. by destruct o. Qed.

Lemma ram_ok_subset r a :
  ram_ok r -> bt_ok a ->
  (forall k, is_Some (bt_get k a) -> is_Some (bt_get k (allocated r))) ->
  ram_ok (set_allocated a r).
Proof.
  intros [H1 H2 H3] Ha Hk. split; [done|done|]. intros k st Hg. cbn in Hg.
  destruct (Hk k ltac:(eauto)) as [st' Hst']. by apply (H3 k st').
Qed.

(** ** Preservation of the invariant *)

Lemma remove_waiter_None tid s : waiters s !! tid = None -> remove_waiter tid s = s.
Proof. intros H. destruct s. cbn in *. unfold remove_waiter. cbn. by rewrite delete_id. Qed.

Lemma initial_inv s : initial s -> inv s.
Proof.
  intros [h vm len' r H Hl]. unfold new in H. destruct (os_get_page_size h); [done|]. inv_ok.
  unfold is_power_of_two in *. bool_to_prop.
  destruct (negb _); [done|]. destruct (os_reserve h len'); [done|]. inv_ok.
  apply inv_iff. split; [split; [unfold block_size; cbn; lia|apply bt_ok_nil|done]|].
  split; [|intros tid addr len0 next b Hw; cbn in Hw; by rewrite lookup_empty in Hw].
  split; cbn.
  - intros [g|tid] k; cbn; [intros (? & Hg & _)|intros (? & ? & Hg & _)]; by rewrite lookup_empty in Hg.
  - done.
  - intros [g|tid] o' k; cbn; [intros (? & Hg & _)|intros (? & ? & Hg & _)]; by rewrite lookup_empty in Hg.
Qed.

Lemma alloc_step_inv s h addr len' g gd r :
  inv s -> 0 <= addr -> 0 < len' -> guards s !! g = None ->
  alloc h (ram s) addr len' = Ok (gd, r) ->
  inv (Sys r (waiters s) (<[g := gd]> (guards s))).
Proof.
  intros (Hr & Hc & Hn)%inv_iff Ha Hl Hg H.
  apply alloc_Ok in H as (-> & Hm & _ & _ & Hfree & [a ->] & Hr' & Hget); [|done..].
  apply inv_iff. split; [done|]. split; [|exact Hn].
  eapply (coherent_update _ _ _ _ (inl g) (inl g)
            (fun k => in_blocks (block_size (ram s)) addr (addr + len') k = true)); [exact Hc|..].
  - intros k [Hk _]%in_blocks_true. left. unfold locked. by rewrite Hfree.
  - intros [g'|tid] k Hne _; [|done]. cbn. rewrite lookup_insert_ne by congruence. done.
  - intros k. rewrite in_blocks_true. unfold owns, covers. cbn [guards ram].
    rewrite lookup_insert_eq, block_size_set. split.
    + intros (gd & [= <-] & ? & ?). cbn [lm_addr lm_len] in *. rewrite Hm in *. lia.
    + intros [? ?]. eexists. split; [done|]. cbn [lm_addr lm_len]. rewrite Hm. lia.
  - done.
  - intros k. unfold locked. rewrite Hget. cbn. rewrite Hg. split.
    + destruct (in_blocks _ _ _ k); [by right|]. intros ?. left. naive_solver.
    + intros [[-> _]| ->]; [|done]. by destruct (in_blocks _ _ _ k).
Qed.

(** A pass of [lock] by thread [tid], which owns the blocks from [begin] to
    [next] before it. *)
Section lock_step.
Context (s : sys) (tid : nat) (addr len' next next' : Z) (a : list (Z * State)).
Let bs := block_size (ram s).
Let begin := addr - addr mod bs.
Let mine lo hi k := k mod bs = 0 /\ lo <= k < hi.
Context (Hram : ram_ok (ram s)) (Hco : coherent (locked (ram s)) (owns s)).
Context (Hnexts : forall tid' addr' len0 n b,
  waiters s !! tid' = Some (PLock addr' len0 n, b) ->
  n mod bs = 0 /\ addr' - addr' mod bs <= n < addr' + len0).
Context (Hown : forall k, owns s (inr tid) k <-> mine begin next k).
Context (Hb : begin <= next <= next') (Hm : next' mod bs = 0) (Ha : bt_ok a).
Context (Hun : forall x, in_blocks bs next next' x = true ->
  bt_get x (allocated (ram s)) = Some Unlocked /\ x < addr + len').
Context (w : gmap nat (pending * bool)) (Hw : same_ops (delete tid (waiters s)) w).

Let r' := set_allocated a (ram s).

Lemma lock_step_range k :
  mine begin next' k <-> owns s (inr tid) k \/ in_blocks bs next next' k = true.
Proof. rewrite Hown, in_blocks_true. unfold mine. lia. Qed.

Lemma lock_step_new k : mine begin next' k -> ~ locked (ram s) k \/ owns s (inr tid) k.
Proof.
  intros [?|Hk]%lock_step_range; [by right|left]. unfold locked. by rewrite (proj1 (Hun k Hk)).
Qed.

Lemma lock_step_other g p k : p <> inr tid -> owns (Sys r' w g) p k <-> owns (Sys (ram s) (waiters s) g) p k.
Proof.
  intros Hne. rewrite (owns_same_ops _ _ _ _ _ _ Hw). destruct p as [g'|tid']; [done|]. cbn.
  by rewrite lookup_delete_ne by congruence.
Qed.

Lemma lock_step_gone g k : ~ owns (Sys r' w g) (inr tid) k.
Proof.
  rewrite (owns_same_ops _ _ _ _ _ _ Hw). intros (p & b & H & _). cbn in H.
  by rewrite lookup_delete_eq in H.
Qed.

Lemma lock_step_nexts tid' addr' len0 n b :
  w !! tid' = Some (PLock addr' len0 n, b) ->
  n mod bs = 0 /\ addr' - addr' mod bs <= n < addr' + len0.
Proof.
  intros [b' H]%(same_ops_lookup _ _ _ _ _ Hw). apply lookup_delete_Some in H as [_ H].
  by apply (Hnexts _ _ _ _ _ H).
Qed.

(** The pass locks the blocks from [next] to [next']. *)
Section grow.
Context (Hget : forall x, bt_get x a
  = if in_blocks bs next next' x then Some Locked else bt_get x (allocated (ram s))).

Lemma lock_grow_ram : ram_ok r'.
Proof.
  apply ram_ok_subset; [done..|]. intros k. rewrite Hget.
  destruct (in_blocks bs next next' k) eqn:B; [|done]. destruct (Hun k B) as [-> _]. eauto.
Qed.

Lemma lock_grow_locked k :
  locked r' k <-> (locked (ram s) k /\ ~ owns s (inr tid) k) \/ mine begin next' k.
Proof.
  unfold locked, r'. cbn [set_allocated allocated]. rewrite Hget, lock_step_range. split.
  - destruct (in_blocks bs next next' k); [naive_solver|]. intros Hk.
    destruct (decide (k mod bs = 0 /\ begin <= k < next)) as [Ho|Ho];
      [right; left; by apply Hown|left; split; [done|]; by rewrite Hown].
  - intros [[-> _]|[Ho| ->]]; [by destruct (in_blocks bs next next' k)| |done].
    apply (co_owned _ _ Hco) in Ho. rewrite Ho. by destruct (in_blocks bs next next' k).
Qed.

Lemma lock_grow_guard g :
  guards s !! g = None -> addr + len' <= next' -> next < addr + len' ->
  inv (Sys r' w (<[g := Guard addr len']> (guards s))).
Proof.
  intros Hg Hend Hlt. apply inv_iff. split; [apply lock_grow_ram|].
  split; [|exact lock_step_nexts].
  eapply (coherent_update _ _ _ _ (inr tid) (inl g)); [exact Hco|exact lock_step_new|..|exact lock_grow_locked].
  - intros p k H1 H2. rewrite lock_step_other by done. destruct p as [g'|]; [|done]. cbn.
    by rewrite lookup_insert_ne by congruence.
  - intros k. cbn. rewrite lookup_insert_eq. unfold covers. cbn. split.
    + intros (gd & [= <-] & Hk & Hk2). cbn in *. change (block_size r') with bs in *.
      unfold mine, begin. lia.
    + intros Hk. eexists. split; [done|]. cbn. split; [apply Hk|].
      split; [apply Hk|]. apply lock_step_range in Hk as [Hk|Hk]; [|apply (Hun k Hk)].
      apply Hown in Hk. unfold mine in Hk. lia.
  - intros _ k. split; [apply lock_step_gone|]. intros (gd & Hgd & _). congruence.
Qed.

Lemma lock_grow_wait b :
  next' < addr + len' -> inv (Sys r' (<[tid := (PLock addr len' next', b)]> w) (guards s)).
Proof.
  intros Hlt. apply inv_iff. split; [apply lock_grow_ram|]. split.
  - eapply (coherent_update _ _ _ _ (inr tid) (inr tid));
      [exact Hco|exact lock_step_new|..|exact lock_grow_locked].
    + intros p k H1 _. rewrite <- (lock_step_other (guards s) p k) by done.
      destruct p as [g'|tid']; [done|]. cbn. by rewrite lookup_insert_ne by congruence.
    + intros k. cbn. rewrite lookup_insert_eq. split.
      * by intros (p & b' & [= <- <-] & Hk).
      * intros Hk. eexists _, _. by split.
    + done.
  - intros tid' addr' len0 n b' H. cbn [waiters] in H.
    apply lookup_insert_Some in H as [[<- [= <- <- <- _]]|[_ H]].
    + split; [done|]. change (block_size _) with bs. fold begin. lia.
    + by apply lock_step_nexts in H.
Qed.
End grow.

(** The pass gives all the blocks of the thread back. *)
Lemma lock_none_inv :
  (forall x, bt_get x a = if in_range begin next' x
     then (fun _ => Unlocked) <$> bt_get x (allocated (ram s)) else bt_get x (allocated (ram s))) ->
  inv (Sys r' w (guards s)).
Proof.
  intros Hget. apply inv_iff. split; [|split; [|exact lock_step_nexts]].
  - apply ram_ok_subset; [done..|]. intros k. rewrite Hget.
    destruct (in_range begin next' k); [|done]. destruct (bt_get k _); cbn; [eauto|by intros []].
  - eapply (coherent_update _ _ _ _ (inr tid) (inr tid) (fun _ => False)); [exact Hco|done|..].
    + intros p k H1 _. by rewrite lock_step_other.
    + intros k. split; [apply lock_step_gone|done].
    + done.
    + intros k. unfold locked, r'. cbn [set_allocated allocated]. rewrite Hget.
      destruct (in_range begin next' k) eqn:R.
      * apply in_range_true in R. split; [by destruct (bt_get k _)|].
        intros [[Hk Hno]|[]]. exfalso. pose proof (ok_keys _ Hram _ _ Hk) as [Hkm _].
        destruct (proj1 (lock_step_range k)) as [?|B]; [by split|done|].
        rewrite (proj1 (Hun k B)) in Hk. done.
      * split; [|by intros [[? _]|[]]]. intros Hk. left. split; [done|].
        rewrite Hown. intros [_ Hk2].
        assert (in_range begin next' k = true); [apply in_range_true; lia|congruence].
Qed.
End lock_step.

Lemma lock_step_inv s tid addr len' next r res s' :
  inv s -> next mod block_size (ram s) = 0 ->
  addr - addr mod block_size (ram s) <= next < addr + len' ->
  (forall k, owns s (inr tid) k <->
     k mod block_size (ram s) = 0 /\ addr - addr mod block_size (ram s) <= k < next) ->
  lock_pass (ram s) addr len' next = (res, r) ->
  lock_finish addr len' tid (remove_waiter tid s) r res s' ->
  inv s'.
Proof.
  intros (Hr & Hc & Hn)%inv_iff Hm Hb Hown Hpass Hfin.
  apply lock_pass_spec in Hpass as (a & next' & -> & Hoka & Hle & Hm' & Hun & Hres);
    [|done|done|lia].
  destruct Hfin as [g Hg| |w Hw|n]; cbn [remove_waiter waiters guards] in *.
  - destruct Hres as (_ & Hend & Hget). by eapply lock_grow_guard; try done; lia.
  - destruct Hres as (_ & _ & Hget). by eapply lock_none_inv; try done; lia.
  - destruct Hres as (_ & _ & Hget). eapply lock_none_inv; try done; [lia|].
    by apply notify_same_ops.
  - destruct Hres as (-> & Hlt & _ & Hget). by eapply lock_grow_wait; try done; lia.
Qed.

Lemma dealloc_step_inv s h tid addr end_ r res s' :
  inv s -> (forall addr len' next b, waiters s !! tid <> Some (PLock addr len' next, b)) ->
  dealloc_pass h (ram s) addr end_ = Ok (res, r) ->
  dealloc_finish end_ tid (remove_waiter tid s) r res s' -> inv s'.
Proof.
  intros (Hr & Hc & Hn)%inv_iff Hnl Hpass Hfin.
  apply dealloc_pass_Ok in Hpass as (a & -> & Hok & Hget & _); [|done].
  assert (waiters s' !! tid = None \/ (exists addr' b, waiters s' !! tid = Some (PDealloc addr' end_, b))) as Ht.
  { destruct Hfin as [|addr']; cbn; [left; apply lookup_delete_eq|right].
    exists addr', false. apply lookup_insert_eq. }
  assert (forall tid', tid' <> tid -> waiters s' !! tid' = waiters s !! tid') as Hother.
  { intros tid' Hne. destruct Hfin; cbn;
      rewrite ?lookup_insert_ne, lookup_delete_ne by congruence; done. }
  assert (ram s' = set_allocated a (ram s) /\ guards s' = guards s) as [Hram Hg] by by destruct Hfin.
  apply inv_iff. rewrite Hram. split; [|split].
  - apply ram_ok_subset; [done..|]. intros k [st Hk]. destruct (Hget k) as [<-|[? _]]; [eauto|congruence].
  - eapply coherent_ext; [exact Hc|..].
    + intros k. unfold locked. cbn. destruct (Hget k) as [->|(-> & _ & ->)]; done.
    + intros [g|tid'] k; cbn; rewrite Hram; [by rewrite Hg|].
      destruct (decide (tid' = tid)) as [->|Hne]; [|by rewrite Hother].
      split; intros (p & b & Hp & Hk); exfalso.
      * destruct Ht as [Ht|(? & ? & Ht)]; rewrite Ht in Hp; [done|]. by injection Hp as <- <-.
      * destruct p; [by eapply Hnl|done].
  - intros tid' addr' len' n b Hw. destruct (decide (tid' = tid)) as [->|Hne].
    + destruct Ht as [Ht|(? & ? & Ht)]; rewrite Ht in Hw; naive_solver.
    + rewrite Hother in Hw by done. by apply (Hn _ _ _ _ _ Hw).
Qed.

Lemma drop_step_inv s g gd w :
  inv s -> guards s !! g = Some gd -> notify_one (waiters s) w ->
  inv (Sys (drop_guard (ram s) gd) w (delete g (guards s))).
Proof.
  intros (Hr & Hc & Hn)%inv_iff Hg Hw. eapply inv_same_ops; [by apply notify_same_ops|].
  unfold drop_guard. set (lo := lm_addr gd - _). set (hi := lm_addr gd + _).
  apply inv_iff. split; [|split; [|exact Hn]].
  - apply ram_ok_subset; [done|apply bt_fill_ok, Hr|]. intros k. rewrite bt_get_fill.
    destruct (in_range lo hi k); [|done]. destruct (bt_get k _); cbn; [eauto|by intros []].
  - eapply (coherent_update _ _ _ _ (inl g) (inl g) (fun _ => False)); [exact Hc|done|..].
    + intros [g'|tid] k H1 _; [|done]. cbn. by rewrite lookup_delete_ne by congruence.
    + intros k. split; [|done]. intros (gd' & Hgd & _). cbn in Hgd. by rewrite lookup_delete_eq in Hgd.
    + done.
    + intros k. unfold locked. cbn. rewrite bt_get_fill. destruct (in_range lo hi k) eqn:R.
      * split; [by destruct (bt_get k _)|]. intros [[Hk Hno]|[]]. exfalso. apply Hno.
        exists gd. split; [done|]. apply in_range_true in R.
        by pose proof (ok_keys _ Hr _ _ Hk) as [Hkm _].
      * split; [|by intros [[? _]|[]]]. intros Hk. left. split; [done|].
        intros (gd' & Hgd & Hkm & Hk2). rewrite Hg in Hgd. injection Hgd as <-.
        assert (in_range lo hi k = true); [by apply in_range_true|congruence].
Qed.

Lemma spurious_same_ops (w : gmap nat (pending * bool)) tid p :
  w !! tid = Some (p, false) -> same_ops w (<[tid := (p, true)]> w).
Proof. intros H. apply notify_same_ops. by apply notify_some. Qed.

Lemma step_inv spurious s s' : inv s -> step spurious s s' -> inv s'.
Proof.
  intros Hi Hs. pose proof Hi as (Hr & Hc & Hn)%inv_iff.
  pose proof (ok_block _ Hr) as Hbs.
  destruct Hs as [s h addr len' g gd r Ha Hl Hg H|s s' tid addr len' r res Ha Hl Hw H Hf
    |s s' tid addr len' next r res Hw H Hf|s s' h tid addr len' r res Ha Hl Hw H Hf
    |s s' h tid addr end_ r res Hw H Hf|s h tid addr end_ e Hw H|s g gd w Hg Hw|s tid p _ Hw].
  - by apply (alloc_step_inv s h addr len').
  - unfold lock in H. rewrite <- (remove_waiter_None tid s Hw) in Hf.
    destruct (checked_add addr len'); [|].
    + destruct (block_align (block_size (ram s)) addr Hbs) as [Hal Hlt].
      eapply lock_step_inv; try done; [lia|]. intros k. cbn. rewrite Hw. split; [|lia].
      by intros (p & b & ? & _).
    + injection H as <- <-. inversion Hf; subst. rewrite <- (remove_waiter_None tid s Hw) in Hi. exact Hi.
  - destruct (Hn _ _ _ _ _ Hw) as [Hm Hlt].
    eapply lock_step_inv; try done. intros k. cbn. rewrite Hw. naive_solver.
  - rewrite <- (remove_waiter_None tid s Hw) in Hf. unfold dealloc, dealloc_check in H. inv_arith.
    eapply dealloc_step_inv; try done. intros ????. by rewrite Hw.
  - eapply dealloc_step_inv; try done. intros ????. by rewrite Hw.
  - eapply (dealloc_step_inv s h tid 0 0 (ram s) DDone); [done|by intros ????; rewrite Hw| |constructor].
    unfold dealloc_pass. by rewrite (proj2 (bt_range_nil _ _ _)) by lia.
  - eapply drop_step_inv; eauto.
  - destruct s. by eapply inv_same_ops; [apply spurious_same_ops|].
Qed.

Lemma reachable_inv spurious s : reachable spurious s -> inv s.
Proof.
  intros (s0 & Hi & Hs). apply initial_inv in Hi. induction Hs; [done|].
  eauto using step_inv.
Qed.

(** ** A concrete host, for the witnesses *)

Definition demo_host : host :=
  Host (inr 4096) (fun _ => inr 0x7f0000000000) (fun _ _ => inr tt) (fun _ _ => inr tt)
       (fun _ _ _ => inr tt).

Definition demo_ram : t := Mk 0x7f0000000000 0x10000 4096 4096 [].

Lemma demo_initial : initial (Sys demo_ram ∅ ∅).
Proof. by apply (initial_intro demo_host 4096 0x10000). Qed.

Lemma demo_ram_ok : ram_ok demo_ram.
Proof. apply (reachable_inv false (Sys demo_ram ∅ ∅)). exists (Sys demo_ram ∅ ∅). split; [apply demo_initial|done]. Qed.

(** [demo_ram] after two allocations of one block. *)
Definition demo_ram2 : t := set_allocated [(0, Locked); (4096, Locked)] demo_ram.

Definition demo_sys2 : sys :=
  Sys demo_ram2 ∅ (<[1%nat := Guard 4096 4096]> (<[0%nat := Guard 0 4096]> ∅)).

Lemma demo_reachable2 : reachable false demo_sys2.
Proof.
  exists (Sys demo_ram ∅ ∅). split; [apply demo_initial|].
  eapply rtc_l; [apply (step_alloc _ _ demo_host 0 4096 0 (Guard 0 4096)
    (set_allocated [(0, Locked)] demo_ram)); (done || reflexivity)|].
  eapply rtc_l; [apply (step_alloc _ _ demo_host 4096 4096 1 (Guard 4096 4096) demo_ram2);
    (done || reflexivity)|]. done.
Qed.

(** [demo_ram] with two unlocked blocks. *)
Definition demo_ram_free : t := set_allocated [(0, Unlocked); (4096, Unlocked)] demo_ram.

Lemma demo_ram_free_ok : ram_ok demo_ram_free.
Proof.
  split; [done| |].
  - apply bt_ok_cons. split; [apply bt_ok_cons; split; [apply bt_ok_nil|done]|].
    intros k v H. cbn in H. destruct (Z.eqb_spec k 4096); [lia|done].
  - intros k st H. cbn in H. destruct (Z.eqb_spec k 0) as [->|]; [done|].
    destruct (Z.eqb_spec k 4096) as [->|]; done.
Qed.

(** ** Properties *)

(** C1: while a [LockedMem] is live, every block it covers stays allocated
    and locked, and no other live [LockedMem] covers it, in every state that
    any interleaving of [alloc], [lock], [dealloc] and drops of guards can
    reach (spurious wake-ups included). *)
Theorem guard_exclusive spurious s g gd k :
  reachable spurious s -> guards s !! g = Some gd -> covers (ram s) gd k ->
  bt_get k (allocated (ram s)) = Some Locked
  /\ forall g' gd', guards s !! g' = Some gd' -> covers (ram s) gd' k -> g' = g.
Proof.
  intros [Hr Ho _ Hu _]%reachable_inv Hg Hk. split.
  - apply (Ho (inl g)). by exists gd.
  - intros g' gd' Hg' Hk'. assert (@inl nat nat g' = inl g) as [=]; [|done].
    apply (Hu _ _ k); by eexists.
Qed.

Lemma guard_exclusive_witness :
  bt_get 4096 (allocated (ram demo_sys2)) = Some Locked
  /\ forall g' gd', guards demo_sys2 !! g' = Some gd' -> covers (ram demo_sys2) gd' 4096 -> g' = 1%nat.
Proof.
  apply (guard_exclusive false demo_sys2 1 (Guard 4096 4096) 4096);
    [apply demo_reachable2|reflexivity|split; [reflexivity|split; [discriminate|reflexivity]]].
Defined.

(** C12: no lock is leaked: in a reachable state without live guards and
    without threads inside an operation, no block is locked. *)
Theorem no_leaked_lock spurious s k :
  reachable spurious s -> guards s = ∅ -> waiters s = ∅ ->
  bt_get k (allocated (ram s)) <> Some Locked.
Proof.
  intros [_ _ Hex _ _]%reachable_inv Hg Hw Hk.
  destruct (Hex k Hk) as [[g|tid] Ho]; cbn in Ho; [rewrite Hg in Ho|rewrite Hw in Ho].
  - destruct Ho as (? & Ho & _). by rewrite lookup_empty in Ho.
  - destruct Ho as (? & ? & Ho & _). by rewrite lookup_empty in Ho.
Qed.

(** One block is allocated and its guard dropped: it stays allocated. *)
Definition demo_dropped : sys :=
  Sys (drop_guard (set_allocated [(0, Locked)] demo_ram) (Guard 0 4096)) ∅ (delete 0%nat (<[0%nat := Guard 0 4096]> ∅)).
Lemma demo_dropped_reachable : reachable false demo_dropped.
Proof.
  exists (Sys demo_ram ∅ ∅). split; [apply demo_initial|].
  eapply rtc_l; [apply (step_alloc _ _ demo_host 0 4096 0 (Guard 0 4096)
    (set_allocated [(0, Locked)] demo_ram)); (done || reflexivity)|].
  apply rtc_once. cbn [waiters guards].
  pose proof (step_drop false (Sys (set_allocated [(0, Locked)] demo_ram) ∅ (<[0%nat := Guard 0 4096]> ∅)) 0 (Guard 0 4096) ∅ eq_refl) as Hd.
  apply Hd. apply notify_none. intros tid p. by rewrite lookup_empty.
Qed.
Lemma no_leaked_lock_witness :
  bt_get 0 (allocated (ram demo_dropped)) <> Some Locked /\ bt_get 0 (allocated (ram demo_dropped)) = Some Unlocked.
Proof.
  split; [|reflexivity]. apply (no_leaked_lock false demo_dropped 0); [exact demo_dropped_reachable|reflexivity|reflexivity].
Defined.

(** The errors of [alloc], in the order of its checks. *)
Lemma alloc_errors h r addr len' :
  len r < 2 ^ 64 -> addr mod block_size r = 0 -> len' mod block_size r = 0 ->
  (len r < addr + len' -> alloc h r addr len' = Err InvalidAddr)
  /\ (addr + len' <= len r ->
      ((exists k st, addr <= k < addr + len' /\ bt_get k (allocated r) = Some st) ->
       alloc h r addr len' = Err AlreadyAllocated)
      /\ ((forall k, addr <= k < addr + len' -> bt_get k (allocated r) = None) ->
          (forall e, os_commit h (mem r + addr) len' = inl e -> alloc h r addr len' = Err (Commit e))
          /\ (os_commit h (mem r + addr) len' = inr tt ->
              forall e, mapper_map h (mem r + addr) addr len' = inl e -> alloc h r addr len' = Err (Map e)))).
Proof.
  intros Hlen Hma Hml. unfold alloc. rewrite Hma, Hml. cbn. unfold checked_add. split.
  { intros Hin. destruct (Z.ltb_spec (addr + len') (2 ^ 64)); [|done]. cbn. by rewrite (proj2 (Z.ltb_lt _ _)) by lia. }
  intros Hin. rewrite (proj2 (Z.ltb_lt (addr + len') (2 ^ 64))) by lia. cbn. rewrite (proj2 (Z.ltb_ge _ _)) by lia. cbn. split.
  - intros (k & st & Hk & Hst). destruct (bt_range _ _ _) eqn:Hrange; [|done].
    by rewrite (proj1 (bt_range_nil _ _ _) Hrange k Hk) in Hst.
  - intros Hfree. rewrite (proj2 (bt_range_nil _ _ _)) by done. split; [by intros e ->|by intros -> e ->].
Qed.

(** C14: [Ram::alloc] on every branch.  Arguments that are not multiples of the
    block size fail an assertion.  Otherwise it succeeds exactly when the
    range is inside the RAM, holds no allocated block, and the host commits
    and maps it; then the blocks of the range, and only they, become
    allocated and locked.  The error names the first check that fails: the
    address if the range leaves the RAM, an allocated block, or the error of
    the host that does not commit or map the memory. *)
Theorem alloc_spec h r addr len' :
  ram_ok r -> 0 <= addr -> 0 < len' -> len r < 2 ^ 64 ->
  (~ (addr mod block_size r = 0 /\ len' mod block_size r = 0) -> alloc h r addr len' = Panic PAssert)
  /\ (addr mod block_size r = 0 -> len' mod block_size r = 0 ->
   (is_ok (alloc h r addr len') = true <->
      addr + len' <= len r
      /\ (forall k, addr <= k < addr + len' -> bt_get k (allocated r) = None)
      /\ os_commit h (mem r + addr) len' = inr tt
      /\ mapper_map h (mem r + addr) addr len' = inr tt)
   /\ (forall g r', alloc h r addr len' = Ok (g, r') ->
      g = Guard addr len' /\ ram_ok r' /\ len r' = len r /\ block_size r' = block_size r
      /\ forall k, bt_get k (allocated r')
           = if in_blocks (block_size r) addr (addr + len') k
             then Some Locked else bt_get k (allocated r))
   /\ (len r < addr + len' -> alloc h r addr len' = Err InvalidAddr)
   /\ (addr + len' <= len r ->
      ((exists k st, addr <= k < addr + len' /\ bt_get k (allocated r) = Some st) ->
       alloc h r addr len' = Err AlreadyAllocated)
      /\ ((forall k, addr <= k < addr + len' -> bt_get k (allocated r) = None) ->
          (forall e, os_commit h (mem r + addr) len' = inl e -> alloc h r addr len' = Err (Commit e))
          /\ (os_commit h (mem r + addr) len' = inr tt ->
              forall e, mapper_map h (mem r + addr) addr len' = inl e -> alloc h r addr len' = Err (Map e))))).
Proof.
  intros Hr Ha Hl Hlen. split.
  { intros Hn. unfold alloc, assert_that. destruct (Z.eqb_spec (addr mod block_size r) 0); [|done]. cbn.
    destruct (Z.eqb_spec (len' mod block_size r) 0); [|done]. by destruct Hn. }
  intros Hma Hml. split; [|split; [|by apply alloc_errors]].
  - split.
    + destruct (alloc h r addr len') as [[g r']| |] eqn:H; [intros _|done|done].
      pose proof H as (_ & _ & _ & ? & ? & _)%alloc_Ok; [|done..].
      do 2 (split; [done|]). unfold alloc in H. inv_arith.
      destruct (bt_range _ _ _); [|done]. destruct (os_commit _ _ _) as [|[]]; [done|].
      destruct (mapper_map _ _ _ _) as [|[]]; done.
    + intros (Hin & Hfree & Hc & Hm). unfold alloc.
      rewrite Hma, Hml. cbn. unfold checked_add. rewrite (proj2 (Z.ltb_lt _ _)) by lia. cbn.
      rewrite (proj2 (Z.ltb_ge _ _)) by lia. cbn.
      rewrite (proj2 (bt_range_nil _ _ _)) by done. rewrite Hc, Hm.
      destruct (insert_blocks_complete (E := RamError) (step_by addr (addr + len') (block_size r))
        (allocated r)) as [a ->]; [apply Hr|apply step_by_NoDup, Hr| |done].
      intros k Hk. apply Hfree. apply elem_of_step_by in Hk; [lia|apply Hr].
  - intros g r' H. by apply alloc_Ok in H as (-> & _ & _ & _ & _ & [a ->] & ? & ?).
Qed.

Lemma alloc_spec_witness :
  is_ok (alloc demo_host demo_ram_free 8192 8192) = true /\ alloc demo_host demo_ram_free 4096 8192 = Err AlreadyAllocated.
Proof.
  split.
  - apply (alloc_spec demo_host demo_ram_free 8192 8192 demo_ram_free_ok); try lia; try reflexivity.
    split; [reflexivity || (cbn; lia)|]. split; [|split; reflexivity].
    intros k Hk. cbn. rewrite (proj2 (Z.eqb_neq _ _)) by lia. by rewrite (proj2 (Z.eqb_neq _ _)) by lia.
  - apply (alloc_spec demo_host demo_ram_free 4096 8192 demo_ram_free_ok); try lia; try reflexivity.
    + cbn. lia.
    + exists 4096, Unlocked. split; [lia|reflexivity].
Defined.

(** [Ram::lock] on a range without locked blocks never waits: it returns
    a guard exactly when every block of the range is allocated, and then
    locks these blocks and no other; otherwise it returns [None] and leaves
    the RAM unchanged. *)
Theorem lock_spec r addr len' :
  ram_ok r -> 0 <= addr -> 0 < len' -> addr + len' < 2 ^ 64 ->
  (forall k, covers r (Guard addr len') k -> bt_get k (allocated r) <> Some Locked) ->
  ((forall k, covers r (Guard addr len') k -> bt_get k (allocated r) = Some Unlocked)
   /\ exists r', lock r addr len' = (LSome (Guard addr len'), r')
      /\ forall k, bt_get k (allocated r')
           = if in_blocks (block_size r) (addr - addr mod block_size r) (addr + len') k
             then Some Locked else bt_get k (allocated r))
  \/ ((exists k, covers r (Guard addr len') k /\ bt_get k (allocated r) = None)
      /\ exists b, lock r addr len' = (LNone b, r)).
Proof.
  intros Hr Ha Hl Hov Hnl. pose proof (ok_block _ Hr) as Hbs. unfold covers in *. cbn in *.
  unfold lock, checked_add. rewrite (proj2 (Z.ltb_lt _ _)) by lia.
  set (begin := addr - addr mod block_size r) in *.
  destruct (block_align (block_size r) addr Hbs) as [Hm Hb]. fold begin in Hm, Hb.
  destruct (lock_pass r addr len' begin) as [res r'] eqn:Hp.
  apply lock_pass_spec in Hp as (a & next' & -> & Hoka & Hle & Hm' & Hun & Hres); [|done|done|lia].
  fold begin in Hres. destruct res as [g|b|n].
  - destruct Hres as (-> & Hend & Hget). left. split.
    + intros k [Hk1 Hk2]. apply Hun, in_blocks_true. lia.
    + eexists. split; [done|]. intros k. cbn. rewrite Hget.
      destruct (in_blocks _ begin next' k) eqn:B1; [apply Hun in B1 as H1; destruct H1 as [_ H1]|];
        destruct (in_blocks _ begin (addr + len') k) eqn:B2; try done; exfalso.
      * apply in_blocks_true in B1. apply in_blocks_false in B2. lia.
      * apply in_blocks_true in B2. apply in_blocks_false in B1. lia.
  - destruct Hres as (-> & (x & Hx & Hxm & Hnone) & Hget). right. split; [by exists x|].
    eexists. f_equal. destruct r. unfold set_allocated. cbn in *. f_equal.
    apply bt_ext; [done|apply Hr|]. intros k. rewrite Hget.
    destruct (in_range begin next' k) eqn:R; [|done]. apply in_range_true in R.
    destruct (bt_get k _) as [st|] eqn:Hk; [|done]. cbn.
    destruct (ok_keys _ Hr _ _ Hk) as [Hkm _].
    rewrite <- Hk. symmetry. apply Hun, in_blocks_true. done.
  - destruct Hres as (-> & Hlt & Hlk & _). by destruct (Hnl next' ltac:(done)).
Qed.

Lemma lock_spec_witness : exists r', lock demo_ram_free 100 5000 = (LSome (Guard 100 5000), r').
Proof.
  destruct (lock_spec demo_ram_free 100 5000 demo_ram_free_ok) as [[_ (r' & H & _)]|[(k & Hk & Hn) _]];
    try lia.
  - intros k _. cbn. destruct (k =? 0), (k =? 4096); discriminate.
  - by exists r'.
  - exfalso. destruct Hk as [Hm Hr]. cbn in Hn, Hr.
    destruct (Z.eqb_spec k 0); [done|]. destruct (Z.eqb_spec k 4096); [done|].
    change (block_size demo_ram_free) with 4096 in *. change (100 mod 4096) with 100 in Hr.
    apply Z.mod_divide in Hm as [q ->]; lia.
Defined.

(** [Ram::dealloc] of an aligned range without locked blocks finishes
    without waiting and, when the host decommits the memory, removes every
    block of the range and no other. *)
Theorem dealloc_spec h r addr len' :
  ram_ok r -> 0 <= addr -> 0 < len' -> len r < 2 ^ 64 ->
  addr mod block_size r = 0 -> len' mod block_size r = 0 -> addr + len' <= len r ->
  (forall k, addr <= k < addr + len' -> bt_get k (allocated r) <> Some Locked) ->
  (forall start n, os_decommit h start n = inr tt) ->
  exists r', dealloc h r addr len' = Ok (DDone, r') /\ ram_ok r'
    /\ forall k, bt_get k (allocated r')
         = if in_range addr (addr + len') k then None else bt_get k (allocated r).
Proof.
  intros Hr Ha Hl Hlen Hma Hml Hin Hnl Hos.
  assert (dealloc h r addr len' = dealloc_pass h r addr (addr + len')) as ->.
  { unfold dealloc, dealloc_check. rewrite Hma, Hml. cbn. unfold checked_add.
    rewrite (proj2 (Z.ltb_lt _ _)) by lia. cbn. by rewrite (proj2 (Z.ltb_ge _ _)) by lia. }
  assert (exists r', dealloc_pass h r addr (addr + len') = Ok (DDone, r')) as [r' Hp].
  { unfold dealloc_pass.
    destruct (bt_range addr (addr + len') (allocated r)) as [|[addr' st] range] eqn:E; [eauto|].
    apply bt_range_cons in E as (Hr' & Hg & Hn & ->); [|apply Hr].
    destruct st; [by destruct (Hnl addr')|].
    destruct (unlocked_run _ addr') as [last locked] eqn:Hrun. rewrite Hos.
    assert (locked = false) as ->; [|eauto].
    clear -Hrun Hnl Hr Hr'. destruct Hr as [_ Hok _].
    assert (addr <= addr') as Hge by lia. clear Hr'.
    remember (bt_range (addr' + 1) (addr + len') (allocated r)) as range eqn:E.
    revert addr' Hge E Hrun. induction range as [|[x st] range IH]; intros addr' Hge E Hrun;
      [by injection Hrun|]. symmetry in E. apply bt_range_cons in E as (Hx & Hg & _ & ->); [|done].
    destruct st; [by destruct (Hnl x); [lia|]|]. eapply (IH x); [lia|done|done]. }
  exists r'. split; [done|].
  apply dealloc_pass_Ok in Hp as (a & -> & Hok & Hget & Hdone); [|done]. split.
  - apply ram_ok_subset; [done..|]. intros k [st Hk]. destruct (Hget k) as [<-|[? _]]; [eauto|congruence].
  - intros k. cbn. destruct (in_range addr (addr + len') k) eqn:R.
    + apply in_range_true in R. by apply Hdone.
    + destruct (Hget k) as [->|(_ & ? & _)]; [done|].
      assert (in_range addr (addr + len') k = true); [by apply in_range_true|congruence].
Qed.

Lemma dealloc_spec_witness :
  exists r', dealloc demo_host demo_ram_free 0 4096 = Ok (DDone, r')
    /\ bt_get 0 (allocated r') = None /\ bt_get 4096 (allocated r') = Some Unlocked.
Proof.
  destruct (dealloc_spec demo_host demo_ram_free 0 4096 demo_ram_free_ok) as (r' & H & _ & Hg);
    try lia; try reflexivity.
  - cbn. lia.
  - intros k _. cbn. destruct (k =? 0), (k =? 4096); discriminate.
  - exists r'. split; [exact H|]. rewrite !Hg. split; reflexivity.
Defined.

(** A thread of [s] sleeps although it could go on, nobody can wake it: it
    waits in [lock] for blocks that are all unlocked, no guard is live whose
    drop would notify, and no other thread is about to run. *)
Definition lost_wakeup (s : sys) (tid : nat) : Prop :=
  guards s = ∅
  /\ (forall tid' p, waiters s !! tid' <> Some (p, true))
  /\ exists addr len' next, waiters s !! tid = Some (PLock addr len' next, false)
      /\ exists r', lock_pass (ram s) addr len' next = (LSome (Guard addr len'), r').

(** C17: [notify_one] loses wake-ups: with two blocks locked, one thread
    waiting to lock the first and one to deallocate the second, both guards
    can be dropped so that the first thread sleeps forever next to its
    unlocked block. *)
Theorem notify_one_loses_wakeup : exists s tid, reachable false s /\ lost_wakeup s tid.
Proof.
  set (p10 := PLock 0 4096 0). set (p11 := PDealloc 4096 8192).
  set (r3 := set_allocated [(0, Unlocked)] demo_ram).
  exists (Sys r3 (<[10%nat := (p10, false)]> ∅) ∅), 10%nat. split.
  - destruct demo_reachable2 as (s0 & Hi & Hs). exists s0. split; [done|].
    etransitivity; [exact Hs|].
    (* thread 10 waits for block 0, thread 11 for block 1 *)
    eapply rtc_l; [eapply (step_lock _ _ _ 10 0 4096); [done|done|done|reflexivity|apply finish_wait]|].
    eapply rtc_l; [eapply (step_dealloc _ _ _ demo_host 11 4096 4096);
      [done|done|reflexivity|reflexivity|apply dfinish_wait]|].
    (* dropping the first guard wakes thread 11, which waits again *)
    eapply rtc_l; [eapply (step_drop _ _ 0); [reflexivity|apply (notify_some _ 11 p11); reflexivity]|].
    eapply rtc_l; [eapply (step_dealloc_resume _ _ _ demo_host 11 4096 8192);
      [reflexivity|reflexivity|apply dfinish_wait]|].
    (* so does dropping the second, and thread 11 finishes without notifying *)
    eapply rtc_l; [eapply (step_drop _ _ 1); [reflexivity|apply (notify_some _ 11 p11); reflexivity]|].
    eapply rtc_l; [eapply (step_dealloc_resume _ _ _ demo_host 11 4096 8192);
      [reflexivity|reflexivity|apply dfinish_done]|].
    match goal with |- rtc _ ?a ?b => replace a with b; [done|] end.
    f_equal; vm_compute; reflexivity.
  - split; [reflexivity|]. split.
    + intros tid' p. cbn [waiters]. rewrite lookup_insert_Some, lookup_empty. naive_solver.
    + exists 0, 4096, 0. split; [reflexivity|]. eexists. reflexivity.
Qed.

End RamProps.
