(* ===== verification/TableTree.v ===== *)
(** * Trees of page tables

    What the page tables of every processor have in common: four levels of
    tables in physical memory, where an entry that is not zero links to a table
    of the next level, and an entry of the last level maps a page.  A new page
    is mapped by three descents, each of which follows a link or adds one to a
    new table, and one write.  The lemmas do not depend on how an entry encodes
    an address. *)
From S2P Require Import Prelude.

Module TableTree.
Local Open Scope Z_scope.

Abbreviation Table := (list Z).
Abbreviation index := (nat * (nat * (nat * nat)))%type.

(** ** Pages *)

(** Addresses modulo [ps * m], for pages of [ps] bytes: a byte of a region of
    [n] bytes at [v] is at the same offset of one of its pages. *)
Lemma page_bytes ps m v p n va pa :
  0 < ps -> 0 < m -> v mod ps = 0 -> n mod ps = 0 ->
  (exists o, o ∈ step_by 0 n ps /\ ((v + o) / ps) mod m = (va / ps) mod m /\ pa = p + o + va mod ps)
  <-> exists off, 0 <= off < n /\ (v + off) mod (ps * m) = va mod (ps * m) /\ pa = p + off.
Proof.
  intros Hps Hm Hv Hn. rewrite (Z.rem_mul_r va) by lia. pose proof (Z.mod_pos_bound va ps Hps) as Hr.
  apply Z.mod_divide in Hv as [qv ->]; [|lia]. setoid_rewrite elem_of_step_by; [|lia]. split.
  - intros (o & [Ho Hd] & Hidx & ->). rewrite Z.sub_0_r in Hd.
    assert (o + ps <= n) by (apply mult_gap; (done || lia)).
    apply Z.mod_divide in Hd as [qo ->]; [|lia]. exists (qo * ps + va mod ps). split; [lia|]. split; [|lia].
    replace (qv * ps + (qo * ps + va mod ps)) with (va mod ps + (qv + qo) * ps) by lia.
    rewrite Z.rem_mul_r, Z.mod_add, Z.div_add, Z.mod_mod, (Z.div_small (va mod ps)) by lia.
    rewrite Z.add_0_l. revert Hidx. replace (qv * ps + qo * ps) with ((qv + qo) * ps) by lia.
    rewrite Z.div_mul by lia. by intros ->.
  - intros (off & Hoff & Heq & ->). pose proof (Z.mod_pos_bound off ps Hps). pose proof (Z.div_mod off ps).
    rewrite (Z.rem_mul_r _ ps), (Z.add_comm (qv * ps) off), Z.mod_add, Z.div_add in Heq by lia.
    pose proof (Z.mod_pos_bound (off / ps + qv) m Hm). pose proof (Z.mod_pos_bound (va / ps) m Hm).
    assert (off mod ps = va mod ps /\ (off / ps + qv) mod m = (va / ps) mod m) as [Hlo Hhi].
    { assert ((off / ps + qv) mod m = (va / ps) mod m) by nia. split; [nia|done]. }
    exists (ps * (off / ps)). rewrite Z.sub_0_r, (Z.mul_comm ps), Z.mod_mul by lia.
    split; [split; [|done]|].
    + assert (0 <= off / ps) by (apply Z.div_pos; lia). nia.
    + rewrite <- Z.mul_add_distr_r, Z.div_mul, Z.add_comm by lia. split; [done|lia].
Qed.

(** ** Maps of tables *)

(** The non-zero entry at index [j] of the table at [q]. *)
Definition slot (P : gmap Z Table) (q : Z) (j : nat) : option Z :=
  t ← P !! q; e ← t !! j; if e =? 0 then None else Some e.

Lemma slot_None P q j : P !! q = None -> slot P q j = None.
Proof. unfold slot. by intros ->. Qed.

Lemma slot_zero_table n P q j : slot (<[q := replicate n 0]> P) q j = None.
Proof.
  unfold slot. rewrite lookup_insert_eq. cbn [mbind option_bind].
  destruct (replicate n 0 !! j) eqn:H; [|done]. apply lookup_replicate in H as [-> _]. done.
Qed.

Lemma slot_insert_ne P q t q' j : q <> q' -> slot (<[q := t]> P) q' j = slot P q' j.
Proof. intros H. unfold slot. by rewrite lookup_insert_ne. Qed.

(** Overwriting one entry of one table. *)
Lemma slot_update P p tab j e q i :
  P !! p = Some tab -> (j < length tab)%nat -> e <> 0 ->
  slot (<[p := <[j := e]> tab]> P) q i
  = if decide (q = p /\ i = j) then Some e else slot P q i.
Proof.
  intros Hp Hj He. unfold slot. destruct (decide (q = p)) as [->|Hq].
  - rewrite lookup_insert_eq, Hp. cbn [mbind option_bind]. destruct (decide (i = j)) as [->|Hi].
    + rewrite list_lookup_insert_eq by done. cbn [mbind option_bind].
      rewrite (proj2 (Z.eqb_neq e 0) He). by rewrite decide_True.
    + rewrite list_lookup_insert_ne by done. rewrite decide_False by naive_solver. done.
  - rewrite lookup_insert_ne by done. rewrite decide_False by naive_solver. done.
Qed.

(** The tables of [C] have [k] entries and lie below [n]. *)
Definition tabs_ok (k : nat) (n : Z) (C : gmap Z Table) : Prop :=
  forall a t, C !! a = Some t -> length t = k /\ a < n.

Lemma tabs_ok_mono k n n' C : tabs_ok k n C -> n <= n' -> tabs_ok k n' C.
Proof. intros H Hn a t Ha. destruct (H a t Ha). split; [done|lia]. Qed.

Lemma tabs_ok_insert k n C a t :
  tabs_ok k n C -> length t = k -> a < n -> tabs_ok k n (<[a := t]> C).
Proof. intros H Hl Hn a' t' [[<- <-]|[_ ?]]%lookup_insert_Some; [done|by apply H]. Qed.

(** Replacing a table that is there. *)
Lemma tabs_ok_replace k n n' C a t :
  tabs_ok k n C -> n <= n' -> is_Some (C !! a) -> length t = k -> tabs_ok k n' (<[a := t]> C).
Proof.
  intros H Hn [t' Ha] Hl. apply H in Ha as [_ ?].
  apply tabs_ok_insert; [by eapply tabs_ok_mono|done|lia].
Qed.

Definition disjoint (C D : gmap Z Table) : Prop :=
  forall a, is_Some (C !! a) -> is_Some (D !! a) -> False.

Lemma disjoint_None (C D : gmap Z Table) a : disjoint C D -> is_Some (D !! a) -> C !! a = None.
Proof. intros Hd Ha. apply eq_None_not_Some. intros Hc. by eapply Hd. Qed.

Lemma disjoint_grow k k' n0 n1 n2 n3 n4 (C C' D D' : gmap Z Table) :
  disjoint C D -> tabs_ok k n0 C -> tabs_ok k' n0 D ->
  n0 <= n1 -> n2 <= n3 -> n0 <= n3 ->
  (forall a, is_Some (C' !! a) -> is_Some (C !! a) \/ n1 <= a < n2) ->
  (forall a, is_Some (D' !! a) -> is_Some (D !! a) \/ n3 <= a < n4) ->
  disjoint C' D'.
Proof.
  intros Hd HC HD H01 H23 H03 HC' HD' a Ha Hb.
  destruct (HC' a Ha) as [Ha1|Ha1], (HD' a Hb) as [Hb1|Hb1]; [by eapply Hd| | |lia].
  - destruct Ha1 as [? Ha1]. apply HC in Ha1. lia.
  - destruct Hb1 as [? Hb1]. apply HD in Hb1. lia.
Qed.

Lemma insert_same_dom (C : gmap Z Table) q t a :
  is_Some (C !! q) -> is_Some (<[q := t]> C !! a) -> is_Some (C !! a).
Proof. intros Hq [->|[_ ?]]%lookup_insert_is_Some; done. Qed.

(** [f'] is [f] with one more path, from table [c] along [r0], to [v]. *)
Definition extends {R} `{EqDecision R} (f f' : Z -> R -> option Z) (c : Z) (r0 : R) (v : Z) : Prop :=
  forall q r, f' q r = if decide (q = c /\ r = r0) then Some v else f q r.

(** The leaf entry. *)
Lemma extends_leaf P C p tab j v :
  P !! p = Some tab -> (j < length tab)%nat -> v <> 0 -> (forall q i, slot P q i = slot C q i) ->
  extends (slot C) (slot (<[p := <[j := v]> tab]> P)) p j v.
Proof. intros Hp Hj Hv HP q i. rewrite slot_update by done. by rewrite HP. Qed.

(** ** How entries encode addresses *)

(** A link to the table at [c] is [link c]; [target] gives the address back. *)
Class Entries (link target : Z -> Z) (good : Z -> Prop) := {
  target_link : forall c, good c -> target (link c) = c;
  link_nonzero : forall c, good c -> link c <> 0
}.

Section tree.
Context (link target : Z -> Z) (good : Z -> Prop) `{He : !Entries link target good}.

Lemma link_inj c c' : good c -> good c' -> link c = link c' -> c = c'.
Proof. intros H H' Heq. by rewrite <- (target_link c), Heq, target_link. Qed.

(** Every non-zero entry of [P] points to a table of [C], no two to the same. *)
Record level_ok (P C : gmap Z Table) : Prop := {
  lv_entry : forall q j e, slot P q j = Some e ->
    exists c, e = link c /\ good c /\ is_Some (C !! c);
  lv_inj : forall q j q' j' e, slot P q j = Some e -> slot P q' j' = Some e -> q = q' /\ j = j'
}.

(** Adding an entry that points to a new table. *)
Lemma level_ok_link P C p tab j c t :
  level_ok P C -> P !! p = Some tab -> (j < length tab)%nat -> good c -> C !! c = None ->
  level_ok (<[p := <[j := link c]> tab]> P) (<[c := t]> C).
Proof.
  intros [Hen Hi] Hp Hj Hc Hnone.
  assert (forall q i e, slot P q i = Some e -> e <> link c) as Hfresh.
  { intros q i e Hs ->. destruct (Hen _ _ _ Hs) as (c' & Heq & Hg & [? Hc']).
    apply link_inj in Heq as <-; [congruence|done..]. }
  split.
  - intros q i e. rewrite slot_update by (done || by apply link_nonzero). case_decide as Hd.
    + intros [= <-]. exists c. split; [done|]. split; [done|]. rewrite lookup_insert_eq. eauto.
    + intros Hs. destruct (Hen _ _ _ Hs) as (c' & -> & Hg & [t' Ht']). exists c'. split; [done|].
      split; [done|]. rewrite lookup_insert_ne by congruence. eauto.
  - intros q i q' i' e. rewrite !slot_update by (done || by apply link_nonzero).
    case_decide as Hd; case_decide as Hd'; intros H1 H2; [naive_solver| | |by eapply Hi].
    + injection H1 as <-. by apply Hfresh in H2.
    + injection H2 as <-. by apply Hfresh in H1.
Qed.

Lemma level_ok_slots P P' C C' :
  level_ok P C -> (forall q j, slot P' q j = slot P q j) ->
  (forall c, is_Some (C !! c) -> is_Some (C' !! c)) -> level_ok P' C'.
Proof.
  intros [Hen Hi] HP HC. split.
  - intros q j e. rewrite HP. intros Hs. destruct (Hen _ _ _ Hs) as (c & ? & ? & ?). eauto.
  - intros q j q' j' e. rewrite !HP. apply Hi.
Qed.

(** ** Paths *)

(** Following an entry of [P] and then [f]. *)
Definition follow {R} (P : gmap Z Table) (f : Z -> R -> option Z) (q : Z) (jr : nat * R) : option Z :=
  e ← slot P q jr.1; f (target e) jr.2.

Lemma follow_None {R} (P : gmap Z Table) (f : Z -> R -> option Z) q jr : P !! q = None -> follow P f q jr = None.
Proof. intros H. unfold follow. by rewrite slot_None. Qed.

Lemma extends_slots {R} `{EqDecision R} (P P0 : gmap Z Table) (f : Z -> R -> option Z) g p r v :
  (forall q j, slot P q j = slot P0 q j) ->
  extends (follow P f) g p r v -> extends (follow P0 f) g p r v.
Proof. intros HP Hext q r'. rewrite Hext. unfold follow. by rewrite HP. Qed.

(** Extending a path upwards by the entry [j] of table [p]. *)
Lemma extends_follow {R} `{EqDecision R} (P P' C C' : gmap Z Table) (f f' : Z -> R -> option Z) p j c r0 v :
  extends f f' c r0 v ->
  level_ok P' C' -> slot P' p j = Some (link c) -> good c ->
  (forall q i, ~ (q = p /\ i = j) -> slot P' q i = slot P q i) ->
  slot P p j = Some (link c) \/ (slot P p j = None /\ C !! c = None) ->
  (forall r, C !! c = None -> f c r = None) ->
  extends (follow P f) (follow P' f') p (j, r0) v.
Proof.
  intros Hext Hlv Hnew Hg Hother Hold Hnone q [i r]. unfold follow. cbn [fst snd].
  destruct (decide (q = p /\ i = j)) as [[-> ->]|Hne].
  - rewrite Hnew. cbn [mbind option_bind]. rewrite target_link, Hext by done.
    destruct (decide (r = r0)) as [->|Hr]; [by rewrite !decide_True|].
    rewrite !decide_False by naive_solver.
    destruct Hold as [-> | [-> Hn]]; cbn [mbind option_bind];
      [rewrite target_link by done|rewrite Hnone by done]; done.
  - rewrite Hother by done. rewrite (decide_False (P := q = p /\ _)) by naive_solver.
    destruct (slot P q i) as [e|] eqn:Hs; [|done]. cbn [mbind option_bind]. rewrite Hext.
    rewrite decide_False; [done|]. intros [Hc _].
    assert (slot P' q i = Some e) as Hs' by (by rewrite Hother).
    destruct (lv_entry _ _ Hlv _ _ _ Hs') as (c' & -> & Hg' & _).
    rewrite target_link in Hc by done. subst c'.
    apply Hne, (lv_inj _ _ Hlv _ _ _ _ _ Hs' Hnew).
Qed.

(** ** Descending one level *)

(** What a successful descent through entry [j] of table [p] does to the tables
    [P] of the level and [C] of the next one; the new table of [k] entries, if
    there is one, lies between [n] and [n']. *)
Record descent (k : nat) (n n' : Z) (P P' C C' : gmap Z Table) (p : Z) (j : nat) (c : Z) : Prop := {
  ds_next : n <= n';
  ds_level : level_ok P' C';
  ds_good : good c;
  ds_entry : slot P' p j = Some (link c);
  ds_other : forall q i, ~ (q = p /\ i = j) -> slot P' q i = slot P q i;
  ds_old : slot P p j = Some (link c) \/ (slot P p j = None /\ C !! c = None);
  ds_child : C' = C /\ is_Some (C !! c)
    \/ C' = <[c := replicate k 0]> C /\ C !! c = None /\ n <= c < n'
}.

(** Following a link. *)
Lemma descent_follow k n P C p tab j v :
  level_ok P C -> P !! p = Some tab -> tab !! j = Some v -> v <> 0 -> is_Some (C !! target v) ->
  descent k n n P P C C p j (target v).
Proof.
  intros Hlv Hp Hv Hv0 HC.
  assert (slot P p j = Some v) as Hs
    by (unfold slot; rewrite Hp; cbn [mbind option_bind]; rewrite Hv; cbn [mbind option_bind];
        by rewrite (proj2 (Z.eqb_neq _ _) Hv0)).
  destruct (lv_entry _ _ Hlv _ _ _ Hs) as (c & -> & Hg & Hc). rewrite target_link in * by done.
  constructor; try done; [by left|left; eauto].
Qed.

(** Linking a new table. *)
Lemma descent_link k n n' P C p tab j c :
  level_ok P C -> P !! p = Some tab -> tab !! j = Some 0 -> good c -> C !! c = None -> n <= c < n' ->
  descent k n n' P (<[p := <[j := link c]> tab]> P) C (<[c := replicate k 0]> C) p j c.
Proof.
  intros Hlv Hp Hv Hg HC Hn. pose proof (lookup_lt_Some _ _ _ Hv) as Hj. pose proof (link_nonzero c Hg).
  assert (slot P p j = None) as Hs
    by (unfold slot; rewrite Hp; cbn [mbind option_bind]; by rewrite Hv).
  constructor; [lia|by apply level_ok_link|done| | |by right|by right].
  - rewrite slot_update by done. by rewrite decide_True.
  - intros q i Hne. rewrite slot_update by done. by rewrite decide_False.
Qed.

Section descent.
Context {k : nat} {n n' : Z} {P P' C C' : gmap Z Table} {p : Z} {j : nat} {c : Z}.
Hypothesis Hds : descent k n n' P P' C C' p j c.

Lemma ds_child_slots q i : slot C' q i = slot C q i.
Proof.
  destruct Hds as [_ _ _ _ _ _ [[-> _]|(-> & Hc & _)]]; [done|].
  destruct (decide (c = q)) as [<-|]; [by rewrite slot_zero_table, slot_None|].
  by apply slot_insert_ne.
Qed.

Lemma ds_child_some : is_Some (C' !! c).
Proof. destruct Hds as [_ _ _ _ _ _ [[-> ?]|(-> & _)]]; [done|]. rewrite lookup_insert_eq. eauto. Qed.

(** Only the table that was just allocated is new. *)
Lemma ds_child_new a : is_Some (C' !! a) -> is_Some (C !! a) \/ n <= a < n'.
Proof.
  destruct Hds as [_ _ _ _ _ _ [[-> _]|(-> & _ & ?)]]; [by left|].
  intros [->|[_ ?]]%lookup_insert_is_Some; [by right|by left].
Qed.

Lemma ds_child_tabs : tabs_ok k n C -> tabs_ok k n' C'.
Proof.
  intros H. destruct Hds as [? _ _ _ _ _ [[-> _]|(-> & _ & ?)]].
  - by eapply tabs_ok_mono.
  - apply tabs_ok_insert; [by eapply tabs_ok_mono|apply length_replicate|lia].
Qed.
End descent.

(** ** The tables under construction *)

(** The root table and the tables of the other levels by their addresses. *)
Record tree := Tree { top : Table; m3 : gmap Z Table; m2 : gmap Z Table; m1 : gmap Z Table }.

Definition l4 (root : Z) (T : tree) : gmap Z Table := {[root := top T]}.

(** The root table has [k4] entries, the others have [k]. *)
Context (k4 k : nat).

Record tree_ok (n root : Z) (T : tree) : Prop := {
  tr_lv4 : level_ok (l4 root T) (m3 T);
  tr_lv3 : level_ok (m3 T) (m2 T);
  tr_lv2 : level_ok (m2 T) (m1 T);
  tr_tabs4 : tabs_ok k4 n (l4 root T);
  tr_tabs3 : tabs_ok k n (m3 T);
  tr_tabs2 : tabs_ok k n (m2 T);
  tr_tabs1 : tabs_ok k n (m1 T);
  tr_d43 : disjoint (l4 root T) (m3 T);
  tr_d42 : disjoint (l4 root T) (m2 T);
  tr_d41 : disjoint (l4 root T) (m1 T);
  tr_d32 : disjoint (m3 T) (m2 T);
  tr_d31 : disjoint (m3 T) (m1 T);
  tr_d21 : disjoint (m2 T) (m1 T)
}.

(** The entry found by walking the four levels. *)
Definition path (root : Z) (T : tree) : Z -> index -> option Z :=
  follow (l4 root T) (follow (m3 T) (follow (m2 T) (slot (m1 T)))).

Section compose.
Context {n n1 n2 n3 root : Z} {T : tree}.
Context {t4 t3 t2 t1 : Table} {c3 c2 c1 : gmap Z Table}.
Context {i4 i3 i2 i1 : nat} {a3 a2 a1 : Z}.
Hypothesis Hok : tree_ok n root T.
Hypothesis D4 : descent k n n1 (l4 root T) {[root := t4]} (m3 T) c3 root i4 a3.
Hypothesis D3 : descent k n1 n2 c3 (<[a3 := t3]> c3) (m2 T) c2 a3 i3 a2.
Hypothesis D2 : descent k n2 n3 c2 (<[a2 := t2]> c2) (m1 T) c1 a2 i2 a1.
Hypothesis Hlens : length t4 = k4 /\ length t3 = k /\ length t2 = k.
Hypothesis Ht1 : c1 !! a1 = Some t1.

Lemma compose_next : n <= n1 <= n2 /\ n2 <= n3.
Proof. clear Hlens. destruct D4, D3, D2. lia. Qed.

Lemma compose_len1 : length t1 = k.
Proof. clear Hlens.
  pose proof compose_next. eapply (ds_child_tabs D2); [|exact Ht1].
  eapply tabs_ok_mono; [apply (tr_tabs1 _ _ _ Hok)|lia].
Qed.

(** The entry of the last level, before the descents. *)
Lemma compose_old : path root T root (i4, (i3, (i2, i1))) = slot c1 a1 i1.
Proof. clear Hlens.
  unfold path, follow. cbn [fst snd]. rewrite (ds_child_slots D2).
  destruct D4 as [_ _ G4 _ _ O4 _], D3 as [_ _ G3 _ _ O3 _], D2 as [_ _ G2 _ _ O2 _].
  destruct O2 as [O2|[O2 Hn]].
  - rewrite (ds_child_slots D3) in O2. destruct O3 as [O3|[_ Hn]]; [|by rewrite slot_None in O2].
    rewrite (ds_child_slots D4) in O3. destruct O4 as [O4|[_ Hn]]; [|by rewrite slot_None in O3].
    rewrite O4. cbn [mbind option_bind]. rewrite target_link, O3 by done. cbn [mbind option_bind].
    rewrite target_link, O2 by done. cbn [mbind option_bind]. by rewrite target_link.
  - rewrite (slot_None (m1 T)) by done. rewrite (ds_child_slots D3) in O2.
    destruct O4 as [O4|[O4 _]]; rewrite O4; [|done]. cbn [mbind option_bind]. rewrite target_link by done.
    rewrite (ds_child_slots D4) in O3. destruct O3 as [O3|[O3 _]]; rewrite O3; [|done].
    cbn [mbind option_bind]. by rewrite target_link, O2.
Qed.

Section write.
Context {v : Z}.
Hypothesis Hi1 : (i1 < k)%nat.
Hypothesis Hv : v <> 0.
Let T' : tree := Tree t4 (<[a3 := t3]> c3) (<[a2 := t2]> c2) (<[a1 := <[i1 := v]> t1]> c1).

Lemma compose_ext : extends (path root T) (path root T') root (i4, (i3, (i2, i1))) v.
Proof. clear Hlens.
  pose proof compose_len1. unfold path, T', l4. cbn [top m3 m2 m1].
  destruct D4 as [_ L4 G4 E4 X4 O4 _], D3 as [_ L3 G3 E3 X3 O3 _], D2 as [_ L2 G2 E2 X2 O2 _].
  eapply extends_follow; [|done..|intros; by apply follow_None].
  apply (extends_slots c3); [apply (ds_child_slots D4)|].
  eapply extends_follow; [|done..|intros; by apply follow_None].
  apply (extends_slots c2); [apply (ds_child_slots D3)|].
  eapply extends_follow; [|done..|intros; by apply slot_None].
  apply extends_leaf; [done|lia|done|apply (ds_child_slots D2)].
Qed.

Lemma compose_tabs :
  tabs_ok k4 n3 {[root := t4]} /\ tabs_ok k n3 (<[a3 := t3]> c3)
  /\ tabs_ok k n3 (<[a2 := t2]> c2) /\ tabs_ok k n3 (<[a1 := <[i1 := v]> t1]> c1).
Proof.
  pose proof compose_len1. pose proof compose_next. destruct Hok as [_ _ _ B4 B3 B2 B1 _ _ _ _ _ _], Hlens as (? & ? & ?).
  split_and!.
  - intros a t [<- <-]%lookup_singleton_Some. split; [done|].
    destruct (B4 root (top T)); [apply lookup_singleton_eq|lia].
  - eapply tabs_ok_replace; [by apply (ds_child_tabs D4)|lia|apply (ds_child_some D4)|done].
  - eapply tabs_ok_replace; [apply (ds_child_tabs D3)|lia|apply (ds_child_some D3)|done].
    eapply tabs_ok_mono; [done|lia].
  - eapply tabs_ok_replace; [apply (ds_child_tabs D2)|lia|eauto|by rewrite length_insert].
    eapply tabs_ok_mono; [done|lia].
Qed.

(** Tables of different levels stay apart. *)
Lemma compose_disjoint :
  disjoint {[root := t4]} (<[a3 := t3]> c3) /\ disjoint {[root := t4]} (<[a2 := t2]> c2)
  /\ disjoint {[root := t4]} (<[a1 := <[i1 := v]> t1]> c1)
  /\ disjoint (<[a3 := t3]> c3) (<[a2 := t2]> c2)
  /\ disjoint (<[a3 := t3]> c3) (<[a1 := <[i1 := v]> t1]> c1)
  /\ disjoint (<[a2 := t2]> c2) (<[a1 := <[i1 := v]> t1]> c1).
Proof.
  pose proof compose_next. destruct Hok.
  assert (forall a, is_Some (({[root := t4]} : gmap Z Table) !! a) ->
            is_Some (l4 root T !! a) \/ n <= a < n) as F4.
  { intros a [t [<- _]%lookup_singleton_Some]. left. unfold l4. rewrite lookup_singleton_eq. eauto. }
  assert (forall a, is_Some (<[a3 := t3]> c3 !! a) -> is_Some (m3 T !! a) \/ n <= a < n1) as F3
    by (intros a Ha; apply (ds_child_new D4); eapply insert_same_dom; [apply (ds_child_some D4)|done]).
  assert (forall a, is_Some (<[a2 := t2]> c2 !! a) -> is_Some (m2 T !! a) \/ n1 <= a < n2) as F2
    by (intros a Ha; apply (ds_child_new D3); eapply insert_same_dom; [apply (ds_child_some D3)|done]).
  assert (forall a, is_Some (<[a1 := <[i1 := v]> t1]> c1 !! a) -> is_Some (m1 T !! a) \/ n2 <= a < n3) as F1
    by (intros a Ha; apply (ds_child_new D2); eapply insert_same_dom; [apply (ds_child_some D2)|done]).
  split_and!; (eapply (disjoint_grow _ _ n); [| | | | | |apply F4 || apply F3 || apply F2|
    apply F3 || apply F2 || apply F1]; (done || lia)).
Qed.

Lemma compose_ok : tree_ok n3 root T'.
Proof.
  pose proof compose_tabs as (? & ? & ? & ?). pose proof compose_disjoint as (? & ? & ? & ? & ? & ?).
  constructor; unfold l4, T'; cbn [top m3 m2 m1]; try done.
  - eapply level_ok_slots; [apply D4|done|]. intros a Ha. by apply lookup_insert_is_Some'; right.
  - eapply level_ok_slots; [apply D3|done|]. intros a Ha. by apply lookup_insert_is_Some'; right.
  - eapply level_ok_slots; [apply D2|done|]. intros a Ha. by apply lookup_insert_is_Some'; right.
Qed.
End write.
End compose.

(** ** Mapped pages *)

(** The tables lie below [n] and map exactly the pages in [acc], given by their
    indices and entries. *)
Record state (n root : Z) (acc : list (index * Z)) (T : tree) : Prop := {
  st_tree : tree_ok n root T;
  st_maps : forall r e, path root T root r = Some e <-> (r, e) ∈ acc;
  st_once : NoDup acc.*1
}.

Lemma state_mapped n root acc T r : state n root acc T -> path root T root r <> None <-> r ∈ acc.*1.
Proof.
  intros Hst. split.
  - destruct (path root T root r) as [e|] eqn:Hp; [|done]. intros _.
    apply (st_maps _ _ _ _ Hst) in Hp. apply list_elem_of_fmap. by exists (r, e).
  - intros ([r' e] & -> & Hin)%list_elem_of_fmap. apply (st_maps _ _ _ _ Hst) in Hin. cbn [fst]. congruence.
Qed.

(** Three descents and a write map one more page. *)
Lemma state_step n n1 n2 n3 root acc T t4 t3 t2 t1 c3 c2 c1 (r : index) a3 a2 a1 v :
  state n root acc T ->
  descent k n n1 (l4 root T) {[root := t4]} (m3 T) c3 root r.1 a3 ->
  descent k n1 n2 c3 (<[a3 := t3]> c3) (m2 T) c2 a3 r.2.1 a2 ->
  descent k n2 n3 c2 (<[a2 := t2]> c2) (m1 T) c1 a2 r.2.2.1 a1 ->
  length t4 = k4 /\ length t3 = k /\ length t2 = k ->
  c1 !! a1 = Some t1 -> t1 !! r.2.2.2 = Some 0 -> v <> 0 ->
  state n3 root (acc ++ [(r, v)])
    (Tree t4 (<[a3 := t3]> c3) (<[a2 := t2]> c2) (<[a1 := <[r.2.2.2 := v]> t1]> c1)).
Proof.
  intros Hst D4 D3 D2 Hl Ht1 H0 Hv. pose proof (st_tree _ _ _ _ Hst) as Hok.
  pose proof (compose_len1 Hok D4 D3 D2 Ht1) as Hl1.
  assert (r.2.2.2 < k)%nat as Hi by (apply lookup_lt_Some in H0; lia).
  pose proof (compose_old (i1 := r.2.2.2) D4 D3 D2) as Hold.
  pose proof (compose_ext Hok D4 D3 D2 Ht1 Hi Hv) as Hext. destruct r as (i4 & i3 & i2 & i1). cbn [fst snd] in *.
  assert (path root T root (i4, (i3, (i2, i1))) = None) as Hfree.
  { rewrite Hold. unfold slot. rewrite Ht1. cbn [mbind option_bind]. by rewrite H0. }
  split.
  - by apply (compose_ok Hok D4 D3 D2 Hl Ht1).
  - intros r e. rewrite Hext, elem_of_app, list_elem_of_singleton.
    case_decide as Hd; [destruct Hd as [_ ->]|].
    + split; [intros [= <-]; by right|]. intros [Hin|[= ->]]; [|done].
      apply (st_maps _ _ _ _ Hst) in Hin. congruence.
    + rewrite (st_maps _ _ _ _ Hst). naive_solver.
  - rewrite fmap_app. apply NoDup_app. split; [apply Hst|]. split; [|apply NoDup_singleton].
    intros r Hr Hr'. apply list_elem_of_singleton in Hr' as ->. by apply (state_mapped _ _ _ _ _ Hst) in Hr.
Qed.

(** An entry that is there belongs to a page that is mapped. *)
Lemma state_dup n n1 n2 n3 root acc T t4 t3 t2 t1 c3 c2 c1 (r : index) a3 a2 a1 e :
  state n root acc T ->
  descent k n n1 (l4 root T) {[root := t4]} (m3 T) c3 root r.1 a3 ->
  descent k n1 n2 c3 (<[a3 := t3]> c3) (m2 T) c2 a3 r.2.1 a2 ->
  descent k n2 n3 c2 (<[a2 := t2]> c2) (m1 T) c1 a2 r.2.2.1 a1 ->
  c1 !! a1 = Some t1 -> t1 !! r.2.2.2 = Some e -> e <> 0 ->
  r ∈ acc.*1.
Proof.
  intros Hst D4 D3 D2 Ht1 He1 H0. apply (state_mapped _ _ _ _ _ Hst).
  pose proof (compose_old (i1 := r.2.2.2) D4 D3 D2) as Hold. destruct r as (i4 & i3 & i2 & i1). cbn [fst snd] in *.
  rewrite Hold. unfold slot. rewrite Ht1. cbn [mbind option_bind]. rewrite He1. cbn [mbind option_bind].
  by rewrite (proj2 (Z.eqb_neq _ _) H0).
Qed.

(** The empty root table. *)
Lemma state_empty n root : root < n -> state n root [] (Tree (replicate k4 0) ∅ ∅ ∅).
Proof.
  intros Hn.
  assert (forall q j, slot {[root := replicate k4 0]} q j = None) as H4.
  { intros q j. destruct (decide (root = q)) as [<-|Hne].
    - apply (slot_zero_table k4 ∅).
    - apply slot_None. by apply lookup_singleton_ne. }
  assert (forall q j, slot ∅ q j = None) as H0 by (intros; by apply slot_None, lookup_empty).
  assert (forall D : gmap Z Table, disjoint D ∅) as Hd
    by (intros D a _ [? Ha]; by rewrite lookup_empty in Ha).
  assert (tabs_ok k n ∅) as Ht by (intros a t Ha; by rewrite lookup_empty in Ha).
  assert (forall C, level_ok ∅ C) as Hl by (split; intros *; by rewrite H0).
  split; [|intros r e; split; [|by intros ?%not_elem_of_nil]|constructor].
  - constructor; unfold l4; cbn [top m3 m2 m1]; try done.
    + split; intros *; by rewrite H4.
    + intros a t [<- <-]%lookup_singleton_Some. by rewrite length_replicate.
  - unfold path, follow, l4. cbn [top fst snd]. by rewrite H4.
Qed.

(** ** The page walk of the processor *)

(** The tables in physical memory, by address. *)
Definition guest (root : Z) (T : tree) : gmap Z Table := <[root := top T]> (m3 T ∪ m2 T ∪ m1 T).

(** The processor takes an entry that it finds valid. *)
Context (valid : Z -> bool).

Definition walk_entry (m : gmap Z Table) (tab : Z) (i : nat) : option Z :=
  t ← m !! tab; e ← t !! i; if valid e then Some e else None.

Definition walk (m : gmap Z Table) (root : Z) (r : index) : option Z :=
  e4 ← walk_entry m root r.1;
  e3 ← walk_entry m (target e4) r.2.1;
  e2 ← walk_entry m (target e3) r.2.2.1;
  walk_entry m (target e2) r.2.2.2.

Hypothesis valid_0 : valid 0 = false.
Hypothesis valid_link : forall c, good c -> valid (link c) = true.

Lemma walk_entry_slot (m L : gmap Z Table) q i :
  m !! q = L !! q -> (forall e, slot L q i = Some e -> valid e = true) -> walk_entry m q i = slot L q i.
Proof.
  unfold walk_entry, slot. intros -> Hgood. destruct (L !! q) as [t|]; [|done]. cbn [mbind option_bind] in *.
  destruct (t !! i) as [e|]; [|done]. cbn [mbind option_bind] in *.
  destruct (Z.eqb_spec e 0) as [Heq|Hne]; [by rewrite Heq, valid_0|]. by rewrite (Hgood e eq_refl).
Qed.

Section guest.
Context {n root : Z} {T : tree}.
Hypothesis Hok : tree_ok n root T.

Lemma not_root (C : gmap Z Table) a : disjoint (l4 root T) C -> is_Some (C !! a) -> root <> a.
Proof. intros Hd Ha ->. eapply Hd; [|done]. unfold l4. rewrite lookup_singleton_eq. eauto. Qed.

Lemma guest_4 : guest root T !! root = l4 root T !! root.
Proof. unfold guest, l4. by rewrite lookup_insert_eq, lookup_singleton_eq. Qed.

Lemma guest_3 a : is_Some (m3 T !! a) -> guest root T !! a = m3 T !! a.
Proof.
  intros Ha. destruct Hok. unfold guest. rewrite lookup_insert_ne by (by apply (not_root (m3 T))).
  destruct Ha as [t Ha]. rewrite Ha. by do 2 apply lookup_union_Some_l.
Qed.

Lemma guest_2 a : is_Some (m2 T !! a) -> guest root T !! a = m2 T !! a.
Proof.
  intros Ha. destruct Hok as [_ _ _ _ _ _ _ _ D42 _ D32 _ _]. unfold guest.
  rewrite lookup_insert_ne by (by apply (not_root (m2 T))).
  pose proof (disjoint_None _ _ a D32 Ha). destruct Ha as [t Ha]. rewrite Ha.
  apply lookup_union_Some_l. by rewrite lookup_union_r.
Qed.

Lemma guest_1 a : is_Some (m1 T !! a) -> guest root T !! a = m1 T !! a.
Proof.
  intros Ha. destruct Hok. unfold guest. rewrite lookup_insert_ne by (by apply (not_root (m1 T))).
  rewrite lookup_union_r; [done|]. apply lookup_union_None. split; by eapply disjoint_None.
Qed.
End guest.

(** The walk of the processor finds the pages that are mapped. *)
Lemma walk_path n root acc T r :
  state n root acc T -> Forall (fun x => valid x.2 = true) acc ->
  walk (guest root T) root r = path root T root r.
Proof.
  intros Hst Hacc. pose proof (st_tree _ _ _ _ Hst) as Hok. pose proof Hok as [L4 L3 L2 _ _ _ _ _ _ _ _ _ _].
  assert (forall P C q i e, level_ok P C -> slot P q i = Some e -> valid e = true) as Hlink.
  { intros P C q i e HP Hs. destruct (lv_entry _ _ HP _ _ _ Hs) as (c & -> & Hg & _). by apply valid_link. }
  destruct (path root T root r) as [e1|] eqn:Hp; unfold walk, path, follow in *.
  all: rewrite (walk_entry_slot _ (l4 root T)) by (apply guest_4 || (intros; eapply Hlink; [|eassumption]; eassumption)).
  all: destruct (slot (l4 root T) root r.1) as [e4|] eqn:H4; [|done]; cbn [mbind option_bind] in *.
  all: destruct (lv_entry _ _ L4 _ _ _ H4) as (a3 & -> & Hg3 & Ha3); rewrite target_link in * by done.
  all: rewrite (walk_entry_slot _ (m3 T)) by ((by apply (guest_3 Hok)) || (intros; eapply Hlink; [|eassumption]; eassumption)).
  all: destruct (slot (m3 T) a3 r.2.1) as [e3|] eqn:H3; [|done]; cbn [mbind option_bind] in *.
  all: destruct (lv_entry _ _ L3 _ _ _ H3) as (a2 & -> & Hg2 & Ha2); rewrite target_link in * by done.
  all: rewrite (walk_entry_slot _ (m2 T)) by ((by apply (guest_2 Hok)) || (intros; eapply Hlink; [|eassumption]; eassumption)).
  all: destruct (slot (m2 T) a2 r.2.2.1) as [e2|] eqn:H2; [|done]; cbn [mbind option_bind] in *.
  all: destruct (lv_entry _ _ L2 _ _ _ H2) as (a1 & -> & Hg1 & Ha1); rewrite target_link in * by done.
  all: rewrite (walk_entry_slot _ (m1 T)); [done|by apply (guest_1 Hok)|].
  all: intros e He1; rewrite He1 in Hp; try discriminate Hp.
  assert ((r, e) ∈ acc) as Hin.
  { apply (st_maps _ _ _ _ Hst). unfold path, follow. rewrite H4. cbn [mbind option_bind]. rewrite target_link, H3 by done.
    cbn [mbind option_bind]. rewrite target_link, H2 by done. cbn [mbind option_bind]. by rewrite target_link. }
  rewrite Forall_forall in Hacc. apply (Hacc _ Hin).
Qed.

End tree.
End TableTree.
