(* ===== verification/RamBuilder.v ===== *)
(** * Initial content of the RAM and x86-64 page tables

    Models [lib/hv/src/ram/builder.rs] and [lib/hv/src/ram/x86_64.rs]: the
    builder hands out physical memory of the VM in increasing order, records
    what is mapped where, and builds the four-level page tables that map it.
    The specification is the page walk of the AMD64 manual over the tables
    as they lie in guest memory. *)
From S2P Require Import Prelude BTree Ram.

Module RamBuilder.
Import Ram.

(** ** Data *)

Record AllocInfo := Info { paddr : Z; vaddr : Z; info_len : Z }.

(** The hypervisor is used for its RAM only. *)
Record t := Mk {
  hv_ram : Ram.t;
  next : Z;
  allocs : list AllocInfo (* [allocated] *)
}.

Inductive RamBuilderError :=
  | AllocPml4Table (e : RamError)
  | AllocPdpTable (e : RamError)
  | AllocPdTable (e : RamError)
  | AllocPageTable (e : RamError)
  | DuplicatedVirtualAddr (addr : Z).

(** A page table is the [[usize; 512]] at a physical address. *)
Abbreviation PageTable := (list Z).

(** [Context4K]; the maps are keyed by the physical address of the table. *)
Record Context4K := Cx {
  pml4t : PageTable;
  pdpt : gmap Z PageTable;
  pdt : gmap Z PageTable;
  pt : gmap Z PageTable
}.

(** ** Allocation *)

Definition new (r : Ram.t) (start_addr : Z) : outcome RamError t :=
  assert_that (start_addr mod block_size r =? 0);;
  Ok (Mk r start_addr []).

Definition alloc (h : host) (b : t) (vaddr' : option Z) (len' : Z)
    : outcome RamError (Z * LockedMem * t) :=
  let paddr := next b in
  let vaddr := default paddr vaddr' in
  assert_that (vaddr mod vm_page_size (hv_ram b) =? 0);;
  n ← ok_or InvalidAddr (checked_next_multiple_of len' (block_size (hv_ram b)));
  '(g, r) ← Ram.alloc h (hv_ram b) paddr n;
  next' ← uadd (next b) n;
  Ok (paddr, g, Mk r next' (allocs b ++ [Info paddr vaddr len'])).

(** A new table is filled with zeroes. *)
Definition zero_table : PageTable := replicate 512 0.
Arguments zero_table : simpl never.

Definition alloc_page_table (h : host) (b : t) : outcome RamError (PageTable * Z * t) :=
  let addr := next b in
  n ← unwrap_or_panic PUnwrap (checked_next_multiple_of (512 * 8) (block_size (hv_ram b)));
  assert_that (addr mod 4096 =? 0);;
  '(_, r) ← Ram.alloc h (hv_ram b) addr n;
  next' ← uadd (next b) n;
  Ok (zero_table, addr, Mk r next' (allocs b)).

(** ** Page tables *)

(** The value that [set_page_entry] stores for an address. *)
Definition set_page_entry {E} (addr : Z) : outcome E Z :=
  assert_that (Z.land addr 0x7FF0000000000000 =? 0);;
  assert_that (Z.land addr 0xFFF =? 0);;
  Ok (Z.lor (Z.lor addr 1) 2).

(** One level of the descent: the table that entry [idx] of [tab] points to,
    allocated and linked when the entry is zero.  Returns the changed [tab],
    the changed map of the next level, and the address of the next table. *)
Definition next_table (h : host) (err : RamError -> RamBuilderError) (b : t)
    (tab : PageTable) (idx : Z) (children : gmap Z PageTable)
    : outcome RamBuilderError (t * PageTable * gmap Z PageTable * Z) :=
  v ← arr_get tab idx;
  if v =? 0 then
    '(child, addr, b') ← map_err err (alloc_page_table h b);
    e ← set_page_entry addr;
    tab' ← arr_set tab idx e;
    match children !! addr with
    | Some _ => Panic PUnreachable
    | None => Ok (b', tab', <[addr := child]> children, addr)
    end
  else
    let addr := Z.land v 0xFFFFFFFFFF000 in
    match children !! addr with
    | Some _ => Ok (b, tab, children, addr)
    | None => Panic PUnwrap
    end.

(** The three upper levels for one page: the address of its page table, in
    tables where the path to it is linked. *)
Definition descend (h : host) (bc : t * Context4K) (addr : Z)
    : outcome RamBuilderError (t * Context4K * Z) :=
  let '(b, cx) := bc in
  (* Get page-directory pointer table. *)
  let pml4o := Z.shiftr (Z.land addr 0xFF8000000000) 39 in
  '(b, pml4t', pdpt', a3) ← next_table h AllocPdpTable b (pml4t cx) pml4o (pdpt cx);
  (* Get page-directory table. *)
  let pdpo := Z.shiftr (Z.land addr 0x7FC0000000) 30 in
  t3 ← unwrap_or_panic PUnwrap (pdpt' !! a3);
  '(b, t3', pdt', a2) ← next_table h AllocPdTable b t3 pdpo (pdt cx);
  (* Get page table. *)
  let pdo := Z.shiftr (Z.land addr 0x3FE00000) 21 in
  t2 ← unwrap_or_panic PUnwrap (pdt' !! a2);
  '(b, t2', pt', a1) ← next_table h AllocPageTable b t2 pdo (pt cx);
  Ok (b, Cx pml4t' (<[a3 := t3']> pdpt') (<[a2 := t2']> pdt') pt', a1).
Arguments descend : simpl never.

(** The body of the loop of [setup_4k_page_tables] for one page. *)
Definition map_page (h : host) (bc : t * Context4K) (vaddr paddr off : Z)
    : outcome RamBuilderError (t * Context4K) :=
  addr ← uadd vaddr off;
  '(b, cx, a1) ← descend h bc addr;
  (* Set page table entry. *)
  let pto := Z.shiftr (Z.land addr 0x1FF000) 12 in
  pa ← uadd paddr off;
  t1 ← unwrap_or_panic PUnwrap (pt cx !! a1);
  v ← arr_get t1 pto;
  fail_if (negb (v =? 0)) (DuplicatedVirtualAddr addr);;
  e ← set_page_entry pa;
  t1' ← arr_set t1 pto e;
  Ok (b, Cx (pml4t cx) (pdpt cx) (pdt cx) (<[a1 := t1']> (pt cx))).

Fixpoint map_pages (h : host) (bc : t * Context4K) (vaddr paddr : Z) (offs : list Z)
    : outcome RamBuilderError (t * Context4K) :=
  match offs with
  | [] => Ok bc
  | off :: rest =>
      bc' ← map_page h bc vaddr paddr off;
      map_pages h bc' vaddr paddr rest
  end.

Definition setup_4k_page_tables (h : host) (bc : t * Context4K) (vaddr paddr len' : Z)
    : outcome RamBuilderError (t * Context4K) :=
  assert_that (vaddr mod 4096 =? 0);;
  assert_that (paddr mod 4096 =? 0);;
  assert_that (len' mod 4096 =? 0);;
  map_pages h bc vaddr paddr (step_by 0 len' 4096).

(** The loops of [build_4k_page_tables] over the allocated RAM and over the
    virtual devices. *)
Fixpoint map_allocs (h : host) (page_size : Z) (bc : t * Context4K) (infos : list AllocInfo)
    : outcome RamBuilderError (t * Context4K) :=
  match infos with
  | [] => Ok bc
  | i :: rest =>
      n ← next_multiple_of (info_len i) page_size;
      bc' ← setup_4k_page_tables h bc (vaddr i) (paddr i) n;
      map_allocs h page_size bc' rest
  end.

Fixpoint map_devices (h : host) (page_size : Z) (bc : t * Context4K) (devs : list AllocInfo)
    : outcome RamBuilderError (t * Context4K) :=
  match devs with
  | [] => Ok bc
  | d :: rest =>
      n ← unwrap_or_panic PUnwrap (checked_next_multiple_of (info_len d) page_size);
      assert_that (len (hv_ram bc.1) <=? paddr d);;
      bc' ← setup_4k_page_tables h bc (vaddr d) (paddr d) n;
      map_devices h page_size bc' rest
  end.

(** Returns the address of the page-map level-4 table; the tables are left
    in guest memory, which the second component shows. *)
Definition build_4k_page_tables (h : host) (b : t) (devices : list AllocInfo)
    : outcome RamBuilderError (Z * (t * Context4K)) :=
  '(root, page_table, b) ← map_err AllocPml4Table (alloc_page_table h b);
  let page_size := vm_page_size (hv_ram b) in
  let cx := Cx root ∅ ∅ ∅ in
  let infos := allocs b in
  bc ← map_allocs h page_size (Mk (hv_ram b) (next b) [], cx) infos;
  bc ← map_devices h page_size bc devices;
  Ok (page_table, bc).

(** The dispatch of [build_page_table] on an x86-64 host. *)
Definition build_page_table (h : host) (b : t) (devices : list AllocInfo)
    : outcome RamBuilderError (Z * (t * Context4K)) :=
  let page_size := vm_page_size (hv_ram b) in
  if (page_size =? 0x1000) || (page_size =? 0x4000)
  then build_4k_page_tables h b devices
  else Panic PTodo.

(** ** Specification: the page walk of the processor *)

(** The tables in guest memory, by physical address. *)
Definition guest_tables (root : Z) (cx : Context4K) : gmap Z PageTable :=
  <[root := pml4t cx]> (pdpt cx ∪ pdt cx ∪ pt cx).

(** Bits 12 to 51 of an entry are the address, bit 0 says it is present. *)
Definition entry_addr (e : Z) : Z := Z.land e 0xFFFFFFFFFF000.

Definition walk_entry (m : gmap Z PageTable) (tab idx : Z) : option Z :=
  t ← m !! tab;
  e ← t !! Z.to_nat idx;
  if Z.testbit e 0 then Some e else None.

(** The physical address of a virtual address (CR3 holds [root]). *)
Definition walk (m : gmap Z PageTable) (root va : Z) : option Z :=
  e4 ← walk_entry m root ((va / 2 ^ 39) mod 512);
  e3 ← walk_entry m (entry_addr e4) ((va / 2 ^ 30) mod 512);
  e2 ← walk_entry m (entry_addr e3) ((va / 2 ^ 21) mod 512);
  e1 ← walk_entry m (entry_addr e2) ((va / 2 ^ 12) mod 512);
  Some (entry_addr e1 + va mod 4096).

End RamBuilder.
