(* ===== verification/PageTableProps.v ===== *)
(** * Correctness of the x86-64 page tables

    The tables that [RamBuilder.build_4k_page_tables] leaves in guest memory
    translate, under the page walk of the processor, exactly the pages that
    were asked for. *)
From S2P Require Import Prelude BTree Ram RamProps TableTree RamBuilder.

Module PageTableProps.
Import TableTree Ram RamBuilder.

(** ** Entries *)

(** Physical addresses that fit in an entry. *)
Definition good (c : Z) : Prop := 0 <= c < 2 ^ 52 /\ c mod 4096 = 0.

Lemma set_page_entry_Ok {E} addr e :
  @set_page_entry E addr = Ok e -> 0 <= addr < 2 ^ 63 -> good addr /\ e = addr + 3.
Proof.
  intros H Ha. unfold set_page_entry in H. inv_ok. bool_to_prop.
  change 0x7FF0000000000000 with (Z.shiftl (Z.ones 11) 52) in *.
  change 0xFFF with (Z.ones 12) in *. rewrite Z.land_ones in * by done.
  rewrite land_field in * by done.
  assert (addr / 2 ^ 52 < 2 ^ 11) by (apply Z.div_lt_upper_bound; lia).
  assert (0 <= addr / 2 ^ 52) by (apply Z.div_pos; lia).
  rewrite (Z.mod_small (addr / 2 ^ 52)) in * by lia.
  assert (addr / 2 ^ 52 = 0) as Hz by lia. apply Z.div_small_iff in Hz; [|lia].
  split; [split; [lia|done]|].
  rewrite <- Z.lor_assoc. change (Z.lor 1 2) with 3. by apply (lor_low _ _ 12).
Qed.

Lemma entry_addr_entry c : good c -> entry_addr (c + 3) = c.
Proof.
  intros [Hc Hm]. unfold entry_addr.
  change 0xFFFFFFFFFF000 with (Z.shiftl (Z.ones 40) 12). rewrite land_field by done.
  apply Z.mod_divide in Hm as [q ->]; [|done].
  change (2 ^ 12) with 4096. rewrite Z.div_add_l by done. change (3 / 4096) with 0.
  rewrite Z.add_0_r, Z.mod_small; lia.
Qed.

Lemma entry_present c : good c -> Z.testbit (c + 3) 0 = true.
Proof.
  intros [_ Hm]. apply Z.mod_divide in Hm as [q ->]; [|done].
  rewrite Z.bit0_odd. replace (q * 4096 + 3) with (1 + 2 * (q * 2048 + 1)) by lia.
  by rewrite Z.odd_add_mul_2.
Qed.

(** The link to a table sets the bits present and writable. *)
Abbreviation entry := (fun c => c + 3).

#[export] Instance x86_entries : Entries entry entry_addr good.
Proof. split; [apply entry_addr_entry|]. intros c [? _]. lia. Qed.

(** The tables as a tree. *)
Definition tree_of (cx : Context4K) : tree := Tree (pml4t cx) (pdpt cx) (pdt cx) (pt cx).

Abbreviation table_state := (state entry entry_addr good 512 512).

(** ** Descending one level *)

Definition builder_ok (b : t) : Prop :=
  ram_ok (hv_ram b) /\ 0 <= next b /\ len (hv_ram b) <= 2 ^ 63.

(** What the builder keeps of the RAM. *)
Definition same_ram (r r' : Ram.t) : Prop :=
  len r' = len r /\ vm_page_size r' = vm_page_size r.

Lemma alloc_page_table_Ok h b tab a b' :
  builder_ok b -> alloc_page_table h b = Ok (tab, a, b') ->
  tab = zero_table /\ a = next b /\ next b < next b' /\ a mod 4096 = 0 /\ a < 2 ^ 63
  /\ builder_ok b' /\ same_ram (hv_ram b) (hv_ram b') /\ allocs b' = allocs b.
Proof.
  intros (Hr & Hn & Hl) H. unfold alloc_page_table in H. inv_arith.
  lazymatch goal with x : LockedMem * _ |- _ => destruct x as [g r] end.
  inv_arith. bool_to_prop.
  pose proof (ok_block _ Hr) as Hbs.
  destruct (round_up_spec (512 * 8) (block_size (hv_ram b))) as [? ?]; [lia..|].
  destruct (alloc_Ok h (hv_ram b) (next b) (round_up (512 * 8) (block_size (hv_ram b))) g r)
    as (_ & _ & _ & Hlen & _ & (al & ->) & Hr' & _); [done|lia|lia|done|].
  unfold builder_ok, same_ram. cbn [hv_ram next allocs set_allocated len vm_page_size] in *.
  split_and!; (done || lia).
Qed.

(** A successful step of [descend]. *)
Lemma next_table_Ok h err b tab idx (P C : gmap Z PageTable) p b' tab' C' c :
  next_table h err b tab idx C = Ok (b', tab', C', c) ->
  builder_ok b -> level_ok entry good P C -> P !! p = Some tab -> length tab = 512%nat ->
  builder_ok b' /\ same_ram (hv_ram b) (hv_ram b') /\ length tab' = 512%nat /\
  descent entry good 512 (next b) (next b') P (<[p := tab']> P) C C' p (Z.to_nat idx) c.
Proof.
  intros H Hb Hlv Hp Hlen. unfold next_table in H. inv_ok.
  rename x into v. lazymatch goal with Hg : arr_get _ _ = _ |- _ => apply arr_get_Ok in Hg as [Hi Hv] end.
  destruct (Z.eqb_spec v 0) as [Hv0|Hv0].
  - subst v. inv_ok. destruct x as [[child a] b1]. inv_ok.
    lazymatch goal with Ha : arr_set _ _ _ = _ |- _ => apply arr_set_Ok in Ha as [_ ->] end.
    destruct (C !! a) eqn:HC; [done|]. inv_ok.
    lazymatch goal with Ha : alloc_page_table _ _ = _ |- _ =>
      apply alloc_page_table_Ok in Ha as (-> & -> & Hnx & Hal & Hlt & Hb' & Hram & _); [|done] end.
    lazymatch goal with He : set_page_entry _ = _ |- _ =>
      apply set_page_entry_Ok in He as [Hg ->]; [|destruct Hb; lia] end.
    rewrite length_insert. split_and!; try done. apply (descent_link entry entry_addr good); (done || lia).
  - destruct (C !! Z.land v 0xFFFFFFFFFF000) eqn:HC; [|done]. inv_ok. rewrite (insert_id P) by done.
    split_and!; try done. eapply (descent_follow entry entry_addr good); (done || eauto).
Qed.

(** ** The tables under construction *)

Definition indices (va : Z) : index :=
  (Z.to_nat ((va / 2 ^ 39) mod 512), (Z.to_nat ((va / 2 ^ 30) mod 512),
    (Z.to_nat ((va / 2 ^ 21) mod 512), Z.to_nat ((va / 2 ^ 12) mod 512)))).

Lemma page_index addr lo mask :
  0 <= lo -> mask = Z.shiftl (Z.ones 9) lo ->
  Z.shiftr (Z.land addr mask) lo = (addr / 2 ^ lo) mod 512.
Proof. intros Hlo ->. by rewrite shiftr_field. Qed.

(** The successful descent, as the three steps it is made of. *)
Lemma descend_Ok h root acc b cx addr b3 cx3 a1 :
  builder_ok b -> table_state (next b) root acc (tree_of cx) -> descend h (b, cx) addr = Ok (b3, cx3, a1) ->
  builder_ok b3 /\ same_ram (hv_ram b) (hv_ram b3) /\
  exists n1 n2 m4 t3 t2 c3 c2 c1 a3 a2,
    descent entry good 512 (next b) n1 (l4 root (tree_of cx)) {[root := m4]} (pdpt cx) c3 root (indices addr).1 a3
    /\ descent entry good 512 n1 n2 c3 (<[a3 := t3]> c3) (pdt cx) c2 a3 (indices addr).2.1 a2
    /\ descent entry good 512 n2 (next b3) c2 (<[a2 := t2]> c2) (pt cx) c1 a2 (indices addr).2.2.1 a1
    /\ (length m4 = 512%nat /\ length t3 = 512%nat /\ length t2 = 512%nat)
    /\ cx3 = Cx m4 (<[a3 := t3]> c3) (<[a2 := t2]> c2) c1.
Proof.
  intros Hb Hst H. unfold descend in H. cbn [indices fst snd].
  rewrite (page_index _ 39), (page_index _ 30), (page_index _ 21) in H by done.
  inv_ok. destruct x as [[[b1 m4] c3] a3]. inv_ok. rename x into s3.
  destruct x0 as [[[b2 t3] c2] a2]. inv_ok. rename x into s2.
  destruct x0 as [[[b3' t2] c1] a1']. inv_ok.
  rename H into N4, H1 into N3, H3 into N2, H0 into L3, H2 into L2.
  destruct (st_tree _ _ _ _ _ _ _ _ _ Hst) as [V4 V3 V2 B4 B3 B2 B1 _ _ _ _ _ _]. cbn [tree_of m3 m2 m1] in *.
  apply (next_table_Ok _ _ _ _ _ (l4 root (tree_of cx)) _ root) in N4 as (Hb1 & [? ?] & Hl4 & D4);
    [|done..|apply lookup_singleton_eq|eapply B4, lookup_singleton_eq].
  unfold l4 in D4 at 2. rewrite insert_singleton_eq in D4.
  pose proof (ds_next _ _ _ _ _ _ _ _ _ _ _ _ D4).
  apply (next_table_Ok _ _ _ _ _ c3 _ a3) in N3 as (Hb2 & [? ?] & Hl3 & D3);
    [|done|by eapply level_ok_slots; [|apply (ds_child_slots _ _ D4)|]|done|by eapply (ds_child_tabs _ _ D4)].
  pose proof (ds_next _ _ _ _ _ _ _ _ _ _ _ _ D3).
  apply (next_table_Ok _ _ _ _ _ c2 _ a2) in N2 as (Hb3 & [? ?] & Hl2 & D2);
    [|done|by eapply level_ok_slots; [|apply (ds_child_slots _ _ D3)|]|done
     |by eapply (ds_child_tabs _ _ D3); [eapply tabs_ok_mono; [done|lia]|]].
  split; [done|]. split; [split; congruence|].
  exists (next b1), (next b2), m4, t3, t2, c3, c2, c1, a3, a2. split_and!; assumption || reflexivity.
Qed.

(** ** All the pages *)

(** The indices and the entry of a page. *)
Definition leaf (vp : Z * Z) : index * Z := (indices vp.1, vp.2 + 3).

(** The tables map exactly the pages in [acc]. *)
Definition state_ok (root : Z) (acc : list (Z * Z)) (bc : t * Context4K) : Prop :=
  builder_ok bc.1 /\ table_state (next bc.1) root (leaf <$> acc) (tree_of bc.2)
  /\ Forall (fun vp => good vp.2) acc.

(** No two pages have the same indices. *)
Definition no_clash (pages : list (Z * Z)) : Prop := NoDup (indices ∘ fst <$> pages).

Lemma leaf_indices acc : (leaf <$> acc).*1 = indices ∘ fst <$> acc.
Proof. by rewrite <- list_fmap_compose. Qed.

Lemma state_no_clash root acc bc : state_ok root acc bc -> no_clash acc.
Proof. intros (_ & Hst & _). unfold no_clash. rewrite <- leaf_indices. apply Hst. Qed.

Lemma map_page_state h root acc b cx vaddr paddr off b' cx' :
  state_ok root acc (b, cx) -> 0 <= paddr + off < 2 ^ 63 ->
  map_page h (b, cx) vaddr paddr off = Ok (b', cx') ->
  state_ok root (acc ++ [(vaddr + off, paddr + off)]) (b', cx')
  /\ same_ram (hv_ram b) (hv_ram b').
Proof.
  intros (Hb & Hst & Hgs) Hpa H. cbn [fst snd] in *. unfold map_page in H.
  apply bind_Ok in H as (addr & [-> Hva]%uadd_Ok & H). rewrite (page_index _ 12) in H by done.
  apply bind_Ok in H as ([[b3 cx3] a1] & Hd & H). inv_arith.
  lazymatch goal with Hd : descend _ _ _ = _ |- _ =>
    apply (descend_Ok _ root (leaf <$> acc)) in Hd
      as (Hb3 & Hr & n1 & n2 & m4 & t3 & t2 & c3 & c2 & c1 & a3 & a2 & D4 & D3 & D2 & Hl & ->); [|done..] end.
  cbn [pt pdpt pdt pml4t] in *. rename x0 into t1. bool_to_prop. subst x1.
  lazymatch goal with
    Hg : arr_get _ _ = _, Hs : arr_set _ _ _ = _, He : set_page_entry _ = _ |- _ =>
    apply arr_get_Ok in Hg as [_ Hfree]; apply set_page_entry_Ok in He as [Hgood ->]; [|done];
    apply arr_set_Ok in Hs as [_ ->] end.
  split; [|done]. split; [done|]. split; [|apply Forall_app; split; [done|by constructor]].
  rewrite fmap_app. destruct Hgood as [? _].
  eapply (state_step entry entry_addr good 512 512 _ n1 n2 _ root _ (tree_of cx) m4 t3 t2 t1 c3 c2 c1
    (indices (vaddr + off)) a3 a2 a1 (paddr + off + 3)); (done || lia).
Qed.

Lemma map_pages_state h root acc bc vaddr paddr offs bc' :
  state_ok root acc bc -> (forall off, off ∈ offs -> 0 <= paddr + off < 2 ^ 63) ->
  map_pages h bc vaddr paddr offs = Ok bc' ->
  state_ok root (acc ++ ((fun off => (vaddr + off, paddr + off)) <$> offs)) bc'
  /\ same_ram (hv_ram bc.1) (hv_ram bc'.1).
Proof.
  revert acc bc. induction offs as [|off offs IH]; intros acc [b cx] Hst Hpa H; cbn in H.
  - injection H as <-. cbn. by rewrite app_nil_r.
  - apply bind_Ok in H as ([b1 cx1] & H1 & H).
    apply (map_page_state _ root acc) in H1 as [Hst1 [Hr1 Hr2]];
      [|done|apply Hpa, list_elem_of_here].
    destruct (IH _ (b1, cx1) Hst1) as [Hst' [Hr3 Hr4]]; [|done|].
    { intros o Ho. apply Hpa. by apply list_elem_of_further. }
    rewrite fmap_cons, cons_middle, app_assoc. cbn in *. split; [done|]. split; congruence.
Qed.

(** The pages of a region, rounded up to the page size of the VM. *)
Definition region (page_size : Z) (i : AllocInfo) : list (Z * Z) :=
  (fun off => (vaddr i + off, paddr i + off)) <$> step_by 0 (round_up (info_len i) page_size) 4096.

Definition region_ok (page_size : Z) (i : AllocInfo) : Prop :=
  0 <= paddr i /\ paddr i + round_up (info_len i) page_size <= 2 ^ 63.

Definition aligned (page_size : Z) (i : AllocInfo) : Prop :=
  vaddr i mod 4096 = 0 /\ paddr i mod 4096 = 0 /\ round_up (info_len i) page_size mod 4096 = 0.

Lemma setup_state h root acc page_size bc i bc' :
  state_ok root acc bc -> region_ok page_size i ->
  setup_4k_page_tables h bc (vaddr i) (paddr i) (round_up (info_len i) page_size) = Ok bc' ->
  state_ok root (acc ++ region page_size i) bc'
  /\ same_ram (hv_ram bc.1) (hv_ram bc'.1) /\ aligned page_size i.
Proof.
  intros Hst [Hp Hl] H. unfold setup_4k_page_tables in H. inv_ok. bool_to_prop.
  lazymatch goal with Hm : map_pages _ _ _ _ _ = _ |- _ =>
    apply (map_pages_state _ root acc) in Hm as [? ?]; [done|done|] end.
  intros off Hoff. apply elem_of_step_by in Hoff; lia.
Qed.

Lemma map_allocs_state h root acc page_size bc infos bc' :
  state_ok root acc bc -> Forall (region_ok page_size) infos ->
  map_allocs h page_size bc infos = Ok bc' ->
  state_ok root (acc ++ (infos ≫= region page_size)) bc'
  /\ same_ram (hv_ram bc.1) (hv_ram bc'.1) /\ Forall (aligned page_size) infos.
Proof.
  intros Hst Hall. revert acc bc Hst.
  induction Hall as [|i infos Hi Hall IH]; intros acc bc Hst H; cbn in H.
  - injection H as <-. cbn. by rewrite app_nil_r.
  - inv_arith. lazymatch goal with Hs : setup_4k_page_tables _ _ _ _ _ = Ok ?bc1 |- _ =>
      apply (setup_state _ root acc) in Hs as (Hst1 & [Hr1 Hr2] & Ha); [|done..];
      destruct (IH _ bc1 Hst1) as (Hst' & [Hr3 Hr4] & Hal); [done|] end.
    cbn. rewrite app_assoc. split; [done|]. split; [split; congruence|by constructor].
Qed.

Lemma map_devices_state h root acc page_size bc devs bc' :
  state_ok root acc bc -> Forall (region_ok page_size) devs ->
  map_devices h page_size bc devs = Ok bc' ->
  state_ok root (acc ++ (devs ≫= region page_size)) bc'
  /\ Forall (fun d => len (hv_ram bc.1) <= paddr d) devs /\ Forall (aligned page_size) devs.
Proof.
  intros Hst Hall. revert acc bc Hst.
  induction Hall as [|i devs Hi Hall IH]; intros acc bc Hst H; cbn in H.
  - injection H as <-. cbn. by rewrite app_nil_r.
  - inv_arith. bool_to_prop. lazymatch goal with Hs : setup_4k_page_tables _ _ _ _ _ = Ok ?bc1 |- _ =>
      apply (setup_state _ root acc) in Hs as (Hst1 & [Hr1 Hr2] & Ha); [|done..];
      destruct (IH _ bc1 Hst1) as (Hst' & Hd & Hal); [done|] end.
    cbn. rewrite app_assoc. rewrite Hr1 in Hd. split; [done|]. split; by constructor.
Qed.

(** ** The page walk *)

(** The walk of the processor follows the paths of the builder. *)
Lemma walk_state root acc bc va :
  state_ok root acc bc ->
  RamBuilder.walk (guest_tables root bc.2) root va
  = (fun e => entry_addr e + va mod 4096) <$> path entry_addr root (tree_of bc.2) root (indices va).
Proof.
  intros (Hb & Hst & Hg).
  rewrite <- (walk_path entry entry_addr good 512 512 (fun e => Z.testbit e 0) eq_refl entry_present _ _ _ _ _ Hst).
  - unfold RamBuilder.walk, TableTree.walk. cbn [indices fst snd].
    change (guest root (tree_of bc.2)) with (guest_tables root bc.2).
    change RamBuilder.walk_entry with (fun m tab idx => TableTree.walk_entry (fun e => Z.testbit e 0) m tab (Z.to_nat idx)).
    cbv beta. repeat (case_match || (destruct (TableTree.walk_entry _ _ _ _); [|done]; cbn [mbind option_bind])); done.
  - apply Forall_fmap. eapply Forall_impl; [exact Hg|]. intros vp Hvp. by apply entry_present.
Qed.

(** Two virtual addresses have the same indices when bits 12 to 47 agree. *)
Lemma indices_digits p :
  p mod 2 ^ 36 = p mod 512 + 512 * ((p / 2 ^ 9) mod 512
    + 512 * ((p / 2 ^ 18) mod 512 + 512 * ((p / 2 ^ 27) mod 512))).
Proof.
  change (2 ^ 36) with (512 * (512 * (512 * 512))). rewrite !Z.rem_mul_r by lia.
  by rewrite !Z.div_div by lia.
Qed.

Lemma digits_inj a b c d a' b' c' d' :
  0 <= a < 512 -> 0 <= b < 512 -> 0 <= c < 512 -> 0 <= d < 512 ->
  0 <= a' < 512 -> 0 <= b' < 512 -> 0 <= c' < 512 -> 0 <= d' < 512 ->
  (Z.to_nat d, (Z.to_nat c, (Z.to_nat b, Z.to_nat a)))
    = (Z.to_nat d', (Z.to_nat c', (Z.to_nat b', Z.to_nat a')))
  <-> a + 512 * (b + 512 * (c + 512 * d)) = a' + 512 * (b' + 512 * (c' + 512 * d')).
Proof. intros. split; [intros [= ? ? ? ?]; lia|]. intros. repeat f_equal; lia. Qed.

Lemma indices_eq va va' :
  indices va = indices va' <-> (va / 4096) mod 2 ^ 36 = (va' / 4096) mod 2 ^ 36.
Proof.
  unfold indices. rewrite !indices_digits.
  change (2 ^ 39) with (4096 * 2 ^ 27). change (2 ^ 30) with (4096 * 2 ^ 18).
  change (2 ^ 21) with (4096 * 2 ^ 9). change (2 ^ 12) with 4096. rewrite <- !Z.div_div by lia.
  apply digits_inj; apply Z.mod_pos_bound; lia.
Qed.

Lemma no_clash_pages pages :
  no_clash pages -> NoDup ((fun vp => (vp.1 / 4096) mod 2 ^ 36) <$> pages).
Proof.
  unfold no_clash. induction pages as [|vp pages IH]; [by constructor|].
  rewrite !fmap_cons, !NoDup_cons. intros [Hn Hnd]. split; [|by apply IH].
  intros (vp' & Heq & Hin)%list_elem_of_fmap. apply Hn, list_elem_of_fmap. exists vp'.
  split; [|done]. cbn. by apply indices_eq.
Qed.

(** Byte offsets and page offsets of a region. *)
Lemma region_byte page_size i va pa :
  aligned page_size i ->
  (exists v p, (v, p) ∈ region page_size i /\ indices v = indices va /\ pa = p + va mod 4096)
  <-> exists off, 0 <= off < round_up (info_len i) page_size
        /\ (vaddr i + off) mod 2 ^ 48 = va mod 2 ^ 48 /\ pa = paddr i + off.
Proof.
  intros (Hv & Hp & Hl). change (2 ^ 48) with (4096 * 2 ^ 36). rewrite <- page_bytes by done.
  unfold region. split.
  - intros (v & q & (o & [= -> ->] & Ho)%list_elem_of_fmap & Hi%indices_eq & ->). by exists o.
  - intros (o & Ho & Hi%indices_eq & ->). exists (vaddr i + o), (paddr i + o).
    split; [apply list_elem_of_fmap; eauto|done].
Qed.

(** ** Duplicated virtual addresses *)

Lemma next_table_not_dup h err b tab idx C a :
  (forall e, err e <> DuplicatedVirtualAddr a) ->
  next_table h err b tab idx C <> Err (DuplicatedVirtualAddr a).
Proof.
  intros He H. unfold next_table in H. inv_err. destruct (_ =? 0); [|by case_match]. inv_err.
  - by eapply He.
  - destruct x0 as [[? ?] ?]. unfold set_page_entry in H. inv_err. by case_match.
Qed.

Lemma descend_not_dup h bc addr a : descend h bc addr <> Err (DuplicatedVirtualAddr a).
Proof.
  intros H. unfold descend in H. destruct bc as [b cx]. inv_err;
    repeat match goal with x : (_ * _)%type |- _ => destruct x end; inv_err;
    repeat match goal with x : (_ * _)%type |- _ => destruct x end; inv_err;
    repeat match goal with x : (_ * _)%type |- _ => destruct x end; inv_err;
    by eapply next_table_not_dup in H.
Qed.

(** The entry that is there belongs to a page that was mapped before. *)
Lemma map_page_dup h root acc b cx vaddr paddr off a :
  state_ok root acc (b, cx) ->
  map_page h (b, cx) vaddr paddr off = Err (DuplicatedVirtualAddr a) ->
  a = vaddr + off /\ exists v q, (v, q) ∈ acc /\ indices v = indices a.
Proof.
  intros (Hb & Hst & _) H. cbn [fst snd] in *. unfold map_page in H.
  apply bind_Err in H as [[]%uadd_Err|(addr & [-> _]%uadd_Ok & H)].
  rewrite (page_index _ 12) in H by done.
  apply bind_Err in H as [[]%descend_not_dup|([[b3 cx3] a1] & Hd & H)].
  apply (descend_Ok _ root (leaf <$> acc)) in Hd
    as (_ & _ & n1 & n2 & m4 & t3 & t2 & c3 & c2 & c1 & a3 & a2 & D4 & D3 & D2 & Hl & ->); [|done..].
  cbn [pt] in H. inv_err; [|unfold set_page_entry in *; inv_err]. split; [done|].
  inv_ok. bool_to_prop.
  lazymatch goal with Hg : arr_get ?tab _ = Ok ?e |- _ => apply arr_get_Ok in Hg as [_ Hg];
    enough (indices (vaddr + off) ∈ (leaf <$> acc).*1) as Hin
      by (rewrite leaf_indices in Hin; apply list_elem_of_fmap in Hin as ([v q] & Hi & Hin); cbn in Hi; eauto);
    eapply (state_dup entry entry_addr good 512 512 _ n1 n2 _ root _ (tree_of cx) m4 t3 t2 tab c3 c2 c1
      (indices (vaddr + off)) a3 a2 a1 e); done end.
Qed.

(** [a] is the address of one of [pages] and clashes with one before it. *)
Definition clash_at (acc pages : list (Z * Z)) (a : Z) : Prop :=
  exists pre p post v q, pages = pre ++ (a, p) :: post /\ (v, q) ∈ acc ++ pre
    /\ indices v = indices a.

Lemma clash_at_app acc pages pages' a : clash_at acc pages a -> clash_at acc (pages ++ pages') a.
Proof.
  intros (pre & p & post & v & q & -> & Hin & Hidx).
  exists pre, p, (post ++ pages'), v, q. by rewrite <- app_assoc.
Qed.

Lemma clash_at_later acc pages pages' a : clash_at (acc ++ pages) pages' a -> clash_at acc (pages ++ pages') a.
Proof.
  intros (pre & p & post & v & q & -> & Hin & Hidx).
  exists (pages ++ pre), p, post, v, q. by rewrite <- !app_assoc in *.
Qed.

Lemma map_pages_dup h root acc bc vaddr paddr offs a :
  state_ok root acc bc -> (forall off, off ∈ offs -> 0 <= paddr + off < 2 ^ 63) ->
  map_pages h bc vaddr paddr offs = Err (DuplicatedVirtualAddr a) ->
  clash_at acc ((fun off => (vaddr + off, paddr + off)) <$> offs) a.
Proof.
  revert acc bc. induction offs as [|off offs IH]; intros acc [b cx] Hst Hpa H; cbn in H; [done|].
  rewrite fmap_cons.
  apply bind_Err in H as [H|([b1 cx1] & H1 & H)].
  - apply (clash_at_app _ [_]). apply (map_page_dup _ root acc) in H as [-> (v & q & Hin & Hidx)]; [|done].
    exists [], (paddr + off), [], v, q. by rewrite app_nil_r.
  - apply (clash_at_later _ [_]). apply (map_page_state _ root acc) in H1 as [Hst1 _];
      [|done|apply Hpa, list_elem_of_here].
    apply (IH _ (b1, cx1)); [done| |done]. intros o Ho. apply Hpa. by apply list_elem_of_further.
Qed.

Lemma setup_dup h root acc page_size bc i a :
  state_ok root acc bc -> region_ok page_size i ->
  setup_4k_page_tables h bc (vaddr i) (paddr i) (round_up (info_len i) page_size)
    = Err (DuplicatedVirtualAddr a) ->
  clash_at acc (region page_size i) a.
Proof.
  intros Hst [Hp Hl] H. unfold setup_4k_page_tables in H. inv_err.
  eapply map_pages_dup; [done| |done].
  intros off Hoff. apply elem_of_step_by in Hoff; lia.
Qed.

Lemma map_allocs_dup h root acc page_size bc infos a :
  state_ok root acc bc -> Forall (region_ok page_size) infos ->
  map_allocs h page_size bc infos = Err (DuplicatedVirtualAddr a) ->
  clash_at acc (infos ≫= region page_size) a.
Proof.
  intros Hst Hall. revert acc bc Hst.
  induction Hall as [|i infos Hi Hall IH]; intros acc bc Hst H; cbn in H; [done|].
  inv_err; inv_arith; cbn.
  - apply clash_at_app. by eapply setup_dup.
  - lazymatch goal with Hs : setup_4k_page_tables _ _ _ _ _ = Ok _ |- _ =>
      apply (setup_state _ root acc) in Hs as (Hst1 & _); [|done..] end.
    apply clash_at_later. by eapply IH.
Qed.

Lemma map_devices_dup h root acc page_size bc devs a :
  state_ok root acc bc -> Forall (region_ok page_size) devs ->
  map_devices h page_size bc devs = Err (DuplicatedVirtualAddr a) ->
  clash_at acc (devs ≫= region page_size) a.
Proof.
  intros Hst Hall. revert acc bc Hst.
  induction Hall as [|i devs Hi Hall IH]; intros acc bc Hst H; cbn in H; [done|].
  inv_err; inv_arith; cbn.
  - apply clash_at_app. by eapply setup_dup.
  - lazymatch goal with Hs : setup_4k_page_tables _ _ _ _ _ = Ok _ |- _ =>
      apply (setup_state _ root acc) in Hs as (Hst1 & _); [|done..] end.
    apply clash_at_later. by eapply IH.
Qed.

(** ** The whole address space *)

(** The empty level-4 table. *)
Lemma initial_state root b :
  builder_ok b -> root < next b -> state_ok root [] (b, Cx zero_table ∅ ∅ ∅).
Proof. intros Hb Hn. split; [done|]. split; [|done]. by apply state_empty. Qed.

(** What a successful build went through. *)
Lemma build_Ok h b devices root b' cx :
  let page_size := vm_page_size (hv_ram b) in
  builder_ok b -> Forall (region_ok page_size) (allocs b ++ devices) ->
  build_4k_page_tables h b devices = Ok (root, (b', cx)) ->
  state_ok root ((allocs b ++ devices) ≫= region page_size) (b', cx)
  /\ Forall (aligned page_size) (allocs b ++ devices)
  /\ Forall (fun d => len (hv_ram b) <= paddr d) devices.
Proof.
  intros ps Hb [Ha Hd]%Forall_app H. unfold build_4k_page_tables in H. inv_ok.
  destruct x as [[tab root'] b1]. inv_ok.
  lazymatch goal with Hp : alloc_page_table _ _ = _ |- _ =>
    apply alloc_page_table_Ok in Hp as (-> & -> & Hn & _ & _ & Hb1 & [Hr1 Hr2] & Hal); [|done] end.
  rewrite Hal in *. fold ps in Hr2. rewrite Hr2 in *.
  lazymatch goal with Hm : map_allocs _ _ _ _ = Ok ?bc |- _ =>
    apply (map_allocs_state _ (next b) []) in Hm as (Hst1 & [Hr3 _] & Hal1);
    [|apply initial_state; done|done] end.
  lazymatch goal with Hm : map_devices _ _ _ _ = Ok ?bc |- _ =>
    apply (map_devices_state _ (next b) (allocs b ≫= region ps) ps) in Hm as (Hst2 & Hlen & Hal2); [|done..] end.
  rewrite bind_app. cbn in *. rewrite Hr3, Hr1 in Hlen. split; [done|].
  split; [by apply Forall_app|done].
Qed.

Lemma build_dup h b devices a :
  let page_size := vm_page_size (hv_ram b) in
  builder_ok b -> Forall (region_ok page_size) (allocs b ++ devices) ->
  build_4k_page_tables h b devices = Err (DuplicatedVirtualAddr a) ->
  clash_at [] ((allocs b ++ devices) ≫= region page_size) a.
Proof.
  intros ps Hb [Ha Hd]%Forall_app H. unfold build_4k_page_tables in H. inv_err. inv_ok.
  destruct x as [[tab root'] b1].
  lazymatch goal with Hp : alloc_page_table _ _ = _ |- _ =>
    apply alloc_page_table_Ok in Hp as (-> & -> & Hn & _ & _ & Hb1 & [Hr1 Hr2] & Hal); [|done] end.
  rewrite Hal in *. fold ps in Hr2. rewrite Hr2 in *. rewrite bind_app. inv_err; inv_ok.
  - apply clash_at_app. eapply (map_allocs_dup _ (next b)); [|done|exact H].
    by apply initial_state.
  - lazymatch goal with Hm : map_allocs _ _ _ _ = Ok ?bc |- _ =>
      apply (map_allocs_state _ (next b) []) in Hm as (Hst1 & _); [|apply initial_state; done|done] end.
    apply clash_at_later. by eapply map_devices_dup.
Qed.

(** The page walk over the tables of a successful build. *)
Lemma walk_regions h b devices root b' cx va pa :
  let page_size := vm_page_size (hv_ram b) in
  builder_ok b -> Forall (region_ok page_size) (allocs b ++ devices) ->
  build_4k_page_tables h b devices = Ok (root, (b', cx)) ->
  walk (guest_tables root cx) root va = Some pa
  <-> exists i off, i ∈ allocs b ++ devices
        /\ 0 <= off < round_up (info_len i) page_size
        /\ (vaddr i + off) mod 2 ^ 48 = va mod 2 ^ 48 /\ pa = paddr i + off.
Proof.
  intros ps Hb Hr H. destruct (build_Ok _ _ _ _ _ _ Hb Hr H) as (Hst & Hal & _).
  pose proof (walk_state _ _ _ va Hst) as Hw. cbn [fst snd] in Hw. rewrite Hw, fmap_Some. rewrite Forall_forall in Hal.
  destruct Hst as (_ & Hst & Hg). pose proof (st_maps _ _ _ _ _ _ _ _ _ Hst) as Hm. rewrite Forall_forall in Hg. split.
  - intros (e & Hin%Hm & ->). apply list_elem_of_fmap in Hin as ([v p] & Heq & Hin).
    pose proof (f_equal fst Heq) as Hidx. pose proof (f_equal snd Heq) as He. cbn [fst snd leaf] in Hidx, He. subst e. rewrite entry_addr_entry by apply (Hg _ Hin).
    apply list_elem_of_bind in Hin as (i & Hin & Hi).
    destruct (proj1 (region_byte ps i va (p + va mod 4096) (Hal _ Hi))) as (off & ?); [by exists v, p|eauto].
  - intros (i & off & Hi & Hoff).
    destruct (proj2 (region_byte ps i va pa (Hal _ Hi))) as (v & p & Hin & Hidx & ->); [eauto|].
    assert ((v, p) ∈ (allocs b ++ devices) ≫= region ps) as Hin'
      by (apply list_elem_of_bind; eauto).
    exists (p + 3). split; [|by rewrite entry_addr_entry by apply (Hg _ Hin')].
    apply Hm, list_elem_of_fmap. exists (v, p). unfold leaf. cbn [fst snd]. by rewrite Hidx.
Qed.

Lemma build_root h b devices root bc : build_4k_page_tables h b devices = Ok (root, bc) -> root = next b.
Proof.
  unfold build_4k_page_tables. intros H. apply bind_Ok in H as ([[tab r] b1] & Ha & H). apply map_err_Ok in Ha.
  apply bind_Ok in H as (bc1 & _ & H). apply bind_Ok in H as (bc2 & _ & H). injection H as <- _.
  unfold alloc_page_table in Ha. apply bind_Ok in Ha as (n & _ & Ha). apply bind_Ok in Ha as (? & _ & Ha).
  apply bind_Ok in Ha as ([g rm] & _ & Ha). apply bind_Ok in Ha as (nx & _ & Ha). by injection Ha as _ <- _.
Qed.

(** ** Examples *)

(** Two blocks are allocated at [0xFFFF800000000000], one device follows. *)
Definition demo_builder : t :=
  RamBuilder.Mk RamProps.demo_ram2 0x2000 [Info 0 0xFFFF800000000000 0x1800].

Definition demo_devices : list AllocInfo := [Info 0x100000000 0x100000000 1].

(** The second device overlaps the allocation. *)
Definition demo_clash : list AllocInfo := [Info 0x100000000 0xFFFF800000001000 1].

Lemma demo_builder_ok : builder_ok demo_builder.
Proof.
  split; [apply (inv_ram RamProps.demo_sys2), (RamProps.reachable_inv false), RamProps.demo_reachable2|done].
Qed.

(** ** Properties *)

(** C2: the page tables that [build_4k_page_tables] leaves in guest memory
    make the processor translate a virtual address exactly when it lies in an
    allocated region or in a virtual device, and then to the physical address
    at the same offset of that region (virtual addresses are looked at modulo
    [2 ^ 48], as the processor does). *)
Theorem page_tables_translate h b devices root b' cx va pa :
  let page_size := vm_page_size (hv_ram b) in
  builder_ok b -> Forall (region_ok page_size) (allocs b ++ devices) ->
  build_4k_page_tables h b devices = Ok (root, (b', cx)) ->
  walk (guest_tables root cx) root va = Some pa
  <-> exists i off, i ∈ allocs b ++ devices
        /\ 0 <= off < round_up (info_len i) page_size
        /\ (vaddr i + off) mod 2 ^ 48 = va mod 2 ^ 48 /\ pa = paddr i + off.
Proof. exact (walk_regions h b devices root b' cx va pa). Qed.

Lemma page_tables_translate_witness :
  exists root b' cx,
    build_4k_page_tables RamProps.demo_host demo_builder demo_devices = Ok (root, (b', cx))
    /\ walk (guest_tables root cx) root 0xFFFF800000001234 = Some 0x1234.
Proof.
  destruct (build_4k_page_tables RamProps.demo_host demo_builder demo_devices)
    as [[root [b' cx]]| |] eqn:H; [|vm_compute in H; discriminate H..].
  exists root, b', cx. split; [reflexivity|].
  apply (page_tables_translate RamProps.demo_host demo_builder demo_devices root b' cx
    0xFFFF800000001234 0x1234); [apply demo_builder_ok| |exact H|].
  - repeat constructor; discriminate.
  - exists (Info 0 0xFFFF800000000000 0x1800), 0x1234. split; [left|]. repeat split; discriminate.
Defined.

(** A virtual page is never mapped twice.  When the build succeeds no two
    pages of the regions share an address modulo [2 ^ 48]; when it fails with
    [DuplicatedVirtualAddr], the reported address is that of a page and an
    earlier page already has it. *)
Theorem duplicated_addr_detected h b devices :
  let page_size := vm_page_size (hv_ram b) in
  let pages := (allocs b ++ devices) ≫= region page_size in
  builder_ok b -> Forall (region_ok page_size) (allocs b ++ devices) ->
  match build_4k_page_tables h b devices with
  | Ok _ => NoDup ((fun vp => (vp.1 / 4096) mod 2 ^ 36) <$> pages)
  | Err (DuplicatedVirtualAddr a) =>
      exists pre p post v q, pages = pre ++ (a, p) :: post /\ (v, q) ∈ pre
        /\ (v / 4096) mod 2 ^ 36 = (a / 4096) mod 2 ^ 36
  | _ => True
  end.
Proof.
  intros ps pages Hb Hr. destruct (build_4k_page_tables h b devices) as [[root [b' cx]]|[]|] eqn:H; try done.
  - destruct (build_Ok _ _ _ _ _ _ Hb Hr H) as (Hst & _). by eapply no_clash_pages, state_no_clash.
  - destruct (build_dup _ _ _ _ Hb Hr H) as (pre & p & post & v & q & ? & ? & Hidx%indices_eq).
    by exists pre, p, post, v, q.
Qed.

Lemma duplicated_addr_detected_witness :
  build_4k_page_tables RamProps.demo_host demo_builder demo_clash
    = Err (DuplicatedVirtualAddr 0xFFFF800000001000)
  /\ exists pre p post v q,
       (allocs demo_builder ++ demo_clash) ≫= region 4096
         = pre ++ (0xFFFF800000001000, p) :: post /\ (v, q) ∈ pre
       /\ (v / 4096) mod 2 ^ 36 = (0xFFFF800000001000 / 4096) mod 2 ^ 36.
Proof.
  assert (build_4k_page_tables RamProps.demo_host demo_builder demo_clash
    = Err (DuplicatedVirtualAddr 0xFFFF800000001000)) as H by (vm_compute; reflexivity).
  split; [exact H|].
  pose proof (duplicated_addr_detected RamProps.demo_host demo_builder demo_clash
    demo_builder_ok) as Hd. rewrite H in Hd. apply Hd. repeat constructor; discriminate.
Defined.

End PageTableProps.
