(* ===== verification/Env.v ===== *)
(** * Kernel configuration and boot environment variables

    Models [config/src/lib.rs], [config/src/idps/mod.rs],
    [config/src/qa/mod.rs] and [kernel/src/config]: the virtual machine
    monitor writes the environment of the kernel into a fixed byte array of
    [Config], and the kernel reads it back and answers questions about the
    console from it.  Bytes are [Z]; a Rust string is a list of bytes that
    is valid UTF-8. *)
From S2P Require Import Prelude.

Module Env.

(** ** UTF-8 *)

Definition between (lo hi b : Z) : bool := (lo <=? b) && (b <=? hi).

(** [core::str::from_utf8]: well-formed sequences of the Unicode standard. *)
Fixpoint valid_utf8 (l : list Z) : bool :=
  match l with
  | [] => true
  | b0 :: l1 =>
      if between 0 0x7F b0 then valid_utf8 l1
      else match l1 with
      | [] => false
      | b1 :: l2 =>
          if between 0xC2 0xDF b0 then between 0x80 0xBF b1 && valid_utf8 l2
          else match l2 with
          | [] => false
          | b2 :: l3 =>
              if between 0xE0 0xEF b0 then
                between (if b0 =? 0xE0 then 0xA0 else 0x80) (if b0 =? 0xED then 0x9F else 0xBF) b1
                && between 0x80 0xBF b2 && valid_utf8 l3
              else match l3 with
              | [] => false
              | b3 :: l4 =>
                  between 0xF0 0xF4 b0
                  && between (if b0 =? 0xF0 then 0x90 else 0x80) (if b0 =? 0xF4 then 0x8F else 0xBF) b1
                  && between 0x80 0xBF b2 && between 0x80 0xBF b3 && valid_utf8 l4
              end
          end
      end
  end.

Definition str := list Z.

(** An ASCII literal. *)
Fixpoint bytes_of (s : string) : str :=
  match s with
  | EmptyString => []
  | String c s => Z.of_N (Ascii.N_of_ascii c) :: bytes_of s
  end.

(** [str::parse::<u64>]: an optional plus sign and decimal digits. *)
Fixpoint parse_digits (acc : Z) (l : str) : option Z :=
  match l with
  | [] => Some acc
  | b :: l =>
      if between 0x30 0x39 b then
        let acc := acc * 10 + (b - 0x30) in
        if acc <? 2 ^ 64 then parse_digits acc l else None
      else None
  end.

Definition parse_u64 (l : str) : option Z :=
  match l with
  | [] => None
  | 0x2B :: [] => None
  | 0x2B :: l => parse_digits 0 l
  | l => parse_digits 0 l
  end.

(** ** Data *)

Definition CompanyId_SONY : Z := 0x100.
Definition ProductId_DEVKIT : Z := 0x8101.
Definition ProductId_TESTKIT : Z := 0x8201.
Definition ProductId_USA : Z := 0x8401.

Record ConsoleId := {
  magic : Z;
  company : Z;
  product : Z;
  prodsub : Z;
  serial : list Z
}.

Definition ConsoleId_new (company product prodsub : Z) (serial : list Z) : ConsoleId :=
  {| magic := 0; company := company; product := product; prodsub := prodsub; serial := serial |}.

Definition ConsoleId_default : ConsoleId :=
  ConsoleId_new CompanyId_SONY ProductId_USA 0x1200 [0x10; 0; 0; 0; 0; 0; 0; 0].

(** [QaFlags] is the sixteen bytes. *)
Definition internal_dev (flags : list Z) : bool := negb (Z.land (flags !!! 0%nat) 4 =? 0).

Record Config := {
  max_cpu : Z;
  idps : ConsoleId;
  qa : bool;
  qa_flags : list Z;
  env_vars : list Z (* [u8; 132096] *)
}.

Definition env_size : nat := Z.to_nat 132096.

Definition ENV_END : Z := 0xF8.
Definition END_SEP : Z := 0xF9.

Definition set_env (e : list Z) (c : Config) : Config :=
  {| max_cpu := max_cpu c; idps := idps c; qa := qa c; qa_flags := qa_flags c; env_vars := e |}.

(** ** Writing the environment *)

(** [iter().position(|&b| b == x)]. *)
Fixpoint position (x : Z) (l : list Z) : option nat :=
  match l with
  | [] => None
  | b :: l => if b =? x then Some 0%nat else S <$> position x l
  end.

(** One entry as it lies in the array. *)
Definition entry (kv : str * str) : list Z := kv.1 ++ [END_SEP] ++ kv.2 ++ [ENV_END].

(** [if let Some(v) = space.first_mut() { *v = ENV_END }] *)
Definition mark_end (space : list Z) : list Z :=
  match space with [] => [] | _ :: l => ENV_END :: l end.

(** The loop of [extend_env] on the rest of the array: the new content and
    the variables that did not fit. *)
Fixpoint write_vars (space : list Z) (vars : list (str * str))
    : list Z * option (list (str * str)) :=
  match vars with
  | [] => (space, None)
  | (k, v) :: rest =>
      let l := (length k + 1 + length v + 1)%nat in
      if (length space <? l)%nat then (space, Some vars)
      else
        let '(s, r) := write_vars (mark_end (drop l space)) rest in
        (entry (k, v) ++ s, r)
  end.

Definition extend_env (c : Config) (vars : list (str * str))
    : outcome Empty_set (Config * option (list (str * str))) :=
  end_ ← unwrap_or_panic PUnwrap (position ENV_END (env_vars c));
  let begin := if (end_ =? 0)%nat then 0%nat else S end_ in
  let '(space, r) := write_vars (drop begin (env_vars c)) vars in
  Ok (set_env (take begin (env_vars c) ++ space) c, r).

Definition clear_env (c : Config) : Config :=
  set_env (replicate (length (env_vars c)) ENV_END) c.

(** The variable of [Config::default]. *)
Definition memtest_key : str := bytes_of "hw.memtest.tests".
Definition memtest_default : str := bytes_of "0".

Definition Config_default : outcome Empty_set Config :=
  let c := {| max_cpu := 1; idps := ConsoleId_default; qa := false;
              qa_flags := replicate 16 0; env_vars := replicate env_size ENV_END |} in
  '(c, _) ← extend_env c [(memtest_key, memtest_default)];
  Ok c.

(** ** Reading the environment *)

(** [EnvIter::next] on the remaining bytes. *)
Definition env_next (rem : list Z) : outcome Empty_set (option (str * str * list Z)) :=
  match rem with
  | [] => Ok None
  | _ =>
      i ← unwrap_or_panic PUnwrap (position ENV_END rem);
      let v := take i rem in
      let r := drop i rem in
      match v with
      | [] => Ok None
      | _ =>
          j ← unwrap_or_panic PUnwrap (position END_SEP v);
          let k := take j v in
          let val := drop (S j) v in
          panic_if (negb (valid_utf8 k)) PUnwrap;;
          panic_if (negb (valid_utf8 val)) PUnwrap;;
          Ok (Some (k, val, drop 1 r))
      end
  end.

(** [collect] on the iterator; every step consumes a byte, so the length of
    the array bounds the number of steps. *)
Fixpoint env_collect (fuel : nat) (rem : list Z) : outcome Empty_set (list (str * str)) :=
  match fuel with
  | O => Panic PUnreachable
  | S fuel =>
      o ← env_next rem;
      match o with
      | None => Ok []
      | Some (k, v, rem') => kvs ← env_collect fuel rem'; Ok ((k, v) :: kvs)
      end
  end.

Definition env (c : Config) : outcome Empty_set (list (str * str)) :=
  env_collect (S (length (env_vars c))) (env_vars c).

(** ** The configuration of the kernel *)

Record KConfig := {
  k_max_cpu : Z;
  k_unknown_dmem1 : Z;
  k_idps : ConsoleId;
  k_qa : bool;
  k_qa_flags : list Z;
  k_env_vars : list (str * str)
}.

Definition load_env (c : Config) : outcome Empty_set (list (str * str)) := env c.

Definition KConfig_new (src : Config) : outcome Empty_set KConfig :=
  vars ← load_env src;
  Ok {| k_max_cpu := max_cpu src; k_unknown_dmem1 := 0; k_idps := idps src; k_qa := qa src;
        k_qa_flags := qa_flags src; k_env_vars := vars |}.

(** The loop of [Config::env] of the kernel. *)
Fixpoint lookup_env (name : str) (vars : list (str * str)) : option str :=
  match vars with
  | [] => None
  | (k, v) :: rest => if decide (k = name) then Some v else lookup_env name rest
  end.

Definition k_env (c : KConfig) (name : str) : option str := lookup_env name (k_env_vars c).

Definition is_allow_disabling_aslr (c : KConfig) : bool := k_qa c && internal_dev (k_qa_flags c).
Definition is_devkit (c : KConfig) : bool := product (k_idps c) =? ProductId_DEVKIT.
Definition is_testkit (c : KConfig) : bool := product (k_idps c) =? ProductId_TESTKIT.

(** The argument is ignored by the code. *)
Definition dipsw {E} (c : KConfig) : outcome E bool :=
  if negb (is_testkit c) then
    if negb (is_devkit c) then Ok false else Panic PTodo
  else Panic PTodo.

End Env.
