(* ===== verification/EnvProps.v ===== *)
(** * Correctness of the boot environment

    What the monitor writes into [Config] is what the kernel reads. *)
From S2P Require Import Prelude Env.

Module EnvProps.
Import Env.

(** ** UTF-8 strings never hold the two markers *)

Definition plain (l : list Z) : Prop := ENV_END ∉ l /\ END_SEP ∉ l.

Lemma plain_cons b l : b <= 0xF4 -> plain l -> plain (b :: l).
Proof. unfold plain, ENV_END, END_SEP. intros Hb [? ?]. rewrite !not_elem_of_cons. split_and!; (done || lia). Qed.

Lemma between_true lo hi b : between lo hi b = true <-> lo <= b <= hi.
Proof. unfold between. rewrite andb_true_iff, !Z.leb_le. done. Qed.

Lemma valid_utf8_plain l : valid_utf8 l = true -> plain l.
Proof.
  remember (length l) as n eqn:Hn. assert (length l <= n)%nat as Hle by lia. clear Hn.
  revert l Hle. induction n as [|n IH]; intros [|b0 l1] Hle H; try (split; apply not_elem_of_nil).
  { cbn in Hle. lia. }
  cbn [valid_utf8] in H. cbn in Hle.
  repeat match goal with
  | H : (if ?b then _ else _) = true |- _ => destruct b eqn:?
  | H : match ?l with [] => false | _ => _ end = true |- _ => destruct l; [discriminate|]
  | H : (_ && _) = true |- _ => apply andb_true_iff in H as [? ?]
  | H : between _ _ _ = true |- _ => apply between_true in H
  end; repeat (apply plain_cons; [repeat case_match; lia|]); apply IH; cbn in *; (done || lia).
Qed.

(** ** Entries *)

Lemma position_app x a b : x ∉ a -> position x (a ++ x :: b) = Some (length a).
Proof.
  induction a as [|y a IH]; intros Hn; cbn; [by rewrite Z.eqb_refl|].
  apply not_elem_of_cons in Hn as [Hy Hn]. destruct (Z.eqb_spec y x); [congruence|].
  by rewrite IH.
Qed.

Definition valid_var (kv : str * str) : Prop := valid_utf8 kv.1 = true /\ valid_utf8 kv.2 = true.

Lemma entry_body k v : entry (k, v) = (k ++ END_SEP :: v) ++ [ENV_END].
Proof. unfold entry. cbn. by rewrite <- app_assoc. Qed.

Lemma entry_length kv : length (entry kv) = (length kv.1 + 1 + length kv.2 + 1)%nat.
Proof. unfold entry. rewrite !length_app. cbn. lia. Qed.

Lemma entry_position k v rest :
  valid_var (k, v) -> position ENV_END (entry (k, v) ++ rest) = Some (length (k ++ END_SEP :: v)).
Proof.
  intros [Hk Hv]. apply valid_utf8_plain in Hk as [Hk _], Hv as [Hv _].
  rewrite entry_body, <- app_assoc. apply position_app.
  rewrite not_elem_of_app, not_elem_of_cons. done.
Qed.

(** The iterator yields an entry and continues behind it. *)
Lemma env_next_entry k v rest :
  valid_var (k, v) -> env_next (entry (k, v) ++ rest) = Ok (Some (k, v, rest)).
Proof.
  intros Hvar. pose proof (entry_position k v rest Hvar) as Hpos. destruct Hvar as [Hk Hv].
  cbn in Hk, Hv. unfold env_next.
  destruct (entry (k, v) ++ rest) as [|b l] eqn:He; [by destruct k|]. rewrite <- He in *.
  rewrite Hpos. cbn [unwrap_or_panic mbind outcome_bind].
  rewrite entry_body, <- !app_assoc, (app_assoc k), take_app_length, drop_app_length.
  destruct (k ++ END_SEP :: v) as [|b' l'] eqn:Hb; [by destruct k|]. rewrite <- Hb.
  rewrite position_app by apply (valid_utf8_plain _ Hk).
  cbn [unwrap_or_panic mbind outcome_bind].
  assert (drop (S (length k)) (k ++ END_SEP :: v) = v) as ->.
  { rewrite drop_app_ge by lia. by replace (S (length k) - length k)%nat with 1%nat by lia. }
  rewrite take_app_length. cbn. by rewrite Hk, Hv.
Qed.

(** ** Terminated lists of entries *)

(** What follows the last entry. *)
Definition terminated (l : list Z) : Prop := l = [] \/ exists t, l = ENV_END :: t.

Lemma mark_end_terminated l : terminated (mark_end l).
Proof. destruct l; [by left|right; eauto]. Qed.

Lemma mark_end_length l : length (mark_end l) = length l.
Proof. by destruct l. Qed.

Lemma env_collect_entries fuel kvs tail :
  Forall valid_var kvs -> terminated tail -> (length kvs < fuel)%nat ->
  env_collect fuel (concat (entry <$> kvs) ++ tail) = Ok kvs.
Proof.
  intros Hall Ht. revert fuel. induction Hall as [|[k v] kvs Hv Hall IH]; intros [|fuel] Hf; try lia; cbn.
  - destruct Ht as [->|[t ->]]; done.
  - rewrite <- (app_assoc (entry (k, v))), env_next_entry by done. cbn.
    rewrite IH by (cbn in Hf; lia). done.
Qed.

Lemma lookup_env_first name vars v :
  lookup_env name vars = Some v
  <-> exists pre post, vars = pre ++ (name, v) :: post /\ name ∉ pre.*1.
Proof.
  induction vars as [|[k w] vars IH]; cbn.
  - split; [done|]. intros (pre & post & Hv & _). by destruct pre.
  - case_decide as Hk.
    + subst k. split.
      * intros [= ->]. exists [], vars. split; [done|apply not_elem_of_nil].
      * intros ([|kv pre] & post & Hv & Hn); simplify_eq/=; [done|]. by apply not_elem_of_cons in Hn as [? _].
    + rewrite IH. split.
      * intros (pre & post & -> & Hn). exists ((k, w) :: pre), post. split; [done|].
        cbn. rewrite not_elem_of_cons. naive_solver.
      * intros ([|kv pre] & post & Hv & Hn); simplify_eq/=. exists pre, post. split; [done|].
        by apply not_elem_of_cons in Hn as [_ ?].
Qed.

(** The bytes that a list of variables needs. *)
Definition env_bytes (vars : list (str * str)) : nat := length (concat (entry <$> vars)).

(** What the loop of [extend_env] writes. *)
Lemma write_vars_spec space vars s r :
  write_vars space vars = (s, r) ->
  exists done tail,
    vars = done ++ default [] r /\ s = concat (entry <$> done) ++ tail
    /\ length s = length space
    /\ (r = None <-> (env_bytes vars <= length space)%nat)
    /\ (terminated tail \/ done = [] /\ tail = space).
Proof.
  revert space s r. induction vars as [|[k v] vars IH]; intros space s r H; cbn [write_vars] in H.
  - injection H as <- <-. exists [], space. unfold env_bytes. cbn. split_and!; try done; [|by right].
    split; [lia|done].
  - pose proof (entry_length (k, v)) as Hlen. cbn [fst snd] in Hlen.
    unfold env_bytes. rewrite fmap_cons. cbn [concat]. rewrite length_app.
    destruct (Nat.ltb_spec (length space) (length k + 1 + length v + 1)) as [Hlt|Hge].
    + injection H as <- <-. exists [], space. split_and!; try done; [|by right].
      split; [done|lia].
    + destruct (write_vars _ vars) as [s' r'] eqn:Hw. injection H as <- <-.
      destruct (IH _ _ _ Hw) as (done & tail & -> & -> & Hl & Hr & Ht).
      rewrite mark_end_length, length_drop in Hl, Hr.
      exists ((k, v) :: done), tail. split; [done|]. split; [by rewrite fmap_cons; cbn; rewrite <- !app_assoc|].
      split; [rewrite length_app; lia|]. split; [rewrite Hr; unfold env_bytes; lia|].
      left. destruct Ht as [Ht|[_ ->]]; [done|apply mark_end_terminated].
Qed.

Lemma write_vars_None space vars s :
  write_vars space vars = (s, None) -> vars <> [] \/ terminated space ->
  exists tail, s = concat (entry <$> vars) ++ tail /\ terminated tail.
Proof.
  intros H Hv. destruct (write_vars_spec _ _ _ _ H) as (done & tail & Hd & -> & _ & _ & Ht).
  cbn in Hd. rewrite app_nil_r in Hd. subst done. exists tail. split; [done|].
  destruct Ht as [Ht|[-> ->]]; [done|]. by destruct Hv.
Qed.

Lemma env_entries c kvs tail :
  Forall valid_var kvs -> terminated tail -> env_vars c = concat (entry <$> kvs) ++ tail ->
  env c = Ok kvs.
Proof.
  intros Hall Ht He. unfold env. rewrite He at 2. apply env_collect_entries; [done..|].
  rewrite He, length_app. clear He. induction kvs as [|kv kvs IH]; cbn; [lia|].
  inversion Hall; subst. rewrite length_app, entry_length. specialize (IH ltac:(done)). lia.
Qed.

Lemma extend_cleared c vars :
  env_vars c <> [] ->
  extend_env (clear_env c) vars
  = Ok (let '(s, r) := write_vars (env_vars (clear_env c)) vars in (set_env s c, r)).
Proof.
  intros Hne. unfold extend_env, clear_env. cbn [env_vars set_env].
  destruct (env_vars c) as [|b l]; [done|]. cbn [length replicate position].
  rewrite Z.eqb_refl. cbn. by destruct (write_vars _ vars).
Qed.

(** A small configuration, three variables and a fourth. *)
Definition demo_config : Config :=
  {| max_cpu := 1; idps := ConsoleId_default; qa := false; qa_flags := replicate 16 0;
     env_vars := replicate 32 0 |}.

Definition demo_vars : list (str * str) := [([97], [49]); ([98; 0xC3; 0xA9], []); ([97], [50])].
Definition demo_more : list (str * str) := [([99], [51; 52])].

Lemma demo_vars_valid : Forall valid_var demo_vars.
Proof. by repeat constructor. Qed.

Lemma extend_cleared_spec c vars :
  env_vars c <> [] -> Forall valid_var vars ->
  exists c' r done, extend_env (clear_env c) vars = Ok (c', r)
    /\ vars = done ++ default [] r /\ env c' = Ok done
    /\ (r = None <-> (env_bytes vars <= length (env_vars c))%nat)
    /\ length (env_vars c') = length (env_vars c).
Proof.
  intros Hne Hall. rewrite extend_cleared by done.
  destruct (write_vars _ vars) as [s r] eqn:Hw.
  destruct (write_vars_spec _ _ _ _ Hw) as (done & tail & Hd & -> & Hl & Hr & Ht).
  cbn [clear_env set_env env_vars] in Hl, Hr, Ht. rewrite length_replicate in Hl, Hr.
  eexists _, r, done. split; [done|]. split; [done|]. rewrite Hd in Hall.
  apply Forall_app in Hall as [Hall _]. split; [|done].
  eapply (env_entries _ done tail); [done| |done]. destruct Ht as [Ht|[_ ->]]; [done|].
  destruct (env_vars c); [done|]. right. cbn. eauto.
Qed.

(** Writing variables into a cleared configuration and iterating over it
    gives back the variables in order; [extend_env] returns the rest exactly
    when the array is too small for all of them. *)
Theorem env_roundtrip c vars :
  env_vars c <> [] -> Forall valid_var vars ->
  exists c' r done, extend_env (clear_env c) vars = Ok (c', r)
    /\ vars = done ++ default [] r /\ env c' = Ok done
    /\ (r = None <-> (env_bytes vars <= length (env_vars c))%nat)
    /\ length (env_vars c') = length (env_vars c).
Proof. apply extend_cleared_spec. Qed.

Lemma env_roundtrip_witness :
  exists c' r done, extend_env (clear_env demo_config) demo_vars = Ok (c', r)
    /\ demo_vars = done ++ default [] r /\ env c' = Ok done
    /\ (r = None <-> (env_bytes demo_vars <= length (env_vars demo_config))%nat)
    /\ length (env_vars c') = length (env_vars demo_config).
Proof. apply (env_roundtrip demo_config demo_vars); [discriminate|apply demo_vars_valid]. Defined.

(** C25: the kernel sees the environment that the monitor wrote: for every
    name it finds the value of the first variable of that name. *)
Theorem kernel_env c c' vars name :
  Forall valid_var vars -> extend_env (clear_env c) vars = Ok (c', None) ->
  exists kc, KConfig_new c' = Ok kc
    /\ forall v, k_env kc name = Some v
         <-> exists pre post, vars = pre ++ (name, v) :: post /\ name ∉ pre.*1.
Proof.
  intros Hall H. destruct (env_vars c) as [|b l] eqn:Hne.
  { unfold extend_env, clear_env in H. cbn in H. rewrite Hne in H. discriminate. }
  rewrite extend_cleared in H by congruence. destruct (write_vars _ vars) as [s r] eqn:Hw.
  injection H as <- ->. apply write_vars_None in Hw as (tail & -> & Ht).
  2: { right. right. unfold clear_env. cbn. rewrite Hne. cbn. eauto. }
  unfold KConfig_new, load_env. rewrite (env_entries _ vars tail) by done. eexists. split; [done|].
  intros v. unfold k_env. cbn. apply lookup_env_first.
Qed.

Lemma kernel_env_witness :
  exists c' kc, extend_env (clear_env demo_config) demo_vars = Ok (c', None)
    /\ KConfig_new c' = Ok kc /\ k_env kc [97] = Some [49].
Proof.
  destruct (extend_env (clear_env demo_config) demo_vars) as [[c' r]| |] eqn:H;
    [|vm_compute in H; discriminate H..].
  assert (r = None) as Hr by (vm_compute in H; injection H as _ <-; reflexivity). subst r.
  destruct (kernel_env demo_config c' demo_vars [97] demo_vars_valid H) as (kc & Hk & Henv).
  exists c', kc. split; [reflexivity|]. split; [exact Hk|]. apply Henv.
  exists [], (drop 1 demo_vars). split; [reflexivity|]. apply not_elem_of_nil.
Defined.

(** C26: extending a configuration that already has two or more variables
    overwrites all of them but the first, because the end of the environment
    is taken to be the end of the first entry. *)
Theorem extend_env_overwrites c c1 c2 e1 e2 es vars :
  Forall valid_var (e1 :: e2 :: es ++ vars) -> vars <> [] ->
  extend_env (clear_env c) (e1 :: e2 :: es) = Ok (c1, None) ->
  extend_env c1 vars = Ok (c2, None) ->
  env c1 = Ok (e1 :: e2 :: es) /\ env c2 = Ok (e1 :: vars).
Proof.
  intros Hall Hne H1 H2. inversion Hall as [|? ? Hv1 Hall1]; subst.
  inversion Hall1 as [|? ? Hv2 Hall2]; subst. apply Forall_app in Hall2 as [Hes Hvars].
  destruct (env_vars c) as [|b l] eqn:Hc.
  { unfold extend_env, clear_env in H1. cbn in H1. rewrite Hc in H1. discriminate. }
  rewrite extend_cleared in H1 by congruence.
  destruct (write_vars _ (e1 :: e2 :: es)) as [s r] eqn:Hw. injection H1 as <- ->.
  apply write_vars_None in Hw as (tail & -> & Ht); [|by left].
  split; [apply (env_entries _ _ tail); [by do 2 (constructor; [done|])|done|done]|].
  destruct e1 as [k v]. unfold extend_env in H2. cbn [env_vars set_env] in H2. revert H2.
  rewrite fmap_cons. cbn [concat]. rewrite <- app_assoc, entry_position by done.
  cbn [unwrap_or_panic mbind outcome_bind]. intros H2.
  assert (S (length (k ++ END_SEP :: v)) = length (entry (k, v))) as Hl
    by (rewrite entry_body, (length_app _ [ENV_END]); cbn [length]; lia).
  destruct (Nat.eqb_spec (length (k ++ END_SEP :: v)) 0) as [Hz|_];
    [rewrite length_app in Hz; cbn in Hz; lia|].
  rewrite Hl, drop_app_length, take_app_length in H2.
  destruct (write_vars _ vars) as [s2 r2] eqn:Hw2. injection H2 as <- ->.
  apply write_vars_None in Hw2 as (tail2 & -> & Ht2); [|by left].
  apply (env_entries _ _ tail2); [by constructor|done|].
  cbn. by rewrite <- (app_assoc (entry (k, v))).
Qed.

Lemma extend_env_overwrites_witness :
  exists c1 c2, extend_env (clear_env demo_config) demo_vars = Ok (c1, None)
    /\ extend_env c1 demo_more = Ok (c2, None)
    /\ env c1 = Ok demo_vars /\ env c2 = Ok (([97], [49]) :: demo_more).
Proof.
  destruct (extend_env (clear_env demo_config) demo_vars) as [[c1 r1]| |] eqn:H1;
    [|vm_compute in H1; discriminate H1..].
  assert (r1 = None) as Hr1 by (vm_compute in H1; injection H1 as _ <-; reflexivity). subst r1.
  destruct (extend_env c1 demo_more) as [[c2 r2]| |] eqn:H2;
    [|vm_compute in H1; injection H1 as <-; vm_compute in H2; discriminate H2..].
  assert (r2 = None) as Hr2
    by (vm_compute in H1; injection H1 as <-; vm_compute in H2; injection H2 as _ <-; reflexivity).
  subst r2. exists c1, c2. split; [reflexivity|]. split; [exact H2|].
  apply (extend_env_overwrites demo_config c1 c2 ([97], [49]) ([98; 0xC3; 0xA9], [])
    [([97], [50])] demo_more); [repeat constructor|discriminate|exact H1|exact H2].
Defined.

(** The default configuration has one variable, [hw.memtest.tests] with
    value [0]. *)
Theorem default_env :
  exists c, Config_default = Ok c /\ env c = Ok [(memtest_key, memtest_default)]
    /\ length (env_vars c) = env_size.
Proof.
  unfold Config_default. set (c0 := {| max_cpu := 1 |}).
  assert (clear_env c0 = c0) as Hc0
    by (unfold clear_env, c0; cbn [env_vars set_env]; by rewrite length_replicate).
  assert (length (env_vars c0) = env_size) as Hlen by apply length_replicate.
  assert (env_vars c0 <> []) as Hne by (intros He; rewrite He in Hlen; cbn [length] in Hlen; unfold env_size in Hlen; lia).
  destruct (extend_cleared_spec c0 [(memtest_key, memtest_default)])
    as (c & r & kvs & H & Hd & He & Hr & Hl); [exact Hne|by repeat constructor|].
  assert (env_bytes [(memtest_key, memtest_default)] = 19%nat) as Hb by reflexivity.
  assert (r = None) as -> by (apply Hr; rewrite Hlen, Hb; unfold env_size; lia).
  cbn in Hd. rewrite app_nil_r in Hd. subst kvs. rewrite Hc0 in H. exists c.
  rewrite H. split; [reflexivity|]. split; [exact He|]. rewrite Hl. exact Hlen.
Qed.

End EnvProps.
