(* ===== verification/Bitflag.v ===== *)
(** * Bit flags

    Models the [bitflag] attribute macro ([macros/src/bitflag.rs]), the
    methods that it generates, its runtime support [lib/bitflag] and the flag
    sets of the kernel that are declared with it ([Fork], [UmaFlags],
    [Alloc], [PageFlags], [VmAlloc]), with the check of the flags in
    [ProcMgr::fork].  A set is the integer it is stored in. *)
From S2P Require Import Prelude.

Module Bitflag.
Local Open Scope string_scope.
Local Open Scope Z_scope.

(** ** The macro *)

(** [trailing_zeros] of a 64-bit or 32-bit integer. *)
Fixpoint ctz_pos (p : positive) : Z :=
  match p with xO p => 1 + ctz_pos p | _ => 0 end.
Definition trailing_zeros (width v : Z) : Z :=
  match v with Zpos p => ctz_pos p | _ => width end.

(** [v >> i] on [u64]; a shift by the width or more panics. *)
Definition ushr {E} (width v i : Z) : outcome E Z :=
  if i <? width then Ok (Z.shiftr v i) else Panic POverflow.

(** The loop that counts the bits of [r] and rejects a zero bit. *)
Fixpoint count_bits (fuel : nat) (r n : Z) : outcome string Z :=
  match fuel with
  | O => Panic PUnreachable
  | S fuel =>
      if r =? 0 then Ok n
      else if Z.land r 1 =? 0 then Err "discriminant with non-contiguous bits is not supported"
      else count_bits fuel (Z.shiftr r 1) (n + 1)
  end.

(** [parse_discriminant::<T>] for a literal of value [dis] and a [T] of
    [width] bits; the loop runs at most 64 times. *)
Definition parse_discriminant (width dis : Z) : outcome string Z :=
  fail_if (2 ^ width <=? dis) "number too large to fit in target type";;
  let i := trailing_zeros 64 dis in
  r ← ushr 64 dis i;
  fail_if (r =? 0) "zero discriminant is not supported";;
  n ← count_bits 65 r 0;
  panic_if (n =? 0) PUnwrap;;
  Ok n.

(** The enum that the attribute is applied to. *)
Inductive ty := TBool | TU16 | TOther (path : string).
Inductive discriminant := DNone | DLit (v : Z) | DOther.

(** [FUnnamed] carries the result of [Punctuated::pop] on the fields: the
    last field, with whether a comma follows it. *)
Inductive fields := FNamed | FUnit | FUnnamed (popped : option (ty * bool)).

Record variant := Variant { v_ident : string; v_discriminant : discriminant; v_fields : fields }.

Record item_enum := Item { i_generic : bool; i_variants : list variant }.

(** A generated constant [Mask<Self, ty>]. *)
Record flag := Flag { f_ident : string; f_ty : ty; f_mask : Z }.

Definition transform_variant (width : Z) (v : variant) : outcome string flag :=
  '(dis, bits) ←
    match v_discriminant v with
    | DLit d => bits ← parse_discriminant width d; Ok (d, bits)
    | DOther => Err "discriminant other than integer literal is not supported"
    | DNone => Err "auto-discriminant is not supported"
    end;
  t ←
    match v_fields v with
    | FNamed => Err "variant with named fields is not supported"
    | FUnnamed (Some (t, false)) => Ok t
    | FUnnamed (Some (_, true)) => Err "variant with multiple fields is not supported"
    | FUnnamed None => Err "field-less variant is not supported"
    | FUnit => Ok TBool
    end;
  match t with
  | TBool => fail_if (negb (bits =? 1)) "multiple bits for a boolean mask is not supported"
  | TU16 => fail_if (16 <? bits) "invalid mask for the value"
  | TOther _ => Ok tt
  end;;
  Ok (Flag (v_ident v) t dis).

Fixpoint transform_variants (width : Z) (vs : list variant) : outcome string (list flag) :=
  match vs with
  | [] => Ok []
  | v :: vs => f ← transform_variant width v; fs ← transform_variants width vs; Ok (f :: fs)
  end.

(** [transform]: [under] is the argument of the attribute.  The underlying
    type is only looked at when a discriminant is parsed. *)
Definition transform (under : option string) (it : item_enum) : outcome string (list flag) :=
  u ← ok_or "missing underlying type name" under;
  fail_if (i_generic it) "generic enum is not supported";;
  if String.eqb u "u8" then transform_variants 8 (i_variants it)
  else if String.eqb u "u32" then transform_variants 32 (i_variants it)
  else match i_variants it with
       | [] => Ok []
       | v :: _ =>
           match v_discriminant v with
           | DLit _ => Err "unsupported underlying type"
           | DOther => Err "discriminant other than integer literal is not supported"
           | DNone => Err "auto-discriminant is not supported"
           end
       end.

(** ** The generated methods *)

Definition zeroed : Z := 0.
Definition has_any (s rhs : Z) : bool := negb (Z.land s rhs =? 0).
Definition has_all (s rhs : Z) : bool := Z.land s rhs =? rhs.
Definition bitor (s m : Z) : Z := Z.lor s m.
Definition bitand (s rhs : Z) : Z := Z.land s rhs.
Definition flag_eq (s m : Z) : bool := s =? m.

(** [FromRaw<u32> for u16]. *)
Definition from_raw_u16 (raw : Z) : option Z := if raw <? 2 ^ 16 then Some raw else None.

(** [get] for a set of [width] bits. *)
Definition get {E T} (width : Z) (from_raw : Z -> option T) (s m : Z) : outcome E T :=
  v ← ushr width (Z.land s m) (trailing_zeros width m);
  unwrap_or_panic PUnwrap (from_raw v).

(** ** The flag sets of the kernel *)

Definition bit (n : string) (v : Z) : variant := Variant n (DLit v) FUnit.

Definition Fork : item_enum := Item false [
  bit "CopyFd" 0x4;
  bit "CreateProcess" 0x10;
  bit "ClearFd" 0x1000;
  bit "CustomSignal" 0x80000;
  Variant "ParentSignal" (DLit 0xFF00000) (FUnnamed (Some (TOther "Signal", false)))].

Definition UmaFlags : item_enum := Item false [
  bit "ZInit" 0x2; bit "Offpage" 0x8; bit "Malloc" 0x10; bit "MtxClass" 0x40; bit "Vm" 0x80;
  bit "Hash" 0x100; bit "Secondary" 0x200; bit "RefCnt" 0x400; bit "MaxBucket" 0x800;
  bit "CacheSpread" 0x1000; bit "VToSlab" 0x2000; bit "Bucket" 0x2000000;
  bit "Internal" 0x20000000; bit "CacheOnly" 0x80000000].

Definition Alloc : item_enum := Item false [
  bit "NoWait" 0x1; bit "Wait" 0x2; bit "Zero" 0x100; bit "NoVm" 0x200].

Definition PageFlags : item_enum := Item false [bit "Cached" 0x01].

Definition VmAlloc : item_enum := Item false [
  bit "Interrupt" 0x00000001; bit "System" 0x00000002; bit "Cached" 0x00000400;
  Variant "Count" (DLit 0xFFFF0000) (FUnnamed (Some (TU16, false)))].

(** The mask of a variant; zero when there is none of that name. *)
Definition mask_of (it : item_enum) (n : string) : Z :=
  match list_find (fun v => v_ident v = n) (i_variants it) with
  | Some (_, Variant _ (DLit d) _) => d
  | _ => 0
  end.

(** ** [ProcMgr::fork] *)

Inductive ForkError := InvalidFlags.

(** The result is that of [Proc::new]; [new_proc] stands for it. *)
Definition fork {P} (new_proc : P) (flags : Z) : outcome ForkError P :=
  fail_if (negb (Z.land flags 0x60008f8b =? 0)
    || has_all flags (bitor (mask_of Fork "CopyFd") (mask_of Fork "ClearFd"))
    || (has_any flags (mask_of Fork "ParentSignal")
        && negb (has_any flags (mask_of Fork "CustomSignal")))) InvalidFlags;;
  panic_if (negb (has_any flags (mask_of Fork "CreateProcess"))) PTodo;;
  Ok new_proc.

End Bitflag.
