(* ===== verification/BitflagProps.v ===== *)
(** * Correctness of bit flags

    The macro accepts exactly the masks of contiguous bits, the accessors of
    an accepted set cannot panic, and the sets of the kernel are accepted. *)
From S2P Require Import Prelude Bitflag.

Module BitflagProps.
Import Bitflag.
Local Open Scope string_scope.
Local Open Scope Z_scope.

(** ** Trailing zeros *)

Lemma ctz_pos_spec p : exists q, Zpos p = q * 2 ^ ctz_pos p /\ Z.odd q = true /\ 0 < q /\ 0 <= ctz_pos p.
Proof.
  induction p as [p _|p (q & Hq & Ho & Hp & Hc)|]; cbn [ctz_pos].
  - exists (Zpos p~1). cbn. lia.
  - exists q. rewrite (Pos2Z.inj_xO p), Hq. split_and!; try done; [|lia].
    rewrite Z.pow_add_r by lia. lia.
  - exists 1. cbn. lia.
Qed.

(** A power of two times an odd number determines both. *)
Lemma odd_factor a b i j :
  Z.odd a = true -> Z.odd b = true -> 0 <= i <= j -> a * 2 ^ i = b * 2 ^ j -> i = j /\ a = b.
Proof.
  intros Ha Hb Hij H. replace j with (i + (j - i)) in H by lia. rewrite Z.pow_add_r in H by lia.
  assert (0 < 2 ^ i) by (apply Z.pow_pos_nonneg; lia).
  assert (a = b * 2 ^ (j - i)) as -> by nia.
  destruct (Z.eq_dec i j) as [->|Hne]; [rewrite Z.sub_diag; cbn; lia|].
  rewrite Z.odd_mul in Ha. apply andb_true_iff in Ha as [_ Ha].
  by rewrite Z.odd_pow in Ha by lia.
Qed.

Lemma odd_ones n : 0 < n -> Z.odd (2 ^ n - 1) = true.
Proof. intros Hn. rewrite Z.odd_sub, Z.odd_pow by lia. done. Qed.

(** A mask of [n] bits from bit [i]. *)
Definition mask (n i : Z) : Z := (2 ^ n - 1) * 2 ^ i.

Lemma trailing_zeros_mask width n i :
  0 < n -> 0 <= i -> trailing_zeros width (mask n i) = i.
Proof.
  intros Hn Hi. unfold mask.
  assert (1 < 2 ^ n) by (apply Z.pow_gt_1; lia). assert (0 < 2 ^ i) by (apply Z.pow_pos_nonneg; lia).
  destruct ((2 ^ n - 1) * 2 ^ i) as [|p|p] eqn:Hm; [nia| |nia]. cbn [trailing_zeros].
  destruct (ctz_pos_spec p) as (q & Hq & Ho & Hp & Hc). rewrite <- Hm in Hq.
  destruct (Z.le_ge_cases i (ctz_pos p)).
  - symmetry. eapply (odd_factor (2 ^ n - 1) q); [by apply odd_ones|done|lia|done].
  - eapply (odd_factor q (2 ^ n - 1)); [done|by apply odd_ones|lia|done].
Qed.

(** ** Parsing a discriminant *)

Lemma count_bits_spec fuel r n :
  0 <= r < 2 ^ Z.of_nat fuel ->
  match count_bits (S fuel) r n with
  | Ok m => n <= m /\ r = 2 ^ (m - n) - 1
  | Err _ => forall k, 0 <= k -> r <> 2 ^ k - 1
  | Panic _ => False
  end.
Proof.
  revert r n. induction fuel as [|fuel IH]; intros r n Hr.
  - assert (r = 0) as -> by (cbn in Hr; lia). cbn. rewrite Z.sub_diag. cbn. lia.
  - change (count_bits (S (S fuel)) r n) with
      (if r =? 0 then Ok n else if Z.land r 1 =? 0
       then Err "discriminant with non-contiguous bits is not supported"
       else count_bits (S fuel) (Z.shiftr r 1) (n + 1)).
    change (Z.land r 1) with (Z.land r (Z.ones 1)). rewrite Z.land_ones, Z.shiftr_div_pow2 by lia.
    change (2 ^ 1) with 2. pose proof (Z.div_mod r 2). pose proof (Z.mod_pos_bound r 2).
    destruct (Z.eqb_spec r 0) as [Hz|Hz]; [rewrite Z.sub_diag; cbn; lia|].
    destruct (Z.eqb_spec (r mod 2) 0) as [He|He].
    + intros k Hk ->. destruct (Z.eq_dec k 0) as [->|Hk0]; [done|].
      assert (2 ^ k = 2 * 2 ^ (k - 1)) by (rewrite <- Z.pow_succ_r by lia; f_equal; lia). lia.
    + rewrite Nat2Z.inj_succ, Z.pow_succ_r in Hr by lia. specialize (IH (r / 2) (n + 1) ltac:(lia)).
      destruct (count_bits (S fuel) (r / 2) (n + 1)) as [m|e|p]; [|intros k Hk Hrk|done].
      * destruct IH as [Hm IH]. split; [lia|].
        replace (m - n) with (Z.succ (m - (n + 1))) by lia. rewrite Z.pow_succ_r by lia. lia.
      * destruct (Z.eq_dec k 0) as [->|Hk0]; [cbn in Hrk; lia|]. apply (IH (k - 1)); [lia|].
        assert (2 ^ k = 2 * 2 ^ (k - 1)) by (rewrite <- Z.pow_succ_r by lia; f_equal; lia). lia.
Qed.

Lemma parse_discriminant_cases width dis :
  0 <= width <= 64 -> 0 <= dis ->
  match parse_discriminant width dis with
  | Ok n => 0 < n /\ exists i, 0 <= i /\ dis = mask n i /\ dis < 2 ^ width
  | Err _ => 2 ^ width <= dis \/ forall n i, 0 < n -> 0 <= i -> dis <> mask n i
  | Panic _ => dis = 0
  end.
Proof.
  intros Hw Hd. unfold parse_discriminant, fail_if.
  destruct (Z.leb_spec (2 ^ width) dis) as [Hge|Hlt]; [by left|]. cbn [mbind outcome_bind].
  destruct dis as [|p|p]; [done| |lia]. cbn [trailing_zeros]. unfold ushr.
  destruct (ctz_pos_spec p) as (q & Hq & Ho & Hp & Hc).
  assert (2 ^ width <= 2 ^ 64) by (apply Z.pow_le_mono_r; lia).
  assert (0 < 2 ^ ctz_pos p) by (apply Z.pow_pos_nonneg; lia).
  destruct (Z.ltb_spec (ctz_pos p) 64) as [Hc64|Hc64].
  2: { assert (2 ^ 64 <= 2 ^ ctz_pos p) by (apply Z.pow_le_mono_r; lia). nia. }
  cbn [mbind outcome_bind]. rewrite Z.shiftr_div_pow2, Hq, Z.div_mul by lia.
  destruct (Z.eqb_spec q 0) as [Hq0|Hq0]; [lia|]. cbn [mbind outcome_bind].
  pose proof (count_bits_spec 64 q 0 ltac:(change (Z.of_nat 64) with 64; nia)) as Hcb.
  destruct (count_bits 65 q 0) as [m|e|?]; cbn [mbind outcome_bind]; [| |done].
  - destruct Hcb as [Hm Hqm]. rewrite Z.sub_0_r in Hqm.
    destruct (Z.eqb_spec m 0) as [->|Hm0]; [cbn in Hqm; lia|]. cbn.
    split; [lia|]. exists (ctz_pos p). unfold mask. rewrite <- Hqm, <- Hq. lia.
  - right. intros n i Hn Hi Heq. apply (Hcb n); [lia|]. unfold mask in Heq.
    destruct (Z.le_ge_cases i (ctz_pos p)).
    + symmetry. eapply (odd_factor (2 ^ n - 1) q i (ctz_pos p)); [by apply odd_ones|done|lia|lia].
    + eapply (odd_factor q (2 ^ n - 1) (ctz_pos p) i); [done|by apply odd_ones|lia|lia].
Qed.

(** The macro accepts a discriminant exactly when it is a run of
    contiguous one bits that fits the underlying type, and reports the length
    of the run; a zero discriminant is the only input on which it panics. *)
Theorem parse_discriminant_spec width dis :
  0 <= width <= 64 -> 0 <= dis ->
  match parse_discriminant width dis with
  | Ok n => 0 < n /\ exists i, 0 <= i /\ dis = mask n i /\ dis < 2 ^ width
  | Err _ => 2 ^ width <= dis \/ forall n i, 0 < n -> 0 <= i -> dis <> mask n i
  | Panic _ => dis = 0
  end.
Proof. apply parse_discriminant_cases. Qed.

Lemma parse_discriminant_spec_witness :
  parse_discriminant 32 0xFF00000 = Ok 8
  /\ exists i, 0 <= i /\ 0xFF00000 = mask 8 i /\ 0xFF00000 < 2 ^ 32.
Proof.
  assert (parse_discriminant 32 0xFF00000 = Ok 8) as Hp by (vm_compute; reflexivity).
  pose proof (parse_discriminant_spec 32 0xFF00000 ltac:(lia) ltac:(lia)) as H.
  rewrite Hp in H. split; [exact Hp|exact (proj2 H)].
Defined.

(** ** Accessors *)

Lemma get_mask {E T} width (from_raw : Z -> option T) s n i :
  0 < n -> 0 <= i < width ->
  @get E T width from_raw s (mask n i) = unwrap_or_panic PUnwrap (from_raw ((s / 2 ^ i) mod 2 ^ n)).
Proof.
  intros Hn Hi. unfold get, ushr. rewrite trailing_zeros_mask by lia.
  destruct (Z.ltb_spec i width); [|lia]. cbn [mbind outcome_bind].
  assert (mask n i = Z.shiftl (Z.ones n) i) as ->
    by (unfold mask; rewrite Z.shiftl_mul_pow2, Z.ones_equiv by lia; lia).
  by rewrite shiftr_field by lia.
Qed.

Lemma transform_variants_In width vs fs f :
  transform_variants width vs = Ok fs -> f ∈ fs ->
  exists v, v ∈ vs /\ transform_variant width v = Ok f.
Proof.
  revert fs. induction vs as [|v vs IH]; intros fs H Hf; cbn in H; inv_ok.
  - by apply not_elem_of_nil in Hf.
  - apply elem_of_cons in Hf as [->|Hf].
    + exists v. split; [apply list_elem_of_here|done].
    + lazymatch goal with Hts : transform_variants _ _ = Ok _ |- _ =>
        destruct (IH _ Hts Hf) as (v' & Hv' & ?) end.
      exists v'. split; [by apply list_elem_of_further|done].
Qed.

Lemma transform_variant_Ok width v f :
  0 <= width <= 64 -> (forall d, v_discriminant v = DLit d -> 0 <= d) ->
  transform_variant width v = Ok f ->
  exists n i, 0 < n /\ 0 <= i /\ f_mask f = mask n i /\ f_mask f < 2 ^ width
    /\ (f_ty f = TBool -> n = 1) /\ (f_ty f = TU16 -> n <= 16).
Proof.
  intros Hw Hd H. unfold transform_variant in H. inv_ok. destruct x as [dis bits].
  destruct (v_discriminant v) as [|d|] eqn:Hv; inv_ok.
  lazymatch goal with Hp : parse_discriminant _ _ = _ |- _ =>
    pose proof (parse_discriminant_cases width dis Hw (Hd dis eq_refl)) as Hc; rewrite Hp in Hc end.
  destruct Hc as [Hn (i & Hi & Hm & Hlt)].
  exists bits, i. cbn. split_and!; try done; intros ->; inv_ok; bool_to_prop; lia.
Qed.

(** Every constant of an accepted set of 32 bits is a run of bits inside
    the set; a [bool] flag is a single bit, and reading a [u16] value out of
    any set of that type returns the bits under the mask, never panicking. *)
Theorem accepted_flags it fs f :
  (forall v d, v ∈ i_variants it -> v_discriminant v = DLit d -> 0 <= d) ->
  transform (Some "u32") it = Ok fs -> f ∈ fs ->
  exists n i, 0 < n /\ 0 <= i /\ f_mask f = mask n i /\ f_mask f < 2 ^ 32
    /\ (f_ty f = TBool -> n = 1)
    /\ (f_ty f = TU16 -> forall (E : Type) s,
         @get E Z 32 from_raw_u16 s (f_mask f) = Ok ((s / 2 ^ i) mod 2 ^ n)).
Proof.
  intros Hd H Hf. unfold transform in H. inv_ok. cbn in H.
  destruct (transform_variants_In 32 (i_variants it) fs f) as (v & Hv & Ht); [done..|].
  destruct (transform_variant_Ok 32 v f) as (n & i & Hn & Hi & Hm & Hlt & Hb & Hu);
    [lia|intros d; by apply Hd|done|].
  exists n, i. split_and!; try done. intros Hty E s. specialize (Hu Hty). rewrite Hm.
  assert (i < 32).
  { apply (Z.pow_lt_mono_r_iff 2); [lia..|]. rewrite Hm in Hlt. unfold mask in Hlt.
    assert (1 < 2 ^ n) by (apply Z.pow_gt_1; lia).
    assert (0 < 2 ^ i) by (apply Z.pow_pos_nonneg; lia). nia. }
  rewrite get_mask by lia. unfold from_raw_u16.
  assert (2 ^ n <= 2 ^ 16) by (apply Z.pow_le_mono_r; lia).
  assert (0 < 2 ^ n) by (apply Z.pow_pos_nonneg; lia).
  pose proof (Z.mod_pos_bound (s / 2 ^ i) (2 ^ n)).
  destruct (Z.ltb_spec ((s / 2 ^ i) mod 2 ^ n) (2 ^ 16)); [done|lia].
Qed.

Lemma accepted_flags_witness :
  exists n i, 0 < n /\ 0 <= i /\ 0xFFFF0000 = mask n i /\ 0xFFFF0000 < 2 ^ 32
    /\ forall s, @get Empty_set Z 32 from_raw_u16 s 0xFFFF0000 = Ok ((s / 2 ^ i) mod 2 ^ n).
Proof.
  destruct (transform (Some "u32") VmAlloc) as [fs| |] eqn:H; [|vm_compute in H; discriminate H..].
  destruct (accepted_flags VmAlloc fs (Flag "Count" TU16 0xFFFF0000))
    as (n & i & Hn & Hi & Hm & Hlt & _ & Hu).
  - intros v d Hv Hd. unfold VmAlloc in Hv. cbn in Hv.
    repeat (apply elem_of_cons in Hv as [->|Hv]; [injection Hd as <-; discriminate|]).
    apply not_elem_of_nil in Hv as [].
  - exact H.
  - vm_compute in H. injection H as <-. do 3 right. left.
  - exists n, i. repeat split; try assumption. exact (Hu eq_refl Empty_set).
Defined.

(** The masks of a set do not overlap. *)
Definition disjoint_masks (fs : list flag) : bool :=
  forallb (fun f => forallb (fun g =>
    String.eqb (f_ident f) (f_ident g) || (Z.land (f_mask f) (f_mask g) =? 0)) fs) fs.

(** The macro accepts the flag sets of the kernel, and in each of them
    different flags have different bits. *)
Theorem kernel_flag_sets :
  forall (u : string) (it : item_enum),
    In (u, it) [("u32", Fork); ("u32", UmaFlags); ("u32", Bitflag.Alloc); ("u8", PageFlags); ("u32", VmAlloc)] ->
    match transform (Some u) it with
    | Ok fs => length fs = length (i_variants it) /\ disjoint_masks fs = true
    | _ => False
    end.
Proof. intros u it H. repeat (destruct H as [[= <- <-]|H]; [by vm_compute|]). done. Qed.

Lemma kernel_flag_sets_witness :
  match transform (Some "u32") Fork with
  | Ok fs => length fs = 5%nat /\ disjoint_masks fs = true
  | _ => False
  end.
Proof. apply (kernel_flag_sets "u32" Fork). left. reflexivity. Defined.

Lemma land_bit s k : 0 <= k -> Z.land s (2 ^ k) = if Z.testbit s k then 2 ^ k else 0.
Proof.
  intros Hk. apply Z.bits_inj'. intros i Hi. rewrite Z.land_spec.
  destruct (Z.eq_dec i k) as [->|Hne].
  - rewrite Z.pow2_bits_true by done. destruct (Z.testbit s k) eqn:Hb.
    + by rewrite Z.pow2_bits_true.
    + by rewrite Z.bits_0.
  - rewrite (Z.pow2_bits_false k i) by lia. destruct (Z.testbit s k); rewrite andb_false_r.
    + by rewrite Z.pow2_bits_false by lia.
    + by rewrite Z.bits_0.
Qed.

Lemma has_any_bit s k : 0 <= k -> has_any s (2 ^ k) = Z.testbit s k.
Proof.
  intros Hk. unfold has_any. rewrite land_bit by done.
  assert (0 < 2 ^ k) by (apply Z.pow_pos_nonneg; lia).
  destruct (Z.testbit s k); [|done]. destruct (Z.eqb_spec (2 ^ k) 0); [lia|done].
Qed.

Lemma has_all_bits s :
  has_all s (bitor (2 ^ 2) (2 ^ 12)) = Z.testbit s 2 && Z.testbit s 12.
Proof.
  unfold has_all, bitor. rewrite Z.land_lor_distr_r, !land_bit by done.
  by destruct (Z.testbit s 2), (Z.testbit s 12).
Qed.

(** [ProcMgr::fork] creates a process exactly when no reserved flag is
    set, the child does not both copy and clear its file descriptors, a
    parent signal comes with [CustomSignal], and [CreateProcess] is set;
    without [CreateProcess] valid flags run into unfinished code. *)
Theorem fork_flags {P} (np : P) flags :
  fork np flags =
    if decide (Z.land flags 0x60008f8b = 0
       /\ ~ (Z.testbit flags 2 = true /\ Z.testbit flags 12 = true)
       /\ ((flags / 2 ^ 20) mod 2 ^ 8 <> 0 -> Z.testbit flags 19 = true))
    then (if Z.testbit flags 4 then Ok np else Panic PTodo)
    else Err InvalidFlags.
Proof.
  unfold fork. change (mask_of Fork "ParentSignal") with (Z.shiftl (Z.ones 8) 20).
  change (mask_of Fork "CustomSignal") with (2 ^ 19). change (mask_of Fork "CopyFd") with (2 ^ 2).
  change (mask_of Fork "ClearFd") with (2 ^ 12). change (mask_of Fork "CreateProcess") with (2 ^ 4).
  rewrite !has_any_bit, has_all_bits by done. unfold has_any. rewrite land_field by done.
  change (negb (2 ^ 2 =? 0)) with true.
  generalize ((flags / 2 ^ 20) mod 2 ^ 8) as f, (Z.land flags 0x60008f8b) as res. intros f res.
  assert ((f * 2 ^ 20 =? 0) = (f =? 0)) as ->
    by (destruct (Z.eqb_spec (f * 2 ^ 20) 0), (Z.eqb_spec f 0); (done || lia)).
  destruct (Z.eqb_spec res 0); [|by rewrite decide_False by tauto].
  destruct (Z.eqb_spec f 0), (Z.testbit flags 2), (Z.testbit flags 12), (Z.testbit flags 19);
    cbn [negb orb andb fail_if mbind outcome_bind];
    ((rewrite decide_True by (split_and!; (done || (intros [? ?]; done) || tauto)))
     || rewrite decide_False by naive_solver); by destruct (Z.testbit flags 4).
Qed.

End BitflagProps.
