(* ===== verification/Blocks.v ===== *)
(** * Sorted blocks of addresses

    The kernel keeps ranges of physical addresses in flat arrays: even
    entries are starts, odd entries are ends.  This file relates such an
    array to the list of its blocks and to the set of addresses they hold. *)
From S2P Require Import Prelude.

Module Blocks.

Fixpoint flatten (bs : list (Z * Z)) : list Z :=
  match bs with [] => [] | b :: bs => b.1 :: b.2 :: flatten bs end.

Lemma length_flatten bs : length (flatten bs) = (2 * length bs)%nat.
Proof. induction bs as [|b bs IH]; cbn; lia. Qed.

Lemma flatten_app bs bs' : flatten (bs ++ bs') = flatten bs ++ flatten bs'.
Proof. induction bs as [|b bs IH]; cbn; [done|by rewrite IH]. Qed.

Lemma flatten_cons b bs : flatten (b :: bs) = b.1 :: b.2 :: flatten bs.
Proof. done. Qed.

(** ** Array accesses *)

Section access.
Context {E : Type}.
Implicit Types (pre : list (Z * Z)) (rest : list Z).

Lemma flat_idx pre : Z.to_nat (2 * Z.of_nat (length pre)) = (length (flatten pre))%nat.
Proof. rewrite length_flatten. lia. Qed.

Lemma flat_idx1 pre : Z.to_nat (2 * Z.of_nat (length pre) + 1) = (length (flatten pre) + 1)%nat.
Proof. rewrite length_flatten. lia. Qed.

Lemma get_lo pre s rest :
  @arr_get E Z (flatten pre ++ s :: rest) (2 * Z.of_nat (length pre)) = Ok s.
Proof.
  apply arr_get_Ok. split; [lia|]. rewrite flat_idx, lookup_app_r by lia.
  by rewrite Nat.sub_diag.
Qed.

Lemma get_hi pre s e rest :
  @arr_get E Z (flatten pre ++ s :: e :: rest) (2 * Z.of_nat (length pre) + 1) = Ok e.
Proof.
  apply arr_get_Ok. split; [lia|]. rewrite flat_idx1, lookup_app_r by lia.
  by replace (length (flatten pre) + 1 - length (flatten pre))%nat with 1%nat by lia.
Qed.

Lemma set_lo pre s rest v :
  @arr_set E Z (flatten pre ++ s :: rest) (2 * Z.of_nat (length pre)) v
  = Ok (flatten pre ++ v :: rest).
Proof.
  apply arr_set_Ok. rewrite flat_idx, length_app, length_flatten. cbn.
  split; [lia|]. rewrite insert_app_r_alt by (rewrite length_flatten; lia).
  by replace (_ - _)%nat with 0%nat by (rewrite length_flatten; lia).
Qed.

Lemma set_hi pre s e rest v :
  @arr_set E Z (flatten pre ++ s :: e :: rest) (2 * Z.of_nat (length pre) + 1) v
  = Ok (flatten pre ++ s :: v :: rest).
Proof.
  apply arr_set_Ok. rewrite flat_idx1, length_app, length_flatten. cbn.
  split; [lia|]. rewrite insert_app_r_alt by (rewrite length_flatten; lia).
  by replace (_ - _)%nat with 1%nat by (rewrite length_flatten; lia).
Qed.

End access.

(** ** Sorted blocks *)

(** The blocks lie above [lo], in order, and do not overlap. *)
Fixpoint blocks_ok (lo : Z) (bs : list (Z * Z)) : Prop :=
  match bs with
  | [] => True
  | (s, e) :: bs => lo <= s /\ s <= e /\ blocks_ok e bs
  end.

(** The end of the last block. *)
Definition end_of (lo : Z) (bs : list (Z * Z)) : Z := foldl (fun _ b => b.2) lo bs.

(** Address [x] lies in one of the blocks. *)
Definition in_blocks (x : Z) (bs : list (Z * Z)) : Prop := Exists (fun b => b.1 <= x < b.2) bs.

Lemma end_of_app lo bs bs' : end_of lo (bs ++ bs') = end_of (end_of lo bs) bs'.
Proof. apply foldl_app. Qed.

Lemma blocks_ok_app lo bs bs' :
  blocks_ok lo (bs ++ bs') <-> blocks_ok lo bs /\ blocks_ok (end_of lo bs) bs'.
Proof. revert lo. induction bs as [|[s e] bs IH]; intros lo; cbn; [naive_solver|]. rewrite IH. tauto. Qed.

Lemma blocks_ok_le lo lo' bs : lo' <= lo -> blocks_ok lo bs -> blocks_ok lo' bs.
Proof. destruct bs as [|[s e] bs]; cbn; [done|]. intros H (? & ? & ?). split_and!; (done || lia). Qed.

Lemma end_of_ge lo bs : blocks_ok lo bs -> lo <= end_of lo bs.
Proof.
  revert lo. induction bs as [|[s e] bs IH]; intros lo; cbn; [lia|]. intros (? & ? & H).
  apply IH in H. unfold end_of in H. lia.
Qed.

Lemma in_blocks_app x bs bs' : in_blocks x (bs ++ bs') <-> in_blocks x bs \/ in_blocks x bs'.
Proof. apply Exists_app. Qed.

Lemma in_blocks_cons x b bs : in_blocks x (b :: bs) <-> (b.1 <= x < b.2) \/ in_blocks x bs.
Proof. apply Exists_cons. Qed.

Lemma in_blocks_nil x : ~ in_blocks x [].
Proof. by intros H%Exists_nil. Qed.

(** Addresses of sorted blocks are bounded. *)
Lemma in_blocks_bounds lo bs x : blocks_ok lo bs -> in_blocks x bs -> lo <= x < end_of lo bs.
Proof.
  revert lo. induction bs as [|[s e] bs IH]; intros lo Hok Hx; [by apply in_blocks_nil in Hx|].
  cbn in Hok. destruct Hok as (H1 & H2 & H3). apply in_blocks_cons in Hx as [Hx|Hx]; cbn in *.
  - apply end_of_ge in H3. unfold end_of in H3. lia.
  - apply (IH _ H3) in Hx. unfold end_of in Hx. lia.
Qed.

(** The blocks of the first [last + 2] entries of an array. *)
Definition array_blocks (pm : list Z) (last : Z) (bs : list (Z * Z)) : Prop :=
  exists rest, pm = flatten bs ++ rest /\ last = 2 * Z.of_nat (length bs) - 2.

End Blocks.
