(* ===== verification/PhysMem.v ===== *)
(** * Physical memory at boot

    Models the first half of the kernel entry, [kernel/src/main.rs]:
    [load_memory_map] turns the memory map of the boot environment into the
    [physmap] table, [adjust_boot_area] carves out the boot area, and [setup]
    derives the table of available pages.  The registers that identify the
    processor and the length of the start-up code of secondary processors are
    parameters. *)
From S2P Require Import Prelude Env.

Module PhysMem.
Import Env.
Local Open Scope string_scope.
Local Open Scope list_scope.
Local Open Scope Z_scope.

(** ** Data *)

Definition PAGE_SHIFT : Z := 14.
Definition PAGE_SIZE : Z := Z.shiftl 1 PAGE_SHIFT.
Definition PAGE_MASK : Z := PAGE_SIZE - 1.

(** [!PAGE_MASK] on [u64]. *)
Definition page_mask : Z := 2 ^ 64 - 1 - PAGE_MASK.

Inductive MapType := MtNone | MtRam | MtReserved.

(** An entry of the memory map of the boot environment. *)
Record PhysMap := Map { base : Z; len : Z; ty : MapType }.

Record BootInfo := Boot { bi_addr : Z; bi_page_tables : Z }.

Record MemoryInfo := {
  physmap : list Z; (* [u64; 60] *)
  physmap_last : Z;
  boot_area : Z;
  boot_info : BootInfo;
  dcons_addr : Z;
  dcons_size : Z;
  initial_memory_size : Z;
  end_page : Z;
  unk : Z;
  paddr_free : Z;
  memtest : Z
}.

(** [self::arch()] of the kernel: the length of the start-up code and, on
    x86-64, the identification of the processor. *)
Record arch := Arch { secondary_start_len : Z; cpu_id : option Z }.

Abbreviation res := (outcome Empty_set).

(** ** Loading the memory map *)

(** How the search for the place of an entry ends. *)
Inductive place := Overlapped | At (idx : Z).

(** The loop over [j]: the first block that ends behind the base.  [fuel]
    bounds the number of blocks. *)
Fixpoint find_place (fuel : nat) (pm : list Z) (last j : Z) (m : PhysMap) : res place :=
  match fuel with
  | O => Panic PUnreachable
  | S fuel =>
      if j <=? last then
        hi ← arr_get pm (j + 1);
        if base m <? hi then
          e ← uadd (base m) (len m);
          lo ← arr_get pm j;
          Ok (if lo <? e then Overlapped else At j)
        else find_place fuel pm last (j + 2) m
      else Ok (At (last + 2))
  end.

(** How one entry changes the table; [Stop] is the [break] on overflow. *)
Inductive added := Go (pm : list Z) (last : Z) | Stop (pm : list Z) (last : Z).

(** The body of the loop for an entry of type [Ram] with a length. *)
Definition add_ram (pm : list Z) (last : Z) (m : PhysMap) : res added :=
  p ← find_place (Z.to_nat last + 2) pm last 0 m;
  match p with
  | Overlapped => Ok (Go pm last)
  | At insert_idx =>
      (* Check if end address is the start address of the next entry. *)
      next ←
        (if insert_idx <=? last then
           e ← uadd (base m) (len m); lo ← arr_get pm insert_idx; Ok (e =? lo)
         else Ok false);
      if next : bool then pm' ← arr_set pm insert_idx (base m); Ok (Go pm' last)
      else
        (* Check if start address is the end address of the previous entry. *)
        prev ←
          (if 0 <? insert_idx then hi ← arr_get pm (insert_idx - 1); Ok (base m =? hi)
           else Ok false);
        if prev : bool then
          e ← uadd (base m) (len m);
          pm' ← arr_set pm (insert_idx - 1) e;
          Ok (Go pm' last)
        else
          let last := last + 2 in
          if last =? Z.of_nat (length pm) then Ok (Stop pm last)
          else
            panic_if (insert_idx <? last) PTodo;;
            pm' ← arr_set pm insert_idx (base m);
            e ← uadd (base m) (len m);
            pm'' ← arr_set pm' (insert_idx + 1) e;
            Ok (Go pm'' last)
  end.

Fixpoint load_entries (pm : list Z) (last : Z) (map : list PhysMap) : res (list Z * Z) :=
  match map with
  | [] => Ok (pm, last)
  | m :: map =>
      match ty m with
      | MtNone => Ok (pm, last)
      | MtReserved => load_entries pm last map
      | MtRam =>
          if len m =? 0 then Ok (pm, last)
          else
            a ← add_ram pm last m;
            match a with
            | Go pm' last' => load_entries pm' last' map
            | Stop pm' last' => Ok (pm', last')
            end
      end
  end.

(** The sum of the sizes, rounded inwards to pages, and the boot area. *)
Fixpoint sum_blocks (pm : list Z) (idxs : list Z) (size : Z) (boot : option Z) : res (Z * option Z) :=
  match idxs with
  | [] => Ok (size, boot)
  | i :: idxs =>
      lo ← arr_get pm i;
      boot' ← (if lo =? 0 then hi ← arr_get pm (i + 1); Ok (Some (hi / 1024)) else Ok boot);
      start ← next_multiple_of lo PAGE_SIZE;
      hi ← arr_get pm (i + 1);
      let end_ := Z.land hi page_mask in
      size' ← uadd size (Z.max 0 (end_ - start));
      sum_blocks pm idxs size' boot'
  end.

Definition adjust_boot_area (a : arch) (original : Z) : res BootInfo :=
  b ← umul original 1024;
  let addr := Z.land b page_mask in
  addr ← (if secondary_start_len a <=? Z.land b 0xC00 then Ok addr else usub addr PAGE_SIZE);
  page_tables ← usub addr (PAGE_SIZE * 3);
  Ok (Boot addr page_tables).

(** The wrapping-free sum over the blocks from the last to the first. *)
Fixpoint total_size (pm : list Z) (idxs : list Z) (acc : Z) : res Z :=
  match idxs with
  | [] => Ok acc
  | i :: idxs =>
      hi ← arr_get pm (i + 1);
      a ← uadd acc hi;
      lo ← arr_get pm i;
      a ← usub a lo;
      total_size pm idxs a
  end.

Definition load_pmap (kc : KConfig) (paddr_free : Z) : res Z :=
  disabled ← (if is_allow_disabling_aslr kc then dipsw kc else Ok false);
  if disabled : bool then Panic PTodo else Ok paddr_free.

(** The indices [0..=last] in steps of two. *)
Definition block_idxs (last : Z) : list Z := step_by 0 (last + 1) 2.

Definition parse_env (kc : KConfig) (name : string) : res (option Z) :=
  match k_env kc (bytes_of name) with
  | None => Ok None
  | Some v => n ← unwrap_or_panic PUnwrap (parse_u64 v); Ok (Some n)
  end.

(** The flags of the unknown variable: bit 0 says that there is 8 GiB of
    memory or more, bit 1 depends on the processor. *)
Definition load_unk (a : arch) (kc : KConfig) (total : Z) : res Z :=
  let unk := if Z.shiftr total 33 =? 0 then 0 else 1 in
  let cpu_ok := match cpu_id a with Some id => Z.land id 0xffffff80 =? 0x740f00 | None => true end in
  if cpu_ok then
    d1 ← dipsw kc;
    if negb d1 then (d2 ← dipsw kc; Ok (if negb d2 then Z.lor unk 2 else unk)) else Ok unk
  else Ok unk.

Definition load_memory_map (a : arch) (kc : KConfig) (map : list PhysMap) (paddr_free : Z)
    : res MemoryInfo :=
  '(pm, last) ← load_entries (replicate 60 0) 0 map;
  hi0 ← arr_get pm 1;
  panic_if (hi0 =? 0) (PExplicit "no memory map provided to the kernel");;
  '(size, boot) ← sum_blocks pm (block_idxs last) 0 None;
  boot_area ← unwrap_or_panic (PExplicit "no boot area provided to the kernel") boot;
  bi ← adjust_boot_area a (hi0 / 1024);
  pm ← arr_set pm 1 (bi_page_tables bi);
  hi ← arr_get pm (last + 1);
  let end_page := Z.shiftr hi PAGE_SHIFT in
  physmem ← parse_env kc "hw.physmem";
  let end_page := match physmem with
    | Some v => Z.min (Z.shiftr v PAGE_SHIFT) end_page
    | None => end_page
    end in
  memtest ← parse_env kc "hw.memtest.tests";
  total ← total_size pm (reverse (block_idxs last)) 0;
  unk ← load_unk a kc total;
  paddr_free ← load_pmap kc paddr_free;
  '(dcons_addr, dcons_size) ←
    match k_env kc (bytes_of "dcons.addr"), k_env kc (bytes_of "dcons.size") with
    | Some a, Some s =>
        a ← unwrap_or_panic PUnwrap (parse_u64 a);
        s ← unwrap_or_panic PUnwrap (parse_u64 s);
        Ok (a, s)
    | _, _ => Ok (0, 0)
    end;
  Ok {| physmap := pm; physmap_last := last; boot_area := boot_area; boot_info := bi;
        dcons_addr := dcons_addr; dcons_size := dcons_size; initial_memory_size := size;
        end_page := end_page; unk := unk; paddr_free := paddr_free;
        memtest := default 1 memtest |}.

(** ** Available pages *)

(** [Param1::new]. *)
Definition msgbuf_size (kc : KConfig) : res Z :=
  n ← parse_env kc "kern.msgbufsize";
  Ok (default 0x10000 n).

(** The tables that the loop of [setup] fills. *)
Record avail := Avail {
  phys_avail : list Z; (* [u64; 61] *)
  pa_indx : Z;
  dump_avail : list Z; (* [u64; 61] *)
  da_indx : Z;
  physmem : Z
}.

(** The tables before the loop: the first page is skipped. *)
Definition initial_avail : avail :=
  Avail (PAGE_SIZE :: PAGE_SIZE :: replicate 59 0) 1 (0 :: PAGE_SIZE :: replicate 59 0) 1 0.

(** The physical address below which the kernel image may lie. *)
Definition unk1 : Z := 0xA494000 + 0x2200000.

(** The condition on a page: outside of the kernel and of the buffer of the
    console driver. *)
Definition usable {E} (mi : MemoryInfo) (free pa : Z) : outcome E bool :=
  if (pa <? Z.land unk1 0xffffffffffe00000) || (free <=? pa) then
    if dcons_addr mi =? 0 then Ok true
    else if pa <? Z.land (dcons_addr mi) 0xffffffffffffc000 then Ok true
    else (e ← uadd (dcons_addr mi) (dcons_size mi); Ok (e <=? pa))
  else Ok false.

(** Recording a usable page in [phys_avail]; the flag is [full]. *)
Definition add_avail (st : avail) (pa : Z) : res (avail * bool) :=
  e ← arr_get (phys_avail st) (pa_indx st);
  if pa =? e then
    pe ← uadd pa PAGE_SIZE;
    t ← arr_set (phys_avail st) (pa_indx st) pe;
    Ok (Avail t (pa_indx st) (dump_avail st) (da_indx st) (physmem st + 1), false)
  else
    let i := pa_indx st + 1 in
    if i =? 60 then Ok (st, true)
    else
      t ← arr_set (phys_avail st) i pa;
      pe ← uadd pa PAGE_SIZE;
      t ← arr_set t (pa_indx st + 2) pe;
      Ok (Avail t (pa_indx st + 2) (dump_avail st) (da_indx st) (physmem st + 1), false).

(** Recording a page in [dump_avail]. *)
Definition add_dump (st : avail) (pa : Z) : res avail :=
  e ← arr_get (dump_avail st) (da_indx st);
  if pa =? e then
    pe ← uadd pa PAGE_SIZE;
    t ← arr_set (dump_avail st) (da_indx st) pe;
    Ok (Avail (phys_avail st) (pa_indx st) t (da_indx st) (physmem st))
  else if negb (da_indx st + 1 =? 60) then
    t ← arr_set (dump_avail st) (da_indx st + 1) pa;
    pe ← uadd pa PAGE_SIZE;
    t ← arr_set t (da_indx st + 2) pe;
    Ok (Avail (phys_avail st) (pa_indx st) t (da_indx st + 2) (physmem st))
  else Ok st.

(** The loop over the pages of one block. *)
Fixpoint add_pages (mi : MemoryInfo) (free : Z) (st : avail) (pas : list Z) : res avail :=
  match pas with
  | [] => Ok st
  | pa :: pas =>
      u ← usable mi free pa;
      '(st, full) ←
        (if u : bool then
           if memtest mi =? 0 then add_avail st pa else Panic PTodo
         else Ok (st, false));
      st ← add_dump st pa;
      if full : bool then Ok st else add_pages mi free st pas
  end.

Fixpoint add_blocks (mi : MemoryInfo) (free : Z) (st : avail) (idxs : list Z) : res avail :=
  match idxs with
  | [] => Ok st
  | i :: idxs =>
      lo ← arr_get (physmap mi) i;
      begin ← unwrap_or_panic PUnwrap (checked_next_multiple_of lo PAGE_SIZE);
      hi ← arr_get (physmap mi) (i + 1);
      let end_ := Z.min (Z.land hi page_mask) (u64_wrap (Z.shiftl (end_page mi) PAGE_SHIFT)) in
      st ← add_pages mi free st (step_by begin end_ PAGE_SIZE);
      add_blocks mi free st idxs
  end.

Definition set_physmap (pm : list Z) (last : Z) (mi : MemoryInfo) : MemoryInfo :=
  {| physmap := pm; physmap_last := last; boot_area := boot_area mi; boot_info := boot_info mi;
     dcons_addr := dcons_addr mi; dcons_size := dcons_size mi;
     initial_memory_size := initial_memory_size mi; end_page := end_page mi; unk := unk mi;
     paddr_free := paddr_free mi; memtest := memtest mi |}.

Definition set_end_page (p : Z) (mi : MemoryInfo) : MemoryInfo :=
  {| physmap := physmap mi; physmap_last := physmap_last mi; boot_area := boot_area mi;
     boot_info := boot_info mi; dcons_addr := dcons_addr mi; dcons_size := dcons_size mi;
     initial_memory_size := initial_memory_size mi; end_page := p; unk := unk mi;
     paddr_free := paddr_free mi; memtest := memtest mi |}.

(** The part of [setup] between the initialisation of the direct memory and
    that of the virtual memory: the final tables and the memory info. *)
Definition load_avail (kc : KConfig) (mi : MemoryInfo) : res (avail * MemoryInfo) :=
  free ← (if unk mi =? 0 then uadd (paddr_free mi) 0x400000 else Ok (paddr_free mi));
  pm ← arr_set (physmap mi) 0 PAGE_SIZE;
  let mi := set_physmap pm (physmap_last mi) mi in
  st ← add_blocks mi free initial_avail (block_idxs (physmap_last mi));
  panic_if (negb (memtest mi =? 0)) PTodo;;
  n ← msgbuf_size kc;
  n ← next_multiple_of n PAGE_SIZE;
  hi ← arr_get (phys_avail st) (pa_indx st);
  lo ← arr_get (phys_avail st) (pa_indx st - 1);
  lo ← uadd lo PAGE_SIZE;
  lo ← uadd lo n;
  panic_if (hi <=? lo) PTodo;;
  let mi := set_end_page (Z.shiftr hi PAGE_SHIFT) mi in
  hi ← usub hi n;
  t ← arr_set (phys_avail st) (pa_indx st) hi;
  Ok (Avail t (pa_indx st) (dump_avail st) (da_indx st) (physmem st), mi).

End PhysMem.
