(* ===== verification/PhysMemProps.v ===== *)
(** * Correctness of the memory tables of the boot

    [physmap] describes exactly the RAM of the memory map, and [phys_avail]
    exactly the usable pages of [physmap]. *)
From S2P Require Import Prelude Env Blocks PhysMem.

Module PhysMemProps.
Import Env Blocks PhysMem.

(** ** Loading the memory map *)

(** The entries that the loop looks at. *)
Fixpoint rams (map : list PhysMap) : list PhysMap :=
  match map with
  | [] => []
  | m :: map =>
      match ty m with
      | MtNone => []
      | MtReserved => rams map
      | MtRam => if len m =? 0 then [] else m :: rams map
      end
  end.

(** The entries are in order, above [lo], and do not overlap. *)
Fixpoint ascending (lo : Z) (ms : list PhysMap) : Prop :=
  match ms with
  | [] => True
  | m :: ms => lo <= base m /\ 0 < len m /\ base m + len m < 2 ^ 64 /\ ascending (base m + len m) ms
  end.

(** The number of entries that do not continue the previous one. *)
Fixpoint gaps (e : Z) (ms : list PhysMap) : nat :=
  match ms with
  | [] => 0%nat
  | m :: ms => ((if (base m =? e)%Z then 0 else 1) + gaps (base m + len m)%Z ms)%nat
  end.

Lemma find_place_end fuel pre post rest last m :
  Forall (fun b => b.2 <= base m) (pre ++ post) -> (length post < fuel)%nat ->
  last = 2 * Z.of_nat (length (pre ++ post)) - 2 ->
  find_place fuel (flatten (pre ++ post) ++ rest) last (2 * Z.of_nat (length pre)) m = Ok (At (last + 2)).
Proof.
  intros Hall Hf ->. revert pre fuel Hall Hf.
  induction post as [|[s e] post IH]; intros pre [|fuel] Hall Hf; try (cbn in Hf; lia); cbn [find_place].
  - rewrite app_nil_r. destruct (Z.leb_spec (2 * Z.of_nat (length pre)) (2 * Z.of_nat (length pre) - 2)); [lia|done].
  - rewrite length_app. cbn [length].
    destruct (Z.leb_spec (2 * Z.of_nat (length pre)) (2 * Z.of_nat (length pre + S (length post)) - 2)); [|lia].
    rewrite flatten_app, flatten_cons, <- app_assoc. cbn [fst snd app]. rewrite get_hi.
    cbn [mbind outcome_bind].
    assert (e <= base m) by (rewrite Forall_app, Forall_cons in Hall; cbn in Hall; tauto).
    destruct (Z.ltb_spec (base m) e); [lia|].
    specialize (IH (pre ++ [(s, e)]) fuel). rewrite <- app_assoc in IH. cbn [app] in IH.
    specialize (IH Hall ltac:(cbn in Hf; lia)).
    rewrite flatten_app, flatten_cons, <- app_assoc, !length_app in IH. cbn [fst snd app length] in IH.
    replace (2 * Z.of_nat (length pre + 1)) with (2 * Z.of_nat (length pre) + 2) in IH by lia.
    exact IH.
Qed.

(** [pm] holds the blocks [bs] and has the size of the array. *)
Definition table (pm : list Z) (last : Z) (bs : list (Z * Z)) : Prop :=
  array_blocks pm last bs /\ length pm = 60%nat.

Lemma blocks_ends lo bs : blocks_ok lo bs -> Forall (fun b => b.2 <= end_of lo bs) bs.
Proof.
  revert lo. induction bs as [|[s e] bs IH]; intros lo H; [done|]. cbn in H.
  destruct H as (? & ? & H). constructor; [cbn; by apply end_of_ge in H|by apply IH].
Qed.

(** Adding an entry behind the last block. *)
Lemma add_ram_last pm last pre s e m :
  table pm last (pre ++ [(s, e)]) -> blocks_ok 0 (pre ++ [(s, e)]) ->
  e <= base m -> base m + len m < 2 ^ 64 ->
  if base m =? e then
    exists pm', add_ram pm last m = Ok (Go pm' last)
      /\ table pm' last (pre ++ [(s, base m + len m)])
  else if (length pre =? 29)%nat then add_ram pm last m = Ok (Stop pm 60)
  else exists pm', add_ram pm last m = Ok (Go pm' (last + 2))
    /\ table pm' (last + 2) (pre ++ [(s, e); (base m, base m + len m)]).
Proof.
  intros [[rest [Hpm Hlast]] Hlen] Hok He Hmax. unfold add_ram.
  rewrite length_app in Hlast. cbn in Hlast.
  assert (find_place (Z.to_nat last + 2) pm last 0 m = Ok (At (last + 2))) as ->.
  { rewrite Hpm. apply (find_place_end _ [] (pre ++ [(s, e)])).
    - eapply Forall_impl; [by apply (blocks_ends 0)|]. intros b. cbn. rewrite end_of_app. cbn. lia.
    - rewrite length_app. cbn. lia.
    - cbn [app]. rewrite length_app. cbn. lia. }
  cbn [mbind outcome_bind]. destruct (Z.leb_spec (last + 2) last); [lia|]. cbn [mbind outcome_bind].
  destruct (Z.ltb_spec 0 (last + 2)); [|lia].
  assert (last + 2 - 1 = 2 * Z.of_nat (length pre) + 1) as -> by lia.
  rewrite flatten_app, <- app_assoc in Hpm. cbn in Hpm. rewrite Hpm, get_hi. cbn [mbind outcome_bind].
  unfold uadd. destruct (Z.ltb_spec (base m + len m) (2 ^ 64)); [|lia].
  rewrite Hpm in Hlen. cbn [mbind outcome_bind].
  destruct (base m =? e); cbn [mbind outcome_bind].
  - rewrite set_hi. cbn [mbind outcome_bind]. eexists. split; [done|]. split.
    + exists rest. rewrite flatten_app, <- app_assoc, length_app. cbn. split; [done|lia].
    + rewrite <- Hlen, !length_app. done.
  - rewrite Hlen. rewrite length_app, length_flatten in Hlen. cbn in Hlen.
    destruct (Nat.eqb_spec (length pre) 29) as [Hp|Hp].
    + destruct (Z.eqb_spec (last + 2) (Z.of_nat 60)); [|lia]. f_equal. f_equal. lia.
    + destruct (Z.eqb_spec (last + 2) (Z.of_nat 60)); [lia|].
      destruct (Z.ltb_spec (last + 2) (last + 2)); [lia|]. cbn [panic_if mbind outcome_bind].
      destruct rest as [|r0 [|r1 rest]]; cbn in Hlen; [lia..|].
      assert (last + 2 = 2 * Z.of_nat (length (pre ++ [(s, e)]))) as ->
        by (rewrite length_app; cbn; lia).
      assert (flatten pre ++ s :: e :: r0 :: r1 :: rest = flatten (pre ++ [(s, e)]) ++ r0 :: r1 :: rest) as ->
        by (rewrite flatten_app, <- app_assoc; done).
      rewrite set_lo. cbn [mbind outcome_bind]. rewrite set_hi. cbn [mbind outcome_bind].
      eexists. split; [done|]. split.
      * exists rest. rewrite !flatten_app, <- !app_assoc, !length_app. cbn. split; [done|lia].
      * rewrite flatten_app, !length_app, length_flatten. cbn. lia.
Qed.

Lemma load_entries_rams pm last map :
  load_entries pm last map = load_entries pm last (rams map).
Proof.
  revert pm last. induction map as [|m map IH]; intros pm last; [done|]. cbn [load_entries rams].
  destruct (ty m) eqn:Hty; [done| |by apply IH].
  destruct (len m =? 0) eqn:Hl; [done|]. cbn [load_entries]. rewrite Hty, Hl.
  destruct (add_ram pm last m) as [[]| |]; cbn [mbind outcome_bind]; [by apply IH|done..].
Qed.

Lemma rams_ram m map : m ∈ rams map -> ty m = MtRam /\ len m <> 0.
Proof.
  induction map as [|m' map IH]; cbn; [by intros ?%not_elem_of_nil|].
  destruct (ty m') eqn:Hty; [by intros ?%not_elem_of_nil| |done].
  destruct (Z.eqb_spec (len m') 0); [by intros ?%not_elem_of_nil|].
  intros [->|?]%elem_of_cons; [done|by apply IH].
Qed.

(** The addresses of an entry. *)
Definition in_ram (x : Z) (ms : list PhysMap) : Prop :=
  Exists (fun m => base m <= x < base m + len m) ms.

(** The loop on entries in order. *)
Lemma load_entries_asc ms pm last pre s e :
  Forall (fun m => ty m = MtRam /\ len m <> 0) ms ->
  table pm last (pre ++ [(s, e)]) -> blocks_ok 0 (pre ++ [(s, e)]) -> ascending e ms ->
  (length pre <= 29)%nat ->
  if decide (length pre + gaps e ms <= 29)%nat then
    exists pm' last' bs', load_entries pm last ms = Ok (pm', last')
      /\ table pm' last' bs' /\ blocks_ok 0 bs'
      /\ forall x, in_blocks x bs' <-> in_blocks x (pre ++ [(s, e)]) \/ in_ram x ms
  else exists pm', load_entries pm last ms = Ok (pm', 60) /\ length pm' = 60%nat.
Proof.
  revert pm last pre s e. induction ms as [|m ms IH]; intros pm last pre s e Hram Ht Hok Hasc Hpre.
  - rewrite decide_True by (cbn; lia). exists pm, last, (pre ++ [(s, e)]). split; [done|].
    split; [done|]. split; [done|]. intros x. unfold in_ram. rewrite Exists_nil. tauto.
  - inversion Hram as [|? ? [Hty Hl] Hram']; subst. cbn [ascending] in Hasc.
    destruct Hasc as (Hlo & Hlen & Hmax & Hasc). cbn [load_entries]. rewrite Hty.
    destruct (Z.eqb_spec (len m) 0) as [?|_]; [done|].
    apply blocks_ok_app in Hok as Hok'. cbn in Hok'. destruct Hok' as [Hokp (Hs & Hse & _)].
    pose proof (add_ram_last pm last pre s e m Ht Hok Hlo Hmax) as Hadd. cbn [gaps].
    destruct (Z.eqb_spec (base m) e) as [Heq|Hne].
    + destruct Hadd as (pm1 & -> & Ht1). cbn [mbind outcome_bind].
      specialize (IH pm1 last pre s (base m + len m) Hram' Ht1).
      rewrite blocks_ok_app in IH. cbn in IH. specialize (IH ltac:(split_and!; (done || lia)) Hasc Hpre).
      cbn [Nat.add]. case_decide; [|exact IH].
      destruct IH as (pm' & last' & bs' & -> & Ht' & Hb' & Hx). exists pm', last', bs'.
      split; [done|]. split; [done|]. split; [done|]. intros x. rewrite Hx. unfold in_ram.
      rewrite Exists_cons, !in_blocks_app, !in_blocks_cons. cbn. intuition lia.
    + destruct (Nat.eqb_spec (length pre) 29) as [Hp|Hp].
      * rewrite Hadd. cbn [mbind outcome_bind]. rewrite decide_False by lia.
        exists pm. split; [done|]. apply Ht.
      * destruct Hadd as (pm1 & -> & Ht1). cbn [mbind outcome_bind].
        specialize (IH pm1 (last + 2) (pre ++ [(s, e)]) (base m) (base m + len m) Hram').
        rewrite <- app_assoc in IH. cbn [app] in IH. specialize (IH Ht1).
        rewrite blocks_ok_app in IH. cbn in IH.
        specialize (IH ltac:(split_and!; (done || lia)) Hasc).
        rewrite length_app in IH. cbn [length] in IH. specialize (IH ltac:(lia)).
        replace (length pre + 1 + gaps (base m + len m) ms)%nat
          with (length pre + (1 + gaps (base m + len m) ms))%nat in IH by lia.
        case_decide; [|exact IH].
        destruct IH as (pm' & last' & bs' & -> & Ht' & Hb' & Hx). exists pm', last', bs'.
        split; [done|]. split; [done|]. split; [done|]. intros x. rewrite Hx. unfold in_ram.
        rewrite Exists_cons, !in_blocks_app, !in_blocks_cons. cbn. intuition lia.
Qed.

Lemma initial_table : table (replicate 60 0) 0 ([] ++ [(0, 0)]).
Proof. split; [by exists (replicate 58 0)|done]. Qed.

Lemma rams_forall map : Forall (fun m => ty m = MtRam /\ len m <> 0) (rams map).
Proof. apply Forall_forall. intros m. apply rams_ram. Qed.

(** ** Available pages *)

(** [phys_avail] holds the ranges [prs], the last of which is growing. *)
Definition avail_ok (st : avail) (prs : list (Z * Z)) : Prop :=
  exists rest, phys_avail st = flatten prs ++ rest /\ length (phys_avail st) = 61%nat
    /\ pa_indx st = 2 * Z.of_nat (length prs) - 1.

Lemma add_dump_same st pa st' :
  add_dump st pa = Ok st' -> phys_avail st' = phys_avail st /\ pa_indx st' = pa_indx st.
Proof. intros H. unfold add_dump in H. inv_ok. repeat case_match; inv_ok; done. Qed.

Lemma add_avail_Ok st pre s e pa st' full :
  avail_ok st (pre ++ [(s, e)]) -> add_avail st pa = Ok (st', full) ->
  if full then st' = st /\ pa_indx st = 59
  else avail_ok st' (if pa =? e then pre ++ [(s, pa + PAGE_SIZE)]
                     else pre ++ [(s, e); (pa, pa + PAGE_SIZE)])
    /\ pa_indx st <= pa_indx st'.
Proof.
  intros (rest & Hpa & Hlen & Hidx) H. unfold add_avail in H.
  rewrite length_app in Hidx. cbn in Hidx.
  assert (pa_indx st = 2 * Z.of_nat (length pre) + 1) as Hi by lia.
  rewrite flatten_app, <- app_assoc in Hpa. cbn in Hpa. rewrite Hpa, Hi, get_hi in H.
  cbn [mbind outcome_bind] in H. destruct (pa =? e).
  - inv_arith. rewrite set_hi in *. inv_ok. split; [|lia]. exists rest.
    cbn [phys_avail pa_indx]. rewrite flatten_app, <- app_assoc. split; [done|].
    rewrite Hpa in Hlen. split; [by rewrite <- Hlen, !length_app|]. rewrite length_app. cbn. lia.
  - destruct (Z.eqb_spec (2 * Z.of_nat (length pre) + 1 + 1) 60); [inv_ok; split; [done|lia]|].
    rewrite Hpa, length_app, length_flatten in Hlen. cbn in Hlen.
    replace (2 * Z.of_nat (length pre) + 1 + 1) with (2 * Z.of_nat (length (pre ++ [(s, e)]))) in H
      by (rewrite length_app; cbn; lia).
    replace (2 * Z.of_nat (length pre) + 1 + 2) with (2 * Z.of_nat (length (pre ++ [(s, e)])) + 1) in H
      by (rewrite length_app; cbn; lia).
    replace (flatten pre ++ s :: e :: rest) with (flatten (pre ++ [(s, e)]) ++ rest) in H
      by (rewrite flatten_app, <- app_assoc; done).
    destruct rest as [|r0 [|r1 rest]].
    { exfalso. apply bind_Ok in H as (t & Ht & _). apply arr_set_Ok in Ht as [Hb _].
      rewrite !length_app, length_flatten, !length_app in Hb. cbn in Hb. lia. }
    { exfalso. cbn in Hlen. lia. }
    rewrite set_lo in H. cbn [mbind outcome_bind] in H. inv_arith. rewrite set_hi in *. inv_ok.
    split; [|rewrite length_app; cbn; lia]. exists rest. cbn [phys_avail pa_indx].
    rewrite !flatten_app, <- !app_assoc. split; [done|]. cbn in Hlen.
    split; [rewrite length_app, length_flatten; cbn; lia|]. rewrite !length_app. cbn. lia.
Qed.

(** Pages in order, above [lo]. *)
Fixpoint pages_from (lo : Z) (pas : list Z) : Prop :=
  match pas with [] => True | pa :: pas => lo <= pa /\ pages_from (pa + PAGE_SIZE) pas end.

Lemma step_by_pages lo b e : lo <= b -> pages_from lo (step_by b e PAGE_SIZE).
Proof.
  assert (PAGE_SIZE = 16384) as Hps by done.
  remember (Z.to_nat (e - b)) as n eqn:Hn. assert (Z.to_nat (e - b) <= n)%nat as Hle by lia. clear Hn.
  revert lo b Hle. induction n as [|n IH]; intros lo b Hle Hb.
  - by rewrite step_by_nil by lia.
  - destruct (Z_lt_le_dec b e); [|by rewrite step_by_nil by lia].
    rewrite step_by_cons by lia. cbn [pages_from]. split; [done|]. apply IH; lia.
Qed.

(** The addresses of the usable pages of [pas]. *)
Definition in_usable (mi : MemoryInfo) (free x : Z) (pas : list Z) : Prop :=
  Exists (fun pa => @usable Empty_set mi free pa = Ok true /\ pa <= x < pa + PAGE_SIZE) pas.

Lemma avail_ok_snoc st prs : avail_ok st prs -> prs <> [] -> exists pre s e, prs = pre ++ [(s, e)].
Proof. intros _ Hne. destruct prs as [|[s e] pre _] using rev_ind; [done|eauto]. Qed.

(** One page: [full] or the page joins the ranges when it is usable. *)
Lemma add_page_Ok st prs pa st' full :
  avail_ok st prs -> prs <> [] -> blocks_ok 0 prs -> end_of 0 prs <= pa ->
  add_avail st pa = Ok (st', full) ->
  pa_indx st <= pa_indx st'
  /\ if full then st' = st /\ pa_indx st = 59
     else exists prs', avail_ok st' prs' /\ prs' <> [] /\ blocks_ok 0 prs'
       /\ end_of 0 prs' = pa + PAGE_SIZE
       /\ forall x, in_blocks x prs' <-> in_blocks x prs \/ pa <= x < pa + PAGE_SIZE.
Proof.
  intros Hst Hne Hok Hend H. assert (PAGE_SIZE = 16384) as Hps by done.
  destruct (avail_ok_snoc _ _ Hst Hne) as (pre & s & e & ->).
  apply (add_avail_Ok _ _ _ _ _ _ _ Hst) in H. destruct full; [destruct H as [-> H]; done|].
  destruct H as [Hst' Hidx]. split; [done|].
  rewrite end_of_app in Hend. cbn in Hend.
  apply blocks_ok_app in Hok as [Hpre (Hs & Hse & _)].
  destruct (Z.eqb_spec pa e) as [->|Hpe]; eexists; (split; [exact Hst'|]).
  - split; [by intros [_ ?]%app_nil|]. rewrite blocks_ok_app, end_of_app. cbn [blocks_ok end_of foldl fst snd]. split; [split_and!; (done || lia)|].
    split; [done|]. intros x. rewrite !in_blocks_app, !in_blocks_cons. cbn [fst snd]. intuition lia.
  - split; [by intros [_ ?]%app_nil|]. rewrite blocks_ok_app, end_of_app. cbn [blocks_ok end_of foldl fst snd]. split; [split_and!; (done || lia)|].
    split; [done|]. intros x. rewrite !in_blocks_app, !in_blocks_cons. cbn [fst snd]. intuition lia.
Qed.

Lemma add_pages_Ok mi free pas st prs st' :
  avail_ok st prs -> prs <> [] -> blocks_ok 0 prs -> pages_from (end_of 0 prs) pas ->
  add_pages mi free st pas = Ok st' ->
  pa_indx st <= pa_indx st' /\
  exists prs', avail_ok st' prs' /\ prs' <> [] /\ blocks_ok 0 prs'
    /\ (forall hi, end_of 0 prs <= hi -> Forall (fun pa => pa + PAGE_SIZE <= hi) pas -> end_of 0 prs' <= hi)
    /\ (pa_indx st' = 59 \/ forall x, in_blocks x prs' <-> in_blocks x prs \/ in_usable mi free x pas).
Proof.
  revert st prs. induction pas as [|pa pas IH]; intros st prs Hst Hne Hok Hpas H; cbn [add_pages] in H.
  - inv_ok. split; [done|]. exists prs. split_and!; try done. right. intros x.
    unfold in_usable. rewrite Exists_nil. tauto.
  - cbn [pages_from] in Hpas. destruct Hpas as [Hlo Hpas].
    apply bind_Ok in H as (u & Hu & H). apply bind_Ok in H as ([st1 full] & H1 & H).
    apply bind_Ok in H as (st2 & H2 & H). apply add_dump_same in H2 as [Hd1 Hd2].
    destruct u.
    + destruct (memtest mi =? 0); [|done].
      destruct (add_page_Ok _ _ _ _ _ Hst Hne Hok Hlo H1) as [Hi1 Hf]. destruct full.
      * inv_ok. destruct Hf as [-> Hf]. rewrite Hd2. split; [done|]. exists prs.
        split; [unfold avail_ok; by rewrite Hd1, Hd2|]. split_and!; try done. left. lia.
      * destruct Hf as (prs1 & Hst1 & Hne1 & Hok1 & Hend1 & Hx1).
        destruct (IH st2 prs1) as [Hi2 (prs' & Hst' & Hne' & Hok' & Hhi & Hx)]; try done.
        { unfold avail_ok. by rewrite Hd1, Hd2. }
        { by rewrite Hend1. }
        split; [lia|]. exists prs'. split_and!; try done.
        -- intros hi Hhi' [? ?]%Forall_cons. apply Hhi; [lia|done].
        -- destruct Hx as [Hx|Hx]; [by left|right]. intros x. rewrite Hx, Hx1. unfold in_usable.
           rewrite Exists_cons. split; [intros [[?|?]|?]; tauto|intros [?|[[_ ?]|?]]; tauto].
    + inv_ok. destruct (IH st2 prs) as [Hi2 (prs' & Hst' & Hne' & Hok' & Hhi & Hx)]; try done.
      { unfold avail_ok. by rewrite Hd1, Hd2. }
      { assert (PAGE_SIZE = 16384) as Hps by done. clear -Hpas Hlo Hps.
        destruct pas; [done|]. cbn in *. split; [lia|tauto]. }
      split; [lia|]. exists prs'. split_and!; try done.
      * intros hi Hhi' [? ?]%Forall_cons. by apply Hhi.
      * destruct Hx as [Hx|Hx]; [by left|right]. intros x. rewrite Hx. unfold in_usable.
        rewrite Exists_cons. split; [tauto|]. intros [?|[[Hc _]|?]]; [tauto|congruence|tauto].
Qed.

(** The pages of a block that the loop visits. *)
Definition block_pages (mi : MemoryInfo) (b : Z * Z) : list Z :=
  step_by (round_up b.1 PAGE_SIZE)
    (Z.min (Z.land b.2 page_mask) (u64_wrap (Z.shiftl (end_page mi) PAGE_SHIFT))) PAGE_SIZE.

Lemma page_limit mi hi :
  0 <= hi < 2 ^ 64 ->
  Z.land hi page_mask = hi - hi mod PAGE_SIZE
  /\ u64_wrap (Z.shiftl (end_page mi) PAGE_SHIFT) mod PAGE_SIZE = 0.
Proof.
  intros Hhi. split; [by apply (land_high hi 14)|].
  unfold u64_wrap. rewrite Z.shiftl_mul_pow2 by done. change PAGE_SIZE with (2 ^ 14).
  change (2 ^ 64) with (2 ^ 14 * 2 ^ 50). change PAGE_SHIFT with 14.
  rewrite Z.rem_mul_r, Z.mod_mul, Z.add_0_l, Z.mul_comm, Z.mod_mul by lia. done.
Qed.

(** The visited pages are whole pages of the block. *)
Lemma elem_of_block_pages mi b pa :
  0 <= b.2 < 2 ^ 64 ->
  pa ∈ block_pages mi b
  <-> pa mod PAGE_SIZE = 0 /\ b.1 <= pa /\ pa + PAGE_SIZE <= b.2
     /\ pa < u64_wrap (Z.shiftl (end_page mi) PAGE_SHIFT).
Proof.
  intros Hb. destruct (page_limit mi b.2 Hb) as [Hland Hw]. assert (PAGE_SIZE = 16384) as Hps by done.
  unfold block_pages. rewrite Hland.
  destruct (round_up_spec b.1 PAGE_SIZE) as [Hr1 Hr2]; [lia|].
  rewrite elem_of_step_by by lia. pose proof (Z.mod_pos_bound b.2 PAGE_SIZE).
  pose proof (Z.div_mod b.2 PAGE_SIZE). 
  assert (forall q, (q - round_up b.1 PAGE_SIZE) mod PAGE_SIZE = 0 <-> q mod PAGE_SIZE = 0) as Hm.
  { intros q. rewrite Zminus_mod, Hr2, Z.sub_0_r, Z.mod_mod by lia. done. }
  rewrite Hm. split.
  - intros [Hlo Hal]. split; [done|]. split; [lia|]. split; [|lia].
    assert (pa + PAGE_SIZE <= b.2 - b.2 mod PAGE_SIZE); [|lia].
    apply mult_gap; [lia|done| |lia]. rewrite Zminus_mod_idemp_r, Z.sub_diag. done.
  - intros (Hal & Hlo & Hhi & Hw'). split; [|done]. split.
    + destruct (Z.le_gt_cases (round_up b.1 PAGE_SIZE) pa) as [?|Hgt]; [done|].
      assert (pa + PAGE_SIZE <= round_up b.1 PAGE_SIZE) by (apply mult_gap; (done || lia)). lia.
    + assert (pa < b.2 - b.2 mod PAGE_SIZE); [|lia].
      apply Z.mod_divide in Hal as [q ->]; [|lia].
      assert (q < b.2 / PAGE_SIZE); [|nia]. 
      assert (q + 1 <= b.2 / PAGE_SIZE); [|lia]. apply Z.div_le_lower_bound; lia.
Qed.

Lemma block_idxs_seq n :
  block_idxs (2 * Z.of_nat n - 2) = (fun k : nat => 2 * Z.of_nat k) <$> seq 0 n.
Proof.
  unfold block_idxs, step_by, seqZ.
  replace ((2 * Z.of_nat n - 2 + 1 - 0 + 2 - 1) / 2) with (Z.of_nat n)
    by (replace (2 * Z.of_nat n - 2 + 1 - 0 + 2 - 1) with (Z.of_nat n * 2) by lia; by rewrite Z.div_mul).
  rewrite Nat2Z.id, <- list_fmap_compose. apply list_fmap_ext. intros i k _. cbn. lia.
Qed.

Lemma add_blocks_Ok mi free pre post rest st prs st' :
  physmap mi = flatten (pre ++ post) ++ rest -> blocks_ok (end_of 0 prs) post ->
  Forall (fun b => 0 <= b.2 < 2 ^ 64) post ->
  avail_ok st prs -> prs <> [] -> blocks_ok 0 prs ->
  add_blocks mi free st ((fun k : nat => 2 * Z.of_nat k) <$> seq (length pre) (length post)) = Ok st' ->
  pa_indx st <= pa_indx st' /\
  exists prs', avail_ok st' prs' /\ blocks_ok 0 prs'
    /\ (pa_indx st' = 59 \/ forall x, in_blocks x prs'
         <-> in_blocks x prs \/ Exists (fun b => in_usable mi free x (block_pages mi b)) post).
Proof.
  intros Hpm. revert pre st prs Hpm.
  induction post as [|[s e] post IH]; intros pre st prs Hpm Hok Hmax Hst Hne Hprs H.
  - cbn in H. injection H as <-. split; [done|]. exists prs. split_and!; try done. right. intros x.
    rewrite Exists_nil. tauto.
  - cbn [length seq] in H. rewrite fmap_cons in H. cbn [add_blocks] in H.
    rewrite Hpm, flatten_app, flatten_cons, <- app_assoc in H. cbn [fst snd app] in H.
    rewrite get_lo, get_hi in H. cbn [mbind outcome_bind] in H.
    apply bind_Ok in H as (begin & Hbegin & H). apply unwrap_or_panic_Ok in Hbegin.
    apply checked_next_multiple_of_Some in Hbegin as (_ & -> & _).
    apply bind_Ok in H as (st1 & H1 & H). change (add_pages mi free st (block_pages mi (s, e)) = Ok st1) in H1.
    apply Forall_cons in Hmax as [Hmax1 Hmax]. cbn [snd] in Hmax1.
    cbn [blocks_ok] in Hok. destruct Hok as (Hlo & Hse & Hok).
    assert (PAGE_SIZE = 16384) as Hps by done.
    destruct (round_up_spec s PAGE_SIZE) as [Hr _]; [lia|].
    destruct (add_pages_Ok mi free (block_pages mi (s, e)) st prs st1 Hst Hne Hprs
      (step_by_pages (end_of 0 prs) (round_up s PAGE_SIZE) _ ltac:(lia)) H1)
      as [Hi1 (prs1 & Hst1 & Hne1 & Hok1 & Hend1 & Hx1)].
    specialize (Hend1 e ltac:(lia)).
    assert (end_of 0 prs1 <= e) as He1.
    { apply Hend1, Forall_forall. intros pa Hpa. apply elem_of_block_pages in Hpa; cbn in *; lia. }
    destruct (IH (pre ++ [(s, e)]) st1 prs1) as [Hi2 (prs' & Hst' & Hok' & Hx')]; try done.
    { by rewrite <- app_assoc. }
    { by eapply blocks_ok_le. }
    { rewrite length_app. cbn [length]. by replace (length pre + 1)%nat with (S (length pre)) by lia. }
    split; [lia|]. exists prs'. split; [done|]. split; [done|].
    assert (pa_indx st' <= 59) as Hle59.
    { destruct Hst' as (r & Hr' & Hl' & ->). rewrite Hr', length_app, length_flatten in Hl'. lia. }
    destruct Hx1 as [Hx1|Hx1]; [left; lia|]. destruct Hx' as [Hx'|Hx']; [by left|right].
    intros x. rewrite Hx', Hx1, Exists_cons. tauto.
Qed.

Lemma initial_avail_ok : avail_ok initial_avail [(PAGE_SIZE, PAGE_SIZE)].
Proof. by exists (replicate 59 0). Qed.

(** An array access that the sum makes. *)
Lemma sum_blocks_Ok pm idxs size boot r i :
  sum_blocks pm idxs size boot = Ok r -> i ∈ idxs -> exists v, @arr_get Empty_set _ pm i = Ok v.
Proof.
  revert size boot. induction idxs as [|j idxs IH]; intros size boot H Hi; [by apply not_elem_of_nil in Hi|].
  cbn in H. inv_ok. apply elem_of_cons in Hi as [->|Hi]; [eauto|]. by eapply IH.
Qed.

Lemma not_Ok_Panic {A} (m : outcome Empty_set A) : (forall a, m <> Ok a) -> exists p, m = Panic p.
Proof. intros H. destruct m as [a|[]|p]; [by destruct (H a)|eauto]. Qed.

(** The memory map of a machine with 8 GiB. *)
Definition demo_map : list PhysMap :=
  [Map 0 0x100000 MtRam; Map 0x100000 0x300000 MtReserved;
   Map 0x400000 (0x200000000 - 0x400000) MtRam; Map 0 0 MtNone].

Definition demo_kconfig : KConfig :=
  {| k_max_cpu := 8; k_unknown_dmem1 := 0; k_idps := ConsoleId_default; k_qa := false;
     k_qa_flags := replicate 16 0; k_env_vars := [(memtest_key, memtest_default)] |}.

(** A map of 32 RAM entries of 16 pages with a hole behind each. *)
Definition demo_holes : list PhysMap :=
  (fun i => Map (i * 0x80000) 0x40000 MtRam) <$> seqZ 0 32.

(** A machine with a megabyte of memory above the kernel. *)
Definition demo_info : MemoryInfo :=
  {| physmap := [PAGE_SIZE; 0xF0000; 0x400000; 0x500000] ++ replicate 56 0; physmap_last := 2;
     boot_area := 1024; boot_info := Boot 0xFC000 0xF0000; dcons_addr := 0; dcons_size := 0;
     initial_memory_size := 0; end_page := 0x140; unk := 2; paddr_free := 0x400000; memtest := 0 |}.

Lemma blocks_starts lo bs b : blocks_ok lo bs -> b ∈ bs -> lo <= b.1 <= b.2.
Proof.
  revert lo. induction bs as [|[s e] bs IH]; intros lo Hok Hb; [by apply not_elem_of_nil in Hb|].
  cbn in Hok. destruct Hok as (? & ? & Hok). apply elem_of_cons in Hb as [->|Hb]; [cbn; lia|].
  specialize (IH _ Hok Hb). lia.
Qed.

(** ** Properties *)

(** On a memory map whose RAM entries are in order and do not overlap, and
    which has fewer than 30 gaps, the table that the kernel builds is sorted
    and holds exactly the addresses of the RAM entries. *)
Theorem load_entries_spec map :
  ascending 0 (rams map) -> (gaps 0 (rams map) < 30)%nat ->
  exists pm last bs, load_entries (replicate 60 0) 0 map = Ok (pm, last)
    /\ array_blocks pm last bs /\ blocks_ok 0 bs
    /\ forall x, in_blocks x bs <-> in_ram x (rams map).
Proof.
  intros Hasc Hg. rewrite load_entries_rams.
  pose proof (load_entries_asc (rams map) _ _ [] 0 0 (rams_forall map) initial_table) as H.
  specialize (H ltac:(done) Hasc ltac:(cbn; lia)). rewrite decide_True in H by (cbn [length Nat.add]; lia).
  destruct H as (pm & last & bs & H & [Ht _] & Hok & Hx). exists pm, last, bs.
  split; [done|]. split; [done|]. split; [done|]. intros x. rewrite Hx. cbn [app].
  rewrite in_blocks_cons. cbn. split; [intros [[?|?%in_blocks_nil]|?]; [lia|done..]|by right].
Qed.

Lemma load_entries_spec_witness :
  exists pm last bs, load_entries (replicate 60 0) 0 demo_map = Ok (pm, last)
    /\ array_blocks pm last bs /\ blocks_ok 0 bs
    /\ forall x, in_blocks x bs <-> in_ram x (rams demo_map).
Proof. apply (load_entries_spec demo_map); [vm_compute; repeat split; discriminate|apply Nat.ltb_lt; reflexivity]. Defined.

(** With 30 gaps or more the loop gives up but leaves [last] behind the
    end of the array, so that the kernel panics instead of booting with the
    memory it has found. *)
Theorem too_many_segments a kc map paddr_free :
  ascending 0 (rams map) -> (30 <= gaps 0 (rams map))%nat ->
  exists p, load_memory_map a kc map paddr_free = Panic p.
Proof.
  intros Hasc Hg. pose proof (load_entries_rams (replicate 60 0) 0 map) as Hr.
  pose proof (load_entries_asc (rams map) _ _ [] 0 0 (rams_forall map) initial_table) as H.
  specialize (H ltac:(done) Hasc ltac:(cbn; lia)). rewrite decide_False in H by (cbn [length Nat.add]; lia).
  destruct H as (pm & H & Hlen). unfold load_memory_map. rewrite Hr, H. cbn [mbind outcome_bind].
  apply not_Ok_Panic. intros mi Hmi. do 2 apply bind_Ok in Hmi as (? & _ & Hmi).
  apply bind_Ok in Hmi as (r & Hs & _).
  apply sum_blocks_Ok with (i := 60) in Hs as [v Hv].
  - apply arr_get_Ok in Hv as [_ Hv]. apply lookup_lt_Some in Hv. lia.
  - apply elem_of_step_by; [lia|]. done.
Qed.

Lemma too_many_segments_witness :
  exists p, load_memory_map (Arch 2 None) demo_kconfig demo_holes 0 = Panic p.
Proof.
  apply (too_many_segments (Arch 2 None) demo_kconfig demo_holes 0).
  - vm_compute. repeat split; discriminate.
  - apply Nat.leb_le. vm_compute. reflexivity.
Defined.

(** Unless the table of ranges is full, [phys_avail] holds exactly the
    whole pages of [physmap] that lie below the end of memory, outside of the
    kernel and outside of the console buffer. *)
Theorem phys_avail_spec mi free bs st :
  array_blocks (physmap mi) (physmap_last mi) bs -> blocks_ok PAGE_SIZE bs ->
  Forall (fun b => b.2 < 2 ^ 64) bs ->
  add_blocks mi free initial_avail (block_idxs (physmap_last mi)) = Ok st -> pa_indx st < 59 ->
  exists prs, avail_ok st prs /\ blocks_ok 0 prs
    /\ forall pa, pa mod PAGE_SIZE = 0 ->
         in_blocks pa prs
         <-> @usable Empty_set mi free pa = Ok true /\ pa < u64_wrap (Z.shiftl (end_page mi) PAGE_SHIFT)
            /\ exists b, b ∈ bs /\ b.1 <= pa /\ pa + PAGE_SIZE <= b.2.
Proof.
  intros [rest [Hpm Hlast]] Hok Hmax H Hfull. rewrite Hlast, block_idxs_seq in H.
  assert (PAGE_SIZE = 16384) as Hps by done.
  assert (Forall (fun b => 0 <= b.2 < 2 ^ 64) bs) as Hmax'.
  { apply Forall_forall. intros b Hb. rewrite Forall_forall in Hmax. specialize (Hmax b Hb).
    pose proof (blocks_starts _ _ _ Hok Hb). lia. }
  destruct (add_blocks_Ok mi free [] bs rest initial_avail [(PAGE_SIZE, PAGE_SIZE)] st Hpm Hok Hmax'
    initial_avail_ok ltac:(done) ltac:(done) H) as [_ (prs & Hst & Hprs & [?|Hx])]; [lia|].
  exists prs. split; [done|]. split; [done|]. intros pa Hpa. rewrite Hx, in_blocks_cons. cbn [fst snd].
  rewrite Forall_forall in Hmax'. rewrite Exists_exists. split.
  - intros [[?|?%in_blocks_nil]|(b & Hb & Hu)]; [lia|done|].
    unfold in_usable in Hu. apply Exists_exists in Hu as (pa' & Hin & Hu & Hr).
    apply elem_of_block_pages in Hin as (Hal & Hlo & Hhi & Hw); [|by apply Hmax'].
    assert (pa' = pa) as ->.
    { pose proof (mult_gap pa' pa PAGE_SIZE). lia. }
    split; [done|]. split; [done|]. by exists b.
  - intros (Hu & Hw & b & Hb & Hlo & Hhi). right. exists b. split; [done|].
    apply Exists_exists. exists pa. split; [|split; [done|lia]].
    apply elem_of_block_pages; [by apply Hmax'|done].
Qed.

Lemma phys_avail_spec_witness :
  exists st prs, add_blocks demo_info 0x400000 initial_avail (block_idxs 2) = Ok st
    /\ avail_ok st prs /\ blocks_ok 0 prs /\ in_blocks 0x400000 prs.
Proof.
  destruct (add_blocks demo_info 0x400000 initial_avail (block_idxs 2)) as [st| |] eqn:H;
    [|vm_compute in H; discriminate H..].
  destruct (phys_avail_spec demo_info 0x400000 [(PAGE_SIZE, 0xF0000); (0x400000, 0x500000)] st)
    as (prs & Hst & Hok & Hx).
  - exists (replicate 56 0). split; reflexivity.
  - vm_compute. repeat split; discriminate.
  - repeat constructor.
  - exact H.
  - vm_compute in H. injection H as <-. reflexivity.
  - exists st, prs. split; [reflexivity|]. split; [exact Hst|]. split; [exact Hok|].
    apply Hx; [reflexivity|]. split; [reflexivity|]. split; [reflexivity|].
    exists (0x400000, 0x500000). split; [right; left|split; discriminate].
Defined.

End PhysMemProps.
