(* ===== verification/Dmem.v ===== *)
(** * Direct memory

    Models [kernel/src/dmem/mod.rs]: the kernel takes large aligned ranges of
    physical memory for direct memory out of [physmap] and returns part of
    them. *)
From S2P Require Import Prelude Env PhysMem.

Module Dmem.
Import Env PhysMem.
Local Open Scope string_scope.
Local Open Scope list_scope.
Local Open Scope Z_scope.

(** ** Data *)

Record DmemConfig := DC {
  name : string;
  game_size : Z;
  fmem_max : Z;
  mini_size : Z;
  mini_shared : bool;
  vsh_size : Z;
  unk1 : Z
}.

Record t := Mk { mode : Z; config : DmemConfig; game_end : Z }.

Definition DMEM_CONFIGS : list (option DmemConfig) := [
  Some (DC "BC8 normal" 0x148000000 0x40000000 0x30000000 true 0x17C00000 0x13600000);
  Some (DC "BC8 large" 0x170000000 0x40000000 0x30000000 true 0x16C00000 0);
  None;
  Some (DC "BC8 kratos" 0x148000000 0x40000000 0 false 0x1CA00000 0xA00000);
  Some (DC "BC8 release" 0x148000000 0x40000000 0x30000000 false 0x1A800000 0xA00000);
  Some (DC "BC8 CS" 0x124000000 0x4000000 0x58800000 false 0x28200000 0);
  None;
  None;
  Some (DC "BC16 normal" 0x148000000 0x40000000 0x30000000 false 0x1C200000 0x17FB00000);
  Some (DC "BC16 large" 0x28C000000 0x5C000000 0x30000000 false 0x1B200000 0x3CB00000);
  Some (DC "BC16 mini-app large" 0x148000000 0x40000000 0x48000000 false 0x19600000 0x13A700000);
  Some (DC "BC16 kratos" 0x148000000 0x40000000 0 false 0x1CA00000 0x1F3C00000);
  Some (DC "BC16 release" 0x148000000 0x40000000 0x30000000 false 0x1C200000 0x1FF600000);
  Some (DC "BC16 CS" 0x324000000 0x4000000 0x58000000 false 0x28000000 0);
  None;
  None;
  Some (DC "GL8 normal" 0x170000000 0x40000000 0x70000000 true 0x27C00000 0);
  None;
  None;
  Some (DC "GL8 kratos" 0x170000000 0x40000000 0x70000000 true 0x27C00000 0xA00000);
  Some (DC "GL8 release" 0x170000000 0x40000000 0x70000000 true 0x28000000 0xA00000)].

(** ** Reserving physical memory *)

(** [copy_within(lo..hi, dest)]. *)
Definition copy_within (l : list Z) (lo hi dest : Z) : res (list Z) :=
  panic_if ((hi <? lo) || (Z.of_nat (length l) <? hi)
            || (Z.of_nat (length l) <? dest + (hi - lo))) PIndex;;
  let lo := Z.to_nat lo in
  let hi := Z.to_nat hi in
  let dest := Z.to_nat dest in
  Ok (take dest l ++ take (hi - lo) (drop lo l) ++ drop (dest + (hi - lo)) l).

(** [(-align) as u64]. *)
Definition align_mask (align : Z) : Z := u64_wrap (- align).

(** What is left of block [i] when [addr..aligned_end] is taken out of it. *)
Definition take_block (mi : MemoryInfo) (i start end_ addr aligned_end : Z) : res MemoryInfo :=
  let pm := physmap mi in
  let last := physmap_last mi in
  if (addr =? start) && (aligned_end =? end_) then
    (* This takes the whole block. *)
    pm ← copy_within pm (i + 2) (Z.of_nat (length pm)) i;
    last ← usub last 2;
    Ok (set_physmap pm last mi)
  else if negb (addr =? start) && negb (aligned_end =? end_) then
    (* This creates a hole in the block. *)
    pm ← copy_within pm i (last + 2) (i + 2);
    pm ← arr_set pm (i + 1) addr;
    pm ← arr_set pm (i + 2) aligned_end;
    Ok (set_physmap pm (last + 2) mi)
  else if negb (addr =? start) then
    (* This takes the end of the block. *)
    assert_that (aligned_end =? end_);;
    pm ← arr_set pm (i + 1) addr;
    Ok (set_physmap pm last mi)
  else
    (* Take the start of the block. *)
    pm ← arr_set pm i aligned_end;
    Ok (set_physmap pm last mi).

(** The loop of [reserve_phys] from block [i] downwards. *)
Fixpoint reserve_loop (fuel : nat) (mi : MemoryInfo) (size align i : Z) : res (Z * MemoryInfo) :=
  match fuel with
  | O => Panic PUnreachable
  | S fuel =>
      start ← arr_get (physmap mi) i;
      end_ ← arr_get (physmap mi) (i + 1);
      d ← usub end_ size;
      let addr := Z.land d (align_mask align) in
      if start <=? addr then
        aligned_end ← uadd addr size;
        mi' ← take_block mi i start end_ addr aligned_end;
        Ok (addr, mi')
      else if i <? 2 then Ok (0, mi)
      else reserve_loop fuel mi size align (i - 2)
  end.

Definition reserve_phys (mi : MemoryInfo) (size align : Z) : res (Z * MemoryInfo) :=
  reserve_loop (S (Z.to_nat (physmap_last mi))) mi size align (physmap_last mi).

(** ** Returning memory *)

(** The first block after block 0 that does not start below [start]; the
    flag says whether there is one. *)
Fixpoint find_block (fuel : nat) (mi : MemoryInfo) (start idx : Z) : res (Z * bool) :=
  match fuel with
  | O => Panic PUnreachable
  | S fuel =>
      if physmap_last mi <? idx then Ok (idx, false)
      else
        s ← arr_get (physmap mi) idx;
        if start <=? s then Ok (idx, true) else find_block fuel mi start (idx + 2)
  end.

Definition adjust_pmap (mi : MemoryInfo) (start end_ : Z) : res MemoryInfo :=
  s0 ← arr_get (physmap mi) 0;
  if s0 <? start then
    '(idx, found) ← find_block (Z.to_nat (physmap_last mi) + 2) mi start 2;
    empty ←
      (if found : bool then
         s ← arr_get (physmap mi) idx;
         e ← arr_get (physmap mi) (idx - 1);
         panic_if ((e =? start) && (s =? end_)) PTodo;;
         Ok (s =? end_)
       else Ok false);
    e ← arr_get (physmap mi) (idx - 1);
    panic_if (e =? start) PTodo;;
    if negb empty then
      if negb found then
        pm ← arr_set (physmap mi) idx start;
        pm ← arr_set pm (Z.lor idx 1) end_;
        Ok (set_physmap pm (physmap_last mi + 2) mi)
      else Panic PTodo
    else
      pm ← arr_set (physmap mi) idx start;
      Ok (set_physmap pm (physmap_last mi) mi)
  else Panic PTodo.

(** ** Initialisation *)

Definition load_mode (kc : KConfig) (mi : MemoryInfo) : res Z :=
  v ←
    (if k_unknown_dmem1 kc =? 0 then
       d97 ← dipsw kc;
       if d97 : bool then Ok 3
       else
         d0 ← dipsw kc;
         sel ← (if d0 : bool then d24 ← dipsw kc; Ok (negb d24) else Ok false);
         if sel : bool then
           d16 ← dipsw kc;
           d17 ← (if d16 : bool then dipsw kc else Ok false);
           if d17 && (Z.land (unk mi) 3 =? 3) then Ok 6 else Panic PTodo
         else Ok 4
     else Ok 5);
  Ok (v + unk mi * 8).

(** [mask & (1 << mode) != 0]; a shift of 64 or more panics. *)
Definition has_mode (mask mode : Z) : res bool :=
  panic_if (64 <=? mode) POverflow;;
  Ok (negb (Z.land mask (Z.shiftl 1 mode) =? 0)).

(** [reserve_phys] with the panic on a zero result. *)
Definition reserve_or_panic (msg : string) (mi : MemoryInfo) (size align : Z)
    : res (Z * MemoryInfo) :=
  '(addr, mi) ← reserve_phys mi size align;
  panic_if (addr =? 0) (PExplicit msg);;
  Ok (addr, mi).

(** The loop that reserves [unk] bytes in pieces. *)
Fixpoint reserve_pieces (fuel : nat) (mi : MemoryInfo) (unk : Z) : res MemoryInfo :=
  match fuel with
  | O => Panic PUnreachable
  | S fuel =>
      let '(size, align) := if unk <? 0x200000 then (unk, 0x4000) else (0x200000, 0x200000) in
      panic_if (size =? 0) PUnwrap;;
      '(_, mi) ← reserve_or_panic "failed to reserve memory" mi size align;
      unk ← usub unk size;
      if unk =? 0 then Ok mi else reserve_pieces fuel mi unk
  end.

Definition new (kc : KConfig) (mi : MemoryInfo) : res (t * MemoryInfo) :=
  '(haddr, mi) ← reserve_or_panic "no available memory for high-address memory" mi 0x1000000 1;
  mode ← load_mode kc mi;
  b ← has_mode 0x80C6C0C4 mode;
  panic_if b (PExplicit "game DMEM size is not configured");;
  dc ← arr_get DMEM_CONFIGS mode;
  dc ← unwrap_or_panic PUnwrap dc;
  '(game, mi) ← reserve_or_panic "not enough memory for game DMEM" mi (game_size dc) 0x8000000;
  game_end ← uadd game (game_size dc);
  b ← has_mode 0x7F393733 mode;
  (if b : bool then
     let align := if k_unknown_dmem1 kc =? 0 then 0x8000000 else 0x200000 in
     mini ←
       (if mini_shared dc then
          s ← uadd (fmem_max dc) (mini_size dc);
          d ← usub game_end s;
          Ok (Z.land (align_mask align) d)
        else Panic PTodo);
     panic_if (mini =? 0) (PExplicit "not enough memory for mini-app DMEM")
   else Ok tt);;
  b ← has_mode 0x7F393F3B mode;
  mi ←
    (if b : bool then
       '(_, mi) ← reserve_or_panic "not enough memory for VSH DMEM" mi (vsh_size dc) 0x200000;
       Ok mi
     else Ok mi);
  b ← has_mode 0x47000703 mode;
  panic_if b PTodo;;
  b ← has_mode 0x47010703 mode;
  panic_if b PTodo;;
  '(_, mi) ← reserve_or_panic "not enough memory for vision DMEM" mi 0x1000000 0x200000;
  b ← has_mode (0x80C6C0C4 + 0x20212022) mode;
  mi ←
    (if negb b then reserve_pieces (Z.to_nat (unk1 dc / 0x200000) + 2) mi (unk1 dc) else Ok mi);
  fstart ← usub game_end (fmem_max dc);
  mi ← adjust_pmap mi fstart game_end;
  hend ← uadd haddr 0xC00000;
  hend ← uadd hend (if unk mi =? 0 then 0 else 0x400000);
  mi ← adjust_pmap mi haddr hend;
  hi ← arr_get (physmap mi) (physmap_last mi + 1);
  Ok (Mk mode dc game_end, set_end_page (Z.shiftr hi PAGE_SHIFT) mi).

End Dmem.
