(* ===== verification/DmemProps.v ===== *)
(** * Correctness of the reservation of direct memory *)
From S2P Require Import Prelude Env Blocks PhysMem PhysMemProps Dmem.

Module DmemProps.
Import Env Blocks PhysMem Dmem.

(** ** Alignment *)

Lemma land_align d a : 0 <= a < 64 -> 0 <= d < 2 ^ 64 -> Z.land d (align_mask (2 ^ a)) = d - d mod 2 ^ a.
Proof.
  intros Ha Hd. rewrite <- land_high by done. f_equal. unfold align_mask, u64_wrap.
  assert (0 < 2 ^ a) by (apply Z.pow_pos_nonneg; lia).
  assert (2 ^ a < 2 ^ 64) by (apply Z.pow_lt_mono_r; lia).
  symmetry. apply (Z.mod_unique _ _ (-1)); lia.
Qed.

(** ** The table *)

(** The table holds the blocks [bs]. *)
Record repr (mi : MemoryInfo) (bs : list (Z * Z)) : Prop := {
  repr_rest : exists rest, physmap mi = flatten bs ++ rest;
  repr_len : length (physmap mi) = 60%nat;
  repr_last : physmap_last mi = 2 * Z.of_nat (length bs) - 2;
  repr_ne : bs <> []
}.

(** The rest of a block; nothing when it is empty. *)
Definition piece (a b : Z) : list (Z * Z) := if a =? b then [] else [(a, b)].

Lemma copy_down pre s e rest :
  length (flatten pre ++ s :: e :: rest) = 60%nat ->
  copy_within (flatten pre ++ s :: e :: rest) (2 * Z.of_nat (length pre) + 2) 60
    (2 * Z.of_nat (length pre))
  = Ok (flatten pre ++ rest ++ drop 58 (flatten pre ++ s :: e :: rest)).
Proof.
  intros Hl. pose proof Hl as Hl'. rewrite length_app, length_flatten in Hl'. cbn in Hl'.
  unfold copy_within, panic_if. rewrite Hl.
  destruct (_ || _ || _) eqn:Hc; [exfalso|].
  { repeat (apply orb_true_iff in Hc as [Hc|Hc]); apply Z.ltb_lt in Hc; lia. }
  cbn [mbind outcome_bind]. f_equal.
  replace (Z.to_nat (2 * Z.of_nat (length pre))) with (length (flatten pre)) by (rewrite length_flatten; lia).
  rewrite take_app_length. f_equal. f_equal; [|f_equal; rewrite length_flatten; lia].
  rewrite drop_app_ge by (rewrite length_flatten; lia).
  replace (_ - length (flatten pre))%nat with 2%nat by (rewrite length_flatten; lia).
  cbn [drop]. apply take_ge. lia.
Qed.

Lemma copy_up pre s e post rest l :
  let src := flatten pre ++ s :: e :: flatten post ++ rest in
  length src = 60%nat ->
  copy_within src (2 * Z.of_nat (length pre)) (2 * Z.of_nat (length pre + 1 + length post))
    (2 * Z.of_nat (length pre) + 2) = Ok l ->
  l = flatten pre ++ s :: e :: s :: e :: flatten post ++ drop 2 rest /\ (2 <= length rest)%nat.
Proof.
  intros src Hl H. unfold copy_within in H. inv_ok.
  repeat match goal with Hc : (_ || _) = false |- _ => apply orb_false_iff in Hc as [? ?] end.
  bool_to_prop. pose proof Hl as Hl'. unfold src in Hl'. rewrite length_app in Hl'. cbn in Hl'.
  rewrite length_app, !length_flatten in Hl'. rewrite Hl in *. split; [|lia].
  replace (Z.to_nat (2 * Z.of_nat (length pre))) with (length (flatten pre)) by (rewrite length_flatten; lia).
  replace (Z.to_nat (2 * Z.of_nat (length pre) + 2)) with (length (flatten pre) + 2)%nat by (rewrite length_flatten; lia).
  replace (Z.to_nat (2 * Z.of_nat (length pre + 1 + length post)))
    with (length (flatten pre) + (2 + length (flatten post)))%nat by (rewrite !length_flatten; lia).
  replace (length (flatten pre) + (2 + length (flatten post)) - length (flatten pre))%nat
    with (2 + length (flatten post))%nat by lia.
  unfold src. rewrite drop_app_length. cbn [take Nat.add].
  rewrite take_app_length.
  rewrite take_app_ge by lia. replace (_ + 2 - _)%nat with 2%nat by lia. cbn [take].
  rewrite <- app_assoc. cbn [app]. do 5 f_equal. cbn [take app].
  rewrite (drop_app_ge (flatten pre)) by lia.
  replace (_ - _)%nat with (S (S (length (flatten post) + 2))) by lia. cbn [drop]. rewrite take_0. cbn [app]. do 3 f_equal.
  rewrite drop_app_ge by lia. f_equal. lia.
Qed.

(** The table changes in nothing else. *)
Definition same_info (mi mi' : MemoryInfo) : Prop :=
  mi' = set_physmap (physmap mi') (physmap_last mi') mi.

Lemma take_block_Ok mi pre s e post addr ae mi' :
  repr mi (pre ++ (s, e) :: post) ->
  take_block mi (2 * Z.of_nat (length pre)) s e addr ae = Ok mi' ->
  repr mi' (pre ++ piece s addr ++ piece ae e ++ post) /\ same_info mi mi'.
Proof.
  intros [[rest Hpm] Hlen Hlast _] H. rewrite flatten_app, flatten_cons, <- app_assoc in Hpm.
  cbn [fst snd app] in Hpm. rewrite length_app in Hlast. cbn [length] in Hlast.
  unfold take_block in H. rewrite Hlen in H. unfold piece. rewrite (Z.eqb_sym s addr).
  rewrite Hpm in Hlen, H.
  destruct (addr =? s) eqn:Hs, (ae =? e) eqn:He; cbn [andb negb] in H; inv_ok.
  - rewrite copy_down in * by done. inv_arith. split; [|done]. split; cbn [set_physmap physmap physmap_last].
    + rewrite flatten_app. eexists. by rewrite <- !app_assoc.
    + rewrite !length_app, length_drop, Hlen. rewrite !length_app in Hlen. cbn in Hlen.
      rewrite length_app in Hlen. lia.
    + cbn [app]. rewrite length_app. lia.
    + cbn [app]. intros [-> ->]%app_nil. cbn in *. lia.
  - rewrite set_lo in *. inv_ok. split; [|done]. split; cbn [set_physmap physmap physmap_last].
    + rewrite flatten_app. cbn. eexists. by rewrite <- !app_assoc.
    + rewrite <- Hlen, !length_app. done.
    + cbn [app]. rewrite length_app. cbn. lia.
    + by intros [_ ?]%app_nil.
  - rewrite set_hi in *. inv_ok. split; [|done]. split; cbn [set_physmap physmap physmap_last].
    + rewrite flatten_app. cbn. eexists. by rewrite <- !app_assoc.
    + rewrite <- Hlen, !length_app. done.
    + cbn [app]. rewrite length_app. cbn. lia.
    + by intros [_ ?]%app_nil.
  - replace (physmap_last mi + 2) with (2 * Z.of_nat (length pre + 1 + length post)) in * by lia.
    lazymatch goal with Hc : copy_within _ _ _ _ = _ |- _ => destruct (copy_up _ _ _ _ _ _ Hlen Hc) as [-> Hr2]; clear Hc end.
    rewrite set_hi in *. inv_ok.
    lazymatch goal with Hc : arr_set _ _ _ = Ok _ |- _ => revert Hc end.
    replace (2 * Z.of_nat (length pre) + 2) with (2 * Z.of_nat (length (pre ++ [(s, addr)])))
      by (rewrite length_app; cbn; lia).
    replace (flatten pre ++ s :: addr :: s :: e :: flatten post ++ drop 2 rest)
      with (flatten (pre ++ [(s, addr)]) ++ s :: e :: flatten post ++ drop 2 rest)
      by (rewrite flatten_app; cbn; by rewrite <- app_assoc).
    rewrite set_lo. intros [= <-].
    split; [|done]. split; cbn [set_physmap physmap physmap_last].
    + rewrite !flatten_app. cbn. eexists. by rewrite <- !app_assoc.
    + rewrite flatten_app, !length_app in *. cbn in *. rewrite length_app in *.
      rewrite length_drop. lia.
    + cbn [app]. rewrite length_app. cbn. lia.
    + by intros [_ ?]%app_nil.
Qed.

(** ** The loop *)

(** Block [b] has room for [size] bytes at an aligned address. *)
Definition fits (size a : Z) (b : Z * Z) : Prop :=
  b.1 <= b.2 - size - (b.2 - size) mod 2 ^ a.

(** A successful reservation of [addr .. addr + size] out of [bs]. *)
Definition reserved (bs bs' : list (Z * Z)) (size a addr : Z) : Prop :=
  exists pre s e post,
    bs = pre ++ (s, e) :: post
    /\ s <= addr /\ addr + size <= e /\ addr mod 2 ^ a = 0
    /\ bs' = pre ++ piece s addr ++ piece (addr + size) e ++ post.

Lemma reserve_loop_Ok fuel mi bs lower b upper size a i addr mi' :
  repr mi bs -> bs = lower ++ b :: upper -> i = 2 * Z.of_nat (length lower) ->
  Forall (fun b => b.2 < 2 ^ 64) bs -> 0 < size -> 0 <= a < 64 ->
  reserve_loop fuel mi size (2 ^ a) i = Ok (addr, mi') ->
  (addr = 0 /\ mi' = mi /\ Forall (fun b => size <= b.2 /\ ~ fits size a b) (lower ++ [b]))
  \/ exists bs', reserved bs bs' size a addr /\ repr mi' bs' /\ same_info mi mi'.
Proof.
  intros Hrep -> -> Hmax Hsz Ha. revert lower b upper Hrep Hmax.
  induction fuel as [|fuel IH]; intros lower [s e] upper Hrep Hmax H; [done|]. cbn [reserve_loop] in H.
  destruct (repr_rest _ _ Hrep) as [rest Hpm].
  rewrite flatten_app, flatten_cons, <- app_assoc in Hpm. cbn [fst snd app] in Hpm.
  rewrite Hpm, get_lo, get_hi in H. cbn [mbind outcome_bind] in H.
  apply bind_Ok in H as (d & [-> Hd]%usub_Ok & H).
  assert (e < 2 ^ 64) as He64.
  { rewrite Forall_app, Forall_cons in Hmax. cbn in Hmax. tauto. }
  assert (0 < 2 ^ a) by (apply Z.pow_pos_nonneg; lia).
  pose proof (Z.mod_pos_bound (e - size) (2 ^ a)).
  rewrite land_align in H by lia.
  destruct (Z.leb_spec s (e - size - (e - size) mod 2 ^ a)) as [Hle|Hgt].
  - inv_arith. lazymatch goal with Ht : take_block _ _ _ _ _ _ = Ok _ |- _ =>
      apply take_block_Ok with (post := upper) in Ht as [Hrep' Hsame]; [|done] end.
    right. eexists. split; [|done]. exists lower, s, e, upper. split; [done|]. split; [done|].
    split; [lia|]. split; [|done].
    rewrite Zminus_mod_idemp_r, Z.sub_diag. apply Z.mod_0_l. lia.
  - assert (size <= e /\ ~ fits size a (s, e)) as Hno by (unfold fits; cbn; lia).
    destruct (Z.ltb_spec (2 * Z.of_nat (length lower)) 2) as [Hz|Hz].
    + inv_ok. left. split; [done|]. split; [done|].
      destruct lower; [by constructor|cbn in Hz; lia].
    + destruct lower as [|b0 lower0 _] using rev_ind; [cbn in Hz; lia|].
      rewrite length_app in H. cbn [length] in H.
      replace (2 * Z.of_nat (length lower0 + 1) - 2) with (2 * Z.of_nat (length lower0)) in H by lia.
      rewrite <- app_assoc in Hrep, Hmax. cbn [app] in Hrep, Hmax.
      destruct (IH lower0 b0 ((s, e) :: upper) Hrep Hmax H) as [(-> & -> & Hall)|Hres].
      * left. split; [done|]. split; [done|]. apply Forall_app. split; [done|by constructor].
      * right. rewrite <- app_assoc. done.
Qed.

(** Without room the loop reports it, unless a block ends below [size]. *)
Lemma reserve_loop_none fuel mi bs lower b upper size a i :
  repr mi bs -> bs = lower ++ b :: upper -> i = 2 * Z.of_nat (length lower) ->
  (length lower < fuel)%nat ->
  Forall (fun b => 0 <= b.2 < 2 ^ 64) bs -> 0 < size -> 0 <= a < 64 ->
  Forall (fun b => ~ fits size a b) (lower ++ [b]) ->
  reserve_loop fuel mi size (2 ^ a) i
  = if decide (Forall (fun b => size <= b.2) (lower ++ [b])) then Ok (0, mi) else Panic POverflow.
Proof.
  intros Hrep -> -> Hfuel Hmax Hsz Ha. revert lower b upper Hrep Hmax Hfuel.
  induction fuel as [|fuel IH]; intros lower [s e] upper Hrep Hmax Hfuel Hno; [lia|].
  cbn [reserve_loop]. destruct (repr_rest _ _ Hrep) as [rest Hpm].
  rewrite flatten_app, flatten_cons, <- app_assoc in Hpm. cbn [fst snd app] in Hpm.
  rewrite Hpm, get_lo, get_hi. cbn [mbind outcome_bind].
  assert (0 <= e < 2 ^ 64) as He64 by (rewrite Forall_app, Forall_cons in Hmax; cbn in Hmax; tauto).
  assert (0 < 2 ^ a) by (apply Z.pow_pos_nonneg; lia).
  pose proof (Z.mod_pos_bound (e - size) (2 ^ a)).
  assert (~ fits size a (s, e)) as Hnf
    by (rewrite Forall_app, Forall_singleton in Hno; tauto).
  unfold fits in Hnf. cbn in Hnf. unfold usub.
  destruct (Z.leb_spec size e) as [Hse|Hse]; cbn [mbind outcome_bind].
  2: { rewrite decide_False; [done|]. rewrite Forall_app, Forall_singleton. cbn. lia. }
  rewrite land_align by lia. destruct (Z.leb_spec s (e - size - (e - size) mod 2 ^ a)); [lia|].
  destruct (Z.ltb_spec (2 * Z.of_nat (length lower)) 2) as [Hz|Hz].
  - destruct lower; [|cbn in Hz; lia]. rewrite decide_True; [done|]. by repeat constructor.
  - destruct lower as [|b0 lower0 _] using rev_ind; [cbn in Hz; lia|].
    rewrite length_app in *. cbn [length] in *.
    replace (2 * Z.of_nat (length lower0 + 1) - 2) with (2 * Z.of_nat (length lower0)) by lia.
    rewrite <- app_assoc in Hrep, Hmax. cbn [app] in Hrep, Hmax.
    rewrite Forall_app in Hno. destruct Hno as [Hno _].
    rewrite (IH lower0 b0 ((s, e) :: upper)) by (done || lia).
    apply decide_ext. rewrite (Forall_app _ (lower0 ++ [b0])), Forall_singleton. cbn. tauto.
Qed.

(** ** Sets of addresses *)

Lemma in_piece x a b : a <= b -> in_blocks x (piece a b) <-> a <= x < b.
Proof.
  intros Hab. unfold piece. destruct (Z.eqb_spec a b) as [->|Hne].
  - split; [by intros H%in_blocks_nil|lia].
  - rewrite in_blocks_cons. cbn. split; [intros [?|H%in_blocks_nil]; [lia|done]|by left].
Qed.

Lemma blocks_ok_pieces lo s addr ae e :
  lo <= s -> s <= addr -> addr <= ae -> ae <= e ->
  blocks_ok lo (piece s addr ++ piece ae e)
  /\ end_of lo (piece s addr ++ piece ae e) <= e.
Proof.
  intros. unfold piece. destruct (s =? addr), (ae =? e); cbn; lia.
Qed.

Lemma end_of_mono lo lo' bs : lo <= lo' -> end_of lo bs <= end_of lo' bs.
Proof. intros H. destruct bs as [|b bs]; cbn; lia. Qed.

Lemma reserved_end lo bs bs' size a addr :
  blocks_ok lo bs -> 0 < size -> reserved bs bs' size a addr -> end_of lo bs' <= end_of lo bs.
Proof.
  intros Hok Hsz (pre & s & e & post & -> & Hs & He & Ha & ->).
  apply blocks_ok_app in Hok as [Hpre Hok]. cbn in Hok. destruct Hok as (Hlo & Hse & Hpost).
  destruct (blocks_ok_pieces (end_of lo pre) s addr (addr + size) e) as [Hp Hpe]; [lia..|].
  rewrite (app_assoc (piece s addr)), (end_of_app lo pre ((s, e) :: post)), (end_of_app lo pre).
  rewrite (end_of_app _ (piece s addr ++ _)). by apply (end_of_mono _ e).
Qed.

Lemma reserved_blocks lo bs bs' size a addr :
  blocks_ok lo bs -> 0 < size -> reserved bs bs' size a addr ->
  blocks_ok lo bs' /\ addr mod 2 ^ a = 0
  /\ (forall x, in_blocks x bs' <-> in_blocks x bs /\ ~ (addr <= x < addr + size))
  /\ (forall x, addr <= x < addr + size -> in_blocks x bs).
Proof.
  intros Hok Hsz (pre & s & e & post & -> & Hs & He & Ha & ->).
  apply blocks_ok_app in Hok as [Hpre Hok]. cbn in Hok. destruct Hok as (Hlo & Hse & Hpost).
  destruct (blocks_ok_pieces (end_of lo pre) s addr (addr + size) e) as [Hp Hpe]; [lia..|].
  rewrite (app_assoc (piece s addr)). split; [|split; [done|split]].
  - rewrite blocks_ok_app. split; [done|]. rewrite blocks_ok_app. split; [done|].
    by eapply blocks_ok_le.
  - intros x. rewrite !in_blocks_app, in_blocks_cons, !in_piece by lia. cbn [fst snd].
    pose proof (in_blocks_bounds lo pre x Hpre). pose proof (in_blocks_bounds e post x Hpost).
    intuition lia.
  - intros x Hx. rewrite in_blocks_app, in_blocks_cons. cbn. right. left. lia.
Qed.

Lemma fits_iff size a b :
  0 <= a -> fits size a b <-> exists x, x mod 2 ^ a = 0 /\ b.1 <= x /\ x + size <= b.2.
Proof.
  intros Ha. assert (0 < 2 ^ a) by (apply Z.pow_pos_nonneg; lia).
  pose proof (Z.mod_pos_bound (b.2 - size) (2 ^ a)). unfold fits. split.
  - intros Hf. eexists. split; [|split; [exact Hf|lia]].
    rewrite Zminus_mod_idemp_r, Z.sub_diag. apply Z.mod_0_l. lia.
  - intros (x & Hx & Hlo & Hhi).
    assert (x <= b.2 - size - (b.2 - size) mod 2 ^ a); [|lia].
    pose proof (Z.div_mod (b.2 - size) (2 ^ a)). apply Z.mod_divide in Hx as [q ->]; [|lia].
    assert (q <= (b.2 - size) / 2 ^ a) by (apply Z.div_le_lower_bound; lia). nia.
Qed.

Lemma blocks_bound lo bs :
  0 <= lo -> blocks_ok lo bs -> end_of lo bs < 2 ^ 64 -> Forall (fun b => 0 <= b.2 < 2 ^ 64) bs.
Proof.
  revert lo. induction bs as [|[s e] bs IH]; intros lo Hlo Hok He; [done|]. cbn in *.
  destruct Hok as (? & ? & Hok). pose proof (end_of_ge _ _ Hok) as Hge. unfold end_of in Hge.
  constructor; [cbn; lia|]. apply (IH e); [lia|done..].
Qed.

Lemma reserve_phys_cases mi bs size a addr mi' :
  repr mi bs -> blocks_ok 0 bs -> end_of 0 bs < 2 ^ 64 -> 0 < size -> 0 <= a < 64 ->
  reserve_phys mi size (2 ^ a) = Ok (addr, mi') ->
  (addr = 0 /\ mi' = mi /\ Forall (fun b => ~ fits size a b) bs)
  \/ exists bs', reserved bs bs' size a addr /\ repr mi' bs' /\ same_info mi mi'.
Proof.
  intros Hrep Hok He Hsz Ha H. destruct bs as [|b lower _] using rev_ind; [by destruct (repr_ne _ _ Hrep)|].
  pose proof (blocks_bound 0 _ ltac:(lia) Hok He) as Hmax.
  destruct (reserve_loop_Ok _ mi (lower ++ [b]) lower b [] size a (physmap_last mi) addr mi' Hrep eq_refl
    ltac:(rewrite (repr_last _ _ Hrep), length_app; cbn; lia)
    ltac:(eapply Forall_impl; [exact Hmax|cbn; lia]) Hsz Ha H) as [(-> & -> & Hall)|Hres].
  - left. split; [done|]. split; [done|]. eapply Forall_impl; [exact Hall|naive_solver].
  - by right.
Qed.

(** ** Examples *)

(** The memory of a machine with 8 GiB, from which the monitor reserved 3 MiB. *)
Definition demo_blocks : list (Z * Z) := [(0, 0xF0000); (0x400000, 0x200000000)].

Definition demo_info : MemoryInfo :=
  {| physmap := flatten demo_blocks ++ replicate 56 0; physmap_last := 2; boot_area := 1024;
     boot_info := Boot 0xFC000 0xF0000; dcons_addr := 0; dcons_size := 0;
     initial_memory_size := 0x1FFD00000; end_page := 0x80000; unk := 2; paddr_free := 0x400000;
     memtest := 0 |}.

Lemma demo_repr : repr demo_info demo_blocks.
Proof. split; [by eexists|done..]. Qed.

Lemma demo_blocks_ok : blocks_ok 0 demo_blocks /\ end_of 0 demo_blocks < 2 ^ 64.
Proof. by vm_compute. Qed.

(** ** Properties *)



(** When no block has room and a block ends below the requested size, the
    computation of the candidate address underflows and [reserve_phys]
    panics; it returns zero, which the callers turn into their own message,
    only when every block ends at or above the size. *)
Theorem reserve_phys_no_room mi bs size a :
  repr mi bs -> blocks_ok 0 bs -> end_of 0 bs < 2 ^ 64 -> 0 < size -> 0 <= a < 64 ->
  (~ exists b x, b ∈ bs /\ x mod 2 ^ a = 0 /\ b.1 <= x /\ x + size <= b.2) ->
  reserve_phys mi size (2 ^ a)
  = if decide (Forall (fun b => size <= b.2) bs) then Ok (0, mi) else Panic POverflow.
Proof.
  intros Hrep Hok He Hsz Ha Hno. destruct bs as [|b lower _] using rev_ind; [by destruct (repr_ne _ _ Hrep)|].
  pose proof (blocks_bound 0 _ ltac:(lia) Hok He) as Hmax. pose proof (repr_last _ _ Hrep) as Hlast.
  rewrite length_app in Hlast. cbn in Hlast.
  apply (reserve_loop_none _ mi (lower ++ [b]) lower b []); try done; [lia..|].
  apply Forall_forall. intros b' Hb' Hf. apply Hno. apply fits_iff in Hf as [x Hx]; [|lia]. eauto.
Qed.

Lemma reserve_phys_no_room_witness :
  reserve_phys demo_info 0x200000000 (2 ^ 27) = Panic POverflow.
Proof.
  rewrite (reserve_phys_no_room demo_info demo_blocks 0x200000000 27
    demo_repr (proj1 demo_blocks_ok) (proj2 demo_blocks_ok)); [|reflexivity|lia|].
  - rewrite decide_False; [reflexivity|]. unfold demo_blocks. rewrite Forall_cons. cbn. lia.
  - intros (b & x & Hb & _ & Hlo & Hhi). unfold demo_blocks in Hb.
    repeat (apply elem_of_cons in Hb as [->|Hb]; [cbn in Hlo, Hhi; lia|]).
    by apply not_elem_of_nil in Hb.
Defined.

(** ** Initialisation *)

Lemma take_block_same mi i s e addr ae mi' : take_block mi i s e addr ae = Ok mi' -> same_info mi mi'.
Proof. intros H. unfold take_block in H. repeat case_match; inv_arith; done. Qed.

Lemma reserve_loop_same fuel mi size al i addr mi' :
  reserve_loop fuel mi size al i = Ok (addr, mi') -> same_info mi mi'.
Proof.
  revert i. induction fuel as [|fuel IH]; intros i H; [done|]. cbn [reserve_loop] in H.
  inv_arith. repeat case_match; inv_arith; [by eapply take_block_same| |by eapply IH].
  by destruct mi'.
Qed.

Lemma reserve_or_panic_Ok msg mi size al addr mi' :
  reserve_or_panic msg mi size al = Ok (addr, mi') ->
  reserve_phys mi size al = Ok (addr, mi') /\ addr <> 0 /\ unk mi' = unk mi.
Proof.
  intros H. unfold reserve_or_panic in H. inv_ok. destruct x as [addr' mi1]. inv_ok. bool_to_prop.
  split; [done|]. split; [done|].
  lazymatch goal with Hr : reserve_phys _ _ _ = _ |- _ =>
    apply reserve_loop_same in Hr; rewrite Hr; done end.
Qed.

(** A console that is neither a development kit nor a test kit. *)
Definition retail (kc : KConfig) : Prop :=
  is_devkit kc = false /\ is_testkit kc = false /\ k_unknown_dmem1 kc = 0.

Lemma load_mode_retail kc mi : retail kc -> load_mode kc mi = Ok (4 + unk mi * 8).
Proof. intros (Hd & Ht & Hu). unfold load_mode, dipsw. rewrite Hu, Hd, Ht. done. Qed.

(** A step of a computation whose value is known. *)
Ltac step_known H :=
  let Hk := fresh "Hk" in
  apply bind_Ok in H as (? & Hk & H); vm_compute in Hk; injection Hk as <-.

(** On a retail console the initialisation of the direct memory succeeds
    only in mode 20, which is the mode of a machine with less than 8 GiB of
    memory and the expected processor; the other modes run into unfinished
    code or behind the end of the table of configurations. *)
Theorem retail_mode kc mi d mi' :
  retail kc -> 0 <= unk mi <= 3 -> new kc mi = Ok (d, mi') ->
  unk mi = 2 /\ mode d = 20 /\ name (config d) = "GL8 release"%string.
Proof.
  intros Hr Hu H. unfold new in H. apply bind_Ok in H as ([haddr mi1] & Hh & H).
  apply reserve_or_panic_Ok in Hh as (_ & _ & Hu1).
  rewrite load_mode_retail, Hu1 in H by done.
  assert (unk mi = 0 \/ unk mi = 1 \/ unk mi = 2 \/ unk mi = 3) as [E|[E|[E|E]]] by lia; rewrite E in H.
  1,2: do 5 step_known H; apply bind_Ok in H as ([game mi2] & _ & H);
    apply bind_Ok in H as (ge & _ & H); step_known H;
    apply bind_Ok in H as (u & Hm & _); discriminate Hm.
  - split; [done|]. do 5 step_known H.
    repeat match goal with x : (_ * _)%type |- _ => destruct x | _ => progress inv_ok end. done.
  - do 3 step_known H. apply bind_Ok in H as (dc & Hdc & _). discriminate Hdc.
Qed.

Lemma retail_mode_witness :
  exists d mi', new PhysMemProps.demo_kconfig demo_info = Ok (d, mi')
    /\ unk demo_info = 2 /\ mode d = 20 /\ name (config d) = "GL8 release"%string.
Proof.
  destruct (new PhysMemProps.demo_kconfig demo_info) as [[d mi']| |] eqn:H; [|vm_compute in H; discriminate H..].
  exists d, mi'. split; [reflexivity|].
  apply (retail_mode PhysMemProps.demo_kconfig demo_info d mi'); [repeat split|cbn; lia|exact H].
Defined.

Lemma config_size m dc : DMEM_CONFIGS !! m = Some (Some dc) -> 0 < game_size dc.
Proof.
  intros H. assert (Forall (fun o => match o with Some c => 0 < game_size c | None => True end) DMEM_CONFIGS) as Hall.
  { by repeat constructor. }
  rewrite Forall_lookup in Hall. apply (Hall _ _ H).
Qed.

(** The game memory that the kernel reports lies in physical memory that
    the memory map offered, and starts at a multiple of 128 MiB. *)
Theorem dmem_game_region kc mi bs d mi' :
  repr mi bs -> blocks_ok 0 bs -> end_of 0 bs < 2 ^ 64 ->
  new kc mi = Ok (d, mi') ->
  (game_end d - game_size (config d)) mod 0x8000000 = 0
  /\ forall x, game_end d - game_size (config d) <= x < game_end d -> in_blocks x bs.
Proof.
  intros Hrep Hok He H. unfold new in H. apply bind_Ok in H as ([haddr mi1] & Hh & H).
  apply bind_Ok in H as (m & _ & H). do 2 apply bind_Ok in H as (? & _ & H).
  apply bind_Ok in H as (odc & Hdc & H). apply bind_Ok in H as (dc & [= ->]%unwrap_or_panic_Ok & H).
  apply bind_Ok in H as ([game mi2] & Hg & H). apply bind_Ok in H as (ge & [-> _]%uadd_Ok & H).
  assert (d = Mk m dc (game + game_size dc)) as ->.
  { repeat match goal with x : (_ * _)%type |- _ => destruct x | _ => progress inv_ok end. done. }
  cbn. rewrite Z.add_simpl_r. apply arr_get_Ok in Hdc as [_ Hdc].
  apply reserve_or_panic_Ok in Hh as (Hh & Hh0 & _), Hg as (Hg & Hg0 & _).
  change 1 with (2 ^ 0) in Hh. change 0x8000000 with (2 ^ 27) in *.
  destruct (reserve_phys_cases mi bs 0x1000000 0 haddr mi1 Hrep Hok He ltac:(lia) ltac:(lia) Hh)
    as [[? _]|(bs1 & Hr1 & Hrep1 & _)]; [done|].
  destruct (reserved_blocks 0 bs bs1 0x1000000 0 haddr Hok ltac:(lia) Hr1) as (Hok1 & _ & Hin1 & _).
  pose proof (reserved_end 0 bs bs1 0x1000000 0 haddr Hok ltac:(lia) Hr1) as Hend.
  assert (end_of 0 bs1 < 2 ^ 64) as He1 by lia.
  destruct (reserve_phys_cases mi1 bs1 (game_size dc) 27 game mi2 Hrep1 Hok1 He1
    (config_size _ _ Hdc) ltac:(lia) Hg)
    as [[? _]|(bs2 & Hr2 & _)]; [done|].
  destruct (reserved_blocks _ _ _ _ _ _ Hok1 (config_size _ _ Hdc) Hr2) as (_ & Hal & _ & Hin2).
  split; [done|]. intros y Hy. by apply Hin1, Hin2.
Qed.

Lemma dmem_game_region_witness :
  exists d mi', new PhysMemProps.demo_kconfig demo_info = Ok (d, mi')
    /\ (game_end d - game_size (config d)) mod 0x8000000 = 0
    /\ forall x, game_end d - game_size (config d) <= x < game_end d -> in_blocks x demo_blocks.
Proof.
  destruct (new PhysMemProps.demo_kconfig demo_info) as [[d mi']| |] eqn:H; [|vm_compute in H; discriminate H..].
  exists d, mi'. split; [reflexivity|].
  apply (dmem_game_region PhysMemProps.demo_kconfig demo_info demo_blocks d mi'
    demo_repr (proj1 demo_blocks_ok) (proj2 demo_blocks_ok) H).
Defined.

End DmemProps.
