(* ===== verification/Thread.v ===== *)
(** * Kernel threads

    Models the counters of [kernel/src/proc/thread.rs], the cells that only
    their own thread may access ([kernel/src/proc/cell.rs]), and the pinning
    of a thread to a CPU with the per-CPU values built on it
    ([kernel/src/context/mod.rs], [kernel/src/context/local.rs]).  A thread is
    identified by its address; the current thread is a parameter. *)
From S2P Require Import Prelude.

Module Thread.
Local Open Scope string_scope.
Local Open Scope Z_scope.

(** Kernel functions that do not return a [Result]. *)
Inductive no_error :=.
Notation res := (outcome no_error).

(** ** Private cells *)

(** [PrivateCell::validate] in thread [current] for a cell of thread [owner]. *)
Definition validate (current owner : Z) : res unit :=
  panic_if (negb (current =? owner))
    (PExplicit "accessing a private cell from the other thread is not supported").

(** [PrivateCell<Cell<T>>::get] and [set]. *)
Definition cell_get {T} (current owner : Z) (c : T) : res T :=
  validate current owner;; Ok c.
Definition cell_set {T} (current owner : Z) (c v : T) : res T :=
  validate current owner;; Ok v.

(** ** Threads *)

Record t := Mk {
  id : Z; (* the address of the structure *)
  active_pins : Z; (* u8 *)
  active_interrupts : Z; (* u8 *)
  active_mutexes : Z; (* u16 *)
  sleeping : Z;
  profiling_ticks : Z; (* u32 *)
  active_heap_guard : Z
}.

Definition new_bare (id : Z) : t := Mk id 0 0 0 0 0 0.

Definition can_sleep (td : t) : bool := (active_pins td =? 0) && (active_interrupts td =? 0).

Definition get_active_mutexes (current : Z) (td : t) : res Z :=
  cell_get current (id td) (active_mutexes td).
Definition set_active_mutexes (current : Z) (td : t) (v : Z) : res t :=
  v ← cell_set current (id td) (active_mutexes td) v;
  Ok (Mk (id td) (active_pins td) (active_interrupts td) v (sleeping td) (profiling_ticks td)
        (active_heap_guard td)).

Definition set_profiling_ticks (current : Z) (td : t) (v : Z) : res t :=
  v ← cell_set current (id td) (profiling_ticks td) v;
  Ok (Mk (id td) (active_pins td) (active_interrupts td) (active_mutexes td) (sleeping td) v
        (active_heap_guard td)).

Definition get_active_heap_guard (current : Z) (td : t) : res Z :=
  cell_get current (id td) (active_heap_guard td).

Definition set_active_heap_guard (current : Z) (td : t) (v : Z) : res t :=
  v ← cell_set current (id td) (active_heap_guard td) v;
  Ok (Mk (id td) (active_pins td) (active_interrupts td) (active_mutexes td) (sleeping td)
        (profiling_ticks td) v).

(** [disable_vm_heap]; the guard it returns is dropped by
    [drop_heap_guard]. *)
Definition disable_vm_heap (current : Z) (td : t) : res t :=
  v ← get_active_heap_guard current td;
  v ← unwrap_or_panic PUnwrap (checked_add v 1);
  set_active_heap_guard current td v.

Definition drop_heap_guard (current : Z) (td : t) : res t :=
  v ← get_active_heap_guard current td;
  v ← usub v 1;
  set_active_heap_guard current td v.

(** ** Pinning *)

Definition set_active_pins (td : t) (v : Z) : t :=
  Mk (id td) v (active_interrupts td) (active_mutexes td) (sleeping td) (profiling_ticks td)
    (active_heap_guard td).

(** [pin_cpu] and the drop of [PinnedContext]: [fetch_add] and [fetch_sub] on
    an [AtomicU8] wrap around. *)
Definition pin_cpu (td : t) : t := set_active_pins td ((active_pins td + 1) mod 2 ^ 8).
Definition drop_pin (td : t) : t := set_active_pins td ((active_pins td - 1) mod 2 ^ 8).

(** [CpuLocal::new] for [max_cpu] CPUs. *)
Definition cpu_local_new {T} (max_cpu : nat) (f : nat -> T) : list T := f <$> seq 0 max_cpu.

(** [CpuLocal::lock] on CPU [cpu]: pins the thread and selects the value. *)
Definition cpu_local_lock {T} (l : list T) (cpu : Z) (td : t) : res (T * t) :=
  let td := pin_cpu td in
  v ← arr_get l cpu;
  Ok (v, td).

End Thread.
