(* ===== verification/Lock.v ===== *)
(** * Kernel locks

    Models [kernel/src/lock]: [Mutex], and [Gutex], the member of a group of
    values that share one lock.  The operations are functions on the fields
    of the lock; a step relation interleaves them for any number of threads
    at the granularity of the accesses to the shared words. *)
From S2P Require Import Prelude Thread.

Module Lock.
Import Thread.
Local Open Scope string_scope.
Local Open Scope list_scope.
Local Open Scope Z_scope.

Definition MTX_UNOWNED : Z := 4.

(** [compare_exchange]: the new value, or the value found on failure. *)
Definition compare_exchange (cur expected new : Z) : Z + Z :=
  if cur =? expected then inl new else inr cur.

(** ** Mutex *)

(** [Mutex::lock] on the word [owning] by thread [td], up to the exchange. *)
Definition mutex_lock (td : Thread.t) (owning : Z) : res (Z * Thread.t) :=
  panic_if (negb (can_sleep td))
    (PExplicit "locking a mutex in a non-sleeping context is not supported");;
  owning ←
    match compare_exchange owning MTX_UNOWNED (id td) with
    | inl o => Ok o
    | inr _ => Panic PTodo
    end;
  n ← get_active_mutexes (id td) td;
  panic_if (2 ^ 16 <=? n + 1) POverflow;;
  td ← set_active_mutexes (id td) td (n + 1);
  Ok (owning, td).

(** [Mutex::unlock], which is what the drop of a guard does. *)
Definition mutex_unlock (td : Thread.t) (owning : Z) : res (Z * Thread.t) :=
  n ← get_active_mutexes (id td) td;
  n ← usub n 1;
  td ← set_active_mutexes (id td) td n;
  match compare_exchange owning (id td) MTX_UNOWNED with
  | inl o => Ok (o, td)
  | inr _ => Panic PTodo
  end.

(** One mutex, the threads by address, and the owners of its live guards.
    A thread that panics stops. *)
Record mstate := MS {
  m_owning : Z;
  m_threads : gmap Z Thread.t;
  m_guards : list Z
}.

(** The other things a thread does to its own counters between the
    operations of this mutex: it pins itself to a CPU and unpins, takes
    interrupts, and takes and drops other mutexes. *)
Inductive mstep : mstate -> mstate -> Prop :=
  | m_lock s i td o td' :
      m_threads s !! i = Some td -> mutex_lock td (m_owning s) = Ok (o, td') ->
      mstep s (MS o (<[i := td']> (m_threads s)) (i :: m_guards s))
  | m_lock_panic s i td p :
      m_threads s !! i = Some td -> mutex_lock td (m_owning s) = Panic p ->
      mstep s (MS (if decide (p = POverflow) then i else m_owning s)
                 (delete i (m_threads s)) (m_guards s))
  | m_unlock s i td o td' g1 g2 :
      m_threads s !! i = Some td -> m_guards s = g1 ++ i :: g2 ->
      mutex_unlock td (m_owning s) = Ok (o, td') ->
      mstep s (MS o (<[i := td']> (m_threads s)) (g1 ++ g2))
  | m_other s i td pins intr k :
      m_threads s !! i = Some td ->
      Z.of_nat (count_occ Z.eq_dec (m_guards s) i) <= k < 2 ^ 16 ->
      mstep s (MS (m_owning s)
                 (<[i := Mk (id td) pins intr k (sleeping td) (profiling_ticks td)
                           (active_heap_guard td)]> (m_threads s)) (m_guards s)).

(** ** Gutex *)

(** [GutexGroup] with the [active] words of the members spawned from it. *)
Record GutexGroup := Group { owning : Z; active : Z; members : list Z }.

(** [GutexGroup::new] and [GutexGroup::spawn]. *)
Definition group_new : GutexGroup := Group MTX_UNOWNED 0 [].
Definition spawn (g : GutexGroup) : GutexGroup := Group (owning g) (active g) (members g ++ [0]).

(** The loop of [GutexGroup::lock]: [wait] is unfinished, so a thread that
    finds another owner panics. *)
Definition group_acquire (i : Z) (g : GutexGroup) : res GutexGroup :=
  match compare_exchange (owning g) MTX_UNOWNED i with
  | inl o => Ok (Group o (active g) (members g))
  | inr o => if o =? i then Ok g else Panic PTodo
  end.

(** [GroupGuard::new]. *)
Definition guard_new (g : GutexGroup) : res GutexGroup :=
  a ← uadd (active g) 1;
  Ok (Group (owning g) a (members g)).

(** [Gutex::read] and [Gutex::write] on member [k] once the group is locked. *)
Definition read_enter (k : Z) (g : GutexGroup) : res GutexGroup :=
  a ← arr_get (members g) k;
  panic_if (a =? u64_max)
    (PExplicit "attempt to acquire the read lock while there are an active write lock");;
  panic_if (a =? u64_max - 1) (PExplicit "maximum number of active readers has been reached");;
  m ← arr_set (members g) k (a + 1);
  Ok (Group (owning g) (active g) m).

Definition write_enter (k : Z) (g : GutexGroup) : res GutexGroup :=
  a ← arr_get (members g) k;
  panic_if (negb (a =? 0))
    (PExplicit "attempt to acquire the write lock while there are an active reader or writer");;
  m ← arr_set (members g) k u64_max;
  Ok (Group (owning g) (active g) m).

(** The drops of [GutexRead] and [GutexWrite], before their [GroupGuard] is
    dropped. *)
Definition read_drop (k : Z) (g : GutexGroup) : res GutexGroup :=
  a ← arr_get (members g) k;
  a ← usub a 1;
  m ← arr_set (members g) k a;
  Ok (Group (owning g) (active g) m).

Definition write_drop (k : Z) (g : GutexGroup) : res GutexGroup :=
  m ← arr_set (members g) k 0;
  Ok (Group (owning g) (active g) m).

(** The drop of [GroupGuard]: whether the group must be released. *)
Definition guard_drop (g : GutexGroup) : res (bool * GutexGroup) :=
  a ← usub (active g) 1;
  Ok (a =? 0, Group (owning g) a (members g)).

(** [GroupGuard::release], up to the unfinished wake-up that follows. *)
Definition release (g : GutexGroup) : GutexGroup := Group MTX_UNOWNED (active g) (members g).

(** ** Threads using a group *)

Inductive access := Read | Write.

(** Where a thread is in its current operation on the group. *)
Inductive pc :=
  | Running (* between operations *)
  | Acquired (a : access) (k : Z) (* [GutexGroup::lock] has the owner word *)
  | Guarded (a : access) (k : Z) (* the [GroupGuard] exists *)
  | Dropping (* the member is unlocked, the [GroupGuard] is not dropped yet *)
  | Releasing (* the last [GroupGuard] is dropped *)
  | Refused (* panicked on the state of the member, with a [GroupGuard] *)
  | Stopped. (* panicked elsewhere *)

(** A live [GutexRead] or [GutexWrite]. *)
Record guard := Guard { g_thread : Z; g_access : access; g_member : Z }.

Record gstate := GS { grp : GutexGroup; pcs : gmap Z pc; guards : list guard }.

Definition enter (a : access) (k : Z) (g : GutexGroup) : res GutexGroup :=
  match a with Read => read_enter k g | Write => write_enter k g end.
Definition leave (a : access) (k : Z) (g : GutexGroup) : res GutexGroup :=
  match a with Read => read_drop k g | Write => write_drop k g end.

Inductive gstep : gstate -> gstate -> Prop :=
  | g_acquire s i a k g :
      pcs s !! i = Some Running -> group_acquire i (grp s) = Ok g ->
      gstep s (GS g (<[i := Acquired a k]> (pcs s)) (guards s))
  | g_wait s i p :
      pcs s !! i = Some Running -> group_acquire i (grp s) = Panic p ->
      gstep s (GS (grp s) (<[i := Stopped]> (pcs s)) (guards s))
  | g_guard s i a k g :
      pcs s !! i = Some (Acquired a k) -> guard_new (grp s) = Ok g ->
      gstep s (GS g (<[i := Guarded a k]> (pcs s)) (guards s))
  | g_guard_panic s i a k p :
      pcs s !! i = Some (Acquired a k) -> guard_new (grp s) = Panic p ->
      gstep s (GS (grp s) (<[i := Stopped]> (pcs s)) (guards s))
  | g_enter s i a k g :
      pcs s !! i = Some (Guarded a k) -> enter a k (grp s) = Ok g ->
      gstep s (GS g (<[i := Running]> (pcs s)) (Guard i a k :: guards s))
  | g_refuse s i a k p :
      pcs s !! i = Some (Guarded a k) -> enter a k (grp s) = Panic p ->
      gstep s (GS (grp s) (<[i := Refused]> (pcs s)) (guards s))
  | g_leave s i a k l1 l2 g :
      pcs s !! i = Some Running -> guards s = l1 ++ Guard i a k :: l2 -> leave a k (grp s) = Ok g ->
      gstep s (GS g (<[i := Dropping]> (pcs s)) (l1 ++ l2))
  | g_drop s i b g :
      pcs s !! i = Some Dropping -> guard_drop (grp s) = Ok (b, g) ->
      gstep s (GS g (<[i := if b then Releasing else Running]> (pcs s)) (guards s))
  | g_release s i :
      pcs s !! i = Some Releasing ->
      gstep s (GS (release (grp s)) (<[i := Stopped]> (pcs s)) (guards s))
  | g_spawn s :
      gstep s (GS (spawn (grp s)) (pcs s) (guards s)).

(** Any number of threads, none of which has touched the group yet. *)
Definition gstart (s : gstate) : Prop :=
  grp s = group_new /\ guards s = []
  /\ forall i p, pcs s !! i = Some p -> p = Running /\ i <> MTX_UNOWNED.

End Lock.
