(* ===== verification/LockProps.v ===== *)
(** * Properties of the kernel locks *)
From S2P Require Import Prelude Thread Lock.

Module LockProps.
Import Thread Lock.
Local Open Scope list_scope.
Local Open Scope Z_scope.

#[export] Instance access_eq_dec : EqDecision access.
Proof. solve_decision. Defined.

(** ** Mutex *)

Record minv (s : mstate) : Prop := {
  mi_id : forall i td, m_threads s !! i = Some td -> id td = i /\ i <> MTX_UNOWNED;
  mi_guards : m_guards s = [] \/ m_guards s = [m_owning s] /\ m_owning s <> MTX_UNOWNED;
  mi_count : forall i td, m_threads s !! i = Some td ->
    Z.of_nat (count_occ Z.eq_dec (m_guards s) i) <= active_mutexes td
}.

Lemma mutex_lock_Ok td o o' td' :
  mutex_lock td o = Ok (o', td') ->
  o = MTX_UNOWNED /\ o' = id td /\ id td' = id td /\ active_mutexes td' = active_mutexes td + 1.
Proof.
  unfold mutex_lock, compare_exchange, get_active_mutexes, set_active_mutexes, cell_get, cell_set, validate.
  rewrite Z.eqb_refl. intros H. inv_ok. case_match; inv_ok. bool_to_prop.
  destruct (Z.eqb_spec o MTX_UNOWNED); by simplify_eq.
Qed.

Lemma mutex_unlock_owner td :
  1 <= active_mutexes td ->
  exists td', mutex_unlock td (id td) = Ok (MTX_UNOWNED, td') /\ id td' = id td
    /\ active_mutexes td' = active_mutexes td - 1.
Proof.
  intros Hn. unfold mutex_unlock, compare_exchange, get_active_mutexes, set_active_mutexes, cell_get, cell_set, validate.
  rewrite !Z.eqb_refl. cbn [negb panic_if mbind outcome_bind].
  unfold usub. rewrite (proj2 (Z.leb_le _ _) Hn). cbn. rewrite Z.eqb_refl. eexists. by split_and!.
Qed.

Lemma mutex_unlock_Ok td o o' td' :
  mutex_unlock td o = Ok (o', td') ->
  o = id td /\ o' = MTX_UNOWNED /\ id td' = id td /\ active_mutexes td' = active_mutexes td - 1.
Proof.
  unfold mutex_unlock, compare_exchange, get_active_mutexes, set_active_mutexes, cell_get, cell_set, validate.
  rewrite Z.eqb_refl. intros H. inv_arith.
  destruct (Z.eqb_spec o (id td)); by inv_ok.
Qed.

Lemma mutex_lock_overflow td o :
  mutex_lock td o = Panic POverflow -> o = MTX_UNOWNED.
Proof.
  unfold mutex_lock, compare_exchange. destruct (can_sleep td); cbn; [|done].
  destruct (Z.eqb_spec o MTX_UNOWNED); cbn; done.
Qed.

Lemma minv_step s s' : minv s -> mstep s s' -> minv s'.
Proof.
  intros [Hid Hg Hc] Hs. destruct Hs as [s i td o td' Hi H|s i td p Hi H|s i td o td' g1 g2 Hi Hgs H|s i td pins intr k Hi Hk].
  - apply mutex_lock_Ok in H as (Ho & -> & Hid' & Hn). destruct (Hid _ _ Hi) as [<- Hne].
    assert (m_guards s = []) as Hnil by (destruct Hg as [|[_ ?]]; done).
    split; cbn; rewrite ?Hnil.
    + intros j tj. rewrite lookup_insert. case_decide; naive_solver.
    + by right.
    + intros j tj. rewrite lookup_insert. case_decide; subst.
      * intros [= <-]. pose proof (Hc _ _ Hi). rewrite Hnil in *. cbn in *. case_match; lia.
      * intros Hj. apply Hc in Hj. rewrite Hnil in Hj. cbn in *. case_match; [done|lia].
  - destruct (Hid _ _ Hi) as [Hid' Hne]. split; cbn.
    + intros j tj. rewrite lookup_delete. case_decide; naive_solver.
    + case_decide; subst; [|done]. apply mutex_lock_overflow in H. left.
      by destruct Hg as [|[_ ?]].
    + intros j tj. rewrite lookup_delete. case_decide; naive_solver.
  - apply mutex_unlock_Ok in H as (Ho & -> & Hid' & Hn). destruct (Hid _ _ Hi) as [<- Hne].
    destruct Hg as [Hg|[Hg _]]; [by rewrite Hg in Hgs; destruct g1|].
    assert (g1 = [] /\ g2 = []) as [-> ->].
    { rewrite Hg in Hgs. destruct g1 as [|? [|]], g2; naive_solver. }
    split; cbn.
    + intros j tj. rewrite lookup_insert. case_decide; naive_solver.
    + by left.
    + intros j tj. rewrite lookup_insert. case_decide; subst; intros Hj; [simplify_eq|].
      * pose proof (Hc _ _ Hi) as Hc'. rewrite Hgs in Hc'. cbn in Hc'. case_match; [lia|done].
      * apply Hc in Hj. lia.
  - split; cbn; [|done|].
    + intros j tj. rewrite lookup_insert. case_decide; naive_solver.
    + intros j tj. rewrite lookup_insert. case_decide; subst; [|by apply Hc]. intros [= <-]. cbn. lia.
Qed.

Lemma minv_reachable s s' : minv s -> rtc mstep s s' -> minv s'.
Proof. intros Hi Hs. induction Hs; eauto using minv_step. Qed.

(** A mutex has at most one live guard, and the thread that owns that
    guard can always release it: the unfinished branch of [Mutex::unlock] is
    never reached, and the mutex is free again afterwards. *)
Theorem mutex_exclusion ths s :
  (forall i td, ths !! i = Some td -> id td = i /\ i <> MTX_UNOWNED /\ 0 <= active_mutexes td) ->
  rtc mstep (MS MTX_UNOWNED ths []) s ->
  (length (m_guards s) <= 1)%nat
  /\ forall i td, i ∈ m_guards s -> m_threads s !! i = Some td ->
     exists td', mutex_unlock td (m_owning s) = Ok (MTX_UNOWNED, td').
Proof.
  intros Hths Hs. apply minv_reachable in Hs as [Hid Hg Hc].
  2: { split; cbn; [naive_solver|by left|]. intros i td Hi. apply Hths in Hi. lia. }
  split; [destruct Hg as [->|[-> _]]; cbn; lia|].
  intros i td Hin Hi. destruct Hg as [Hg|[Hg _]]; rewrite Hg in Hin; [by apply elem_of_nil in Hin|].
  apply list_elem_of_singleton in Hin as ->. destruct (Hid _ _ Hi) as [Hii _].
  pose proof (Hc _ _ Hi) as Hn. rewrite Hg in Hn. cbn in Hn. case_match; [|done].
  rewrite <- Hii. destruct (mutex_unlock_owner td) as (td' & -> & _); [lia|]. eauto.
Qed.

(** Two threads, at the addresses 16 and 32; the first one has the mutex. *)
Definition demo_threads : gmap Z Thread.t := {[16 := new_bare 16; 32 := new_bare 32]}.
Definition demo_locked : Thread.t := Mk 16 0 0 1 0 0 0.

Lemma mutex_exclusion_witness :
  exists s, m_guards s = [16] /\ (length (m_guards s) <= 1)%nat
  /\ forall i td, i ∈ m_guards s -> m_threads s !! i = Some td ->
     exists td', mutex_unlock td (m_owning s) = Ok (MTX_UNOWNED, td').
Proof.
  exists (MS 16 (<[16 := demo_locked]> demo_threads) [16]). split; [done|].
  apply (mutex_exclusion demo_threads).
  - intros i td. unfold demo_threads.
    rewrite lookup_insert. case_decide as H1; [subst; intros [= <-]; done|].
    rewrite lookup_singleton. case_decide as H2; [subst; intros [= <-]; done|done].
  - apply rtc_once.
    exact (m_lock (MS MTX_UNOWNED demo_threads []) 16 (new_bare 16) 16 demo_locked eq_refl eq_refl).
Defined.

(** ** Gutex *)

(** The live guards of one kind on one member. *)
Definition on (a : access) (k : Z) (l : list guard) : Z :=
  Z.of_nat (length (filter (fun g => g_access g = a /\ g_member g = k) l)).

Lemma on_nonneg a k l : 0 <= on a k l.
Proof. unfold on. lia. Qed.

Lemma on_cons a k g l :
  on a k (g :: l) = (if decide (g_access g = a /\ g_member g = k) then 1 else 0) + on a k l.
Proof. unfold on. rewrite filter_cons. case_decide; cbn; lia. Qed.

Lemma on_app a k l1 l2 : on a k (l1 ++ l2) = on a k l1 + on a k l2.
Proof. unfold on. rewrite filter_app, length_app. lia. Qed.

Lemma on_mid a k l1 g l2 : on a k (l1 ++ g :: l2) = on a k (g :: l1 ++ l2).
Proof. rewrite on_app, !on_cons, on_app. lia. Qed.

Lemma on_zero a k l : (forall g, g ∈ l -> g_member g <> k) -> on a k l = 0.
Proof.
  induction l as [|g l IH]; intros H; [done|]. rewrite on_cons, IH by set_solver.
  rewrite decide_False; [done|]. intros [_ Hk]. by apply (H g); [left|].
Qed.

(** The word of a member tells who has it. *)
Definition member_ok (l : list guard) (k : Z) (v : Z) : Prop :=
  v = u64_max /\ on Write k l = 1 /\ on Read k l = 0
  \/ v = on Read k l /\ on Write k l = 0 /\ v < u64_max.

(** The thread works on the group and owns it. *)
Definition inside (p : pc) : bool :=
  match p with Running | Stopped => false | _ => true end.

(** The thread has a [GroupGuard] that belongs to none of the live guards. *)
Definition extra (p : option pc) : Z :=
  match p with Some (Guarded _ _ | Dropping | Refused) => 1 | _ => 0 end.

Record ginv (s : gstate) : Prop := {
  gi_id : forall i p, pcs s !! i = Some p -> i <> MTX_UNOWNED;
  gi_inside : forall i p, pcs s !! i = Some p -> inside p -> owning (grp s) = i;
  gi_guards : forall g, g ∈ guards s ->
    owning (grp s) = g_thread g /\ is_Some (pcs s !! g_thread g)
    /\ 0 <= g_member g < Z.of_nat (length (members (grp s)));
  gi_active : active (grp s)
    = Z.of_nat (length (guards s)) + extra (pcs s !! owning (grp s));
  gi_release : forall i, pcs s !! i = Some Releasing -> active (grp s) = 0;
  gi_members : forall k v, members (grp s) !! k = Some v -> member_ok (guards s) (Z.of_nat k) v
}.

(** A group without owner has no guards. *)
Lemma ginv_free s : ginv s -> owning (grp s) = MTX_UNOWNED -> guards s = [] /\ active (grp s) = 0.
Proof.
  intros Hi Ho. assert (guards s = []) as Hg.
  { destruct (guards s) as [|g l] eqn:E; [done|].
    destruct (gi_guards _ Hi g) as (H & [p Hp] & _); [rewrite E; by left|].
    apply (gi_id _ Hi) in Hp. congruence. }
  split; [done|]. rewrite (gi_active _ Hi), Hg, Ho.
  destruct (pcs s !! MTX_UNOWNED) as [p|] eqn:Hp; [|done].
  by apply (gi_id _ Hi) in Hp.
Qed.

Definition members_ok (m : list Z) (l : list guard) : Prop :=
  forall k v, m !! k = Some v -> member_ok l (Z.of_nat k) v.

(** A guard on one member does not change the counts of another. *)
Lemma member_ok_other i a k j v l :
  j <> k -> member_ok (Guard i a k :: l) j v <-> member_ok l j v.
Proof.
  intros Hne. unfold member_ok. rewrite !on_cons. cbn. rewrite !decide_False by naive_solver. done.
Qed.

Lemma member_ok_mid l1 g l2 k v : member_ok (l1 ++ g :: l2) k v <-> member_ok (g :: l1 ++ l2) k v.
Proof. unfold member_ok. by rewrite !on_mid. Qed.

(** Updating the word of member [k] when a guard on it comes or goes. *)
Lemma members_ok_set m k v l l' :
  members_ok m l -> 0 <= k -> member_ok l' k v ->
  (forall j w, j <> k -> member_ok l j w -> member_ok l' j w) ->
  members_ok (<[Z.to_nat k := v]> m) l'.
Proof.
  intros Hm Hk Hv Hl j w. rewrite list_lookup_insert. case_decide as H.
  2: { intros Hw. pose proof (lookup_lt_Some _ _ _ Hw). apply Hl; [lia|auto]. }
  destruct H as [<- _]. intros [= <-]. by rewrite Z2Nat.id.
Qed.

Lemma enter_Ok i a k g g' l :
  enter a k g = Ok g' -> members_ok (members g) l ->
  owning g' = owning g /\ active g' = active g /\ length (members g') = length (members g)
  /\ 0 <= k < Z.of_nat (length (members g)) /\ members_ok (members g') (Guard i a k :: l).
Proof.
  intros H Hm. pose proof (on_nonneg Read k l). pose proof (on_nonneg Write k l).
  destruct a; unfold enter, read_enter, write_enter in H; inv_ok; bool_to_prop;
    repeat match goal with
    | H : arr_get _ _ = Ok _ |- _ => apply arr_get_Ok in H as [? Hget]
    | H : arr_set _ _ _ = Ok _ |- _ => apply arr_set_Ok in H as [? ->]
    end; cbn; rewrite length_insert; (split_and!; [done..|lia|lia|]);
    (apply (members_ok_set _ _ _ l); [done|lia| |intros; by apply member_ok_other]);
    apply Hm in Hget; rewrite Z2Nat.id in Hget by lia;
    unfold member_ok in *; rewrite !on_cons; cbn;
    unfold u64_max in *; repeat (case_decide; [|]); destruct_and?; first [done|lia|tauto].
Qed.

Lemma leave_Ok i a k g l1 l2 :
  0 <= k < Z.of_nat (length (members g)) -> members_ok (members g) (l1 ++ Guard i a k :: l2) ->
  exists g', leave a k g = Ok g'
  /\ owning g' = owning g /\ active g' = active g /\ length (members g') = length (members g)
  /\ members_ok (members g') (l1 ++ l2).
Proof.
  intros Hk Hm.
  assert (forall j w, j <> k -> member_ok (l1 ++ Guard i a k :: l2) j w -> member_ok (l1 ++ l2) j w) as Hother.
  { intros j w Hj Hw. by apply member_ok_mid, member_ok_other in Hw. }
  destruct (lookup_lt_is_Some_2 (members g) (Z.to_nat k)) as [v Hv]; [lia|].
  pose proof (Hm _ _ Hv) as Hok. rewrite Z2Nat.id in Hok by lia.
  apply member_ok_mid in Hok. pose proof (on_nonneg Read k (l1 ++ l2)). pose proof (on_nonneg Write k (l1 ++ l2)).
  unfold member_ok in Hok. rewrite !on_cons in Hok. cbn in Hok.
  assert (forall w, arr_set (members g) k w = Ok (<[Z.to_nat k := w]> (members g) : list Z) :> res _) as Hset
    by (intros w; by apply arr_set_Ok).
  destruct a.
  - rewrite decide_False, decide_True in Hok by (try done; naive_solver).
    unfold leave, read_drop. rewrite (proj2 (arr_get_Ok _ _ _) (conj (proj1 Hk) Hv)). cbn [mbind outcome_bind].
    rewrite (proj2 (usub_Ok v 1 (v - 1))) by lia. cbn [mbind outcome_bind]. rewrite Hset.
    eexists. split; [reflexivity|]. cbn. rewrite length_insert. split_and!; [done..|].
    eapply members_ok_set; [done|lia| |done]. right. lia.
  - rewrite decide_True, decide_False in Hok by (try done; naive_solver).
    unfold leave, write_drop. rewrite Hset.
    eexists. split; [reflexivity|]. cbn. rewrite length_insert. split_and!; [done..|].
    eapply members_ok_set; [done|lia| |done]. right. unfold u64_max in *. lia.
Qed.

(** ** The invariant is preserved *)

Ltac pc_cases :=
  repeat match goal with
  | |- context [<[?i := _]> _ !! ?j] => rewrite (lookup_insert _ i j); case_decide; simplify_eq
  | H : context [<[?i := _]> _ !! ?j] |- _ => rewrite (lookup_insert _ i j) in H; case_decide; simplify_eq
  end.

Lemma step_acquire s i a k g :
  ginv s -> pcs s !! i = Some Running -> group_acquire i (grp s) = Ok g ->
  ginv (GS g (<[i := Acquired a k]> (pcs s)) (guards s)).
Proof.
  intros Hi Hp H. unfold group_acquire, compare_exchange in H.
  pose proof (gi_id _ Hi _ _ Hp) as Hne.
  destruct (Z.eqb_spec (owning (grp s)) MTX_UNOWNED) as [Ho|Ho]; inv_ok.
  - destruct (ginv_free s Hi Ho) as [Hg Ha]. split; cbn; rewrite ?Hg, ?Ha.
    + intros j p Hj. pc_cases; eauto using gi_id.
    + intros j p Hj Hin. pc_cases; [done|]. pose proof (gi_inside _ Hi _ _ Hj Hin).
      apply (gi_id _ Hi) in Hj. congruence.
    + intros g' Hg'. by apply elem_of_nil in Hg'.
    + by rewrite lookup_insert_eq.
    + done.
    + intros j v Hj. apply (gi_members _ Hi) in Hj. by rewrite Hg in Hj.
  - case_match; inv_ok. bool_to_prop. subst i. split; cbn.
    + intros j p Hj. pc_cases; eauto using gi_id.
    + intros j p Hj Hin. pc_cases; [done|]. by apply (gi_inside _ Hi) in Hj.
    + intros g' Hg'. apply (gi_guards _ Hi) in Hg' as (Ht & Hs & Hm). split_and!; [done| |lia..].
      pc_cases; eauto.
    + rewrite (gi_active _ Hi), lookup_insert_eq, Hp. done.
    + intros j Hj. pc_cases. by eapply gi_release.
    + intros j v Hj. by apply (gi_members _ Hi) in Hj.
Qed.

(** Steps that change neither the owner word nor the guards of other
    threads: thread [i], the owner, goes from [p] to [p']. *)
Lemma ginv_owner_step s i p p' g gs :
  ginv s -> pcs s !! i = Some p -> owning (grp s) = i -> owning g = i ->
  (length (members (grp s)) <= length (members g))%nat ->
  (forall gd, gd ∈ gs -> g_thread gd = i /\ 0 <= g_member gd < Z.of_nat (length (members g))) ->
  active g = Z.of_nat (length gs) + extra (Some p') ->
  (p' = Releasing -> active g = 0) -> members_ok (members g) gs ->
  ginv (GS g (<[i := p']> (pcs s)) gs).
Proof.
  intros Hi Hp Ho Ho' Hl Hgs Ha Hr Hm. split; cbn.
  - intros j q Hj. pc_cases; eauto using gi_id.
  - intros j q Hj Hin. pc_cases; [done|]. rewrite Ho'. by eapply gi_inside.
  - intros gd Hgd. apply Hgs in Hgd as [-> ?]. rewrite lookup_insert_eq. eauto.
  - by rewrite Ho', lookup_insert_eq.
  - intros j Hj. pc_cases; [by apply Hr|].
    pose proof (gi_inside _ Hi _ _ Hj I). congruence.
  - done.
Qed.

(** Thread [i] panics outside of a guard. *)
Lemma ginv_stop s i p :
  ginv s -> pcs s !! i = Some p -> extra (Some p) = 0 ->
  ginv (GS (grp s) (<[i := Stopped]> (pcs s)) (guards s)).
Proof.
  intros Hi Hp Hx. split; cbn.
  - intros j q Hj. pc_cases; eauto using gi_id.
  - intros j q Hj Hin. pc_cases; [done|]. by eapply gi_inside.
  - intros gd Hgd. apply (gi_guards _ Hi) in Hgd as (? & Hs & ?). split_and!; [done| |lia..]. pc_cases; eauto.
  - rewrite (gi_active _ Hi). destruct (decide (owning (grp s) = i)) as [->|Hne].
    + by rewrite lookup_insert_eq, Hp, Hx.
    + by rewrite lookup_insert_ne.
  - intros j Hj. pc_cases. by eapply gi_release.
  - exact (gi_members _ Hi).
Qed.

Lemma ginv_guard s g : ginv s -> g ∈ guards s ->
  g_thread g = owning (grp s) /\ 0 <= g_member g < Z.of_nat (length (members (grp s))).
Proof. intros Hi Hg. by apply (gi_guards _ Hi) in Hg as (-> & _ & ?). Qed.

Lemma step_release s i :
  ginv s -> pcs s !! i = Some Releasing ->
  ginv (GS (release (grp s)) (<[i := Stopped]> (pcs s)) (guards s)).
Proof.
  intros Hi Hp.
  pose proof (gi_inside _ Hi _ _ Hp I) as Ho. pose proof (gi_release _ Hi _ Hp) as Ha.
  assert (guards s = []) as Hg.
  { pose proof (gi_active _ Hi) as Ha'. rewrite Ho, Hp in Ha'. cbn in Ha'. by apply length_zero_iff_nil; lia. }
  split; cbn; rewrite ?Hg.
  - intros j q Hj. pc_cases; eauto using gi_id.
  - intros j q Hj Hin. pc_cases; [done|]. pose proof (gi_inside _ Hi _ _ Hj Hin). congruence.
  - intros gd Hgd. by apply elem_of_nil in Hgd.
  - destruct (_ !! MTX_UNOWNED) eqn:E; [|done]. pc_cases; [by apply (gi_id _ Hi) in Hp|]. by apply (gi_id _ Hi) in E.
  - done.
  - rewrite <- Hg. exact (gi_members _ Hi).
Qed.

Lemma step_spawn s : ginv s -> ginv (GS (spawn (grp s)) (pcs s) (guards s)).
Proof.
  intros Hi.
  destruct Hi as [H1 H2 H3 H4 H5 H6]. split; cbn; try done.
  - intros gd Hgd. rewrite length_app. cbn. apply H3 in Hgd as (? & ? & ?). split_and!; [done|done|lia..].
  - intros k v Hk. apply lookup_app_Some in Hk as [Hk|[Hge Hk]]; [by apply H6|].
    destruct (k - length (members (grp s)))%nat as [|n] eqn:E; [|done]. cbn in Hk. injection Hk as <-.
    right. assert (forall a, on a (Z.of_nat k) (guards s) = 0) as Hon; [|rewrite !Hon; unfold u64_max; lia].
    intros a. apply on_zero. intros gd Hgd Hx. apply H3 in Hgd. lia.
Qed.

Lemma ginv_step s s' : ginv s -> gstep s s' -> ginv s'.
Proof.
  intros Hi Hs. destruct Hs as [s i a k g Hp H|s i p Hp H|s i a k g Hp H|s i a k p Hp H|s i a k g Hp H
    |s i a k p Hp H|s i a k l1 l2 g Hp Hg H|s i b g Hp H|s i Hp|s].
  - by eapply step_acquire.
  - by eapply ginv_stop.
  - pose proof (gi_inside _ Hi _ _ Hp I) as Ho. unfold guard_new in H. inv_arith.
    eapply ginv_owner_step; try done; cbn; [|rewrite (gi_active _ Hi), Hp; cbn; lia|exact (gi_members _ Hi)].
    intros gd Hgd. by apply ginv_guard in Hgd.
  - by eapply ginv_stop.
  - pose proof (gi_inside _ Hi _ _ Hp I) as Ho.
    destruct (enter_Ok i _ _ _ _ _ H (gi_members _ Hi)) as (Ho' & Ha & Hl & Hk & Hm).
    eapply ginv_owner_step; try done; [congruence|lia| |].
    + intros gd Hgd. rewrite Hl. apply elem_of_cons in Hgd as [->|Hgd]; [done|].
      apply ginv_guard in Hgd; [|done]. by rewrite Ho in Hgd.
    + rewrite Ha, (gi_active _ Hi), Ho, Hp. cbn. lia.
  - pose proof (gi_inside _ Hi _ _ Hp I) as Ho.
    eapply ginv_owner_step; try done; [|rewrite (gi_active _ Hi), Ho, Hp; done|exact (gi_members _ Hi)].
    intros gd Hgd. apply ginv_guard in Hgd; [|done]. by rewrite Ho in Hgd.
  - destruct (ginv_guard s (Guard i a k) Hi) as [Ho Hk]; [rewrite Hg; set_solver|]. cbn in Ho, Hk.
    pose proof (gi_members _ Hi) as Hm. rewrite Hg in Hm.
    destruct (leave_Ok i a k (grp s) l1 l2 Hk Hm) as (g' & Hl & Ho' & Ha & Hlen & Hm'). rewrite Hl in H; simplify_eq.
    eapply ginv_owner_step; try done; [lia| |].
    + intros gd Hgd. rewrite Hlen. apply ginv_guard; [done|]. rewrite Hg. set_solver.
    + rewrite Ha, (gi_active _ Hi), Hp, Hg, !length_app. cbn. lia.
  - pose proof (gi_inside _ Hi _ _ Hp I) as Ho. unfold guard_drop in H. inv_arith.
    assert (active (grp s) = Z.of_nat (length (guards s)) + 1) as Ha.
    { rewrite (gi_active _ Hi), Hp. done. }
    eapply ginv_owner_step; try done; cbn.
    + intros gd Hgd. by apply ginv_guard in Hgd.
    + destruct (_ =? 0); cbn; lia.
    + destruct (_ =? 0) eqn:?; bool_to_prop; [lia|done].
    + exact (gi_members _ Hi).
  - by apply step_release.
  - by apply step_spawn.
Qed.

Lemma ginv_start s : gstart s -> ginv s.
Proof.
  intros (Hg & Hgs & Hp). split; rewrite ?Hg, ?Hgs; cbn.
  - intros i p Hi. apply Hp in Hi; tauto.
  - intros i p Hi Hin. by apply Hp in Hi as [-> _].
  - intros g H. by apply elem_of_nil in H.
  - destruct (pcs s !! MTX_UNOWNED) as [p|] eqn:E; [|done]. by apply Hp in E as [-> _].
  - done.
  - intros k v H. by rewrite lookup_nil in H.
Qed.

Lemma ginv_reachable s0 s : gstart s0 -> rtc gstep s0 s -> ginv s.
Proof.
  intros H0 Hs. apply ginv_start in H0. induction Hs as [|s1 s2 s3 H12 H23 IH]; [done|].
  by apply IH, (ginv_step s1).
Qed.

Lemma on_pos a k l j g : l !! j = Some g -> g_access g = a -> g_member g = k -> 1 <= on a k l.
Proof.
  intros Hj <- <-. apply list_elem_of_lookup_2, list_elem_of_split in Hj as (l1 & l2 & ->).
  rewrite on_mid, on_cons, decide_True by done. pose proof (on_nonneg (g_access g) (g_member g) (l1 ++ l2)). lia.
Qed.

Lemma on_two a k l j j' g g' :
  j <> j' -> l !! j = Some g -> l !! j' = Some g' -> g_access g = a -> g_access g' = a ->
  g_member g = k -> g_member g' = k -> 2 <= on a k l.
Proof.
  intros Hne Hj Hj' Ha Ha' Hk Hk'. destruct (decide (j < j')%nat) as [Hlt|Hge].
  - rewrite <- (take_drop j' l), on_app.
    assert (1 <= on a k (take j' l)) by (eapply (on_pos a k _ j); [rewrite lookup_take_lt by lia|..]; done).
    assert (1 <= on a k (drop j' l)); [|lia].
    eapply (on_pos a k _ 0); [rewrite lookup_drop, Nat.add_0_r|..]; done.
  - rewrite <- (take_drop j l), on_app.
    assert (1 <= on a k (take j l)) by (eapply (on_pos a k _ j'); [rewrite lookup_take_lt by lia|..]; done).
    assert (1 <= on a k (drop j l)); [|lia].
    eapply (on_pos a k _ 0); [rewrite lookup_drop, Nat.add_0_r|..]; done.
Qed.

(** C11: all live guards of a group of gutexes belong to one thread; two
    guards on the same gutex are both read guards; the word of each gutex
    counts its readers or marks its one writer; and dropping a guard never
    underflows a counter. *)
Theorem gutex_exclusion s0 s :
  gstart s0 -> rtc gstep s0 s ->
  (forall g g', g ∈ guards s -> g' ∈ guards s -> g_thread g = g_thread g')
  /\ (forall j j' g g', j <> j' -> guards s !! j = Some g -> guards s !! j' = Some g' ->
       g_member g = g_member g' -> g_access g = Read /\ g_access g' = Read)
  /\ (forall k v, members (grp s) !! k = Some v ->
       if decide (on Write (Z.of_nat k) (guards s) = 0) then v = on Read (Z.of_nat k) (guards s)
       else v = u64_max)
  /\ (forall g, g ∈ guards s -> is_ok (leave (g_access g) (g_member g) (grp s)))
  /\ (forall i, pcs s !! i = Some Dropping -> is_ok (guard_drop (grp s))).
Proof.
  intros H0 Hs. apply (ginv_reachable s0) in Hs as Hi; [|done]. split_and!.
  - intros g g' Hg Hg'. apply ginv_guard in Hg as [-> _]; [|done]. by apply ginv_guard in Hg' as [-> _].
  - intros j j' g g' Hne Hj Hj' Hm.
    destruct (ginv_guard s g Hi) as [_ Hk]; [by eapply list_elem_of_lookup_2|].
    destruct (lookup_lt_is_Some_2 (members (grp s)) (Z.to_nat (g_member g))) as [v Hv]; [lia|].
    apply (gi_members _ Hi) in Hv. rewrite Z2Nat.id in Hv by lia.
    unfold member_ok in Hv.
    destruct (g_access g) eqn:Ha, (g_access g') eqn:Ha'; [done|exfalso..].
    + pose proof (on_pos _ _ _ _ _ Hj Ha eq_refl). pose proof (on_pos _ _ _ _ _ Hj' Ha' eq_refl). rewrite <- Hm in *. lia.
    + pose proof (on_pos _ _ _ _ _ Hj Ha eq_refl). pose proof (on_pos _ _ _ _ _ Hj' Ha' eq_refl). rewrite <- Hm in *. lia.
    + pose proof (on_two _ _ _ _ _ _ _ Hne Hj Hj' Ha Ha' eq_refl (eq_sym Hm)). lia.
  - intros k v Hk. apply (gi_members _ Hi) in Hk. unfold member_ok in Hk. case_decide; lia.
  - intros g Hg. destruct (ginv_guard s g Hi Hg) as [_ Hk]. apply list_elem_of_split in Hg as (l1 & l2 & Hg).
    pose proof (gi_members _ Hi) as Hm. rewrite Hg in Hm. destruct g as [i a k].
    destruct (leave_Ok i a k (grp s) l1 l2 Hk Hm) as (g' & Hl & _). cbn [g_access g_member]. by rewrite Hl.
  - intros i Hd. pose proof (gi_inside _ Hi _ _ Hd I) as Ho. pose proof (gi_active _ Hi) as Ha.
    rewrite Ho, Hd in Ha. cbn in Ha. unfold guard_drop, usub. rewrite (proj2 (Z.leb_le _ _)) by lia. done.
Qed.

(** A group with one member, which thread 16 reads twice. *)
Definition demo_group : gstate := GS group_new {[16 := Running; 32 := Running]} [].
Definition demo_guards : list guard := [Guard 16 Read 0; Guard 16 Read 0].

Lemma gutex_exclusion_witness :
  exists s, guards s = demo_guards /\ members (grp s) = [2]
  /\ (forall k v, members (grp s) !! k = Some v ->
       if decide (on Write (Z.of_nat k) (guards s) = 0) then v = on Read (Z.of_nat k) (guards s)
       else v = u64_max).
Proof.
  eexists (GS (Group 16 2 [2]) _ demo_guards). split_and!; [done..|].
  refine (proj1 (proj2 (proj2 (gutex_exclusion demo_group _ _ _)))).
  - split_and!; [done..|]. intros i p. cbn. rewrite lookup_insert. case_decide as H1.
    { subst. intros [= <-]. done. }
    rewrite lookup_singleton. case_decide as H2; [subst; intros [= <-]; done|done].
  - eapply rtc_l; [apply g_spawn|]. cbn.
    do 2 (eapply rtc_l; [eapply (g_acquire _ 16 Read 0); reflexivity|]; cbn;
          eapply rtc_l; [eapply (g_guard _ 16 Read 0); reflexivity|]; cbn;
          eapply rtc_l; [eapply (g_enter _ 16 Read 0); reflexivity|]; cbn).
    apply rtc_refl.
Defined.

End LockProps.
