(* ===== verification/Vm.v ===== *)
(** * Virtual memory

    Models [kernel/src/vm]: the page counts and statistics that [Vm::new]
    sets up from [phys_avail], the allocation of a page, and the allocator of
    physical pages. *)
From S2P Require Import Prelude Thread Lock Bitflag PhysMem.

Module Vm.
Import Thread Bitflag PhysMem.
Local Open Scope string_scope.
Local Open Scope list_scope.
Local Open Scope Z_scope.

Notation res := (outcome no_error).

(** ** Physical pages *)

Record VmPage := Page { p_flags : Z }.

(** A [VecDeque<VmPage>] for each order, of each pool; the lists of the two
    virtual memories are the elements of one [Arc]. *)
Abbreviation queues := (list (list VmPage)).
Abbreviation freelist := (list queues).

Record PhysAllocator := Phys { nfree : Z; lookup_lists : list (list freelist) }.

(** The loop of [PhysAllocator::new] over the blocks of [phys_avail]. *)
Fixpoint phys_loop (fuel : nat) (phys_avail : list Z) (i nfree : Z) : res Z :=
  match fuel with
  | O => Panic PUnreachable
  | S fuel =>
      addr ← arr_get phys_avail i;
      end_ ← arr_get phys_avail (i + 1);
      if end_ =? 0 then Ok nfree
      else phys_loop fuel phys_avail (i + 2) (if addr <? 16777216 then 1 else nfree)
  end.

Definition empty_queues : list freelist := replicate 2 (replicate 3 (replicate 13 [])).

Definition phys_new (phys_avail : list Z) : res PhysAllocator :=
  nfree ← phys_loop (length phys_avail) phys_avail 0 0;
  Ok (Phys nfree [empty_queues; empty_queues]).

(** The first loop of [alloc_freelist], over the orders of the pool; taking a
    page that is found is unfinished. *)
Fixpoint own_pool (fuel : nat) (list_ : freelist) (pool order i : Z) : res unit :=
  match fuel with
  | O => Panic PUnreachable
  | S fuel =>
      qs ← arr_get list_ pool;
      q ← arr_get qs (order + i);
      match head q with
      | Some _ => Panic PTodo
      | None => if order + i <? 12 then own_pool fuel list_ pool order (i + 1) else Ok tt
      end
  end.

(** The search for a non-empty queue of one order in every pool. *)
Fixpoint any_pool (list_ : freelist) (next : Z) : res (option VmPage) :=
  match list_ with
  | [] => Ok None
  | f :: fs =>
      q ← arr_get f (next + 1);
      match head q with Some p => Ok (Some p) | None => any_pool fs next end
  end.

(** The second loop of [alloc_freelist], from order [next] downwards. *)
Fixpoint other_pools (fuel : nat) (list_ : freelist) (order next : Z) : res unit :=
  match fuel with
  | O => Panic PUnreachable
  | S fuel =>
      found ← any_pool list_ next;
      match found with
      | Some _ => Panic PTodo
      | None =>
          if (next <? order) || (next =? 0) then Ok tt else other_pools fuel list_ order (next - 1)
      end
  end.

Definition alloc_freelist (list_ : freelist) (pool order : Z) : res (option VmPage) :=
  if 13 <=? order then Ok None
  else
    own_pool 13 list_ pool order 0;;
    other_pools 12 list_ order 11;;
    Ok None.

(** The loop of [PhysAllocator::alloc_page]. *)
Fixpoint lookup_loop (fuel : nat) (ph : PhysAllocator) (vm pool order i : Z) : res (option VmPage) :=
  match fuel with
  | O => Panic PUnreachable
  | S fuel =>
      l ← arr_get (lookup_lists ph) i;
      list_ ← arr_get l vm;
      r ← alloc_freelist list_ pool order;
      match r with
      | Some p => Ok (Some p)
      | None =>
          if nfree ph + 1 <=? i + 1 then Ok None else lookup_loop fuel ph vm pool order (i + 1)
      end
  end.

Definition phys_alloc_page (ph : PhysAllocator) (vm pool order : Z) : res (option VmPage) :=
  lookup_loop (S (Z.to_nat (nfree ph))) ph vm pool order 0.

(** ** Initialisation *)

Record VmStats := Stats {
  free_reserved : Z;
  cache_count : Z;
  free_count : Z;
  interrupt_free_min : Z
}.

(** A pager is a weak reference: the address of the process, if it has one. *)
Record t := Mk {
  phys : PhysAllocator;
  stats : list VmStats;
  pagers : list (option Z);
  pages_deficit : list Z
}.

(** [page_count] of both memories and [free_count[0]]. *)
Record counts := Counts { page0 : Z; page1 : Z; free0 : Z }.

(** The integer literals of [page_count] are [i32]. *)
Definition i32_incr (n : Z) : res Z := if n + 1 <? 2 ^ 31 then Ok (n + 1) else Panic POverflow.

(** The loop over the pages of one block. *)
Fixpoint count_pages (fuel : nat) (blocked : bool) (unk game_end addr end_ : Z) (c : counts) : res counts :=
  match fuel with
  | O => Panic PUnreachable
  | S fuel =>
      if addr <? end_ then
        panic_if blocked PTodo;;
        c ←
          (if (addr <? unk) || (game_end <=? addr) then
             p ← i32_incr (page0 c); f ← uadd (free0 c) 1; Ok (Counts p (page1 c) f)
           else p ← i32_incr (page1 c); Ok (Counts (page0 c) p (free0 c)));
        addr ← uadd addr PAGE_SIZE;
        count_pages fuel blocked unk game_end addr end_ c
      else Ok c
  end.

(** The loop over the blocks of [phys_avail]. *)
Fixpoint count_blocks (fuel : nat) (blocked : bool) (unk game_end : Z) (phys_avail : list Z) (i : Z)
    (c : counts) : res counts :=
  match fuel with
  | O => Panic PUnreachable
  | S fuel =>
      addr ← arr_get phys_avail i;
      end_ ← arr_get phys_avail (i + 1);
      if end_ =? 0 then Ok c
      else
        c ← count_pages (S (Z.to_nat ((end_ - addr + PAGE_SIZE - 1) / PAGE_SIZE)))
              blocked unk game_end addr end_ c;
        count_blocks fuel blocked unk game_end phys_avail (i + 2) c
  end.

Definition pageout_page_count : Z := 0x10.

(** [Vm::new]; [blocked] says whether [vm.blacklist] is in the environment. *)
Definition new (phys_avail : list Z) (blocked : bool) (game_end fmem_max : Z) : res t :=
  phys ← phys_new phys_avail;
  unk ← usub game_end fmem_max;
  c ← count_blocks (length phys_avail) blocked unk game_end phys_avail 0 (Counts 0 0 0);
  Ok (Mk phys
        [Stats (pageout_page_count + 100 + 10) 0 (free0 c) 2; Stats pageout_page_count 0 0 2]
        [None; None] [0; 0]).

(** ** Allocation of a page *)

(** The process of the current thread: its address and [Proc::pager]. *)
Record proc := Proc { p_addr : Z; p_pager : Z }.

Definition Interrupt : Z := mask_of VmAlloc "Interrupt".
Definition System : Z := mask_of VmAlloc "System".
Definition Cached : Z := mask_of VmAlloc "Cached".
Definition Count : Z := mask_of VmAlloc "Count".

(** The flags that decide what a request may do when memory is low. *)
Definition low_flags (vm : t) (p : proc) (flags : Z) : res Z :=
  pager ← arr_get (pagers vm) (p_pager p);
  let flags :=
    if bool_decide (pager = Some (p_addr p)) then System
    else Z.land flags (Z.lor Interrupt System) in
  Ok (if Z.land flags (Z.lor Interrupt System) =? Interrupt then Interrupt else flags).

Definition deficit (flags : Z) : res Z :=
  n ← get 32 from_raw_u16 flags Count;
  Ok (Z.max 1 n).

(** Dropping the last guard of a gutex group runs into the unfinished
    wake-up. *)
Definition drop_last_guard {A} : res A := Panic PTodo.

(** The check of the statistics before a page is taken; the path that gives
    up drops the guards first. *)
Definition check_available (vm : t) (p : proc) (st : VmStats) (flags : Z) : res unit :=
  available ← uadd (free_count st) (cache_count st);
  if available <=? free_reserved st then
    flags ← low_flags vm p flags;
    if flags =? Interrupt then Panic PTodo
    else if flags =? System then
      if available <=? interrupt_free_min st then deficit flags;; drop_last_guard
      else Ok tt
    else Panic PTodo
  else Ok tt.

(** [Vm::alloc_page]; [obj] is the memory of the object, if there is one. *)
Definition alloc_page (vm : t) (p : proc) (obj : option Z) (flags : Z) : res (option VmPage) :=
  let v := default 0 obj in
  st ← arr_get (stats vm) v;
  check_available vm p st flags;;
  page ←
    match obj with
    | Some _ => Panic PTodo
    | None =>
        if has_any flags Cached then drop_last_guard
        else phys_alloc_page (phys vm) v 1 0
    end;
  page ← unwrap_or_panic PUnwrap page;
  Panic PTodo.

End Vm.
