(* ===== verification/VmProps.v ===== *)
(** * Properties of the virtual memory *)
From S2P Require Import Prelude Blocks Thread Lock Bitflag PhysMem Vm.

Module VmProps.
Import Blocks Bitflag PhysMem Vm.
Local Open Scope list_scope.
Local Open Scope Z_scope.

(** The addresses of the pages of the blocks. *)
Definition pages (bs : list (Z * Z)) : list Z := b ← bs; step_by b.1 b.2 PAGE_SIZE.

(** The pages outside of the flexible memory of the game. *)
Definition outside (unk game_end : Z) (l : list Z) : Z :=
  Z.of_nat (length (filter (fun a => a < unk \/ game_end <= a) l)).

Lemma outside_cons unk ge a l :
  outside unk ge (a :: l)
  = (if (a <? unk) || (ge <=? a) then 1 else 0) + outside unk ge l.
Proof.
  unfold outside. rewrite filter_cons.
  destruct (Z.ltb_spec a unk), (Z.leb_spec ge a); cbn; case_decide; cbn; lia.
Qed.

Lemma outside_app unk ge l l' : outside unk ge (l ++ l') = outside unk ge l + outside unk ge l'.
Proof. unfold outside. rewrite filter_app, length_app. lia. Qed.

Lemma outside_bound unk ge l : 0 <= outside unk ge l <= Z.of_nat (length l).
Proof. unfold outside. pose proof (length_filter (fun a => a < unk \/ ge <= a) l). lia. Qed.

(** The counts after the pages [l]. *)
Definition counted (unk ge : Z) (l : list Z) (c : counts) : counts :=
  Counts (page0 c + outside unk ge l) (page1 c + (Z.of_nat (length l) - outside unk ge l))
    (free0 c + outside unk ge l).

Lemma length_step_by lo hi st : 0 < st -> Z.of_nat (length (step_by lo hi st)) = Z.max 0 ((hi - lo + st - 1) / st).
Proof. intros Hst. unfold step_by. rewrite length_fmap, length_seqZ. lia. Qed.

Lemma count_pages_spec unk ge fuel addr end_ c :
  end_ + PAGE_SIZE <= 2 ^ 64 -> 0 <= page0 c -> 0 <= page1 c -> 0 <= free0 c ->
  page0 c + page1 c + Z.of_nat (length (step_by addr end_ PAGE_SIZE)) < 2 ^ 31 ->
  free0 c + Z.of_nat (length (step_by addr end_ PAGE_SIZE)) < 2 ^ 31 ->
  (length (step_by addr end_ PAGE_SIZE) < fuel)%nat ->
  count_pages fuel false unk ge addr end_ c = Ok (counted unk ge (step_by addr end_ PAGE_SIZE) c).
Proof.
  intros He. revert addr c. induction fuel as [|fuel IH]; intros addr c H0 H1 Hf Hp Hfr Hfuel; [lia|].
  cbn [count_pages]. destruct (Z.ltb_spec addr end_) as [Hlt|Hge].
  2: { rewrite step_by_nil by (done || lia). unfold counted, outside. cbn. rewrite !Z.add_0_r. by destruct c. }
  rewrite step_by_cons in * by done. cbn [length] in *. cbn [panic_if mbind outcome_bind].
  unfold i32_incr, uadd. unfold counted. rewrite outside_cons. change (2 ^ 64) with (2 ^ 31 * 2 ^ 33) in *.
  destruct ((addr <? unk) || (ge <=? addr)).
  - rewrite !(proj2 (Z.ltb_lt _ _)) by lia. cbn [mbind outcome_bind].
    rewrite IH by (cbn; lia). unfold counted. cbn. do 2 f_equal; lia.
  - rewrite !(proj2 (Z.ltb_lt _ _)) by lia. cbn [mbind outcome_bind].
    rewrite IH by (cbn; lia). unfold counted. cbn. do 2 f_equal; lia.
Qed.

(** The end of a block is not the end mark. *)
Definition proper (bs : list (Z * Z)) : Prop := Forall (fun b => b.1 < b.2 /\ 0 < b.2 /\ b.2 + PAGE_SIZE <= 2 ^ 64) bs.

Lemma count_blocks_spec unk ge s rest bs pre fuel c :
  proper bs -> (length bs < fuel)%nat -> 0 <= page0 c -> 0 <= page1 c -> 0 <= free0 c ->
  page0 c + page1 c + Z.of_nat (length (pages bs)) < 2 ^ 31 ->
  free0 c + Z.of_nat (length (pages bs)) < 2 ^ 31 ->
  count_blocks fuel false unk ge (flatten (pre ++ bs) ++ s :: 0 :: rest) (2 * Z.of_nat (length pre)) c
  = Ok (counted unk ge (pages bs) c).
Proof.
  revert pre fuel c. induction bs as [|[a e] bs IH]; intros pre [|fuel] c Hb Hfuel H0 H1 Hf Hp Hfr; cbn in Hfuel; try lia;
    cbn [count_blocks].
  - rewrite app_nil_r, get_lo. cbn [mbind outcome_bind]. rewrite get_hi. cbn [mbind outcome_bind].
    unfold counted, outside. cbn. rewrite !Z.add_0_r. by destruct c.
  - rewrite flatten_app, <- app_assoc, flatten_cons. cbn [fst snd app].
    rewrite get_lo. cbn [mbind outcome_bind]. rewrite get_hi. cbn [mbind outcome_bind].
    apply Forall_cons in Hb as [(Hlt & Hpos & Hmax) Hb]. cbn [fst snd] in *.
    rewrite (proj2 (Z.eqb_neq _ _)) by lia.
    assert (pages ((a, e) :: bs) = step_by a e PAGE_SIZE ++ pages bs) as Hpg by done.
    rewrite Hpg in *. rewrite length_app in *.
    pose proof (length_step_by a e PAGE_SIZE ltac:(done)) as Hl.
    rewrite count_pages_spec by (cbn; lia). cbn [mbind outcome_bind].
    pose proof (outside_bound unk ge (step_by a e PAGE_SIZE)) as Hob.
    replace (2 * Z.of_nat (length pre) + 2) with (2 * Z.of_nat (length (pre ++ [(a, e)])))
      by (rewrite length_app; cbn; lia).
    replace (flatten pre ++ a :: e :: flatten bs ++ s :: 0 :: rest)
      with (flatten ((pre ++ [(a, e)]) ++ bs) ++ s :: 0 :: rest)
      by (rewrite !flatten_app; cbn; by rewrite <- !app_assoc).
    rewrite IH; [|done|lia|cbn; lia..].
    unfold counted. cbn. rewrite outside_app, length_app. do 2 f_equal; lia.
Qed.

Lemma phys_loop_spec s rest bs pre fuel n :
  proper bs -> (length bs < fuel)%nat ->
  phys_loop fuel (flatten (pre ++ bs) ++ s :: 0 :: rest) (2 * Z.of_nat (length pre)) n
  = Ok (if decide (Exists (fun b => b.1 < 16777216) bs) then 1 else n).
Proof.
  revert pre fuel n. induction bs as [|[a e] bs IH]; intros pre [|fuel] n Hb Hfuel; cbn in Hfuel; try lia;
    cbn [phys_loop].
  - rewrite app_nil_r, get_lo. cbn [mbind outcome_bind]. rewrite get_hi. cbn [mbind outcome_bind].
    rewrite decide_False; [done|]. by intros H%Exists_nil.
  - rewrite flatten_app, <- app_assoc, flatten_cons. cbn [fst snd app].
    rewrite get_lo. cbn [mbind outcome_bind]. rewrite get_hi. cbn [mbind outcome_bind].
    apply Forall_cons in Hb as [(Hlt & Hpos & Hmax) Hb]. cbn [fst snd] in *.
    rewrite (proj2 (Z.eqb_neq _ _)) by lia.
    replace (2 * Z.of_nat (length pre) + 2) with (2 * Z.of_nat (length (pre ++ [(a, e)])))
      by (rewrite length_app; cbn; lia).
    replace (flatten pre ++ a :: e :: flatten bs ++ s :: 0 :: rest)
      with (flatten ((pre ++ [(a, e)]) ++ bs) ++ s :: 0 :: rest)
      by (rewrite !flatten_app; cbn; by rewrite <- !app_assoc).
    rewrite IH; [|done|lia]. f_equal.
    destruct (Z.ltb_spec a 16777216) as [Ha|Ha].
    + rewrite (decide_True (P := Exists _ (_ :: _))) by by left. by case_decide.
    + apply decide_ext. rewrite Exists_cons. cbn. naive_solver lia.
Qed.

(** For a table of available memory that ends with a zero entry,
    [Vm::new] succeeds.  The first memory has as many free pages as the table
    has pages outside of the flexible memory of the game, the second memory
    has none, and the allocator starts with empty queues and knows about the
    low memory exactly if a block starts in it. *)
Theorem vm_new_counts bs s rest ge fm :
  proper bs -> 0 <= fm <= ge -> Z.of_nat (length (pages bs)) < 2 ^ 31 ->
  new (flatten bs ++ s :: 0 :: rest) false ge fm
  = Ok (Mk (Phys (if decide (Exists (fun b => b.1 < 16777216) bs) then 1 else 0)
              [empty_queues; empty_queues])
          [Stats 126 0 (outside (ge - fm) ge (pages bs)) 2; Stats 16 0 0 2]
          [None; None] [0; 0]).
Proof.
  intros Hb Hfm Hn. unfold new, phys_new.
  assert (length bs < length (flatten bs ++ s :: 0%Z :: rest))%nat as Hlen
    by (rewrite length_app, length_flatten; cbn; lia).
  rewrite (phys_loop_spec s rest bs []) by done. cbn [mbind outcome_bind].
  rewrite (proj2 (usub_Ok ge fm (ge - fm))) by lia. cbn [mbind outcome_bind].
  rewrite (count_blocks_spec (ge - fm) ge s rest bs []) by (done || cbn; lia). done.
Qed.

(** 1 MiB of low memory and 2 MiB above 4 GiB, of which the last 1 MiB
    is flexible memory. *)
Lemma vm_new_counts_witness :
  exists vm, new ([0; 0x100000; 0x100000000; 0x100200000] ++ [0; 0]) false 0x100200000 0x100000 = Ok vm
    /\ nfree (phys vm) = 1 /\ free_count <$> stats vm = [64 + 64; 0].
Proof.
  eexists. split.
  - apply (vm_new_counts [(0, 0x100000); (0x100000000, 0x100200000)] 0 []).
    + unfold proper, PAGE_SIZE, PAGE_SHIFT. rewrite !Forall_cons. cbn [fst snd]. split_and!; try apply Forall_nil; lia || done.
    + lia.
    + change (pages _) with (step_by 0 0x100000 PAGE_SIZE ++ step_by 0x100000000 0x100200000 PAGE_SIZE ++ []).
      rewrite !length_app, !Nat2Z.inj_add, !length_step_by by done. done.
  - split; [done|]. vm_compute. done.
Defined.

(** When memory is low, [alloc_page] computes the number of pages to ask
    the pager for from flags that it has already reduced to the two class
    bits, so the count of the request is lost and the deficit is always
    one page. *)
Theorem lost_page_count vm p flags f :
  low_flags vm p flags = Ok f -> deficit f = Ok 1.
Proof.
  unfold low_flags. intros H. apply bind_Ok in H as (pager & _ & H). inv_ok.
  set (g := if bool_decide (pager = Some (p_addr p)) then System else Z.land flags (Z.lor Interrupt System)).
  assert (Z.land g Count = 0) as Hg.
  { subst g. case_match; [done|]. rewrite <- Z.land_assoc. change (Z.land (Z.lor Interrupt System) Count) with 0.
    apply Z.land_0_r. }
  unfold deficit, get. destruct (_ =? Interrupt); [done|]. by rewrite Hg.
Qed.

(** A request for 64 pages at system level counts as one page. *)
Lemma lost_page_count_witness :
  low_flags (Mk (Phys 0 []) [] [None; None] [0; 0]) (Proc 64 0) (Z.lor System (64 * 2 ^ 16)) = Ok System
  /\ deficit System = Ok 1.
Proof.
  split; [vm_compute; reflexivity|].
  apply (lost_page_count (Mk (Phys 0 []) [] [None; None] [0; 0]) (Proc 64 0) (Z.lor System (64 * 2 ^ 16))).
  vm_compute. reflexivity.
Defined.

End VmProps.
