(* ===== verification/Uma.v ===== *)
(** * The zone allocator

    Models [kernel/src/uma]: the layout of a keg, the zones with their
    per-CPU caches and buckets, and the table that selects a bucket zone.
    A pointer is an address, zero is null. *)
From S2P Require Import Prelude Thread Lock Bitflag PhysMem Vm.
From stdpp Require Import pretty.

Module Uma.
Import Thread Bitflag PhysMem.
Local Open Scope string_scope.
Local Open Scope list_scope.
Local Open Scope Z_scope.

Notation res := (outcome no_error).

(** [!v] on [usize]. *)
Definition unot (v : Z) : Z := u64_max - v.

(** ** Layouts *)

(** [core::alloc::Layout], and the operations that the allocator uses. *)
Record Layout := L { l_size : Z; l_align : Z }.

(** [Layout::extend]: the new layout and the offset of the added part. *)
Definition extend (l next : Layout) : Layout * Z :=
  let off := round_up (l_size l) (l_align next) in
  (L (off + l_size next) (Z.max (l_align l) (l_align next)), off).

Definition pad_to_align (l : Layout) : Layout := L (round_up (l_size l) (l_align l)) (l_align l).

(** [Layout::array] of [n] elements. *)
Definition array (n : Z) (elem : Layout) : Layout := L (n * l_size elem) (l_align elem).

(** The layouts of the [repr(C)] structures without items. *)
Definition layout_Slab : Layout := L 0 1.
Definition layout_Free : Layout := L 0 1.
Definition layout_RcFree : Layout := L 0 1.
Definition layout_UmaBucket : Layout := L 8 8.
Definition layout_BucketItem : Layout := L 0 1.

(** ** Constants *)

Definition SMALLEST_UNIT : Z := PAGE_SIZE / 256.
Definition MAX_WASTE : Z := PAGE_SIZE / 10.
Definition BUCKET_MAX : Z := 128.
Definition BUCKET_SHIFT : Z := 4.
Definition BUCKET_SIZES : list Z := [16; 32; 64; 128].

Definition uf (n : string) : Z := mask_of UmaFlags n.
Definition af (n : string) : Z := mask_of Alloc n.

(** ** Kegs *)

Inductive allocf := small_alloc_f | page_alloc_f.

Record UmaKeg := Keg {
  k_size : Z;
  k_ipers : Z;
  k_alloc : allocf;
  k_max_pages : Z;
  k_pages : Z;
  k_free : Z;
  k_recurse : Z;
  k_flags : Z
}.

(** [uk_ppera] and [uk_ipers] for [CacheSpread]. *)
Definition spread_layout (size align : Z) : res (Z * Z) :=
  rsize ←
    (if Z.land size align =? 0 then Ok size
     else r ← uadd (Z.land size (unot align)) align; uadd r 1);
  align ← uadd align 1;
  rsize ← (if Z.land rsize align =? 0 then uadd rsize align else Ok rsize);
  p ← umul (PAGE_SIZE / align) rsize;
  let pages := Z.shiftr p PAGE_SHIFT in
  let ppera := Z.min pages ((128 * 1024) / PAGE_SIZE) in
  sp ← umul ppera PAGE_SIZE;
  d ← usub rsize size;
  n ← uadd sp d;
  Ok (ppera, n / rsize).

(** [uk_ppera] for an item that does not fit into a page. *)
Definition large_ppera (size : Z) : Z :=
  let ppera := Z.shiftr size PAGE_SHIFT in
  if Z.land size (unot PAGE_MASK) <? size then ppera + 1 else ppera.

(** [uk_rsize] and [uk_ipers] for items in one page. *)
Definition small_layout (size align flags free_item available : Z) : res (Z * Z) :=
  let rsize := Z.max size SMALLEST_UNIT in
  rsize ←
    (if Z.land align rsize =? 0 then Ok rsize
     else r ← uadd align 1; uadd r (Z.land (unot align) rsize));
  n ← uadd rsize free_item;
  let ipers := available / n in
  panic_if (negb (has_any flags (Z.lor (uf "Internal") (uf "CacheOnly")))
            && (MAX_WASTE <=? available mod n) && (ipers <? PAGE_SIZE / rsize)) PTodo;;
  Ok (rsize, ipers).

Definition keg_new (size align flags : Z) : res UmaKeg :=
  panic_if (has_any flags (uf "Vm")) PTodo;;
  panic_if (has_any flags (uf "ZInit")) PTodo;;
  let flags :=
    if has_any flags (Z.lor (uf "Malloc") (uf "RefCnt")) then Z.lor flags (uf "VToSlab") else flags in
  (* Get header layout. *)
  let '(hdr, off) :=
    extend layout_Slab (if has_any flags (uf "RefCnt") then layout_RcFree else layout_Free) in
  let hdr := l_size (pad_to_align hdr) in
  free_item ← usub hdr off;
  available ← usub PAGE_SIZE hdr;
  (* Get uk_ppera and uk_ipers. *)
  '(ppera, ipers, flags) ←
    (if has_any flags (uf "CacheSpread") then
       '(ppera, ipers) ← spread_layout size align;
       Ok (ppera, ipers, flags)
     else
       need ← uadd size free_item;
       if available <? need then
         let flags :=
           if has_any flags (uf "Internal") then flags
           else
             let flags := Z.lor flags (uf "Offpage") in
             if has_any flags (uf "VToSlab") then flags else Z.lor flags (uf "Hash") in
         Ok (large_ppera size, 1, flags)
       else
         '(_, ipers) ← small_layout size align flags free_item available;
         Ok (1, ipers, flags));
  let alloc := if ppera =? 1 then small_alloc_f else page_alloc_f in
  panic_if (has_any flags (uf "MtxClass")) PTodo;;
  (if has_any flags (uf "Offpage") then Ok tt
   else
     space ← umul ppera PAGE_SIZE;
     a ← usub space hdr;
     b ← umul ipers free_item;
     pgoff ← usub a b;
     c ← uadd pgoff hdr;
     d ← uadd c b;
     panic_if (space <? d) (PExplicit "UMA slab won't fit"));;
  panic_if (has_any flags (uf "Hash")) PTodo;;
  Ok (Keg size ipers alloc 0 0 0 0 flags).

(** The flags that [small_alloc] of x86-64 requests a page with. *)
Definition small_alloc_flags (flags : Z) : res Z :=
  a ← usub (Z.shiftr (Z.land flags 0x100) 2) (if Z.land flags 0x401 =? 1 then 1 else 0);
  Ok (Z.lor (a + 0x22) 0x100).

(** [small_alloc] of x86-64; the page is not used yet. *)
Definition small_alloc (vm : Vm.t) (p : Vm.proc) (flags : Z) : res unit :=
  f ← small_alloc_flags flags;
  Vm.alloc_page vm p None f;;
  Panic PTodo.

(** [UmaKeg::page_alloc]. *)
Definition page_alloc : res unit := Panic PTodo.

Definition alloc_slab (vm : Vm.t) (p : Vm.proc) (k : UmaKeg) (flags : Z) : res unit :=
  if has_any (k_flags k) (uf "Offpage") then Panic PTodo
  else
    let flags :=
      if has_any (k_flags k) (uf "Malloc") then Z.land flags (2 ^ 32 - 1 - af "Zero")
      else Z.lor flags (af "Zero") in
    match k_alloc k with
    | small_alloc_f => small_alloc vm p flags
    | page_alloc_f => page_alloc
    end;;
    Panic PTodo.

(** [UmaKeg::fetch_slab]: [None], or unfinished code. *)
Definition keg_fetch_slab (vm : Vm.t) (p : Vm.proc) (k : UmaKeg) (flags : Z) : res (option unit) :=
  if k_free k =? 0 then
    if has_any flags (af "NoVm") then Ok None
    else
      panic_if (negb (k_max_pages k =? 0) && (k_max_pages k <=? k_pages k)) PTodo;;
      panic_if (2 ^ 32 <=? k_recurse k + 1) POverflow;;
      let k := Keg (k_size k) (k_ipers k) (k_alloc k) (k_max_pages k) (k_pages k) (k_free k)
                 (k_recurse k + 1) (k_flags k) in
      alloc_slab vm p k flags;;
      Panic PTodo
  else Panic PTodo.

(** ** Zones *)

Inductive ZoneType := Other | MbufPacket | MbufJumboPage | Mbuf | MbufCluster | MbufClusterPack.

(** A bucket is its number of items. *)
Record UmaCache := Cache {
  c_alloc : option Z;
  c_free : option Z;
  c_allocs : Z;
  c_frees : Z
}.

Definition cache_default : UmaCache := Cache None None 0 0.

Inductive UmaZone := Zone {
  z_bucket_enable : bool;
  z_bucket_keys : list Z;
  z_bucket_zones : list UmaZone;
  z_ty : ZoneType;
  z_size : Z;
  z_kegs : list UmaKeg;
  z_caches : list UmaCache;
  z_full_buckets : list Z;
  z_free_buckets : list Z;
  z_alloc_count : Z;
  z_free_count : Z;
  z_count : Z;
  z_flags : Z
}.

Definition ALIGN_CACHE : Z := 63.

(** The type and the bucket size of the zones with a special name. *)
Definition named_zone (name : string) (count : Z) : ZoneType * Z :=
  if String.eqb name "mbuf_packet" then (MbufPacket, 4)
  else if String.eqb name "mbuf_cluster_pack" then (MbufClusterPack, BUCKET_MAX)
  else if String.eqb name "mbuf_jumbo_page" then (MbufJumboPage, 1)
  else if String.eqb name "mbuf" then (Mbuf, 16)
  else if String.eqb name "mbuf_cluster" then (MbufCluster, 1)
  else (Other, count).

Definition inherit : Z :=
  foldr (fun n m => Z.lor (uf n) m) 0
    ["Offpage"; "Malloc"; "Hash"; "RefCnt"; "VToSlab"; "Bucket"; "Internal"; "CacheOnly"].

Definition zone_new (max_cpu : nat) (bucket_enable : bool) (bucket_keys : list Z)
    (bucket_zones : list UmaZone) (name : string) (keg : option UmaKeg) (size : Z) (align : option Z)
    (flags : Z) : res UmaZone :=
  panic_if (has_any flags (uf "Secondary")) PTodo;;
  keg ← match keg with Some v => Ok v | None => keg_new size (default ALIGN_CACHE align) flags end;
  let '(ty, count) :=
    if has_any (k_flags keg) (uf "Internal") then (Other, 0)
    else
      named_zone name
        (if has_any (k_flags keg) (uf "MaxBucket") then BUCKET_MAX else Z.min (k_ipers keg) BUCKET_MAX) in
  Ok (Zone bucket_enable bucket_keys bucket_zones ty (k_size keg) [keg]
        (cpu_local_new max_cpu (fun _ => cache_default)) [] [] 0 0 count
        (Z.lor zeroed (Z.land (k_flags keg) inherit))).

(** [alloc_from_cache]: taking an item of a bucket is unfinished, so the
    result is null; at most one swap precedes it. *)
Fixpoint alloc_from_cache_loop (fuel : nat) (c : UmaCache) : res (Z * UmaCache) :=
  match fuel with
  | O => Panic PUnreachable
  | S fuel =>
      match c_alloc c with
      | None => Ok (0, c)
      | Some b =>
          if negb (b =? 0) then Panic PTodo
          else
            match c_free c with
            | Some b' =>
                if negb (b' =? 0)
                then alloc_from_cache_loop fuel (Cache (c_free c) (c_alloc c) (c_allocs c) (c_frees c))
                else Ok (0, c)
            | None => Ok (0, c)
            end
      end
  end.
Definition alloc_from_cache (c : UmaCache) : res (Z * UmaCache) := alloc_from_cache_loop 2 c.

(** The loop of [UmaZone::fetch_slab]; [UmaKeg::fetch_slab] returns [None]
    only for [NoVm], which ends the loop. *)
Definition zone_fetch_slab (vm : Vm.t) (p : Vm.proc) (z : UmaZone) (flags : Z) : res (option unit) :=
  k ← unwrap_or_panic PUnwrap (head (z_kegs z));
  (if negb (has_any (k_flags k) (uf "Bucket")) || (k_recurse k =? 0) then
     r ← keg_fetch_slab vm p k flags;
     match r with
     | Some v => Ok (Some v)
     | None =>
         if has_any flags (Z.lor (af "NoWait") (af "NoVm")) then Ok None else Panic PUnreachable
     end
   else Ok None);;
  (* The guard of the kegs is dropped. *)
  Vm.drop_last_guard.

Definition alloc_item (vm : Vm.t) (p : Vm.proc) (z : UmaZone) (flags : Z) : res Z :=
  zone_fetch_slab vm p z flags;;
  Panic PTodo.

(** The index into [bucket_keys] for a bucket of [count] items. *)
Definition bucket_index (count : Z) : Z := Z.shiftr (count + 15) BUCKET_SHIFT.

Definition alloc_bucket (vm : Vm.t) (p : Vm.proc) (z : UmaZone) (flags : Z) : res bool :=
  match z_free_buckets z with
  | _ :: _ => Panic PTodo
  | [] =>
      if z_bucket_enable z then
        let flags := Z.land flags (2 ^ 32 - 1 - af "Zero") in
        let flags := if has_any (z_flags z) (uf "CacheOnly") then Z.lor flags (af "NoVm") else flags in
        k ← arr_get (z_bucket_keys z) (bucket_index (z_count z));
        bz ← arr_get (z_bucket_zones z) k;
        alloc_item vm p bz flags;;
        Panic PTodo
      else Ok tt
  end;;
  (* The guards of the free buckets and of the count are dropped. *)
  Vm.drop_last_guard.

(** [*count += 1] for the zones whose buckets grow. *)
Definition grow_count (z : UmaZone) : Z :=
  match z_ty z with
  | MbufCluster | Mbuf | MbufJumboPage | MbufPacket | MbufClusterPack => z_count z
  | Other => if z_count z <? BUCKET_MAX then z_count z + 1 else z_count z
  end.

Definition zone_set (z : UmaZone) (caches : list UmaCache) (full free : list Z)
    (allocs frees count : Z) : UmaZone :=
  Zone (z_bucket_enable z) (z_bucket_keys z) (z_bucket_zones z) (z_ty z) (z_size z) (z_kegs z)
    caches full free allocs frees count (z_flags z).

(** The part of one round of [UmaZone::alloc] that holds the zone: the
    statistics of the cache of CPU [cpu] are moved to the zone, its empty
    bucket is put aside and a full bucket takes its place. *)
Definition refill_cache (z : UmaZone) (cpu : Z) : res (option Z * UmaZone) :=
  c ← arr_get (z_caches z) cpu;
  '(mem, c) ← alloc_from_cache c;
  caches ← arr_set (z_caches z) cpu c;
  if negb (mem =? 0) then
    Ok (Some mem, zone_set z caches (z_full_buckets z) (z_free_buckets z) (z_alloc_count z)
                    (z_free_count z) (z_count z))
  else
    allocs ← uadd (z_alloc_count z) (c_allocs c);
    frees ← uadd (z_free_count z) (c_frees c);
    let free := match c_alloc c with Some b => b :: z_free_buckets z | None => z_free_buckets z end in
    match z_full_buckets z with
    | b :: full =>
        '(mem, c) ← alloc_from_cache (Cache (Some b) (c_free c) 0 0);
        caches ← arr_set caches cpu c;
        assert_that (negb (mem =? 0));;
        Ok (Some mem, zone_set z caches full free allocs frees (z_count z))
    | [] =>
        caches ← arr_set caches cpu (Cache None (c_free c) 0 0);
        Ok (None, zone_set z caches [] free allocs frees (z_count z))
    end.

Definition is_mbuf (ty : ZoneType) : bool :=
  match ty with MbufPacket | MbufJumboPage | Mbuf | MbufCluster => true | _ => false end.

(** The rounds of [UmaZone::alloc]; [cpu n] is the CPU of the thread at its
    two pins in round [n]. *)
Fixpoint zone_alloc_loop (fuel n : nat) (cpu : nat -> Z * Z) (vm : Vm.t) (p : Vm.proc) (z : UmaZone)
    (flags : Z) : res (Z * UmaZone) :=
  match fuel with
  | O => Panic PUnreachable
  | S fuel =>
      c ← arr_get (z_caches z) (cpu n).1;
      '(mem, c) ← alloc_from_cache c;
      caches ← arr_set (z_caches z) (cpu n).1 c;
      let z := zone_set z caches (z_full_buckets z) (z_free_buckets z) (z_alloc_count z)
                 (z_free_count z) (z_count z) in
      if negb (mem =? 0) then Ok (mem, z)
      else
        '(mem, z) ← refill_cache z (cpu n).2;
        match mem with
        | Some mem => (* The guards of the zone are dropped. *) Vm.drop_last_guard
        | None =>
            panic_if (is_mbuf (z_ty z)) PTodo;;
            let z := zone_set z (z_caches z) (z_full_buckets z) (z_free_buckets z) (z_alloc_count z)
                       (z_free_count z) (grow_count z) in
            b ← alloc_bucket vm p z flags;
            if b : bool then mem ← alloc_item vm p z flags; Ok (mem, z)
            else zone_alloc_loop fuel (S n) cpu vm p z flags
        end
  end.

(** [UmaZone::alloc] by thread [td]; [alloc_bucket] never returns [false], so
    there is one round. *)
Definition zone_alloc (td : Thread.t) (cpu : nat -> Z * Z) (vm : Vm.t) (p : Vm.proc) (z : UmaZone)
    (flags : Z) : res (Z * UmaZone) :=
  (if has_any flags (af "Wait")
   then panic_if (negb (can_sleep td))
          (PExplicit "attempt to do waitable heap allocation in a non-sleeping context")
   else Ok tt);;
  zone_alloc_loop 1 0 cpu vm p z flags.

(** ** The allocator *)

Record t := Mk { bucket_enable : bool; bucket_keys : list Z; bucket_zones : list UmaZone }.

(** [while ki <= size { bucket_keys.push(si); ki += 1 << BUCKET_SHIFT }]. *)
Fixpoint push_keys (fuel : nat) (ki size si : Z) (keys : list Z) : Z * list Z :=
  match fuel with
  | O => (ki, keys)
  | S fuel =>
      if ki <=? size then push_keys fuel (ki + Z.shiftl 1 BUCKET_SHIFT) size si (keys ++ [si])
      else (ki, keys)
  end.

(** The layout of a bucket of [size] items. *)
Definition bucket_layout (size : Z) : Layout :=
  pad_to_align (extend layout_UmaBucket (array size layout_BucketItem)).1.

(** The loop of [Uma::new]. *)
Fixpoint new_loop (max_cpu : nat) (sizes : list Z) (si ki : Z) (keys : list Z) (zones : list UmaZone)
    : res (list Z * list UmaZone) :=
  match sizes with
  | [] => Ok (keys, zones)
  | size :: sizes =>
      let layout := bucket_layout size in
      panic_if (l_size layout =? 0) PUnwrap;;
      z ← zone_new max_cpu true [] [] (pretty size +:+ " Bucket") None (l_size layout)
            (Some (l_align layout - 1)) (Z.lor (uf "Bucket") (uf "Internal"));
      let '(ki, keys) := push_keys (S (Z.to_nat size)) ki size si keys in
      new_loop max_cpu sizes (si + 1) ki keys (zones ++ [z])
  end.

Definition new (max_cpu : nat) : res t :=
  '(keys, zones) ← new_loop max_cpu BUCKET_SIZES 0 0 [] [];
  Ok (Mk true keys zones).

Definition create_zone (max_cpu : nat) (u : t) (name : string) (size : Z) (align : option Z) (flags : Z)
    : res UmaZone :=
  zone_new max_cpu (bucket_enable u) (bucket_keys u) (bucket_zones u) name None size align flags.

End Uma.
