(* ===== verification/Heap.v ===== *)
(** * The kernel heap

    Models [kernel/src/malloc]: [VmHeap], which allocates from a table of
    zones, and [KernelHeap], which starts on a static buffer and switches to
    the [VmHeap].  The allocator of the static buffer, the [talc] crate, is a
    parameter. *)
From S2P Require Import Prelude Thread Lock Bitflag PhysMem Vm Uma.
From stdpp Require Import pretty.

Module Heap.
Import Thread Lock Bitflag PhysMem Uma.
Local Open Scope string_scope.
Local Open Scope list_scope.
Local Open Scope Z_scope.

Notation res := (outcome no_error).

(** ** The VM heap *)

Record Stats := St { alloc_bytes : Z; alloc_count : Z }.

(** [zones] holds references ([Arc]) to the zones in [store]. *)
Record VmHeap := VH { store : list UmaZone; zones : list (list Z); stats : list Stats }.

Definition KMEM_ZSHIFT : Z := 4.
Definition KMEM_ZBASE : Z := 16.
Definition KMEM_ZMASK : Z := KMEM_ZBASE - 1.

(** [while last <= size { zones.push(zone.clone()); last += KMEM_ZBASE }]. *)
Fixpoint push_zones (fuel : nat) (last size zone : Z) (zs : list Z) : Z * list Z :=
  match fuel with
  | O => (last, zs)
  | S fuel =>
      if last <=? size then push_zones fuel (last + KMEM_ZBASE) size zone (zs ++ [zone])
      else (last, zs)
  end.

(** The loop over the sizes of the zones of one alignment, from [1 << i]. *)
Fixpoint size_loop (fuel : nat) (max_cpu : nat) (u : Uma.t) (align i last : Z) (zs : list Z)
    (store : list UmaZone) : res (list Z * list UmaZone) :=
  match fuel with
  | O => Panic PUnreachable
  | S fuel =>
      let size := Z.shiftl 1 i in
      if PAGE_SIZE <? size then Ok (zs, store)
      else
        z ← create_zone max_cpu u (pretty size) size (Some (align - 1)) (uf "Malloc");
        let '(last, zs) := push_zones (S (Z.to_nat size)) last size (Z.of_nat (length store)) zs in
        size_loop fuel max_cpu u align (i + 1) last zs (store ++ [z])
  end.

(** The loop over the alignments. *)
Fixpoint align_loop (n : nat) (max_cpu : nat) (u : Uma.t) (a : Z) (zs : list (list Z))
    (store : list UmaZone) : res (list (list Z) * list UmaZone) :=
  match n with
  | O => Ok (zs, store)
  | S n =>
      '(z, store) ← size_loop 64 max_cpu u (Z.shiftl 1 a) KMEM_ZSHIFT 0 [] store;
      align_loop n max_cpu u (a + 1) (zs ++ [z]) store
  end.

(** [VmHeap::new]: the table has [usize::BITS - 1] rows. *)
Definition vm_heap_new (max_cpu : nat) (u : Uma.t) : res VmHeap :=
  '(zs, store) ← align_loop 63 max_cpu u 0 [] [];
  Ok (VH store zs (cpu_local_new max_cpu (fun _ => St 0 0))).

(** The size that selects the zone. *)
Definition zone_size (size : Z) : Z :=
  if negb (Z.land size KMEM_ZMASK =? 0) then Z.land (size + KMEM_ZBASE) (unot KMEM_ZMASK) else size.

(** The zone for a layout. *)
Definition select_zone (h : VmHeap) (l : Layout) : res Z :=
  row ← arr_get (zones h) (trailing_zeros 64 (l_align l));
  arr_get row (Z.shiftr (zone_size (l_size l)) KMEM_ZSHIFT).

Definition count_alloc (st : Stats) (size : Z) : res Stats :=
  if negb (size =? 0) then
    b ← unwrap_or_panic PUnwrap (checked_add (alloc_bytes st) size);
    n ← uadd (alloc_count st) 1;
    Ok (St b n)
  else Ok st.

(** [VmHeap::alloc] by thread [td], whose process is [p]; [cpu] are its CPUs
    while it is pinned in the zone, [cpu'] the one of the statistics. *)
Definition vm_heap_alloc (td : Thread.t) (cpu : nat -> Z * Z) (cpu' : Z) (vm : Vm.t) (p : Vm.proc)
    (h : VmHeap) (l : Layout) : res (Z * Thread.t * VmHeap) :=
  panic_if (negb (can_sleep td))
    (PExplicit "heap allocation in a non-sleeping context is not supported");;
  td ← disable_vm_heap (id td) td;
  '(mem, h) ←
    (if l_size l <=? PAGE_SIZE then
       zi ← select_zone h l;
       zone ← arr_get (store h) zi;
       '(mem, zone) ← zone_alloc td cpu vm p zone (Z.lor (af "Wait") (af "Zero"));
       store ← arr_set (store h) zi zone;
       st ← arr_get (stats h) cpu';
       st ← count_alloc st (if mem =? 0 then 0 else z_size zone);
       stats ← arr_set (stats h) cpu' st;
       Ok (mem, VH store (zones h) stats)
     else Panic PTodo);
  td ← drop_heap_guard (id td) td;
  Ok (mem, td, h).

(** [VmHeap::dealloc]. *)
Definition vm_heap_dealloc (h : VmHeap) (ptr : Z) (l : Layout) : res VmHeap := Panic PTodo.

(** ** The kernel heap *)

Section kernel_heap.
Context {Talc : Type} (malloc : Talc -> Layout -> option Z * Talc) (free : Talc -> Z -> Layout -> Talc).

(** The mutex around the primitive heap in stage two is its owner word. *)
Inductive Stage :=
  | One (primitive : Talc)
  | Two (vm : VmHeap) (owning : Z) (primitive : Talc).

Record KernelHeap := KH { stage : Stage; primitive_ptr : Z; primitive_end : Z }.

Definition kernel_heap_new (talc : Talc) (ptr len : Z) : KernelHeap := KH (One talc) ptr (ptr + len).

(** [activate_stage2]; a second call is undefined behaviour. *)
Definition activate_stage2 (max_cpu : nat) (u : Uma.t) (k : KernelHeap) : res (option KernelHeap) :=
  vm ← vm_heap_new max_cpu u;
  match stage k with
  | One v => Ok (Some (KH (Two vm MTX_UNOWNED v) (primitive_ptr k) (primitive_end k)))
  | Two _ _ _ => Ok None
  end.

(** [primitive.lock()], an operation, and the drop of the guard. *)
Definition with_primitive {A} (td : Thread.t) (owning : Z) (f : A) : res (A * Z * Thread.t) :=
  '(owning, td) ← mutex_lock td owning;
  '(owning, td) ← mutex_unlock td owning;
  Ok (f, owning, td).

Definition alloc (td : Thread.t) (cpu : nat -> Z * Z) (cpu' : Z) (vm : Vm.t) (p : Vm.proc)
    (k : KernelHeap) (l : Layout) : res (Z * Thread.t * KernelHeap) :=
  let set st := KH st (primitive_ptr k) (primitive_end k) in
  match stage k with
  | One prim =>
      let '(r, prim) := malloc prim l in
      Ok (default 0 r, td, set (One prim))
  | Two h owning prim =>
      g ← get_active_heap_guard (id td) td;
      if g =? 0 then
        '(mem, td, h) ← vm_heap_alloc td cpu cpu' vm p h l;
        Ok (mem, td, set (Two h owning prim))
      else
        '(r, prim, owning, td) ← with_primitive td owning (malloc prim l);
        Ok (default 0 r, td, set (Two h owning prim))
  end.

Definition dealloc (td : Thread.t) (k : KernelHeap) (ptr : Z) (l : Layout)
    : res (Thread.t * KernelHeap) :=
  let set st := KH st (primitive_ptr k) (primitive_end k) in
  match stage k with
  | One prim => Ok (td, set (One (free prim ptr l)))
  | Two h owning prim =>
      if (primitive_ptr k <=? ptr) && (ptr <? primitive_end k) then
        '(prim, owning, td) ← with_primitive td owning (free prim ptr l);
        Ok (td, set (Two h owning prim))
      else
        h ← vm_heap_dealloc h ptr l;
        Ok (td, set (Two h owning prim))
  end.

End kernel_heap.

End Heap.
