(* ===== verification/UmaProps.v ===== *)
(** * Properties of the zone allocator *)
From S2P Require Import Prelude Thread Lock Bitflag PhysMem Vm Uma.

Module UmaProps.
Import Thread Bitflag PhysMem Uma.
Local Open Scope string_scope.
Local Open Scope list_scope.
Local Open Scope Z_scope.

(** ** Kegs *)

Lemma has_any_lor a b m : has_any (Z.lor a b) m = has_any a m || has_any b m.
Proof.
  unfold has_any. rewrite Z.land_lor_distr_l.
  destruct (Z.eqb_spec (Z.land a m) 0) as [Ha|Ha], (Z.eqb_spec (Z.land b m) 0) as [Hb|Hb],
    (Z.eqb_spec (Z.lor (Z.land a m) (Z.land b m)) 0) as [H|H]; cbn; try done.
  - by rewrite Ha, Hb in H.
  - by apply Z.lor_eq_0_iff in H as [_ ?].
  - by apply Z.lor_eq_0_iff in H as [? _].
  - by apply Z.lor_eq_0_iff in H as [? _].
Qed.

Lemma has_any_lor_r a m m' : has_any a (Z.lor m m') = has_any a m || has_any a m'.
Proof.
  unfold has_any. rewrite (Z.land_comm a (Z.lor m m')), (Z.land_comm a m), (Z.land_comm a m').
  apply (has_any_lor m m' a).
Qed.

(** The stride of the items of a small keg with alignment [2 ^ k]. *)
Definition stride (size k : Z) : Z := round_up (Z.max size SMALLEST_UNIT) (2 ^ k).

(** The bit operations of [small_layout] round up. *)
Lemma small_rsize r k :
  0 <= k < 64 -> 0 < r < 2 ^ 64 -> round_up r (2 ^ k) < 2 ^ 64 ->
  (if Z.land (2 ^ k - 1) r =? 0 then Ok r
   else a ← uadd (2 ^ k - 1) 1; uadd a (Z.land (unot (2 ^ k - 1)) r))
  = Ok (round_up r (2 ^ k)) :> res Z.
Proof.
  intros Hk Hr Hup. assert (0 < 2 ^ k) as Hpos by (apply Z.pow_pos_nonneg; lia).
  assert (2 ^ k < 2 ^ 64) as Hlt by (apply Z.pow_lt_mono_r; lia).
  rewrite <- (Z.pred_succ (2 ^ k - 1)), <- !Z.sub_1_r.
  replace (Z.succ (2 ^ k - 1) - 1) with (Z.ones k) by (rewrite Z.ones_equiv; lia).
  rewrite Z.land_comm, Z.land_ones by lia. unfold round_up in *.
  destruct (Z.eqb_spec (r mod 2 ^ k) 0) as [He|He]; [done|].
  rewrite Z.ones_equiv. unfold unot, u64_max.
  replace (2 ^ 64 - 1 - Z.pred (2 ^ k)) with (2 ^ 64 - 2 ^ k) by lia.
  rewrite Z.land_comm, land_high by lia.
  rewrite (proj2 (uadd_Ok _ 1 (2 ^ k))) by lia. cbn [mbind outcome_bind].
  apply uadd_Ok. lia.
Qed.

Lemma stride_bounds size k :
  0 < size -> 0 <= k -> size <= stride size k /\ 64 <= stride size k /\ stride size k mod 2 ^ k = 0
    /\ stride size k < Z.max size 64 + 2 ^ k.
Proof.
  intros Hs Hk. unfold stride. change SMALLEST_UNIT with 64.
  destruct (round_up_spec (Z.max size 64) (2 ^ k)) as [H1 H2]; [apply Z.pow_pos_nonneg; lia|]. lia.
Qed.

Lemma small_layout_ok size k flags :
  0 < size <= PAGE_SIZE -> 0 <= k < 63 ->
  small_layout size (2 ^ k - 1) flags 0 PAGE_SIZE = Ok (stride size k, PAGE_SIZE / stride size k).
Proof.
  intros Hs Hk. pose proof (stride_bounds size k ltac:(lia) ltac:(lia)) as (H1 & H2 & H3 & H4).
  assert (2 ^ k <= 2 ^ 62) as Hp by (apply Z.pow_le_mono_r; lia).
  change PAGE_SIZE with 16384 in *.
  unfold small_layout. rewrite small_rsize; [|lia|change SMALLEST_UNIT with 64; lia|].
  2: { change (stride size k < 2 ^ 64). lia. }
  cbn [mbind outcome_bind]. fold (stride size k). rewrite (proj2 (uadd_Ok _ 0 (stride size k))) by lia.
  cbn [mbind outcome_bind]. rewrite Z.ltb_irrefl, andb_false_r. done.
Qed.

(** Flags that [keg_new] does not support yet, or that change the layout. *)
Definition unsupported : Z :=
  foldr (fun n m => Z.lor (uf n) m) 0 ["Vm"; "ZInit"; "CacheSpread"; "MtxClass"; "Hash"].

Lemma supported flags :
  has_any flags unsupported = false ->
  has_any flags (uf "Vm") = false /\ has_any flags (uf "ZInit") = false
  /\ has_any flags (uf "CacheSpread") = false /\ has_any flags (uf "MtxClass") = false
  /\ has_any flags (uf "Hash") = false.
Proof.
  unfold unsupported. cbn [foldr]. rewrite !has_any_lor_r, !orb_false_iff. tauto.
Qed.

(** The flags after the first part of [keg_new]. *)
Definition with_vtoslab (flags : Z) : Z :=
  if has_any flags (Z.lor (uf "Malloc") (uf "RefCnt")) then Z.lor flags (uf "VToSlab") else flags.

Lemma with_vtoslab_other flags n :
  has_any (uf "VToSlab") (uf n) = false -> has_any (with_vtoslab flags) (uf n) = has_any flags (uf n).
Proof.
  intros H. unfold with_vtoslab. case_match; [|done]. by rewrite has_any_lor, H, orb_false_r.
Qed.

Lemma large_ppera_ge size :
  PAGE_SIZE < size < 2 ^ 63 -> 1 < large_ppera size /\ large_ppera size * PAGE_SIZE < 2 ^ 64.
Proof.
  intros H. unfold large_ppera, unot, u64_max, PAGE_MASK.
  replace (2 ^ 64 - 1 - (PAGE_SIZE - 1)) with (2 ^ 64 - 2 ^ 14) by done.
  rewrite land_high by (change PAGE_SIZE with 16384 in H; lia).
  rewrite Z.shiftr_div_pow2 by done. change PAGE_SHIFT with 14. change PAGE_SIZE with (2 ^ 14) in *.
  pose proof (Z.div_mod size (2 ^ 14) ltac:(done)). pose proof (Z.mod_pos_bound size (2 ^ 14) ltac:(done)).
  destruct (Z.ltb_spec (size - size mod 2 ^ 14) size); nia.
Qed.

(** The slab fits for any number of pages: its header is empty. *)
Lemma slab_fits ppera ipers :
  0 <= ppera -> ppera * PAGE_SIZE < 2 ^ 64 ->
  (space ← umul ppera PAGE_SIZE; a ← usub space 0; b ← umul ipers 0; pgoff ← usub a b;
   c ← uadd pgoff 0; d ← uadd c b; panic_if (space <? d) (PExplicit "UMA slab won't fit")) = Ok tt :> res unit.
Proof.
  intros H0 Hlt. rewrite (proj2 (umul_Ok ppera PAGE_SIZE _) (conj eq_refl Hlt)). cbn [mbind outcome_bind].
  set (n := ppera * PAGE_SIZE) in *. assert (0 <= n) by (subst n; change PAGE_SIZE with 16384; lia).
  rewrite (proj2 (usub_Ok n 0 n)) by lia. cbn [mbind outcome_bind].
  rewrite (proj2 (umul_Ok ipers 0 0)) by lia. cbn [mbind outcome_bind].
  rewrite (proj2 (usub_Ok n 0 n)) by lia. cbn [mbind outcome_bind].
  rewrite (proj2 (uadd_Ok n 0 n)) by lia. cbn [mbind outcome_bind].
  rewrite (proj2 (uadd_Ok n 0 n)) by lia. cbn [mbind outcome_bind].
  by rewrite Z.ltb_irrefl.
Qed.

(** The part of [keg_new] that does not depend on the layout of the header. *)
Lemma keg_new_eq size align flags :
  keg_new size align flags =
  (panic_if (has_any flags (uf "Vm")) PTodo;;
   panic_if (has_any flags (uf "ZInit")) PTodo;;
   let flags := with_vtoslab flags in
   '(ppera, ipers, flags) ←
     (if has_any flags (uf "CacheSpread") then
        '(ppera, ipers) ← spread_layout size align; Ok (ppera, ipers, flags)
      else
        need ← uadd size 0;
        if PAGE_SIZE <? need then
          Ok (large_ppera size, 1,
              if has_any flags (uf "Internal") then flags
              else let flags := Z.lor flags (uf "Offpage") in
                   if has_any flags (uf "VToSlab") then flags else Z.lor flags (uf "Hash"))
        else '(_, ipers) ← small_layout size align flags 0 PAGE_SIZE; Ok (1, ipers, flags));
   panic_if (has_any flags (uf "MtxClass")) PTodo;;
   (if has_any flags (uf "Offpage") then Ok tt
    else space ← umul ppera PAGE_SIZE; a ← usub space 0; b ← umul ipers 0; pgoff ← usub a b;
         c ← uadd pgoff 0; d ← uadd c b; panic_if (space <? d) (PExplicit "UMA slab won't fit"));;
   panic_if (has_any flags (uf "Hash")) PTodo;;
   Ok (Keg size ipers (if ppera =? 1 then small_alloc_f else page_alloc_f) 0 0 0 0 flags)).
Proof.
  unfold keg_new. fold (with_vtoslab flags).
  replace (if has_any (with_vtoslab flags) (uf "RefCnt") then layout_RcFree else layout_Free)
    with layout_Free by (by case_match).
  done.
Qed.

Lemma keg_new_small size k flags :
  has_any flags unsupported = false -> 0 < size <= PAGE_SIZE -> 0 <= k < 63 ->
  keg_new size (2 ^ k - 1) flags
  = Ok (Keg size (PAGE_SIZE / stride size k) small_alloc_f 0 0 0 0 (with_vtoslab flags)).
Proof.
  intros (Hv & Hz & Hc & Hm & Hh)%supported Hs Hk. rewrite keg_new_eq, Hv, Hz.
  cbn [panic_if mbind outcome_bind]. cbv zeta. rewrite (with_vtoslab_other _ "CacheSpread"), Hc by done.
  rewrite (proj2 (uadd_Ok size 0 size)) by (change PAGE_SIZE with 16384 in Hs; lia).
  cbn [mbind outcome_bind]. rewrite (proj2 (Z.ltb_ge _ _)) by lia.
  rewrite small_layout_ok by done. cbn [mbind outcome_bind].
  rewrite (with_vtoslab_other _ "MtxClass"), Hm by done. rewrite (with_vtoslab_other _ "Hash"), Hh by done.
  rewrite slab_fits by done. by destruct (has_any _ (uf "Offpage")).
Qed.

(** *** Items that are spread over the lines of the cache *)

Lemma land_pow2_eqb a k : 0 <= k -> (Z.land a (2 ^ k) =? 0) = negb (Z.odd (a / 2 ^ k)).
Proof.
  intros Hk. rewrite <- Z.shiftr_div_pow2 by done. rewrite <- Z.testbit_odd.
  assert (Z.land a (2 ^ k) = if Z.testbit a k then 2 ^ k else 0) as ->.
  { apply Z.bits_inj'. intros j Hj. rewrite Z.land_spec, Z.pow2_bits_eqb by done.
    destruct (Z.eqb_spec k j) as [->|Hne].
    - rewrite andb_true_r. destruct (Z.testbit a j); [by rewrite Z.pow2_bits_true|by rewrite Z.bits_0].
    - rewrite andb_false_r. destruct (Z.testbit a k); [|by rewrite Z.bits_0].
      rewrite Z.pow2_bits_eqb by done. symmetry. by apply Z.eqb_neq. }
  destruct (Z.testbit a k); [|done]. apply Z.eqb_neq, Z.pow_nonzero; lia.
Qed.

(** The stride is the next odd multiple of the alignment. *)
Definition spread_stride (size k : Z) : Z :=
  let r := round_up size (2 ^ k) in if Z.odd (r / 2 ^ k) then r else r + 2 ^ k.
Lemma spread_stride_spec size k :
  0 < size -> 0 <= k ->
  let r := spread_stride size k in
  size <= r < size + 2 * 2 ^ k /\ r mod 2 ^ k = 0 /\ Z.odd (r / 2 ^ k) = true.
Proof.
  intros Hs Hk. assert (0 < 2 ^ k) as Hp by (apply Z.pow_pos_nonneg; lia). unfold spread_stride.
  destruct (round_up_spec size (2 ^ k) Hp) as [H1 H2]. destruct (Z.odd _) eqn:Ho; cbn; [split; [lia|done]|].
  split; [lia|]. rewrite <- (Z.mul_1_l (2 ^ k)) at 2. rewrite Z.mod_add by lia. split; [done|].
  rewrite <- (Z.mul_1_l (2 ^ k)) at 2. rewrite Z.div_add by lia. by rewrite Z.odd_add, Ho.
Qed.
Definition spread_pages (size k : Z) : Z := Z.min (PAGE_SIZE / 2 ^ k * spread_stride size k / PAGE_SIZE) 8.

Lemma spread_pages_bounds size k : 0 < size -> 0 <= k -> 0 <= spread_pages size k <= 8.
Proof.
  intros Hs Hk. assert (0 < 2 ^ k) as Hp by (apply Z.pow_pos_nonneg; lia).
  pose proof (spread_stride_spec size k Hs Hk) as (H1 & _). cbv zeta in H1. unfold spread_pages.
  assert (0 <= PAGE_SIZE / 2 ^ k) by (apply Z.div_pos; [done|lia]).
  pose proof (Z.div_pos (PAGE_SIZE / 2 ^ k * spread_stride size k) PAGE_SIZE ltac:(nia) ltac:(done)). lia.
Qed.

Lemma spread_round size k :
  0 < size < 2 ^ 63 -> 0 <= k < 63 ->
  (if Z.land size (2 ^ k - 1) =? 0 then Ok size else r ← uadd (Z.land size (unot (2 ^ k - 1))) (2 ^ k - 1); uadd r 1)
  = Ok (round_up size (2 ^ k)) :> res Z.
Proof.
  intros Hs Hk. assert (0 < 2 ^ k) as Hp by (apply Z.pow_pos_nonneg; lia).
  assert (2 ^ k <= 2 ^ 62) as Hlt by (apply Z.pow_le_mono_r; lia).
  replace (2 ^ k - 1) with (Z.ones k) by (rewrite Z.ones_equiv; lia).
  rewrite Z.land_ones by lia. unfold round_up. pose proof (Z.mod_pos_bound size (2 ^ k) Hp).
  pose proof (Z.mod_le size (2 ^ k) ltac:(lia) Hp).
  destruct (Z.eqb_spec (size mod 2 ^ k) 0) as [He|He]; [done|].
  rewrite Z.ones_equiv. unfold unot, u64_max.
  replace (2 ^ 64 - 1 - Z.pred (2 ^ k)) with (2 ^ 64 - 2 ^ k) by lia. rewrite land_high by lia.
  rewrite (proj2 (uadd_Ok _ _ (size - size mod 2 ^ k + Z.pred (2 ^ k)))) by lia. cbn [mbind outcome_bind].
  apply uadd_Ok. lia.
Qed.

Lemma spread_layout_ok size k :
  0 < size < 2 ^ 49 -> 0 <= k < 63 ->
  spread_layout size (2 ^ k - 1)
  = Ok (spread_pages size k, (spread_pages size k * PAGE_SIZE + (spread_stride size k - size)) / spread_stride size k).
Proof.
  intros Hs Hk. assert (0 < 2 ^ k) as Hp by (apply Z.pow_pos_nonneg; lia).
  assert (2 ^ k <= 2 ^ 62) as Hlt by (apply Z.pow_le_mono_r; lia).
  pose proof (spread_stride_spec size k ltac:(lia) ltac:(lia)) as (H1 & _). cbv zeta in H1.
  destruct (round_up_spec size (2 ^ k) Hp) as [H2 _].
  assert (0 <= PAGE_SIZE / 2 ^ k * spread_stride size k < 2 ^ 64) as Hm.
  { assert (0 <= PAGE_SIZE / 2 ^ k) by (apply Z.div_pos; [done|lia]).
    pose proof (Z.mul_div_le PAGE_SIZE (2 ^ k) Hp). change PAGE_SIZE with 16384 in *. nia. }
  unfold spread_layout. rewrite spread_round by lia. cbn [mbind outcome_bind].
  rewrite (proj2 (uadd_Ok (2 ^ k - 1) 1 (2 ^ k))) by lia. cbn [mbind outcome_bind].
  rewrite land_pow2_eqb by lia.
  assert ((if negb (Z.odd (round_up size (2 ^ k) / 2 ^ k)) then uadd (round_up size (2 ^ k)) (2 ^ k) else Ok (round_up size (2 ^ k)))
    = Ok (spread_stride size k) :> res Z) as ->.
  { unfold spread_stride. destruct (Z.odd _); [done|]. cbn. apply uadd_Ok. lia. }
  cbn [mbind outcome_bind]. rewrite (proj2 (umul_Ok _ _ _) (conj eq_refl (proj2 Hm))). cbn [mbind outcome_bind].
  rewrite Z.shiftr_div_pow2 by done. change (2 ^ PAGE_SHIFT) with PAGE_SIZE. change (128 * 1024 / PAGE_SIZE) with 8.
  fold (spread_pages size k).
  pose proof (spread_pages_bounds size k ltac:(lia) ltac:(lia)) as Hpg.
  change PAGE_SIZE with 16384.
  rewrite (proj2 (umul_Ok (spread_pages size k) 16384 (spread_pages size k * 16384))) by lia. cbn [mbind outcome_bind].
  rewrite (proj2 (usub_Ok (spread_stride size k) size (spread_stride size k - size))) by lia. cbn [mbind outcome_bind].
  by rewrite (proj2 (uadd_Ok (spread_pages size k * 16384) (spread_stride size k - size) _)) by (split; [done|lia]).
Qed.

(** *** Every keg *)

(** Flags for which [keg_new] is not finished. *)
Definition unfinished : Z := foldr (fun n m => Z.lor (uf n) m) 0 ["Vm"; "ZInit"; "MtxClass"; "Hash"].
(** Whatever the layout, [keg_new] stops at an unfinished part or returns. *)
Lemma keg_new_shape size align flags ppera ipers flags' :
  (let flags := with_vtoslab flags in
   if has_any flags (uf "CacheSpread") then '(ppera, ipers) ← spread_layout size align; Ok (ppera, ipers, flags)
   else
     need ← uadd size 0;
     if PAGE_SIZE <? need then
       Ok (large_ppera size, 1,
           if has_any flags (uf "Internal") then flags
           else let flags := Z.lor flags (uf "Offpage") in
                if has_any flags (uf "VToSlab") then flags else Z.lor flags (uf "Hash"))
     else '(_, ipers) ← small_layout size align flags 0 PAGE_SIZE; Ok (1, ipers, flags)) = Ok (ppera, ipers, flags') ->
  0 <= ppera -> ppera * PAGE_SIZE < 2 ^ 64 -> has_any flags' (uf "MtxClass") = has_any flags (uf "MtxClass") ->
  keg_new size align flags =
  if has_any flags (uf "Vm") || has_any flags (uf "ZInit") || has_any flags (uf "MtxClass") || has_any flags' (uf "Hash")
  then Panic PTodo
  else Ok (Keg size ipers (if ppera =? 1 then small_alloc_f else page_alloc_f) 0 0 0 0 flags').
Proof.
  intros Hl H0 Hp Hm. rewrite keg_new_eq. destruct (has_any flags (uf "Vm")); [done|].
  destruct (has_any flags (uf "ZInit")); [done|]. cbn [panic_if mbind outcome_bind orb]. cbv zeta in *. rewrite Hl.
  cbn [mbind outcome_bind]. rewrite Hm. destruct (has_any flags (uf "MtxClass")); [done|]. cbn [panic_if mbind outcome_bind orb].
  assert ((if has_any flags' (uf "Offpage") then Ok tt
    else space ← umul ppera PAGE_SIZE; a ← usub space 0; b ← umul ipers 0; pgoff ← usub a b;
         c ← uadd pgoff 0; d ← uadd c b; panic_if (space <? d) (PExplicit "UMA slab won't fit")) = Ok tt :> res unit) as ->
    by (destruct (has_any flags' (uf "Offpage")); [done|by apply slab_fits]).
  cbn [mbind outcome_bind]. by destruct (has_any flags' (uf "Hash")).
Qed.

Lemma unfinished_split flags :
  has_any flags unfinished
  = has_any flags (uf "Vm") || has_any flags (uf "ZInit") || has_any flags (uf "MtxClass") || has_any flags (uf "Hash").
Proof.
  unfold unfinished. cbn [foldr]. rewrite !has_any_lor_r.
  replace (has_any flags 0) with false by (unfold has_any; by rewrite Z.land_0_r). by rewrite orb_false_r, !orb_assoc.
Qed.

(** The flags of a keg after its layout. *)
Definition keg_flags (size flags : Z) : Z :=
  let fs := with_vtoslab flags in
  if has_any flags (uf "CacheSpread") || (size <=? PAGE_SIZE) || has_any flags (uf "Internal") then fs
  else let fs := Z.lor fs (uf "Offpage") in if has_any fs (uf "VToSlab") then fs else Z.lor fs (uf "Hash").
Lemma keg_flags_keeps size flags n : has_any flags (uf n) = true -> has_any (keg_flags size flags) (uf n) = true.
Proof.
  intros Hn. assert (has_any (with_vtoslab flags) (uf n) = true) as Hv.
  { unfold with_vtoslab. case_match; [|done]. by rewrite has_any_lor, Hn. }
  unfold keg_flags. cbv zeta. repeat case_match; rewrite ?has_any_lor, Hv; done.
Qed.
Lemma keg_flags_other size flags n :
  has_any (uf "VToSlab") (uf n) = false -> has_any (uf "Offpage") (uf n) = false -> has_any (uf "Hash") (uf n) = false ->
  has_any (keg_flags size flags) (uf n) = has_any flags (uf n).
Proof.
  intros H1 H2 H3. unfold keg_flags. cbv zeta. repeat case_match; rewrite ?has_any_lor, ?H2, ?H3, ?orb_false_r; by apply with_vtoslab_other.
Qed.
(** Its pages and its items. *)
Definition keg_pages (size k flags : Z) : Z :=
  if has_any flags (uf "CacheSpread") then spread_pages size k else if size <=? PAGE_SIZE then 1 else large_ppera size.
Definition keg_items (size k flags : Z) : Z :=
  if has_any flags (uf "CacheSpread") then
    (spread_pages size k * PAGE_SIZE + (spread_stride size k - size)) / spread_stride size k
  else if size <=? PAGE_SIZE then PAGE_SIZE / stride size k else 1.

Lemma keg_new_all size k flags :
  0 < size < 2 ^ 63 -> 0 <= k < 63 -> (has_any flags (uf "CacheSpread") = true -> size < 2 ^ 49) ->
  keg_new size (2 ^ k - 1) flags =
  if has_any flags unfinished || has_any (keg_flags size flags) (uf "Hash") then Panic PTodo
  else Ok (Keg size (keg_items size k flags) (if keg_pages size k flags =? 1 then small_alloc_f else page_alloc_f) 0 0 0 0
             (keg_flags size flags)).
Proof.
  intros Hs Hk Hsp.
  rewrite (keg_new_shape _ _ _ (keg_pages size k flags) (keg_items size k flags) (keg_flags size flags)).
  - rewrite unfinished_split.
    destruct (has_any flags (uf "Hash")) eqn:Hh; [|by rewrite orb_false_r].
    rewrite keg_flags_keeps by done. by rewrite !orb_true_r.
  - cbv zeta. unfold keg_pages, keg_items, keg_flags. rewrite (with_vtoslab_other _ "CacheSpread") by done.
    destruct (has_any flags (uf "CacheSpread")); [by rewrite spread_layout_ok by (split; [lia|by apply Hsp] || done)|].
    rewrite (proj2 (uadd_Ok size 0 size)) by lia. cbn [mbind outcome_bind orb]. rewrite Z.ltb_antisym.
    destruct (Z.leb_spec size PAGE_SIZE) as [Hle|Hle]; cbn [negb orb].
    + by rewrite small_layout_ok by lia.
    + rewrite (with_vtoslab_other _ "Internal") by done. by destruct (has_any flags (uf "Internal")).
  - unfold keg_pages. case_match; [apply spread_pages_bounds; lia|]. destruct (Z.leb_spec size PAGE_SIZE); [done|].
    pose proof (large_ppera_ge size). lia.
  - unfold keg_pages. case_match; [pose proof (spread_pages_bounds size k); change PAGE_SIZE with 16384; lia|].
    destruct (Z.leb_spec size PAGE_SIZE); [done|]. by apply large_ppera_ge; lia.
  - by apply keg_flags_other.
Qed.

Definition marks : Z := Z.lor (Z.lor (uf "Malloc") (uf "RefCnt")) (uf "VToSlab").
Lemma keg_flags_vtoslab size flags : has_any (keg_flags size flags) (uf "VToSlab") = has_any flags marks.
Proof.
  assert (has_any (with_vtoslab flags) (uf "VToSlab") = has_any flags marks) as Hv.
  { unfold with_vtoslab, marks. rewrite (has_any_lor_r _ (Z.lor _ _)). case_match; cbn; [|done].
    rewrite has_any_lor. by rewrite orb_true_r. }
  unfold keg_flags. cbv zeta. repeat case_match; rewrite ?has_any_lor, Hv; by destruct (has_any flags marks).
Qed.
(** A keg of large items without marks for its slabs needs a hash table. *)
Lemma keg_flags_hash size flags :
  has_any flags (uf "Hash") = false ->
  has_any (keg_flags size flags) (uf "Hash")
  = negb (has_any flags (uf "CacheSpread") || (size <=? PAGE_SIZE) || has_any flags (Z.lor marks (uf "Internal"))).
Proof.
  intros Hh. pose proof (keg_flags_vtoslab size flags) as Hv. rewrite has_any_lor_r. unfold keg_flags in *. cbv zeta in *.
  assert (has_any (with_vtoslab flags) (uf "Hash") = false) as Hw by by rewrite with_vtoslab_other.
  destruct (has_any flags (uf "CacheSpread") || (size <=? PAGE_SIZE)); [done|]. cbn [orb] in *.
  destruct (has_any flags (uf "Internal")); [by rewrite orb_true_r|]. rewrite orb_false_r.
  destruct (has_any (Z.lor (with_vtoslab flags) (uf "Offpage")) (uf "VToSlab")) eqn:Ho.
  - rewrite Ho in Hv. by rewrite <- Hv, has_any_lor, Hw.
  - rewrite has_any_lor, Ho in Hv. rewrite <- Hv, has_any_lor. by rewrite orb_true_r.
Qed.
Lemma keg_flags_offpage size flags :
  has_any flags (uf "CacheSpread") = false -> PAGE_SIZE < size ->
  has_any (keg_flags size flags) (uf "Offpage") = negb (has_any flags (uf "Internal")) || has_any flags (uf "Offpage").
Proof.
  intros Hc Hs. unfold keg_flags. cbv zeta. rewrite Hc, (proj2 (Z.leb_gt _ _)) by lia. cbn [orb].
  destruct (has_any flags (uf "Internal")); [by rewrite with_vtoslab_other|].
  case_match; rewrite ?has_any_lor; by rewrite ?orb_true_r.
Qed.
Lemma spread_items size k :
  0 < size -> 0 <= k ->
  let r := spread_stride size k in let n := spread_pages size k * PAGE_SIZE in let i := (n + (r - size)) / r in
  (i - 1) * r + size <= n < i * r + size.
Proof.
  intros Hs Hk. pose proof (spread_stride_spec size k Hs Hk) as (H1 & _). cbv zeta in *.
  set (r := spread_stride size k) in *. set (n := spread_pages size k * PAGE_SIZE).
  pose proof (Z.mul_div_le (n + (r - size)) r ltac:(lia)). pose proof (Z.mul_succ_div_gt (n + (r - size)) r ltac:(lia)). lia.
Qed.

(** C18: the layout that [UmaKeg::new] computes for an alignment of [2 ^ k], for
    every set of flags.  For flags that it does not support yet it stops.
    With [CacheSpread], for sizes below [2 ^ 49], the stride of the items is the next odd multiple of the
    alignment, and the keg has as many items as fit into its pages, of which
    it has eight at most.  Without it, items of at most a page are placed at
    the first multiple of the alignment that holds the size and the smallest
    unit, and the keg has as many items as strides fit into its page; larger
    items get pages of their own, with the slab kept off the page unless the
    keg is internal, and [new] stops if the slab would have to be found by a
    hash table.  The check that the slab fits never fails. *)
Theorem keg_layout size k flags :
  0 < size < 2 ^ 63 -> 0 <= k < 63 -> (has_any flags (uf "CacheSpread") = true -> size < 2 ^ 49) ->
  (has_any flags unfinished = true -> keg_new size (2 ^ k - 1) flags = Panic PTodo)
  /\ (has_any flags unfinished = false ->
   (has_any flags (uf "CacheSpread") = true ->
    exists kg r pages, keg_new size (2 ^ k - 1) flags = Ok kg /\ k_size kg = size
    /\ has_any (k_flags kg) (uf "VToSlab") = has_any flags marks
    /\ size <= r < size + 2 * 2 ^ k /\ r mod 2 ^ k = 0 /\ Z.odd (r / 2 ^ k) = true
    /\ pages = Z.min (PAGE_SIZE / 2 ^ k * r / PAGE_SIZE) 8
    /\ k_alloc kg = (if pages =? 1 then small_alloc_f else page_alloc_f)
    /\ (k_ipers kg - 1) * r + size <= pages * PAGE_SIZE < k_ipers kg * r + size)
   /\ (has_any flags (uf "CacheSpread") = false -> size <= PAGE_SIZE ->
    exists kg r, keg_new size (2 ^ k - 1) flags = Ok kg /\ k_size kg = size
    /\ has_any (k_flags kg) (uf "VToSlab") = has_any flags marks
    /\ k_alloc kg = small_alloc_f
    /\ Z.max size SMALLEST_UNIT <= r < Z.max size SMALLEST_UNIT + 2 ^ k /\ r mod 2 ^ k = 0
    /\ k_ipers kg * r <= PAGE_SIZE < (k_ipers kg + 1) * r)
   /\ (has_any flags (uf "CacheSpread") = false -> PAGE_SIZE < size ->
    if has_any flags (Z.lor marks (uf "Internal")) then
      exists kg, keg_new size (2 ^ k - 1) flags = Ok kg /\ k_size kg = size
      /\ has_any (k_flags kg) (uf "VToSlab") = has_any flags marks
      /\ k_alloc kg = page_alloc_f /\ k_ipers kg = 1
      /\ has_any (k_flags kg) (uf "Offpage") = negb (has_any flags (uf "Internal")) || has_any flags (uf "Offpage")
    else keg_new size (2 ^ k - 1) flags = Panic PTodo)).
Proof.
  intros Hs Hk Hsp. rewrite keg_new_all by done. split; [by intros ->|]. intros Hu. rewrite Hu. cbn [orb].
  rewrite keg_flags_hash by (rewrite unfinished_split in Hu; by apply orb_false_iff in Hu as [_ ?]).
  pose proof (keg_flags_vtoslab size flags) as Hv. split_and!.
  - intros Hc. unfold keg_items, keg_pages. rewrite Hc. cbn [orb negb]. eexists _, (spread_stride size k), _.
    pose proof (spread_stride_spec size k ltac:(lia) ltac:(lia)) as (? & ? & ?).
    split_and!; [done|done|done|lia|lia|done|done|done|done|apply spread_items; lia|apply spread_items; lia].
  - intros Hc Hle. unfold keg_items, keg_pages. rewrite Hc, (proj2 (Z.leb_le _ _)) by lia. cbn [orb negb].
    eexists _, (stride size k). pose proof (stride_bounds size k ltac:(lia) ltac:(lia)) as (H1 & H2 & H3 & H4).
    change SMALLEST_UNIT with 64. split_and!; [done..|lia|lia|done| |]; cbn [k_ipers]; rewrite Z.mul_comm.
    + apply Z.mul_div_le. lia.
    + apply Z.mul_succ_div_gt. lia.
  - intros Hc Hgt. unfold keg_items, keg_pages. rewrite Hc, (proj2 (Z.leb_gt _ _)) by lia. cbn [orb].
    destruct (has_any flags (Z.lor marks (uf "Internal"))); [cbn [negb]|done].
    eexists. pose proof (large_ppera_ge size ltac:(lia)) as [? _]. rewrite (proj2 (Z.eqb_neq _ _)) by lia.
    split_and!; [done..|by apply keg_flags_offpage].
Qed.

Lemma keg_layout_witness :
  (exists kg, keg_new 100 (2 ^ 4 - 1) (uf "Malloc") = Ok kg /\ k_ipers kg = 146)
  /\ (exists kg, keg_new 100000 (2 ^ 3 - 1) (uf "Malloc") = Ok kg /\ k_alloc kg = page_alloc_f)
  /\ keg_new 100000 (2 ^ 3 - 1) 0 = Panic PTodo
  /\ exists kg, keg_new 100 (2 ^ 4 - 1) (uf "CacheSpread") = Ok kg /\ k_ipers kg = 1024.
Proof.
  split_and!.
  - destruct (keg_layout 100 4 (uf "Malloc")) as [_ H]; [lia|lia|discriminate|].
    destruct H as (_ & H & _); [reflexivity|]. destruct H as (kg & r & H & _); [reflexivity|vm_compute; discriminate|].
    exists kg. split; [exact H|]. vm_compute in H. by injection H as <-.
  - destruct (keg_layout 100000 3 (uf "Malloc")) as [_ H]; [lia|lia|discriminate|].
    destruct H as (_ & _ & H); [reflexivity|]. destruct H as (kg & H & _ & _ & Ha & _); [reflexivity|reflexivity|].
    exists kg. split; [exact H|exact Ha].
  - destruct (keg_layout 100000 3 0) as [_ H]; [lia|lia|discriminate|].
    destruct H as (_ & _ & H); [reflexivity|]. apply H; reflexivity.
  - destruct (keg_layout 100 4 (uf "CacheSpread")) as [_ H]; [lia|lia|intros _; lia|].
    destruct H as (H & _); [reflexivity|]. destruct H as (kg & r & pages & H & _); [reflexivity|].
    exists kg. split; [exact H|]. vm_compute in H. by injection H as <-.
Defined.

(** ** Pages for slabs *)

Lemma bit_mask flags m : 0 <= flags -> (exists i, 0 <= i /\ m = 2 ^ i) ->
  Z.land flags m = if has_any flags m then m else 0.
Proof.
  intros Hf (i & Hi & ->). unfold has_any.
  assert (Z.land flags (2 ^ i) = if Z.testbit flags i then 2 ^ i else 0) as ->.
  { apply Z.bits_inj'. intros j Hj. rewrite Z.land_spec, Z.pow2_bits_eqb by done.
    destruct (Z.eqb_spec i j) as [->|Hne].
    - rewrite andb_true_r. destruct (Z.testbit flags j); [by rewrite Z.pow2_bits_true|by rewrite Z.bits_0].
    - rewrite andb_false_r. destruct (Z.testbit flags i); [|by rewrite Z.bits_0].
      rewrite Z.pow2_bits_eqb by done. symmetry. by apply Z.eqb_neq. }
  destruct (Z.testbit flags i); [|done].
  rewrite (proj2 (Z.eqb_neq _ _)); [done|]. apply Z.pow_nonzero; lia.
Qed.

(** The request of [alloc_slab] for a page of a keg that does not clear
    its memory itself asks for a zeroed page, at interrupt level exactly for
    [NoWait].  For a keg of the heap, which drops the [Zero] flag, a [NoWait]
    request panics instead: the subtraction in [small_alloc] underflows. *)
Theorem slab_request vm p k flags :
  0 <= flags < 2 ^ 32 -> has_any flags 0x400 = false ->
  has_any (k_flags k) (uf "Offpage") = false -> k_alloc k = small_alloc_f ->
  let nowait := has_any flags (af "NoWait") in
  if has_any (k_flags k) (uf "Malloc") then
    small_alloc_flags (Z.land flags (2 ^ 32 - 1 - af "Zero"))
      = (if nowait then Panic POverflow else Ok (Z.lor Vm.System 0x120))
    /\ (nowait = true -> alloc_slab vm p k flags = Panic POverflow)
  else
    small_alloc_flags (Z.lor flags (af "Zero"))
      = Ok (Z.lor (if nowait then Vm.Interrupt else Vm.System) 0x160).
Proof.
  intros Hf H400 Hoff Hal nowait.
  assert (Z.land flags 0x401 = if nowait then 1 else 0) as H401.
  { change 0x401 with (Z.lor 1 0x400). rewrite Z.land_lor_distr_r.
    rewrite (bit_mask flags 1), (bit_mask flags 0x400) by first [lia|by exists 0|by exists 10].
    rewrite H400, Z.lor_0_r. done. }
  destruct (has_any (k_flags k) (uf "Malloc")) eqn:Hm.
  - assert (small_alloc_flags (Z.land flags (2 ^ 32 - 1 - af "Zero"))
            = if nowait then Panic POverflow else Ok (Z.lor Vm.System 0x120)) as Hs.
    { unfold small_alloc_flags. rewrite <- !Z.land_assoc.
      change (Z.land (2 ^ 32 - 1 - af "Zero") 0x100) with 0.
      change (Z.land (2 ^ 32 - 1 - af "Zero") 0x401) with 0x401. rewrite H401, Z.land_0_r.
      by destruct nowait. }
    split; [done|]. intros Hn. unfold alloc_slab. rewrite Hoff, Hm, Hal. unfold small_alloc. by rewrite Hs, Hn.
  - unfold small_alloc_flags. rewrite !Z.land_lor_distr_l.
    change (Z.land (af "Zero") 0x401) with 0. rewrite Z.lor_0_r, H401.
    change (Z.land (af "Zero") 0x100) with 0x100.
    replace (Z.lor (Z.land flags 0x100) 0x100) with 0x100; [by destruct nowait|].
    rewrite bit_mask by first [lia|by exists 8]. by destruct (has_any flags 0x100).
Qed.

(** A keg of the heap, and a virtual memory without pages. *)
Definition demo_keg (flags : Z) : UmaKeg := Keg 64 256 small_alloc_f 0 0 0 0 flags.
Definition demo_vm (free : Z) : Vm.t :=
  Vm.Mk (Vm.Phys 1 [Vm.empty_queues; Vm.empty_queues])
    [Vm.Stats 126 0 free 2; Vm.Stats 16 0 0 2] [None; None] [0; 0].

Lemma slab_request_witness :
  alloc_slab (demo_vm 1000) (Vm.Proc 64 0) (demo_keg (uf "Malloc")) (af "NoWait") = Panic POverflow
  /\ small_alloc_flags (Z.lor (af "NoWait") (af "Zero")) = Ok 0x161.
Proof.
  split.
  - apply (slab_request (demo_vm 1000) (Vm.Proc 64 0) (demo_keg (uf "Malloc")) (af "NoWait")); by vm_compute.
  - apply (slab_request (demo_vm 1000) (Vm.Proc 64 0) (demo_keg 0) (af "NoWait")); by vm_compute.
Defined.

(** ** Buckets *)

(** Bucket zone [k] is the smallest one with room for [count] items. *)
Definition best_bucket (keys : list Z) (count : Z) : bool :=
  match keys !! Z.to_nat (bucket_index count) with
  | Some k =>
      match BUCKET_SIZES !! Z.to_nat k with
      | Some sz => (0 <=? k) && (count <=? sz) && forallb (fun sz' => (sz' <? count) || (sz <=? sz')) BUCKET_SIZES
      | None => false
      end
  | None => false
  end.

Lemma grow_count_bound z : 0 <= z_count z <= BUCKET_MAX -> 0 <= grow_count z <= BUCKET_MAX.
Proof. unfold grow_count, BUCKET_MAX. intros Hc. destruct (z_ty z); try lia. case_if; bool_to_prop; lia. Qed.

Lemma uma_new_ok max_cpu :
  exists u, new max_cpu = Ok u /\ bucket_enable u = true
  /\ bucket_keys u = [0; 0; 1; 2; 2; 3; 3; 3; 3] /\ length (bucket_zones u) = 4%nat.
Proof.
  destruct (new max_cpu) as [u| |] eqn:Hu; [|vm_compute in Hu; discriminate Hu..].
  exists u. split; [reflexivity|]. vm_compute in Hu. injection Hu as <-. done.
Qed.

Lemma best_bucket_ok c : 0 <= c <= BUCKET_MAX -> best_bucket [0; 0; 1; 2; 2; 3; 3; 3; 3] c = true.
Proof.
  intros Hc. unfold BUCKET_MAX in Hc.
  assert (In c (seqZ 0 129)) as H by (apply list_elem_of_In, elem_of_seqZ; lia).
  clear Hc. revert c H. apply forallb_forall. vm_compute. done.
Qed.

(** The selected bucket zone, for any size that occurs. *)
Lemma bucket_of max_cpu u z :
  new max_cpu = Ok u -> 0 <= z_count z <= BUCKET_MAX ->
  exists k bz, bucket_enable u = true
  /\ arr_get (bucket_keys u) (bucket_index (grow_count z)) = Ok k :> res Z
  /\ arr_get (bucket_zones u) k = Ok bz :> res UmaZone
  /\ bucket_zones u !! Z.to_nat k = Some bz.
Proof.
  intros Hu Hc. apply grow_count_bound in Hc. destruct (uma_new_ok max_cpu) as (u' & Hu' & He & Hk & Hz).
  rewrite Hu in Hu'. injection Hu' as <-. clear Hu. pose proof (best_bucket_ok _ Hc) as Hb. unfold best_bucket in Hb.
  rewrite <- Hk in Hb. destruct (bucket_keys u !! _) as [k|] eqn:Ek; [|done].
  destruct (BUCKET_SIZES !! Z.to_nat k) as [sz|] eqn:Es; [|done]. bool_to_prop.
  destruct (lookup_lt_is_Some_2 (bucket_zones u) (Z.to_nat k)) as [bz Hbz].
  { rewrite Hz. apply lookup_lt_Some in Es. exact Es. }
  exists k, bz. split; [exact He|]. split; [|split; [|exact Hbz]]; apply arr_get_Ok; (split; [|done]).
  - apply Z.shiftr_nonneg. lia.
  - done.
Qed.

(** [Uma::new] succeeds, and for every size that the buckets of a zone
    can grow to, the table selects the smallest bucket zone with room for
    that many items; the size stays in the range of the table. *)
Theorem bucket_selection max_cpu z :
  0 <= z_count z <= BUCKET_MAX ->
  exists u k sz, new max_cpu = Ok u
  /\ arr_get (bucket_keys u) (bucket_index (grow_count z)) = Ok k :> res Z
  /\ BUCKET_SIZES !! Z.to_nat k = Some sz /\ is_Some (bucket_zones u !! Z.to_nat k)
  /\ 0 <= grow_count z <= BUCKET_MAX /\ grow_count z <= sz
  /\ forall sz', sz' ∈ BUCKET_SIZES -> grow_count z <= sz' -> sz <= sz'.
Proof.
  intros Hc. destruct (uma_new_ok max_cpu) as (u & Hu & _ & Hk & _).
  destruct (bucket_of max_cpu u z Hu Hc) as (k & bz & _ & Hkey & _ & Hbz).
  apply grow_count_bound in Hc. pose proof (best_bucket_ok _ Hc) as Hb. unfold best_bucket in Hb.
  pose proof Hkey as Hkey'. apply arr_get_Ok in Hkey' as [_ Hkey']. rewrite <- Hk, Hkey' in Hb.
  destruct (BUCKET_SIZES !! Z.to_nat k) as [sz|] eqn:Es; [|done]. bool_to_prop.
  exists u, k, sz. split; [exact Hu|]. split; [exact Hkey|]. split; [exact Es|]. split; [by eexists|].
  split; [lia|]. split; [lia|]. intros sz' Hin Hle. apply list_elem_of_In in Hin.
  match goal with H : forallb _ _ = true |- _ =>
    rewrite forallb_forall in H; specialize (H _ Hin); apply orb_true_iff in H as [?|?] end;
  bool_to_prop; lia.
Qed.

Definition demo_zone (count : Z) : UmaZone := Zone true [] [] Other 64 [] [] [] [] 0 0 count 0.

Lemma bucket_selection_witness :
  exists u, new 2 = Ok u
  /\ arr_get (bucket_keys u) (bucket_index (grow_count (demo_zone 32))) = Ok 2 :> res Z.
Proof.
  destruct (bucket_selection 2 (demo_zone 32)) as (u & k & sz & Hu & Hk & _); [by vm_compute|].
  exists u. split; [exact Hu|]. vm_compute in Hu. injection Hu as <-. reflexivity.
Defined.

End UmaProps.
