(* ===== verification/HeapProps.v ===== *)
(** * Properties of the kernel heap *)
From S2P Require Import Prelude Thread Lock Bitflag BitflagProps PhysMem Vm Uma UmaProps Heap.
From stdpp Require Import pretty.

Module HeapProps.
Import Thread Lock Bitflag PhysMem Uma UmaProps Heap.
Local Open Scope string_scope.
Local Open Scope list_scope.
Local Open Scope Z_scope.

(** ** The table of zones *)

(** The zone for items of [2 ^ i] bytes at an alignment of [2 ^ a]. *)
Record zone_ok (max_cpu : nat) (u : Uma.t) (a i : Z) (z : UmaZone) : Prop := {
  zo_size : z_size z = 2 ^ i;
  zo_keg : z_kegs z
    = [Keg (2 ^ i) (PAGE_SIZE / stride (2 ^ i) a) small_alloc_f 0 0 0 0 (with_vtoslab (uf "Malloc"))];
  zo_buckets : z_bucket_enable z = bucket_enable u /\ z_bucket_keys z = bucket_keys u
    /\ z_bucket_zones z = bucket_zones u;
  zo_caches : z_caches z = replicate max_cpu cache_default;
  zo_empty : z_full_buckets z = [] /\ z_free_buckets z = [] /\ z_alloc_count z = 0 /\ z_free_count z = 0;
  zo_ty : z_ty z = Other;
  zo_flags : has_any (z_flags z) (uf "CacheOnly") = false;
  zo_count : 0 <= z_count z <= BUCKET_MAX
}.

Lemma plain_name i c : 4 <= i <= 14 -> named_zone (pretty (2 ^ i)) c = (Other, c).
Proof.
  intros Hi. assert (i ∈ seqZ 4 11) as H by (apply elem_of_seqZ; lia). clear Hi. revert i H.
  apply Forall_forall. repeat (constructor; [reflexivity|]). constructor.
Qed.

Lemma cpu_local_const {T} n (v : T) : cpu_local_new n (fun _ => v) = replicate n v.
Proof. unfold cpu_local_new. generalize 0%nat. induction n as [|n IH]; intros k; cbn; [done|]. by rewrite IH. Qed.

Lemma create_zone_ok max_cpu u a i :
  0 <= a < 63 -> 4 <= i <= 14 ->
  exists z, create_zone max_cpu u (pretty (Z.shiftl 1 i)) (Z.shiftl 1 i) (Some (2 ^ a - 1)) (uf "Malloc") = Ok z
    /\ zone_ok max_cpu u a i z.
Proof.
  intros Ha Hi. rewrite Z.shiftl_1_l. unfold create_zone, zone_new.
  assert (0 < 2 ^ i <= PAGE_SIZE) as Hs.
  { split; [apply Z.pow_pos_nonneg; lia|]. change PAGE_SIZE with (2 ^ 14). apply Z.pow_le_mono_r; lia. }
  replace (has_any (uf "Malloc") (uf "Secondary")) with false by done.
  cbn [panic_if mbind outcome_bind]. change (default ALIGN_CACHE (Some (2 ^ a - 1))) with (2 ^ a - 1). rewrite keg_new_small by done. cbn [mbind outcome_bind k_flags].
  replace (has_any (with_vtoslab (uf "Malloc")) (uf "Internal")) with false by done.
  replace (has_any (with_vtoslab (uf "Malloc")) (uf "MaxBucket")) with false by done.
  rewrite plain_name by done. eexists. split; [reflexivity|].
  pose proof (stride_bounds (2 ^ i) a ltac:(lia) ltac:(lia)) as (_ & Hst & _ & _).
  split; cbn; try done.
  - apply cpu_local_const.
  - assert (0 <= PAGE_SIZE / stride (2 ^ i) a) by (apply Z.div_pos; [done|lia]). unfold BUCKET_MAX. lia.
Qed.

(** The row of the table for zones that start with number [b]: [n] sizes from
    [2 ^ i]. *)
Fixpoint row (n : nat) (i b : Z) : list Z :=
  match n with
  | O => []
  | S n => replicate (Z.to_nat (if i =? 4 then 2 else 2 ^ (i - 5))) b ++ row n (i + 1) (b + 1)
  end.

Lemma row_shift n i b c : row n i (b + c) = (fun x => c + x) <$> row n i b.
Proof.
  revert i b. induction n as [|n IH]; intros i b; cbn [row]; [done|].
  rewrite fmap_app, fmap_replicate. f_equal; [f_equal; lia|].
  replace (b + c + 1) with (b + 1 + c) by lia. apply IH.
Qed.

Lemma push_zones_spec n last size zone zs fuel :
  last + 16 * Z.of_nat n = size + 16 -> (n < fuel)%nat ->
  push_zones fuel last size zone zs = (size + 16, zs ++ replicate n zone).
Proof.
  revert last zs fuel. induction n as [|n IH]; intros last zs [|fuel] Hn Hf; try lia; cbn [push_zones].
  - rewrite (proj2 (Z.leb_gt _ _)) by lia. rewrite app_nil_r. f_equal. lia.
  - rewrite (proj2 (Z.leb_le _ _)) by lia. rewrite IH; [|unfold KMEM_ZBASE; lia|lia].
    by rewrite <- app_assoc.
Qed.

(** What [last] is when the size [2 ^ i] is reached. *)
Definition last_at (i : Z) : Z := if i =? 4 then 0 else 2 ^ (i - 1) + 16.

Lemma push_row i zone zs :
  4 <= i <= 14 ->
  push_zones (S (Z.to_nat (Z.shiftl 1 i))) (last_at i) (Z.shiftl 1 i) zone zs
  = (last_at (i + 1), zs ++ replicate (Z.to_nat (if i =? 4 then 2 else 2 ^ (i - 5))) zone).
Proof.
  intros Hi. rewrite Z.shiftl_1_l.
  assert (last_at (i + 1) = 2 ^ i + 16) as ->.
  { unfold last_at. rewrite (proj2 (Z.eqb_neq _ _)) by lia. do 2 f_equal; lia. }
  apply push_zones_spec; unfold last_at; destruct (Z.eqb_spec i 4) as [->|Hne]; try (cbn; lia).
  - assert (2 ^ (i - 1) = 16 * 2 ^ (i - 5)) as H1 by (rewrite <- (Z.pow_add_r 2 4) by lia; f_equal; lia).
    assert (2 ^ i = 2 * 2 ^ (i - 1)) as H2 by (rewrite <- (Z.pow_add_r 2 1) by lia; f_equal; lia).
    rewrite Z2Nat.id by (apply Z.pow_nonneg; lia). lia.
  - assert (2 ^ (i - 5) <= 2 ^ i) by (apply Z.pow_le_mono_r; lia).
    assert (0 < 2 ^ (i - 5)) by (apply Z.pow_pos_nonneg; lia). lia.
Qed.

Lemma size_loop_ok max_cpu u a n i zs st fuel :
  0 <= a < 63 -> 4 <= i -> i = 15 - Z.of_nat n -> (n < fuel)%nat ->
  exists znew, size_loop fuel max_cpu u (2 ^ a) i (last_at i) zs st
    = Ok (zs ++ row n i (Z.of_nat (length st)), st ++ znew)
    /\ Forall2 (zone_ok max_cpu u a) (seqZ i (Z.of_nat n)) znew.
Proof.
  intros Ha. revert i zs st fuel. induction n as [|n IH]; intros i zs st [|fuel] Hi Hn Hf; try lia; cbn [size_loop].
  - replace i with 15 by lia. exists []. cbn. rewrite !app_nil_r. done.
  - assert (Z.shiftl 1 i <= PAGE_SIZE) as Hle.
    { rewrite Z.shiftl_1_l. change PAGE_SIZE with (2 ^ 14). apply Z.pow_le_mono_r; lia. }
    rewrite (proj2 (Z.ltb_ge _ _)) by done.
    destruct (create_zone_ok max_cpu u a i) as (z & Hz & Hok); [lia..|]. rewrite Hz. cbn [mbind outcome_bind].
    rewrite push_row by lia.
    destruct (IH (i + 1) (zs ++ replicate (Z.to_nat (if i =? 4 then 2 else 2 ^ (i - 5))) (Z.of_nat (length st)))
      (st ++ [z]) fuel) as (znew & Hl & Hall); [lia..|].
    exists (z :: znew). rewrite Hl, <- !app_assoc, length_app. cbn [length app row]. split.
    + do 2 f_equal. do 2 f_equal. f_equal. lia.
    + replace (Z.of_nat (S n)) with (Z.succ (Z.of_nat n)) by lia. rewrite seqZ_cons by lia.
      replace (Z.pred (Z.succ (Z.of_nat n))) with (Z.of_nat n) by lia. by constructor.
Qed.

(** The rows and zones of [n] alignments from [2 ^ a], when [b] zones exist. *)
Definition table_ok (max_cpu : nat) (u : Uma.t) (n : nat) (a b : Z) (rows : list (list Z))
    (zs : list UmaZone) : Prop :=
  length zs = (11 * n)%nat
  /\ forall j, (j < n)%nat ->
     rows !! j = Some (row 11 4 (b + 11 * Z.of_nat j))
     /\ forall l, (l < 11)%nat -> exists z,
        zs !! (11 * j + l)%nat = Some z /\ zone_ok max_cpu u (a + Z.of_nat j) (4 + Z.of_nat l) z.

Lemma align_loop_ok max_cpu u n a rows st :
  0 <= a -> a + Z.of_nat n <= 63 ->
  exists rs zs, align_loop n max_cpu u a rows st = Ok (rows ++ rs, st ++ zs)
    /\ table_ok max_cpu u n a (Z.of_nat (length st)) rs zs.
Proof.
  revert a rows st. induction n as [|n IH]; intros a rows st Ha Hn; cbn [align_loop].
  - exists [], []. rewrite !app_nil_r. split; [done|]. split; [done|]. lia.
  - rewrite Z.shiftl_1_l.
    destruct (size_loop_ok max_cpu u a 11 4 [] st 64) as (z1 & H1 & Hz1); [lia..|].
    change (last_at 4) with 0 in H1. unfold KMEM_ZSHIFT. rewrite H1. cbn [mbind outcome_bind app].
    assert (length z1 = 11%nat) as Hl1.
    { apply Forall2_length in Hz1. rewrite length_seqZ in Hz1. lia. }
    destruct (IH (a + 1) (rows ++ [row 11 4 (Z.of_nat (length st))]) (st ++ z1)) as (rs & zs & H2 & Hlen & Ht); [lia..|].
    exists (row 11 4 (Z.of_nat (length st)) :: rs), (z1 ++ zs). rewrite H2, <- !app_assoc. split; [done|].
    split; [rewrite length_app; lia|]. intros [|j] Hj.
    + split; [cbn [lookup list_lookup]; do 2 f_equal; lia|]. intros l Hl.
      destruct (lookup_lt_is_Some_2 z1 l) as [z Hz]; [lia|]. exists z.
      rewrite lookup_app_l by lia. split; [by rewrite Nat.add_0_l|].
      rewrite Z.add_0_r. apply (Forall2_lookup_r _ _ _ _ _ Hz1) in Hz as (i & Hi & Hok).
      apply lookup_seqZ in Hi as [-> _]. done.
    + destruct (Ht j) as [Hr Hzs]; [lia|]. split.
      * change ((_ :: rs) !! S j) with (rs !! j). rewrite Hr, length_app, Hl1. do 2 f_equal. lia.
      * intros l Hl. destruct (Hzs l Hl) as (z & Hz & Hok). exists z.
        rewrite lookup_app_r by lia. split; [rewrite <- Hz; f_equal; lia|].
        replace (a + Z.of_nat (S j)) with (a + 1 + Z.of_nat j) by lia. done.
Qed.

(** ** Selection of the zone *)

Lemma trailing_zeros_pow2 a : 0 <= a -> trailing_zeros 64 (2 ^ a) = a.
Proof.
  intros Ha. rewrite <- (BitflagProps.trailing_zeros_mask 64 1 a) at 2 by lia.
  f_equal. unfold BitflagProps.mask. lia.
Qed.

Lemma zone_size_round size : 0 <= size <= PAGE_SIZE -> zone_size size = round_up size 16.
Proof.
  intros Hs. change PAGE_SIZE with 16384 in Hs. unfold zone_size, KMEM_ZMASK, KMEM_ZBASE, unot, u64_max.
  change (16 - 1) with (Z.ones 4). rewrite Z.land_ones by done. change (2 ^ 4) with 16. unfold round_up.
  destruct (Z.eqb_spec (size mod 16) 0) as [He|He]; cbn [negb]; [done|].
  change (2 ^ 64 - 1 - Z.ones 4) with (2 ^ 64 - 2 ^ 4). rewrite land_high by lia. change (2 ^ 4) with 16.
  replace ((size + 16) mod 16) with (size mod 16) by (rewrite <- (Z.mod_add size 1 16) by lia; f_equal; lia). lia.
Qed.

(** Entry [q] of a row is the first zone with room for [16 * q] bytes. *)
Definition entry_ok (q : Z) : bool :=
  match row 11 4 0 !! Z.to_nat q with
  | Some l => (0 <=? l) && (l <? 11) && (16 * q <=? 2 ^ (4 + l)) && ((l =? 0) || (2 ^ (3 + l) <? 16 * q))
  | None => false
  end.

Lemma entries_ok q : 0 <= q <= 1024 -> entry_ok q = true.
Proof.
  intros Hq. assert (In q (seqZ 0 1025)) as H by (apply list_elem_of_In, elem_of_seqZ; lia).
  clear Hq. revert q H. apply forallb_forall. vm_compute. done.
Qed.

Lemma row_lookup b q :
  0 <= q <= 1024 ->
  exists l, row 11 4 b !! Z.to_nat q = Some (b + l) /\ 0 <= l < 11 /\ 16 * q <= 2 ^ (4 + l)
    /\ (l = 0 \/ 2 ^ (3 + l) < 16 * q).
Proof.
  intros Hq. apply entries_ok in Hq. unfold entry_ok in Hq.
  destruct (row 11 4 0 !! Z.to_nat q) as [l|] eqn:El; [|done]. bool_to_prop. exists l.
  split_and!; [|lia..|].
  - rewrite <- (Z.add_0_l b), row_shift, list_lookup_fmap, El. done.
  - match goal with H : (_ || _)%bool = true |- _ => apply orb_true_iff in H as [?|?] end; bool_to_prop; auto.
Qed.

(** A page has no room for an item exactly if the alignment is larger. *)
Lemma stride_page size a :
  0 < size <= PAGE_SIZE -> 0 <= a -> PAGE_SIZE / stride size a = 0 <-> PAGE_SIZE < 2 ^ a.
Proof.
  intros Hs Ha. assert (0 < 2 ^ a) as Hpos by (apply Z.pow_pos_nonneg; lia).
  pose proof (stride_bounds size a ltac:(lia) Ha) as (H1 & H2 & H3 & H4).
  change PAGE_SIZE with (2 ^ 14) in *. rewrite Z.div_small_iff by lia. split; intros Hx.
  - destruct (Z.le_gt_cases (2 ^ a) (2 ^ 14)) as [Hle|]; [exfalso|done].
    assert (2 ^ 14 mod 2 ^ a = 0) as Hd.
    { apply Z.pow_le_mono_r_iff in Hle; [|lia..]. replace 14 with (14 - a + a) by lia.
      rewrite Z.pow_add_r by lia. apply Z.mod_mul. lia. }
    pose proof (mult_gap (2 ^ 14) (stride size a) (2 ^ a) Hpos Hd H3 ltac:(lia)). lia.
  - assert (0 mod 2 ^ a = 0) as H0 by (apply Z.mod_0_l; lia).
    pose proof (mult_gap 0 (stride size a) (2 ^ a) Hpos H0 H3 ltac:(lia)). lia.
Qed.

(** The rounded size and the zone of a request. *)
Lemma pick_zone size :
  0 < size <= PAGE_SIZE ->
  exists q, zone_size size = 16 * q /\ 0 <= q <= 1024
  /\ forall l, 0 <= l -> 16 * q <= 2 ^ (4 + l) -> l = 0 \/ 2 ^ (3 + l) < 16 * q ->
     size <= 2 ^ (4 + l) /\ (4 + l = 4 \/ 2 ^ (4 + l - 1) < size).
Proof.
  intros Hs. rewrite zone_size_round by lia. change PAGE_SIZE with 16384 in Hs.
  pose proof (round_up_spec size 16 ltac:(lia)) as [Hr Hm].
  exists (round_up size 16 / 16). assert (round_up size 16 = 16 * (round_up size 16 / 16)) as Hq by (apply Z.div_exact; lia).
  set (q := round_up size 16 / 16) in *. split; [exact Hq|]. split.
  { destruct (Z.le_gt_cases q 1024); lia. }
  intros l Hl Hfit Hmin. split; [lia|]. replace (4 + l - 1) with (3 + l) by lia.
  destruct (decide (l = 0)) as [->|Hl0]; [by left|]. destruct Hmin as [|Hmin]; [done|]. right.
  assert (2 ^ (3 + l) mod 16 = 0) as Hm'.
  { replace (3 + l) with (l - 1 + 4) by lia. rewrite Z.pow_add_r by lia. apply Z.mod_mul. lia. }
  pose proof (mult_gap (2 ^ (3 + l)) (round_up size 16) 16 ltac:(lia) Hm' Hm ltac:(lia)). lia.
Qed.

Lemma heap_lookup max_cpu u :
  exists h, vm_heap_new max_cpu u = Ok h
  /\ forall a size, 0 <= a < 63 -> 0 < size <= PAGE_SIZE ->
     exists zi z i, select_zone h (L size (2 ^ a)) = Ok zi /\ 0 <= zi /\ store h !! Z.to_nat zi = Some z
     /\ zone_ok max_cpu u a i z /\ 4 <= i <= 14 /\ size <= 2 ^ i /\ (i = 4 \/ 2 ^ (i - 1) < size).
Proof.
  unfold vm_heap_new. destruct (align_loop_ok max_cpu u 63 0 [] []) as (rs & zs & Hl & _ & Ht); [lia..|].
  rewrite Hl. cbn [mbind outcome_bind app]. eexists. split; [reflexivity|]. intros a size Ha Hs.
  destruct (pick_zone size Hs) as (q & Hq & Hq' & Hbest).
  destruct (Ht (Z.to_nat a)) as [Hrow Hzs]; [lia|]. rewrite Z2Nat.id in Hrow by lia. cbn [length] in Hrow.
  destruct (row_lookup (Z.of_nat 0 + 11 * a) q Hq') as (l & Hlk & Hl11 & Hfit & Hmin).
  destruct (Hzs (Z.to_nat l)) as (z & Hz & Hok); [lia|]. rewrite !Z2Nat.id in Hok by lia.
  replace (0 + a) with a in Hok by lia.
  exists (Z.of_nat 0 + 11 * a + l), z, (4 + l). destruct (Hbest l) as [Hb1 Hb2]; [lia|exact Hfit|exact Hmin|].
  split_and!; [|lia| |exact Hok|lia|lia|exact Hb1|exact Hb2].
  - unfold select_zone. cbn [zones l_align l_size]. rewrite trailing_zeros_pow2 by lia.
    rewrite (proj2 (arr_get_Ok rs a _) (conj (proj1 Ha) Hrow)). cbn [mbind outcome_bind].
    apply arr_get_Ok. rewrite Hq, Z.shiftr_div_pow2 by done. change (2 ^ KMEM_ZSHIFT) with 16.
    rewrite Z.mul_comm, Z.div_mul by lia. split; [lia|exact Hlk].
  - cbn [store]. rewrite <- Hz. f_equal. lia.
Qed.

(** [VmHeap::new] succeeds, and its table has a zone for every alignment
    below [2 ^ 63] and every size up to a page.  The zone that [alloc] selects
    is the one with the smallest item size that has room for the request; its
    keg places the items at a multiple of the alignment, and it has none per
    slab exactly if the alignment is larger than a page. *)
Theorem heap_zone_fits max_cpu u :
  exists h, vm_heap_new max_cpu u = Ok h
  /\ forall a size, 0 <= a < 63 -> 0 < size <= PAGE_SIZE ->
     exists zi z kg i, select_zone h (L size (2 ^ a)) = Ok zi /\ store h !! Z.to_nat zi = Some z
     /\ z_size z = 2 ^ i /\ size <= 2 ^ i /\ (i = 4 \/ 2 ^ (i - 1) < size)
     /\ z_kegs z = [kg] /\ k_size kg = 2 ^ i
     /\ (exists r, size <= r /\ r mod 2 ^ a = 0 /\ k_ipers kg = PAGE_SIZE / r)
     /\ (k_ipers kg = 0 <-> PAGE_SIZE < 2 ^ a).
Proof.
  destruct (heap_lookup max_cpu u) as (h & Hh & H). exists h. split; [exact Hh|]. clear Hh. intros a size Ha Hs.
  destruct (H a size Ha Hs) as (zi & z & i & Hsel & _ & Hz & Hok & Hi & Hfit & Hmin).
  assert (0 < 2 ^ i <= PAGE_SIZE) as Hp.
  { split; [apply Z.pow_pos_nonneg; lia|]. change PAGE_SIZE with (2 ^ 14). apply Z.pow_le_mono_r; lia. }
  pose proof (stride_bounds (2 ^ i) a ltac:(lia) ltac:(lia)) as (H1 & _ & H3 & _).
  exists zi, z. eexists. exists i. rewrite (zo_keg _ _ _ _ _ Hok), (zo_size _ _ _ _ _ Hok).
  split; [exact Hsel|]. split; [exact Hz|]. split; [reflexivity|]. split; [exact Hfit|]. split; [exact Hmin|].
  split; [reflexivity|]. cbn [k_size k_ipers]. split; [reflexivity|]. split.
  - exists (stride (2 ^ i) a). split; [lia|]. split; [exact H3|reflexivity].
  - apply stride_page; [exact Hp|lia].
Qed.

(** ** The first allocation from the VM heap *)

(** A virtual memory as [Vm::new] makes it, with [free] pages. *)
Definition fresh_vm (nfree free : Z) : Vm.t :=
  Vm.Mk (Vm.Phys nfree [Vm.empty_queues; Vm.empty_queues])
    [Vm.Stats 126 0 free 2; Vm.Stats 16 0 0 2] [None; None] [0; 0].

Lemma fresh_alloc_page nfree free p flags :
  nfree = 0 \/ nfree = 1 -> 126 < free < 2 ^ 64 -> has_any flags Vm.Cached = false ->
  Vm.alloc_page (fresh_vm nfree free) p None flags = Panic PUnwrap.
Proof.
  intros Hn Hf Hc. unfold Vm.alloc_page, fresh_vm. cbn [default Vm.stats Vm.phys].
  change (arr_get _ 0) with (Ok (E := no_error) (Vm.Stats 126 0 free 2)).
  cbn [mbind outcome_bind]. unfold Vm.check_available. cbn [Vm.free_count Vm.cache_count Vm.free_reserved].
  rewrite (proj2 (uadd_Ok free 0 free)) by lia. cbn [mbind outcome_bind].
  rewrite (proj2 (Z.leb_gt _ _)) by lia. cbn [mbind outcome_bind]. rewrite Hc.
  by destruct Hn as [->| ->].
Qed.

(** The bucket zones have no pages either. *)
Lemma fresh_alloc_item max_cpu u nfree free p k bz :
  nfree = 0 \/ nfree = 1 -> 126 < free < 2 ^ 64 -> Uma.new max_cpu = Ok u ->
  bucket_zones u !! k = Some bz ->
  alloc_item (fresh_vm nfree free) p bz (Z.land (Z.lor (af "Wait") (af "Zero")) (2 ^ 32 - 1 - af "Zero"))
  = Panic PUnwrap.
Proof.
  intros Hn Hf Hu Hk. change (Z.land _ _) with 2.
  assert (z_kegs bz = [Keg 8 256 small_alloc_f 0 0 0 0 570425344]) as Hkeg.
  { vm_compute in Hu. injection Hu as <-. cbn [bucket_zones] in Hk.
    do 4 (destruct k as [|k]; [injection Hk as <-; reflexivity|]). discriminate Hk. }
  unfold alloc_item, zone_fetch_slab. rewrite Hkeg. cbn [head unwrap_or_panic mbind outcome_bind].
  unfold keg_fetch_slab, alloc_slab. cbn [k_flags k_recurse k_free k_max_pages k_pages k_alloc k_size k_ipers].
  change (has_any 570425344 (uf "Bucket")) with true. change (has_any 570425344 (uf "Offpage")) with false.
  change (has_any 570425344 (uf "Malloc")) with false. change (has_any 2 (af "NoVm")) with false.
  cbn [negb orb Z.eqb panic_if mbind outcome_bind andb]. change (2 ^ 32 <=? 0 + 1) with false.
  cbn [panic_if mbind outcome_bind]. unfold small_alloc.
  change (small_alloc_flags _) with (Ok (E := no_error) 0x162). cbn [mbind outcome_bind].
  by rewrite fresh_alloc_page.
Qed.

Lemma default_cache : alloc_from_cache cache_default = Ok (0, cache_default).
Proof. reflexivity. Qed.

Lemma get_cache max_cpu cpu : 0 <= cpu < Z.of_nat max_cpu ->
  arr_get (replicate max_cpu cache_default) cpu = Ok cache_default :> res UmaCache
  /\ arr_set (replicate max_cpu cache_default) cpu cache_default = Ok (replicate max_cpu cache_default) :> res _.
Proof.
  intros Hc. split.
  - apply arr_get_Ok. split; [lia|]. apply lookup_replicate. split; [done|lia].
  - apply arr_set_Ok. rewrite length_replicate. split; [lia|].
    symmetry. apply list_insert_id, lookup_replicate. split; [done|lia].
Qed.

(** A fresh zone has nothing in its caches. *)
Lemma fresh_refill max_cpu u a i z cpu :
  zone_ok max_cpu u a i z -> 0 <= cpu < Z.of_nat max_cpu ->
  refill_cache z cpu = Ok (None, zone_set z (replicate max_cpu cache_default) [] [] 0 0 (z_count z)).
Proof.
  intros Hz Hc. destruct (get_cache max_cpu cpu Hc) as [Hg Hs]. destruct (zo_empty _ _ _ _ _ Hz) as (H1 & H2 & H3 & H4).
  unfold refill_cache. rewrite (zo_caches _ _ _ _ _ Hz), Hg, H1, H2, H3, H4. cbn [mbind outcome_bind].
  rewrite default_cache. cbn [mbind outcome_bind]. rewrite Hs. cbn [mbind outcome_bind Z.eqb negb c_alloc].
  change (uadd 0 (c_allocs cache_default)) with (Ok (E := no_error) 0).
  change (uadd 0 (c_frees cache_default)) with (Ok (E := no_error) 0).
  cbn [mbind outcome_bind]. change (Cache None (c_free cache_default) 0 0) with cache_default. by rewrite Hs.
Qed.

(** The zones, the bucket zones, the pages and the physical allocator put
    together: the allocator of physical pages starts without any page, so the
    first allocation from the VM heap, of any size up to a page and any
    alignment, panics when it unwraps the missing page, although the
    statistics count enough free pages. *)
Theorem first_vm_allocation max_cpu u h td cpu cpu' nfree free p a size :
  Uma.new max_cpu = Ok u -> vm_heap_new max_cpu u = Ok h -> can_sleep td = true ->
  0 <= active_heap_guard td < u64_max ->
  (forall n, 0 <= (cpu n).1 < Z.of_nat max_cpu /\ 0 <= (cpu n).2 < Z.of_nat max_cpu) ->
  nfree = 0 \/ nfree = 1 -> 126 < free < 2 ^ 64 -> 0 <= a < 63 -> 0 < size <= PAGE_SIZE ->
  vm_heap_alloc td cpu cpu' (fresh_vm nfree free) p h (L size (2 ^ a)) = Panic PUnwrap.
Proof.
  intros Hu Hh Hsl Hg Hcpu Hn Hf Ha Hs. destruct (heap_lookup max_cpu u) as (h' & Hh' & Hsel).
  rewrite Hh in Hh'. injection Hh' as <-. clear Hh.
  destruct (Hsel a size Ha Hs) as (zi & z & i & Hz & Hzi & Hst & Hok & _).
  unfold vm_heap_alloc. rewrite Hsl. cbn [negb panic_if mbind outcome_bind].
  unfold disable_vm_heap, get_active_heap_guard, set_active_heap_guard, cell_get, cell_set, validate.
  rewrite Z.eqb_refl. cbn [negb panic_if mbind outcome_bind].
  unfold checked_add. rewrite (proj2 (Z.ltb_lt _ _)) by (unfold u64_max in Hg; lia).
  cbn [unwrap_or_panic mbind outcome_bind l_size]. rewrite (proj2 (Z.leb_le _ _)) by lia.
  rewrite Hz. cbn [mbind outcome_bind]. rewrite (proj2 (arr_get_Ok _ _ _) (conj Hzi Hst)). cbn [mbind outcome_bind].
  unfold zone_alloc. change (has_any (Z.lor (af "Wait") (af "Zero")) (af "Wait")) with true.
  change (can_sleep (Thread.Mk _ _ _ _ _ _ _)) with (can_sleep td). rewrite Hsl. cbn [negb panic_if mbind outcome_bind].
  cbn [zone_alloc_loop]. destruct (get_cache max_cpu _ (proj1 (Hcpu 0%nat))) as [Hg1 Hs1].
  rewrite (zo_caches _ _ _ _ _ Hok), Hg1. cbn [mbind outcome_bind]. rewrite default_cache. cbn [mbind outcome_bind].
  rewrite Hs1. cbn [mbind outcome_bind Z.eqb negb].
  match goal with |- context [refill_cache ?z' _] => assert (zone_ok max_cpu u a i z') as Hok' end.
  { destruct Hok. destruct zo_empty0 as (E1 & E2 & E3 & E4). split; cbn; auto. }
  rewrite (fresh_refill _ _ _ _ _ _ Hok' (proj2 (Hcpu 0%nat))). cbn [mbind outcome_bind zone_set z_ty].
  rewrite (zo_ty _ _ _ _ _ Hok). cbn [is_mbuf panic_if mbind outcome_bind].
  unfold alloc_bucket. cbn [z_free_buckets zone_set z_bucket_enable z_bucket_keys z_bucket_zones z_flags z_count].
  destruct (zo_buckets _ _ _ _ _ Hok) as (-> & -> & ->). rewrite (zo_flags _ _ _ _ _ Hok).
  destruct (bucket_of max_cpu u (zone_set (zone_set z (replicate max_cpu cache_default) (z_full_buckets z) (z_free_buckets z)
    (z_alloc_count z) (z_free_count z) (z_count z)) (replicate max_cpu cache_default) [] [] 0 0 (z_count z)) Hu (zo_count _ _ _ _ _ Hok))
    as (k & bz & Hen & Hk & Hb & Hbz).
  rewrite Hen. cbn [zone_set] in Hk. rewrite Hk. cbn [mbind outcome_bind]. rewrite Hb. cbn [mbind outcome_bind].
  by rewrite (fresh_alloc_item max_cpu u nfree free p _ bz Hn Hf Hu Hbz).
Qed.

Lemma first_vm_allocation_witness :
  exists u h, Uma.new 2 = Ok u /\ vm_heap_new 2 u = Ok h
  /\ vm_heap_alloc (new_bare 64) (fun _ => (0, 1)) 0 (fresh_vm 1 1000) (Vm.Proc 96 0) h (L 24 (2 ^ 3)) = Panic PUnwrap.
Proof.
  destruct (uma_new_ok 2) as (u & Hu & _). destruct (heap_lookup 2 u) as (h & Hh & _).
  exists u, h. split; [exact Hu|]. split; [exact Hh|].
  refine (first_vm_allocation 2 u h (new_bare 64) (fun _ => (0, 1)) 0 1 1000 (Vm.Proc 96 0) 3 24 Hu Hh eq_refl _ _ (or_intror eq_refl) _ _ _);
    [cbn; unfold u64_max; lia|intros _; cbn; lia|lia..|change PAGE_SIZE with 16384; lia].
Defined.

(** ** The two stages *)

(** What the kernel relies on of the allocator of the static buffer: it hands
    out memory of the span it was given only. *)
Class TalcSpec {Talc} (malloc : Talc -> Layout -> option Z * Talc) (free : Talc -> Z -> Layout -> Talc)
    (claims : Z -> Z -> Talc -> Prop) : Prop := {
  talc_malloc lo hi t l r t' : claims lo hi t -> 0 < l_size l -> malloc t l = (r, t') ->
    claims lo hi t' /\ (forall ptr, r = Some ptr -> lo <= ptr < hi);
  talc_free lo hi t ptr l : claims lo hi t -> claims lo hi (free t ptr l)
}.

Section stages.
Context {Talc} (malloc : Talc -> Layout -> option Z * Talc) (free : Talc -> Z -> Layout -> Talc)
  (claims : Z -> Z -> Talc -> Prop) `{!TalcSpec malloc free claims}.

Definition primitive (k : KernelHeap (Talc := Talc)) : Talc :=
  match stage k with One t => t | Two _ _ t => t end.
Definition vm_heap (k : KernelHeap (Talc := Talc)) : option VmHeap :=
  match stage k with One _ => None | Two h _ _ => Some h end.

Definition heap_ok (k : KernelHeap (Talc := Talc)) : Prop :=
  0 < primitive_ptr k /\ claims (primitive_ptr k) (primitive_end k) (primitive k).

(** Taking and releasing the mutex of the primitive heap changes nothing. *)
Lemma with_primitive_free {A} td (f : A) :
  can_sleep td = true -> 0 <= active_mutexes td < 2 ^ 16 - 1 ->
  with_primitive td MTX_UNOWNED f = Ok (f, MTX_UNOWNED, td).
Proof.
  intros Hs Hm. unfold with_primitive, mutex_lock, mutex_unlock, compare_exchange, get_active_mutexes, set_active_mutexes,
    cell_get, cell_set, validate.
  rewrite Hs, !Z.eqb_refl. cbn [negb panic_if mbind outcome_bind].
  rewrite (proj2 (Z.leb_gt _ _)) by lia. cbn [panic_if mbind outcome_bind id active_mutexes].
  rewrite !Z.eqb_refl. cbn [negb panic_if mbind outcome_bind].
  rewrite (proj2 (usub_Ok _ 1 (active_mutexes td))) by lia. cbn [mbind outcome_bind].
  rewrite !Z.eqb_refl. cbn [negb panic_if mbind outcome_bind]. by destruct td.
Qed.

Lemma with_primitive_Ok {A} td o (f : A) r o' td' :
  with_primitive td o f = Ok (r, o', td') -> r = f.
Proof.
  unfold with_primitive. intros H. apply bind_Ok in H as ([] & _ & H). apply bind_Ok in H as ([] & _ & H). by inv_ok.
Qed.

(** An allocation that does not use the VM heap. *)
Lemma primitive_alloc td cpu cpu' vm p k l ptr td' k' :
  heap_ok k -> 0 < l_size l -> vm_heap k = None \/ active_heap_guard td <> 0 ->
  alloc malloc td cpu cpu' vm p k l = Ok (ptr, td', k') ->
  heap_ok k' /\ primitive_ptr k' = primitive_ptr k /\ primitive_end k' = primitive_end k /\ vm_heap k' = vm_heap k
  /\ (ptr = 0 \/ primitive_ptr k <= ptr < primitive_end k).
Proof.
  intros [Hp Hc] Hl Hst H. unfold alloc, heap_ok, vm_heap, primitive in *. destruct (stage k) as [t|h o t].
  - destruct (malloc t l) as [r t'] eqn:Hm. destruct (talc_malloc _ _ _ _ _ _ Hc Hl Hm) as [Hc' Hr]. inv_ok.
    split_and!; try done. destruct r as [x|]; [right; by apply Hr|by left].
  - destruct Hst as [|Hg]; [done|]. unfold get_active_heap_guard, cell_get, validate in H.
    rewrite Z.eqb_refl in H. cbn [negb panic_if mbind outcome_bind] in H. rewrite (proj2 (Z.eqb_neq _ _)) in H by done.
    apply bind_Ok in H as ([[[r t'] o'] td2] & Hw & H). apply with_primitive_Ok in Hw. symmetry in Hw.
    destruct (talc_malloc _ _ _ _ _ _ Hc Hl Hw) as [Hc' Hr]. inv_ok.
    split_and!; try done. destruct r as [x|]; [right; by apply Hr|by left].
Qed.

(** A block that was allocated before the switch to the VM heap, or while
    the thread has the VM heap disabled, lies in the static buffer and leaves
    the VM heap alone.  When it is returned in stage two it goes back to the
    allocator of the static buffer, whose mutex is free again afterwards. *)
Theorem kernel_heap_routing td cpu cpu' vm p k l ptr td' k' td2 k2 h t :
  heap_ok k -> 0 < l_size l -> vm_heap k = None \/ active_heap_guard td <> 0 ->
  alloc malloc td cpu cpu' vm p k l = Ok (ptr, td', k') -> ptr <> 0 ->
  primitive_ptr k2 = primitive_ptr k -> primitive_end k2 = primitive_end k -> stage k2 = Two h MTX_UNOWNED t ->
  can_sleep td2 = true -> 0 <= active_mutexes td2 < 2 ^ 16 - 1 ->
  primitive_ptr k <= ptr < primitive_end k /\ vm_heap k' = vm_heap k /\ heap_ok k'
  /\ dealloc free td2 k2 ptr l
     = Ok (td2, KH (Two h MTX_UNOWNED (free t ptr l)) (primitive_ptr k) (primitive_end k)).
Proof.
  intros Hok Hl Hst Ha Hne Hp He Hs2 Hsl Hm.
  destruct (primitive_alloc _ _ _ _ _ _ _ _ _ _ Hok Hl Hst Ha) as (Hok' & _ & _ & Hvm & [?|Hr]); [done|].
  split; [exact Hr|]. split; [exact Hvm|]. split; [exact Hok'|]. unfold dealloc. rewrite Hs2, Hp, He.
  rewrite (proj2 (Z.leb_le _ _)), (proj2 (Z.ltb_lt _ _)) by lia. cbn [andb].
  by rewrite with_primitive_free.
Qed.

End stages.

(** A buffer that is handed out from its start: the next address and the end. *)
Definition bump_malloc (t : Z * Z) (l : Layout) : option Z * (Z * Z) :=
  if t.1 + l_size l <=? t.2 then (Some t.1, (t.1 + l_size l, t.2)) else (None, t).
Definition bump_free (t : Z * Z) (ptr : Z) (l : Layout) : Z * Z := t.
Definition bump_claims (lo hi : Z) (t : Z * Z) : Prop := lo <= t.1 /\ t.2 <= hi.

#[export] Instance bump_spec : TalcSpec bump_malloc bump_free bump_claims.
Proof.
  split; [|done]. intros lo hi [n e] l r t' [H1 H2] Hl. unfold bump_malloc, bump_claims in *. cbn in *.
  destruct (Z.leb_spec (n + l_size l) e); intros [= <- <-]; cbn; split; try lia; intros ptr [= <-]; lia.
Qed.

Lemma kernel_heap_routing_witness :
  exists k' h, dealloc bump_free (new_bare 64) (KH (Two h MTX_UNOWNED (0x1010, 0x2000)) 0x1000 0x2000) 0x1000 (L 16 8)
    = Ok (new_bare 64, KH (Two h MTX_UNOWNED (0x1010, 0x2000)) 0x1000 0x2000)
  /\ alloc bump_malloc (new_bare 64) (fun _ => (0, 0)) 0 (fresh_vm 1 1000) (Vm.Proc 96 0)
       (kernel_heap_new (0x1000, 0x2000) 0x1000 0x1000) (L 16 8) = Ok (0x1000, new_bare 64, k').
Proof.
  eexists. exists (VH [] [] []). split; [|reflexivity].
  refine (proj2 (proj2 (proj2 (kernel_heap_routing bump_malloc bump_free bump_claims (new_bare 64) (fun _ => (0, 0)) 0
    (fresh_vm 1 1000) (Vm.Proc 96 0) (kernel_heap_new (0x1000, 0x2000) 0x1000 0x1000) (L 16 8) 0x1000 (new_bare 64) _
    (new_bare 64) (KH (Two (VH [] [] []) MTX_UNOWNED (0x1010, 0x2000)) 0x1000 0x2000) (VH [] [] []) (0x1010, 0x2000)
    _ _ _ _ _ _ _ _ _ _)))); try reflexivity; try done.
  by left.
Defined.

End HeapProps.
