(* ===== verification/Channel.v ===== *)
(** * The log channel

    Models [gui/src/util/channel]: a bounded queue between the threads of the
    virtual CPUs and the task that shows the logs.  A sender blocks on a
    condition variable while the queue is full; the receiver is a future that
    leaves a waker in the queue while it is empty. *)
From S2P Require Import Prelude.

Module Channel.
Local Open Scope list_scope.
Local Open Scope Z_scope.

Section channel.
Context {T : Type}.

(** [Queue]: the pending items, and whether a waker is stored. *)
Record Queue := Q { items : list T; waiter : bool }.

(** [Channel::default]. *)
Definition channel_default : Queue := Q [] false.

(** [Sender::send] once it holds the mutex: [None] if it must wait for room;
    otherwise the new queue and whether the waker was woken. *)
Definition send (max : nat) (q : Queue) (v : T) : option (Queue * bool) :=
  if decide (max <= length (items q))%nat then None
  else Some (Q (items q ++ [v]) false, waiter q).

(** [Recv::poll] with the mutex held: an item, and then [notify_one] is
    called; or pending, with a waker stored. *)
Definition poll (q : Queue) : option T * Queue :=
  match items q with
  | v :: vs => (Some v, Q vs false)
  | [] => (None, Q [] true)
  end.

(** The drop of [Recv]. *)
Definition drop_recv (waiting : bool) (q : Queue) : Queue :=
  if waiting then Q (items q) false else q.

(** ** The concurrent system *)

(** A sender in [Condvar::wait], asleep or notified. *)
Inductive sleep := Asleep | Notified.

(** The receiving task: no [Recv] future exists, or one exists that has
    not been polled to a pending state, or is pending. *)
Inductive receiver := Idle | Started | Pending.

(** [woken] says that the waker of the pending future has been woken; [sent]
    and [received] record the items in the order of the operations. *)
Record sys := Sys {
  queue : Queue;
  senders : gmap nat (sleep * T);
  recv : receiver;
  woken : bool;
  sent : list T;
  received : list T
}.

(** [Condvar::notify_one]. *)
Inductive notify_one : gmap nat (sleep * T) -> gmap nat (sleep * T) -> Prop :=
  | notify_none m : (forall i v, m !! i <> Some (Asleep, v)) -> notify_one m m
  | notify_some m i v : m !! i = Some (Asleep, v) -> notify_one m (<[i := (Notified, v)]> m).

Inductive step (max : nat) : sys -> sys -> Prop :=
  (* [send] finds room, or starts to wait. *)
  | step_send s i v q w :
      senders s !! i = None -> send max (queue s) v = Some (q, w) ->
      step max s (Sys q (senders s) (recv s) (woken s || w) (sent s ++ [v]) (received s))
  | step_wait s i v :
      senders s !! i = None -> send max (queue s) v = None ->
      step max s (Sys (queue s) (<[i := (Asleep, v)]> (senders s)) (recv s) (woken s) (sent s) (received s))
  (* A notified sender gets the mutex and checks again. *)
  | step_resume s i v q w :
      senders s !! i = Some (Notified, v) -> send max (queue s) v = Some (q, w) ->
      step max s (Sys q (delete i (senders s)) (recv s) (woken s || w) (sent s ++ [v]) (received s))
  | step_sleep s i v :
      senders s !! i = Some (Notified, v) -> send max (queue s) v = None ->
      step max s (Sys (queue s) (<[i := (Asleep, v)]> (senders s)) (recv s) (woken s) (sent s) (received s))
  (* [Condvar::wait] may return without a notification. *)
  | step_spurious s i v :
      senders s !! i = Some (Asleep, v) ->
      step max s (Sys (queue s) (<[i := (Notified, v)]> (senders s)) (recv s) (woken s) (sent s) (received s))
  (* The receiver makes a future, polls it (also without being woken), or
     drops it. *)
  | step_recv s :
      recv s = Idle ->
      step max s (Sys (queue s) (senders s) Started false (sent s) (received s))
  | step_ready s v q m :
      recv s <> Idle -> poll (queue s) = (Some v, q) -> notify_one (senders s) m ->
      step max s (Sys q m Idle false (sent s) (received s ++ [v]))
  | step_pending s q :
      recv s <> Idle -> poll (queue s) = (None, q) ->
      step max s (Sys q (senders s) Pending false (sent s) (received s))
  | step_drop s :
      recv s <> Idle ->
      step max s (Sys (drop_recv (match recv s with Pending => true | _ => false end) (queue s))
                   (senders s) Idle false (sent s) (received s)).

Definition start : sys := Sys channel_default ∅ Idle false [] [].

End channel.
Arguments Queue : clear implicits.
Arguments sys : clear implicits.

End Channel.
