(* ===== verification/ChannelProps.v ===== *)
(** * Properties of the log channel *)
From S2P Require Import Prelude Channel.

Module ChannelProps.
Import Channel.
Local Open Scope list_scope.
Local Open Scope Z_scope.

Section props.
Context {T : Type}.
Implicit Types (m : gmap nat (sleep * T)) (s : sys T).

(** The senders that have been notified and wait for the mutex. *)
Definition is_notified (x : nat * (sleep * T)) : Prop := x.2.1 = Notified.
#[global] Instance is_notified_dec x : Decision (is_notified x).
Proof. unfold is_notified. destruct x.2.1; [right|left]; congruence. Defined.

Definition notified m : nat := size (filter is_notified m).

Definition asleep m : Prop := exists i v, m !! i = Some (Asleep, v).

Lemma notified_asleep i v m :
  m !! i = None -> notified (<[i := (Asleep, v)]> m) = notified m.
Proof.
  intros Hi. unfold notified. rewrite map_filter_insert_False by (cbn; done).
  by rewrite map_filter_delete, delete_id by (apply map_lookup_filter_None; auto).
Qed.

Lemma notified_wake i v m :
  m !! i = Some (Asleep, v) -> notified (<[i := (Notified, v)]> m) = S (notified m).
Proof.
  intros Hi. unfold notified. rewrite map_filter_insert_True by done.
  apply map_size_insert_None. apply map_lookup_filter_None. right. intros x Hx. rewrite Hi in Hx. by injection Hx as <-.
Qed.

Lemma notified_delete i v m :
  m !! i = Some (Notified, v) -> notified m = S (notified (delete i m)).
Proof.
  intros Hi. unfold notified. rewrite map_filter_delete.
  assert (filter is_notified m !! i = Some (Notified, v)) as Hf by by apply map_lookup_filter_Some.
  rewrite map_size_delete_Some by by eexists.
  assert (size (filter is_notified m) <> 0%nat); [|lia].
  intros He%map_size_empty_inv. rewrite He in Hf. by rewrite lookup_empty in Hf.
Qed.

Lemma notified_sleep i v m :
  m !! i = Some (Notified, v) -> notified m = S (notified (<[i := (Asleep, v)]> m)).
Proof.
  intros Hi. rewrite (notified_delete i v m Hi). f_equal.
  rewrite <- (notified_asleep i v (delete i m)) by apply lookup_delete_eq. by rewrite insert_delete_eq.
Qed.

(** The invariant: nobody is asleep who could go on. *)
Record inv (max : nat) s : Prop := {
  inv_bound : (length (items (queue s)) <= max)%nat;
  inv_fifo : sent s = received s ++ items (queue s);
  inv_senders : asleep (senders s) -> (max <= length (items (queue s)) + notified (senders s))%nat;
  inv_waiter : waiter (queue s) = true -> recv s = Pending;
  inv_recv : recv s = Pending -> woken s = true \/ waiter (queue s) = true /\ items (queue s) = []
}.

Lemma send_Some max (q q' : Queue T) v w :
  send max q v = Some (q', w) ->
  (length (items q) < max)%nat /\ items q' = items q ++ [v] /\ waiter q' = false /\ w = waiter q.
Proof. unfold send. case_decide; [done|]. intros [= <- <-]. cbn. split_and!; [lia|done..]. Qed.

Lemma send_None max (q : Queue T) v : send max q v = None -> (max <= length (items q))%nat.
Proof. unfold send. by case_decide. Qed.

Lemma inv_send max s q w v m :
  inv max s -> send max (queue s) v = Some (q, w) ->
  (asleep m -> asleep (senders s) /\ (notified (senders s) <= S (notified m))%nat) ->
  inv max (Sys q m (recv s) (woken s || w) (sent s ++ [v]) (received s)).
Proof.
  intros [H1 H2 H3 H4 H5] (Hlt & Hq & Hw & ->)%send_Some Hm. split; cbn.
  - rewrite Hq, length_app. cbn. lia.
  - by rewrite Hq, H2, app_assoc.
  - intros Ha. apply Hm in Ha as [Ha Hn]. apply H3 in Ha. rewrite Hq, length_app. cbn. lia.
  - by rewrite Hw.
  - intros Hp. left. apply H5 in Hp as [->|[-> _]]; [done|]. apply orb_true_r.
Qed.

Lemma inv_park max s i v :
  inv max s -> send max (queue s) v = None ->
  (senders s !! i = None \/ senders s !! i = Some (Notified, v)) ->
  inv max (Sys (queue s) (<[i := (Asleep, v)]> (senders s)) (recv s) (woken s) (sent s) (received s)).
Proof. intros [H1 H2 H3 H4 H5] Hf%send_None _. split; cbn; auto. intros _. lia. Qed.

Lemma asleep_insert i v m : asleep (<[i := (Notified, v)]> m) -> asleep m.
Proof.
  intros (j & x & Hj). rewrite lookup_insert in Hj. case_decide; [done|]. by exists j, x.
Qed.

Lemma asleep_delete i m : asleep (delete i m) -> asleep m.
Proof. intros (j & x & Hj). rewrite lookup_delete in Hj. case_decide; [done|]. by exists j, x. Qed.

Lemma poll_Some (q q' : Queue T) v :
  poll q = (Some v, q') -> items q = v :: items q' /\ waiter q' = false.
Proof. unfold poll. destruct (items q); [done|]. by intros [= -> <-]. Qed.

Lemma poll_None (q q' : Queue T) : poll q = (None, q') -> items q = [] /\ q' = Q [] true.
Proof. unfold poll. destruct (items q); [|done]. by intros [= <-]. Qed.

Lemma inv_ready max s v q m :
  inv max s -> poll (queue s) = (Some v, q) -> notify_one (senders s) m ->
  inv max (Sys q m Idle false (sent s) (received s ++ [v])).
Proof.
  intros [H1 H2 H3 H4 H5] [Hq Hw]%poll_Some Hn. rewrite Hq in *. cbn in *. split; cbn; try done.
  - lia.
  - by rewrite H2, <- app_assoc.
  - intros Ha. destruct Hn as [m Hno|m i x Hx].
    + destruct Ha as (j & y & Hj). by apply Hno in Hj.
    + rewrite (notified_wake _ _ _ Hx). apply asleep_insert, H3 in Ha. lia.
  - by rewrite Hw.
Qed.

Lemma inv_step max s s' : inv max s -> step max s s' -> inv max s'.
Proof.
  intros Hi Hs. destruct Hs as [s i v q w Hn Hq|s i v Hn Hq|s i v q w Hn Hq|s i v Hn Hq|s i v Hn|s Hr|s v q m Hr Hq Hm|s q Hr Hq|s Hr].
  - apply inv_send; [done..|]. intros Ha. split; [done|lia].
  - apply inv_park; auto.
  - apply inv_send; [done..|]. intros Ha. split; [by apply asleep_delete in Ha|].
    rewrite (notified_delete i v _ Hn). lia.
  - apply inv_park; auto.
  - destruct Hi as [H1 H2 H3 H4 H5]. split; cbn; auto. rewrite (notified_wake _ _ _ Hn).
    intros Ha%asleep_insert%H3. lia.
  - destruct Hi as [H1 H2 H3 H4 H5]. split; cbn; auto; try done. intros Hw%H4. congruence.
  - by eapply inv_ready.
  - destruct Hi as [H1 H2 H3 H4 H5]. apply poll_None in Hq as [Hq ->].
    rewrite Hq in *. split; cbn; auto.
  - destruct Hi as [H1 H2 H3 H4 H5]. unfold drop_recv.
    destruct (recv s) eqn:Er; [done| |]; split; cbn; auto; try done. intros Hw%H4. congruence.
Qed.

Lemma inv_start max : inv max start.
Proof. split; cbn; try done; [lia|]. intros (i & v & Hi). by rewrite lookup_empty in Hi. Qed.

(** C23: in every interleaving the channel holds at most [max] items and
    delivers them in the order in which they were sent; a sender sleeps only
    while the queue is full up to the senders that are already being woken;
    and the pending receiver has been woken whenever an item is waiting. *)
Theorem channel_correct max s :
  rtc (step max) start s ->
  (length (items (queue s)) <= max)%nat
  /\ sent s = received s ++ items (queue s)
  /\ ((exists i v, senders s !! i = Some (Asleep, v)) -> notified (senders s) = 0%nat ->
      length (items (queue s)) = max)
  /\ (recv s = Pending -> items (queue s) <> [] -> woken s = true).
Proof.
  intros Hs. assert (inv max s) as [H1 H2 H3 H4 H5].
  { revert Hs. generalize (inv_start max). generalize (@start T). intros s0 H0 Hs. induction Hs; eauto using inv_step. }
  split_and!; [done..| |].
  - intros Ha Hn. apply H3 in Ha. lia.
  - intros Hp Hne. by apply H5 in Hp as [?|[_ ?]].
Qed.

End props.

(** One slot: the second sender sleeps until the receiver takes an item. *)
Lemma channel_correct_witness :
  exists s : sys Z, rtc (step 1) start s /\ senders s !! 1%nat = Some (Asleep, 20) /\ items (queue s) = [10]
  /\ ((exists i v, senders s !! i = Some (Asleep, v)) -> notified (senders s) = 0%nat ->
      length (items (queue s)) = 1%nat).
Proof.
  assert (rtc (step 1) start (Sys (Q [10] false) {[1%nat := (Asleep, 20)]} Idle false [10] [])) as H.
  { eapply rtc_l; [by apply (step_send _ _ 0%nat 10)|]. cbn.
    eapply rtc_l; [by apply (step_wait _ _ 1%nat 20)|]. cbn. apply rtc_refl. }
  eexists. split; [exact H|]. split_and!; [done..|]. apply (channel_correct 1 _ H).
Defined.

End ChannelProps.
