(* ===== verification/Console.v ===== *)
(** * Virtual devices and the console

    Models the devices that the virtual machine monitor shows to the kernel
    ([gui/src/hw], and the dispatch of [gui/src/vmm/mod.rs] and
    [gui/src/vmm/cpu/mod.rs]) and the kernel side of the console
    ([lib/krt/src/console], [lib/krt/src/panic]).  A store of the kernel to
    the memory of a device exits the virtual machine; what the monitor then
    sees of the guest, the translation of addresses and the RAM, is part of
    the exit. *)
From S2P Require Import Prelude BTree Env.

Module Console.
Import BTree Env.
Local Open Scope string_scope.
Local Open Scope list_scope.
Local Open Scope Z_scope.

(** ** Data shared by the kernel and the monitor ([config/src/env/vm.rs]) *)

Inductive ConsoleType := Info | Warn | Error.
Inductive KernelExit := Success | KPanic.

(** [TryFromPrimitive] and [IntoPrimitive]. *)
Definition ConsoleType_try_from (v : Z) : option ConsoleType :=
  if v =? 0 then Some Info else if v =? 1 then Some Warn else if v =? 2 then Some Error else None.
Definition ConsoleType_into (t : ConsoleType) : Z :=
  match t with Info => 0 | Warn => 1 | Error => 2 end.
Definition KernelExit_try_from (v : Z) : option KernelExit :=
  if v =? 0 then Some Success else if v =? 1 then Some KPanic else None.
Definition KernelExit_into (e : KernelExit) : Z := match e with Success => 0 | KPanic => 1 end.

(** The layout of the [repr(C)] structures [VmmMemory] and [ConsoleMemory]. *)
Definition off_shutdown : Z := 0.
Definition size_VmmMemory : Z := 1.
Definition off_msg_len : Z := 0.
Definition off_msg_addr : Z := 8.
Definition off_commit : Z := 16.
Definition size_ConsoleMemory : Z := 24.

(** ** Devices *)

Record Device := Dev { d_name : string; d_addr : Z; d_len : Z }.

(** [Vmm::new] and [Console::new]. *)
Definition device_new {E} (name : string) (size addr block_size : Z) : outcome E Device :=
  l ← unwrap_or_panic PUnwrap (checked_next_multiple_of size block_size);
  panic_if (l =? 0) PUnwrap;;
  Ok (Dev name addr l).
Definition vmm_new {E} : Z -> Z -> outcome E Device := device_new "VMM" size_VmmMemory.
Definition console_new {E} : Z -> Z -> outcome E Device := device_new "Virtual Console" size_ConsoleMemory.

Record MapBuilder := Builder { map : list (Z * Device); next : Z }.

Definition push {E} (b : MapBuilder) (f : Z -> outcome E Device) : outcome E (Device * MapBuilder) :=
  d ← f (next b);
  assert_that (bool_decide (bt_get (next b) (map b) = None));;
  next' ← unwrap_or_panic PUnwrap (checked_add (next b) (d_len d));
  Ok (d, Builder (bt_insert (next b) d (map b)) next').

Record DeviceTree := Tree { t_vmm : Device; t_console : Device; t_map : list (Z * Device) }.

Definition setup_devices {E} (start_addr block_size : Z) : outcome E DeviceTree :=
  '(vmm, b) ← push (Builder [] start_addr) (fun a => vmm_new a block_size);
  '(console, b) ← push b (fun a => console_new a block_size);
  Ok (Tree vmm console (map b)).

(** ** Exits of the virtual machine *)

Inductive IoBuf := IoWrite (data : list Z) | IoRead (len : Z).

(** [CpuIo]: [translate] is [Cpu::translate], [ram] gives the bytes behind a
    lock of the RAM, [None] if the range is not allocated. *)
Record CpuIo := Io {
  io_addr : Z;
  io_buffer : IoBuf;
  io_translate : Z -> string + Z;
  io_ram : Z -> Z -> option (list Z)
}.

Inductive MmioError :=
  | InvalidOperation
  | InvalidData
  | TranslateVaddrFailed (vaddr : Z) (e : string)
  | InvalidAddr (vaddr paddr : Z).

Definition read_u8 (exit : CpuIo) : outcome MmioError Z :=
  match io_buffer exit with
  | IoWrite [v] => Ok v
  | IoWrite _ => Err InvalidData
  | IoRead _ => Err InvalidOperation
  end.

Definition read_usize (exit : CpuIo) : outcome MmioError Z :=
  match io_buffer exit with
  | IoWrite data => if (length data =? 8)%nat then Ok (le_value data) else Err InvalidData
  | IoRead _ => Err InvalidOperation
  end.

Definition read_ptr (exit : CpuIo) (len : Z) : outcome MmioError (list Z) :=
  vaddr ← read_usize exit;
  paddr ←
    match io_translate exit vaddr with
    | inr p => Ok p
    | inl e => Err (TranslateVaddrFailed vaddr e)
    end;
  ok_or (InvalidAddr vaddr paddr) (io_ram exit paddr len).

(** ** Device contexts *)

Inductive ExecError :=
  | UnknownField (off : Z)
  | ReadFailed (off : Z) (e : MmioError)
  | InvalidLen
  | InvalidMsg
  | InvalidCommit (v : Z)
  | InvalidSequence
  | InvalidExit (v : Z).

(** [Context] of the console, without the references. *)
Record Context := Cx { msg_len : option Z; msg : list Z }.
Definition context_new : Context := Cx None [].

(** [mmio] of the console: the new state, and the log that is sent. *)
Definition console_mmio (dev : Device) (c : Context) (exit : CpuIo)
    : outcome ExecError (Context * option (ConsoleType * list Z)) :=
  off ← usub (io_addr exit) (d_addr dev);
  if off =? off_msg_len then
    v ← map_err (ReadFailed off) (read_usize exit);
    fail_if (v =? 0) InvalidLen;;
    Ok (Cx (Some v) (msg c), None)
  else if off =? off_msg_addr then
    len ← ok_or InvalidSequence (msg_len c);
    data ← map_err (ReadFailed off) (read_ptr exit len);
    Ok (Cx None (msg c ++ data), None)
  else if off =? off_commit then
    fail_if (bool_decide (is_Some (msg_len c)) || bool_decide (msg c = [])) InvalidSequence;;
    commit ← map_err (ReadFailed off) (read_u8 exit);
    ty ← ok_or (InvalidCommit commit) (ConsoleType_try_from commit);
    fail_if (negb (valid_utf8 (msg c))) InvalidMsg;;
    Ok (Cx (msg_len c) [], Some (ty, msg c))
  else Err (UnknownField off).

(** [mmio] of the VMM device: whether the kernel exited with success. *)
Definition vmm_mmio (dev : Device) (exit : CpuIo) : outcome ExecError bool :=
  off ← usub (io_addr exit) (d_addr dev);
  if off =? off_shutdown then
    e ← map_err (ReadFailed off) (read_u8 exit);
    e ← ok_or (InvalidExit e) (KernelExit_try_from e);
    Ok (match e with Success => true | KPanic => false end)
  else Err (UnknownField off).

(** ** Dispatch *)

Inductive context := CConsole (c : Context) | CVmm.

(** [cpu::Device]. *)
Record CpuDevice := CpuDev { cd_context : context; cd_dev : Device; cd_end : Z }.

Inductive CpuError :=
  | Run (e : string)
  | MmioAddr (addr : Z)
  | Mmio (name : string) (e : ExecError).

(** [cpu::Device::insert]. *)
Definition insert_device {E} (tree : list (Z * CpuDevice)) (d : Device) (c : context)
    : outcome E (list (Z * CpuDevice)) :=
  e ← unwrap_or_panic PUnwrap (checked_add (d_len d) (d_addr d));
  assert_that (bool_decide (bt_get (d_addr d) tree = None));;
  Ok (bt_insert (d_addr d) (CpuDev c d e) tree).

(** The devices of a virtual CPU, at the start of [run_cpu]. *)
Definition cpu_devices {E} (t : DeviceTree) : outcome E (list (Z * CpuDevice)) :=
  m ← insert_device [] (t_console t) (CConsole context_new);
  insert_device m (t_vmm t) CVmm.

(** [devices.range_mut(..=addr).last()]. *)
Definition last_at_most {V} (addr : Z) (m : list (Z * V)) : option (Z * V) :=
  last (List.filter (fun kv => kv.1 <=? addr) m).

(** [handle_io]: the result of the handler, the devices and the log. *)
Definition handle_io (devices : list (Z * CpuDevice)) (io : CpuIo)
    : outcome CpuError (option bool * list (Z * CpuDevice) * option (ConsoleType * list Z)) :=
  match last_at_most (io_addr io) devices with
  | Some (k, d) =>
      if io_addr io <? cd_end d then
        match cd_context d with
        | CConsole c =>
            '(c, log) ← map_err (Mmio (d_name (cd_dev d))) (console_mmio (cd_dev d) c io);
            Ok (None, bt_insert k (CpuDev (CConsole c) (cd_dev d) (cd_end d)) devices, log)
        | CVmm =>
            b ← map_err (Mmio (d_name (cd_dev d))) (vmm_mmio (cd_dev d) io);
            Ok (Some b, devices, None)
        end
      else Err (MmioAddr (io_addr io))
  | None => Err (MmioAddr (io_addr io))
  end.

(** [CpuExit], as the [into_hlt], [into_io] and [into_debug] of it see it. *)
Inductive CpuExit := ExitHlt | ExitIo (io : CpuIo) | ExitDebug | ExitOther.

(** [handle_exit] on x86-64; the handling of breakpoints ([handle_breakpoint])
    is unfinished and panics. *)
Definition handle_exit (devices : list (Z * CpuDevice)) (exit : CpuExit)
    : outcome CpuError (option bool * list (Z * CpuDevice) * option (ConsoleType * list Z)) :=
  match exit with
  | ExitHlt => Ok (None, devices, None)
  | ExitIo io => handle_io devices io
  | ExitDebug | ExitOther => Panic PTodo
  end.

(** What one round of the loop of [run_cpu] finds: the shutdown signal, a
    virtual CPU that failed to run, or an exit. *)
Inductive turn := TShutdown | TRunFailed (e : string) | TExit (exit : CpuExit).

(** The loop of [run_cpu]: the result if it returned, the devices, and the
    logs that were sent.  The devices do nothing in [exited] and [post]. *)
Fixpoint run_loop (devices : list (Z * CpuDevice)) (turns : list turn)
    : outcome CpuError (option bool * list (Z * CpuDevice) * list (ConsoleType * list Z)) :=
  match turns with
  | [] => Ok (None, devices, [])
  | TShutdown :: _ => Ok (Some true, devices, [])
  | TRunFailed e :: _ => Err (Run e)
  | TExit exit :: turns =>
      '(r, devices, log) ← handle_exit devices exit;
      let logs := match log with Some l => [l] | None => [] end in
      match r with
      | Some v => Ok (Some v, devices, logs)
      | None =>
          '(r, devices, logs') ← run_loop devices turns;
          Ok (r, devices, logs ++ logs')
      end
  end.

Definition run_cpu (t : DeviceTree) (turns : list turn)
    : outcome CpuError (option bool * list (Z * CpuDevice) * list (ConsoleType * list Z)) :=
  devices ← cpu_devices t;
  run_loop devices turns.

End Console.
