(* ===== verification/Krt.v ===== *)
(** * The console of the kernel

    Models [lib/krt/src/console] and [lib/krt/src/panic]: the formatting of a
    log and the writer that passes it to the console device through a buffer
    of 1 KiB.  A formatter is the sequence of strings that it passes to
    [write_str]; the escape sequences of the [anstyle] crate are parameters. *)
From S2P Require Import Prelude Env Console.

Module Krt.
Import Env Console.
Local Open Scope string_scope.
Local Open Scope list_scope.
Local Open Scope Z_scope.

(** A volatile store to the memory of a device: the address, the bytes, and
    what the buffer of the writer holds at that time. *)
Record store := Store { s_addr : Z; s_data : list Z; s_buf : list Z }.

(** ** The writer *)

Definition LF : Z := 10.

Definition BUF_LEN : Z := 1024.

Record Writer := Wr { buf : list Z; len : Z }.
Definition writer_new : Writer := Wr (replicate 1024 0) 0.

Section writer.
(** The addresses of the console and of the buffer. *)
Context (con buf_addr : Z).

Definition flush (w : Writer) : list store * Writer :=
  if len w =? 0 then ([], w)
  else ([Store (con + off_msg_len) (le_bytes 8 (len w)) (buf w);
         Store (con + off_msg_addr) (le_bytes 8 buf_addr) (buf w)],
        Wr (buf w) 0).

(** The loop of [write_str]; every round but the last fills the buffer. *)
Fixpoint write_loop (fuel : nat) (w : Writer) (s : str) : list store * Writer :=
  match fuel, s with
  | O, _ | _, [] => ([], w)
  | S fuel, _ =>
      let available := BUF_LEN - len w in
      let n := Z.to_nat (Z.min (Z.of_nat (length s)) available) in
      let l := Z.to_nat (len w) in
      let w := Wr (take l (buf w) ++ take n s ++ drop (l + n) (buf w)) (len w + Z.of_nat n) in
      let '(o, w) := if len w =? BUF_LEN then flush w else ([], w) in
      let '(o', w) := write_loop fuel w (drop n s) in
      (o ++ o', w)
  end.

Definition write_str (w : Writer) (s : str) : list store * Writer := write_loop (S (length s)) w s.

Fixpoint write_all (w : Writer) (frags : list str) : list store * Writer :=
  match frags with
  | [] => ([], w)
  | s :: frags =>
      let '(o, w) := write_str w s in
      let '(o', w) := write_all w frags in
      (o ++ o', w)
  end.

(** [vm::print] of a message that is formatted as [frags]. *)
Definition print (ty : ConsoleType) (frags : list str) : list store :=
  let '(o, w) := write_all writer_new (frags ++ [[LF]]) in
  let '(o', w) := flush w in
  o ++ o' ++ [Store (con + off_commit) [ConsoleType_into ty] (buf w)].

End writer.

(** [panic::vm::panic], up to the point where the machine is shut down. *)
Definition panic (vmm : Z) : store := Store (vmm + off_shutdown) [KernelExit_into KPanic] [].

(** ** Formatting *)

Definition CR : Z := 13.

Definition strip_cr (l : str) : str :=
  match last l with Some c => if c =? CR then take (length l - 1) l else l | None => l end.

(** [str::lines]: [cur] is the line so far. *)
Fixpoint lines_from (cur s : str) : list str :=
  match s with
  | [] => match cur with [] => [] | _ => [cur] end
  | c :: s => if c =? LF then strip_cr cur :: lines_from [] s else lines_from (cur ++ [c]) s
  end.
Definition lines (s : str) : list str := lines_from [] s.

(** [MsgWriter::write_str]: the strings that are passed on. *)
Definition indent : str := LF :: bytes_of "     ".
Definition msg_write_str (s : str) : list str :=
  match lines s with
  | [] => []
  | l :: ls => l :: (ls ≫= fun l => [indent; l])
  end.

(** [Log::fmt] for a message formatted as [msg]. *)
Definition log_fmt (style style_reset info info_reset cat file line : str) (msg : list str) : list str :=
  [style; bytes_of "["; cat; bytes_of "]:"; style_reset; bytes_of " "]
  ++ (msg ≫= msg_write_str) ++ [[LF]]
  ++ [bytes_of "     "; info; file; bytes_of ":"; line; info_reset].

End Krt.
