(* ===== verification/ConsoleProps.v ===== *)
(** * Properties of the devices and the console *)
From S2P Require Import Prelude BTree Env EnvProps Console Krt.

Module ConsoleProps.
Import BTree Env Console Krt.
Local Open Scope list_scope.
Local Open Scope Z_scope.

(** ** Devices *)

(** The devices of a virtual CPU whose console is in state [c]. *)
Definition devices (t : DeviceTree) (c : Context) : list (Z * CpuDevice) :=
  [(d_addr (t_vmm t), CpuDev CVmm (t_vmm t) (d_addr (t_vmm t) + d_len (t_vmm t)));
   (d_addr (t_console t), CpuDev (CConsole c) (t_console t) (d_addr (t_console t) + d_len (t_console t)))].

Lemma device_new_Ok {E} name size addr bs d :
  0 < size -> 0 < bs -> @device_new E name size addr bs = Ok d ->
  d = Dev name addr (round_up size bs) /\ size <= round_up size bs < 2 ^ 64 /\ round_up size bs mod bs = 0.
Proof.
  intros Hs Hb H. unfold device_new in H. inv_arith. destruct (round_up_spec size bs Hb). split_and!; (done || lia).
Qed.

(** The layout of the devices. *)
Record tree_ok (start bs : Z) (t : DeviceTree) : Prop := {
  to_vmm : t_vmm t = Dev "VMM" start (round_up 1 bs);
  to_console : t_console t = Dev "Virtual Console" (start + round_up 1 bs) (round_up 24 bs);
  to_map : t_map t = [(start, t_vmm t); (start + round_up 1 bs, t_console t)];
  to_vmm_len : 1 <= round_up 1 bs;
  to_console_len : 24 <= round_up 24 bs;
  to_end : start + round_up 1 bs + round_up 24 bs < 2 ^ 64;
  to_align : round_up 1 bs mod bs = 0 /\ round_up 24 bs mod bs = 0
}.

Lemma setup_devices_Ok {E} start bs t :
  0 <= start -> 0 < bs -> @setup_devices E start bs = Ok t -> tree_ok start bs t.
Proof.
  intros Hs Hb H. unfold setup_devices, push in H. cbn [next map] in H.
  apply bind_Ok in H as ([v b] & Hv & H). apply bind_Ok in H as ([c b'] & Hc & H).
  apply bind_Ok in Hv as (dv & Hdv & Hv). apply device_new_Ok in Hdv as (-> & Hv1 & Hv2); [|done..].
  cbn [d_len] in Hv. inv_arith. apply device_new_Ok in H0 as (-> & Hc1 & Hc2); [|done..].
  cbn [d_len] in *. unfold size_VmmMemory, size_ConsoleMemory in *. inv_arith.
  split; cbn; try done; try lia.
  by rewrite (proj2 (Z.ltb_ge _ _)), (proj2 (Z.eqb_neq _ _)) by lia.
Qed.

Lemma setup_devices_total {E} start bs :
  0 <= start -> 0 < bs -> start + round_up 1 bs + round_up 24 bs < 2 ^ 64 ->
  exists t, @setup_devices E start bs = Ok t.
Proof.
  intros Hs Hb He. destruct (round_up_spec 1 bs Hb) as [H1 _], (round_up_spec 24 bs Hb) as [H2 _].
  unfold setup_devices, push, vmm_new, console_new, device_new, size_VmmMemory, size_ConsoleMemory. cbn [next map].
  rewrite (proj2 (checked_next_multiple_of_Some 1 bs (round_up 1 bs))) by lia. cbn [unwrap_or_panic mbind outcome_bind].
  rewrite (proj2 (Z.eqb_neq _ _)) by lia. cbn [panic_if mbind outcome_bind d_len bt_get].
  rewrite bool_decide_true by done. cbn [assert_that mbind outcome_bind].
  rewrite (proj2 (checked_add_Some start (round_up 1 bs) (start + (round_up 1 bs)))) by lia. cbn [unwrap_or_panic mbind outcome_bind next map].
  rewrite (proj2 (checked_next_multiple_of_Some 24 bs (round_up 24 bs))) by lia. cbn [unwrap_or_panic mbind outcome_bind].
  rewrite (proj2 (Z.eqb_neq _ _)) by lia. cbn [panic_if mbind outcome_bind d_len bt_insert bt_get].
  rewrite (proj2 (Z.eqb_neq _ _)) by lia. rewrite bool_decide_true by done. cbn [assert_that mbind outcome_bind].
  rewrite (proj2 (checked_add_Some (start + round_up 1 bs) (round_up 24 bs) ((start + round_up 1 bs) + (round_up 24 bs)))) by lia. by eexists.
Qed.

Lemma cpu_devices_Ok {E} start bs t :
  tree_ok start bs t -> @cpu_devices E t = Ok (devices t context_new).
Proof.
  intros []. unfold cpu_devices, insert_device, devices. rewrite to_vmm0, to_console0. cbn [d_len d_addr].
  rewrite (proj2 (checked_add_Some (round_up 24 bs) (start + round_up 1 bs) ((round_up 24 bs) + (start + round_up 1 bs)))) by lia.
  cbn [unwrap_or_panic mbind outcome_bind]. rewrite bool_decide_true by done. cbn [assert_that mbind outcome_bind].
  rewrite (proj2 (checked_add_Some (round_up 1 bs) start ((round_up 1 bs) + start))) by lia.
  cbn [unwrap_or_panic mbind outcome_bind bt_insert bt_get].
  rewrite (proj2 (Z.eqb_neq _ _)) by lia. rewrite bool_decide_true by done. cbn [assert_that mbind outcome_bind].
  rewrite (proj2 (Z.ltb_lt _ _)) by lia. by rewrite (Z.add_comm (round_up 1 bs)), (Z.add_comm (round_up 24 bs)).
Qed.

(** Where an exit goes. *)
Lemma handle_io_dispatch start bs t c io :
  tree_ok start bs t ->
  handle_io (devices t c) io =
  if (start <=? io_addr io) && (io_addr io <? start + round_up 1 bs) then
    b ← map_err (Mmio "VMM") (vmm_mmio (t_vmm t) io); Ok (Some b, devices t c, None)
  else if (start + round_up 1 bs <=? io_addr io) && (io_addr io <? start + round_up 1 bs + round_up 24 bs) then
    '(c', log) ← map_err (Mmio "Virtual Console") (console_mmio (t_console t) c io); Ok (None, devices t c', log)
  else Err (MmioAddr (io_addr io)).
Proof.
  intros []. unfold handle_io, devices, last_at_most. rewrite to_vmm0, to_console0. cbn [d_addr d_len d_name List.filter fst].
  destruct (Z.leb_spec start (io_addr io)) as [H1|H1], (Z.leb_spec (start + round_up 1 bs) (io_addr io)) as [H2|H2]; try lia;
    cbn [last andb cd_end cd_context cd_dev d_name].
  - rewrite (proj2 (Z.ltb_ge _ (start + round_up 1 bs))) by lia.
    destruct (_ <? _); [|done]. destruct (console_mmio _ _ _) as [[c' log]| |]; cbn; [|done..].
    by rewrite (proj2 (Z.ltb_ge _ _)), (proj2 (Z.eqb_neq _ _)), Z.ltb_irrefl, Z.eqb_refl by lia.
  - rewrite (proj2 (Z.ltb_lt _ (start + round_up 1 bs))) by lia. done.
  - done.
Qed.

(** The devices are adjacent ranges of whole blocks that do not overlap;
    the virtual CPU knows exactly these devices, passes an access to the
    device whose range has its address, and reports an error for every other
    address. *)
Theorem device_dispatch start bs :
  0 <= start -> 0 < bs -> start + round_up 1 bs + round_up 24 bs < 2 ^ 64 ->
  exists t, @setup_devices CpuError start bs = Ok t
  /\ d_addr (t_vmm t) = start /\ d_addr (t_console t) = start + d_len (t_vmm t)
  /\ d_len (t_vmm t) mod bs = 0 /\ d_len (t_console t) mod bs = 0
  /\ t_map t = [(d_addr (t_vmm t), t_vmm t); (d_addr (t_console t), t_console t)]
  /\ @cpu_devices CpuError t = Ok (devices t context_new)
  /\ forall c io,
     let at_ d := d_addr d <= io_addr io < d_addr d + d_len d in
     (at_ (t_vmm t) -> handle_io (devices t c) io
        = (b ← map_err (Mmio "VMM") (vmm_mmio (t_vmm t) io); Ok (Some b, devices t c, None)))
     /\ (at_ (t_console t) -> handle_io (devices t c) io
        = ('(c', log) ← map_err (Mmio "Virtual Console") (console_mmio (t_console t) c io);
           Ok (None, devices t c', log)))
     /\ (~ at_ (t_vmm t) -> ~ at_ (t_console t) -> handle_io (devices t c) io = Err (MmioAddr (io_addr io))).
Proof.
  intros Hs Hb He. destruct (@setup_devices_total CpuError start bs Hs Hb He) as [t Ht]. exists t. split; [done|].
  pose proof (setup_devices_Ok _ _ _ Hs Hb Ht) as Hok. destruct Hok as [Hv Hc Hm Hl1 Hl2 Hend [Ha1 Ha2]] eqn:Eok.
  rewrite (cpu_devices_Ok start bs t Hok), Hm. clear Eok. rewrite Hv, Hc. cbn [d_addr d_len]. split_and!; try done.
  intros c io. rewrite (handle_io_dispatch start bs t c io Hok). rewrite Hv, Hc. cbn [d_addr d_len].
  split_and!; intros; repeat case_if; bool_to_prop; try done; try lia.
  all: match goal with H : (_ && _)%bool = false |- _ => apply andb_false_iff in H as [?|?] end; bool_to_prop; lia.
Qed.

Lemma device_dispatch_witness :
  exists t, @setup_devices CpuError 0x200000000 0x4000 = Ok t
  /\ handle_io (devices t context_new) (Io 0x200008000 (IoWrite [0]) (fun _ => inr 0) (fun _ _ => None))
     = Err (MmioAddr 0x200008000).
Proof.
  destruct (device_dispatch 0x200000000 0x4000) as (t & Ht & _ & _ & _ & _ & _ & _ & Hio); [lia..|vm_compute; done|].
  exists t. split; [done|]. vm_compute in Ht. injection Ht as <-.
  apply (Hio context_new (Io 0x200008000 (IoWrite [0]) (fun _ => inr 0) (fun _ _ => None))); cbn; lia.
Defined.

(** ** Messages *)

Lemma valid_utf8_app l l' : valid_utf8 l = true -> valid_utf8 l' = true -> valid_utf8 (l ++ l') = true.
Proof.
  intros H H'. remember (length l) as n eqn:Hn. revert l Hn H. induction (lt_wf n) as [n _ IH]. intros l -> H.
  destruct l as [|b0 l1]; [done|]. cbn [app valid_utf8] in *. destruct (between 0 0x7F b0).
  { by apply (IH (length l1)); [cbn; lia| |]. }
  destruct l1 as [|b1 l2]; [done|]. cbn [app] in *. destruct (between 0xC2 0xDF b0).
  { apply andb_true_iff in H as [-> H]. by apply (IH (length l2)); [cbn; lia| |]. }
  destruct l2 as [|b2 l3]; [done|]. cbn [app] in *. destruct (between 0xE0 0xEF b0).
  { rewrite !andb_true_iff in *. destruct H as [[-> ->] H]. split; [done|]. by apply (IH (length l3)); [cbn; lia| |]. }
  destruct l3 as [|b3 l4]; [done|]. cbn [app] in *. rewrite !andb_true_iff in *.
  destruct H as [[[[-> ->] ->] ->] H]. split; [done|]. by apply (IH (length l4)); [cbn; lia| |].
Qed.

Lemma valid_utf8_concat ls : Forall (fun l => valid_utf8 l = true) ls -> valid_utf8 (concat ls) = true.
Proof. induction 1; cbn; [done|by apply valid_utf8_app]. Qed.

Section roundtrip.
(** The devices of the machine, the buffer of the writer at the guest address
    [buf_addr], and the guest: [translate] gives the physical address [pa] of
    the buffer, and the RAM there holds what the buffer holds. *)
Context (start bs : Z) (t : DeviceTree) (Htree : tree_ok start bs t).
Context (buf_addr pa : Z) (translate : Z -> string + Z) (ram : list Z -> Z -> Z -> option (list Z)).
Context (Hbuf : 0 <= buf_addr < 2 ^ 64) (Htranslate : translate buf_addr = inr pa).
Context (Hram : forall b n, 0 < n <= BUF_LEN -> ram b pa n = Some (take (Z.to_nat n) b)).

Let con : Z := d_addr (t_console t).

(** The exit that a store of the kernel causes. *)
Definition exit_of (s : store) : CpuIo := Io (s_addr s) (IoWrite (s_data s)) translate (ram (s_buf s)).
Definition turn_of (s : store) : turn := TExit (ExitIo (exit_of s)).

(** The stores bring the console from state [c] to state [c'] without a log. *)
Definition feeds (c : Context) (o : list store) (c' : Context) : Prop :=
  forall rest, run_loop (devices t c) ((turn_of <$> o) ++ rest) = run_loop (devices t c') rest.

Lemma feeds_nil c : feeds c [] c.
Proof. done. Qed.

Lemma feeds_app c1 c2 c3 o o' : feeds c1 o c2 -> feeds c2 o' c3 -> feeds c1 (o ++ o') c3.
Proof. intros H H' rest. by rewrite fmap_app, <- app_assoc, H, H'. Qed.

Lemma handle_console c s c' log :
  con <= s_addr s < con + 24 -> console_mmio (t_console t) c (exit_of s) = Ok (c', log) ->
  handle_io (devices t c) (exit_of s) = Ok (None, devices t c', log).
Proof.
  intros Ha H. rewrite (handle_io_dispatch start bs t c _ Htree). destruct Htree as [Hv Hc _ H1 H2 _ _].
  subst con. rewrite Hc in Ha. cbn in Ha. cbn [exit_of io_addr].
  rewrite (proj2 (Z.ltb_ge _ (start + round_up 1 bs))) by lia. rewrite andb_false_r.
  rewrite (proj2 (Z.leb_le _ _)), (proj2 (Z.ltb_lt _ _)) by lia. cbn [andb]. by rewrite H.
Qed.

Lemma console_off k : 0 <= k -> @usub ExecError (con + k) (d_addr (t_console t)) = Ok k.
Proof. intros Hk. apply usub_Ok. subst con. lia. Qed.

(** A flush appends what the buffer holds to the message. *)
Lemma flush_feeds w m :
  0 <= len w <= BUF_LEN ->
  feeds (Cx None m) (flush con buf_addr w).1 (Cx None (m ++ take (Z.to_nat (len w)) (buf w)))
  /\ (flush con buf_addr w).2 = Wr (buf w) 0.
Proof.
  intros Hl. unfold flush. destruct (Z.eqb_spec (len w) 0) as [He|He].
  { rewrite He, take_0, app_nil_r. split; [apply feeds_nil|]. destruct w; cbn in *; by subst. }
  split; [|done]. intros rest. cbn [fst fmap list_fmap app run_loop turn_of handle_exit].
  rewrite (handle_console _ _ (Cx (Some (len w)) m) None).
  - cbn [mbind outcome_bind].
    rewrite (handle_console _ _ (Cx None (m ++ take (Z.to_nat (len w)) (buf w))) None).
    + cbn [mbind outcome_bind]. by destruct (run_loop _ _) as [[[r ds] logs]| |].
    + cbn. unfold off_msg_addr. lia.
    + unfold console_mmio, exit_of. cbn [io_addr s_addr]. rewrite console_off by done.
      cbn -[le_bytes BUF_LEN]. unfold read_ptr, read_usize. cbn [io_buffer s_data io_translate io_ram s_buf].
      rewrite length_le_bytes. cbn [Nat.eqb mbind outcome_bind].
      rewrite le_value_bytes by (change (256 ^ Z.of_nat 8) with (2 ^ 64); lia). rewrite Htranslate.
      cbn [mbind outcome_bind]. rewrite Hram by lia. done.
  - cbn. unfold off_msg_len. lia.
  - unfold console_mmio, exit_of. cbn [io_addr s_addr]. rewrite console_off by done.
    cbn -[le_bytes BUF_LEN]. unfold read_usize. cbn [io_buffer s_data]. rewrite length_le_bytes.
    cbn [Nat.eqb map_err mbind outcome_bind].
    rewrite le_value_bytes by (change (256 ^ Z.of_nat 8) with (2 ^ 64); unfold BUF_LEN in Hl; lia).
    by rewrite (proj2 (Z.eqb_neq _ _)).
Qed.

(** The writer between two calls: its buffer is not full. *)
Definition writer_ok (w : Writer) : Prop := length (buf w) = 1024%nat /\ 0 <= len w < BUF_LEN.
Definition pending (w : Writer) : list Z := take (Z.to_nat (len w)) (buf w).

(** [o] takes the message from [m] and the writer from [w] to [w'], and
    appends [s] to what they hold together. *)
Definition writes (w : Writer) (s : list Z) (o : list store) (w' : Writer) : Prop :=
  writer_ok w' /\ forall m, exists m', feeds (Cx None m) o (Cx None m') /\ m' ++ pending w' = m ++ pending w ++ s.

Lemma write_loop_writes fuel w s :
  writer_ok w -> (length s < fuel)%nat ->
  writes w s (write_loop con buf_addr fuel w s).1 (write_loop con buf_addr fuel w s).2.
Proof.
  revert w s. induction fuel as [|fuel IH]; intros w s [Hb Hl] Hf; [lia|]. cbn [write_loop].
  destruct s as [|c s].
  { split; [done|]. intros m. exists m. rewrite app_nil_r. split; [apply feeds_nil|done]. }
  set (s0 := c :: s) in *. assert (length s0 <> 0%nat) as Hs0 by done. clearbody s0. unfold BUF_LEN in *.
  set (n := Z.to_nat (Z.min (Z.of_nat (length s0)) (1024 - len w))).
  set (w1 := Wr (take (Z.to_nat (len w)) (buf w) ++ take n s0 ++ drop (Z.to_nat (len w) + n) (buf w)) (len w + Z.of_nat n)).
  assert (0 < n)%nat as Hn by lia. assert (n <= length s0)%nat as Hns by lia.
  assert (length (buf w1) = 1024%nat) as Hb1.
  { cbn. rewrite !length_app, !length_take, length_drop. lia. }
  assert (pending w1 = pending w ++ take n s0) as Hp1.
  { unfold pending. cbn. rewrite Z2Nat.inj_add, Nat2Z.id by lia.
    rewrite app_assoc, take_app_le by (rewrite length_app, !length_take; lia).
    apply take_ge. rewrite length_app, !length_take. lia. }
  cbn [len]. fold w1. destruct (Z.eqb_spec (len w1) 1024) as [Hfull|Hfull]; cbn in Hfull.
  - destruct (flush con buf_addr w1) as [o w2] eqn:Ef.
    assert (w2 = Wr (buf w1) 0 /\ forall m, feeds (Cx None m) o (Cx None (m ++ pending w1))) as [-> Hfe].
    { assert (0 <= len w1 <= BUF_LEN) as Hlw by (cbn; unfold BUF_LEN; lia).
      split; [by destruct (flush_feeds w1 [] Hlw) as [_ H]; rewrite Ef in H|].
      intros m. destruct (flush_feeds w1 m Hlw) as [H _]. by rewrite Ef in H. }
    destruct (IH (Wr (buf w1) 0) (drop n s0)) as [Hok2 Hw2]; [split; [exact Hb1|cbn; unfold BUF_LEN; lia]|rewrite length_drop; lia|].
    destruct (write_loop con buf_addr fuel (Wr (buf w1) 0) (drop n s0)) as [o' w'].
    split; [done|]. intros m. destruct (Hw2 (m ++ pending w1)) as (m' & Hf' & He). exists m'.
    split; [by eapply feeds_app|]. cbn [snd] in *. rewrite He, Hp1.
    change (pending (Wr (buf w1) 0)) with (@nil Z). cbn [app]. rewrite <- !app_assoc. by rewrite take_drop.
  - destruct (IH w1 (drop n s0)) as [Hok2 Hw2]; [split; [done|cbn; unfold BUF_LEN; lia]|rewrite length_drop; lia|].
    destruct (write_loop con buf_addr fuel w1 (drop n s0)) as [o' w'].
    split; [done|]. intros m. destruct (Hw2 m) as (m' & Hf' & He). exists m'. split; [done|].
    cbn [snd] in *. rewrite He, Hp1, <- !app_assoc. by rewrite take_drop.
Qed.

Lemma write_all_writes frags w :
  writer_ok w -> writes w (concat frags) (write_all con buf_addr w frags).1 (write_all con buf_addr w frags).2.
Proof.
  revert w. induction frags as [|s frags IH]; intros w Hw; cbn [write_all concat].
  { split; [done|]. intros m. exists m. rewrite app_nil_r. split; [apply feeds_nil|done]. }
  unfold write_str. destruct (write_loop_writes (S (length s)) w s Hw ltac:(lia)) as [Hw1 H1].
  destruct (write_loop con buf_addr (S (length s)) w s) as [o w1]. cbn [fst snd] in *.
  destruct (IH w1 Hw1) as [Hw2 H2]. destruct (write_all con buf_addr w1 frags) as [o' w2]. cbn [fst snd] in *.
  split; [done|]. intros m. destruct (H1 m) as (m1 & Hf1 & He1). destruct (H2 m1) as (m2 & Hf2 & He2).
  exists m2. split; [by eapply feeds_app|]. rewrite He2, app_assoc, He1. by rewrite <- !app_assoc.
Qed.

Lemma ConsoleType_roundtrip ty : ConsoleType_try_from (ConsoleType_into ty) = Some ty.
Proof. by destruct ty. Qed.

(** The commit sends the message and leaves an empty one. *)
Lemma commit_sends ty m b :
  m <> [] -> valid_utf8 m = true ->
  run_loop (devices t (Cx None m)) [turn_of (Store (con + off_commit) [ConsoleType_into ty] b)]
  = Ok (None, devices t context_new, [(ty, m)]).
Proof.
  intros Hm Hu. cbn [run_loop turn_of handle_exit]. rewrite (handle_console _ _ context_new (Some (ty, m))); [done| |].
  - cbn. unfold off_commit. lia.
  - unfold console_mmio, exit_of. cbn [io_addr s_addr]. rewrite console_off by done.
    cbn -[ConsoleType_try_from ConsoleType_into valid_utf8]. rewrite bool_decide_eq_false_2 by done.
    cbn -[ConsoleType_try_from ConsoleType_into valid_utf8]. by rewrite ConsoleType_roundtrip; cbn; rewrite Hu.
Qed.

Lemma print_delivers ty (frags : list str) :
  Forall (fun l => valid_utf8 l = true) frags ->
  run_loop (devices t context_new) (turn_of <$> print con buf_addr ty frags)
  = Ok (None, devices t context_new, [(ty, concat frags ++ [LF])]).
Proof.
  intros Hu. unfold print. destruct (write_all_writes (frags ++ [[LF]]) writer_new) as [[Hb Hl] Hw].
  { split; [apply length_replicate|unfold BUF_LEN; cbn; lia]. }
  destruct (write_all con buf_addr writer_new (frags ++ [[LF]])) as [o w]. cbn [fst snd] in *.
  destruct (Hw []) as (m & Hf & He). change (pending writer_new) with (@nil Z) in He. cbn [app] in He.
  destruct (flush_feeds w m ltac:(lia)) as [Hf' _]. destruct (flush con buf_addr w) as [o' w']. cbn [fst] in Hf'.
  rewrite !fmap_app, Hf. cbn [fmap list_fmap]. rewrite Hf'. unfold pending in He. rewrite He, concat_app.
  change (concat [[LF]]) with [LF]. apply commit_sends; [by intros [_ [=]]%app_nil|].
  apply valid_utf8_app; [by apply valid_utf8_concat|done].
Qed.

(** The panic of the kernel ends the virtual CPU with a failure. *)
Lemma panic_delivers c : run_loop (devices t c) [turn_of (panic (d_addr (t_vmm t)))] = Ok (Some false, devices t c, []).
Proof.
  cbn [run_loop turn_of handle_exit]. rewrite (handle_io_dispatch start bs t c _ Htree).
  destruct Htree as [Hv _ _ H1 _ _ _]. cbn [exit_of io_addr panic s_addr]. rewrite Hv. cbn [d_addr d_len].
  unfold off_shutdown. rewrite Z.add_0_r, Z.leb_refl, (proj2 (Z.ltb_lt _ _)) by lia. cbn [andb].
  unfold vmm_mmio. cbn [exit_of io_addr s_addr panic d_addr d_name]. rewrite (proj2 (usub_Ok _ _ 0)) by (unfold off_shutdown; lia).
  done.
Qed.

End roundtrip.

(** C13: a message crosses from the kernel to the host unchanged.  Whatever
    sequence of strings the kernel formats, and however often its buffer of
    1 KiB fills up on the way, the exits that [print] causes are all accepted
    by the console of the host, which sends exactly one log: the console the
    kernel chose, with the strings one after the other and a line feed.  The
    console is then ready for the next message.  A panic of the kernel ends
    the virtual CPU with a failure. *)
Theorem console_roundtrip start bs buf_addr pa translate ram ty (frags : list str) :
  0 <= start -> 0 < bs -> start + round_up 1 bs + round_up 24 bs < 2 ^ 64 -> 0 <= buf_addr < 2 ^ 64 ->
  translate buf_addr = inr pa ->
  (forall b n, 0 < n <= BUF_LEN -> ram b pa n = Some (take (Z.to_nat n) b)) ->
  Forall (fun l => valid_utf8 l = true) frags ->
  exists t ds, @setup_devices CpuError start bs = Ok t /\ @cpu_devices CpuError t = Ok ds
  /\ run_cpu t (turn_of translate ram <$> print (d_addr (t_console t)) buf_addr ty frags)
     = Ok (None, ds, [(ty, concat frags ++ [LF])])
  /\ run_cpu t [turn_of translate ram (panic (d_addr (t_vmm t)))] = Ok (Some false, ds, []).
Proof.
  intros Hs Hb He Hbuf Ht Hr Hu. destruct (@setup_devices_total CpuError start bs) as [t Htr]; [done..|].
  exists t, (devices t context_new). split; [done|]. apply setup_devices_Ok in Htr; [|done..].
  assert (@cpu_devices CpuError t = Ok (devices t context_new)) as Hd by by apply (cpu_devices_Ok start bs).
  split; [done|]. unfold run_cpu. rewrite Hd. cbn [mbind outcome_bind].
  split; [by apply (print_delivers start bs t Htr buf_addr pa)|by apply (panic_delivers start bs)].
Qed.

Lemma console_roundtrip_witness :
  exists t ds, @setup_devices CpuError 0x200000000 0x4000 = Ok t /\ @cpu_devices CpuError t = Ok ds
  /\ run_cpu t
       (turn_of (fun va => inr va) (fun b pa n => if pa =? 0x7000 then Some (take (Z.to_nat n) b) else None)
        <$> print (d_addr (t_console t)) 0x7000 Warn [bytes_of "boot"; replicate 1500 33])
     = Ok (None, ds, [(Warn, concat [bytes_of "boot"; replicate 1500 33] ++ [LF])])
  /\ run_cpu t
       [turn_of (fun va => inr va) (fun b pa n => if pa =? 0x7000 then Some (take (Z.to_nat n) b) else None)
         (panic (d_addr (t_vmm t)))]
     = Ok (Some false, ds, []).
Proof.
  apply (console_roundtrip 0x200000000 0x4000 0x7000 0x7000); [lia|lia|vm_compute; done|lia|done|done|].
  repeat constructor.
Defined.

(** ** Formatting *)

Fixpoint join (sep : str) (ls : list str) : str :=
  match ls with [] => [] | l :: ls => match ls with [] => l | _ => l ++ sep ++ join sep ls end end.

Lemma concat_msg_write_str s : concat (msg_write_str s) = join indent (lines s).
Proof.
  unfold msg_write_str. destruct (lines s) as [|l ls]; [done|]. revert l.
  induction ls as [|l' ls IH]; intros l; [cbn; by rewrite app_nil_r|].
  change (join indent (l :: l' :: ls)) with (l ++ indent ++ join indent (l' :: ls)). by rewrite <- IH.
Qed.

(** How the message of a log is indented.  Each string that the formatter
    passes on is written as its lines with a line feed and five spaces between
    them; a line feed that ends a string has no effect, so a message whose
    format string has a line feed on its own between two arguments loses it. *)
Theorem log_message_lines style style_reset info info_reset cat file line (pre post : list str) :
  concat (log_fmt style style_reset info info_reset cat file line pre)
  = style ++ bytes_of "[" ++ cat ++ bytes_of "]:" ++ style_reset ++ bytes_of " "
    ++ concat ((fun s => join indent (lines s)) <$> pre) ++ [LF]
    ++ bytes_of "     " ++ info ++ file ++ bytes_of ":" ++ line ++ info_reset
  /\ concat (log_fmt style style_reset info info_reset cat file line (pre ++ [[LF]] ++ post))
     = concat (log_fmt style style_reset info info_reset cat file line (pre ++ post)).
Proof.
  assert (forall msg, concat (log_fmt style style_reset info info_reset cat file line msg)
    = style ++ bytes_of "[" ++ cat ++ bytes_of "]:" ++ style_reset ++ bytes_of " "
      ++ concat ((fun s => join indent (lines s)) <$> msg) ++ [LF]
      ++ bytes_of "     " ++ info ++ file ++ bytes_of ":" ++ line ++ info_reset) as H.
  { intros msg. unfold log_fmt. rewrite !concat_app. cbn [concat]. rewrite !app_nil_r, <- !app_assoc.
    do 6 f_equal. f_equal. induction msg as [|s msg IH]; [done|]. cbn [mbind list_bind fmap list_fmap concat].
    by rewrite concat_app, concat_msg_write_str, IH. }
  split; [apply H|]. rewrite !H, !fmap_app, !concat_app. done.
Qed.

End ConsoleProps.
