(* ===== verification/Kernel.v ===== *)
(** * The kernel image

    Models [gui/src/vmm/kernel]: the header of the ELF file of the kernel, its
    program headers and its notes, and the note that the kernel is built with
    ([kernel/src/imgfmt/elf], [macros/src/elf.rs]).  A read fails only at the
    end of the file; what the system answers to a seek is part of the file. *)
From S2P Require Import Prelude Ram Env.

Module Kernel.
Import Ram Env.
Local Open Scope string_scope.
Local Open Scope list_scope.
Local Open Scope Z_scope.

(** ** Files *)

Inductive IoError := UnexpectedEof | WriteZero | Os (code : Z).

(** An open file: its content, and what a seek to an offset returns. *)
Record File := Fl { content : list Z; seek : Z -> IoError + Z }.

(** [Read::read_exact] of [n] bytes at the position [pos]. *)
Definition read_exact (f : File) (pos n : Z) : outcome IoError (list Z) :=
  if pos + n <=? Z.of_nat (length (content f)) then Ok (slice (content f) pos n) else Err UnexpectedEof.

(** [File::seek] and the check of its result. *)
Definition seek_to (f : File) (off : Z) : outcome IoError unit :=
  match seek f off with
  | inl e => Err e
  | inr o => fail_if (negb (o =? off)) UnexpectedEof
  end.

(** ** ELF header ([kernel/mod.rs]) *)

Inductive KernelError :=
  | OpenImageFailed (e : IoError)
  | ReadElfHeaderFailed (e : IoError)
  | NotElf
  | UnknownElfVersion (v : Z)
  | Not64
  | DifferentArch
  | UnsupportedProgramHeader.

Record t := Kern { file : File; e_entry : Z; e_phoff : Z; e_phnum : Z }.

(** The value on x86-64. *)
Definition ELF_MACHINE : Z := 62.

Definition elf_magic : list Z := [127; 69; 76; 70].

(** [Kernel::open]; [f] is the result of [File::open]. *)
Definition open (f : IoError + File) : outcome KernelError t :=
  f ← match f with inl e => Err (OpenImageFailed e) | inr f => Ok f end;
  hdr ← map_err ReadElfHeaderFailed (read_exact f 0 64);
  fail_if (negb (bool_decide (slice hdr 0 4 = elf_magic))) NotElf;;
  fail_if (negb (field hdr 4 1 =? 2)) Not64;;
  fail_if (negb (field hdr 6 1 =? 1)) (UnknownElfVersion (field hdr 6 1));;
  fail_if (negb (field hdr 18 2 =? ELF_MACHINE)) DifferentArch;;
  fail_if (negb (field hdr 54 2 =? 56)) UnsupportedProgramHeader;;
  Ok (Kern f (field hdr 24 8) (field hdr 32 8) (field hdr 56 2)).

Definition entry (k : t) : Z := e_entry k.

(** ** Program headers ([kernel/segment.rs]) *)

Definition PT_LOAD : Z := 1.
Definition PT_DYNAMIC : Z := 2.
Definition PT_NOTE : Z := 4.
Definition PT_PHDR : Z := 6.
Definition PT_GNU_EH_FRAME : Z := 0x6474e550.
Definition PT_GNU_STACK : Z := 0x6474e551.
Definition PT_GNU_RELRO : Z := 0x6474e552.

Record ProgramHeader := Phdr {
  p_type : Z;
  p_offset : Z;
  p_vaddr : Z;
  p_filesz : Z;
  p_memsz : Z
}.

Inductive ProgramHeaderError := ReadFailed (off : Z) (e : IoError).

(** [ProgramHeaders], with the position of the file. *)
Record ProgramHeaders := Phdrs { ph_pos : Z; ph_start : Z; ph_count : Z; ph_parsed : Z }.

Definition parse_header (data : list Z) : ProgramHeader :=
  Phdr (field data 0 4) (field data 8 8) (field data 16 8) (field data 32 8) (field data 40 8).

Definition ph_next (f : File) (it : ProgramHeaders)
    : option (outcome ProgramHeaderError (ProgramHeader * ProgramHeaders)) :=
  if ph_parsed it =? ph_count it then None
  else Some
    match read_exact f (ph_pos it) 56 with
    | Ok data =>
        Ok (parse_header data, Phdrs (ph_pos it + 56) (ph_start it) (ph_count it) (ph_parsed it + 1))
    | Err e =>
        m ← umul (ph_parsed it) 56;
        o ← uadd (ph_start it) m;
        Err (ReadFailed o e)
    | Panic p => Panic p
    end.

Definition program_headers (k : t) : outcome IoError ProgramHeaders :=
  seek_to (file k) (e_phoff k);;
  Ok (Phdrs (e_phoff k) (e_phoff k) (e_phnum k) 0).

(** [segment_data], read to its end. *)
Definition segment_data (k : t) (hdr : ProgramHeader) : outcome IoError (list Z) :=
  seek_to (file k) (p_offset hdr);;
  Ok (slice (content (file k)) (p_offset hdr)
        (Z.min (p_filesz hdr) (Z.of_nat (length (content (file k)))))).

(** ** Notes ([kernel/note.rs]) *)

Record Note := Nt { n_name : list Z; n_desc : list Z; n_ty : Z }.

Inductive NoteError := InvalidHeader | InvalidName.

(** The index of the first zero. *)
Definition position0 (l : list Z) : option nat := fst <$> list_find (fun b => b = 0) l.

(** The bytes after a field of length [n] that is padded to four bytes. *)
Definition skip_padding (n : Z) (data : list Z) : list Z := drop (Z.to_nat (round_up n 4 - n)) data.

(** The name and the description of a note, after its header. *)
Definition note_desc (name : list Z) (ty dlen : Z) (data : list Z) : outcome NoteError Note * list Z :=
  if Z.of_nat (length data) <? dlen then (Err InvalidHeader, data)
  else (Ok (Nt name (take (Z.to_nat dlen) data) ty), skip_padding dlen (drop (Z.to_nat dlen) data)).

Definition note_body (nlen dlen ty : Z) (data : list Z) : outcome NoteError Note * list Z :=
  if nlen =? 0 then (Err InvalidName, data)
  else if Z.of_nat (length data) <? nlen then (Err InvalidHeader, data)
  else
    let name := take (Z.to_nat nlen) data in
    let data := drop (Z.to_nat nlen) data in
    if bool_decide (position0 name = Some (Z.to_nat nlen - 1)%nat)
    then note_desc (take (Z.to_nat nlen - 1) name) ty dlen (skip_padding nlen data)
    else (Err InvalidName, data).

(** [Notes::next]: the item, and what is left. *)
Definition notes_next (data : list Z) : option (outcome NoteError Note * list Z) :=
  if bool_decide (data = []) then None
  else if (length data <? 12)%nat then Some (Err InvalidHeader, data)
  else Some (note_body (field data 0 4) (field data 4 4) (field data 8 4) (drop 12 data)).

(** [Kernel::notes]. *)
Definition notes (k : t) (hdr : ProgramHeader) : outcome IoError (list Z) := segment_data k hdr.

(** ** The notes of the kernel *)

Definition padding (n : nat) : list Z := replicate (Z.to_nat (round_up (Z.of_nat n) 4) - n) 0.

(** [imgfmt::elf::Note] as it lies in the image.  [Note::new] is passed the
    name with a final zero by the macro. *)
Definition note_new (name : list Z) (ty : Z) (desc : list Z) : list Z :=
  le_bytes 4 (Z.of_nat (length name)) ++ le_bytes 4 (Z.of_nat (length desc)) ++ le_bytes 4 ty
  ++ name ++ padding (length name) ++ desc ++ padding (length desc).

(** What [transform_note] generates for a name. *)
Definition elf_note (name : str) (ty : Z) (desc : list Z) : list Z := note_new (name ++ [0]) ty desc.

Definition obkrnl : str := bytes_of "obkrnl".

(** [NOTE_PAGE_SIZE] of a kernel with pages of [page_size] bytes. *)
Definition NOTE_PAGE_SIZE (page_size : Z) : list Z := elf_note obkrnl 0 (le_bytes 8 page_size).

End Kernel.
