(* ===== verification/Loader.v ===== *)
(** * Loading the kernel into a virtual machine

    Models [Vmm::new] and [Vmm::relocate_kernel] of [gui/src/vmm/mod.rs]: the
    program headers and notes of the kernel are checked, the kernel is copied
    to the RAM of the virtual machine behind the boot memory and before the
    kernel map, the boot environment, the configuration and the stack, page
    tables are built, and the kernel is relocated to its virtual address.

    The hypervisor is used through its RAM.  The content of the memory of the
    kernel is a list of bytes; what is stored in the other regions is kept as
    a value.  The guards that [Vmm::new] drops are dropped where it does. *)
From S2P Require Import Prelude BTree Ram RamBuilder Env Console Kernel.
From stdpp Require Import sorting.

Module Loader.
Import Ram RamBuilder Env Console Kernel.
Local Open Scope list_scope.
Local Open Scope Z_scope.

Inductive VmmError :=
  | OpenKernel (e : KernelError)
  | EnumerateProgramHeaders (e : IoError)
  | ReadProgramHeader (i : Z) (e : ProgramHeaderError)
  | InvalidFilesz (i : Z)
  | MultipleDynamic
  | MultipleNote
  | UnknownProgramHeaderType (v i : Z)
  | ElfHeaderNotInFirstLoadSegment
  | NoLoadSegment
  | NoDynamicSegment
  | NoNoteSegment
  | NoteSegmentTooLarge
  | SeekToNote (e : IoError)
  | ReadKernelNote (i : Z) (e : NoteError)
  | InvalidNoteDescription (i : Z)
  | DuplicateKernelNote (i : Z)
  | UnknownKernelNoteType (v i : Z)
  | NoPageSizeInKernelNote
  | OverlappedLoadSegment (addr : Z)
  | InvalidPmemsz (addr : Z)
  | ZeroLengthLoadSegment
  | SetupHypervisor (e : HvError + Z)
  | SetProcessorInfo (e : Z)
  | AllocBootMem (e : RamError)
  | AllocKernel (e : RamError)
  | SeekToOffset (off : Z) (e : IoError)
  | IncompleteKernel
  | ReadKernel (e : IoError) (off : Z)
  | AllocKernelMap (e : RamError)
  | AllocBootEnv (e : RamError)
  | AllocKernelConfig (e : RamError)
  | AllocStack (e : RamError)
  | BuildPageTable (e : RamBuilderError)
  | InvalidDynamicLinking.

(** ** Program headers *)

(** [segments], [dynamic] and [note]. *)
Record headers := Hdrs { segments : list ProgramHeader; dynamic : option ProgramHeader; note : option ProgramHeader }.

(** The [match] on the type of header number [index]. *)
Definition add_header (hs : headers) (index : Z) (hdr : ProgramHeader) : outcome VmmError headers :=
  let ty := p_type hdr in
  if ty =? PT_LOAD then
    fail_if (p_memsz hdr <? p_filesz hdr) (InvalidFilesz index);;
    Ok (Hdrs (segments hs ++ [hdr]) (dynamic hs) (note hs))
  else if ty =? PT_DYNAMIC then
    fail_if (bool_decide (is_Some (dynamic hs))) MultipleDynamic;;
    Ok (Hdrs (segments hs) (Some hdr) (note hs))
  else if ty =? PT_NOTE then
    fail_if (bool_decide (is_Some (note hs))) MultipleNote;;
    Ok (Hdrs (segments hs) (dynamic hs) (Some hdr))
  else if (ty =? PT_PHDR) || (ty =? PT_GNU_EH_FRAME) || (ty =? PT_GNU_STACK) || (ty =? PT_GNU_RELRO)
  then Ok hs
  else Err (UnknownProgramHeaderType ty index).

Fixpoint header_loop (fuel : nat) (f : File) (index : Z) (it : ProgramHeaders) (hs : headers)
    : outcome VmmError headers :=
  match fuel with
  | O => Panic PUnreachable
  | S fuel =>
      match ph_next f it with
      | None => Ok hs
      | Some item =>
          '(hdr, it) ← map_err (ReadProgramHeader index) item;
          hs ← add_header hs index hdr;
          header_loop fuel f (index + 1) it hs
      end
  end.

(** [sort_unstable_by_key] on [p_vaddr]; the order of headers with the same
    address is not specified and that of the file is kept here. *)
Definition vaddr_le (h1 h2 : ProgramHeader) : Prop := p_vaddr h1 <= p_vaddr h2.
#[export] Instance vaddr_le_dec : RelDecision vaddr_le.
Proof. intros h1 h2. apply Z_le_dec. Defined.

(** The headers: sorted segments, [PT_DYNAMIC] and [PT_NOTE]. *)
Definition parse_headers (img : Kernel.t)
    : outcome VmmError (list ProgramHeader * ProgramHeader * ProgramHeader) :=
  it ← map_err EnumerateProgramHeaders (program_headers img);
  hs ← header_loop (S (Z.to_nat (e_phnum img))) (file img) 0 it (Hdrs [] None None);
  let segs := merge_sort vaddr_le (segments hs) in
  first ← ok_or NoLoadSegment (head segs);
  fail_if (negb (p_offset first =? 0)) ElfHeaderNotInFirstLoadSegment;;
  dyn ← ok_or NoDynamicSegment (dynamic hs);
  nt ← ok_or NoNoteSegment (note hs);
  Ok (segs, dyn, nt).

(** ** Notes *)

(** The page size in the description of a note. *)
Definition note_page_size (desc : list Z) : option Z :=
  if (length desc =? 8)%nat && negb (le_value desc =? 0) && is_power_of_two (le_value desc)
  then Some (le_value desc) else None.

Fixpoint note_loop (fuel : nat) (i : Z) (vm_page_size : option Z) (data : list Z)
    : outcome VmmError (option Z) :=
  match fuel with
  | O => Panic PUnreachable
  | S fuel =>
      match notes_next data with
      | None => Ok vm_page_size
      | Some (item, data) =>
          note ← map_err (ReadKernelNote i) item;
          if negb (bool_decide (n_name note = obkrnl)) then note_loop fuel (i + 1) vm_page_size data
          else if n_ty note =? 0 then
            fail_if (bool_decide (is_Some vm_page_size)) (DuplicateKernelNote i);;
            v ← ok_or (InvalidNoteDescription i) (note_page_size (n_desc note));
            note_loop fuel (i + 1) (Some v) data
          else Err (UnknownKernelNoteType (n_ty note) i)
      end
  end.

Definition parse_notes (img : Kernel.t) (note : ProgramHeader) : outcome VmmError Z :=
  fail_if (1024 * 1024 <? p_filesz note) NoteSegmentTooLarge;;
  data ← map_err SeekToNote (notes img note);
  vm_page_size ← note_loop (S (length data)) 0 None data;
  ok_or NoPageSizeInKernelNote vm_page_size.

(** ** Size of the kernel *)

Fixpoint segments_end (kern_len : Z) (segs : list ProgramHeader) : outcome VmmError Z :=
  match segs with
  | [] => Ok kern_len
  | hdr :: segs =>
      fail_if (p_vaddr hdr <? kern_len) (OverlappedLoadSegment (p_vaddr hdr));;
      kern_len ← ok_or (InvalidPmemsz (p_vaddr hdr)) (checked_add (p_vaddr hdr) (p_memsz hdr));
      segments_end kern_len segs
  end.

Definition kernel_len (segs : list ProgramHeader) : outcome VmmError Z :=
  n ← segments_end 0 segs;
  fail_if (n =? 0) ZeroLengthLoadSegment;;
  Ok n.

(** ** Copying the segments *)

(** [LockedMem::writer] with a length: the offset and the number of bytes
    that can be written. *)
Definition writer (g : LockedMem) (off n : Z) : option (Z * Z) :=
  e ← checked_add off n;
  if e <=? lm_len g then Some (off, e - off) else None.

(** [io::copy] to a writer: a write of no bytes to a full writer is an error. *)
Definition copy (src mem : list Z) (w : Z * Z) : outcome IoError (list Z) :=
  if Z.of_nat (length src) <=? w.2 then Ok (overwrite mem w.1 src) else Err WriteZero.

Fixpoint load_segments (img : Kernel.t) (g : LockedMem) (mem : list Z) (segs : list ProgramHeader)
    : outcome VmmError (list Z) :=
  match segs with
  | [] => Ok mem
  | hdr :: segs =>
      src ← map_err (SeekToOffset (p_offset hdr)) (segment_data img hdr);
      dst ← unwrap_or_panic PUnwrap (writer g (p_vaddr hdr) (p_memsz hdr));
      mem ← map_err (fun e => ReadKernel e (p_offset hdr)) (copy src mem dst);
      fail_if (negb (Z.of_nat (length src) =? p_filesz hdr)) IncompleteKernel;;
      load_segments img g mem segs
  end.

(** ** Relocation *)

Definition RELOCATE_TYPE : Z := 8.

(** The tags of [PT_DYNAMIC] up to [DT_NULL]: [DT_RELA] and [DT_RELASZ]. *)
Fixpoint parse_dynamic (fuel : nat) (dyn : list Z) (rela relasz : option Z) : option Z * option Z :=
  match fuel with
  | O => (rela, relasz)
  | S fuel =>
      if (length dyn <? 16)%nat then (rela, relasz)
      else
        let tag := field dyn 0 8 in
        let val := field dyn 8 8 in
        let dyn := drop 16 dyn in
        if tag =? 0 then (rela, relasz)
        else if tag =? 7 then parse_dynamic fuel dyn (Some val) relasz
        else if tag =? 8 then parse_dynamic fuel dyn rela (Some val)
        else parse_dynamic fuel dyn rela relasz
  end.

(** [isize::from_ne_bytes] of the bits of an unsigned value. *)
Definition to_isize (v : Z) : Z := if v <? 2 ^ 63 then v else v - 2 ^ 64.

(** One relocation; [None] if it ends the loop. *)
Definition relocate (base : Z) (kern data : list Z) : outcome VmmError (option (list Z)) :=
  let r_offset := field data 0 8 in
  let r_info := field data 8 8 in
  let r_addend := to_isize (field data 16 8) in
  let ty := Z.land r_info 0xffffffff in
  if ty =? 0 then Ok None
  else if ty =? RELOCATE_TYPE then
    e ← ok_or InvalidDynamicLinking (checked_add r_offset 8);
    _ ← ok_or InvalidDynamicLinking (get_range kern r_offset e);
    Ok (Some (overwrite kern r_offset (le_bytes 8 (u64_wrap (base + r_addend)))))
  else Ok (Some kern).

(** The loop over the relocations from offset [v] of the table on. *)
Fixpoint relocate_loop (fuel : nat) (base relocs n v : Z) (kern : list Z) : outcome VmmError (list Z) :=
  if n <=? v then Ok kern
  else match fuel with
  | O => Panic PUnreachable
  | S fuel =>
      off ← uadd relocs v;
      e ← uadd off 24;
      data ← ok_or InvalidDynamicLinking (get_range kern off e);
      r ← relocate base kern data;
      match r with
      | None => Ok kern
      | Some kern => relocate_loop fuel base relocs n (v + 24) kern
      end
  end.

(** [relocate_kernel] on the bytes of the kernel. *)
Definition relocate_kernel (base : Z) (dyn : ProgramHeader) (kern : list Z) : outcome VmmError (list Z) :=
  fail_if (negb (p_memsz dyn mod 16 =? 0)) InvalidDynamicLinking;;
  d ← ok_or InvalidDynamicLinking
        (e ← checked_add (p_vaddr dyn) (p_memsz dyn); get_range kern (p_vaddr dyn) e);
  match parse_dynamic (length d) d None None with
  | (None, None) => Ok kern
  | (Some relocs, Some n) =>
      fail_if (negb (n mod 24 =? 0)) InvalidDynamicLinking;;
      relocate_loop (S (length kern)) base relocs n 0 kern
  | _ => Err InvalidDynamicLinking
  end.

(** ** The virtual machine *)

(** What the system and the profile contribute: the services of the host, the
    result of the setup of the hypervisor after its RAM was created, and of
    the change of the processor information. *)
Inductive CpuModel := CpuHost | CpuPro | CpuProWithHost.

Record machine := Machine {
  m_host : host;
  m_hv : Z + unit;
  m_set_cpuid : Z + unit;
  m_cpu_model : CpuModel
}.

(** Sizes of [KernelMap], [BootEnv] and [Config]. *)
Definition size_KernelMap : Z := 16.
Definition size_BootEnv : Z := 1696.
Definition size_Config : Z := 132144.

(** [8 GiB], the size of the RAM. *)
Definition ram_size : Z := 1024 * 1024 * 1024 * 8.

Definition kern_vaddr0 : Z := 0xffffffff82200000.

(** [hv::new]: the RAM, then the hypervisor. *)
Definition hv_new (m : machine) (vm_page_size : Z) : outcome VmmError Ram.t :=
  r ← map_err (fun e => SetupHypervisor (inl e)) (Ram.new (m_host m) vm_page_size ram_size);
  match m_hv m with inl e => Err (SetupHypervisor (inr e)) | inr _ => Ok r end.

(** The choice of the processor. *)
Definition setup_cpu_model (m : machine) : outcome VmmError unit :=
  match m_cpu_model m with
  | CpuHost => Ok tt
  | CpuPro => match m_set_cpuid m with inl e => Err (SetProcessorInfo e) | inr _ => Ok tt end
  | CpuProWithHost => Panic PTodo
  end.

(** The drop of a guard while the builder is in use. *)
Definition drop_in (b : RamBuilder.t) (g : LockedMem) : RamBuilder.t :=
  RamBuilder.Mk (drop_guard (hv_ram b) g) (RamBuilder.next b) (allocs b).

(** The next free virtual address behind [n] bytes at [va]. *)
Definition next_vaddr {E} (va n page_size : Z) : outcome E Z :=
  unwrap_or_panic PUnwrap (v ← checked_add va n; checked_next_multiple_of v page_size).

(** [LockedMem::put] at offset 0 of a value of [size] bytes, which must
    succeed; the start of the memory is aligned to pages. *)
Definition put_ok {E} (g : LockedMem) (size : Z) : outcome E unit :=
  assert_that (size <=? lm_len g).

(** [PhysMap], and the types of entries. *)
Inductive MapType := MNone | MRam | MReserved.
Record PhysMap := PMap { pm_base : Z; pm_len : Z; pm_ty : MapType }.

(** The boot environment, without the name of the hypervisor. *)
Record BootVm := Vm {
  vm_vmm : Z;
  vm_console : Z;
  vm_host_page_size : Z;
  memory_map : list PhysMap
}.

Record KernelMap := KMap { km_vaddr : Z; km_vsize : Z }.

Record RamMap := RMap {
  page_table : Z;
  kern_paddr : Z;
  kern_vaddr : Z;
  kern_len : Z;
  stack_vaddr : Z;
  stack_len : Z;
  map_vaddr : Z;
  env_vaddr : Z;
  conf_vaddr : Z
}.

(** The regions of the memory of the kernel and their guards, before the
    page tables are built. *)
Record layout := Layout {
  l_builder : RamBuilder.t;
  l_boot_len : Z;
  l_kern_paddr : Z;
  l_kern : list Z;
  l_map : Z * LockedMem;
  l_env : Z * LockedMem;
  l_conf : Z;
  l_stack : Z * Z;
  l_end : Z
}.

(** From the creation of [RamBuilder] to the allocation of the stack. *)
Definition build_layout (m : machine) (img : Kernel.t) (segs : list ProgramHeader) (kern_len page_size : Z)
    (r : Ram.t) : outcome VmmError layout :=
  let h := m_host m in
  let bs := block_size r in
  boot_len ← next_multiple_of 0xA0000 bs;
  b ← map_err AllocBootMem (RamBuilder.new r 0);
  '(_, g, b) ← map_err AllocBootMem (RamBuilder.alloc h b None boot_len);
  let b := drop_in b g in
  (* Kernel. *)
  '(kern_paddr, g, b) ← map_err AllocKernel (RamBuilder.alloc h b (Some kern_vaddr0) kern_len);
  assert_that (kern_paddr =? boot_len);;
  kern ← load_segments img g (replicate (Z.to_nat (lm_len g)) 0) segs;
  let b := drop_in b g in
  va ← next_vaddr kern_vaddr0 kern_len page_size;
  (* Kernel map. *)
  '(_, map, b) ← map_err AllocKernelMap (RamBuilder.alloc h b (Some va) size_KernelMap);
  let map_vaddr := va in
  va ← next_vaddr va size_KernelMap page_size;
  (* Boot environment. *)
  '(_, env, b) ← map_err AllocBootEnv (RamBuilder.alloc h b (Some va) size_BootEnv);
  let env_vaddr := va in
  va ← next_vaddr va size_BootEnv page_size;
  (* Kernel config. *)
  '(_, g, b) ← map_err AllocKernelConfig (RamBuilder.alloc h b (Some va) size_Config);
  let conf_vaddr := va in
  put_ok g size_Config;;
  let b := drop_in b g in
  va ← next_vaddr va size_Config page_size;
  (* Stack. *)
  stack_len ← next_multiple_of (1024 * 1024) bs;
  '(_, g, b) ← map_err AllocStack (RamBuilder.alloc h b (Some va) stack_len);
  let stack_vaddr := va in
  let b := drop_in b g in
  va ← next_vaddr va stack_len page_size;
  Ok (Layout b boot_len kern_paddr kern (map_vaddr, map) (env_vaddr, env) conf_vaddr (stack_vaddr, stack_len) va).

(** The memory map of the boot environment. *)
Definition boot_map {E} (boot_len reserved_end : Z) : outcome E (list PhysMap) :=
  reserved ← usub reserved_end boot_len;
  free ← usub ram_size reserved_end;
  Ok ([PMap 0 boot_len MRam; PMap boot_len reserved MReserved; PMap reserved_end free MRam]
      ++ replicate 61 (PMap 0 0 MNone)).

(** The virtual machine that is ready to run. *)
Record vm := Built {
  v_ram : Ram.t;
  v_devices : DeviceTree;
  v_env : BootVm;
  v_kmap : KernelMap;
  v_map : RamMap;
  v_tables : Context4K;
  v_kern : list Z;
  v_start : Z
}.

(** [LockedMem] of the kernel for [relocate_kernel]: the lock is never waited
    for, since no guard is left. *)
Definition lock_kernel {E} (r : Ram.t) (addr n : Z) : outcome E (LockedMem * Ram.t) :=
  match Ram.lock r addr n with
  | (LSome g, r) => Ok (g, r)
  | (LNone _, _) => Panic PUnwrap
  | (LWait _, _) => Panic PUnreachable
  end.

(** The part of [Vmm::new] after the checks of the image. *)
Definition boot (m : machine) (img : Kernel.t) (segs : list ProgramHeader) (dyn : ProgramHeader)
    (kern_len page_size : Z) : outcome VmmError vm :=
  r ← hv_new m page_size;
  setup_cpu_model m;;
  devices ← setup_devices ram_size (block_size r);
  l ← build_layout m img segs kern_len page_size r;
  let b := l_builder l in
  memory_map ← boot_map (l_boot_len l) (RamBuilder.next b);
  let env := Vm (d_addr (t_vmm devices)) (d_addr (t_console devices)) (host_page_size r) memory_map in
  put_ok (l_env l).2 size_BootEnv;;
  let b := drop_in b (l_env l).2 in
  '(page_table, (b, cx)) ← map_err BuildPageTable
     (build_page_table (m_host m) b ((fun kv => RamBuilder.Info kv.1 kv.1 (d_len kv.2)) <$> t_map devices));
  vsize ← usub (l_end l) kern_vaddr0;
  panic_if (vsize =? 0) PUnwrap;;
  put_ok (l_map l).2 size_KernelMap;;
  let r := drop_guard (hv_ram b) (l_map l).2 in
  '(g, r) ← lock_kernel r (l_kern_paddr l) kern_len;
  kern ← relocate_kernel kern_vaddr0 dyn (take (Z.to_nat kern_len) (l_kern l));
  let r := drop_guard r g in
  start ← uadd kern_vaddr0 (entry img);
  Ok (Built r devices env (KMap kern_vaddr0 vsize)
        (RMap page_table (l_kern_paddr l) kern_vaddr0 kern_len (l_stack l).1 (l_stack l).2
           (l_map l).1 (l_env l).1 (l_conf l))
        cx (overwrite (l_kern l) 0 kern) start).

(** [Vmm::new], up to the start of the thread of the main CPU. *)
Definition vmm_build (m : machine) (f : IoError + File) : outcome VmmError vm :=
  img ← map_err OpenKernel (Kernel.open f);
  '(segs, dyn, nt) ← parse_headers img;
  page_size ← parse_notes img nt;
  kern_len ← kernel_len segs;
  boot m img segs dyn kern_len page_size.

(** ** The main CPU ([gui/src/vmm/x86_64.rs]) *)

(** The arguments of [set_cs]. *)
Record CodeSegment := Cs { cs_ty : Z; cs_dpl : Z; cs_p : bool; cs_l : bool; cs_d : bool }.
Record CpuState := Cpu {
  cr3 : Z; cr4 : Z; efer : Z; cr0 : Z;
  cs : CodeSegment; ds : bool; es : bool; fs : bool; gs : bool; ss : bool;
  rdi : Z; rsi : Z; rdx : Z; rsp : Z; rip : Z; rflags : Z
}.
Inductive MainCpuError := GetCpuStatesFailed (e : Z) | CommitCpuStatesFailed (e : Z).

(** The bits of [Efer] and [Rflags] that are set. *)
Definition efer_lme : Z := 2 ^ 8.
Definition efer_lma : Z := 2 ^ 10.
Definition rflags_reserved : Z := 2 ^ 1.
Definition rflags_id : Z := 2 ^ 21.

(** The registers that are committed; [states] and [commit] are what the
    hypervisor answers to [Cpu::states] and [CpuCommit::commit]. *)
Definition setup_main_cpu (states commit : Z + unit) (start : Z) (map : RamMap) : outcome MainCpuError CpuState :=
  match states with
  | inl e => Err (GetCpuStatesFailed e)
  | inr _ =>
      assert_that (Z.land (page_table map) 0xFFF0000000000FFF =? 0);;
      sp ← unwrap_or_panic PUnwrap (checked_add (stack_vaddr map) (stack_len map));
      let cpu := Cpu (page_table map) 0x20 (Z.lor efer_lme efer_lma) (Z.lor 0x00000001 0x80000000)
                   (Cs 8 0 true true false) true true true true true
                   (map_vaddr map) (env_vaddr map) (conf_vaddr map) sp start (Z.lor rflags_reserved rflags_id) in
      match commit with inl e => Err (CommitCpuStatesFailed e) | inr _ => Ok cpu end
  end.

End Loader.
