(* ===== verification/LoaderProps.v ===== *)
(** * Properties of the loaded kernel

    The segments of an accepted kernel are disjoint and lie in memory as they
    lie in the file, and relocation stores the relocated addresses and nothing
    else. *)
From S2P Require Import Prelude Ram Env Kernel Loader KernelProps.
From stdpp Require Import sorting.

Module LoaderProps.
Import Ram Env Kernel Loader KernelProps.
Local Open Scope list_scope.
Local Open Scope Z_scope.

(** ** Segments *)

Definition seg_end (s : ProgramHeader) : Z := p_vaddr s + p_memsz s.

(** [s] ends before [s'] starts. *)
Definition before (s s' : ProgramHeader) : Prop := seg_end s <= p_vaddr s'.

Definition max_end (segs : list ProgramHeader) : Z := foldr Z.max 0 (seg_end <$> segs).

Lemma segments_end_iff kern_len segs n :
  Forall (fun s => 0 <= p_memsz s) segs ->
  segments_end kern_len segs = Ok n
  <-> Forall (fun s => kern_len <= p_vaddr s) segs /\ StronglySorted before segs
      /\ Forall (fun s => seg_end s < 2 ^ 64) segs /\ n = foldr Z.max kern_len (seg_end <$> segs).
Proof.
  intros Hm. revert kern_len. induction Hm as [|s segs Hs Hm IH]; intros kern_len; cbn [segments_end].
  { cbn. split; [intros [= ->]; repeat split; constructor|]. by intros (_ & _ & _ & ->). }
  split.
  - intros H. apply bind_Ok in H as ([] & Hv & H). apply fail_if_Ok, Z.ltb_ge in Hv.
    apply bind_Ok in H as (e & He & H). apply ok_or_Ok, checked_add_Some in He as [-> He].
    apply IH in H as (Ha & Hb & Hc & ->). fold (seg_end s) in *. split_and!.
    + constructor; [done|]. eapply Forall_impl; [exact Ha|]. cbn. intros x Hx. unfold seg_end in *. lia.
    + by constructor.
    + by constructor.
    + cbn [fmap list_fmap foldr]. assert (kern_len <= seg_end s) by (unfold seg_end; lia). clear IH Hb Hc Ha.
      induction (seg_end <$> segs); cbn [foldr]; lia.
  - intros (Ha & Hb & Hc & ->). inversion Ha; inversion Hb; inversion Hc; subst.
    rewrite (proj2 (Z.ltb_ge _ _)) by done. cbn [fail_if mbind outcome_bind].
    rewrite (proj2 (checked_add_Some (p_vaddr s) (p_memsz s) (seg_end s))) by done. cbn [ok_or mbind outcome_bind].
    apply IH. split_and!; [done..|]. cbn [fmap list_fmap foldr].
    assert (kern_len <= seg_end s) by (unfold seg_end; lia).
    assert (forall l x y, x <= y -> foldr Z.max y l = Z.max y (foldr Z.max x l)) as Hmax.
    { clear. induction l as [|z l IHl]; intros x y Hxy; cbn [foldr]; [lia|]. rewrite (IHl x y) by done. lia. }
    by rewrite (Hmax _ kern_len (seg_end s)).
Qed.

Lemma kernel_len_iff segs n :
  Forall (fun s => 0 <= p_vaddr s /\ 0 <= p_memsz s) segs ->
  kernel_len segs = Ok n
  <-> StronglySorted before segs /\ Forall (fun s => seg_end s < 2 ^ 64) segs /\ n = max_end segs /\ n <> 0.
Proof.
  intros H. assert (Forall (fun s => 0 <= p_memsz s) segs) as Hm by (eapply Forall_impl; [exact H|]; by intros ? []).
  assert (Forall (fun s => 0 <= p_vaddr s) segs) as Hv by (eapply Forall_impl; [exact H|]; by intros ? []).
  unfold kernel_len, max_end. split.
  - intros Hk. apply bind_Ok in Hk as (k & Hk & Hz). apply segments_end_iff in Hk as (_ & ? & ? & ->); [|done].
    apply bind_Ok in Hz as ([] & Hz & Hn). apply fail_if_Ok, Z.eqb_neq in Hz. injection Hn as <-. done.
  - intros (? & ? & -> & Hn). rewrite (proj2 (segments_end_iff 0 segs (foldr Z.max 0 (seg_end <$> segs)) Hm)); [|done].
    cbn [mbind outcome_bind]. by rewrite (proj2 (Z.eqb_neq _ _)).
Qed.

(** The scan over the sorted segments accepts exactly the kernels whose
    segments do not overlap.  It succeeds if and only if every segment ends
    at or before the start of each later one, no end overflows and there is
    memory to map; the size of the kernel is then the highest end. *)
Theorem kernel_len_spec segs n :
  Forall (fun s => 0 <= p_vaddr s /\ 0 <= p_memsz s) segs ->
  kernel_len segs = Ok n
  <-> StronglySorted before segs /\ Forall (fun s => seg_end s < 2 ^ 64) segs /\ n = max_end segs /\ n <> 0.
Proof. exact (kernel_len_iff segs n). Qed.

Lemma kernel_len_spec_witness :
  kernel_len [Phdr 1 0 0 0x100 0x1000; Phdr 1 0x1000 0x2000 0x10 0x234] = Ok 0x2234.
Proof.
  apply kernel_len_spec; [repeat constructor; discriminate|].
  split; [repeat constructor; discriminate|]. repeat split; [repeat constructor|discriminate].
Defined.

(** ** Program headers *)

(** A loadable segment as the loop over the program headers accepts it. *)
Definition segment_ok (s : ProgramHeader) : Prop :=
  p_type s = PT_LOAD /\ 0 <= p_vaddr s /\ 0 <= p_offset s /\ 0 <= p_filesz s <= p_memsz s.

Lemma add_header_Ok hs i data hs' :
  Forall is_byte data -> Forall segment_ok (segments hs) -> add_header hs i (parse_header data) = Ok hs' ->
  Forall segment_ok (segments hs').
Proof.
  intros Hd Hs. unfold add_header. destruct (Z.eqb_spec (p_type (parse_header data)) PT_LOAD) as [Ht|_].
  - intros H. apply bind_Ok in H as ([] & Hf & H). apply fail_if_Ok, Z.ltb_ge in Hf. injection H as <-.
    cbn [segments]. apply Forall_app. split; [done|]. constructor; [|constructor]. unfold segment_ok.
    pose proof (field_nonneg data 8 8 Hd). pose proof (field_nonneg data 16 8 Hd). pose proof (field_nonneg data 32 8 Hd).
    cbn in *. lia.
  - destruct (_ =? _); [intros H; apply bind_Ok in H as (? & _ & H); by injection H as <-|].
    destruct (_ =? _); [intros H; apply bind_Ok in H as (? & _ & H); by injection H as <-|].
    destruct (_ || _); [by intros [= <-]|done].
Qed.

Lemma header_loop_Ok fuel f i it hs hs' :
  Forall is_byte (content f) -> Forall segment_ok (segments hs) -> header_loop fuel f i it hs = Ok hs' ->
  Forall segment_ok (segments hs').
Proof.
  intros Hb. revert i it hs. induction fuel as [|fuel IH]; intros i it hs Hs H; [done|]. cbn [header_loop] in H.
  destruct (ph_next f it) as [item|] eqn:Hn; [|by injection H as <-].
  apply bind_Ok in H as ([hdr it'] & Hi & H). apply map_err_Ok in Hi as ->. apply bind_Ok in H as (hs1 & Ha & H).
  unfold ph_next in Hn. destruct (_ =? _); [done|]. injection Hn as Hn.
  destruct (read_exact f (ph_pos it) 56) as [data|e|p] eqn:Hr; [|by inv_ok|done]. injection Hn as <- <-.
  unfold read_exact in Hr. destruct (_ <=? _); [|done]. injection Hr as <-.
  eapply IH; [|done]. eapply add_header_Ok; [|done|done]. by apply Forall_slice.
Qed.

Lemma parse_headers_Ok img segs dyn nt :
  Forall is_byte (content (file img)) -> parse_headers img = Ok (segs, dyn, nt) -> Forall segment_ok segs.
Proof.
  intros Hb H. unfold parse_headers in H. apply bind_Ok in H as (it & _ & H). apply bind_Ok in H as (hs & Hl & H).
  apply bind_Ok in H as (first & _ & H). do 3 apply bind_Ok in H as (? & _ & H). injection H as <- _ _.
  apply header_loop_Ok in Hl; [|done|constructor]. by rewrite merge_sort_Permutation.
Qed.

(** ** Loading *)

(** The bytes of the file that a segment maps. *)
Definition file_bytes (img : Kernel.t) (s : ProgramHeader) : list Z :=
  slice (content (file img)) (p_offset s) (p_filesz s).

Lemma segment_data_Ok img s data :
  segment_data img s = Ok data -> data = file_bytes img s.
Proof.
  unfold segment_data. intros H. apply bind_Ok in H as (? & _ & [= <-]). unfold file_bytes, slice.
  destruct (Z.le_gt_cases (p_filesz s) (Z.of_nat (length (content (file img))))).
  - by rewrite Z.min_l.
  - rewrite Z.min_r by lia. rewrite !take_ge; [done|rewrite length_drop; lia..].
Qed.

Definition in_segment (s : ProgramHeader) (i : Z) : Prop := p_vaddr s <= i < p_vaddr s + p_filesz s.

(** One segment is copied. *)
Lemma load_segments_cons img g mem s segs mem' :
  0 <= p_vaddr s -> 0 <= p_filesz s -> Z.of_nat (length mem) = lm_len g ->
  load_segments img g mem (s :: segs) = Ok mem' ->
  Z.of_nat (length (file_bytes img s)) = p_filesz s /\ p_filesz s <= p_memsz s /\ seg_end s <= lm_len g
  /\ load_segments img g (overwrite mem (p_vaddr s) (file_bytes img s)) segs = Ok mem'.
Proof.
  intros Hv Hz Hl. cbn [load_segments]. intros H. apply bind_Ok in H as (src & Hs & H).
  apply map_err_Ok, segment_data_Ok in Hs as ->. apply bind_Ok in H as (w & Hw & H).
  apply unwrap_or_panic_Ok in Hw. apply bind_Ok in H as (mem1 & Hc & H). apply map_err_Ok in Hc.
  apply bind_Ok in H as ([] & Hf & H). apply fail_if_Ok, negb_false_iff, Z.eqb_eq in Hf.
  unfold writer in Hw. destruct (checked_add _ _) as [e|] eqn:He; [|done]. apply checked_add_Some in He as [-> He].
  cbn [mbind option_bind] in Hw. destruct (Z.leb_spec (p_vaddr s + p_memsz s) (lm_len g)) as [Hle|]; [|done].
  injection Hw as <-. unfold copy in Hc. cbn [fst snd] in Hc.
  destruct (Z.leb_spec (Z.of_nat (length (file_bytes img s))) (p_vaddr s + p_memsz s - p_vaddr s)); [|done].
  injection Hc as <-. split_and!; [done|lia|done|done].
Qed.

(** The memory after the loop: every segment holds its bytes of the file, and
    nothing else changes. *)
Lemma load_segments_Ok img g mem segs mem' :
  Forall (fun s => 0 <= p_vaddr s /\ 0 <= p_filesz s) segs -> StronglySorted before segs ->
  Z.of_nat (length mem) = lm_len g -> load_segments img g mem segs = Ok mem' ->
  length mem' = length mem
  /\ Forall (fun s => slice mem' (p_vaddr s) (p_filesz s) = file_bytes img s) segs
  /\ forall i, Forall (fun s => ~ in_segment s (Z.of_nat i)) segs -> mem' !! i = mem !! i.
Proof.
  intros Hs. revert mem. induction Hs as [|s segs [Hv Hz] Hs IH]; intros mem Hb Hl H.
  { injection H as <-. split_and!; [done|constructor|done]. }
  inversion Hb as [|? ? Hb1 Hb2]; subst.
  apply load_segments_cons in H as (Hlen & Hfm & He & H); [|done..]. unfold seg_end in He.
  assert (p_vaddr s + Z.of_nat (length (file_bytes img s)) <= Z.of_nat (length mem)) as Hin by lia.
  pose proof (length_overwrite mem (p_vaddr s) (file_bytes img s) Hv Hin) as Hlo.
  destruct (IH (overwrite mem (p_vaddr s) (file_bytes img s))) as (H1 & H2 & H3); [done|lia|done|].
  split; [lia|]. split.
  - constructor; [|done]. rewrite <- Hlen.
    transitivity (slice (overwrite mem (p_vaddr s) (file_bytes img s)) (p_vaddr s) (Z.of_nat (length (file_bytes img s))));
      [|by apply slice_overwrite_in].
    apply list_eq. intros i. destruct (decide (i < length (file_bytes img s))%nat) as [Hi|Hi].
    + rewrite !lookup_slice by lia. apply H3. rewrite Forall_forall in *. intros s' Hs'.
      specialize (Hb2 s' Hs'). unfold before, seg_end, in_segment in *. lia.
    + unfold slice. rewrite !lookup_take_ge by lia. done.
  - intros i Hi. inversion Hi as [|? ? Hi1 Hi2]; subst. rewrite H3 by done.
    apply lookup_overwrite_out; [done..|]. unfold in_segment in Hi1. lia.
Qed.

(** ** Relocation *)

(** An entry of the relocation table. *)
Record rela := Rela { r_offset : Z; r_type : Z; r_addend : Z }.
Definition rela_at (kern : list Z) (relocs k : Z) : rela :=
  let data := slice kern (relocs + 24 * k) 24 in
  Rela (field data 0 8) (Z.land (field data 8 8) 0xffffffff) (to_isize (field data 16 8)).

(** The loop ends at the first entry of type NONE: only the entries before it
    count.  A table of [m] entries is sound if it lies in the kernel and the
    targets in the kernel are apart from each other and from the table. *)
Definition live (kern : list Z) (relocs m k : Z) : Prop :=
  0 <= k < m /\ forall j, 0 <= j <= k -> r_type (rela_at kern relocs j) <> 0.
Definition relative (kern : list Z) (relocs m k : Z) : Prop :=
  live kern relocs m k /\ r_type (rela_at kern relocs k) = RELOCATE_TYPE.
Definition target (kern : list Z) (relocs k : Z) : Z := r_offset (rela_at kern relocs k).
Definition fits (kern : list Z) (relocs k : Z) : Prop := target kern relocs k + 8 <= Z.of_nat (length kern).
#[export] Instance fits_dec kern relocs k : Decision (fits kern relocs k).
Proof. unfold fits. apply _. Defined.
Record table_ok (kern : list Z) (relocs m : Z) : Prop := {
  tab_bytes : Forall is_byte kern;
  tab_size : Z.of_nat (length kern) < 2 ^ 64;
  tab_in : 0 <= relocs /\ 0 <= m /\ relocs + 24 * m <= Z.of_nat (length kern);
  tab_apart k : relative kern relocs m k -> fits kern relocs k ->
    target kern relocs k + 8 <= relocs \/ relocs + 24 * m <= target kern relocs k;
  tab_disjoint j k : relative kern relocs m j -> relative kern relocs m k -> j <> k ->
    fits kern relocs j -> fits kern relocs k ->
    target kern relocs j + 8 <= target kern relocs k \/ target kern relocs k + 8 <= target kern relocs j
}.

Section relocation.
Context (base : Z) (kern : list Z) (relocs m : Z) (Htab : table_ok kern relocs m).

Let value (k : Z) : Z := u64_wrap (base + r_addend (rela_at kern relocs k)).

Lemma target_nonneg k : 0 <= target kern relocs k.
Proof. apply field_nonneg, Forall_slice, Htab. Qed.

(** The kernel after the first [j] relocations. *)
Record reloc_inv (j : Z) (cur : list Z) : Prop := {
  ri_live k : 0 <= k < j -> r_type (rela_at kern relocs k) <> 0;
  ri_fits k : relative kern relocs m k -> k < j -> fits kern relocs k;
  ri_length : length cur = length kern;
  ri_done k : relative kern relocs m k -> k < j -> slice cur (target kern relocs k) 8 = le_bytes 8 (value k);
  ri_rest (i : nat) :
    (forall k, relative kern relocs m k -> k < j ->
       ~ target kern relocs k <= Z.of_nat i < target kern relocs k + 8) ->
    cur !! i = kern !! i
}.

Lemma reloc_inv_entry j cur : reloc_inv j cur -> 0 <= j < m -> slice cur (relocs + 24 * j) 24 = slice kern (relocs + 24 * j) 24.
Proof.
  intros [_ Hf _ _ Hr] Hj. destruct (tab_in _ _ _ Htab) as (H1 & H2 & H3). apply list_eq. intros i.
  destruct (decide (i < 24)%nat) as [Hi|Hi].
  - rewrite !lookup_slice by lia. apply Hr. intros k Hk Hkj Hin. destruct (tab_apart _ _ _ Htab k Hk (Hf k Hk Hkj)); lia.
  - unfold slice. by rewrite !lookup_take_ge by lia.
Qed.

(** An entry of another type changes nothing. *)
Lemma reloc_inv_skip j cur :
  reloc_inv j cur -> r_type (rela_at kern relocs j) <> 0 -> ~ relative kern relocs m j -> reloc_inv (j + 1) cur.
Proof.
  intros [Hv Hf Hl Hd Hr] Ht Hn.
  assert (forall k, relative kern relocs m k -> k < j + 1 -> k < j) as Hlt.
  { intros k Hk Hkj. destruct (decide (k = j)) as [->|]; [by destruct Hn|lia]. }
  split; [|by eauto|done|by eauto|].
  - intros k Hk. destruct (decide (k = j)) as [->|]; [done|]. apply Hv. lia.
  - intros i Hi. apply Hr. intros k Hk Hkj. apply Hi; [done|lia].
Qed.
(** A relative entry is applied. *)
Lemma reloc_inv_apply j cur :
  reloc_inv j cur -> relative kern relocs m j -> fits kern relocs j ->
  reloc_inv (j + 1) (overwrite cur (target kern relocs j) (le_bytes 8 (value j))).
Proof.
  intros [Hv Hf Hl Hd Hr] Hrel Hfit. pose proof (target_nonneg j) as H0. unfold fits in Hfit.
  assert (target kern relocs j + Z.of_nat (length (le_bytes 8 (value j))) <= Z.of_nat (length cur)) as Hin
    by (rewrite length_le_bytes, Hl; lia).
  split.
  - intros k Hk. apply (proj2 (proj1 Hrel)). lia.
  - intros k Hk Hkj. destruct (decide (k = j)) as [->|]; [done|]. apply Hf; [done|lia].
  - by rewrite length_overwrite.
  - intros k Hk Hkj. destruct (decide (k = j)) as [->|Hne].
    + pose proof (slice_overwrite_in cur (target kern relocs j) (le_bytes 8 (value j)) H0 Hin) as Hsl.
      by rewrite length_le_bytes in Hsl.
    + rewrite slice_overwrite_out; [by apply Hd; [|lia]|done|done|apply target_nonneg|].
      rewrite length_le_bytes. destruct (tab_disjoint _ _ _ Htab j k Hrel Hk); [done|done|apply Hf; [done|lia]|lia..].
  - intros i Hi. rewrite lookup_overwrite_out; [|done|done|rewrite length_le_bytes; specialize (Hi j Hrel); lia].
    apply Hr. intros k Hk Hkj. apply Hi; [done|lia].
Qed.

(** One entry: it ends the loop, is applied or skipped, or is refused. *)
Lemma relocate_step j cur :
  reloc_inv j cur -> 0 <= j < m ->
  match relocate base cur (slice cur (relocs + 24 * j) 24) with
  | Ok (Some cur') => reloc_inv (j + 1) cur'
  | Ok None => r_type (rela_at kern relocs j) = 0
  | Err e => e = InvalidDynamicLinking /\ relative kern relocs m j /\ ~ fits kern relocs j
  | Panic _ => False
  end.
Proof.
  intros Hi Hj. rewrite (reloc_inv_entry j cur Hi Hj). unfold relocate.
  change (field (slice kern (relocs + 24 * j) 24) 0 8) with (target kern relocs j).
  change (u64_wrap (base + to_isize (field (slice kern (relocs + 24 * j) 24) 16 8))) with (value j).
  change (Z.land (field (slice kern (relocs + 24 * j) 24) 8 8) 0xffffffff) with (r_type (rela_at kern relocs j)).
  destruct (Z.eqb_spec (r_type (rela_at kern relocs j)) 0) as [|H0]; [done|].
  destruct (Z.eqb_spec (r_type (rela_at kern relocs j)) RELOCATE_TYPE) as [He|He];
    [|apply reloc_inv_skip; [done|done|by intros [_ ?]]].
  assert (relative kern relocs m j) as Hrel.
  { split; [|done]. split; [done|]. intros k Hk. destruct (decide (k = j)) as [->|]; [done|]. apply (ri_live _ _ Hi). lia. }
  pose proof (target_nonneg j) as Hn. pose proof (tab_size _ _ _ Htab) as Hs. pose proof (ri_length _ _ Hi) as Hl.
  destruct (decide (fits kern relocs j)) as [Hf|Hf]; unfold fits in Hf.
  - rewrite (proj2 (checked_add_Some _ 8 (target kern relocs j + 8))) by lia. cbn [ok_or mbind outcome_bind].
    rewrite (proj2 (get_range_Some cur _ _ (slice cur (target kern relocs j) (target kern relocs j + 8 - target kern relocs j))))
      by (rewrite Hl; split; [lia|done]).
    cbn [ok_or mbind outcome_bind]. by apply reloc_inv_apply.
  - destruct (checked_add (target kern relocs j) 8) as [e|] eqn:Ha; [|by cbn]. cbn [ok_or mbind outcome_bind].
    apply checked_add_Some in Ha as [-> _].
    destruct (get_range cur (target kern relocs j) (target kern relocs j + 8)) eqn:Hg; [|by cbn].
    apply get_range_Some in Hg as [? _]. lia.
Qed.

(** What the loop leaves. *)
Record relocated (cur : list Z) : Prop := {
  rd_fits k : relative kern relocs m k -> fits kern relocs k;
  rd_length : length cur = length kern;
  rd_done k : relative kern relocs m k -> slice cur (target kern relocs k) 8 = le_bytes 8 (value k);
  rd_rest (i : nat) :
    (forall k, relative kern relocs m k -> ~ target kern relocs k <= Z.of_nat i < target kern relocs k + 8) ->
    cur !! i = kern !! i
}.
Lemma reloc_inv_end j cur : reloc_inv j cur -> (forall k, relative kern relocs m k -> k < j) -> relocated cur.
Proof. intros [_ Hf Hl Hd Hr] Hall. split; [by eauto|done|by eauto|]. intros i Hi. apply Hr. intros k Hk _. by apply Hi. Qed.
(** The kernel is relocated, or the target of an entry lies outside of it. *)
Lemma relocate_loop_spec fuel j cur :
  reloc_inv j cur -> 0 <= j <= m -> m - j < Z.of_nat fuel ->
  (exists cur', relocate_loop fuel base relocs (24 * m) (24 * j) cur = Ok cur' /\ relocated cur') \/
  (relocate_loop fuel base relocs (24 * m) (24 * j) cur = Err InvalidDynamicLinking /\
   exists k, relative kern relocs m k /\ ~ fits kern relocs k).
Proof.
  destruct (tab_in _ _ _ Htab) as (H1 & H2 & H3). pose proof (tab_size _ _ _ Htab) as Hs.
  revert j cur. induction fuel as [|fuel IH]; intros j cur Hi Hj Hf; [lia|]. cbn [relocate_loop].
  destruct (Z.leb_spec (24 * m) (24 * j)).
  { left. exists cur. split; [done|]. eapply reloc_inv_end; [done|]. intros k [[? _] _]. lia. }
  rewrite (proj2 (uadd_Ok relocs (24 * j) (relocs + 24 * j))) by lia. cbn [mbind outcome_bind].
  rewrite (proj2 (uadd_Ok (relocs + 24 * j) 24 (relocs + 24 * j + 24))) by lia. cbn [mbind outcome_bind].
  pose proof (ri_length _ _ Hi) as Hl.
  rewrite (proj2 (get_range_Some cur (relocs + 24 * j) (relocs + 24 * j + 24) (slice cur (relocs + 24 * j) 24)))
    by (rewrite Hl; split; [lia|f_equal; lia]).
  cbn [ok_or mbind outcome_bind]. pose proof (relocate_step j cur Hi) as Hst.
  destruct (relocate base cur _) as [[cur'|]|e|]; cbn [mbind outcome_bind].
  - replace (24 * j + 24) with (24 * (j + 1)) by lia. apply IH; [apply Hst; lia|lia..].
  - left. exists cur. split; [done|]. eapply reloc_inv_end; [done|]. intros k [[Hk Hz] _].
    destruct (Z.ltb_spec k j); [done|]. destruct (Hz j); [lia|]. apply Hst. lia.
  - right. destruct Hst as (-> & ? & ?); [lia|]. eauto.
  - destruct Hst. lia.
Qed.

End relocation.

(** C10: relocation does its work and nothing else.  Let the dynamic section name
    a table of [m] entries in the kernel whose targets, as far as they lie in
    the kernel, are apart from each other and from the table.  The relative
    relocations before the first entry of type NONE are applied.  If the
    targets of all of them lie in the kernel, [relocate_kernel] succeeds: the
    word at each target is the address of the kernel plus the addend, modulo
    [2 ^ 64], and every byte outside the targets is unchanged.  Otherwise the
    kernel is refused. *)
Theorem relocate_kernel_spec base dyn kern relocs m :
  0 <= p_vaddr dyn -> 0 <= p_memsz dyn -> p_memsz dyn mod 16 = 0 ->
  p_vaddr dyn + p_memsz dyn <= Z.of_nat (length kern) ->
  (let d := slice kern (p_vaddr dyn) (p_memsz dyn) in
   parse_dynamic (length d) d None None = (Some relocs, Some (24 * m))) ->
  table_ok kern relocs m ->
  ((forall k, relative kern relocs m k -> fits kern relocs k) ->
   exists kern', relocate_kernel base dyn kern = Ok kern' /\ length kern' = length kern
   /\ (forall k, relative kern relocs m k ->
         field kern' (target kern relocs k) 8 = (base + r_addend (rela_at kern relocs k)) mod 2 ^ 64)
   /\ forall i : nat,
        (forall k, relative kern relocs m k -> ~ target kern relocs k <= Z.of_nat i < target kern relocs k + 8) ->
        kern' !! i = kern !! i)
  /\ (forall k, relative kern relocs m k -> ~ fits kern relocs k -> relocate_kernel base dyn kern = Err InvalidDynamicLinking).
Proof.
  intros Hv Hm Ha Hin Hp Ht. pose proof (tab_size _ _ _ Ht) as Hs. destruct (tab_in _ _ _ Ht) as (? & ? & ?).
  unfold relocate_kernel. rewrite Ha. cbn [Z.eqb negb fail_if mbind outcome_bind].
  rewrite (proj2 (checked_add_Some (p_vaddr dyn) (p_memsz dyn) (p_vaddr dyn + p_memsz dyn))) by lia.
  cbn [mbind option_bind].
  rewrite (proj2 (get_range_Some kern (p_vaddr dyn) (p_vaddr dyn + p_memsz dyn) (slice kern (p_vaddr dyn) (p_memsz dyn))))
    by (split; [lia|f_equal; lia]).
  cbn [ok_or mbind outcome_bind]. cbv zeta in Hp. rewrite Hp.
  replace ((24 * m) mod 24) with 0 by (rewrite Z.mul_comm, Z.mod_mul; lia). cbn [Z.eqb negb fail_if mbind outcome_bind].
  destruct (relocate_loop_spec base kern relocs m Ht (S (length kern)) 0 kern) as [(kern' & Hk & [Hf Hl Hd Hr])|(Hk & k0 & Hr0 & Hf0)].
  { split; [intros k ?; lia|intros k [[? _] _] ?; lia|done|intros k [[? _] _] ?; lia|done]. }
  { lia. }
  { lia. }
  - split; [|by intros k Hr0 []; apply Hf]. intros _. exists kern'. split; [done|]. split; [done|]. split; [|done].
    intros k Hk'. unfold field. rewrite Hd by done. apply le_value_bytes.
    change (256 ^ Z.of_nat 8) with (2 ^ 64). apply Z.mod_pos_bound. lia.
  - split; [|done]. intros Hall. by destruct Hf0; apply Hall.
Qed.

(** A dynamic section, a table with three entries, the second of which ends it,
    and the word that the first relocates. *)
Definition demo_kern : list Z :=
  le_bytes 8 7 ++ le_bytes 8 48 ++ le_bytes 8 8 ++ le_bytes 8 72 ++ le_bytes 16 0
  ++ le_bytes 8 120 ++ le_bytes 8 8 ++ le_bytes 8 0x123 ++ le_bytes 24 0 ++ le_bytes 8 0x500 ++ le_bytes 8 8 ++ le_bytes 8 0
  ++ le_bytes 8 0.
Lemma demo_relative k : relative demo_kern 48 3 k -> k = 0.
Proof.
  intros [[Hk Hz] Ht]. assert (k = 0 \/ k = 1 \/ k = 2) as [->|[->| ->]] by lia; [done|by vm_compute in Ht|].
  destruct (Hz 1); [lia|by vm_compute].
Qed.

Lemma relocate_kernel_spec_witness :
  exists kern', relocate_kernel 0x1000 (Phdr 2 0 0 48 48) demo_kern = Ok kern'
  /\ field kern' 120 8 = 0x1123.
Proof.
  destruct (relocate_kernel_spec 0x1000 (Phdr 2 0 0 48 48) demo_kern 48 3) as [Hok _];
    [vm_compute; discriminate|vm_compute; discriminate|reflexivity|vm_compute; discriminate|vm_compute; reflexivity| |].
  - split; [apply bytes_ok; vm_compute; reflexivity|vm_compute; reflexivity|vm_compute; repeat split; discriminate| |].
    + intros k ->%demo_relative _. right. vm_compute. discriminate.
    + intros j k ->%demo_relative ->%demo_relative []. reflexivity.
  - destruct Hok as (kern' & Hk & _ & Hw & _); [intros k ->%demo_relative; vm_compute; discriminate|].
    exists kern'. split; [exact Hk|]. apply (Hw 0). split; [|vm_compute; reflexivity].
    split; [lia|]. intros j Hj. replace j with 0 by lia. vm_compute. discriminate.
Defined.

(** A table at the end of the address space overflows before it is found to
    lie outside of the kernel. *)
Lemma relocation_overflow fuel base kern :
  relocate_loop (S fuel) base (2 ^ 64 - 8) 24 0 kern = Panic POverflow.
Proof. done. Qed.

End LoaderProps.
