(* ===== verification/BootProps.v ===== *)
(** * Properties of a virtual machine that is ready to run

    Composes the properties of the image, the RAM, the page tables and the
    devices along [Vmm::new]: where the parts of the kernel lie, how the
    processor sees them, and what the kernel is told. *)
From S2P Require Import Prelude TableTree BTree Ram RamProps RamBuilder PageTableProps Env Console ConsoleProps Kernel Loader KernelProps LoaderProps.
From stdpp Require Import sorting.

Module BootProps.
Import BTree Ram RamBuilder PageTableProps Env Console ConsoleProps Kernel Loader KernelProps LoaderProps.
Local Open Scope list_scope.
Local Open Scope Z_scope.

(** ** The builder *)

(** The same RAM with other blocks. *)
Definition same_shape (r r' : Ram.t) : Prop := exists a, r' = set_allocated a r.

Lemma same_shape_trans r1 r2 r3 : same_shape r1 r2 -> same_shape r2 r3 -> same_shape r1 r3.
Proof. intros [a ->] [b ->]. by exists b. Qed.

Lemma same_shape_sizes r r' :
  same_shape r r' -> block_size r' = block_size r /\ vm_page_size r' = vm_page_size r /\ len r' = len r.
Proof. by intros [a ->]. Qed.

Lemma builder_alloc_Ok h b va n pa g b' :
  builder_ok b -> 0 < n -> RamBuilder.alloc h b va n = Ok (pa, g, b') ->
  pa = RamBuilder.next b /\ g = Guard pa (round_up n (block_size (hv_ram b)))
  /\ allocs b' = allocs b ++ [RamBuilder.Info pa (default pa va) n]
  /\ RamBuilder.next b' = pa + round_up n (block_size (hv_ram b)) /\ RamBuilder.next b' <= len (hv_ram b)
  /\ builder_ok b' /\ same_shape (hv_ram b) (hv_ram b').
Proof.
  intros (Hr & Hn & Hl) Hn0 H. unfold RamBuilder.alloc in H. cbv zeta in H.
  apply bind_Ok in H as ([] & _ & H). apply bind_Ok in H as (k & Hk & H).
  apply ok_or_Ok, checked_next_multiple_of_Some in Hk as (_ & -> & _).
  apply bind_Ok in H as ([g' r] & Ha & H). apply bind_Ok in H as (nx & Hx & H).
  apply uadd_Ok in Hx as [-> _]. injection H as <- <- <-.
  pose proof (ok_block _ Hr) as Hbs. destruct (round_up_spec n (block_size (hv_ram b))) as [? ?]; [lia..|].
  apply alloc_Ok in Ha as (-> & _ & _ & Hle & _ & [a ->] & Hr' & _); [|done|lia|lia].
  cbn [hv_ram RamBuilder.next allocs]. split; [done|]. split; [done|]. split; [done|]. split; [done|]. split; [done|].
  split; [split; [done|]; cbn; lia|by exists a].
Qed.

Lemma drop_in_ok b g :
  builder_ok b -> builder_ok (drop_in b g) /\ same_shape (hv_ram b) (hv_ram (drop_in b g)).
Proof.
  intros (Hr & Hn & Hl). unfold drop_in, drop_guard. split; [|by eexists].
  split; [|done]. apply RamProps.ram_ok_subset; [done|apply bt_fill_ok, Hr|]. intros k. rewrite bt_get_fill.
  destruct (in_range _ _ k); [|done]. destruct (bt_get k _); cbn; [eauto|by intros []].
Qed.

(** A builder that started with the RAM [r] and has allocated [infos] up to
    the address [nx]. *)
Record built (r : Ram.t) (b : RamBuilder.t) (infos : list AllocInfo) (nx : Z) : Prop := {
  bu_ok : builder_ok b;
  bu_shape : same_shape r (hv_ram b);
  bu_allocs : allocs b = infos;
  bu_next : RamBuilder.next b = nx
}.

Lemma alloc_built h r b infos nx va n pa g b' :
  built r b infos nx -> 0 < n -> RamBuilder.alloc h b va n = Ok (pa, g, b') ->
  pa = nx /\ g = Guard nx (round_up n (block_size r)) /\ nx + round_up n (block_size r) <= len r
  /\ built r b' (infos ++ [RamBuilder.Info nx (default nx va) n]) (nx + round_up n (block_size r)).
Proof.
  intros [Hb Hs <- <-] Hn H. destruct (same_shape_sizes _ _ Hs) as (E1 & _ & E3).
  apply builder_alloc_Ok in H as (-> & -> & Ha & Hx & Hle & Hb' & Hs'); [|done..]. rewrite E1, E3 in *.
  split; [done|]. split; [done|]. split; [lia|]. split; [done|by eapply same_shape_trans|done|done].
Qed.

Lemma drop_built r b g infos nx : built r b infos nx -> built r (drop_in b g) infos nx.
Proof.
  intros [Hb Hs <- <-]. destruct (drop_in_ok b g Hb) as [Hb' Hs']. split; [done|by eapply same_shape_trans|done..].
Qed.

(** ** The layout *)

(** Regions of the given sizes one after the other: in physical memory they
    are aligned to blocks, in virtual memory to pages. *)
Fixpoint chain (bs ps pa va : Z) (sizes : list Z) : list AllocInfo :=
  match sizes with
  | [] => []
  | n :: sizes => RamBuilder.Info pa va n :: chain bs ps (pa + round_up n bs) (round_up (va + n) ps) sizes
  end.
Fixpoint chain_end (bs pa : Z) (sizes : list Z) : Z :=
  match sizes with [] => pa | n :: sizes => chain_end bs (pa + round_up n bs) sizes end.

Definition boot_len (bs : Z) : Z := round_up 0xA0000 bs.

(** The kernel, its map, the boot environment, the configuration and the
    stack. *)
Definition kernel_sizes (bs kern_len : Z) : list Z :=
  [kern_len; size_KernelMap; size_BootEnv; size_Config; round_up (1024 * 1024) bs].
Definition kernel_regions (bs ps kern_len : Z) : list AllocInfo :=
  chain bs ps (boot_len bs) kern_vaddr0 (kernel_sizes bs kern_len).
Definition boot_regions (bs ps kern_len : Z) : list AllocInfo :=
  RamBuilder.Info 0 0 (boot_len bs) :: kernel_regions bs ps kern_len.
Definition reserved_end (bs kern_len : Z) : Z := chain_end bs (boot_len bs) (kernel_sizes bs kern_len).

Lemma next_vaddr_Ok {E} va n ps v : @next_vaddr E va n ps = Ok v -> v = round_up (va + n) ps /\ va + n < 2 ^ 64.
Proof.
  unfold next_vaddr. intros H. apply unwrap_or_panic_Ok in H. destruct (checked_add va n) as [x|] eqn:Hx; [|done].
  apply checked_add_Some in Hx as [-> Hx]. cbn [mbind option_bind] in H.
  by apply checked_next_multiple_of_Some in H as (_ & -> & _).
Qed.

(** A new RAM of the virtual machine. *)
Lemma hv_new_Ok m ps r :
  hv_new m ps = Ok r ->
  ram_ok r /\ len r = ram_size /\ vm_page_size r = ps /\ allocated r = [] /\ 0 < block_size r <= ram_size
  /\ ram_size mod block_size r = 0 /\ 0 < ps <= block_size r.
Proof.
  unfold hv_new. intros H. apply bind_Ok in H as (r' & Hr & H). apply map_err_Ok in Hr.
  destruct (m_hv m); [done|]. injection H as <-.
  assert (ram_ok r') as Hok.
  { apply (inv_ram (Sys r' ∅ ∅)), RamProps.initial_inv. by econstructor. }
  unfold Ram.new in Hr. destruct (os_get_page_size _) as [e|hps]; [done|].
  apply bind_Ok in Hr as ([] & H1 & Hr). apply bind_Ok in Hr as ([] & H2 & Hr).
  apply assert_that_Ok in H1, H2. destruct (Z.eqb_spec (ram_size mod Z.max ps hps) 0) as [Hm|]; [|done].
  destruct (os_reserve _ _); [done|]. injection Hr as <-.
  unfold is_power_of_two in H1, H2. apply andb_true_iff in H1 as [H1%Z.ltb_lt _], H2 as [H2%Z.ltb_lt _].
  unfold block_size in *. cbn [vm_page_size host_page_size len allocated] in *.
  split; [done|]. split; [done|]. split; [done|]. split; [done|]. split; [|split; [done|lia]].
  split; [lia|]. apply Z.mod_divide in Hm; [|lia]. apply Z.divide_pos_le in Hm; [done|unfold ram_size; lia].
Qed.

(** What [build_layout] arranges. *)
Record layout_ok (img : Kernel.t) (segs : list ProgramHeader) (kern_len ps : Z) (r : Ram.t) (l : layout) : Prop := {
  lo_built : built r (l_builder l) (boot_regions (block_size r) ps kern_len) (reserved_end (block_size r) kern_len);
  lo_room : reserved_end (block_size r) kern_len <= len r;
  lo_boot : l_boot_len l = boot_len (block_size r);
  lo_paddr : l_kern_paddr l = boot_len (block_size r);
  lo_kern : let n := round_up kern_len (block_size r) in
    load_segments img (Guard (boot_len (block_size r)) n) (replicate (Z.to_nat n) 0) segs = Ok (l_kern l);
  lo_vaddrs :
    vaddr <$> kernel_regions (block_size r) ps kern_len
    = [kern_vaddr0; (l_map l).1; (l_env l).1; l_conf l; (l_stack l).1];
  lo_stack : (l_stack l).2 = round_up (1024 * 1024) (block_size r);
  lo_stack_end : (l_stack l).1 + (l_stack l).2 < 2 ^ 64;
  lo_end : l_end l = round_up ((l_stack l).1 + (l_stack l).2) ps
}.

Lemma build_layout_Ok m img segs kern_len ps r l :
  ram_ok r -> len r = ram_size -> 0 < kern_len ->
  build_layout m img segs kern_len ps r = Ok l -> layout_ok img segs kern_len ps r l.
Proof.
  intros Hr Hlen Hk H. unfold build_layout in H. cbv zeta in H. set (bs := block_size r) in *.
  assert (0 < bs) as Hbs by apply Hr.
  destruct (round_up_spec 0xA0000 bs Hbs) as [? _], (round_up_spec (1024 * 1024) bs Hbs) as [? _].
  apply bind_Ok in H as (bl & Hbl & H). apply next_multiple_of_Ok in Hbl as (_ & -> & _). fold (boot_len bs) in *.
  apply bind_Ok in H as (b & Hb & H). apply map_err_Ok in Hb. unfold RamBuilder.new in Hb.
  apply bind_Ok in Hb as (_ & _ & Hb). injection Hb as <-.
  assert (built r (RamBuilder.Mk r 0 []) [] 0) as B.
  { split; [split; [done|]; cbn [RamBuilder.next hv_ram]; rewrite Hlen; unfold ram_size; lia|by exists (allocated r); destruct r|done..]. }
  apply bind_Ok in H as ([[? g0] b0] & Ha & H). apply map_err_Ok in Ha.
  eapply alloc_built in Ha as (_ & _ & _ & B0); [|exact B|lia]. apply (drop_built _ _ g0) in B0.
  replace (round_up (boot_len bs) (block_size r)) with (boot_len bs) in B0
    by (symmetry; apply round_up_id; by apply round_up_spec).
  apply bind_Ok in H as ([[kp g] b1] & Ha & H). apply map_err_Ok in Ha.
  eapply alloc_built in Ha as (Hkp & Hg & _ & B1); [|exact B0|done].
  apply bind_Ok in H as ([] & _ & H). apply bind_Ok in H as (kern & Hl & H).
  apply (drop_built _ _ g) in B1.
  apply bind_Ok in H as (v2 & [Hv2 _]%next_vaddr_Ok & H). apply bind_Ok in H as ([[? gm] b2] & Ha & H). apply map_err_Ok in Ha.
  eapply alloc_built in Ha as (_ & _ & _ & B2); [|exact B1|done].
  apply bind_Ok in H as (v3 & [Hv3 _]%next_vaddr_Ok & H). apply bind_Ok in H as ([[? ge] b3] & Ha & H). apply map_err_Ok in Ha.
  eapply alloc_built in Ha as (_ & _ & _ & B3); [|exact B2|done].
  apply bind_Ok in H as (v4 & [Hv4 _]%next_vaddr_Ok & H). apply bind_Ok in H as ([[? gc] b4] & Ha & H). apply map_err_Ok in Ha.
  eapply alloc_built in Ha as (_ & _ & _ & B4); [|exact B3|done]. apply bind_Ok in H as ([] & _ & H).
  apply (drop_built _ _ gc) in B4. apply bind_Ok in H as (v5 & [Hv5 _]%next_vaddr_Ok & H).
  apply bind_Ok in H as (sl & Hsl & H). apply next_multiple_of_Ok in Hsl as (_ & -> & _).
  apply bind_Ok in H as ([[? gs] b5] & Ha & H). apply map_err_Ok in Ha.
  eapply alloc_built in Ha as (_ & _ & Hle & B5); [|exact B4|lia]. apply (drop_built _ _ gs) in B5.
  apply bind_Ok in H as (v6 & [Hv6 Hst]%next_vaddr_Ok & H). injection H as <-.
  rewrite Z.add_0_l in *. subst v2 v3 v4 v5 v6 g kp. cbn [lm_len] in Hl.
  split; cbn [l_builder l_boot_len l_kern_paddr l_kern l_map l_env l_conf l_stack l_end fst snd]; [exact B5|exact Hle|done|done|exact Hl|done|done|exact Hst|done].
Qed.

(** ** The whole machine *)

(** The devices as regions of memory. *)
Definition device_regions (bs : Z) : list AllocInfo :=
  [RamBuilder.Info ram_size ram_size (round_up 1 bs);
   RamBuilder.Info (ram_size + round_up 1 bs) (ram_size + round_up 1 bs) (round_up 24 bs)].

(** What [Vmm::new] went through. *)
Record boot_ok (m : machine) (f : File) (v : vm) (img : Kernel.t) (segs : list ProgramHeader) (dyn : ProgramHeader)
    (r : Ram.t) (l : layout) (kern_len ps : Z) (b : RamBuilder.t) : Prop := {
  bo_open : Kernel.open (inr f) = Ok img;
  bo_headers : exists nt, parse_headers img = Ok (segs, dyn, nt);
  bo_segs : Forall segment_ok segs /\ kernel_len segs = Ok kern_len /\ 0 < kern_len;
  bo_ram : hv_new m ps = Ok r;
  bo_layout : layout_ok img segs kern_len ps r l;
  bo_devices : tree_ok ram_size (block_size r) (v_devices v);
  bo_env : v_env v = Vm (d_addr (t_vmm (v_devices v))) (d_addr (t_console (v_devices v))) (host_page_size r)
    (memory_map (v_env v)) /\ @boot_map VmmError (l_boot_len l) (RamBuilder.next (l_builder l)) = Ok (memory_map (v_env v));
  bo_kmap : v_kmap v = KMap kern_vaddr0 (l_end l - kern_vaddr0);
  bo_tables : build_4k_page_tables (m_host m) (drop_in (l_builder l) (l_env l).2) (device_regions (block_size r))
    = Ok (page_table (v_map v), (b, v_tables v));
  bo_map : v_map v = RMap (page_table (v_map v)) (l_kern_paddr l) kern_vaddr0 kern_len (l_stack l).1 (l_stack l).2
    (l_map l).1 (l_env l).1 (l_conf l);
  bo_kern : exists kern, relocate_kernel kern_vaddr0 dyn (take (Z.to_nat kern_len) (l_kern l)) = Ok kern
    /\ v_kern v = overwrite (l_kern l) 0 kern;
  bo_start : v_start v = kern_vaddr0 + entry img
}.

Lemma kernel_len_pos segs n : Forall segment_ok segs -> kernel_len segs = Ok n -> 0 < n.
Proof.
  intros Hs H. unfold kernel_len in H. apply bind_Ok in H as (k & Hk & H). apply bind_Ok in H as ([] & Hz & H).
  apply fail_if_Ok, Z.eqb_neq in Hz. injection H as <-.
  apply segments_end_iff in Hk as (_ & _ & _ & ->); [|eapply Forall_impl; [exact Hs|]; unfold segment_ok; intros; lia].
  assert (0 <= foldr Z.max 0 (seg_end <$> segs)) by (clear; induction (seg_end <$> segs); cbn [foldr]; lia). lia.
Qed.

Lemma device_regions_map bs t :
  tree_ok ram_size bs t -> (fun kv => RamBuilder.Info kv.1 kv.1 (d_len kv.2)) <$> t_map t = device_regions bs.
Proof. intros [Hv Hc Hm _ _ _ _]. rewrite Hm, Hv, Hc. done. Qed.

Lemma vmm_build_Ok m f v :
  Forall is_byte (content f) -> vmm_build m (inr f) = Ok v ->
  exists img segs dyn r l kern_len ps b, boot_ok m f v img segs dyn r l kern_len ps b.
Proof.
  intros Hf H. unfold vmm_build in H. apply bind_Ok in H as (img & Ho & H). apply map_err_Ok in Ho.
  apply bind_Ok in H as ([[segs dyn] nt] & Hh & H). apply bind_Ok in H as (ps & _ & H).
  apply bind_Ok in H as (kern_len & Hk & H).
  assert (file img = f) as Hfile.
  { unfold Kernel.open in Ho. apply bind_Ok in Ho as (? & [= <-] & Ho). do 6 apply bind_Ok in Ho as (? & _ & Ho).
    by injection Ho as <-. }
  pose proof Hh as Hh'. apply parse_headers_Ok in Hh; [|by rewrite Hfile]. pose proof (kernel_len_pos _ _ Hh Hk) as Hpos.
  unfold boot in H. apply bind_Ok in H as (r & Hr & H). destruct (hv_new_Ok _ _ _ Hr) as (Hok & Hlen & _ & _ & Hbs & _).
  apply bind_Ok in H as ([] & _ & H). apply bind_Ok in H as (t & Ht & H).
  apply setup_devices_Ok in Ht; [|unfold ram_size; lia|lia]. apply bind_Ok in H as (l & Hl & H).
  apply build_layout_Ok in Hl; [|done..]. cbv zeta in H. apply bind_Ok in H as (mm & Hmm & H).
  apply bind_Ok in H as ([] & _ & H). apply bind_Ok in H as ([root [b cx]] & Hb & H). apply map_err_Ok in Hb.
  apply bind_Ok in H as (vs & Hvs & H). apply usub_Ok in Hvs as [-> _]. apply bind_Ok in H as ([] & _ & H).
  apply bind_Ok in H as ([] & _ & H). apply bind_Ok in H as ([g r'] & _ & H). apply bind_Ok in H as (kern & Hre & H).
  apply bind_Ok in H as (start & Hst & H). apply uadd_Ok in Hst as [-> _]. injection H as <-.
  exists img, segs, dyn, r, l, kern_len, ps, b. unfold build_page_table in Hb. destruct (_ || _); [|done].
  rewrite (device_regions_map _ _ Ht) in Hb. split; cbn; try done; [by exists nt|by exists kern].
Qed.

(** ** Bounds of the layout *)

Lemma chain_end_le bs pa sizes : 0 < bs -> Forall (fun n => 0 <= n) sizes -> pa <= chain_end bs pa sizes.
Proof.
  intros Hbs Hs. revert pa. induction Hs as [|n sizes Hn Hs IH]; intros pa; cbn [chain_end]; [lia|].
  destruct (round_up_spec n bs Hbs). specialize (IH (pa + round_up n bs)). lia.
Qed.

Lemma chain_bounds bs ps pa va sizes i :
  0 < bs -> Forall (fun n => 0 <= n) sizes -> i ∈ chain bs ps pa va sizes ->
  pa <= paddr i /\ paddr i + round_up (info_len i) bs <= chain_end bs pa sizes.
Proof.
  intros Hbs Hs. revert pa va. induction Hs as [|n sizes Hn Hs IH]; intros pa va Hi; cbn [chain chain_end] in *.
  { by apply not_elem_of_nil in Hi. }
  destruct (round_up_spec n bs Hbs). apply elem_of_cons in Hi as [->|Hi].
  - cbn [paddr info_len]. pose proof (chain_end_le bs (pa + round_up n bs) sizes Hbs Hs). lia.
  - apply IH in Hi. lia.
Qed.

Lemma kernel_sizes_pos bs n : 0 < bs -> 0 < n -> Forall (fun k => 0 <= k) (kernel_sizes bs n).
Proof.
  intros Hbs Hn. destruct (round_up_spec (1024 * 1024) bs Hbs). unfold kernel_sizes, size_KernelMap, size_BootEnv, size_Config.
  repeat constructor; lia.
Qed.

Lemma kernel_region_bounds bs ps n i :
  0 < bs -> 0 < n -> i ∈ kernel_regions bs ps n ->
  boot_len bs <= paddr i /\ paddr i + round_up (info_len i) bs <= reserved_end bs n.
Proof. intros Hbs Hn. apply chain_bounds; [done|by apply kernel_sizes_pos]. Qed.

Lemma boot_len_le bs n : 0 < bs -> 0 < n -> 0 < boot_len bs <= reserved_end bs n.
Proof.
  intros Hbs Hn. split; [unfold boot_len; destruct (round_up_spec 0xA0000 bs Hbs); lia|].
  apply chain_end_le; [done|by apply kernel_sizes_pos].
Qed.

(** Every region can be mapped. *)
Lemma regions_ok bs ps n :
  0 < ps <= bs -> bs <= ram_size -> 0 < n -> reserved_end bs n <= ram_size ->
  Forall (region_ok ps) (boot_regions bs ps n ++ device_regions bs).
Proof.
  intros Hps Hbs Hn He. destruct (boot_len_le bs n) as [Hb0 Hb1]; [lia..|].
  assert (forall p v k, 0 <= p -> p + k <= 2 ^ 36 -> region_ok ps (RamBuilder.Info p v k)) as Hsmall.
  { intros p v k Hp Hk. unfold region_ok. cbn. destruct (round_up_spec k ps); [lia..|]. unfold ram_size in *. lia. }
  destruct (round_up_spec 1 bs), (round_up_spec 24 bs); [lia..|]. unfold ram_size in *.
  apply Forall_app. split; [|repeat constructor; apply Hsmall; unfold ram_size; lia].
  constructor; [apply Hsmall; lia|]. apply Forall_forall. intros [p v k] Hi.
  apply kernel_region_bounds in Hi as [? Hk]; [|lia..]. cbn [paddr info_len] in *.
  destruct (round_up_spec k bs); [lia..|]. apply Hsmall; lia.
Qed.

(** The tables are in the RAM. *)
Lemma build_room h b devices root bc :
  builder_ok b -> build_4k_page_tables h b devices = Ok (root, bc) -> RamBuilder.next b < len (hv_ram b).
Proof.
  intros (Hr & Hn & _) H. unfold build_4k_page_tables in H. apply bind_Ok in H as ([[tab rt] b1] & Ha & _).
  apply map_err_Ok in Ha. unfold alloc_page_table in Ha. cbv zeta in Ha. apply bind_Ok in Ha as (n & Hx & Ha).
  apply unwrap_or_panic_Ok, checked_next_multiple_of_Some in Hx as (_ & -> & _).
  destruct (round_up_spec (512 * 8) (block_size (hv_ram b))) as [? _]; [apply Hr|].
  apply bind_Ok in Ha as ([] & _ & Ha). apply bind_Ok in Ha as ([g rm] & Ha & _).
  apply alloc_Ok in Ha as (_ & _ & _ & Hle & _); [lia|done|done|lia].
Qed.

(** Every table lies in the RAM behind [lo]. *)
Definition tables_room (lo : Z) (bc : RamBuilder.t * Context4K) : Prop :=
  builder_ok bc.1 /\ lo <= RamBuilder.next bc.1 <= len (hv_ram bc.1) /\
  forall a, is_Some (pdpt bc.2 !! a) \/ is_Some (pdt bc.2 !! a) \/ is_Some (pt bc.2 !! a) ->
    lo <= a /\ a + 4096 <= RamBuilder.next bc.1.

Lemma alloc_page_table_room h b tab a b' :
  builder_ok b -> alloc_page_table h b = Ok (tab, a, b') ->
  builder_ok b' /\ a = RamBuilder.next b /\ len (hv_ram b') = len (hv_ram b) /\
  a + 4096 <= RamBuilder.next b' <= len (hv_ram b').
Proof.
  intros Hb H. pose proof (alloc_page_table_Ok _ _ _ _ _ Hb H) as (_ & -> & _ & _ & _ & Hb' & [Hl _] & _).
  split; [done|]. split; [done|]. split; [done|]. destruct Hb as (Hr & Hn & _). unfold alloc_page_table in H. cbv zeta in H.
  apply bind_Ok in H as (n & Hx & H). apply unwrap_or_panic_Ok, checked_next_multiple_of_Some in Hx as (_ & -> & _).
  destruct (round_up_spec (512 * 8) (block_size (hv_ram b))) as [? _]; [apply Hr|].
  apply bind_Ok in H as ([] & _ & H). apply bind_Ok in H as ([g rm] & Ha & H). apply bind_Ok in H as (nx & Hnx & H).
  apply uadd_Ok in Hnx as [-> _]. injection H as _ <-. cbn [RamBuilder.next hv_ram] in *.
  apply alloc_Ok in Ha as (_ & _ & _ & Hle & _); [|done|done|lia]. lia.
Qed.

Lemma next_table_room h err b tab idx C b' tab' C' c :
  next_table h err b tab idx C = Ok (b', tab', C', c) -> builder_ok b -> RamBuilder.next b <= len (hv_ram b) ->
  builder_ok b' /\ len (hv_ram b') = len (hv_ram b) /\ RamBuilder.next b <= RamBuilder.next b' <= len (hv_ram b') /\
  forall a, is_Some (C' !! a) -> is_Some (C !! a) \/ RamBuilder.next b <= a /\ a + 4096 <= RamBuilder.next b'.
Proof.
  intros H Hb Hn. unfold next_table in H. apply bind_Ok in H as (v & _ & H). destruct (v =? 0).
  - apply bind_Ok in H as ([[child a] b1] & Ha & H). apply map_err_Ok, alloc_page_table_room in Ha as (Hb1 & -> & Hl & Hr); [|done].
    apply bind_Ok in H as (e & _ & H). apply bind_Ok in H as (t' & _ & H). destruct (C !! RamBuilder.next b); [done|]. injection H as <- <- <- <-.
    split; [done|]. split; [done|]. split; [lia|]. intros a [<-|[_ ?]]%lookup_insert_is_Some; [by right; lia|by left].
  - destruct (C !! _); [|done]. injection H as <- <- <- <-. split; [done|]. split; [done|]. split; [lia|]. by left.
Qed.

Lemma descend_room h lo b cx addr b' cx' a1 :
  tables_room lo (b, cx) -> descend h (b, cx) addr = Ok (b', cx', a1) ->
  tables_room lo (b', cx') /\ len (hv_ram b') = len (hv_ram b).
Proof.
  intros (Hb & Hn & Ht) H. cbn [fst snd] in *. unfold descend in H. cbv zeta in H.
  apply bind_Ok in H as ([[[b1 m4] c3] a3] & N4 & H). apply bind_Ok in H as (s3 & L3 & H). apply unwrap_or_panic_Ok in L3.
  apply bind_Ok in H as ([[[b2 t3] c2] a2] & N3 & H). apply bind_Ok in H as (s2 & L2 & H). apply unwrap_or_panic_Ok in L2.
  apply bind_Ok in H as ([[[b3 t2] c1] a1'] & N2 & H). injection H as <- <- <-.
  apply next_table_room in N4 as (Hb1 & Hl1 & Hn1 & H1); [|done|lia].
  apply next_table_room in N3 as (Hb2 & Hl2 & Hn2 & H2); [|done|lia].
  apply next_table_room in N2 as (Hb3 & Hl3 & Hn3 & H3); [|done|lia].
  split; [|congruence]. split; [done|]. cbn [fst snd pdpt pdt pt] in *. split; [lia|]. intros a [Ha|[Ha|Ha]].
  - apply TableTree.insert_same_dom, H1 in Ha as [Ha|Ha]; [apply (or_introl (B := is_Some (pdt cx !! a) \/ is_Some (pt cx !! a))), Ht in Ha| |by eauto]; lia.
  - apply TableTree.insert_same_dom, H2 in Ha as [Ha|Ha]; [specialize (Ht a (or_intror (or_introl Ha)))| |by eauto]; lia.
  - apply H3 in Ha as [Ha|Ha]; [specialize (Ht a (or_intror (or_intror Ha)))|]; lia.
Qed.

Lemma map_pages_room h lo offs : forall bc vaddr paddr bc',
  tables_room lo bc -> map_pages h bc vaddr paddr offs = Ok bc' ->
  tables_room lo bc' /\ len (hv_ram bc'.1) = len (hv_ram bc.1).
Proof.
  induction offs as [|off offs IH]; intros [b cx] vaddr paddr bc' Hr H; cbn [map_pages] in H; [by injection H as <-|].
  apply bind_Ok in H as (bc1 & Hp & H). unfold map_page in Hp. apply bind_Ok in Hp as (addr & _ & Hp).
  apply bind_Ok in Hp as ([[b1 cx1] a1] & Hd & Hp). apply bind_Ok in Hp as (pa & _ & Hp). apply bind_Ok in Hp as (t1 & Ht1 & Hp).
  apply unwrap_or_panic_Ok in Ht1. apply bind_Ok in Hp as (v & _ & Hp). apply bind_Ok in Hp as ([] & _ & Hp).
  apply bind_Ok in Hp as (e & _ & Hp). apply bind_Ok in Hp as (t1' & _ & Hp). injection Hp as <-.
  apply (descend_room _ lo) in Hd as [(Hb & Hn & Ht) Hl]; [|done]. cbn [fst snd] in *. apply IH in H as [Hr' Hl'].
  - split; [done|]. cbn [fst] in *. congruence.
  - split; [done|]. split; [done|]. cbn [fst snd pdpt pdt pt]. intros a Ha. apply Ht.
    destruct Ha as [?|[?|Ha]]; [by left|by right; left|]. right; right. eapply TableTree.insert_same_dom; [|done]. by eauto.
Qed.
Lemma setup_room h lo bc vaddr paddr n bc' :
  tables_room lo bc -> setup_4k_page_tables h bc vaddr paddr n = Ok bc' ->
  tables_room lo bc' /\ len (hv_ram bc'.1) = len (hv_ram bc.1).
Proof.
  intros Hr H. unfold setup_4k_page_tables in H. do 3 (apply bind_Ok in H as ([] & _ & H)). by eapply map_pages_room.
Qed.
Lemma map_allocs_room h lo ps infos : forall bc bc',
  tables_room lo bc -> map_allocs h ps bc infos = Ok bc' -> tables_room lo bc' /\ len (hv_ram bc'.1) = len (hv_ram bc.1).
Proof.
  induction infos as [|i infos IH]; intros bc bc' Hr H; cbn [map_allocs] in H; [by injection H as <-|].
  apply bind_Ok in H as (n & _ & H). apply bind_Ok in H as (bc1 & Hs & H). eapply setup_room in Hs as [Hr1 Hl1]; [|done].
  apply IH in H as [Hr2 Hl2]; [|done]. split; [done|congruence].
Qed.
Lemma map_devices_room h lo ps devs : forall bc bc',
  tables_room lo bc -> map_devices h ps bc devs = Ok bc' -> tables_room lo bc' /\ len (hv_ram bc'.1) = len (hv_ram bc.1).
Proof.
  induction devs as [|d devs IH]; intros bc bc' Hr H; cbn [map_devices] in H; [by injection H as <-|].
  apply bind_Ok in H as (n & _ & H). apply bind_Ok in H as ([] & _ & H). apply bind_Ok in H as (bc1 & Hs & H).
  eapply setup_room in Hs as [Hr1 Hl1]; [|done]. apply IH in H as [Hr2 Hl2]; [|done]. split; [done|congruence].
Qed.

(** All the tables that are left in the memory of the guest. *)
Lemma build_tables_room h b devices root b' cx a :
  builder_ok b -> build_4k_page_tables h b devices = Ok (root, (b', cx)) -> is_Some (guest_tables root cx !! a) ->
  RamBuilder.next b <= a /\ a + 4096 <= len (hv_ram b).
Proof.
  intros Hb H Ha. unfold build_4k_page_tables in H. apply bind_Ok in H as ([[tab rt] b1] & Hal & H). apply map_err_Ok in Hal.
  apply alloc_page_table_room in Hal as (Hb1 & -> & Hl1 & Hn1); [|done]. cbv zeta in H.
  apply bind_Ok in H as (bc1 & H1 & H). apply bind_Ok in H as (bc2 & H2 & H). injection H as <- ->.
  apply (map_allocs_room _ (RamBuilder.next b)) in H1 as [R1 Hl2].
  2:{ destruct Hb1 as (? & ? & ?). split; [done|]. cbn [fst snd pdpt pdt pt RamBuilder.next hv_ram]. split; [lia|].
      intros x [Hx|[Hx|Hx]]; rewrite lookup_empty in Hx; by destruct Hx. }
  apply (map_devices_room _ (RamBuilder.next b)) in H2 as [(_ & Hn & Ht) Hl3]; [|done]. cbn [fst snd hv_ram] in *.
  unfold guest_tables in Ha. apply lookup_insert_is_Some in Ha as [<-|[_ Ha]]; [lia|].
  rewrite !lookup_union_is_Some in Ha. assert (RamBuilder.next b <= a /\ a + 4096 <= RamBuilder.next b') by (apply Ht; tauto). lia.
Qed.

(** The page-map level-4 table is acceptable for CR3. *)
Lemma cr3_mask root : root mod 4096 = 0 -> 0 <= root < 2 ^ 52 -> Z.land root 0xFFF0000000000FFF = 0.
Proof.
  intros Hm Hr. change 0xFFF0000000000FFF with (Z.lor (Z.ones 12) (Z.shiftl (Z.ones 12) 52)).
  rewrite Z.land_lor_distr_r, Z.land_ones by lia. change (2 ^ 12) with 4096. rewrite Hm, Z.lor_0_l.
  apply Z.bits_inj'. intros i Hi. rewrite Z.land_spec, Z.bits_0. destruct (Z.lt_ge_cases i 52).
  - rewrite Z.shiftl_spec_low by lia. apply andb_false_r.
  - rewrite (Z.bits_above_log2 root); [done|lia|]. destruct (decide (root = 0)) as [->|]; [cbn; lia|].
    apply Z.log2_lt_pow2; [lia|]. eapply Z.lt_le_trans; [apply Hr|]. apply Z.pow_le_mono_r; lia.
Qed.

(** ** Properties *)

(** C6: the memory of the kernel is its image.  When the virtual machine is
    ready, the segments of the image are disjoint and as large as the kernel,
    every segment lies at its address with the bytes of the file, all other
    memory of the kernel was zero, and what is left in memory is the result of
    the relocation of that image to the virtual address of the kernel. *)
Theorem kernel_loaded m f v :
  Forall is_byte (content f) -> vmm_build m (inr f) = Ok v ->
  exists img segs dyn nt kern0 kern,
    Kernel.open (inr f) = Ok img /\ parse_headers img = Ok (segs, dyn, nt)
    /\ StronglySorted before segs /\ kern_len (v_map v) = max_end segs
    /\ kern_len (v_map v) <= Z.of_nat (length kern0)
    /\ Forall (fun s => slice kern0 (p_vaddr s) (p_filesz s) = file_bytes img s) segs
    /\ (forall i, (i < length kern0)%nat -> Forall (fun s => ~ in_segment s (Z.of_nat i)) segs -> kern0 !! i = Some 0)
    /\ relocate_kernel kern_vaddr0 dyn (take (Z.to_nat (kern_len (v_map v))) kern0) = Ok kern
    /\ v_kern v = overwrite kern0 0 kern /\ v_start v = kern_vaddr0 + entry img.
Proof.
  intros Hf H. destruct (vmm_build_Ok _ _ _ Hf H) as (img & segs & dyn & r & l & n & ps & b & Hbo).
  destruct (bo_segs _ _ _ _ _ _ _ _ _ _ _ Hbo) as (Hs & Hk & Hn).
  destruct (hv_new_Ok _ _ _ (bo_ram _ _ _ _ _ _ _ _ _ _ _ Hbo)) as (Hok & _).
  destruct (bo_headers _ _ _ _ _ _ _ _ _ _ _ Hbo) as [nt Hh]. destruct (bo_kern _ _ _ _ _ _ _ _ _ _ _ Hbo) as (kern & Hre & Hv).
  rewrite (bo_map _ _ _ _ _ _ _ _ _ _ _ Hbo). cbn [kern_len]. exists img, segs, dyn, nt, (l_kern l), kern.
  split; [apply Hbo|]. split; [done|].
  apply kernel_len_iff in Hk as (Hss & _ & Hmax & _); [|eapply Forall_impl; [exact Hs|]; unfold segment_ok; intros; lia].
  split; [done|]. split; [done|]. pose proof (lo_kern _ _ _ _ _ _ (bo_layout _ _ _ _ _ _ _ _ _ _ _ Hbo)) as Hl. cbv zeta in Hl.
  destruct (round_up_spec n (block_size r)) as [Hru _]; [apply Hok|].
  apply load_segments_Ok in Hl as (Hlen & Hsl & Hrest); [|eapply Forall_impl; [exact Hs|]; unfold segment_ok; intros; lia|done|rewrite length_replicate; cbn; lia].
  rewrite length_replicate in Hlen. split; [lia|]. split; [done|]. split; [|split; [done|split; [done|apply Hbo]]].
  intros i Hi Hout. rewrite Hrest by done. apply lookup_replicate_2. lia.
Qed.

Definition demo_machine : machine := Machine RamProps.demo_host (inr tt) (inr tt) CpuHost.

Lemma demo_build : exists v, vmm_build demo_machine (inr demo_file) = Ok v.
Proof.
  assert (is_ok (vmm_build demo_machine (inr demo_file)) = true) as H by (vm_compute; reflexivity).
  destruct (vmm_build demo_machine (inr demo_file)) as [v| |]; [by exists v|discriminate H..].
Qed.

Lemma kernel_loaded_witness :
  exists v img, vmm_build demo_machine (inr demo_file) = Ok v /\ Kernel.open (inr demo_file) = Ok img
  /\ v_start v = kern_vaddr0 + entry img.
Proof.
  destruct demo_build as [v H].
  destruct (kernel_loaded demo_machine demo_file v) as (img & segs & dyn & nt & kern0 & kern & Ho & _ & _ & _ & _ & _ & _ & _ & _ & Hs);
    [exact demo_bytes_ok|exact H|].
  exists v, img. split; [exact H|]. split; [exact Ho|exact Hs].
Defined.

(** C3: the processor sees the machine as it was laid out.  When the virtual
    machine is ready, the main CPU can be set up with the page tables in CR3,
    and the page walk maps a virtual address exactly when it is in the boot
    memory or a device, each at its own address, or in the kernel, its map,
    the boot environment, the configuration or the stack, which lie one after
    the other behind the virtual address of the kernel; the CPU starts in long
    mode at the entry point with their addresses and the end of the stack in
    registers, unless the hypervisor does not take the registers. *)
Theorem boot_mapping m f v :
  Forall is_byte (content f) -> vmm_build m (inr f) = Ok v ->
  exists r ps, hv_new m ps = Ok r
  /\ (let bs := block_size r in
      let map := v_map v in
      let root := page_table map in
      (forall va pa, walk (guest_tables root (v_tables v)) root va = Some pa
         <-> exists i off, i ∈ boot_regions bs ps (kern_len map) ++ device_regions bs
               /\ 0 <= off < round_up (info_len i) ps
               /\ (vaddr i + off) mod 2 ^ 48 = va mod 2 ^ 48 /\ pa = paddr i + off)
      /\ vaddr <$> kernel_regions bs ps (kern_len map)
         = [kern_vaddr map; map_vaddr map; env_vaddr map; conf_vaddr map; stack_vaddr map]
      /\ forall commit, setup_main_cpu (inr tt) commit (v_start v) map
         = match commit with
           | inl e => Err (CommitCpuStatesFailed e)
           | inr _ => Ok (Cpu root 0x20 0x500 0x80000001 (Cs 8 0 true true false) true true true true true
                        (map_vaddr map) (env_vaddr map) (conf_vaddr map)
                        (stack_vaddr map + round_up (1024 * 1024) bs) (v_start v) 0x200002)
           end).
Proof.
  intros Hf H. destruct (vmm_build_Ok _ _ _ Hf H) as (img & segs & dyn & r & l & n & ps & b & Hbo).
  destruct (bo_segs _ _ _ _ _ _ _ _ _ _ _ Hbo) as (_ & _ & Hn). exists r, ps. split; [apply Hbo|]. cbv zeta.
  destruct (hv_new_Ok _ _ _ (bo_ram _ _ _ _ _ _ _ _ _ _ _ Hbo)) as (Hok & Hlen & Hps & _ & Hbs & _ & Hpos).
  destruct (bo_layout _ _ _ _ _ _ _ _ _ _ _ Hbo) as [Hbu Hroom _ _ _ Hva Hst Hse _].
  apply (drop_built _ _ (l_env l).2) in Hbu as [Hb Hsh Hal Hnx]. rewrite Hlen in Hroom.
  destruct (same_shape_sizes _ _ Hsh) as (_ & Hps' & _). rewrite Hps in Hps'.
  pose proof (bo_tables _ _ _ _ _ _ _ _ _ _ _ Hbo) as Ht. rewrite (bo_map _ _ _ _ _ _ _ _ _ _ _ Hbo).
  cbn [kern_len kern_vaddr map_vaddr env_vaddr conf_vaddr stack_vaddr page_table].
  split; [|split; [exact Hva|]].
  - intros va pa. assert (Forall (region_ok ps) (boot_regions (block_size r) ps n ++ device_regions (block_size r))) as Hrg
      by (apply regions_ok; [done|lia..]).
    rewrite <- Hal, <- Hps' in Hrg. pose proof (walk_regions _ _ _ _ _ _ va pa Hb Hrg Ht) as Hw.
    rewrite Hps', Hal in Hw. exact Hw.
  - pose proof Ht as Hroot. apply build_root in Hroot. intros commit. unfold setup_main_cpu.
    cbn [page_table stack_vaddr stack_len map_vaddr env_vaddr conf_vaddr]. destruct Hb as (_ & H0 & _).
    assert (page_table (v_map v) mod 4096 = 0) as Hmod.
    { unfold build_4k_page_tables in Ht. apply bind_Ok in Ht as ([[tab root] b1] & Ha & Ht). apply map_err_Ok in Ha.
      unfold alloc_page_table in Ha. apply bind_Ok in Ha as (k & _ & Ha). apply bind_Ok in Ha as ([] & Hm & _).
      apply assert_that_Ok, Z.eqb_eq in Hm. by rewrite Hroot. }
    rewrite cr3_mask; [|done|rewrite Hroot, Hnx; destruct (boot_len_le (block_size r) n); unfold ram_size in *; lia].
    cbn [Z.eqb assert_that mbind outcome_bind]. rewrite Hst in *.
    by rewrite (proj2 (checked_add_Some _ _ ((l_stack l).1 + round_up (1024 * 1024) (block_size r)))).
Qed.

Lemma boot_mapping_witness :
  exists v, vmm_build demo_machine (inr demo_file) = Ok v
  /\ walk (guest_tables (page_table (v_map v)) (v_tables v)) (page_table (v_map v)) 0x200000000 = Some 0x200000000.
Proof.
  destruct demo_build as [v H].
  destruct (boot_mapping demo_machine demo_file v) as (r & ps & Hr & Hw & _);
    [exact demo_bytes_ok|exact H|].
  exists v. split; [exact H|]. apply Hw. exists (RamBuilder.Info ram_size ram_size (round_up 1 (block_size r))), 0.
  destruct (hv_new_Ok _ _ _ Hr) as (_ & _ & _ & _ & Hbs & _ & Hps).
  destruct (round_up_spec 1 (block_size r)); [lia|]. cbn [info_len vaddr paddr].
  destruct (round_up_spec (round_up 1 (block_size r)) ps); [lia|]. split; [|split; [lia|split; reflexivity]].
  apply elem_of_app. right. left.
Defined.

(** C22: the memory map that the kernel is given covers the RAM with three
    entries one after the other: the boot memory, the reserved memory that
    holds the kernel and everything it is given, and free memory.  The page
    tables are allocated after the map was made: the level-4 table that CR3
    points to is the first page of what the map calls free memory, and all
    the other tables lie in that memory too. *)
Theorem boot_memory_map m f v :
  Forall is_byte (content f) -> vmm_build m (inr f) = Ok v ->
  exists r ps lo hi, hv_new m ps = Ok r /\ 0 < lo <= hi /\ hi < ram_size
  /\ memory_map (v_env v) = [PMap 0 lo MRam; PMap lo (hi - lo) MReserved; PMap hi (ram_size - hi) MRam]
       ++ replicate 61 (PMap 0 0 MNone)
  /\ Forall (fun i => lo <= paddr i /\ paddr i + round_up (info_len i) (block_size r) <= hi)
       (kernel_regions (block_size r) ps (kern_len (v_map v)))
  /\ page_table (v_map v) = hi
  /\ forall a, is_Some (guest_tables (page_table (v_map v)) (v_tables v) !! a) -> hi <= a /\ a + 4096 <= ram_size.
Proof.
  intros Hf H. destruct (vmm_build_Ok _ _ _ Hf H) as (img & segs & dyn & r & l & n & ps & b & Hbo).
  destruct (bo_segs _ _ _ _ _ _ _ _ _ _ _ Hbo) as (_ & _ & Hn).
  exists r, ps, (boot_len (block_size r)), (reserved_end (block_size r) n). split; [apply Hbo|].
  destruct (hv_new_Ok _ _ _ (bo_ram _ _ _ _ _ _ _ _ _ _ _ Hbo)) as (Hok & Hlen & _ & _ & Hbs & _).
  destruct (bo_layout _ _ _ _ _ _ _ _ _ _ _ Hbo) as [Hbu Hroom Hbl _ _ _ _ _ _]. pose proof (bu_next _ _ _ _ Hbu) as Hnx.
  pose proof (bo_tables _ _ _ _ _ _ _ _ _ _ _ Hbo) as Ht. pose proof (build_root _ _ _ _ _ Ht) as Hroot.
  apply (drop_built _ _ (l_env l).2) in Hbu as [Hb Hsh _ Hnx'].
  split; [apply boot_len_le; lia|]. rewrite (bo_map _ _ _ _ _ _ _ _ _ _ _ Hbo). cbn [kern_len page_table].
  rewrite Hroot, Hnx'. destruct (bo_env _ _ _ _ _ _ _ _ _ _ _ Hbo) as [_ Hm]. rewrite Hbl, Hnx in Hm.
  unfold boot_map in Hm. apply bind_Ok in Hm as (x & Hx & Hm). apply bind_Ok in Hm as (y & Hy & Hm).
  apply usub_Ok in Hx as [-> _]. apply usub_Ok in Hy as [-> _]. injection Hm as <-. split; [|split; [done|split; [|split; [done|]]]].
  - apply build_room in Ht; [|done]. destruct (same_shape_sizes _ _ Hsh) as (_ & _ & Hl). by rewrite Hnx', Hl, Hlen in Ht.
  - apply Forall_forall. intros i Hi. apply kernel_region_bounds in Hi; [done|lia..].
  - intros a Ha. rewrite <- Hnx', <- Hroot in Ha. apply (build_tables_room _ _ _ _ _ _ a) in Ht; [|done|done].
    destruct (same_shape_sizes _ _ Hsh) as (_ & _ & Hl). by rewrite Hnx', Hl, Hlen in Ht.
Qed.

Lemma boot_memory_map_witness :
  exists v hi, vmm_build demo_machine (inr demo_file) = Ok v
  /\ memory_map (v_env v) !! 2%nat = Some (PMap hi (ram_size - hi) MRam) /\ page_table (v_map v) = hi.
Proof.
  destruct demo_build as [v H].
  destruct (boot_memory_map demo_machine demo_file v) as (r & ps & lo & hi & _ & _ & _ & Hm & _ & Hp & _);
    [exact demo_bytes_ok|exact H|].
  exists v, hi. split; [exact H|]. split; [rewrite Hm; reflexivity|exact Hp].
Defined.

End BootProps.
