(* ===== verification/Gdb.v ===== *)
(** * The GDB server

    Models [gui/src/gdb]: a session of the remote protocol of GDB as a state
    machine over the bytes that the client sends, and the loop of
    [gui/src/main.rs] that drives it.  The two hexadecimal digits of a
    checksum are written and read by the [hex] crate, which is a parameter.
    The writes of responses to the client succeed. *)
From S2P Require Import Prelude Env.

Module Gdb.
Import Env.
Local Open Scope string_scope.
Local Open Scope list_scope.
Local Open Scope Z_scope.

(** ** Data *)

Inductive GdbError :=
  | UnknownPacketPrefix (v : Z)
  | UnexpectedAck
  | MissingAck
  | DecodeChecksum (data : list Z)
  | InvalidChecksum (checksum expect : Z).

(** [no_ack] is [None] in acknowledgment mode, [Some false] while the client
    has to acknowledge the end of it, and [Some true] afterwards. *)
Record SessionState := St { no_ack : option bool; thread_suffix_supported : bool }.

(** [GdbSession]; [res] is empty between two calls of [pump] and is the result
    of [pump] here. *)
Record GdbSession := Sess { req : list Z; state : SessionState }.

Definition session_default : GdbSession := Sess [] (St None false).

(** ** Bytes *)

Definition byte_plus : Z := 43.
Definition byte_minus : Z := 45.
Definition byte_dollar : Z := 36.
Definition byte_hash : Z := 35.
Definition byte_colon : Z := 58.
Definition byte_semicolon : Z := 59.

(** [strip_prefix]. *)
Fixpoint strip_prefix (p l : list Z) : option (list Z) :=
  match p, l with
  | [], _ => Some l
  | b :: p, c :: l => if b =? c then strip_prefix p l else None
  | _ :: _, [] => None
  end.

(** [split] at a byte. *)
Fixpoint split_at (sep : Z) (l : list Z) : list (list Z) :=
  match l with
  | [] => [[]]
  | b :: l =>
      if b =? sep then [] :: split_at sep l
      else match split_at sep l with
           | [] => [[b]]
           | p :: ps => (b :: p) :: ps
           end
  end.

(** The index of the first number sign. *)
Definition position_hash (l : list Z) : option nat := fst <$> list_find (fun b => b = byte_hash) l.

(** ** Commands ([gdb/state.rs]) *)

Definition parse_start_no_ack_mode (st : SessionState) : list Z * SessionState :=
  (bytes_of "OK", St (Some false) (thread_suffix_supported st)).

Definition parse_ack_no_ack (st : SessionState) : SessionState :=
  St (Some true) (thread_suffix_supported st).

(** What one feature of the client adds to the response (on x86-64). *)
Definition feature (feat : list Z) : outcome GdbError (list Z) :=
  if bool_decide (is_Some (strip_prefix (bytes_of "xmlRegisters=") feat)) then Ok (bytes_of ";xmlRegisters=i386")
  else if bool_decide (is_Some (strip_prefix (bytes_of "multiprocess") feat)) then Ok []
  else if bool_decide (is_Some (strip_prefix (bytes_of "fork-events") feat)) then Ok []
  else if bool_decide (is_Some (strip_prefix (bytes_of "vfork-events") feat)) then Ok []
  else match strip_prefix (bytes_of "swbreak") feat with
  | Some v => Ok (if bool_decide (v = [byte_plus]) then bytes_of ";swbreak+" else [])
  | None =>
      if bool_decide (is_Some (strip_prefix (bytes_of "hwbreak") feat)) then Ok []
      else Panic PTodo
  end.

Fixpoint features (feats : list (list Z)) : outcome GdbError (list Z) :=
  match feats with
  | [] => Ok []
  | f :: feats =>
      r ← feature f;
      rs ← features feats;
      Ok (r ++ rs)
  end.

Definition parse_supported (data : list Z) : outcome GdbError (list Z) :=
  let res := bytes_of "QStartNoAckMode+" in
  match strip_prefix [byte_colon] data with
  | None => Ok res
  | Some feats =>
      rs ← features (split_at byte_semicolon feats);
      Ok (res ++ rs)
  end.

Definition parse_thread_suffix_supported (st : SessionState) : list Z * SessionState :=
  (bytes_of "OK", St (no_ack st) true).

(** The payload of the response to a command. *)
Definition execute (st : SessionState) (data : list Z) : outcome GdbError (list Z * SessionState) :=
  if bool_decide (data = bytes_of "QStartNoAckMode") then Ok (parse_start_no_ack_mode st)
  else match strip_prefix (bytes_of "qSupported") data with
  | Some data => r ← parse_supported data; Ok (r, st)
  | None =>
      if bool_decide (data = bytes_of "QThreadSuffixSupported") then Ok (parse_thread_suffix_supported st)
      else Panic PTodo
  end.

(** ** Packets ([gdb/client.rs]) *)

Definition get_checksum (data : list Z) : Z := foldl (fun r b => (r + b) mod 256) 0 data.

Section hex.
(** [hex::decode_to_slice] and [hex::encode_to_slice] of one byte. *)
Context (hex_decode : list Z -> option Z) (hex_encode : Z -> list Z).

(** An invalid packet: an error, or a request to send it again. *)
Definition bad_packet (st : SessionState) (e : GdbError) : outcome GdbError (list Z) :=
  match no_ack st with
  | Some true => Err e
  | Some false => Err MissingAck
  | None => Ok [byte_minus]
  end.

(** The prefix of a response. *)
Definition response_prefix (st : SessionState) : outcome GdbError (list Z) :=
  match no_ack st with
  | Some true => Ok []
  | Some false => Err MissingAck
  | None => Ok [byte_plus]
  end.

(** A complete packet: its data and its checksum. *)
Definition handle_packet (st : SessionState) (data digits : list Z) : outcome GdbError (list Z * SessionState) :=
  match hex_decode digits with
  | None => r ← bad_packet st (DecodeChecksum digits); Ok (r, st)
  | Some checksum =>
      let expect := get_checksum data in
      if negb (checksum =? expect) then r ← bad_packet st (InvalidChecksum checksum expect); Ok (r, st)
      else
        pre ← response_prefix st;
        '(payload, st) ← execute st data;
        Ok (pre ++ [byte_dollar] ++ payload ++ [byte_hash] ++ hex_encode (get_checksum payload), st)
  end.

(** [ClientDispatcher::pump]: the response, [None] when more bytes are
    needed. *)
Definition pump (s : GdbSession) : outcome GdbError (option (list Z) * GdbSession) :=
  match req s with
  | [] => Ok (None, s)
  | b :: rest =>
      if b =? byte_dollar then
        match position_hash (req s) with
        | Some i =>
            if (i + 3 <=? length (req s))%nat then
              '(res, st) ← handle_packet (state s) (take (i - 1) rest) (take 2 (drop (i + 1) (req s)));
              Ok (Some res, Sess (drop (i + 3) (req s)) st)
            else Ok (None, s)
        | None => Ok (None, s)
        end
      else if b =? byte_plus then
        st ← match no_ack (state s) with
             | Some true => Err UnexpectedAck
             | Some false => Ok (parse_ack_no_ack (state s))
             | None => Ok (state s)
             end;
        Ok (Some [], Sess rest st)
      else Err (UnknownPacketPrefix b)
  end.

(** The loop of [dispatch_gdb]: the bytes that are written to the client, which
    are written before the next packet is looked at, and how the loop ends. *)
Fixpoint pump_all (fuel : nat) (s : GdbSession) : list Z * outcome GdbError GdbSession :=
  match fuel with
  | O => ([], Panic PUnreachable)
  | S fuel =>
      match pump s with
      | Err e => ([], Err e)
      | Panic p => ([], Panic p)
      | Ok (None, s) => ([], Ok s)
      | Ok (Some res, s) => let '(out, r) := pump_all fuel s in (res ++ out, r)
      end
  end.

(** [dispatch_gdb] for the bytes of one read. *)
Definition dispatch_client (s : GdbSession) (data : list Z) : list Z * outcome GdbError GdbSession :=
  let s := Sess (req s ++ data) (state s) in
  pump_all (S (length (req s))) s.

End hex.

End Gdb.
