(* ===== verification/GdbProps.v ===== *)
(** * Properties of the GDB server

    The session does not depend on how the network splits the bytes of the
    client, and it answers packets with packets. *)
From S2P Require Import Prelude Env Gdb.

Module GdbProps.
Import Env Gdb.
Local Open Scope string_scope.
Local Open Scope list_scope.
Local Open Scope Z_scope.

Definition extend (s : GdbSession) (d : list Z) : GdbSession := Sess (req s ++ d) (state s).

(** ** The position of the checksum *)

Lemma position_hash_Some l i :
  position_hash l = Some i <-> l !! i = Some byte_hash /\ forall j y, l !! j = Some y -> (j < i)%nat -> y <> byte_hash.
Proof.
  unfold position_hash. rewrite fmap_Some. split.
  - intros ([i' y] & H & ->). apply list_find_Some in H as (H1 & -> & H2). split; [done|exact H2].
  - intros [H1 H2]. exists (i, byte_hash). split; [|done]. apply list_find_Some. done.
Qed.

Lemma position_hash_app l d i : position_hash l = Some i -> position_hash (l ++ d) = Some i.
Proof.
  rewrite !position_hash_Some. intros [H1 H2]. pose proof (lookup_lt_Some _ _ _ H1).
  split; [by rewrite lookup_app_l|]. intros j y Hj Hlt. apply (H2 j y); [|done]. by rewrite lookup_app_l in Hj by lia.
Qed.

(** ** One step *)

Section hex.
Context (hex_decode : list Z -> option Z) (hex_encode : Z -> list Z).
Abbreviation pump := (pump hex_decode hex_encode).
Abbreviation pump_all := (pump_all hex_decode hex_encode).
Abbreviation dispatch_client := (dispatch_client hex_decode hex_encode).

Lemma pump_None s s' : pump s = Ok (None, s') -> s' = s.
Proof.
  unfold Gdb.pump. destruct (req s) as [|b rest]; [by intros [= <-]|]. destruct (b =? byte_dollar).
  - destruct (position_hash _) as [i|]; [|by intros [= <-]]. destruct (_ <=? _)%nat; [|by intros [= <-]].
    intros H. apply bind_Ok in H as ([r st] & _ & H). discriminate H.
  - destruct (b =? byte_plus); [|done]. intros H. apply bind_Ok in H as (st & _ & H). discriminate H.
Qed.

Lemma pump_shorter s r s' : pump s = Ok (Some r, s') -> (length (req s') < length (req s))%nat.
Proof.
  unfold Gdb.pump. destruct (req s) as [|b rest] eqn:Hq; [done|]. destruct (b =? byte_dollar).
  - destruct (position_hash _) as [i|]; [|done]. destruct (Nat.leb_spec (i + 3) (length (b :: rest))); [|done].
    intros H1. apply bind_Ok in H1 as ([r' st] & _ & H1). injection H1 as _ <-. cbn [req]. rewrite length_drop. lia.
  - destruct (b =? byte_plus); [|done]. intros H1. apply bind_Ok in H1 as (st & _ & H1). injection H1 as _ <-. cbn. lia.
Qed.

(** More bytes do not change a step that was possible without them. *)
Lemma pump_extend s d :
  match pump s with
  | Ok (Some r, s') => pump (extend s d) = Ok (Some r, extend s' d)
  | Ok (None, _) => True
  | Err e => pump (extend s d) = Err e
  | Panic p => pump (extend s d) = Panic p
  end.
Proof.
  unfold Gdb.pump, extend. cbn [req state]. destruct (req s) as [|b rest] eqn:Hq; [done|]. cbn [app].
  destruct (b =? byte_dollar).
  - destruct (position_hash (b :: rest)) as [i|] eqn:Hi; [|done].
    destruct (Nat.leb_spec (i + 3) (length (b :: rest))) as [Hl|]; [|done].
    change (b :: rest ++ d) with ((b :: rest) ++ d). rewrite (position_hash_app _ d i Hi).
    rewrite (proj2 (Nat.leb_le _ _)) by (rewrite length_app; lia).
    rewrite take_app_le by (cbn in Hl; lia). rewrite !drop_app_le by lia. rewrite take_app_le by (rewrite length_drop; lia).
    by destruct (handle_packet _ _ _ _ _) as [[r st]|e|p].
  - destruct (b =? byte_plus); [|done]. by destruct (no_ack (state s)) as [[]|].
Qed.

(** ** The loop *)

(** What is written by one part of a connection and the next, which a failure
    of the first one prevents. *)
Definition and_then (r : list Z * outcome GdbError GdbSession) (f : GdbSession -> list Z * outcome GdbError GdbSession)
    : list Z * outcome GdbError GdbSession :=
  match r with
  | (o, Ok s) => let '(o', r') := f s in (o ++ o', r')
  | _ => r
  end.
Lemma and_then_app o r f : and_then (let '(o', r') := r in (o ++ o', r')) f = let '(o', r') := and_then r f in (o ++ o', r').
Proof. destruct r as [o1 [s|e|p]]; cbn; [|done..]. destruct (f s) as [o2 r2]. by rewrite app_assoc. Qed.

Lemma pump_all_fuel fuel fuel' s :
  (length (req s) < fuel)%nat -> (length (req s) < fuel')%nat -> pump_all fuel s = pump_all fuel' s.
Proof.
  revert fuel' s. induction fuel as [|fuel IH]; intros [|fuel'] s H H'; [lia..|]. cbn [Gdb.pump_all].
  destruct (pump s) as [[[r|] s']|e|p] eqn:Hp; [|done..].
  apply pump_shorter in Hp. by rewrite (IH fuel') by lia.
Qed.

Lemma pump_all_S fuel s :
  pump_all (S fuel) s =
    match pump s with
    | Err e => ([], Err e)
    | Panic p => ([], Panic p)
    | Ok (None, s) => ([], Ok s)
    | Ok (Some res, s) => let '(out, r) := pump_all fuel s in (res ++ out, r)
    end.
Proof. done. Qed.

(** Pumping after more bytes have arrived, and before. *)
Lemma pump_all_extend fuel s d fuel' :
  (length (req s) < fuel)%nat -> (length (req s) + length d < fuel')%nat ->
  pump_all fuel' (extend s d) = and_then (pump_all fuel s) (fun s1 => pump_all (S (length (req s1 ++ d))) (extend s1 d)).
Proof.
  revert s fuel'. induction fuel as [|fuel IH]; intros s fuel' Hf Hf'; [lia|]. destruct fuel' as [|fuel']; [lia|].
  rewrite (pump_all_S fuel' (extend s d)), (pump_all_S fuel s). pose proof (pump_extend s d) as He.
  destruct (pump s) as [[[r|] s']|e|p] eqn:Hp.
  - rewrite He. apply pump_shorter in Hp. rewrite (IH s' fuel') by lia. by rewrite and_then_app.
  - apply pump_None in Hp as ->. cbn [and_then app].
    rewrite <-(pump_all_S fuel' (extend s d)), (pump_all_fuel (S fuel') (S (length (req s ++ d)))) by (cbn; rewrite ?length_app; lia).
    by destruct (pump_all (S (length (req s ++ d))) (extend s d)).
  - by rewrite He.
  - by rewrite He.
Qed.

Lemma dispatch_app s d1 d2 : dispatch_client s (d1 ++ d2) = and_then (dispatch_client s d1) (fun s1 => dispatch_client s1 d2).
Proof.
  unfold Gdb.dispatch_client. cbn [req state].
  pose proof (pump_all_extend (S (length (req s ++ d1))) (extend s d1) d2 (S (length (req s ++ d1 ++ d2)))) as H.
  unfold extend in *. cbn [req state] in H. rewrite <- app_assoc in H. apply H; rewrite ?length_app; lia.
Qed.

(** The chunks of a connection one after the other. *)
Fixpoint dispatch_chunks (s : GdbSession) (chunks : list (list Z)) : list Z * outcome GdbError GdbSession :=
  match chunks with
  | [] => ([], Ok s)
  | d :: chunks => and_then (dispatch_client s d) (fun s => dispatch_chunks s chunks)
  end.

(** The fuel is enough. *)
Lemma features_total feats : features feats <> Panic PUnreachable.
Proof.
  induction feats as [|f feats IH]; [done|]. cbn [features]. destruct (feature f) as [r|e|p] eqn:Hr; cbn [mbind outcome_bind].
  - destruct (features feats); cbn; congruence.
  - done.
  - unfold feature in Hr. repeat (case_match; try congruence).
Qed.

Lemma handle_packet_total st data digits : handle_packet hex_decode hex_encode st data digits <> Panic PUnreachable.
Proof.
  unfold handle_packet, bad_packet, response_prefix. destruct (hex_decode digits) as [c|]; [|by destruct (no_ack st) as [[]|]].
  destruct (negb _); [by destruct (no_ack st) as [[]|]|]. destruct (no_ack st) as [[]|] eqn:Hn; [|done|];
    cbn [mbind outcome_bind]; unfold execute; destruct (bool_decide _); try done;
    (destruct (strip_prefix _ data) as [d|]; [|by destruct (bool_decide _)]);
    unfold parse_supported; (destruct (strip_prefix _ d) as [l|]; [|done]);
    pose proof (features_total (split_at byte_semicolon l)); destruct (features (split_at byte_semicolon l)); cbn; congruence.
Qed.

Lemma pump_all_total fuel s : (length (req s) < fuel)%nat -> snd (pump_all fuel s) <> Panic PUnreachable.
Proof.
  revert s. induction fuel as [|fuel IH]; intros s H; [lia|]. cbn [Gdb.pump_all].
  destruct (pump s) as [[[r|] s']|e|p] eqn:Hp; [|done|done|].
  - apply pump_shorter in Hp. specialize (IH s' ltac:(lia)). by destruct (pump_all fuel s').
  - unfold Gdb.pump in Hp. destruct (req s) as [|b rest]; [done|]. destruct (b =? byte_dollar).
    + destruct (position_hash _) as [i|]; [|done]. destruct (_ <=? _)%nat; [|done].
      pose proof (handle_packet_total (state s) (take (i - 1) rest) (take 2 (drop (i + 1) (b :: rest)))) as Ht.
      destruct (handle_packet _ _ _ _ _) as [[]| |q]; [done..|]. injection Hp as <-. intros [= ->]. by apply Ht.
    + destruct (b =? byte_plus); [|done]. by destruct (no_ack (state s)) as [[]|].
Qed.

(** A dispatch leaves nothing to do. *)
Lemma pump_all_settled fuel s o s' : pump_all fuel s = (o, Ok s') -> pump s' = Ok (None, s').
Proof.
  revert s o. induction fuel as [|fuel IH]; intros s o H; [done|]. cbn [Gdb.pump_all] in H.
  destruct (pump s) as [[[r|] s1]|e|p] eqn:Hp; [|injection H as _ <-; by pose proof (pump_None _ _ Hp) as ->|done..].
  destruct (pump_all fuel s1) as [o1 r1] eqn:H1. injection H as _ ->. by eapply IH.
Qed.

Lemma dispatch_settled s : pump s = Ok (None, s) -> dispatch_client s [] = ([], Ok s).
Proof.
  intros H. unfold Gdb.dispatch_client. cbn [req]. rewrite app_nil_r. replace (Sess (req s) (state s)) with s by by destruct s.
  cbn [Gdb.pump_all]. by rewrite H.
Qed.

End hex.

(** C20: the session does not depend on how the network splits the stream.  For
    every sequence of reads the server writes the same bytes to the client,
    also when it fails in the end, fails with the same error or ends in the
    same state as if all bytes had arrived in one read; the loop over the
    packets always ends. *)
Theorem gdb_chunks hex_decode hex_encode chunks :
  dispatch_chunks hex_decode hex_encode session_default chunks
  = dispatch_client hex_decode hex_encode session_default (concat chunks)
  /\ snd (dispatch_client hex_decode hex_encode session_default (concat chunks)) <> Panic PUnreachable.
Proof.
  split.
  - assert (Gdb.pump hex_decode hex_encode session_default = Ok (None, session_default)) as H by done.
    revert H. generalize session_default. induction chunks as [|d chunks IH]; intros s H; cbn [dispatch_chunks concat].
    { by rewrite dispatch_settled. }
    rewrite dispatch_app. destruct (dispatch_client _ _ s d) as [o1 [s1|e|p]] eqn:Hd; cbn [and_then]; [|done..].
    apply pump_all_settled in Hd. by rewrite (IH s1 Hd).
  - apply pump_all_total. cbn [req]. lia.
Qed.

(** ** Packets *)

Section packets.
Context (hex_decode : list Z -> option Z) (hex_encode : Z -> list Z).

(** A packet of the protocol. *)
Definition packet (data digits : list Z) : list Z := [byte_dollar] ++ data ++ [byte_hash] ++ digits.

Definition no_hash (data : list Z) : Prop := Forall (fun b => b <> byte_hash) data.

Lemma position_packet data digits rest :
  no_hash data -> position_hash (packet data digits ++ rest) = Some (S (length data)).
Proof.
  intros H. apply position_hash_Some. unfold packet. rewrite <- !app_assoc. cbn [app]. split.
  - rewrite lookup_cons, lookup_app_r, Nat.sub_diag by lia. done.
  - intros [|j] y Hj Hlt; rewrite lookup_cons in Hj; [by injection Hj as <-|]. rewrite lookup_app_l in Hj by lia.
    unfold no_hash in H. rewrite Forall_forall in H. apply H. by apply list_elem_of_lookup_2 in Hj.
Qed.

(** A whole packet is handled and removed from the input. *)
Lemma pump_packet st data digits rest :
  no_hash data -> length digits = 2%nat ->
  Gdb.pump hex_decode hex_encode (Sess (packet data digits ++ rest) st)
  = '(res, st) ← handle_packet hex_decode hex_encode st data digits; Ok (Some res, Sess rest st).
Proof.
  intros Hd Hl. unfold Gdb.pump. cbn [req state]. rewrite (position_packet data digits rest Hd).
  unfold packet. rewrite <- !app_assoc. cbn [app]. rewrite Z.eqb_refl.
  rewrite (proj2 (Nat.leb_le _ _)) by (cbn; rewrite !length_app; cbn; rewrite length_app; lia).
  replace (S (length data) - 1)%nat with (length data) by lia. rewrite take_app_length.
  replace (S (length data) + 1)%nat with (S (length data + 1))%nat by lia.
  replace (S (length data) + 3)%nat with (S (length data + 3))%nat by lia. cbn [skipn drop].
  change (data ++ byte_hash :: digits ++ rest) with (data ++ [byte_hash] ++ digits ++ rest).
  rewrite (app_assoc data), !drop_app_ge by (rewrite length_app; cbn; lia). rewrite length_app. cbn [length].
  replace (length data + 1 - (length data + 1))%nat with 0%nat by lia. rewrite drop_0.
  replace (length data + 3 - (length data + 1))%nat with (length digits) by lia.
  rewrite Nat.sub_diag, drop_0. by rewrite (take_app_length' digits) by done.
Qed.

Lemma features_no_hash feats r : features feats = Ok r -> no_hash r.
Proof.
  revert r. induction feats as [|f feats IH]; intros r H; cbn [features] in H; [injection H as <-; constructor|].
  apply bind_Ok in H as (r1 & H1 & H). apply bind_Ok in H as (r2 & H2 & H). injection H as <-.
  apply Forall_app. split; [|by apply IH]. unfold feature in H1.
  repeat (case_match; try discriminate H1); injection H1 as <-; by apply (bool_decide_unpack _).
Qed.

(** The payload of a response can be framed. *)
Lemma execute_no_hash st data payload st' : execute st data = Ok (payload, st') -> no_hash payload.
Proof.
  unfold execute, parse_start_no_ack_mode, parse_thread_suffix_supported. case_bool_decide.
  { intros [= <- <-]. by apply (bool_decide_unpack _). }
  destruct (strip_prefix _ data) as [d|].
  - intros H1. apply bind_Ok in H1 as (r & Hr & H1). injection H1 as <- <-. unfold parse_supported in Hr.
    destruct (strip_prefix _ d) as [fs|]; [|injection Hr as <-; by apply (bool_decide_unpack _)].
    apply bind_Ok in Hr as (rs & Hf & Hr). change (no_hash r). replace r with (bytes_of "QStartNoAckMode+" ++ rs) by congruence. apply Forall_app.
    split; [by apply (bool_decide_unpack _)|by eapply features_no_hash].
  - case_bool_decide; [|done]. intros [= <- <-]. by apply (bool_decide_unpack _).
Qed.

Lemma get_checksum_byte data : is_byte (get_checksum data).
Proof.
  unfold get_checksum, is_byte. destruct data as [|b data] using rev_ind; [done|].
  rewrite foldl_app. cbn. by apply Z.mod_pos_bound.
Qed.
End packets.

(** Packets are answered with packets.  A packet with the right checksum
    whose command is known is removed from the input and answered with a
    packet with the right checksum, preceded by an acknowledgment unless the
    client turned them off; the payload never contains the end marker, so the
    client can parse it.  While acknowledgments are on, a packet whose
    checksum is wrong or not hexadecimal is removed and answered with a
    request to send it again, and the session is unchanged. *)
Theorem gdb_responses hex_decode hex_encode st data digits rest :
  (forall b, is_byte b -> hex_decode (hex_encode b) = Some b /\ length (hex_encode b) = 2%nat) ->
  no_hash data -> length digits = 2%nat ->
  (forall payload st', no_ack st <> Some false -> execute st data = Ok (payload, st') ->
     hex_decode digits = Some (get_checksum data) ->
     no_hash payload /\
     Gdb.pump hex_decode hex_encode (Sess (packet data digits ++ rest) st)
     = Ok (Some ((if no_ack st then [] else [byte_plus]) ++ packet payload (hex_encode (get_checksum payload))),
           Sess rest st')
     /\ hex_decode (hex_encode (get_checksum payload)) = Some (get_checksum payload))
  /\ (no_ack st = None -> hex_decode digits <> Some (get_checksum data) ->
      Gdb.pump hex_decode hex_encode (Sess (packet data digits ++ rest) st) = Ok (Some [byte_minus], Sess rest st)).
Proof.
  intros Hhex Hd Hl. rewrite pump_packet by done. unfold handle_packet. split.
  - intros payload st' Hn He Hc. split; [by eapply execute_no_hash|].
    split; [|apply Hhex, get_checksum_byte]. rewrite Hc, Z.eqb_refl. cbn [negb]. unfold response_prefix.
    destruct (no_ack st) as [[]|]; [|done|]; cbn [mbind outcome_bind]; rewrite He; done.
  - intros Hn Hc. unfold bad_packet. rewrite Hn. destruct (hex_decode digits) as [c|]; [|done].
    by rewrite (proj2 (Z.eqb_neq _ _)) by congruence.
Qed.

(** A codec for the digits. *)
Definition demo_digit (d : Z) : Z := if d <? 10 then d + 48 else d + 87.
Definition demo_value (c : Z) : option Z :=
  if (48 <=? c) && (c <=? 57) then Some (c - 48) else if (97 <=? c) && (c <=? 102) then Some (c - 87) else None.
Definition demo_encode (b : Z) : list Z := [demo_digit (b / 16); demo_digit (b mod 16)].
Definition demo_decode (l : list Z) : option Z :=
  match l with [c; d] => x ← demo_value c; y ← demo_value d; Some (16 * x + y) | _ => None end.

Lemma demo_digit_value d : 0 <= d < 16 -> demo_value (demo_digit d) = Some d.
Proof.
  intros H. unfold demo_value, demo_digit. destruct (Z.ltb_spec d 10).
  - rewrite (proj2 (Z.leb_le 48 _)), (proj2 (Z.leb_le _ 57)) by lia. cbn. f_equal. lia.
  - rewrite (proj2 (Z.leb_gt _ 57)) by lia. rewrite andb_false_r.
    rewrite (proj2 (Z.leb_le 97 _)), (proj2 (Z.leb_le _ 102)) by lia. cbn. f_equal. lia.
Qed.

Lemma demo_hex b : is_byte b -> demo_decode (demo_encode b) = Some b /\ length (demo_encode b) = 2%nat.
Proof.
  intros [H1 H2]. split; [|done]. cbn. rewrite !demo_digit_value; cbn.
  - f_equal. pose proof (Z.div_mod b 16). lia.
  - split; [apply Z.div_pos; lia|apply Z.div_lt_upper_bound; lia].
  - by apply Z.mod_pos_bound.
Qed.

Lemma gdb_responses_witness :
  Gdb.pump demo_decode demo_encode
    (Sess (packet (bytes_of "QStartNoAckMode") (bytes_of "b0") ++ [byte_plus]) (St None false))
  = Ok (Some ([byte_plus] ++ packet (bytes_of "OK") (bytes_of "9a")), Sess [byte_plus] (St (Some false) false)).
Proof.
  destruct (gdb_responses demo_decode demo_encode (St None false) (bytes_of "QStartNoAckMode") (bytes_of "b0") [byte_plus])
    as [H _]; [exact demo_hex|by apply (bool_decide_unpack _)|reflexivity|].
  destruct (H (bytes_of "OK") (St (Some false) false)) as (_ & H1 & _); [discriminate|reflexivity|vm_compute; reflexivity|].
  exact H1.
Defined.

End GdbProps.
