(* ===== verification/X86.v ===== *)
(** * Setup of an x86-64 CPU by the kernel

    Models [lib/x86-64] and [kernel/src/x86_64.rs] with the CPU context of
    [kernel/src/context/x86_64.rs]: segment and gate descriptors as bit
    fields, the global and the interrupt descriptor table, the task state
    segment, and the registers for system calls.  A bit field is laid out from
    the lowest bit on, as the [bitfield-struct] crate documents. *)
From S2P Require Import Prelude Thread.

Module X86.
Import Thread.
Local Open Scope list_scope.
Local Open Scope Z_scope.

(** ** Bit fields *)

(** The field of [n] bits at bit [off]. *)
Definition get_bits (off n v : Z) : Z := Z.land (Z.shiftr v off) (Z.ones n).
Definition set_bits (off n x v : Z) : Z :=
  Z.lor (Z.land v (Z.lnot (Z.shiftl (Z.ones n) off))) (Z.shiftl x off).

(** [with_*] and [set_*] of a field: a value that does not fit is rejected. *)
Definition put (off n x v : Z) : res Z :=
  if (0 <=? x) && (x <? 2 ^ n) then Ok (set_bits off n x v) else Panic PAssert.

(** [try_into().unwrap()] to an unsigned type of [n] bits. *)
Definition to_uint (n x : Z) : res Z :=
  if x <? 2 ^ n then Ok x else Panic PUnwrap.

(** [as u16]. *)
Definition as_u16 (x : Z) : Z := x mod 2 ^ 16.

(** ** Segments ([lib/x86-64/src/segment.rs]) *)

(** [Dpl]. *)
Definition Ring0 : Z := 0.
Definition Ring3 : Z := 3.

Definition Dpl_from_bits (v : Z) : res Z :=
  if (0 <=? v) && (v <=? 3) then Ok v else Panic (PExplicit "invalid value").
Definition Ti_from_bits (v : Z) : res Z :=
  if (0 <=? v) && (v <=? 1) then Ok v else Panic (PExplicit "invalid value").

(** Fields of [SegmentSelector]. *)
Definition sel_rpl : Z * Z := (0, 2).
Definition sel_ti : Z * Z := (2, 1).
Definition sel_si : Z * Z := (3, 13).

(** Fields of [SegmentDescriptor]; those of [TssDescriptor] start alike, and
    its second base has 40 bits. *)
Definition desc_limit1 : Z * Z := (0, 16).
Definition desc_base1 : Z * Z := (16, 24).
Definition desc_ty : Z * Z := (40, 4).
Definition desc_s : Z * Z := (44, 1).
Definition desc_dpl : Z * Z := (45, 2).
Definition desc_p : Z * Z := (47, 1).
Definition desc_limit2 : Z * Z := (48, 4).
Definition desc_l : Z * Z := (53, 1).
Definition tss_base2 : Z * Z := (56, 40).

Definition get (f : Z * Z) (v : Z) : Z := get_bits f.1 f.2 v.
Definition with_ (f : Z * Z) (x v : Z) : res Z := put f.1 f.2 x v.

Definition size_SegmentDescriptor : Z := 8.
Definition size_Tss64 : Z := 104.

(** ** Gates, RFLAGS and model specific registers *)

Definition gate_offset1 : Z * Z := (0, 16).
Definition gate_selector : Z * Z := (16, 16).
Definition gate_ist : Z * Z := (32, 3).
Definition gate_ty : Z * Z := (40, 4).
Definition gate_dpl : Z * Z := (45, 2).
Definition gate_p : Z * Z := (47, 1).
Definition gate_offset2 : Z * Z := (48, 48).
Definition size_GateDescriptor : Z := 16.

Definition star_syscall_sel : Z * Z := (32, 16).
Definition star_sysret_sel : Z * Z := (48, 16).

Definition rf_cf : Z * Z := (0, 1).
Definition rf_tf : Z * Z := (8, 1).
Definition rf_if : Z * Z := (9, 1).
Definition rf_df : Z * Z := (10, 1).
Definition rf_nt : Z * Z := (14, 1).
Definition rf_id : Z * Z := (21, 1).

Definition efer_sce : Z * Z := (0, 1).
Definition efer_lme : Z * Z := (8, 1).
Definition efer_lma : Z * Z := (10, 1).

(** ** Identification ([kernel/src/x86_64.rs]) *)

(** The registers that [cpuid] returns. *)
Record CpuidResult := Cpuid { eax : Z; ebx : Z; ecx : Z; edx : Z }.
Record CpuInfo := Info { cpu_vendor : list Z; cpu_id : Z }.

(** [identify_cpu]; [utf8] is the check of the vendor string. *)
Definition identify_cpu (utf8 : list Z -> bool) (rflags : Z) (cpuid : Z -> CpuidResult) : res CpuInfo :=
  panic_if (get rf_id rflags =? 0) (PExplicit "CPUID instruction is not available");;
  let r := cpuid 0 in
  assert_that (1 <=? eax r);;
  let buf := le_bytes 4 (ebx r) ++ le_bytes 4 (edx r) ++ le_bytes 4 (ecx r) in
  panic_if (negb (utf8 buf)) PUnwrap;;
  Ok (Info buf (eax (cpuid 1))).

(** ** Descriptor tables *)

(** [SegmentSelector::new().with_si(..).with_rpl(..)]. *)
Definition selector (si rpl : Z) : Z :=
  set_bits sel_rpl.1 sel_rpl.2 rpl (set_bits sel_si.1 sel_si.2 si 0).
Definition GDT_KERNEL_CS : Z := Eval vm_compute in selector 3 Ring0.
Definition GDT_KERNEL_DS : Z := Eval vm_compute in selector 4 Ring0.
Definition GDT_USER_CS32 : Z := Eval vm_compute in selector 5 Ring3.

(** Addresses that the memory allocator and the linker choose. *)
Record addresses := Addrs {
  a_trap_stack : Z;
  a_tss : Z;
  a_Xbpt : Z;
  a_syscall_entry64 : Z;
  a_syscall_entry32 : Z
}.

(** The size of the stack for traps. *)
Definition TRAP_STACK : Z := 1024 * 128.

Definition kernel_cs : res Z :=
  d ← with_ desc_ty 8 0;
  d ← with_ desc_s 1 d;
  d ← with_ desc_p 1 d;
  with_ desc_l 1 d.
Definition kernel_ds : res Z :=
  d ← with_ desc_ty 2 0;
  d ← with_ desc_s 1 d;
  with_ desc_p 1 d.

(** [push_tss]: the table, the selector and [rsp0] of the task state
    segment.  The descriptor is the 16 bytes of two entries. *)
Definition push_tss (gdt : list Z) (tss trap_rsp : Z) : res (list Z * Z * Z) :=
  e ← uadd trap_rsp TRAP_STACK;
  rsp0 ← to_uint 64 e;
  let si := Z.of_nat (length gdt) in
  limit1 ← to_uint 16 (size_Tss64 - 1);
  d ← with_ desc_limit1 limit1 0;
  base1 ← to_uint 32 (Z.land tss 0xFFFFFF);
  d ← with_ desc_base1 base1 d;
  base2 ← to_uint 64 (Z.shiftr tss 24);
  d ← with_ tss_base2 base2 d;
  d ← with_ desc_ty 9 d;
  d ← with_ desc_p 1 d;
  si ← to_uint 16 si;
  sel ← with_ sel_si si 0;
  Ok (gdt ++ [d mod 2 ^ 64; d / 2 ^ 64], sel, rsp0).

(** The closure [set_idt]. *)
Definition set_idt (idt : list Z) (n f ty dpl ist : Z) : res (list Z) :=
  d ← with_ gate_offset1 (as_u16 f) 0;
  d ← with_ gate_selector GDT_KERNEL_CS d;
  d ← with_ gate_ist ist d;
  d ← with_ gate_ty ty d;
  d ← with_ gate_dpl dpl d;
  d ← with_ gate_p 1 d;
  offset2 ← to_uint 64 (Z.shiftr f 16);
  d ← with_ gate_offset2 offset2 d;
  arr_set idt n d.

(** What [setup_main_cpu] loads into the CPU, and [ArchConfig]. *)
Record CpuSetup := Setup {
  s_gdt : list Z;
  s_gdt_limit : Z;
  s_cs : Z;
  s_ds : Z;
  s_tr : Z;
  s_rsp0 : Z;
  s_idt : list Z;
  s_idt_limit : Z;
  s_msrs : list (Z * Z);
  s_trap_rsp : Z
}.

Definition setup_main_cpu (a : addresses) : res CpuSetup :=
  cs ← kernel_cs;
  ds ← kernel_ds;
  let gdt := [0; 0; 0; cs; ds; 0; 0; 0] in
  '(gdt, tss, rsp0) ← push_tss gdt (a_tss a) (a_trap_stack a);
  limit ← to_uint 16 (size_SegmentDescriptor * Z.of_nat (length gdt) - 1);
  idt ← set_idt (replicate 256 0) 3 (a_Xbpt a) 14 Ring3 0;
  idt_limit ← to_uint 16 (size_GateDescriptor * 256 - 1);
  star ← with_ star_syscall_sel GDT_KERNEL_CS 0;
  star ← with_ star_sysret_sel GDT_USER_CS32 star;
  m ← with_ rf_cf 1 0;
  m ← with_ rf_tf 1 m;
  m ← with_ rf_if 1 m;
  m ← with_ rf_df 1 m;
  m ← with_ rf_nt 1 m;
  efer ← with_ efer_sce 1 0;
  efer ← with_ efer_lme 1 efer;
  efer ← with_ efer_lma 1 efer;
  Ok (Setup gdt limit GDT_KERNEL_CS GDT_KERNEL_DS tss rsp0 idt idt_limit
        [(0xC0000081, star); (0xC0000082, a_syscall_entry64 a); (0xC0000083, a_syscall_entry32 a);
         (0xC0000084, m); (0xC0000080, efer)]
        (a_trap_stack a)).

(** ** System calls *)

(** [Context] of a CPU, with the fields that system calls use. *)
Record Context := Cx { trap_rsp : Z; user_rsp : Z }.
Definition context_new (arch : CpuSetup) : Context := Cx (s_trap_rsp arch) 0.

(** The entry point [syscall_entry64] up to its call of [syscall_handler]: the
    context, the stack pointer and the address of the return address that the
    call pushes. *)
Definition syscall_entry64 (cx : Context) (rsp : Z) : Context * Z * Z :=
  let cx := Cx (trap_rsp cx) rsp in
  let rsp := trap_rsp cx - 8 in
  (cx, rsp, rsp).

End X86.
