(* ===== verification/X86Props.v ===== *)
(** * Properties of the x86-64 setup

    Every descriptor and register decodes to what the kernel means it to be,
    with the fields as the processor reads them. *)
From S2P Require Import Prelude Thread X86.

Module X86Props.
Import Thread X86.
Local Open Scope list_scope.
Local Open Scope Z_scope.

(** ** Bit fields *)

Lemma bits_small x n i : 0 <= n <= i -> 0 <= x < 2 ^ n -> Z.testbit x i = false.
Proof. intros Hn Hx. rewrite <- (Z.mod_small x (2 ^ n)) by done. by apply Z.mod_pow2_bits_high. Qed.

Lemma set_bits_spec off n x v i :
  0 <= off -> 0 <= n -> 0 <= x < 2 ^ n -> 0 <= i ->
  Z.testbit (set_bits off n x v) i
  = if (off <=? i) && (i <? off + n) then Z.testbit x (i - off) else Z.testbit v i.
Proof.
  intros Ho Hn Hx Hi. unfold set_bits. rewrite Z.lor_spec, Z.land_spec, Z.lnot_spec by done.
  rewrite !Z.shiftl_spec by done. destruct (Z.leb_spec off i), (Z.ltb_spec i (off + n)); cbn [andb].
  - rewrite Z.ones_spec_low by lia. by rewrite andb_false_r.
  - rewrite Z.ones_spec_high by lia. rewrite andb_true_r. rewrite (bits_small x n) by lia. by rewrite orb_false_r.
  - rewrite !(Z.testbit_neg_r _ (i - off)) by lia. by rewrite andb_true_r, orb_false_r.
  - lia.
Qed.

Lemma get_bits_spec off n v i :
  0 <= n -> 0 <= i -> Z.testbit (get_bits off n v) i = (i <? n) && Z.testbit v (i + off).
Proof.
  intros Hn Hi. unfold get_bits. rewrite Z.land_spec, Z.shiftr_spec by done. destruct (Z.ltb_spec i n).
  - rewrite Z.ones_spec_low by lia. by rewrite andb_true_r.
  - rewrite Z.ones_spec_high by lia. by rewrite andb_false_r.
Qed.

Lemma get_set_same off n x v :
  0 <= off -> 0 <= n -> 0 <= x < 2 ^ n -> get_bits off n (set_bits off n x v) = x.
Proof.
  intros Ho Hn Hx. apply Z.bits_inj'. intros i Hi. rewrite get_bits_spec, set_bits_spec by lia.
  rewrite (proj2 (Z.leb_le off (i + off))) by lia. destruct (Z.ltb_spec i n).
  - rewrite (proj2 (Z.ltb_lt _ _)) by lia. cbn [andb]. f_equal. lia.
  - cbn [andb]. symmetry. by apply (bits_small x n).
Qed.

Lemma get_set_other off n x v off' n' :
  0 <= off -> 0 <= n -> 0 <= x < 2 ^ n -> 0 <= off' -> 0 <= n' ->
  off' + n' <= off \/ off + n <= off' ->
  get_bits off' n' (set_bits off n x v) = get_bits off' n' v.
Proof.
  intros Ho Hn Hx Ho' Hn' Hd. apply Z.bits_inj'. intros i Hi. rewrite !get_bits_spec, set_bits_spec by lia.
  destruct (Z.ltb_spec i n'); [|done]. cbn [andb].
  destruct (Z.leb_spec off (i + off')), (Z.ltb_spec (i + off') (off + n)); (done || lia).
Qed.

Lemma with_Ok f x v : 0 <= x < 2 ^ f.2 -> with_ f x v = Ok (set_bits f.1 f.2 x v).
Proof.
  intros H. unfold with_, put. rewrite (proj2 (Z.leb_le _ _)), (proj2 (Z.ltb_lt _ _)) by lia. done.
Qed.

Lemma to_uint_Ok n x : x < 2 ^ n -> to_uint n x = Ok x.
Proof. intros H. unfold to_uint. by rewrite (proj2 (Z.ltb_lt _ _)). Qed.

(** Fields of a value that was built field by field. *)
Ltac field_side :=
  unfold desc_limit1, desc_base1, desc_ty, desc_s, desc_dpl, desc_p, desc_l, tss_base2,
    gate_offset1, gate_selector, gate_ist, gate_ty, gate_dpl, gate_p, gate_offset2,
    star_syscall_sel, star_sysret_sel, size_Tss64, Ring3, GDT_KERNEL_CS, GDT_USER_CS32 in *;
  cbn [fst snd] in *; lia.
Ltac field :=
  unfold get; cbn [fst snd];
  repeat first [rewrite get_set_same by field_side | rewrite get_set_other by field_side].

(** ** The descriptor of the task state segment *)

(** The base that the processor reads from a descriptor. *)
Definition tss_base (d : Z) : Z := get desc_base1 d + 2 ^ 24 * get tss_base2 d.
Definition gate_offset (d : Z) : Z := get gate_offset1 d + 2 ^ 16 * get gate_offset2 d.

(** The 16 bytes of a system descriptor at index [si] of the table. *)
Definition system_desc (gdt : list Z) (si : nat) : option Z :=
  lo ← gdt !! si; hi ← gdt !! S si; Some (lo + 2 ^ 64 * hi).

Lemma split_low a k : 0 <= k -> Z.land a (Z.ones k) + 2 ^ k * Z.shiftr a k = a.
Proof.
  intros Hk. rewrite Z.land_ones, Z.shiftr_div_pow2 by done.
  pose proof (Z.pow_pos_nonneg 2 k). pose proof (Z.div_mod a (2 ^ k)). lia.
Qed.

Lemma shiftr_bound a k m : 0 <= a < 2 ^ (k + m) -> 0 <= k -> 0 <= m -> 0 <= Z.shiftr a k < 2 ^ m.
Proof.
  intros Ha Hk Hm. rewrite Z.shiftr_div_pow2 by done. pose proof (Z.pow_pos_nonneg 2 k).
  split; [apply Z.div_pos; lia|]. apply Z.div_lt_upper_bound; [lia|]. rewrite <- Z.pow_add_r by lia. apply Ha.
Qed.

Lemma push_tss_Ok gdt tss stack :
  0 <= tss < 2 ^ 64 -> 0 <= stack -> stack + TRAP_STACK < 2 ^ 64 -> Z.of_nat (length gdt) < 2 ^ 13 ->
  exists gdt' d, push_tss gdt tss stack = Ok (gdt', 8 * Z.of_nat (length gdt), stack + TRAP_STACK)
  /\ gdt' = gdt ++ [d mod 2 ^ 64; d / 2 ^ 64] /\ system_desc gdt' (length gdt) = Some d
  /\ tss_base d = tss /\ get desc_limit1 d = 103 /\ get desc_ty d = 9 /\ get desc_p d = 1.
Proof.
  intros Ht Hs He Hl. unfold push_tss. rewrite (proj2 (uadd_Ok stack TRAP_STACK (stack + TRAP_STACK))) by lia.
  cbn [mbind outcome_bind]. rewrite (to_uint_Ok 64 (stack + TRAP_STACK)) by exact He. cbn [mbind outcome_bind].
  rewrite (to_uint_Ok 16 (size_Tss64 - 1)) by done. cbn [mbind outcome_bind]. rewrite (with_Ok desc_limit1) by done. cbn [mbind outcome_bind fst snd].
  assert (0 <= Z.land tss 0xFFFFFF < 2 ^ 24) as H24
    by (change 0xFFFFFF with (Z.ones 24); rewrite Z.land_ones by lia; apply Z.mod_pos_bound; lia).
  assert (0 <= Z.shiftr tss 24 < 2 ^ 40) as H40 by (apply shiftr_bound; [exact Ht|lia..]).
  rewrite (to_uint_Ok 32 (Z.land tss 0xFFFFFF)) by lia. cbn [mbind outcome_bind]. rewrite (with_Ok desc_base1) by exact H24. cbn [mbind outcome_bind fst snd].
  rewrite (to_uint_Ok 64 (Z.shiftr tss 24)) by lia. cbn [mbind outcome_bind]. rewrite (with_Ok tss_base2) by exact H40. cbn [mbind outcome_bind fst snd].
  rewrite (with_Ok desc_ty) by done. cbn [mbind outcome_bind fst snd]. rewrite (with_Ok desc_p) by done. cbn [mbind outcome_bind fst snd].
  rewrite (to_uint_Ok 16) by lia. cbn [mbind outcome_bind].
  rewrite (with_Ok sel_si) by (cbn; lia). cbn [mbind outcome_bind fst snd].
  set (d := set_bits desc_p.1 desc_p.2 1 _). eexists _, d. split.
  { f_equal. f_equal. f_equal. unfold set_bits. rewrite Z.land_0_l, Z.lor_0_l, Z.shiftl_mul_pow2 by done. cbn. lia. }
  split; [done|]. split.
  { unfold system_desc. rewrite !lookup_app_r by lia. rewrite Nat.sub_diag.
    replace (S (length gdt) - length gdt)%nat with 1%nat by lia. cbn. f_equal. pose proof (Z.div_mod d (2 ^ 64)). lia. }
  subst d. unfold tss_base. field. split; [|done].
  change 0xFFFFFF with (Z.ones 24). by apply split_low.
Qed.

(** ** Identification *)

(** The CPU is identified exactly when it has [cpuid] with its first leaf and
    a vendor string that is text. *)
Lemma identify_cpu_iff utf8 rflags cpuid i :
  identify_cpu utf8 rflags cpuid = Ok i <->
  get rf_id rflags <> 0 /\ 1 <= eax (cpuid 0) /\ utf8 (cpu_vendor i) = true
  /\ cpu_vendor i = le_bytes 4 (ebx (cpuid 0)) ++ le_bytes 4 (edx (cpuid 0)) ++ le_bytes 4 (ecx (cpuid 0))
  /\ cpu_id i = eax (cpuid 1).
Proof.
  unfold identify_cpu, panic_if, assert_that. destruct (Z.eqb_spec (get rf_id rflags) 0) as [|Hid].
  { split; [discriminate|]. by intros [? _]. }
  destruct (Z.leb_spec 1 (eax (cpuid 0))) as [|Hle].
  2: { split; [discriminate|]. intros (_ & ? & _). lia. }
  cbn [mbind outcome_bind negb]. destruct (utf8 _) eqn:Hu; cbn [mbind outcome_bind negb].
  - split; [intros [= <-]; done|]. intros (_ & _ & _ & Hv & Hi). destruct i; cbn in Hv, Hi. by subst.
  - split; [discriminate|]. intros (_ & _ & Hu' & Hv & _). rewrite Hv in Hu'. congruence.
Qed.

(** ** Gates *)

Lemma gate_fields n dpl ist ty f :
  0 <= n < 2 ^ 16 -> 0 <= dpl < 4 -> 0 <= ist < 8 -> 0 <= ty < 16 -> 0 <= f < 2 ^ 64 ->
  forall d, d = set_bits gate_offset2.1 gate_offset2.2 (Z.shiftr f 16)
     (set_bits gate_p.1 gate_p.2 1 (set_bits gate_dpl.1 gate_dpl.2 dpl (set_bits gate_ty.1 gate_ty.2 ty
       (set_bits gate_ist.1 gate_ist.2 ist (set_bits gate_selector.1 gate_selector.2 n
         (set_bits gate_offset1.1 gate_offset1.2 (as_u16 f) 0)))))) ->
  gate_offset d = f /\ get gate_selector d = n /\ get gate_ist d = ist
  /\ get gate_ty d = ty /\ get gate_dpl d = dpl /\ get gate_p d = 1.
Proof.
  intros Hn Hd Hi Ht Hf d ->.
  assert (0 <= as_u16 f < 2 ^ 16) as H16 by (apply Z.mod_pos_bound; lia).
  assert (0 <= Z.shiftr f 16 < 2 ^ 48) as H48 by (apply shiftr_bound; [exact Hf|lia..]).
  unfold gate_offset. field. split; [|done].
  unfold as_u16. rewrite <- Z.land_ones by lia. by apply split_low.
Qed.

(** The closure [set_idt] puts a gate to [f] at its vector and leaves the
    others alone. *)
Lemma set_idt_Ok idt n f ty dpl ist :
  0 <= n < Z.of_nat (length idt) -> 0 <= dpl < 4 -> 0 <= ist < 8 -> 0 <= ty < 16 -> 0 <= f < 2 ^ 64 ->
  exists d, set_idt idt n f ty dpl ist = Ok (<[Z.to_nat n := d]> idt)
  /\ gate_offset d = f /\ get gate_selector d = GDT_KERNEL_CS /\ get gate_ist d = ist
  /\ get gate_ty d = ty /\ get gate_dpl d = dpl /\ get gate_p d = 1.
Proof.
  intros Hn Hd Hi Ht Hf.
  assert (0 <= as_u16 f < 2 ^ 16) as H16 by (apply Z.mod_pos_bound; lia).
  assert (0 <= Z.shiftr f 16 < 2 ^ 48) as H48 by (apply shiftr_bound; [exact Hf|lia..]).
  eexists. split; [|by eapply (gate_fields GDT_KERNEL_CS dpl ist ty f)].
  unfold set_idt.
  rewrite (with_Ok gate_offset1) by exact H16. cbn [mbind outcome_bind].
  rewrite (with_Ok gate_selector) by done. cbn [mbind outcome_bind].
  rewrite (with_Ok gate_ist) by exact Hi. cbn [mbind outcome_bind].
  rewrite (with_Ok gate_ty) by exact Ht. cbn [mbind outcome_bind].
  rewrite (with_Ok gate_dpl) by exact Hd. cbn [mbind outcome_bind].
  rewrite (with_Ok gate_p) by done. cbn [mbind outcome_bind].
  rewrite (to_uint_Ok 64) by lia. cbn [mbind outcome_bind].
  rewrite (with_Ok gate_offset2) by exact H48. cbn [mbind outcome_bind].
  unfold arr_set. rewrite (proj2 (Z.leb_le _ _)), (proj2 (Z.ltb_lt _ _)) by lia. done.
Qed.

(** ** The main CPU *)

(** Addresses of a 64-bit machine. *)
Definition addresses_ok (a : addresses) : Prop :=
  0 <= a_tss a < 2 ^ 64 /\ 0 <= a_Xbpt a < 2 ^ 64 /\ 0 <= a_trap_stack a
  /\ a_trap_stack a + TRAP_STACK < 2 ^ 64.

(** The entry of the table that a selector names. *)
Definition selected (gdt : list Z) (sel : Z) : option Z := gdt !! Z.to_nat (get sel_si sel).

(** The value of a model specific register. *)
Definition msr (s : CpuSetup) (r : Z) : option Z := snd <$> find (fun p => p.1 =? r) (s_msrs s).

Definition main_gdt (cs ds d : Z) : list Z := [0; 0; 0; cs; ds; 0; 0; 0; d mod 2 ^ 64; d / 2 ^ 64].
Definition main_cs : Z := 0x20980000000000.
Definition main_ds : Z := 0x920000000000.
Definition main_star : Z := 0x2B001800000000.

(** What [setup_main_cpu] returns. *)
Lemma setup_main_cpu_Ok a :
  addresses_ok a ->
  exists d g,
  setup_main_cpu a = Ok (Setup (main_gdt main_cs main_ds d) 79 GDT_KERNEL_CS GDT_KERNEL_DS 0x40
    (a_trap_stack a + TRAP_STACK) (<[3%nat := g]> (replicate 256 0)) 4095
    [(0xC0000081, main_star); (0xC0000082, a_syscall_entry64 a); (0xC0000083, a_syscall_entry32 a);
     (0xC0000084, 0x4701); (0xC0000080, 0x501)] (a_trap_stack a))
  /\ system_desc (main_gdt main_cs main_ds d) 8 = Some d
  /\ tss_base d = a_tss a /\ get desc_limit1 d = 103 /\ get desc_ty d = 9 /\ get desc_p d = 1
  /\ gate_offset g = a_Xbpt a /\ get gate_selector g = GDT_KERNEL_CS /\ get gate_ist g = 0
  /\ get gate_ty g = 14 /\ get gate_dpl g = Ring3 /\ get gate_p g = 1.
Proof.
  intros (Ht & Hx & Hs & He).
  destruct (push_tss_Ok [0; 0; 0; main_cs; main_ds; 0; 0; 0] (a_tss a) (a_trap_stack a) Ht Hs He ltac:(done))
    as (gdt & d & Hp & -> & Hd & Hfields).
  destruct (set_idt_Ok (replicate 256 0) 3 (a_Xbpt a) 14 Ring3 0 ltac:(done) ltac:(done) ltac:(done) ltac:(done) Hx)
    as (g & Hg & Hgate).
  exists d, g. split; [|split; [exact Hd|]; by destruct_and?].
  unfold setup_main_cpu. change kernel_cs with (Ok main_cs : res Z). change kernel_ds with (Ok main_ds : res Z).
  cbn [mbind outcome_bind]. rewrite Hp. cbn [mbind outcome_bind]. rewrite Hg. reflexivity.
Qed.

(** C21: setting up the main CPU never fails, and what it loads is what the
    kernel means.  The code segment is a present 64-bit code segment and the
    data segment a present writable one, both of ring 0; the task register
    names a present 64-bit task state segment at the address of the segment,
    with its size as the limit and the end of the trap stack as the stack for
    ring 0; vector 3 is a present interrupt gate that user code may use, to
    [Xbpt] in the kernel code segment, and every other vector is empty; the
    limits of both tables cover exactly their entries; [syscall] goes to its
    entry point in the kernel's segments with interrupts, traps and the
    direction flag off; long mode and [syscall] are on. *)
Theorem x86_setup a :
  addresses_ok a ->
  exists s d g star mask efer, setup_main_cpu a = Ok s
  /\ (exists cs, selected (s_gdt s) (s_cs s) = Some cs /\ get desc_ty cs = 8 /\ get desc_s cs = 1
      /\ get desc_dpl cs = Ring0 /\ get desc_p cs = 1 /\ get desc_l cs = 1)
  /\ (exists ds, selected (s_gdt s) (s_ds s) = Some ds /\ get desc_ty ds = 2 /\ get desc_s ds = 1
      /\ get desc_dpl ds = Ring0 /\ get desc_p ds = 1)
  /\ system_desc (s_gdt s) (Z.to_nat (get sel_si (s_tr s))) = Some d
  /\ get sel_rpl (s_tr s) = Ring0 /\ tss_base d = a_tss a /\ get desc_limit1 d = size_Tss64 - 1
  /\ get desc_ty d = 9 /\ get desc_p d = 1 /\ s_rsp0 s = a_trap_stack a + TRAP_STACK
  /\ s_gdt_limit s = size_SegmentDescriptor * Z.of_nat (length (s_gdt s)) - 1
  /\ s_idt s !! 3%nat = Some g /\ gate_offset g = a_Xbpt a /\ get gate_selector g = s_cs s
  /\ get gate_ty g = 14 /\ get gate_dpl g = Ring3 /\ get gate_p g = 1
  /\ (forall i v, s_idt s !! i = Some v -> i <> 3%nat -> get gate_p v = 0)
  /\ s_idt_limit s = size_GateDescriptor * Z.of_nat (length (s_idt s)) - 1
  /\ msr s 0xC0000081 = Some star /\ get star_syscall_sel star = s_cs s
  /\ get star_syscall_sel star + 8 = s_ds s /\ get star_sysret_sel star = GDT_USER_CS32
  /\ msr s 0xC0000082 = Some (a_syscall_entry64 a) /\ msr s 0xC0000083 = Some (a_syscall_entry32 a)
  /\ msr s 0xC0000084 = Some mask /\ get rf_if mask = 1 /\ get rf_tf mask = 1 /\ get rf_df mask = 1
  /\ msr s 0xC0000080 = Some efer /\ get efer_sce efer = 1 /\ get efer_lme efer = 1
  /\ get efer_lma efer = 1.
Proof.
  intros Ha. destruct (setup_main_cpu_Ok a Ha) as (d & g & Hs & Hd & Hb & Hl & Hty & Hp & Ho & Hsel & _ & Hgt & Hdpl & Hgp).
  eexists _, d, g, _, _, _. split; [exact Hs|]. cbn [s_gdt s_cs s_ds s_tr s_rsp0 s_gdt_limit s_idt s_idt_limit].
  split; [by eexists|]. split; [by eexists|]. split; [exact Hd|]. split; [done|].
  do 6 (split; [done|]). split; [apply list_lookup_insert_eq; rewrite length_replicate; lia|]. do 5 (split; [done|]). split.
  { intros i v Hv Hi. rewrite list_lookup_insert_ne in Hv by done. apply lookup_replicate in Hv as [-> _]. done. }
  repeat split.
Qed.

Definition demo_addresses : addresses :=
  Addrs 0xFFFFFFFF82000000 0xFFFFFFFF82345678 0xFFFFFFFF82201234 0xFFFFFFFF82201300 0xFFFFFFFF82201320.

Lemma x86_setup_witness :
  exists s g, setup_main_cpu demo_addresses = Ok s /\ s_idt s !! 3%nat = Some g
  /\ gate_offset g = 0xFFFFFFFF82201234.
Proof.
  destruct (x86_setup demo_addresses) as (s & d & g & star & mask & efer & H); [by repeat split|].
  exists s, g. by destruct_and! H.
Defined.

(** A system call runs on memory outside the trap stack.  The CPU gets
    the start of the trap stack as the stack pointer for system calls, not
    its end, and the return address of the call of the handler lands below
    the stack. *)
Theorem syscall_outside_stack a s rsp :
  addresses_ok a -> setup_main_cpu a = Ok s ->
  exists cx, syscall_entry64 (context_new s) rsp = (cx, a_trap_stack a - 8, a_trap_stack a - 8)
  /\ user_rsp cx = rsp /\ s_trap_rsp s = s_rsp0 s - TRAP_STACK
  /\ ~ (a_trap_stack a <= a_trap_stack a - 8 < s_rsp0 s).
Proof.
  intros Ha Hs. destruct (setup_main_cpu_Ok a Ha) as (d & g & Hs' & _). rewrite Hs in Hs'.
  injection Hs' as ->. eexists. split; [reflexivity|]. cbn [user_rsp s_trap_rsp s_rsp0]. split; [done|]. lia.
Qed.

Lemma syscall_outside_stack_witness :
  exists s cx, setup_main_cpu demo_addresses = Ok s
  /\ syscall_entry64 (context_new s) 0x7FFFFFF0 = (cx, 0xFFFFFFFF81FFFFF8, 0xFFFFFFFF81FFFFF8).
Proof.
  destruct (setup_main_cpu_Ok demo_addresses) as (d & g & Hs & _); [by repeat split|].
  destruct (syscall_outside_stack demo_addresses _ 0x7FFFFFF0 ltac:(by repeat split) Hs) as (cx & Hc & _).
  eexists _, cx. split; [exact Hs|]. exact Hc.
Defined.

End X86Props.
