(* ===== verification/Aarch64.v ===== *)
(** * Page tables and main CPU on aarch64

    Models [lib/hv/src/ram/aarch64.rs] with the builder of
    [lib/hv/src/ram/builder.rs] as it is compiled for aarch64,
    [gui/src/vmm/aarch64.rs], and the registers of [lib/hv/src/aarch64.rs] that
    it sets.  The specification is the translation of addresses by the memory
    management unit, from the values of its registers. *)
From S2P Require Import Prelude BTree Ram TableTree Thread X86 Loader.

Module Aarch64.
Import TableTree Ram.
Local Open Scope Z_scope.

(** ** The builder *)

Record AllocInfo := Info { paddr : Z; vaddr : Z; info_len : Z; attr : Z }.

Record t := Mk {
  hv_ram : Ram.t;
  next : Z;
  allocs : list AllocInfo (* [allocated] *)
}.

Inductive RamBuilderError :=
  | AllocPageTableLevel0 (e : RamError)
  | AllocPageTableLevel1 (e : RamError)
  | AllocPageTableLevel2 (e : RamError)
  | AllocPageTableLevel3 (e : RamError)
  | DuplicatedVirtualAddr (addr : Z).

(** [Context16K]; the maps are keyed by the physical address of the table. *)
Record Context16K := Cx {
  l0t : Table;
  l1t : gmap Z Table;
  l2t : gmap Z Table;
  l3t : gmap Z Table
}.

Definition new (r : Ram.t) (start_addr : Z) : outcome RamError t :=
  assert_that (start_addr mod block_size r =? 0);;
  Ok (Mk r start_addr []).

Definition alloc (h : host) (b : t) (vaddr' : option Z) (len' attr' : Z)
    : outcome RamError (Z * LockedMem * t) :=
  let paddr := next b in
  let vaddr := default paddr vaddr' in
  assert_that (vaddr mod vm_page_size (hv_ram b) =? 0);;
  n ← ok_or InvalidAddr (checked_next_multiple_of len' (block_size (hv_ram b)));
  '(g, r) ← Ram.alloc h (hv_ram b) paddr n;
  next' ← uadd (next b) n;
  Ok (paddr, g, Mk r next' (allocs b ++ [Info paddr vaddr len' attr'])).

(** A table of [n] bytes at the next free address. *)
Definition alloc_table (h : host) (b : t) (n : Z) : outcome RamError (Z * t) :=
  let addr := next b in
  n ← next_multiple_of n (block_size (hv_ram b));
  '(_, r) ← Ram.alloc h (hv_ram b) addr n;
  next' ← uadd (next b) n;
  Ok (addr, Mk r next' (allocs b)).

Definition alloc_16k_page_table (h : host) (b : t) : outcome RamError (Table * Z * t) :=
  '(addr, b) ← alloc_table h b (8 * 2048);
  Ok (replicate 2048 0, addr, b).

(** ** Page tables *)

(** The bits that an address of a table or page must not have. *)
Definition addr_mask : Z := 0xFFFF000000003FFF.

(** The value that [set_table_descriptor] stores. *)
Definition set_table_descriptor {E} (addr : Z) : outcome E Z :=
  assert_that (Z.land addr addr_mask =? 0);;
  Ok (Z.lor (Z.lor addr 3) (Z.shiftl 1 10)).

(** One level of the descent. *)
Definition next_table (h : host) (err : RamError -> RamBuilderError) (b : t)
    (tab : Table) (idx : Z) (children : gmap Z Table)
    : outcome RamBuilderError (t * Table * gmap Z Table * Z) :=
  v ← arr_get tab idx;
  if v =? 0 then
    '(child, addr, b') ← map_err err (alloc_16k_page_table h b);
    e ← set_table_descriptor addr;
    tab' ← arr_set tab idx e;
    match children !! addr with
    | Some _ => Panic PUnreachable
    | None => Ok (b', tab', <[addr := child]> children, addr)
    end
  else
    let addr := Z.land v 0xFFFFFFFFC000 in
    match children !! addr with
    | Some _ => Ok (b, tab, children, addr)
    | None => Panic PUnwrap
    end.

(** The three upper levels for one page: the address of its table of level 3,
    in tables where the path to it is linked. *)
Definition descend (h : host) (bc : t * Context16K) (addr : Z)
    : outcome RamBuilderError (t * Context16K * Z) :=
  let '(b, cx) := bc in
  (* Get level 1 table. *)
  let l0o := Z.shiftr (Z.land addr 0x800000000000) 47 in
  '(b, l0t', l1t', a1) ← next_table h AllocPageTableLevel1 b (l0t cx) l0o (l1t cx);
  (* Get level 2 table. *)
  let l1o := Z.shiftr (Z.land addr 0x7FF000000000) 36 in
  t1 ← unwrap_or_panic PUnwrap (l1t' !! a1);
  '(b, t1', l2t', a2) ← next_table h AllocPageTableLevel2 b t1 l1o (l2t cx);
  (* Get level 3 table. *)
  let l2o := Z.shiftr (Z.land addr 0xFFE000000) 25 in
  t2 ← unwrap_or_panic PUnwrap (l2t' !! a2);
  '(b, t2', l3t', a3) ← next_table h AllocPageTableLevel3 b t2 l2o (l3t cx);
  Ok (b, Cx l0t' (<[a1 := t1']> l1t') (<[a2 := t2']> l2t') l3t', a3).
Arguments descend : simpl never.

(** The descriptor of a page. *)
Definition page_descriptor (paddr attr : Z) : Z :=
  let desc := Z.lor paddr 3 in
  let desc := Z.lor desc (Z.shiftl attr 2) in
  let desc := Z.lor desc (Z.shiftl 0 6) in
  let desc := Z.lor desc (Z.shiftl 3 8) in
  Z.lor desc (Z.shiftl 1 10).

(** The body of the loop of [setup_16k_page_tables] for one page. *)
Definition map_page (h : host) (vaddr paddr attr : Z) (bc : t * Context16K) (off : Z)
    : outcome RamBuilderError (t * Context16K) :=
  addr ← uadd vaddr off;
  '(b, cx, a3) ← descend h bc addr;
  (* Set page descriptor. *)
  let l3o := Z.shiftr (Z.land addr 0x1FFC000) 14 in
  pa ← uadd paddr off;
  assert_that (Z.land pa addr_mask =? 0);;
  t3 ← unwrap_or_panic PUnwrap (l3t cx !! a3);
  v ← arr_get t3 l3o;
  fail_if (negb (v =? 0)) (DuplicatedVirtualAddr addr);;
  t3' ← arr_set t3 l3o (page_descriptor pa attr);
  Ok (b, Cx (l0t cx) (l1t cx) (l2t cx) (<[a3 := t3']> (l3t cx))).

Definition setup_16k_page_tables (h : host) (bc : t * Context16K) (vaddr paddr len' attr : Z)
    : outcome RamBuilderError (t * Context16K) :=
  assert_that (vaddr mod 0x4000 =? 0);;
  assert_that (paddr mod 0x4000 =? 0);;
  assert_that (len' mod 0x4000 =? 0);;
  assert_that (Z.land attr 0xF8 =? 0);;
  foldM (map_page h vaddr paddr attr) bc (step_by 0 len' 0x4000).

(** The bodies of the loops of [build_16k_page_tables]. *)
Definition map_alloc (h : host) (bc : t * Context16K) (i : AllocInfo) : outcome RamBuilderError (t * Context16K) :=
  n ← next_multiple_of (info_len i) 0x4000;
  setup_16k_page_tables h bc (vaddr i) (paddr i) n (attr i).

Definition map_device (h : host) (bc : t * Context16K) (d : AllocInfo) : outcome RamBuilderError (t * Context16K) :=
  n ← unwrap_or_panic PUnwrap (checked_next_multiple_of (info_len d) 0x4000);
  assert_that (len (hv_ram bc.1) <=? paddr d);;
  setup_16k_page_tables h bc (vaddr d) (paddr d) n (attr d).

(** Returns the address of the level 0 table; the tables are left in guest
    memory, which the second component shows. *)
Definition build_16k_page_tables (h : host) (b : t) (devices : list AllocInfo)
    : outcome RamBuilderError (Z * (t * Context16K)) :=
  '(page_table, b) ← map_err AllocPageTableLevel0 (alloc_table h b (8 * 32));
  let cx := Cx (replicate 32 0) ∅ ∅ ∅ in
  let infos := allocs b in
  bc ← foldM (map_alloc h) (Mk (hv_ram b) (next b) [], cx) infos;
  bc ← foldM (map_device h) bc devices;
  Ok (page_table, bc).

(** The dispatch of [build_page_table] on an aarch64 host. *)
Definition build_page_table (h : host) (b : t) (devices : list AllocInfo)
    : outcome RamBuilderError (Z * (t * Context16K)) :=
  if vm_page_size (hv_ram b) =? 0x4000 then build_16k_page_tables h b devices
  else Panic PTodo.

(** ** The main CPU *)

Definition MEMORY_ATTRS : list Z := [0; 0xFF; 0; 0; 0; 0; 0; 0].
Definition MEMORY_DEV_NG_NR_NE : Z := 0.
Definition MEMORY_NORMAL : Z := 1.

(** Fields of [Pstate], [Sctlr], [Tcr] and [Mmfr0]: the first bit and the length. *)
Definition ps_m : Z * Z := (0, 4).
Definition ps_f : Z * Z := (6, 1).
Definition ps_i : Z * Z := (7, 1).
Definition ps_a : Z * Z := (8, 1).
Definition ps_d : Z * Z := (9, 1).
Definition sc_m : Z * Z := (0, 1).
Definition sc_c : Z * Z := (2, 1).
Definition sc_itd : Z * Z := (7, 1).
Definition sc_i : Z * Z := (12, 1).
Definition sc_tscxt : Z * Z := (20, 1).
Definition sc_span : Z * Z := (23, 1).
Definition sc_ntlsmd : Z * Z := (28, 1).
Definition sc_lsmaoe : Z * Z := (29, 1).
Definition tcr_t0sz : Z * Z := (0, 6).
Definition tcr_irgn0 : Z * Z := (8, 2).
Definition tcr_orgn0 : Z * Z := (10, 2).
Definition tcr_sh0 : Z * Z := (12, 2).
Definition tcr_tg0 : Z * Z := (14, 2).
Definition tcr_t1sz : Z * Z := (16, 6).
Definition tcr_irgn1 : Z * Z := (24, 2).
Definition tcr_orgn1 : Z * Z := (26, 2).
Definition tcr_sh1 : Z * Z := (28, 2).
Definition tcr_tg1 : Z * Z := (30, 2).
Definition tcr_ips : Z * Z := (32, 3).
Definition mmfr0_pa_range : Z * Z := (0, 4).

(** [with_*] of several fields, from zero. *)
Definition with_fields (fs : list (Z * Z * Z)) : outcome Thread.no_error Z :=
  foldM (fun v f => X86.with_ f.1 f.2 v) 0 fs.

Record CpuStates := Cpu {
  pstate : Z; sctlr : Z; mair_el1 : Z; tcr : Z; ttbr0_el1 : Z; ttbr1_el1 : Z;
  x0 : Z; x1 : Z; x2 : Z; sp_el1 : Z; pc : Z
}.

(** [setup_main_cpu]: the states that are committed.  [mmfr0] is the register
    that describes the memory model of the host. *)
Definition setup_main_cpu (mmfr0 page_size entry : Z) (map : Loader.RamMap) : outcome Thread.no_error CpuStates :=
  ps ← with_fields [(ps_m, 5); (ps_f, 1); (ps_i, 1); (ps_a, 1); (ps_d, 1)];
  sc ← with_fields [(sc_m, 1); (sc_c, 1); (sc_itd, 1); (sc_i, 1); (sc_tscxt, 1); (sc_span, 1); (sc_ntlsmd, 1); (sc_lsmaoe, 1)];
  tg1 ← (if page_size =? 0x4000 then Ok 1 else Panic PTodo);
  tg0 ← (if page_size =? 0x4000 then Ok 2 else Panic PTodo);
  tcr ← with_fields [(tcr_ips, X86.get mmfr0_pa_range mmfr0);
    (tcr_tg1, tg1); (tcr_sh1, 3); (tcr_orgn1, 1); (tcr_irgn1, 1); (tcr_t1sz, 16);
    (tcr_tg0, tg0); (tcr_sh0, 3); (tcr_orgn0, 1); (tcr_irgn0, 1); (tcr_t0sz, 16)];
  sp ← unwrap_or_panic PUnwrap (checked_add (Loader.stack_vaddr map) (Loader.stack_len map));
  Ok (Cpu ps sc (le_value MEMORY_ATTRS) tcr (Loader.page_table map) (Loader.page_table map)
        (Loader.map_vaddr map) (Loader.env_vaddr map) (Loader.conf_vaddr map) sp entry).

(** ** Specification: the translation of addresses *)

(** The tables in guest memory, by physical address. *)
Definition guest_tables (root : Z) (cx : Context16K) : gmap Z Table :=
  <[root := l0t cx]> (l1t cx ∪ l2t cx ∪ l3t cx).

(** Bits 14 to 47 of a descriptor are the address; bits 0 and 1 say that it is
    a valid descriptor of a table or, on the last level, of a page. *)
Definition desc_addr (e : Z) : Z := Z.land e 0xFFFFFFFFC000.
Definition desc_valid (e : Z) : bool := Z.testbit e 0 && Z.testbit e 1.

(** The indices of a virtual address, for pages of 16 KiB. *)
Definition indices (va : Z) : index :=
  (Z.to_nat ((va / 2 ^ 47) mod 2), (Z.to_nat ((va / 2 ^ 36) mod 2048),
    (Z.to_nat ((va / 2 ^ 25) mod 2048), Z.to_nat ((va / 2 ^ 14) mod 2048)))).

(** The physical address of a virtual address and the index of its memory
    attribute.  A page without the access flag (bit 10) faults. *)
Definition walk (m : gmap Z Table) (root va : Z) : option (Z * Z) :=
  e ← TableTree.walk desc_addr desc_valid m root (indices va);
  if Z.testbit e 10 then Some (desc_addr e + va mod 0x4000, (e / 4) mod 8) else None.

(** What the unit does with a virtual address, when the registers say that it
    is on, that pages have 16 KiB and that addresses have 48 bits: the lower
    half is translated with [TTBR0_EL1], the upper one with [TTBR1_EL1].  The
    second component is the memory attribute from [MAIR_EL1]. *)
Definition mmu (c : CpuStates) (m : gmap Z Table) (va : Z) : option (Z * Z) :=
  if (X86.get sc_m (sctlr c) =? 1) && (X86.get tcr_tg0 (tcr c) =? 2) && (X86.get tcr_tg1 (tcr c) =? 1)
     && (X86.get tcr_t0sz (tcr c) =? 16) && (X86.get tcr_t1sz (tcr c) =? 16)
  then
    root ← (if (0 <=? va) && (va <? 2 ^ 48) then Some (ttbr0_el1 c)
            else if (2 ^ 64 - 2 ^ 48 <=? va) && (va <? 2 ^ 64) then Some (ttbr1_el1 c) else None);
    '(pa, idx) ← walk m root va;
    Some (pa, Z.land (Z.shiftr (mair_el1 c) (8 * idx)) 0xFF)
  else None.

End Aarch64.
