(* ===== verification/Aarch64Props.v ===== *)
(** * Correctness of the aarch64 page tables

    The memory management unit, with the registers that the main CPU starts
    with, translates exactly the pages that were asked for, with the memory
    attributes that were asked for. *)
From S2P Require Import Prelude BTree Ram RamProps TableTree Thread X86 X86Props Loader Aarch64.

Module Aarch64Props.
Import TableTree Ram RamProps Aarch64.
Local Open Scope Z_scope.

(** ** Descriptors *)

(** Addresses that fit in a descriptor. *)
Definition good (c : Z) : Prop := 0 <= c < 2 ^ 48 /\ c mod 0x4000 = 0.

Lemma addr_mask_good c : 0 <= c < 2 ^ 64 -> Z.land c addr_mask = 0 <-> good c.
Proof.
  intros Hc. unfold addr_mask, good. change 0xFFFF000000003FFF with (Z.lor (Z.shiftl (Z.ones 16) 48) (Z.ones 14)).
  rewrite Z.land_lor_distr_r, Z.lor_eq_0_iff, Z.land_ones, land_field by lia.
  assert (0 <= c / 2 ^ 48 < 2 ^ 16) by (split; [apply Z.div_pos; lia|apply Z.div_lt_upper_bound; lia]).
  rewrite (Z.mod_small (c / 2 ^ 48)) by lia. change (2 ^ 14) with 0x4000.
  assert (c / 2 ^ 48 * 2 ^ 48 = 0 <-> c < 2 ^ 48) as ->; [|naive_solver lia].
  pose proof (Z.div_small_iff c (2 ^ 48) ltac:(lia)). lia.
Qed.

(** The flags of a descriptor, which are below its address. *)
Definition table_flags : Z := 0x403.
Definition page_flags (attr : Z) : Z := 0x703 + 4 * attr.

Lemma lor_flags c f : good c -> 0 <= f < 0x4000 -> Z.lor c f = c + f.
Proof. intros [Hc Hm] Hf. by apply (lor_low _ _ 14). Qed.

Lemma set_table_descriptor_Ok {E} addr e :
  @set_table_descriptor E addr = Ok e -> 0 <= addr < 2 ^ 64 -> good addr /\ e = addr + table_flags.
Proof.
  intros H Ha. unfold set_table_descriptor in H. inv_ok. bool_to_prop.
  assert (good addr) as Hg by (by apply addr_mask_good). split; [done|].
  rewrite <- Z.lor_assoc. change (Z.lor 3 (Z.shiftl 1 10)) with table_flags. by apply lor_flags.
Qed.

Lemma page_descriptor_eq c attr :
  good c -> 0 <= attr < 8 -> page_descriptor c attr = c + page_flags attr.
Proof.
  intros Hg Ha. unfold page_descriptor. cbv zeta. rewrite <- !Z.lor_assoc.
  assert (attr = 0 \/ attr = 1 \/ attr = 2 \/ attr = 3 \/ attr = 4 \/ attr = 5 \/ attr = 6 \/ attr = 7) as Hc by lia.
  rewrite lor_flags; [|done|]; repeat (destruct Hc as [->|Hc]; [done|]); by rewrite Hc.
Qed.

Lemma desc_addr_flags c f : good c -> 0 <= f < 0x4000 -> desc_addr (c + f) = c.
Proof.
  intros [Hc Hm] Hf. unfold desc_addr. change 0xFFFFFFFFC000 with (Z.shiftl (Z.ones 34) 14).
  rewrite land_field by done. apply Z.mod_divide in Hm as [q ->]; [|done].
  change (2 ^ 14) with 0x4000. rewrite Z.div_add_l, (Z.div_small f), Z.add_0_r, Z.mod_small by lia. lia.
Qed.

(** A bit below the address is a bit of the flags. *)
Lemma flags_bit c f n : good c -> 0 <= n < 14 -> Z.testbit (c + f) n = Z.testbit f n.
Proof.
  intros [Hc Hm] Hn. apply Z.mod_divide in Hm as [q ->]; [|done].
  rewrite <- (Z.mod_pow2_bits_low (q * 0x4000 + f) 14), <- (Z.mod_pow2_bits_low f 14) by lia.
  f_equal. change (2 ^ 14) with 0x4000. rewrite Z.add_comm. by apply Z.mod_add.
Qed.

Lemma flags_attr c f : good c -> 0 <= f < 0x4000 -> ((c + f) / 4) mod 8 = (f / 4) mod 8.
Proof.
  intros [Hc Hm] Hf. apply Z.mod_divide in Hm as [q ->]; [|done].
  replace (q * 0x4000 + f) with (f + (q * 0x1000) * 4) by lia. rewrite Z.div_add by lia.
  replace (q * 0x1000) with ((q * 0x200) * 8) by lia. by rewrite Z.mod_add by lia.
Qed.

Abbreviation entry := (fun c => c + table_flags).

#[export] Instance arm_entries : Entries entry desc_addr good.
Proof.
  split; [intros c Hc; by apply desc_addr_flags|]. intros c [? _]. unfold table_flags. lia.
Qed.

Lemma entry_valid c : good c -> desc_valid (entry c) = true.
Proof. intros Hc. unfold desc_valid. by rewrite !flags_bit. Qed.

Lemma page_valid c attr : good c -> 0 <= attr < 8 -> desc_valid (c + page_flags attr) = true.
Proof.
  intros Hc Ha. unfold desc_valid. rewrite !flags_bit by done.
  assert (attr = 0 \/ attr = 1 \/ attr = 2 \/ attr = 3 \/ attr = 4 \/ attr = 5 \/ attr = 6 \/ attr = 7) as Hx by lia.
  repeat (destruct Hx as [->|Hx]; [done|]); by rewrite Hx.
Qed.

(** ** Descending one level *)

Definition builder_ok (b : t) : Prop :=
  ram_ok (hv_ram b) /\ 0 <= next b /\ len (hv_ram b) <= 2 ^ 64.

Lemma alloc_table_Ok h b n a b' :
  builder_ok b -> 0 < n -> alloc_table h b n = Ok (a, b') ->
  a = next b /\ next b < next b' /\ a < 2 ^ 64 /\ builder_ok b' /\ len (hv_ram b') = len (hv_ram b)
  /\ allocs b' = allocs b.
Proof.
  intros (Hr & Hn & Hl) H0 H. unfold alloc_table in H. inv_arith.
  lazymatch goal with x : LockedMem * _ |- _ => destruct x as [g r] end.
  inv_arith. pose proof (ok_block _ Hr) as Hbs.
  destruct (round_up_spec n (block_size (hv_ram b))) as [? ?]; [lia..|].
  destruct (alloc_Ok h (hv_ram b) (next b) (round_up n (block_size (hv_ram b))) g r)
    as (_ & _ & _ & Hlen & _ & (al & ->) & Hr' & _); [done|lia|lia|done|].
  unfold builder_ok. cbn [hv_ram next allocs set_allocated len] in *. split_and!; (done || lia).
Qed.

Lemma arm_next_table_Ok h err b tab idx (P C : gmap Z Table) p k b' tab' C' c :
  next_table h err b tab idx C = Ok (b', tab', C', c) ->
  builder_ok b -> level_ok entry good P C -> P !! p = Some tab -> length tab = k ->
  builder_ok b' /\ len (hv_ram b') = len (hv_ram b) /\ length tab' = k /\
  descent entry good 2048 (next b) (next b') P (<[p := tab']> P) C C' p (Z.to_nat idx) c.
Proof.
  intros H Hb Hlv Hp Hlen. unfold next_table in H. inv_ok.
  rename x into v. lazymatch goal with Hg : arr_get _ _ = _ |- _ => apply arr_get_Ok in Hg as [Hi Hv] end.
  destruct (Z.eqb_spec v 0) as [Hv0|Hv0].
  - subst v. inv_ok. destruct x as [[child a] b1]. inv_ok.
    lazymatch goal with Ha : arr_set _ _ _ = _ |- _ => apply arr_set_Ok in Ha as [_ ->] end.
    destruct (C !! a) eqn:HC; [done|]. inv_ok.
    lazymatch goal with Ha : alloc_16k_page_table _ _ = _ |- _ =>
      unfold alloc_16k_page_table in Ha; apply bind_Ok in Ha as ([a0 b0] & Ha & [= <- -> ->]);
      apply alloc_table_Ok in Ha as (-> & Hnx & Hlt & Hb' & Hram & _); [|done..] end.
    lazymatch goal with He : set_table_descriptor _ = _ |- _ =>
      apply set_table_descriptor_Ok in He as [Hg ->]; [|destruct Hb; lia] end.
    rewrite length_insert. split_and!; try done. apply (descent_link entry desc_addr good); (done || lia).
  - destruct (C !! Z.land v 0xFFFFFFFFC000) eqn:HC; [|done]. inv_ok. rewrite (insert_id P) by done.
    split_and!; try done. eapply (descent_follow entry desc_addr good); (done || eauto).
Qed.

(** The tables as a tree. *)
Definition tree_of (cx : Context16K) : tree := Tree (l0t cx) (l1t cx) (l2t cx) (l3t cx).

Abbreviation table_state := (state entry desc_addr good 32 2048).

Lemma field_index addr lo n mask :
  0 <= lo -> 0 <= n -> mask = Z.shiftl (Z.ones n) lo ->
  Z.shiftr (Z.land addr mask) lo = (addr / 2 ^ lo) mod 2 ^ n.
Proof. intros Hlo Hn ->. by rewrite shiftr_field. Qed.

(** The successful descent, as the three steps it is made of. *)
Lemma arm_descend_Ok h root acc b cx addr b3 cx3 a1 :
  builder_ok b -> table_state (next b) root acc (tree_of cx) -> descend h (b, cx) addr = Ok (b3, cx3, a1) ->
  builder_ok b3 /\ len (hv_ram b3) = len (hv_ram b) /\
  exists n1 n2 m4 t3 t2 c3 c2 c1 a3 a2,
    descent entry good 2048 (next b) n1 (l4 root (tree_of cx)) {[root := m4]} (l1t cx) c3 root (indices addr).1 a3
    /\ descent entry good 2048 n1 n2 c3 (<[a3 := t3]> c3) (l2t cx) c2 a3 (indices addr).2.1 a2
    /\ descent entry good 2048 n2 (next b3) c2 (<[a2 := t2]> c2) (l3t cx) c1 a2 (indices addr).2.2.1 a1
    /\ (length m4 = 32%nat /\ length t3 = 2048%nat /\ length t2 = 2048%nat)
    /\ cx3 = Cx m4 (<[a3 := t3]> c3) (<[a2 := t2]> c2) c1.
Proof.
  intros Hb Hst H. unfold descend in H. cbn [indices fst snd].
  rewrite (field_index _ 47 1), (field_index _ 36 11), (field_index _ 25 11) in H by done.
  apply bind_Ok in H as ([[[b1 m4] c3] a3] & N4 & H). apply bind_Ok in H as (s3 & L3%unwrap_or_panic_Ok & H).
  apply bind_Ok in H as ([[[b2 t3] c2] a2] & N3 & H). apply bind_Ok in H as (s2 & L2%unwrap_or_panic_Ok & H).
  apply bind_Ok in H as ([[[b3' t2] c1] a1'] & N2 & [= -> <- ->]).
  destruct (st_tree _ _ _ _ _ _ _ _ _ Hst) as [V4 V3 V2 B4 B3 B2 B1 _ _ _ _ _ _]. cbn [tree_of m3 m2 m1] in *.
  apply (arm_next_table_Ok _ _ _ _ _ (l4 root (tree_of cx)) _ root 32) in N4 as (Hb1 & ? & Hl4 & D4);
    [|done..|apply lookup_singleton_eq|eapply B4, lookup_singleton_eq].
  unfold l4 in D4 at 2. rewrite insert_singleton_eq in D4.
  pose proof (ds_next _ _ _ _ _ _ _ _ _ _ _ _ D4).
  apply (arm_next_table_Ok _ _ _ _ _ c3 _ a3 2048) in N3 as (Hb2 & ? & Hl3 & D3);
    [|done|by eapply level_ok_slots; [|apply (ds_child_slots _ _ D4)|]|done|by eapply (ds_child_tabs _ _ D4)].
  pose proof (ds_next _ _ _ _ _ _ _ _ _ _ _ _ D3).
  apply (arm_next_table_Ok _ _ _ _ _ c2 _ a2 2048) in N2 as (Hb3 & ? & Hl2 & D2);
    [|done|by eapply level_ok_slots; [|apply (ds_child_slots _ _ D3)|]|done
     |by eapply (ds_child_tabs _ _ D3); [eapply tabs_ok_mono; [done|lia]|]].
  split; [done|]. split; [congruence|].
  exists (next b1), (next b2), m4, t3, t2, c3, c2, c1, a3, a2. split_and!; assumption || reflexivity.
Qed.

(** ** All the pages *)

(** A page: its virtual and physical address and its attribute. *)
Record page := Page { p_va : Z; p_pa : Z; p_attr : Z }.

Definition page_ok (p : page) : Prop := good (p_pa p) /\ 0 <= p_attr p < 8.

(** The indices and the descriptor of a page. *)
Definition leaf (p : page) : index * Z := (indices (p_va p), p_pa p + page_flags (p_attr p)).

(** The tables map exactly the pages in [acc]; the RAM has [n] bytes. *)
Definition state_ok (n root : Z) (acc : list page) (bc : t * Context16K) : Prop :=
  builder_ok bc.1 /\ len (hv_ram bc.1) = n /\ table_state (next bc.1) root (leaf <$> acc) (tree_of bc.2)
  /\ Forall page_ok acc.

Lemma map_page_arm h n root acc vaddr paddr attr bc off bc' :
  state_ok n root acc bc -> 0 <= paddr + off -> 0 <= attr < 8 ->
  map_page h vaddr paddr attr bc off = Ok bc' ->
  state_ok n root (acc ++ [Page (vaddr + off) (paddr + off) attr]) bc'.
Proof.
  intros (Hb & Hn & Hst & Hps) Hpa Hat H. destruct bc as [b cx]. cbn [fst snd] in *. unfold map_page in H.
  apply bind_Ok in H as (addr & [-> Hva]%uadd_Ok & H). apply bind_Ok in H as ([[b3 cx3] a1] & Hd & H).
  rewrite (field_index _ 14 11) in H by done.
  apply (arm_descend_Ok _ root (leaf <$> acc)) in Hd
    as (Hb3 & Hr & n1 & n2 & m4 & t3 & t2 & c3 & c2 & c1 & a3 & a2 & D4 & D3 & D2 & Hl & ->); [|done..].
  apply bind_Ok in H as (pa & [-> Hp]%uadd_Ok & H). apply bind_Ok in H as ([] & Hm%assert_that_Ok%Z.eqb_eq & H).
  apply bind_Ok in H as (t1 & Ht1%unwrap_or_panic_Ok & H). apply bind_Ok in H as (e & [_ He]%arr_get_Ok & H).
  apply bind_Ok in H as ([] & Hz%fail_if_Ok%negb_false_iff%Z.eqb_eq & H). subst e.
  apply bind_Ok in H as (t1' & [_ ->]%arr_set_Ok & [= <-]).
  assert (good (paddr + off)) as Hg by (apply addr_mask_good; [lia|done]).
  assert (page_ok (Page (vaddr + off) (paddr + off) attr)) as Hpo by done.
  split; [done|]. split; [cbn [fst]; congruence|]. split; [|apply Forall_app; split; [done|by constructor]].
  rewrite page_descriptor_eq, fmap_app by done. destruct Hg as [? _].
  eapply (state_step entry desc_addr good 32 2048 _ n1 n2 _ root _ (tree_of cx) m4 t3 t2 t1 c3 c2 c1
    (indices (vaddr + off)) a3 a2 a1 (paddr + off + page_flags attr)); try done.
  unfold page_flags. lia.
Qed.

(** The pages of a region. *)
Definition region_page (i : AllocInfo) (off : Z) : page := Page (vaddr i + off) (paddr i + off) (attr i).
Definition region (i : AllocInfo) : list page := region_page i <$> step_by 0 (round_up (info_len i) 0x4000) 0x4000.

(** The fields of a region are unsigned integers. *)
Definition region_ok (i : AllocInfo) : Prop := 0 <= paddr i /\ 0 <= attr i < 256.

Definition aligned (i : AllocInfo) : Prop := vaddr i mod 0x4000 = 0 /\ paddr i mod 0x4000 = 0.

Lemma attr_mask a : 0 <= a < 256 -> Z.land a 0xF8 = 0 -> a < 8.
Proof.
  intros Ha. change 0xF8 with (Z.shiftl (Z.ones 5) 3). rewrite land_field by done.
  rewrite Z.mod_small by (split; [apply Z.div_pos; lia|apply Z.div_lt_upper_bound; lia]).
  pose proof (Z.div_small_iff a (2 ^ 3) ltac:(lia)). lia.
Qed.

Lemma setup_arm h n root acc bc i bc' :
  state_ok n root acc bc -> region_ok i ->
  setup_16k_page_tables h bc (vaddr i) (paddr i) (round_up (info_len i) 0x4000) (attr i) = Ok bc' ->
  state_ok n root (acc ++ region i) bc' /\ aligned i.
Proof.
  intros Hst [Hp Ha] H. unfold setup_16k_page_tables in H.
  apply bind_Ok in H as ([] & H1%assert_that_Ok%Z.eqb_eq & H). apply bind_Ok in H as ([] & H2%assert_that_Ok%Z.eqb_eq & H).
  apply bind_Ok in H as ([] & _ & H). apply bind_Ok in H as ([] & H4%assert_that_Ok%Z.eqb_eq & H).
  apply attr_mask in H4; [|done]. split; [|done].
  apply (foldM_inv _ (fun d s => state_ok n root (acc ++ (region_page i <$> d)) s) []) in H; [done| |by rewrite app_nil_r].
  intros d s off s' Hs Hoff Hf. rewrite fmap_app, app_assoc. apply elem_of_step_by in Hoff; [|lia].
  by eapply map_page_arm; [exact Hs|lia|lia|exact Hf].
Qed.

(** The loops over the allocated memory and over the devices. *)
Lemma build_loop (f : t * Context16K -> AllocInfo -> outcome RamBuilderError (t * Context16K)) n root acc bc l bc' :
  (forall acc bc i bc', state_ok n root acc bc -> i ∈ l -> f bc i = Ok bc' ->
     state_ok n root (acc ++ region i) bc' /\ aligned i) ->
  state_ok n root acc bc -> foldM f bc l = Ok bc' ->
  state_ok n root (acc ++ (l ≫= region)) bc' /\ Forall aligned l.
Proof.
  intros Hf Hst H.
  apply (foldM_inv _ (fun d s => state_ok n root (acc ++ (d ≫= region)) s /\ Forall aligned d) []) in H; [done| |].
  - intros d s i s' [Hs Hal] Hi Hs'. destruct (Hf _ _ _ _ Hs Hi Hs') as [Hst' Hi'].
    rewrite bind_app, bind_singleton, app_assoc. split; [done|].
    apply Forall_app. split; [done|by constructor].
  - cbn. by rewrite app_nil_r.
Qed.

(** What a successful build went through. *)
Lemma arm_build_Ok h b devices root b' cx :
  builder_ok b -> Forall region_ok (allocs b ++ devices) ->
  build_16k_page_tables h b devices = Ok (root, (b', cx)) ->
  state_ok (len (hv_ram b)) root ((allocs b ++ devices) ≫= region) (b', cx)
  /\ Forall aligned (allocs b ++ devices) /\ root = next b.
Proof.
  intros Hb Hr H. rewrite Forall_forall in Hr. unfold build_16k_page_tables in H.
  apply bind_Ok in H as ([pt b1] & Ha%map_err_Ok & H).
  apply alloc_table_Ok in Ha as (-> & Hnx & _ & Hb1 & Hlen & Hal); [|done..].
  apply bind_Ok in H as (bc1 & H1 & H). apply bind_Ok in H as (bc2 & H2 & [= <- ->]).
  rewrite Hal in H1. rewrite bind_app.
  apply (build_loop _ (len (hv_ram b)) (next b) []) in H1 as [Hst1 Hal1].
  - apply (build_loop _ (len (hv_ram b)) (next b)) with (acc := allocs b ≫= region) in H2 as [Hst2 Hal2]; [|clear H2|done].
    + split; [done|]. split; [by apply Forall_app|done].
    + intros acc bc i bc' Hst Hi Hf. unfold map_device in Hf.
      apply bind_Ok in Hf as (n & (_ & -> & _)%unwrap_or_panic_Ok%checked_next_multiple_of_Some & Hf).
      apply bind_Ok in Hf as ([] & _ & Hf). eapply setup_arm; [done| |done]. apply Hr, elem_of_app. by right.
  - intros acc bc i bc' Hst Hi Hf. unfold map_alloc in Hf.
    apply bind_Ok in Hf as (n & (_ & -> & _)%next_multiple_of_Ok & Hf).
    eapply setup_arm; [done| |done]. apply Hr, elem_of_app. by left.
  - split; [done|]. split; [done|]. split; [|done]. by apply state_empty.
Qed.

(** ** The page walk *)

(** Two virtual addresses have the same indices when bits 14 to 47 agree. *)
Lemma arm_digits p :
  p mod 2 ^ 34 = p mod 2048 + 2048 * ((p / 2 ^ 11) mod 2048
    + 2048 * ((p / 2 ^ 22) mod 2048 + 2048 * ((p / 2 ^ 33) mod 2))).
Proof.
  change (2 ^ 34) with (2048 * (2048 * (2048 * 2))). rewrite !Z.rem_mul_r by lia.
  by rewrite !Z.div_div by lia.
Qed.

Lemma arm_digits_inj a b c d a' b' c' d' :
  0 <= a < 2048 -> 0 <= b < 2048 -> 0 <= c < 2048 -> 0 <= d < 2 ->
  0 <= a' < 2048 -> 0 <= b' < 2048 -> 0 <= c' < 2048 -> 0 <= d' < 2 ->
  (Z.to_nat d, (Z.to_nat c, (Z.to_nat b, Z.to_nat a)))
    = (Z.to_nat d', (Z.to_nat c', (Z.to_nat b', Z.to_nat a')))
  <-> a + 2048 * (b + 2048 * (c + 2048 * d)) = a' + 2048 * (b' + 2048 * (c' + 2048 * d')).
Proof. intros. split; [intros [= ? ? ? ?]; lia|]. intros. repeat f_equal; lia. Qed.

Lemma arm_indices_eq va va' :
  indices va = indices va' <-> (va / 0x4000) mod 2 ^ 34 = (va' / 0x4000) mod 2 ^ 34.
Proof.
  unfold indices. rewrite !arm_digits.
  change (2 ^ 47) with (0x4000 * 2 ^ 33). change (2 ^ 36) with (0x4000 * 2 ^ 22).
  change (2 ^ 25) with (0x4000 * 2 ^ 11). change (2 ^ 14) with 0x4000. rewrite <- !Z.div_div by lia.
  apply arm_digits_inj; apply Z.mod_pos_bound; lia.
Qed.

Lemma round_up_16k n : round_up n 0x4000 mod 0x4000 = 0.
Proof. by apply round_up_spec. Qed.

Lemma arm_region_byte i va pa :
  aligned i ->
  (exists p, p ∈ region i /\ indices (p_va p) = indices va /\ pa = p_pa p + va mod 0x4000)
  <-> exists off, 0 <= off < round_up (info_len i) 0x4000
        /\ (vaddr i + off) mod 2 ^ 48 = va mod 2 ^ 48 /\ pa = paddr i + off.
Proof.
  intros [Hv Hp]. change (2 ^ 48) with (0x4000 * 2 ^ 34). rewrite <- page_bytes by (done || apply round_up_16k).
  unfold region. split.
  - intros (p & (o & -> & Ho)%list_elem_of_fmap & Hi%arm_indices_eq & ->). by exists o.
  - intros (o & Ho & Hi & ->). exists (region_page i o).
    split; [apply list_elem_of_fmap; eauto|]. split; [by apply arm_indices_eq|done].
Qed.

Lemma walk_page n root acc bc va pa idx :
  state_ok n root acc bc ->
  walk (guest_tables root bc.2) root va = Some (pa, idx)
  <-> exists p, p ∈ acc /\ indices (p_va p) = indices va /\ pa = p_pa p + va mod 0x4000 /\ idx = p_attr p.
Proof.
  intros (_ & _ & Hst & Hps). unfold walk. change (guest_tables root bc.2) with (guest root (tree_of bc.2)).
  rewrite (walk_path entry desc_addr good 32 2048 desc_valid eq_refl entry_valid _ _ _ _ _ Hst).
  2:{ apply Forall_fmap. eapply Forall_impl; [exact Hps|]. intros p [Hg Ha]. by apply page_valid. }
  pose proof (st_maps _ _ _ _ _ _ _ _ _ Hst (indices va)) as Hm. rewrite Forall_forall in Hps.
  assert (forall p, p ∈ acc -> Z.testbit (p_pa p + page_flags (p_attr p)) 10 = true
            /\ desc_addr (p_pa p + page_flags (p_attr p)) = p_pa p
            /\ ((p_pa p + page_flags (p_attr p)) / 4) mod 8 = p_attr p) as Hd.
  { intros p [Hg Ha]%Hps. unfold page_flags. rewrite flags_bit, desc_addr_flags, flags_attr by (done || lia).
    assert (0x703 + 4 * p_attr p = 3 + (p_attr p + 0x1c0) * 4) as -> by lia.
    rewrite Z.div_add by lia. change (3 / 4) with 0. rewrite Z.add_0_l.
    split; [|split; [done|replace 0x1c0 with (56 * 8) by done; rewrite Z.mod_add, Z.mod_small by lia; done]].
    assert (p_attr p = 0 \/ p_attr p = 1 \/ p_attr p = 2 \/ p_attr p = 3 \/ p_attr p = 4 \/ p_attr p = 5
      \/ p_attr p = 6 \/ p_attr p = 7) as Hx by lia.
    repeat (destruct Hx as [Hx|Hx]; [by rewrite Hx|]); by rewrite Hx. }
  split.
  - destruct (path _ _ _ _ _) as [e|]; [|done].
    destruct (proj1 (list_elem_of_fmap _ _ _) (proj1 (Hm e) eq_refl)) as (p & Heq & Hin).
    pose proof (f_equal fst Heq) as Hi. pose proof (f_equal snd Heq) as He. cbn [fst snd leaf] in Hi, He. subst e.
    destruct (Hd p Hin) as (H10 & Ha & Hat). cbn [mbind option_bind]. rewrite H10, Ha, Hat. intros [= <- <-]. eauto.
  - intros (p & Hin & Hi & -> & ->). destruct (Hd p Hin) as (H10 & Ha & Hat).
    rewrite (proj2 (Hm (p_pa p + page_flags (p_attr p)))).
    + cbn [mbind option_bind]. by rewrite H10, Ha, Hat.
    + apply list_elem_of_fmap. exists p. unfold leaf. by rewrite Hi.
Qed.

(** ** The main CPU *)

(** The registers turn the unit on as [mmu] expects, for every host whose range
    of physical addresses can be written into [TCR_EL1]. *)
Lemma arm_setup_main_cpu_Ok mmfr0 page_size start map c :
  setup_main_cpu mmfr0 page_size start map = Ok c ->
  X86.get sc_m (sctlr c) = 1 /\ X86.get tcr_tg0 (tcr c) = 2 /\ X86.get tcr_tg1 (tcr c) = 1
  /\ X86.get tcr_t0sz (tcr c) = 16 /\ X86.get tcr_t1sz (tcr c) = 16
  /\ X86.get tcr_ips (tcr c) = X86.get mmfr0_pa_range mmfr0
  /\ mair_el1 c = le_value MEMORY_ATTRS /\ ttbr0_el1 c = Loader.page_table map /\ ttbr1_el1 c = Loader.page_table map
  /\ sp_el1 c = Loader.stack_vaddr map + Loader.stack_len map /\ pc c = start /\ page_size = 0x4000.
Proof.
  unfold setup_main_cpu. intros H.
  apply bind_Ok in H as (ps & _ & H). apply bind_Ok in H as (sc & Hsc & H). vm_compute in Hsc. injection Hsc as <-.
  destruct (Z.eqb_spec page_size 0x4000) as [->|]; [|done]. cbn [mbind outcome_bind] in H.
  apply bind_Ok in H as (tc & Htc & H). apply bind_Ok in H as (sp & [-> _]%unwrap_or_panic_Ok%checked_add_Some & [= <-]).
  cbn [sctlr tcr mair_el1 ttbr0_el1 ttbr1_el1 sp_el1 pc].
  assert (X86.get tcr_tg0 tc = 2 /\ X86.get tcr_tg1 tc = 1 /\ X86.get tcr_t0sz tc = 16 /\ X86.get tcr_t1sz tc = 16
    /\ X86.get tcr_ips tc = X86.get mmfr0_pa_range mmfr0) as (? & ? & ? & ? & ?); [|by split_and!].
  unfold with_fields, foldM in Htc. cbn [fst snd] in Htc.
  assert (0 <= X86.get mmfr0_pa_range mmfr0 < 16) as Hr.
  { unfold X86.get, X86.get_bits, mmfr0_pa_range. cbn [fst snd]. rewrite Z.land_ones by lia. by apply Z.mod_pos_bound. }
  set (r := X86.get mmfr0_pa_range mmfr0) in *. clearbody r.
  assert (r < 8) as Hr8.
  { apply bind_Ok in Htc as (v & Hv & _). unfold X86.with_, X86.put in Hv. cbn [tcr_ips fst snd] in Hv.
    destruct (Z.ltb_spec r (2 ^ 3)); [lia|]. by rewrite andb_false_r in Hv. }
  assert (r = 0 \/ r = 1 \/ r = 2 \/ r = 3 \/ r = 4 \/ r = 5 \/ r = 6 \/ r = 7) as Hx by lia.
  repeat (destruct Hx as [->|Hx]; [vm_compute in Htc; injection Htc as <-; by vm_compute|]).
  rewrite Hx in *. vm_compute in Htc. injection Htc as <-. by vm_compute.
Qed.

(** Addresses of the lower and of the upper half. *)
Definition canonical (va : Z) : Prop := 0 <= va < 2 ^ 48 \/ 2 ^ 64 - 2 ^ 48 <= va < 2 ^ 64.

Lemma mmu_walk mmfr0 page_size start map c m va :
  setup_main_cpu mmfr0 page_size start map = Ok c ->
  mmu c m va = if decide (canonical va)
               then '(pa, idx) ← walk m (Loader.page_table map) va;
                    Some (pa, Z.land (Z.shiftr (le_value MEMORY_ATTRS) (8 * idx)) 0xFF)
               else None.
Proof.
  intros H. apply arm_setup_main_cpu_Ok in H as (H1 & H2 & H3 & H4 & H5 & _ & H7 & H8 & H9 & _).
  unfold mmu. rewrite H1, H2, H3, H4, H5, H7, H8, H9. cbn [Z.eqb Pos.eqb andb]. unfold canonical.
  destruct (Z.leb_spec 0 va), (Z.ltb_spec va (2 ^ 48)); cbn [andb];
    [rewrite decide_True by lia; done|..];
    destruct (Z.leb_spec (2 ^ 64 - 2 ^ 48) va), (Z.ltb_spec va (2 ^ 64)); cbn [andb];
    first [rewrite decide_True by lia; done|rewrite decide_False by lia; done].
Qed.

(** The memory attribute that [MAIR_EL1] gives to an index. *)
Lemma mair_attr idx :
  0 <= idx < 8 -> MEMORY_ATTRS !! Z.to_nat idx = Some (Z.land (Z.shiftr (le_value MEMORY_ATTRS) (8 * idx)) 0xFF).
Proof.
  intros H. assert (idx = 0 \/ idx = 1 \/ idx = 2 \/ idx = 3 \/ idx = 4 \/ idx = 5 \/ idx = 6 \/ idx = 7) as Hx by lia.
  repeat (destruct Hx as [->|Hx]; [done|]); by rewrite Hx.
Qed.

(** C4: with the registers that [setup_main_cpu] commits and the tables that
    [build_16k_page_tables] leaves in guest memory, the memory management unit
    of the main CPU translates a virtual address exactly when it is in the lower
    or the upper half of the address space and lies, modulo [2 ^ 48], in an
    allocated region or in a virtual device; it gives the physical address at
    the same offset of that region and the memory attribute that was asked for. *)
Theorem arm_translation h b devices root b' cx mmfr0 start map c va pa ty :
  builder_ok b -> Forall region_ok (allocs b ++ devices) ->
  build_16k_page_tables h b devices = Ok (root, (b', cx)) ->
  setup_main_cpu mmfr0 (vm_page_size (hv_ram b)) start map = Ok c -> Loader.page_table map = root ->
  mmu c (guest_tables root cx) va = Some (pa, ty)
  <-> canonical va /\ exists i off, i ∈ allocs b ++ devices
        /\ 0 <= off < round_up (info_len i) 0x4000
        /\ (vaddr i + off) mod 2 ^ 48 = va mod 2 ^ 48 /\ pa = paddr i + off
        /\ MEMORY_ATTRS !! Z.to_nat (attr i) = Some ty.
Proof.
  intros Hb Hr Hbuild Hs <-. destruct (arm_build_Ok _ _ _ _ _ _ Hb Hr Hbuild) as (Hst & Hal & _).
  rewrite (mmu_walk _ _ _ _ _ _ _ Hs). rewrite Forall_forall in Hal.
  assert (forall i, i ∈ allocs b ++ devices -> forall p, p ∈ region i -> p_attr p = attr i /\ 0 <= attr i < 8) as Hat.
  { intros i Hi p Hp. destruct Hst as (_ & _ & _ & Hps). rewrite Forall_forall in Hps.
    assert (p ∈ (allocs b ++ devices) ≫= region) as Hin by (apply list_elem_of_bind; eauto).
    apply Hps in Hin as [_ ?]. apply list_elem_of_fmap in Hp as (o & -> & _). done. }
  split.
  - case_decide as Hc; [|done]. intros H. split; [done|].
    destruct (walk _ _ va) as [[pa' idx]|] eqn:Hw; [|done]. injection H as -> <-.
    apply (walk_page _ _ _ _ va pa idx Hst) in Hw as (p & Hin & Hi & Hpa & ->).
    apply list_elem_of_bind in Hin as (i & Hp & Hii). destruct (Hat _ Hii _ Hp) as [Ha Hb8].
    destruct (proj1 (arm_region_byte i va pa (Hal _ Hii))) as (off & ? & ? & ?); [by exists p|].
    exists i, off. rewrite Ha. do 4 (split; [done|]). by apply mair_attr.
  - intros (Hc & i & off & Hi & Hoff & Hmod & Hpa & Hty). rewrite decide_True by done.
    destruct (proj2 (arm_region_byte i va pa (Hal _ Hi))) as (p & Hp & Hidx & Hpp); [by exists off|].
    destruct (Hat _ Hi _ Hp) as [Ha H8]. rewrite mair_attr in Hty by done.
    pose proof (proj2 (walk_page _ _ _ _ va pa (p_attr p) Hst)) as Hw. cbn [snd] in Hw. rewrite Hw.
    + cbn [mbind option_bind]. rewrite Ha. congruence.
    + exists p. split; [apply list_elem_of_bind; eauto|done].
Qed.

(** A block of normal memory at [0xFFFF800000000000] and a device. *)
Definition arm_ram : Ram.t := Ram.Mk 0x7f0000000000 0x100000 0x4000 4096 [].
Definition arm_ram1 : Ram.t := set_allocated [(0, Locked)] arm_ram.
Definition arm_builder : t := Mk arm_ram1 0x4000 [Info 0 0xFFFF800000000000 0x4000 MEMORY_NORMAL].
Definition arm_devices : list AllocInfo := [Info 0x100000000 0x100000000 1 MEMORY_DEV_NG_NR_NE].
Definition arm_map : Loader.RamMap := Loader.RMap 0x4000 0 0 0 0xFFFF800000000000 0x4000 0 0 0.

Lemma arm_builder_ok : builder_ok arm_builder.
Proof.
  split; [|done].
  apply (inv_ram (Sys arm_ram1 ∅ (<[0%nat := Guard 0 0x4000]> ∅))), (reachable_inv false).
  exists (Sys arm_ram ∅ ∅). split; [by apply (initial_intro RamProps.demo_host 0x4000 0x100000)|].
  eapply rtc_l; [apply (step_alloc _ _ RamProps.demo_host 0 0x4000 0 (Guard 0 0x4000) arm_ram1); (done || reflexivity)|].
  done.
Qed.

Lemma arm_translation_witness :
  exists b' cx c,
    build_16k_page_tables RamProps.demo_host arm_builder arm_devices = Ok (0x4000, (b', cx))
    /\ setup_main_cpu 5 0x4000 0xFFFF800000000000 arm_map = Ok c
    /\ mmu c (guest_tables 0x4000 cx) 0xFFFF800000001234 = Some (0x1234, 0xFF)
    /\ mmu c (guest_tables 0x4000 cx) 0x100000010 = Some (0x100000010, 0).
Proof.
  destruct (build_16k_page_tables RamProps.demo_host arm_builder arm_devices)
    as [[root [b' cx]]| |] eqn:H; [|vm_compute in H; discriminate H..].
  destruct (setup_main_cpu 5 0x4000 0xFFFF800000000000 arm_map) as [c| |] eqn:Hs; [|vm_compute in Hs; discriminate Hs..].
  assert (root = 0x4000) as -> by (by apply arm_build_Ok in H as (_ & _ & ->); [|apply arm_builder_ok|repeat constructor; discriminate]).
  assert (Forall region_ok (allocs arm_builder ++ arm_devices)) as Hr by (repeat constructor; discriminate).
  exists b', cx, c. split; [reflexivity|]. split; [reflexivity|]. split.
  - apply (arm_translation RamProps.demo_host arm_builder arm_devices 0x4000 b' cx 5 0xFFFF800000000000 arm_map c);
      [apply arm_builder_ok|exact Hr|exact H|exact Hs|reflexivity|].
    split; [right; by split|]. exists (Info 0 0xFFFF800000000000 0x4000 MEMORY_NORMAL), 0x1234.
    split; [left|]. repeat split; discriminate.
  - apply (arm_translation RamProps.demo_host arm_builder arm_devices 0x4000 b' cx 5 0xFFFF800000000000 arm_map c);
      [apply arm_builder_ok|exact Hr|exact H|exact Hs|reflexivity|].
    split; [left; by split|]. exists (Info 0x100000000 0x100000000 1 MEMORY_DEV_NG_NR_NE), 0x10.
    split; [right; left|]. repeat split; discriminate.
Defined.

End Aarch64Props.
