(* ===== verification/VPath.v ===== *)
(** * Paths of the previous kernel

    Models [legacy/src/fs/path.rs]: absolute paths as strings of bytes, with
    the checks, the iterator over the components and the operations that build
    one path from another.  The separator and the dot are ASCII, so positions
    of characters are positions of bytes and every slice that the code takes
    lies between characters. *)
From S2P Require Import Prelude Env.

Module VPath.
Import Env.
Local Open Scope list_scope.

Definition SLASH : Z := 47.
Definition DOT : Z := 46.
Definition root : str := [SLASH].
Definition dot : str := [DOT].
Definition dotdot : str := [DOT; DOT].

(** [str::find] and [str::rfind] of an ASCII character. *)
Fixpoint find (c : Z) (s : str) : option nat :=
  match s with
  | [] => None
  | x :: s' => if x =? c then Some 0%nat else S <$> find c s'
  end.
Fixpoint rfind (c : Z) (s : str) : option nat :=
  match s with
  | [] => None
  | x :: s' =>
      match rfind c s' with
      | Some i => Some (S i)
      | None => if x =? c then Some 0%nat else None
      end
  end.

Definition starts_with (c : Z) (s : str) : bool := if s is x :: _ then x =? c else false.
Definition ends_with (c : Z) (s : str) : bool := if last s is Some x then x =? c else false.

(** [path_contains]. *)
Fixpoint path_contains (p1 p2 : str) : bool :=
  match p1, p2 with
  | [], [] => true
  | [], _ :: _ => false
  | a :: _, [] => a =? SLASH
  | a :: p1, b :: p2 => if a =? b then path_contains p1 p2 else false
  end.

(** ** VPath *)

(** The loop of [is_valid]: [i] is the index of the next byte, [sep] that of
    the last separator. *)
Fixpoint valid_loop (data rest : str) (i sep : nat) : bool :=
  match rest with
  | [] => true
  | ch :: rest =>
      if (i =? 0)%nat || negb (ch =? SLASH) then valid_loop data rest (S i) sep
      else
        let com := take (i - S sep) (drop (S sep) data) in
        if bool_decide (com = []) || bool_decide (com = dot) || bool_decide (com = dotdot) then false
        else valid_loop data rest (S i) i
  end.

Definition is_valid (data : str) : bool :=
  if bool_decide (data = []) || negb (starts_with SLASH data) || ends_with SLASH data then false
  else valid_loop data data 0 0.

(** [VPath::new], [TryFrom]. *)
Definition vpath_new (data : str) : option str := if is_valid data then Some data else None.

Definition is_absolute (p : str) : bool := starts_with SLASH p.

(** [unwrap] of the position of a separator. *)
Definition parent (p : str) : outcome unit (option str) :=
  if (length p =? 1)%nat then Ok None
  else
    e ← unwrap_or_panic PUnwrap (rfind SLASH p);
    Ok (Some (if (e =? 0)%nat then root else take e p)).

Definition file_name (p : str) : outcome unit (option str) :=
  if (length p =? 1)%nat then Ok None
  else
    sep ← unwrap_or_panic PUnwrap (rfind SLASH p);
    Ok (Some (drop (S sep) p)).

(** [Components::next]: the component and what remains. *)
Definition components_next (s : str) : option (str * str) :=
  match s with
  | [] => None
  | _ =>
      let e := default (length s) (find SLASH s) in
      Some (take e s, if (e =? length s)%nat then drop e s else drop (S e) s)
  end.

Fixpoint collect (fuel : nat) (s : str) : list str :=
  match fuel with
  | O => []
  | S fuel =>
      match components_next s with
      | None => []
      | Some (c, s) => c :: collect fuel s
      end
  end.

(** All of [components]; every round consumes a byte. *)
Definition components (p : str) : list str := collect (length p) (drop 1 p).

(** ** VPathBuf *)

Inductive ComponentError := Empty | Forbidden | HasPathSeparator.

Definition buf_new : str := root.

Definition push (self component : str) : outcome ComponentError str :=
  fail_if (bool_decide (component = [])) Empty;;
  fail_if (bool_decide (component = dot) || bool_decide (component = dotdot)) Forbidden;;
  fail_if (bool_decide (SLASH ∈ component)) HasPathSeparator;;
  let data := if (length self =? 1)%nat then self else self ++ [SLASH] in
  Ok (data ++ component).

(** [VPath::join]. *)
Definition join (self component : str) : outcome ComponentError str := push self component.

Inductive SetExtensionError := Invalid | PathIsRoot.

Definition set_extension (self ext : str) : outcome SetExtensionError str :=
  fail_if (bool_decide (SLASH ∈ ext)) Invalid;;
  fail_if (length self =? 1)%nat PathIsRoot;;
  let i := match rfind DOT self with
           | Some v => if (0 <? v)%nat then v else length self
           | None => length self
           end in
  Ok (if bool_decide (ext = []) then take i self else take i self ++ DOT :: ext).

End VPath.
