(* ===== verification/VPathProps.v ===== *)
(** * Properties of paths

    A path is the rendering of a list of components; the operations on
    strings are the operations on that list. *)
From S2P Require Import Prelude Env VPath.

Module VPathProps.
Import Env VPath.
Local Open Scope list_scope.
Implicit Types (s a b c d rest cur : str) (cs : list str).

(** ** Paths as lists of components *)

(** What can stand between separators, and what [push] accepts. *)
Definition name c : Prop := c <> [] /\ SLASH ∉ c.
Definition good c : Prop := name c /\ c <> dot /\ c <> dotdot.

Definition render cs : str := if cs is [] then root else cs ≫= cons SLASH.

#[export] Instance name_dec c : Decision (name c).
Proof. unfold name. apply _. Defined.
#[export] Instance good_dec c : Decision (good c).
Proof. unfold good. apply _. Defined.

(** A path without its first separator. *)
Definition tail cs c : str := (cs ≫= fun x => x ++ [SLASH]) ++ c.

#[global] Arguments tail : simpl never.

Lemma tail_cons x cs c : tail (x :: cs) c = x ++ SLASH :: tail cs c.
Proof. unfold tail. cbn. by rewrite <- !app_assoc. Qed.

Lemma render_snoc cs c : render (cs ++ [c]) = SLASH :: tail cs c.
Proof.
  assert (forall c, (cs ++ [c]) ≫= cons SLASH = SLASH :: tail cs c) as H.
  { induction cs as [|x cs IH]; intros d; cbn; [by rewrite app_nil_r|]. rewrite IH. by rewrite tail_cons. }
  unfold render. destruct (cs ++ [c]) eqn:He; [by destruct cs|]. by rewrite <- He, H.
Qed.

Lemma render_split cs c : render (cs ++ [c]) = (cs ≫= cons SLASH) ++ SLASH :: c.
Proof.
  unfold render. destruct (cs ++ [c]) eqn:He; [by destruct cs|]. rewrite <- He, bind_app. cbn. by rewrite app_nil_r.
Qed.

(** ** Searching *)

Lemma find_Some x a b : x ∉ a -> find x (a ++ x :: b) = Some (length a).
Proof.
  induction a as [|y a IH]; cbn; intros Hn; [by rewrite Z.eqb_refl|].
  apply not_elem_of_cons in Hn as [Hy Hn]. rewrite (proj2 (Z.eqb_neq y x)) by congruence. by rewrite IH.
Qed.

Lemma find_None x a : x ∉ a -> find x a = None.
Proof.
  induction a as [|y a IH]; cbn; intros Hn; [done|].
  apply not_elem_of_cons in Hn as [Hy Hn]. rewrite (proj2 (Z.eqb_neq y x)) by congruence. by rewrite IH.
Qed.

Lemma rfind_None x a : x ∉ a -> rfind x a = None.
Proof.
  induction a as [|y a IH]; cbn; intros Hn; [done|].
  apply not_elem_of_cons in Hn as [Hy Hn]. rewrite IH by done. by rewrite (proj2 (Z.eqb_neq y x)) by congruence.
Qed.

Lemma rfind_Some x a b : x ∉ b -> rfind x (a ++ x :: b) = Some (length a).
Proof.
  intros Hn. induction a as [|y a IH]; cbn; [by rewrite rfind_None, Z.eqb_refl|]. by rewrite IH.
Qed.

(** ** Validity *)

(** The check, on the component that is being read and the bytes after it. *)
Fixpoint tail_ok cur rest : bool :=
  match rest with
  | [] => true
  | ch :: rest =>
      if ch =? SLASH then bool_decide (cur <> [] /\ cur <> dot /\ cur <> dotdot) && tail_ok [] rest
      else tail_ok (cur ++ [ch]) rest
  end.

Lemma reject_eq cur :
  bool_decide (cur = []) || bool_decide (cur = dot) || bool_decide (cur = dotdot)
  = negb (bool_decide (cur <> [] /\ cur <> dot /\ cur <> dotdot)).
Proof. repeat case_bool_decide; naive_solver. Qed.

Lemma valid_loop_tail rest : forall data pre cur,
  data = pre ++ SLASH :: cur ++ rest ->
  valid_loop data rest (S (length pre) + length cur) (length pre) = tail_ok cur rest.
Proof.
  induction rest as [|ch rest IH]; intros data pre cur Hd; [done|]. cbn [valid_loop tail_ok Nat.add Nat.eqb orb].
  destruct (Z.eqb_spec ch SLASH) as [->|Hne]; cbn [negb].
  - assert (take (S (length pre + length cur) - S (length pre)) (drop (S (length pre)) data) = cur) as ->.
    { rewrite Hd. replace (S (length pre + length cur) - S (length pre))%nat with (length cur) by lia.
      rewrite <- Nat.add_1_r, <- drop_drop, drop_app_length. cbn. by rewrite drop_0, take_app_length. }
    rewrite reject_eq. destruct (bool_decide (cur <> [] /\ _)); [|done]. cbn [negb].
    cbn [andb]. specialize (IH data (pre ++ SLASH :: cur) []). rewrite length_app in IH. cbn [length] in IH.
    replace (S (length pre + length cur)) with (length pre + S (length cur))%nat by lia.
    replace (S (length pre + S (length cur)))%nat with (S (length pre + S (length cur)) + 0)%nat by lia.
    apply IH. rewrite Hd. cbn. by rewrite <- app_assoc.
  - specialize (IH data pre (cur ++ [ch])). rewrite length_app in IH. cbn [length] in IH.
    rewrite <- IH by (rewrite Hd; by rewrite <- !app_assoc). f_equal. lia.
Qed.

Lemma tail_ok_app x : forall cur rest, SLASH ∉ x -> tail_ok cur (x ++ rest) = tail_ok (cur ++ x) rest.
Proof.
  induction x as [|y x IH]; intros cur rest Hn; cbn; [by rewrite app_nil_r|].
  apply not_elem_of_cons in Hn as [Hy Hn]. rewrite (proj2 (Z.eqb_neq y SLASH)) by congruence.
  rewrite IH by done. by rewrite <- app_assoc.
Qed.

Lemma tail_ok_tail cs c : Forall good cs -> SLASH ∉ c -> tail_ok [] (tail cs c) = true.
Proof.
  intros Hg Hc. induction Hg as [|x cs [[Hx1 Hx2] Hx3] _ IH].
  - unfold tail. cbn. rewrite <- (app_nil_r c). by rewrite tail_ok_app.
  - rewrite tail_cons, tail_ok_app by done. cbn. by rewrite bool_decide_true.
Qed.

Lemma tail_ok_inv rest : forall cur, SLASH ∉ cur -> tail_ok cur rest = true ->
  exists cs c, cur ++ rest = tail cs c /\ Forall good cs /\ SLASH ∉ c.
Proof.
  induction rest as [|ch rest IH]; intros cur Hc Ht; cbn in Ht.
  { exists [], cur. unfold tail. cbn. by rewrite app_nil_r. }
  destruct (Z.eqb_spec ch SLASH) as [->|Hne].
  - apply andb_true_iff in Ht as [Hg Ht]. apply bool_decide_eq_true in Hg.
    destruct (IH [] ltac:(apply not_elem_of_nil) Ht) as (cs & c & He & Hcs & Hn).
    exists (cur :: cs), c. rewrite tail_cons, <- He. split; [done|]. split; [|done].
    constructor; [|done]. by destruct_and! Hg.
  - destruct (IH (cur ++ [ch])) as (cs & c & He & H); [|done|].
    { rewrite not_elem_of_app, list_elem_of_singleton. split; [done|congruence]. }
    exists cs, c. rewrite <- app_assoc in He. done.
Qed.

Lemma last_tail cs c : SLASH ∉ c -> c <> [] -> ends_with SLASH (SLASH :: tail cs c) = false.
Proof.
  intros Hn Hc. unfold ends_with. destruct c as [|x c _] using rev_ind; [done|].
  unfold tail. rewrite app_assoc, app_comm_cons, last_snoc. apply Z.eqb_neq. set_solver.
Qed.

Lemma ends_with_nil cs : ends_with SLASH (SLASH :: tail cs []) = true.
Proof.
  unfold ends_with, tail. rewrite app_nil_r. destruct cs as [|x cs _] using rev_ind; [done|].
  rewrite bind_app. cbn. by rewrite app_nil_r, app_assoc, app_comm_cons, last_snoc.
Qed.

Lemma is_valid_cons s : is_valid (SLASH :: s) = negb (ends_with SLASH (SLASH :: s)) && tail_ok [] s.
Proof.
  unfold is_valid. rewrite bool_decide_false by done. cbn [starts_with negb orb Z.eqb].
  rewrite Z.eqb_refl. cbn [negb orb]. destruct (ends_with SLASH (SLASH :: s)); [done|]. cbn [negb andb valid_loop Nat.eqb orb].
  exact (valid_loop_tail s (SLASH :: s) [] [] eq_refl).
Qed.

(** A string is a valid path exactly when it is one or more components,
    each after a separator, that are not empty, and that are not a dot or two
    dots, the last component apart: [/a/..] is valid although the check means
    to reject it.  The root directory is not valid. *)
Theorem vpath_valid s :
  is_valid s = true <-> exists cs c, s = render (cs ++ [c]) /\ Forall good cs /\ name c.
Proof.
  split.
  - intros H. destruct s as [|x s]; [done|]. assert (x = SLASH) as ->.
    { unfold is_valid in H. cbn [starts_with] in H. destruct (Z.eqb_spec x SLASH); [done|].
      rewrite orb_true_r in H. discriminate. }
    rewrite is_valid_cons, andb_true_iff, negb_true_iff in H. destruct H as [He Ht].
    destruct (tail_ok_inv s [] (not_elem_of_nil _) Ht) as (cs & c & Hs & Hg & Hn). cbn in Hs. subst s.
    exists cs, c. rewrite render_snoc. split; [done|]. split; [done|]. split; [|done].
    intros ->. by rewrite ends_with_nil in He.
  - intros (cs & c & -> & Hg & Hc & Hn). rewrite render_snoc, is_valid_cons, andb_true_iff, negb_true_iff.
    split; [by apply last_tail|by apply tail_ok_tail].
Qed.

(** ** Operations *)

Lemma components_next_sep x rest : SLASH ∉ x -> components_next (x ++ SLASH :: rest) = Some (x, rest).
Proof.
  intros Hn. unfold components_next. rewrite find_Some by done. cbn [default from_option id]. destruct (x ++ SLASH :: rest) eqn:He.
  { by destruct x. }
  rewrite <- He. rewrite (proj2 (Nat.eqb_neq _ _)) by (rewrite length_app; cbn; lia).
  rewrite take_app_length, <- Nat.add_1_r, <- drop_drop, drop_app_length. cbn. by rewrite drop_0.
Qed.

Lemma components_next_last c : name c -> components_next c = Some (c, []).
Proof.
  intros [Hc Hn]. unfold components_next. rewrite find_None by done. cbn [default from_option id]. destruct c; [done|].
  by rewrite Nat.eqb_refl, firstn_all, drop_all.
Qed.

Lemma collect_tail cs c fuel :
  Forall name cs -> name c -> (length (tail cs c) < fuel)%nat -> collect fuel (tail cs c) = cs ++ [c].
Proof.
  intros Hcs Hc. revert fuel. induction Hcs as [|x cs [_ Hx] _ IH]; intros [|fuel] Hf; try lia; cbn [collect].
  - change (tail [] c) with c. rewrite components_next_last by done. by destruct fuel.
  - rewrite tail_cons in *. rewrite components_next_sep by done. cbn. f_equal. apply IH.
    rewrite length_app in Hf. cbn in Hf. lia.
Qed.

Lemma length_render cs : Forall name cs -> (length (render cs) =? 1)%nat = bool_decide (cs = []).
Proof.
  intros H. destruct cs as [|c cs _] using rev_ind; [done|]. rewrite bool_decide_false by (by destruct cs).
  apply Forall_app in H as [_ H]. apply Forall_inv in H as [H _].
  apply Nat.eqb_neq. rewrite render_split, length_app. cbn. destruct c; [done|]. cbn. lia.
Qed.

(** Each branch of [push]. *)
Lemma push_spec cs c :
  Forall name cs ->
  push (render cs) c =
    if decide (c = []) then Err Empty
    else if decide (c = dot \/ c = dotdot) then Err Forbidden
    else if decide (SLASH ∈ c) then Err HasPathSeparator
    else Ok (render (cs ++ [c])).
Proof.
  intros H. unfold push, fail_if. rewrite length_render by done.
  rewrite <- bool_decide_or. destruct (decide (c = [])).
  { by rewrite (bool_decide_true (c = [])). }
  rewrite (bool_decide_false (c = [])) by done. cbn [mbind outcome_bind]. destruct (decide (c = dot \/ c = dotdot)).
  { by rewrite (bool_decide_true (c = dot \/ c = dotdot)). }
  rewrite (bool_decide_false (c = dot \/ c = dotdot)) by done. cbn [mbind outcome_bind]. destruct (decide (SLASH ∈ c)).
  { by rewrite (bool_decide_true (SLASH ∈ c)). }
  rewrite (bool_decide_false (SLASH ∈ c)) by done.
  cbn [mbind outcome_bind]. rewrite render_split. destruct cs as [|x cs]; [done|].
  rewrite bool_decide_false by done. by rewrite <- app_assoc.
Qed.

Lemma rfind_render cs c : SLASH ∉ c -> rfind SLASH (render (cs ++ [c])) = Some (length (cs ≫= cons SLASH)).
Proof. intros Hc. rewrite render_split. by apply rfind_Some. Qed.

Lemma parent_render cs c : Forall name (cs ++ [c]) -> parent (render (cs ++ [c])) = Ok (Some (render cs)).
Proof.
  intros H. unfold parent. rewrite length_render by done. rewrite bool_decide_false by (by destruct cs).
  apply Forall_app in H as [_ H]. apply Forall_inv in H as [_ H]. rewrite rfind_render by done.
  cbn [unwrap_or_panic mbind outcome_bind]. do 2 f_equal. rewrite render_split, take_app_length.
  by destruct cs as [|x cs].
Qed.

Lemma file_name_render cs c : Forall name (cs ++ [c]) -> file_name (render (cs ++ [c])) = Ok (Some c).
Proof.
  intros H. unfold file_name. rewrite length_render by done. rewrite bool_decide_false by (by destruct cs).
  apply Forall_app in H as [_ H]. apply Forall_inv in H as [_ H]. rewrite rfind_render by done.
  cbn [unwrap_or_panic mbind outcome_bind]. do 2 f_equal.
  rewrite render_split, <- Nat.add_1_r, <- drop_drop, drop_app_length. cbn. by rewrite drop_0.
Qed.

Lemma components_render cs : Forall name cs -> components (render cs) = cs.
Proof.
  intros H. destruct cs as [|c cs _] using rev_ind; [done|]. rewrite render_snoc. unfold components. cbn [drop].
  rewrite drop_0. apply Forall_app in H as [H Hc]. apply Forall_inv in Hc.
  apply collect_tail; [done..|]. cbn. lia.
Qed.

(** Joining a component and taking a path apart are inverse.  A component
    that is accepted by [join] gives a path whose parent is the path, whose
    file name is the component and whose components are those of the path
    with the new one; the path stays valid.  Everything else is rejected with
    its error, and no operation on a path that was built this way panics. *)
Theorem vpath_join cs c :
  Forall good cs ->
  match join (render cs) c with
  | Ok p => good c /\ p = render (cs ++ [c]) /\ is_valid p = true /\ parent p = Ok (Some (render cs))
            /\ file_name p = Ok (Some c) /\ components p = components (render cs) ++ [c]
            /\ is_absolute p = true
  | Err Empty => c = []
  | Err Forbidden => c = dot \/ c = dotdot
  | Err HasPathSeparator => SLASH ∈ c
  | Panic _ => False
  end.
Proof.
  intros Hg. assert (Forall name cs) as Hn by (eapply Forall_impl; [exact Hg|]; by intros ? []).
  unfold join. rewrite push_spec by done. repeat case_decide; try done.
  assert (good c) as Hc by (unfold good, name; naive_solver).
  assert (Forall name (cs ++ [c])) as Hn' by (apply Forall_app; split; [done|]; constructor; [apply Hc|done]).
  split; [done|]. split; [done|]. split; [|split; [by apply parent_render|split; [by apply file_name_render|]]].
  - rewrite render_snoc, is_valid_cons, andb_true_iff, negb_true_iff. destruct Hc as [[Hc1 Hc2] _].
    split; [by apply last_tail|by apply tail_ok_tail].
  - split; [by rewrite !components_render|]. by rewrite render_snoc.
Qed.

Lemma vpath_join_witness :
  join (bytes_of "/app0/sce_module") (bytes_of "libc.prx") = Ok (bytes_of "/app0/sce_module/libc.prx")
  /\ components (bytes_of "/app0/sce_module/libc.prx") = [bytes_of "app0"; bytes_of "sce_module"; bytes_of "libc.prx"].
Proof.
  pose proof (vpath_join [bytes_of "app0"; bytes_of "sce_module"] (bytes_of "libc.prx")
    ltac:(by apply (bool_decide_unpack _))) as H.
  split; [reflexivity|]. apply H.
Defined.

(** [set_extension] replaces what follows the last dot of the path. *)
Lemma set_extension_dot a b ext :
  SLASH ∉ ext -> ext <> [] -> a <> [] -> DOT ∉ b ->
  set_extension (a ++ DOT :: b) ext = Ok (a ++ DOT :: ext).
Proof.
  intros Hs He Ha Hb. unfold set_extension, fail_if. rewrite (bool_decide_false (SLASH ∈ ext)) by done.
  assert (0 < length a)%nat as Hl by (destruct a; [done|]; cbn; lia).
  rewrite (proj2 (Nat.eqb_neq _ _)) by (rewrite length_app; cbn; lia). cbn [mbind outcome_bind].
  rewrite rfind_Some by done. rewrite (proj2 (Nat.ltb_lt _ _)) by done. rewrite bool_decide_false by done.
  by rewrite take_app_length.
Qed.

(** [set_extension] replaces the extension of the last component when it
    has one ([rest] empty), but when only a directory has a dot in its name it
    cuts the path there: the directories below and the file name are lost. *)
Theorem set_extension_spec cs (stem b : str) (rest : list str) (ext : str) :
  SLASH ∉ ext -> ext <> [] -> DOT ∉ b -> (forall x, x ∈ rest -> DOT ∉ x) ->
  set_extension (render (cs ++ (stem ++ DOT :: b) :: rest)) ext = Ok (render (cs ++ [stem ++ DOT :: ext])).
Proof.
  intros Hs He Hb Hr. rewrite render_split.
  replace (render (cs ++ (stem ++ DOT :: b) :: rest))
    with (((cs ≫= cons SLASH) ++ SLASH :: stem) ++ DOT :: b ++ (rest ≫= cons SLASH)).
  - rewrite set_extension_dot; [|done..|by destruct (cs ≫= cons SLASH)|].
    { by rewrite <- app_assoc, <- app_comm_cons. }
    rewrite not_elem_of_app. split; [done|].
    intros Hd. apply list_elem_of_bind in Hd as (x & Hd & Hx). apply elem_of_cons in Hd as [Hd|Hd]; [done|].
    by apply (Hr x).
  - unfold render. destruct (cs ++ _) eqn:Hc; [by destruct cs|]. rewrite <- Hc, bind_app. cbn.
    by rewrite <- ?app_assoc, <- ?app_comm_cons, <- ?app_assoc.
Qed.

Lemma set_extension_witness :
  set_extension (bytes_of "/app0.d/eboot") (bytes_of "bin") = Ok (bytes_of "/app0.bin")
  /\ set_extension (bytes_of "/app0/eboot.elf") (bytes_of "bin") = Ok (bytes_of "/app0/eboot.bin").
Proof.
  split.
  - apply (set_extension_spec [] (bytes_of "app0") (bytes_of "d") [bytes_of "eboot"] (bytes_of "bin"));
      try (by apply (bool_decide_unpack _)).
    intros x ->%list_elem_of_singleton. by apply (bool_decide_unpack _).
  - apply (set_extension_spec [bytes_of "app0"] (bytes_of "eboot") (bytes_of "elf") [] (bytes_of "bin"));
      try (by apply (bool_decide_unpack _)).
    by intros x ?%not_elem_of_nil.
Defined.

(** [path_contains p1 p2]: [p1] is [p2] or lies below it. *)
Lemma path_contains_iff p1 : forall p2,
  path_contains p1 p2 = true <-> p1 = p2 \/ exists rest, p1 = p2 ++ SLASH :: rest.
Proof.
  induction p1 as [|x p1 IH]; intros [|y p2]; cbn.
  - naive_solver.
  - split; [done|]. intros [|[rest H]]; done.
  - rewrite Z.eqb_eq. split; [intros ->; right; by exists p1|]. intros [|[rest [= ? ?]]]; done.
  - destruct (Z.eqb_spec x y) as [->|Hne].
    + rewrite IH. split; intros [H|[rest H]]; try (left; congruence); right; exists rest; congruence.
    + split; [done|]. intros [|[rest ?]]; congruence.
Qed.

End VPathProps.
