(* ===== verification/VmSpace.v ===== *)
(** * The address space of a process in the previous kernel

    Models [legacy/src/vm]: the table of allocations of an address space,
    [mmap], [munmap], [mprotect] and [mname], the main stack and the system
    calls.  The calls of the host are recorded in the order in which they are
    made, newest first, and their results are parameters ([Host]); the code
    for Unix is the one that is modelled. *)
From S2P Require Import Prelude BTree Env.

Module VmSpace.
Import Env.
Local Open Scope list_scope.

Definition VIRTUAL_PAGE_SIZE : Z := 0x4000.

(** ** Protections and mapping flags ([mod.rs]) *)

Definition CPU_READ : Z := 0x1.
Definition CPU_WRITE : Z := 0x2.
Definition CPU_EXEC : Z := 0x4.
Definition CPU_MASK : Z := 0x7.
Definition GPU_READ : Z := 0x10.
Definition GPU_WRITE : Z := 0x20.
Definition GPU_MASK : Z := 0x30.
(** [Protections::all()]. *)
Definition prot_all : Z := 0x37.

Definition MAP_PRIVATE : Z := 0x2.
Definition MAP_FIXED : Z := 0x10.
Definition MAP_VOID : Z := 0x100.
Definition MAP_STACK : Z := 0x400.
Definition MAP_ANON : Z := 0x1000.
Definition MAP_GUARD : Z := 0x2000.
Definition UNK2 : Z := 0x10000.
Definition UNK3 : Z := 0x100000.
Definition UNK1 : Z := 0x200000.

(** [contains], [intersects] and [remove] of the [bitflags] crate. *)
Definition contains (flags f : Z) : bool := Z.land flags f =? f.
Definition intersects (flags f : Z) : bool := negb (Z.land flags f =? 0).
Definition remove (flags f : Z) : Z := Z.land flags (Z.lnot f).

(** [PROT_NONE] and the other protections of the host, and [into_host]. *)
Definition PROT_NONE : Z := 0.
Definition PROT_READ : Z := 1.
Definition PROT_WRITE : Z := 2.
Definition PROT_EXEC : Z := 4.
Definition into_host (p : Z) : Z :=
  let host := PROT_NONE in
  let host := if contains p CPU_READ then Z.lor host PROT_READ else host in
  let host := if contains p CPU_WRITE then Z.lor host PROT_WRITE else host in
  if contains p CPU_EXEC then Z.lor host PROT_EXEC else host.

(** ** The host *)

(** The calls that have an effect outside the address space. *)
Inductive call :=
  | CReserve (addr len : Z) (* [mmap] of [Memory::new], and where it put the memory *)
  | CCommit (addr len prot : Z) (* [mmap] with [MAP_FIXED] *)
  | CProtect (addr len prot : Z) (* [mprotect] *)
  | CSetName (addr len : Z) (name : str) (* [prctl] *)
  | CUnmap (addr len : Z) (* [munmap] *)
  | CClearFpop. (* [VThread::set_fpop(None)] *)

Inductive io_error := OutOfMemory | OtherError.

(** What the host answers, given the calls so far. *)
Record Host := MkHost {
  h_page_size : Z;
  h_reserve : list call -> Z -> Z -> outcome io_error Z;
  h_commit : list call -> Z -> Z -> Z -> option io_error;
  h_protect : list call -> Z -> Z -> Z -> option io_error;
  h_unmap : list call -> Z -> Z -> option io_error
}.

(** [CString::new]: the name has no NUL. *)
Definition cstring (name : str) : option str := if bool_decide (0 ∈ name) then None else Some name.

(** ** Storage ([storage.rs]) *)

(** [Memory]; [m_id] tells apart the objects behind different [Arc]s. *)
Record Memory := Mem { m_id : nat; m_addr : Z; m_len : Z }.

#[export] Instance Memory_eq_dec : EqDecision Memory.
Proof. solve_decision. Defined.

(** [Alloc]. *)
Record Alloc := MkAlloc {
  addr : Z;
  len : Z;
  prot : Z;
  name : str;
  storage : Memory
}.
Definition end_ (a : Alloc) : Z := addr a + len a.

Definition set_len (a : Alloc) (l : Z) : Alloc := MkAlloc (addr a) l (prot a) (name a) (storage a).
Definition set_prot (a : Alloc) (p : Z) : Alloc := MkAlloc (addr a) (len a) p (name a) (storage a).
Definition set_name (a : Alloc) (n : str) : Alloc := MkAlloc (addr a) (len a) (prot a) n (storage a).
(** A part of an allocation. *)
Definition part (a : Alloc) (p l : Z) : Alloc := MkAlloc p l (prot a) (name a) (storage a).

(** [AppStack]. *)
Record AppStack := MkStack { guard : Z; stack_start : Z; stack_len : Z; stack_prot : Z }.
Definition stack_new : AppStack := MkStack 0 0 0x200000 (Z.lor CPU_READ CPU_WRITE).

(** [VPages]. *)
Record VPages := Pages { ptr : Z; pages_len : Z }.

Record t := Space {
  allocation_granularity : Z;
  allocations : list (Z * Alloc);
  stack : AppStack;
  calls : list call
}.

Definition set_allocs (s : t) (m : list (Z * Alloc)) (c : list call) : t :=
  Space (allocation_granularity s) m (stack s) c.

Inductive MmapError := NonNegativeFd | NonZeroOffset | InvalidOffset | NoMem (n : Z).
Inductive MunmapError := UUnalignedAddr | UZeroLen.
Inductive MemoryUpdateError := UnalignedAddr | ZeroLen | InvalidAddr | UnmappedAddr (a : Z).
Inductive MemoryManagerError :=
  | UnsupportedPageSize
  | StackAllocationFailed (e : MmapError)
  | GuardStackFailed (e : MemoryUpdateError).

(** [ptr.add(n)]: debug builds check that the address does not overflow. *)
Definition ptr_add {E} (p n : Z) : outcome E Z := uadd p n.

Definition align_virtual_page {E} (p : Z) : outcome E Z :=
  if p mod VIRTUAL_PAGE_SIZE =? 0 then Ok p
  else ptr_add p (VIRTUAL_PAGE_SIZE - p mod VIRTUAL_PAGE_SIZE).

(** ** The iterator ([iter.rs]) *)

(** [map.range(..=addr).next_back()]. *)
Definition last_le (m : list (Z * Alloc)) (p : Z) : option (Z * Alloc) :=
  last (List.filter (fun e => e.1 <=? p) m).

(** [StartFromMut::new]: the entries before the iterator, and those that it
    yields. *)
Definition start_from (m : list (Z * Alloc)) (p : Z) : list (Z * Alloc) * list (Z * Alloc) :=
  match last_le m p with
  | None => (m, [])
  | Some (_, first) =>
      if end_ first <=? p then (m, [])
      else (List.filter (fun e => e.1 <? addr first) m, List.filter (fun e => addr first <=? e.1) m)
  end.

Section host.
Variable H : Host.

(** ** Unmapping *)

(** [Storage::decommit] and the panic when it fails. *)
Definition decommit {E} (c : list call) (p l : Z) : outcome E (list call) :=
  match h_protect H c p l PROT_NONE with
  | None => Ok (CProtect p l PROT_NONE :: c)
  | Some _ => Panic (PExplicit "Failed to decommit memory")
  end.

(** The body of the loop of [munmap]: the entry after it, what it adds and
    what it removes. *)
Definition munmap_one (p e : Z) (c : list call) (info : Alloc)
  : outcome MunmapError (Alloc * list Alloc * list Z * list call) :=
  if addr info <? p then
    let remain := end_ info - p in
    let '(adds, n) :=
      if e <? end_ info then ([part info e (end_ info - e)], e - p) else ([], remain) in
    c ← decommit c p n;
    Ok (set_len info (len info - remain), adds, [], c)
  else if e <? end_ info then
    let n := e - addr info in
    c ← decommit c (addr info) n;
    Ok (info, [part info e (len info - n)], [addr info], c)
  else
    c ← decommit c (addr info) (len info);
    Ok (info, [], [addr info], c).

Fixpoint munmap_loop (p e : Z) (c : list call) (l : list (Z * Alloc))
  : outcome MunmapError (list (Z * Alloc) * list Alloc * list Z * list call) :=
  match l with
  | [] => Ok ([], [], [], c)
  | (k, info) :: l' =>
      if e <=? addr info then Ok (l, [], [], c)
      else
        '(info, adds, removes, c) ← munmap_one p e c info;
        '(l', adds', removes', c) ← munmap_loop p e c l';
        Ok ((k, info) :: l', adds ++ adds', removes ++ removes', c)
  end.

(** [allocs.insert] of every allocation, which must be new. *)
Fixpoint insert_all {E} (bug : panic) (adds : list Alloc) (m : list (Z * Alloc)) : outcome E (list (Z * Alloc)) :=
  match adds with
  | [] => Ok m
  | a :: adds =>
      if bt_get (addr a) m is Some _ then Panic bug else insert_all bug adds (bt_insert (addr a) a m)
  end.

(** [Memory::drop]. *)
Definition drop_memory {E} (c : list call) (s : Memory) : outcome E (list call) :=
  match h_unmap H c (m_addr s) (m_len s) with
  | None => Ok (CUnmap (m_addr s) (m_len s) :: c)
  | Some _ => Panic (PExplicit "Failed to unmap")
  end.

(** [allocs.remove], which drops the storage with its last allocation. *)
Definition remove_one {E} (k : Z) (m : list (Z * Alloc)) (c : list call) : outcome E (list (Z * Alloc) * list call) :=
  match bt_get k m with
  | None => Ok (m, c)
  | Some a =>
      let m := bt_remove k m in
      if existsb (fun e => bool_decide (storage e.2 = storage a)) m then Ok (m, c)
      else c ← drop_memory c (storage a); Ok (m, c)
  end.
Fixpoint remove_all {E} (ks : list Z) (m : list (Z * Alloc)) (c : list call) : outcome E (list (Z * Alloc) * list call) :=
  match ks with
  | [] => Ok (m, c)
  | k :: ks => '(m, c) ← remove_one k m c; remove_all ks m c
  end.

Definition munmap (p n : Z) (s : t) : outcome MunmapError t :=
  fail_if (negb (p mod VIRTUAL_PAGE_SIZE =? 0)) UUnalignedAddr;;
  fail_if (n =? 0) UZeroLen;;
  e ← ptr_add p n;
  e ← align_virtual_page e;
  let '(pre, l) := start_from (allocations s) p in
  '(l, adds, removes, c) ← munmap_loop p e (calls s) l;
  m ← insert_all (PExplicit "Address is already allocated.") adds (pre ++ l);
  '(m, c) ← remove_all removes m c;
  Ok (set_allocs s m c).

(** ** Updating *)

(** The first loop of [update]: the entries in the range with the result of
    the filter, and the entries after them. *)
Fixpoint update_scan (filter : Alloc -> bool) (e : Z) (prev : Z) (l : list (Z * Alloc))
  : outcome MemoryUpdateError (list (Z * Alloc * bool) * list (Z * Alloc)) :=
  match l with
  | [] => Ok ([], [])
  | (k, info) :: l' =>
      if e <=? addr info then Ok ([], l)
      else
        fail_if (negb (prev =? 0) && negb (addr info =? prev)) (UnmappedAddr prev);;
        '(targets, rest) ← update_scan filter e (end_ info) l';
        Ok ((k, info, filter info) :: targets, rest)
  end.

(** The closures that [update] gets: they make calls and change an
    allocation. *)
Definition updater : Type := list call -> Alloc -> outcome MemoryUpdateError (Alloc * list call).

(** The body of the second loop: the entry after it and what it adds. *)
Definition update_one (update : updater) (p e : Z) (c : list call) (info : Alloc)
  : outcome MemoryUpdateError (Alloc * list Alloc * list call) :=
  if addr info <? p then
    let remain := end_ info - p in
    let n := if e <? end_ info then e - p else remain in
    '(a, c) ← update c (part info p n);
    let adds := if negb (n =? remain) then [a; part info e (end_ info - e)] else [a] in
    Ok (set_len info (len info - remain), adds, c)
  else if e <? end_ info then
    let tail := end_ info - e in
    '(head, c) ← update c (set_len info (len info - tail));
    Ok (head, [part info e tail], c)
  else
    '(info, c) ← update c info;
    Ok (info, [], c).

Fixpoint update_targets (update : updater) (p e : Z) (c : list call) (l : list (Z * Alloc * bool))
  : outcome MemoryUpdateError (list (Z * Alloc) * list Alloc * list call) :=
  match l with
  | [] => Ok ([], [], c)
  | (k, info, false) :: l =>
      '(l, adds, c) ← update_targets update p e c l;
      Ok ((k, info) :: l, adds, c)
  | (k, info, true) :: l =>
      '(info, adds, c) ← update_one update p e c info;
      '(l, adds', c) ← update_targets update p e c l;
      Ok ((k, info) :: l, adds ++ adds', c)
  end.

Definition update (p n : Z) (filter : Alloc -> bool) (f : updater) (s : t) : outcome MemoryUpdateError t :=
  fail_if (negb (p mod VIRTUAL_PAGE_SIZE =? 0)) UnalignedAddr;;
  fail_if (n =? 0) ZeroLen;;
  e ← ptr_add p n;
  e ← align_virtual_page e;
  let '(pre, l) := start_from (allocations s) p in
  '(targets, rest) ← update_scan filter e 0 l;
  fail_if (bool_decide (l = [])) InvalidAddr;;
  '(l, adds, c) ← update_targets f p e (calls s) targets;
  m ← insert_all PAssert adds (pre ++ l ++ rest);
  Ok (set_allocs s m c).

(** The closure of [mprotect]; [unwrap] of what the host answers. *)
Definition do_protect (new : Z) : updater := fun c i =>
  match h_protect H c (addr i) (len i) (into_host new) with
  | None => Ok (set_prot i new, CProtect (addr i) (len i) (into_host new) :: c)
  | Some _ => Panic PUnwrap
  end.
Definition mprotect (p n new : Z) (s : t) : outcome MemoryUpdateError t :=
  update p n (fun i => negb (prot i =? new)) (do_protect new) s.

(** The closure of [mname]. *)
Definition do_name (new : str) : updater := fun c i =>
  Ok (set_name i new, if cstring new is Some cs then CSetName (addr i) (len i) cs :: c else c).
Definition mname (p n : Z) (new : str) (s : t) : outcome MemoryUpdateError t :=
  update p n (fun i => negb (bool_decide (name i = new))) (do_name new) s.

(** ** Mapping *)

(** [alloc]: the calls and the allocation.  An error after [Memory::new] drops
    the memory. *)
Definition alloc (granularity : Z) (c : list call) (p n pr : Z) (nm : str)
  : list call * outcome io_error Alloc :=
  let small := granularity <? VIRTUAL_PAGE_SIZE in
  match (if small then uadd n (VIRTUAL_PAGE_SIZE - granularity) else Ok n) with
  | Err e => (c, Err e)
  | Panic b => (c, Panic b)
  | Ok total =>
      match h_reserve H c p total with
      | Err e => (c, Err e)
      | Panic b => (c, Panic b)
      | Ok base =>
          let st := Mem (length c) base total in
          let c := CReserve base total :: c in
          match (if small then align_virtual_page base else Ok base) with
          | Err e => (c, Err e)
          | Panic b => (c, Panic b)
          | Ok a =>
              let n := total - (a - base) in
              match h_commit H c a n (into_host pr) with
              | Some e =>
                  match drop_memory c st with
                  | Ok c => (c, Err e)
                  | Err e => (c, Err e)
                  | Panic b => (c, Panic b)
                  end
              | None =>
                  let c := CCommit a n (into_host pr) :: c in
                  let c := if cstring nm is Some cs then CSetName a n cs :: c else c in
                  (c, Ok (MkAlloc a n pr nm st))
              end
          end
      end
  end.

Definition map (p n pr : Z) (nm : str) (s : t) : t * outcome MmapError VPages :=
  match uadd p 0x3fff with
  | Err e => (s, Err e)
  | Panic b => (s, Panic b)
  | Ok q =>
      let p := Z.land q 0xffffffffffffc000 in
      let '(c, r) := alloc (allocation_granularity s) (calls s) p n pr nm in
      let s := set_allocs s (allocations s) c in
      match r with
      | Err OutOfMemory => (s, Err (NoMem n))
      | Err OtherError => (s, Panic (PExplicit "Failed to allocate"))
      | Panic b => (s, Panic b)
      | Ok a =>
          if bt_get (addr a) (allocations s) is Some _
          then (s, Panic (PExplicit "Address is already allocated."))
          else (set_allocs s (bt_insert (addr a) a (allocations s)) c, Ok (Pages (addr a) (len a)))
      end
  end.

(** The guards of [mmap] before it maps: the flags after them, and whether
    [set_fpop] is called.  [td] is [app_info().unk1()] of the current thread. *)
Definition mmap_check (td : option Z) (p n flags fd offset : Z) : outcome MmapError (Z * bool) :=
  panic_if (contains flags UNK1) PTodo;;
  panic_if (n =? 0) PTodo;;
  (if intersects flags (Z.lor MAP_VOID MAP_ANON) then
     fail_if (negb (offset =? 0)) NonZeroOffset;;
     fail_if (negb (fd =? -1)) NonNegativeFd
   else panic_if (contains flags MAP_STACK) PTodo);;
  let flags := remove (remove flags UNK2) UNK3 in
  fail_if (Z.lxor (Z.land offset 0x3fff) 0xffffffffffffbfff <? n) InvalidOffset;;
  let unk := if td is Some u then negb (Z.land u 2 =? 0) else false in
  (if contains flags MAP_FIXED then Panic PTodo
   else if p =? 0 then panic_if unk PTodo
   else if Z.land p 0xfffffffdffffffff =? 0 then Ok tt
   else panic_if (p =? 0x880000000) PTodo);;
  '(flags, clear) ←
    (if contains flags MAP_VOID then Ok (Z.lor flags MAP_ANON, bool_decide (is_Some td))
     else panic_if (negb (contains flags MAP_ANON)) PTodo;; Ok (flags, false));
  panic_if (contains flags UNK1) PTodo;;
  panic_if unk PTodo;;
  Ok (flags, clear).

(** [len] rounded up to a virtual page. *)
Definition round_len {E} (n : Z) : outcome E Z :=
  if n mod VIRTUAL_PAGE_SIZE =? 0 then Ok n else uadd n (VIRTUAL_PAGE_SIZE - n mod VIRTUAL_PAGE_SIZE).

Definition mmap (td : option Z) (p n pr : Z) (nm : str) (flags fd offset : Z) (s : t)
  : t * outcome MmapError VPages :=
  let pr := Z.land pr prot_all in
  match (r ← mmap_check td p n flags fd offset; n ← round_len n; Ok (r.2, n)) : outcome MmapError (bool * Z) with
  | Err e => (s, Err e)
  | Panic b => (s, Panic b)
  | Ok (clear, n) =>
      let s := if clear then set_allocs s (allocations s) (CClearFpop :: calls s) else s in
      map p n pr nm s
  end.

(** [VmSpace::new]; no thread runs yet. *)
Definition vm_space_new : outcome MemoryManagerError t :=
  fail_if (VIRTUAL_PAGE_SIZE <? h_page_size H) UnsupportedPageSize;;
  let s := Space (h_page_size H) [] stack_new [] in
  n ← uadd (stack_len (stack s)) VIRTUAL_PAGE_SIZE;
  match mmap None 0 n (stack_prot (stack s)) (bytes_of "main stack") (Z.lor MAP_ANON MAP_PRIVATE) (-1) 0 s with
  | (_, Err e) => Err (StackAllocationFailed e)
  | (_, Panic b) => Panic b
  | (s, Ok v) =>
      s ← map_err GuardStackFailed (mprotect (ptr v) VIRTUAL_PAGE_SIZE 0 s);
      start ← ptr_add (ptr v) VIRTUAL_PAGE_SIZE;
      Ok (Space (allocation_granularity s) (allocations s)
            (MkStack (ptr v) start (stack_len (stack s)) (stack_prot (stack s))) (calls s))
  end.

(** [VPages::drop]. *)
Definition drop_pages (v : VPages) (s : t) : outcome MunmapError t :=
  match munmap (ptr v) (pages_len v) s with
  | Ok s => Ok s
  | _ => Panic PUnwrap
  end.

(** ** System calls *)

(** [SysErr] and its number. *)
Inductive SysErr := Raw (e : Z) | Object (e : MmapError).
Definition ENOMEM : Z := 12.
Definition EINVAL : Z := 22.
Definition EOPNOTSUPP : Z := 45.
Definition ENAMETOOLONG : Z := 63.
Definition mmap_errno (e : MmapError) : Z := if e is NoMem _ then ENOMEM else EINVAL.
Definition errno (e : SysErr) : Z := match e with Raw v => v | Object e => mmap_errno e end.

(** Arguments as [u32] and [i32]. *)
Definition arg_u32 {E} (v : Z) : outcome E Z := if v <? 2 ^ 32 then Ok v else Panic PUnwrap.
Definition arg_i32 {E} (v : Z) : outcome E Z :=
  v ← arg_u32 v; Ok (if v <? 2 ^ 31 then v else v - 2 ^ 32).

(** [mmap_internal]: the state and [rax]. *)
Definition mmap_internal (td : option Z) (p n pr flags fd pos : Z) (s : t) : t * outcome SysErr Z :=
  if p =? guard (stack s) then
    (s, assert_that (n =? VIRTUAL_PAGE_SIZE);;
        assert_that (pr =? 0);;
        assert_that (intersects flags MAP_ANON);;
        assert_that (fd =? -1);;
        assert_that (pos =? 0);;
        Ok (guard (stack s)))
  else
    let '(s, r) := mmap td p n pr [] flags fd pos s in
    (s, v ← map_err Object r;
        (if negb (p =? 0) && negb (ptr v =? p) then Ok 0 else ptr_add (ptr v) (pages_len v));;
        Ok (ptr v)).

Definition sys_sbrk : outcome SysErr Z := Err (Raw EOPNOTSUPP).
Definition sys_sstk : outcome SysErr Z := Err (Raw EOPNOTSUPP).
Definition munmap_internal : outcome SysErr Z := Panic PTodo.
Definition mmap_dmem_internal : outcome SysErr Z := Panic PTodo.

Definition sys_mmap (td : option Z) (a0 a1 a2 a3 a4 a5 : Z) (s : t) : t * outcome SysErr Z :=
  match (pr ← arg_u32 a2; flags ← arg_u32 a3; fd ← arg_i32 a4; Ok (pr, flags, fd)) : outcome SysErr (Z * Z * Z) with
  | Err e => (s, Err e)
  | Panic b => (s, Panic b)
  | Ok (pr, flags, fd) => mmap_internal td a0 a1 pr flags fd a5 s
  end.

(** [SysArg::to_str]: a string of less than [max] bytes at [p]; [mem] is the
    memory of the process. *)
Fixpoint nul_at (mem : Z -> Z) (p : Z) (n : nat) : option str :=
  match n with
  | O => None
  | S n => if mem p =? 0 then Some [] else cons (mem p) <$> nul_at mem (p + 1) n
  end.
Definition to_str (mem : Z -> Z) (p : Z) (max : nat) : outcome SysErr (option str) :=
  if p =? 0 then Ok None
  else
    match nul_at mem p max with
    | Some v => if valid_utf8 v then Ok (Some v) else Panic PUnwrap
    | None => Err (Raw ENAMETOOLONG)
    end.

(** A failure of [mname] is only logged. *)
Definition sys_mname (mem : Z -> Z) (a0 a1 a2 : Z) (s : t) : outcome SysErr (t * Z) :=
  nm ← to_str mem a2 32;
  nm ← unwrap_or_panic PUnwrap nm;
  uadd a0 a1;;
  n ← uadd (Z.land a0 0x3fff) a1;
  n ← uadd n 0x3fff;
  let n := Z.land n 0xffffffffffffc000 in
  let p := Z.land a0 0xffffffffffffc000 in
  match mname p n nm s with
  | Ok s => Ok (s, 0)
  | Err _ => Ok (s, 0)
  | Panic b => Panic b
  end.

(** [BatchMapArg], [BatchMapOp]. *)
Record BatchMapArg := BatchArg { b_addr : Z; b_offset : Z; b_len : Z; b_prot : Z; b_ty : Z; b_op : Z }.
Inductive BatchMapOp := MapDirect | Unmap | Protect | MapFlexible | TypeProtect.
Definition batch_op (raw : Z) : outcome SysErr BatchMapOp :=
  if raw =? 0 then Ok MapDirect
  else if raw =? 1 then Ok Unmap
  else if raw =? 2 then Ok Protect
  else if raw =? 3 then Ok MapFlexible
  else if raw =? 4 then Ok TypeProtect
  else Err (Raw EINVAL).

(** [MemoryType]. *)
Definition memory_type (v : Z) : outcome SysErr Z :=
  if (v =? 0) || (v =? 3) || (v =? 10) then Ok v else Panic PUnreachable.

(** One operation of [sys_batch_map]; [one] tells that the process has the
    first container of direct memory. *)
Definition batch_one (td : option Z) (one : bool) (flags : Z) (a : BatchMapArg) (s : t) : t * outcome SysErr unit :=
  match batch_op (b_op a) with
  | Err e => (s, Err e)
  | Panic b => (s, Panic b)
  | Ok MapDirect =>
      (s, panic_if (negb one || intersects flags MAP_STACK) PTodo;;
          memory_type (b_ty a);; mmap_dmem_internal;; Ok tt)
  | Ok MapFlexible =>
      if negb (Z.land (b_addr a) 0x3fff =? 0) || negb (Z.land (b_len a) 0x3fff =? 0)
         || negb (Z.land (b_prot a) 0xc8 =? 0)
      then (s, Err (Raw EINVAL))
      else
        let '(s, r) := mmap_internal td (b_addr a) (b_len a) (b_prot a) (Z.land flags MAP_ANON) (-1) 0 s in
        (s, r;; Ok tt)
  | Ok Unmap =>
      if negb (Z.land (b_addr a) 0x3fff =? 0) || negb (Z.land (b_len a) 0x3fff =? 0)
      then (s, Err (Raw EINVAL))
      else (s, munmap_internal;; Ok tt)
  | Ok (Protect | TypeProtect) => (s, Panic PTodo)
  end.

(** [try_for_each]: the state, how many operations were done, and the
    result. *)
Fixpoint batch_loop (td : option Z) (one : bool) (flags : Z) (ops : list BatchMapArg) (processed : Z) (s : t)
  : t * Z * outcome SysErr unit :=
  match ops with
  | [] => (s, processed, Ok tt)
  | a :: ops =>
      match batch_one td one flags a s with
      | (s, Ok _) => batch_loop td one flags ops (processed + 1) s
      | (s, r) => (s, processed, r)
      end
  end.

(** [ops] is what the memory of the process holds at the third argument, and
    [num_out] tells that the fifth one is not null: the count is written
    there. *)
Definition sys_batch_map (td : option Z) (one : bool) (a1 a3 : Z) (ops : list BatchMapArg) (num_out : bool) (s : t)
  : t * option Z * outcome SysErr Z :=
  match (flags ← arg_u32 a1; num ← arg_i32 a3; Ok (flags, num)) : outcome SysErr (Z * Z) with
  | Err e => (s, None, Err e)
  | Panic b => (s, None, Panic b)
  | Ok (flags, num) =>
      if negb (Z.land flags 0xe0bffb6f =? 0) then (s, None, Err (Raw EINVAL))
      else if num <? 0 then (s, None, if num_out then Panic PTodo else Err (Raw EINVAL))
      else
        let '(s, processed, r) := batch_loop td one flags (take (Z.to_nat num) ops) 0 s in
        (s, if num_out then Some processed else None, r;; Ok 0)
  end.

End host.
End VmSpace.
