(* ===== verification/VmSpaceProps.v ===== *)
(** * Properties of the address space

    An address space is a function from addresses to the protection and the
    name of the allocation there.  Every operation is described by its effect
    on that function, and the protections of the host follow it. *)
From Stdlib Require Import Sorted.
From S2P Require Import Prelude BTree Env VmSpace.

Module VmSpaceProps.
Import Env VmSpace.
Local Open Scope list_scope.
Implicit Types (m l pre rest : list (Z * Alloc)) (a : Alloc) (x p e : Z) (c : list call).

(** ** Tables of allocations *)

Definition inside a x : Prop := addr a <= x < end_ a.
#[export] Instance inside_dec a x : Decision (inside a x).
Proof. unfold inside. apply _. Defined.

(** The allocation at an address. *)
Fixpoint at_ m x : option Alloc :=
  match m with
  | [] => None
  | (_, a) :: m => if decide (inside a x) then Some a else at_ m x
  end.

(** Entries in the order of their addresses, from [lo] on, without overlap. *)
Fixpoint ordered (lo : Z) m : Prop :=
  match m with
  | [] => True
  | (k, a) :: m => k = addr a /\ lo <= k /\ 0 < len a /\ ordered (end_ a) m
  end.

(** The end of the last entry. *)
Fixpoint end_of (lo : Z) m : Z :=
  match m with
  | [] => lo
  | (_, a) :: m => end_of (end_ a) m
  end.

Definition key (a : Alloc) : Z * Alloc := (addr a, a).

Lemma ordered_app m1 m2 lo : ordered lo (m1 ++ m2) <-> ordered lo m1 /\ ordered (end_of lo m1) m2.
Proof. revert lo. induction m1 as [|[k a] m1 IH]; intros lo; cbn; [naive_solver|]. rewrite IH. naive_solver. Qed.

Lemma ordered_weaken lo lo' m : ordered lo m -> lo' <= lo -> ordered lo' m.
Proof. destruct m as [|[k a] m]; [done|]. cbn. intros (? & ? & ? & ?) ?. naive_solver lia. Qed.

Lemma ordered_end_ge lo m : ordered lo m -> lo <= end_of lo m.
Proof.
  revert lo. induction m as [|[k a] m IH]; intros lo; cbn; [lia|]. intros (-> & ? & ? & H). apply IH in H.
  unfold end_ in *. lia.
Qed.

Lemma ordered_end_app lo m1 m2 : end_of lo (m1 ++ m2) = end_of (end_of lo m1) m2.
Proof. revert lo. induction m1 as [|[k a] m1 IH]; intros lo; cbn; [done|]. apply IH. Qed.

Lemma ordered_elem lo m k a :
  ordered lo m -> (k, a) ∈ m -> k = addr a /\ lo <= addr a /\ 0 < len a /\ end_ a <= end_of lo m.
Proof.
  revert lo. induction m as [|[k' a'] m IH]; intros lo Ho Hi; [by apply not_elem_of_nil in Hi|].
  cbn in Ho. destruct Ho as (-> & Hlo & Hl & Ho). apply elem_of_cons in Hi as [[= -> ->]|Hi].
  - cbn. apply ordered_end_ge in Ho. naive_solver lia.
  - apply (IH _ Ho) in Hi as (-> & H1 & H2 & H3). unfold end_ in *. cbn. naive_solver lia.
Qed.

Lemma at_app m1 m2 x : at_ (m1 ++ m2) x = if at_ m1 x is Some a then Some a else at_ m2 x.
Proof. induction m1 as [|[k a] m1 IH]; cbn; [done|]. by destruct (decide (inside a x)). Qed.

Lemma at_elem m x a : at_ m x = Some a -> inside a x /\ exists k, (k, a) ∈ m.
Proof.
  induction m as [|[k a'] m IH]; cbn; [done|]. destruct (decide (inside a' x)).
  - intros [= ->]. split; [done|]. exists k. set_solver.
  - intros (? & k' & ?)%IH. split; [done|]. exists k'. set_solver.
Qed.

Lemma at_range lo m x a : ordered lo m -> at_ m x = Some a -> lo <= x < end_of lo m.
Proof. intros Ho ([? ?] & k & Hk)%at_elem. apply (ordered_elem lo) in Hk; [|done]. lia. Qed.

Lemma at_below lo m x : ordered lo m -> x < lo -> at_ m x = None.
Proof. intros Ho Hx. destruct (at_ m x) eqn:Ha; [|done]. apply (at_range lo) in Ha; [|done]. lia. Qed.

Lemma elem_at lo m k a x : ordered lo m -> (k, a) ∈ m -> inside a x -> at_ m x = Some a.
Proof.
  revert lo. induction m as [|[k' a'] m IH]; intros lo Ho Hi Hx; [by apply not_elem_of_nil in Hi|].
  cbn in *. destruct Ho as (-> & Hlo & Hl & Ho). apply elem_of_cons in Hi as [[= -> ->]|Hi].
  - by rewrite decide_True.
  - rewrite decide_False; [by eapply IH|]. apply (ordered_elem _ _ _ _ Ho) in Hi. unfold inside in *. lia.
Qed.

(** *** Operations of the map *)

Definition keys_lt m k : Prop := Forall (fun q : Z * Alloc => q.1 < k) m.
Definition keys_gt m k : Prop := Forall (fun q : Z * Alloc => k < q.1) m.

Lemma insert_middle m1 m2 k a : keys_lt m1 k -> keys_gt m2 k -> bt_insert k a (m1 ++ m2) = m1 ++ (k, a) :: m2.
Proof.
  intros H1 H2. induction H1 as [|[k' a'] m1 Hk _ IH]; cbn in *.
  - destruct H2 as [|[k' a'] m2 Hk _]; cbn in *; [done|]. by rewrite (proj2 (Z.ltb_lt _ _)).
  - rewrite (proj2 (Z.ltb_ge _ _)), (proj2 (Z.eqb_neq _ _)) by lia. by rewrite IH.
Qed.

Lemma get_middle m1 m2 k : keys_lt m1 k -> keys_gt m2 k -> bt_get k (m1 ++ m2) = None.
Proof.
  intros H1 H2. induction H1 as [|[k' a'] m1 Hk _ IH]; cbn in *.
  - induction H2 as [|[k' a'] m2 Hk _ IH]; cbn in *; [done|]. by rewrite (proj2 (Z.eqb_neq _ _)) by lia.
  - by rewrite (proj2 (Z.eqb_neq _ _)) by lia.
Qed.

Lemma ordered_keys_gt lo m k : ordered lo m -> k < lo -> keys_gt m k.
Proof. intros Ho Hk. apply Forall_forall. intros [k' a] Hi. apply (ordered_elem _ _ _ _ Ho) in Hi. cbn. lia. Qed.

Lemma ordered_keys_lt lo m k : ordered lo m -> end_of lo m <= k -> keys_lt m k.
Proof.
  intros Ho Hk. apply Forall_forall. intros [k' a] Hi. apply (ordered_elem _ _ _ _ Ho) in Hi. unfold end_ in *. cbn. lia.
Qed.

Lemma keys_app_lt m1 m2 k : keys_lt (m1 ++ m2) k <-> keys_lt m1 k /\ keys_lt m2 k.
Proof. apply Forall_app. Qed.
Lemma keys_app_gt m1 m2 k : keys_gt (m1 ++ m2) k <-> keys_gt m1 k /\ keys_gt m2 k.
Proof. apply Forall_app. Qed.

Lemma remove_middle m1 m2 k a : keys_lt m1 k -> keys_gt m2 k -> bt_remove k (m1 ++ (k, a) :: m2) = m1 ++ m2.
Proof.
  intros H1 H2. unfold bt_remove. induction H1 as [|[k' a'] m1 Hk _ IH]; cbn in *.
  - rewrite Z.eqb_refl. cbn. induction H2 as [|[k' a'] m2 Hk _ IH]; cbn in *; [done|].
    rewrite (proj2 (Z.eqb_neq _ _)) by lia. cbn. by rewrite IH.
  - rewrite (proj2 (Z.eqb_neq _ _)) by lia. cbn. by rewrite IH.
Qed.

Lemma get_key m1 m2 k a : keys_lt m1 k -> bt_get k (m1 ++ (k, a) :: m2) = Some a.
Proof.
  intros H1. induction H1 as [|[k' a'] m1 Hk _ IH]; cbn in *; [by rewrite Z.eqb_refl|].
  by rewrite (proj2 (Z.eqb_neq _ _)) by lia.
Qed.

(** *** The iterator *)

Lemma filter_split {A} (f : A -> bool) (l1 l2 : list A) :
  Forall (fun q => f q = true) l1 -> Forall (fun q => f q = false) l2 -> List.filter f (l1 ++ l2) = l1.
Proof.
  intros H1 H2. induction H1 as [|q l1 Hq _ IH]; cbn; [|by rewrite Hq, IH].
  induction H2 as [|q l2 Hq _ IH]; cbn; [done|by rewrite Hq].
Qed.

Lemma filter_split_r {A} (f : A -> bool) (l1 l2 : list A) :
  Forall (fun q => f q = false) l1 -> Forall (fun q => f q = true) l2 -> List.filter f (l1 ++ l2) = l2.
Proof.
  intros H1 H2. induction H1 as [|q l1 Hq _ IH]; cbn; [|by rewrite Hq, IH].
  induction H2 as [|q l2 Hq _ IH]; cbn; [done|by rewrite Hq, IH].
Qed.

Lemma split_le lo m p : ordered lo m -> exists m1 m2, m = m1 ++ m2 /\ Forall (fun q => q.1 <= p) m1 /\ keys_gt m2 p.
Proof.
  revert lo. induction m as [|[k a] m IH]; intros lo Ho; [exists [], []; by repeat constructor|].
  pose proof Ho as (-> & _ & Hl & Ho'). destruct (decide (addr a <= p)).
  - destruct (IH _ Ho') as (m1 & m2 & -> & H1 & H2). exists ((addr a, a) :: m1), m2.
    split; [done|]. split; [by constructor|done].
  - exists [], ((addr a, a) :: m). split; [done|]. split; [constructor|]. constructor; [cbn; lia|].
    apply (ordered_keys_gt _ _ _ Ho'). unfold end_. lia.
Qed.

Lemma start_from_spec lo m p :
  ordered lo m ->
  (start_from m p = (m, []) /\ at_ m p = None)
  \/ exists pre a l, start_from m p = (pre, key a :: l) /\ m = pre ++ key a :: l /\ inside a p.
Proof.
  intros Ho. destruct (split_le lo m p Ho) as (m1 & m2 & -> & H1 & H2).
  apply ordered_app in Ho as [Ho1 Ho2]. assert (at_ m2 p = None) as Hm2.
  { destruct (at_ m2 p) eqn:Ha; [|done]. apply at_elem in Ha as ([? _] & k & Hk).
    pose proof (proj1 (Forall_forall _ _) H2 _ Hk). apply (ordered_elem _ _ _ _ Ho2) in Hk. cbn in *. lia. }
  assert (List.filter (fun q => q.1 <=? p) (m1 ++ m2) = m1) as Hf.
  { apply filter_split; eapply Forall_impl; try eassumption; intros q Hq; cbn in *; [by apply Z.leb_le|by apply Z.leb_gt]. }
  unfold start_from, last_le. rewrite Hf. destruct m1 as [|[k a] m1 _] using rev_ind; [by left|].
  rewrite last_snoc. apply ordered_app in Ho1 as [Ho1 (-> & Hk & Hl & _)]. rewrite at_app, at_app. cbn [at_].
  apply Forall_app in H1 as [_ H1]. apply Forall_inv in H1. cbn in H1.
  destruct (Z.leb_spec (end_ a) p).
  - left. split; [done|]. rewrite decide_False by (unfold inside; lia).
    destruct (at_ m1 p) eqn:Ha; [|done]. apply (at_range lo) in Ha; [|done]. lia.
  - right. exists m1, a, m2. rewrite <- app_assoc. split; [|split; [done|unfold inside; lia]].
    assert (Forall (fun q => (q.1 <? addr a) = true) m1) as Hlt.
    { eapply Forall_impl; [exact (ordered_keys_lt lo m1 _ Ho1 Hk)|]. intros q. apply Z.ltb_lt. }
    assert (Forall (fun q => (addr a <=? q.1) = true) m2) as Hge.
    { eapply Forall_impl; [exact H2|]. intros q Hq. cbn in Hq. apply Z.leb_le. lia. }
    f_equal; [apply filter_split|apply filter_split_r]; try done.
    + constructor; [cbn; apply Z.ltb_irrefl|]. eapply Forall_impl; [exact Hge|]. intros q Hq. cbn in *. bool_to_prop. apply Z.ltb_ge. lia.
    + eapply Forall_impl; [exact Hlt|]. intros q Hq. cbn in *. bool_to_prop. apply Z.leb_gt. lia.
    + constructor; [cbn; apply Z.leb_refl|done].
Qed.

(** ** The host *)

(** The protection of an address after the calls. *)
Fixpoint page c x : option Z :=
  match c with
  | [] => None
  | CReserve p n :: c => if decide (p <= x < p + n) then Some PROT_NONE else page c x
  | CCommit p n pr :: c => if decide (p <= x < p + n) then Some pr else page c x
  | CProtect p n pr :: c => if decide (p <= x < p + n) then (fun _ => pr) <$> page c x else page c x
  | CUnmap p n :: c => if decide (p <= x < p + n) then None else page c x
  | (CSetName _ _ _ | CClearFpop) :: c => page c x
  end.

(** What the host promises: a power of two as the page size, new memory where
    nothing is mapped, and success on memory that is mapped, which the code
    unwraps: a host that refuses makes it panic. *)
Class HostOk (H : Host) : Prop := {
  page_size_pow2 : exists k, 0 <= k /\ h_page_size H = 2 ^ k;
  reserve_ok c p n q : h_reserve H c p n = Ok q -> 0 < n ->
    q mod h_page_size H = 0 /\ 0 < q /\ q + n + VIRTUAL_PAGE_SIZE < 2 ^ 64
    /\ (forall x, q <= x < q + n -> page c x = None);
  reserve_no_panic c p n b : h_reserve H c p n <> Panic b;
  protect_ok c p n pr : p mod h_page_size H = 0 -> (forall x, p <= x < p + n -> is_Some (page c x)) ->
    h_protect H c p n pr = None;
  unmap_ok c p n : p mod h_page_size H = 0 -> h_unmap H c p n = None
}.

(** ** What remains of an allocation *)

Definition cut p e a : list Alloc :=
  (if decide (addr a < p) then [part a (addr a) (Z.min (end_ a) p - addr a)] else [])
  ++ (if decide (e < end_ a) then [part a (Z.max (addr a) e) (end_ a - Z.max (addr a) e)] else []).
Definition cuts p e l : list (Z * Alloc) := key <$> (l.*2 ≫= cut p e).

Lemma part_id a : part a (addr a) (len a) = a.
Proof. by destruct a. Qed.

Lemma cuts_app p e l1 l2 : cuts p e (l1 ++ l2) = cuts p e l1 ++ cuts p e l2.
Proof. unfold cuts. by rewrite fmap_app, bind_app, fmap_app. Qed.

Lemma cuts_cons p e k a l : cuts p e ((k, a) :: l) = (key <$> cut p e a) ++ cuts p e l.
Proof. unfold cuts. cbn. by rewrite fmap_app. Qed.

Lemma cut_below p e a : p < e -> 0 < len a -> end_ a <= p -> cut p e a = [a].
Proof.
  intros He Hl H. unfold cut. rewrite decide_True by (unfold end_ in *; lia). rewrite decide_False by lia.
  rewrite Z.min_l by lia. replace (end_ a - addr a) with (len a) by (unfold end_; lia). by rewrite part_id.
Qed.

Lemma cut_above p e a : p < e -> 0 < len a -> e <= addr a -> cut p e a = [a].
Proof.
  intros He Hl H. unfold cut. rewrite decide_False by lia. rewrite decide_True by (unfold end_ in *; lia).
  rewrite Z.max_l by lia. replace (end_ a - addr a) with (len a) by (unfold end_; lia). by rewrite part_id.
Qed.

Lemma cuts_below lo p e l : ordered lo l -> p < e -> end_of lo l <= p -> cuts p e l = l.
Proof.
  revert lo. induction l as [|[k a] l IH]; intros lo Ho He Hp; [done|]. cbn in Ho, Hp. destruct Ho as (-> & Hlo & Hl & Ho).
  rewrite cuts_cons. rewrite cut_below; [|done..|pose proof (ordered_end_ge _ _ Ho); lia]. cbn. f_equal. by eapply IH.
Qed.

Lemma cuts_above lo p e l : ordered lo l -> p < e -> e <= lo -> cuts p e l = l.
Proof.
  revert lo. induction l as [|[k a] l IH]; intros lo Ho He Hp; [done|]. cbn in Ho. destruct Ho as (-> & Hlo & Hl & Ho).
  rewrite cuts_cons. rewrite cut_above by (done || lia). cbn. f_equal. eapply IH; [done..|]. unfold end_. lia.
Qed.

(** What an allocation tells about its addresses. *)
Definition attrs a : Z * str * Memory := (prot a, name a, storage a).

Lemma at_cut p e a x :
  p < e -> attrs <$> at_ (key <$> cut p e a) x = if decide (inside a x /\ ~ p <= x < e) then Some (attrs a) else None.
Proof.
  intros He. unfold cut, inside. destruct (decide (addr a < p)), (decide (e < end_ a)); cbn; unfold inside;
    cbn; unfold end_ in *; cbn; repeat case_decide; try done; lia.
Qed.

Lemma at_cuts p e m x :
  p < e -> attrs <$> at_ (cuts p e m) x = if decide (p <= x < e) then None else attrs <$> at_ m x.
Proof.
  intros He. induction m as [|[k a] m IH]; [by case_decide|]. rewrite cuts_cons, at_app. cbn [at_].
  pose proof (at_cut p e a x He) as Hc. destruct (at_ (key <$> cut p e a) x) as [b|]; cbn in *;
    destruct (decide (inside a x /\ _)) as [[Hin Hnot]|Hn]; try done.
  - rewrite decide_False by done. rewrite decide_True by done. done.
  - rewrite IH. destruct (decide (p <= x < e)); [done|]. rewrite decide_False by tauto. done.
Qed.

Lemma ordered_cut lo p e a l :
  p < e -> lo <= addr a -> 0 < len a -> ordered (end_ a) l -> ordered lo ((key <$> cut p e a) ++ l).
Proof.
  intros He Hlo Hl Ho. unfold cut, key. destruct (decide (addr a < p)), (decide (e < end_ a)); cbn; unfold end_ in *; cbn in *;
    repeat split; try lia; eapply ordered_weaken; try eassumption; lia.
Qed.

Lemma ordered_cuts lo p e m : p < e -> ordered lo m -> ordered lo (cuts p e m).
Proof.
  intros He. revert lo. induction m as [|[k a] m IH]; intros lo Ho; [done|]. destruct Ho as (-> & Hlo & Hl & Ho).
  rewrite cuts_cons. apply ordered_cut; auto.
Qed.

Lemma elem_cuts p e m k b :
  (k, b) ∈ cuts p e m -> exists k' a, (k', a) ∈ m /\ attrs b = attrs a /\ k = addr b
    /\ addr a <= addr b /\ end_ b <= end_ a /\ (addr b = addr a \/ addr b = e).
Proof.
  unfold cuts. intros Hi. apply list_elem_of_fmap in Hi as (b' & [= -> <-] & Hi).
  apply list_elem_of_bind in Hi as (a & Hb & Ha). apply list_elem_of_fmap in Ha as ([k' a'] & -> & Ha).
  exists k', a'. split; [done|]. cbn in Hb. unfold cut in Hb.
  destruct (decide (addr a' < p)), (decide (e < end_ a')); cbn in Hb;
    repeat (apply elem_of_cons in Hb as [->|Hb]); try (by apply not_elem_of_nil in Hb);
    unfold attrs, end_; cbn; (split; [done|]); unfold end_ in *; lia.
Qed.

(** ** Unmapping *)

Section munmap.
Context {H : Host} `{!HostOk H}.
Hypothesis page_le : h_page_size H <= VIRTUAL_PAGE_SIZE.

Lemma aligned_host x : x mod VIRTUAL_PAGE_SIZE = 0 -> x mod h_page_size H = 0.
Proof.
  destruct page_size_pow2 as (k & Hk & He). rewrite He in *. intros Hx. change VIRTUAL_PAGE_SIZE with (2 ^ 14) in *.
  apply Z.pow_le_mono_r_iff in page_le; [|lia..]. apply Z.mod_divide in Hx; [|done]. apply Z.mod_divide; [lia|].
  etransitivity; [|exact Hx]. exists (2 ^ (14 - k)). rewrite <- Z.pow_add_r by lia. f_equal. lia.
Qed.

(** The allocations of a table start at a page and their memory is mapped. *)
Definition live c l : Prop :=
  forall k a, (k, a) ∈ l -> addr a mod VIRTUAL_PAGE_SIZE = 0 /\ forall x, inside a x -> is_Some (page c x).

Lemma live_cons c k a l :
  live c ((k, a) :: l) <->
  (addr a mod VIRTUAL_PAGE_SIZE = 0 /\ forall x, inside a x -> is_Some (page c x)) /\ live c l.
Proof.
  unfold live. split.
  - intros Hl. split; [apply (Hl k); set_solver|]. intros k' a' Hi. apply (Hl k'). set_solver.
  - intros [H1 H2] k' a' Hi. apply elem_of_cons in Hi as [[= -> ->]|Hi]; [done|by apply (H2 k')].
Qed.

Lemma live_protect c l p n pr : live c l -> live (CProtect p n pr :: c) l.
Proof.
  intros Hl k a Hi. destruct (Hl k a Hi) as [H1 H2]. split; [done|]. intros x Hx. cbn.
  case_decide; [|by apply H2]. apply fmap_is_Some. by apply H2.
Qed.

Lemma decommit_Ok {E} c p n :
  p mod VIRTUAL_PAGE_SIZE = 0 -> (forall x, p <= x < p + n -> is_Some (page c x)) ->
  @decommit H E c p n = Ok (CProtect p n PROT_NONE :: c).
Proof. intros Hp Hx. unfold decommit. rewrite protect_ok; [done| |done]. by apply aligned_host. Qed.

Lemma loop_stop lo p e c l : ordered lo l -> e <= lo -> munmap_loop H p e c l = Ok (l, [], [], c).
Proof.
  destruct l as [|[k a] l]; [done|]. intros (-> & Hlo & _) He. cbn. by rewrite (proj2 (Z.leb_le _ _)) by lia.
Qed.

(** The pages that a loop takes away. *)
Definition taken p e l c c' : Prop :=
  forall x, page c' x = if decide (p <= x < e /\ is_Some (at_ l x)) then Some PROT_NONE else page c x.

(** The loop over entries that do not start before the range. *)
Lemma loop_ge p e l : forall lo c,
  ordered lo l -> p <= lo -> p < e -> live c l ->
  exists touched tail rest c', munmap_loop H p e c l = Ok (l, tail, touched.*1, c')
  /\ l = touched ++ rest /\ cuts p e l = (key <$> tail) ++ rest /\ keys_lt touched e
  /\ (tail = [] \/ exists b, tail = [b] /\ addr b = e /\ keys_gt rest e) /\ taken p e l c c'.
Proof.
  induction l as [|[k a] l IH]; intros lo c Ho Hp He Hl.
  { exists [], [], [], c. repeat split; [constructor|by left|]. intros x. cbn. rewrite decide_False; [done|].
    intros [_ [? ?]]. done. }
  pose proof Ho as (-> & Hlo & Hlen & Ho'). apply live_cons in Hl as [[Ha Hx] Hl]. cbn [munmap_loop].
  destruct (Z.leb_spec e (addr a)) as [Hge|Hlt].
  { exists [], [], ((addr a, a) :: l), c. repeat split; [|constructor|by left|].
    - rewrite (cuts_above (addr a)); [done|..|done|done]. by repeat split.
    - intros x. rewrite decide_False; [done|]. intros [Hr [b Hb]]. apply (at_range (addr a)) in Hb; [lia|]. by repeat split. }
  unfold munmap_one. rewrite (proj2 (Z.ltb_ge _ _)) by lia. rewrite cuts_cons. destruct (Z.ltb_spec e (end_ a)) as [Hend|Hend].
  - rewrite decommit_Ok; [|done|intros x ?; apply Hx; unfold inside; lia]. cbn [mbind outcome_bind].
    rewrite (loop_stop _ _ _ _ _ Ho') by lia. cbn [mbind outcome_bind].
    exists [(addr a, a)], [part a e (len a - (e - addr a))], l, (CProtect (addr a) (e - addr a) PROT_NONE :: c).
    split; [done|]. split; [done|]. split; [|split; [|split]].
    + unfold cut. rewrite decide_False, decide_True, Z.max_r by lia. cbn.
      rewrite (cuts_above _ _ _ _ Ho') by lia. unfold end_. do 3 f_equal. lia.
    + constructor; [cbn; lia|constructor].
    + right. eexists. split; [done|]. split; [done|]. apply (ordered_keys_gt _ _ _ Ho'). done.
    + intros x. cbn. unfold inside. case_decide.
      * destruct (Hx x) as [? ->]; [unfold inside; lia|]. rewrite decide_True; [done|]. rewrite decide_True by lia. split; [lia|done].
      * rewrite decide_False; [done|]. intros [Hr Hs]. rewrite decide_False in Hs by lia. destruct Hs as [b Hs].
        apply (at_range _ _ _ _ Ho') in Hs. lia.
  - rewrite decommit_Ok; [|done|intros x ?; apply Hx; unfold inside, end_; lia]. cbn [mbind outcome_bind].
    destruct (IH (end_ a) (CProtect (addr a) (len a) PROT_NONE :: c) Ho') as (touched & tail & rest & c' & -> & -> & Hc & Hk & Ht & Hpg);
      [unfold end_ in *; lia|done|by apply live_protect|]. cbn [mbind outcome_bind].
    exists ((addr a, a) :: touched), tail, rest, c'. split; [done|]. split; [done|]. split; [|split; [|split]].
    + rewrite Hc. unfold cut. rewrite !decide_False by lia. done.
    + constructor; [cbn; lia|done].
    + done.
    + intros x. rewrite Hpg. cbn [at_]. destruct (decide (inside a x)) as [Hin|Hin].
      * rewrite (decide_True (P := p <= x < e /\ is_Some (Some a))) by (unfold inside in *; split; [lia|done]).
        case_decide; [done|]. cbn. rewrite decide_True by (unfold inside, end_ in *; lia). by destruct (Hx x Hin) as [? ->].
      * case_decide; [done|]. cbn. rewrite decide_False by (unfold inside, end_ in *; lia). done.
Qed.

(** The loop from the allocation that contains the first address on. *)
Lemma loop_first p e a l c :
  ordered (addr a) (key a :: l) -> inside a p -> p < e -> p mod VIRTUAL_PAGE_SIZE = 0 -> live c (key a :: l) ->
  exists kept touched tail rest c',
  munmap_loop H p e c (key a :: l) = Ok (kept ++ touched ++ rest, tail, touched.*1, c')
  /\ (kept ++ touched ++ rest).*1 = (key a :: l).*1
  /\ (forall q, q ∈ kept ++ touched -> exists k b, (k, b) ∈ key a :: l /\ storage q.2 = storage b)
  /\ cuts p e (key a :: l) = kept ++ (key <$> tail) ++ rest /\ keys_lt (kept ++ touched) e
  /\ (tail = [] \/ exists b, tail = [b] /\ addr b = e /\ keys_gt rest e) /\ taken p e (key a :: l) c c'.
Proof.
  intros Ho Hin He Hp Hl. unfold inside in Hin. destruct (decide (addr a < p)) as [Hlt|Hge].
  2: { destruct (loop_ge p e (key a :: l) (addr a) c Ho) as (touched & tail & rest & c' & Hloop & Heq & Hc & Hk & Ht & Hpg); [lia|done..|].
    exists [], touched, tail, rest, c'. cbn [app]. rewrite <- Heq. repeat split; try done.
    intros [k b] Hq. exists k, b. split; [rewrite Heq; set_solver|done]. }
  pose proof Ho as (_ & _ & Hlen & Ho'). pose proof Hl as Hl'. apply live_cons in Hl' as [[Ha Hx] Hl'].
  unfold key. cbn [munmap_loop]. rewrite (proj2 (Z.leb_gt _ _)) by lia. unfold munmap_one.
  rewrite (proj2 (Z.ltb_lt _ _)) by lia. rewrite cuts_cons.
  assert (set_len a (len a - (end_ a - p)) = part a (addr a) (Z.min (end_ a) p - addr a)) as ->.
  { unfold set_len, part. f_equal. unfold end_ in *. lia. }
  set (a1 := part a (addr a) (Z.min (end_ a) p - addr a)). destruct (Z.ltb_spec e (end_ a)) as [Hend|Hend].
  - rewrite decommit_Ok; [|done|intros x ?; apply Hx; unfold inside; lia]. cbn [mbind outcome_bind].
    rewrite (loop_stop _ _ _ _ _ Ho') by lia. cbn [mbind outcome_bind app].
    exists [(addr a, a1)], [], [part a e (end_ a - e)], l, (CProtect p (e - p) PROT_NONE :: c).
    split; [done|]. split; [done|]. split; [|split; [|split; [|split]]].
    + intros q Hq. apply list_elem_of_singleton in Hq as ->. exists (addr a), a. split; [set_solver|done].
    + unfold cut. rewrite !decide_True, Z.max_r by lia. cbn. by rewrite (cuts_above _ _ _ _ Ho') by lia.
    + constructor; [cbn; lia|constructor].
    + right. eexists. split; [done|]. split; [done|]. apply (ordered_keys_gt _ _ _ Ho'). done.
    + intros x. cbn. unfold inside. case_decide.
      * destruct (Hx x) as [? ->]; [unfold inside; lia|]. rewrite decide_True; [done|]. rewrite decide_True by lia. split; [lia|done].
      * rewrite decide_False; [done|]. intros [Hr _]. lia.
  - rewrite decommit_Ok; [|done|intros x ?; apply Hx; unfold inside; lia]. cbn [mbind outcome_bind].
    destruct (loop_ge p e l (end_ a) (CProtect p (end_ a - p) PROT_NONE :: c) Ho')
      as (touched & tail & rest & c' & -> & Heq & Hc & Hk & Ht & Hpg); [lia|done|by apply live_protect|].
    cbn [mbind outcome_bind app].
    exists [(addr a, a1)], touched, tail, rest, c'. cbn [app]. rewrite <- Heq.
    split; [done|]. split; [done|]. split; [|split; [|split; [|split]]].
    + intros [k b] Hq. apply elem_of_cons in Hq as [[= -> ->]|Hq].
      * exists (addr a), a. split; [set_solver|done].
      * exists k, b. split; [rewrite Heq; set_solver|done].
    + rewrite Hc. unfold cut. by rewrite decide_True, decide_False by lia.
    + constructor; [cbn; lia|done].
    + done.
    + intros x. rewrite Hpg. cbn [at_]. destruct (decide (inside a x)) as [Hx'|Hx'].
      * case_decide as Hd; [rewrite decide_True; [done|]; split; [apply Hd|done]|]. cbn. unfold inside in Hx'. case_decide.
        -- destruct (Hx x) as [? ->]; [done|]. rewrite decide_True; [done|]. split; [lia|done].
        -- rewrite decide_False by lia. done.
      * case_decide; [done|]. cbn. rewrite decide_False by (unfold inside in Hx'; lia). done.
Qed.

(** *** Removing entries *)

Lemma ordered_bt_ok lo m : ordered lo m -> bt_ok m.
Proof.
  revert lo. induction m as [|[k a] m IH]; intros lo Ho; [apply bt_ok_nil|]. destruct Ho as (-> & _ & Hl & Ho).
  constructor; [by eapply IH|]. apply (ordered_keys_gt _ m (addr a) Ho). unfold end_. lia.
Qed.

Lemma bt_ok_keys m : forall m', m.*1 = m'.*1 -> bt_ok m -> bt_ok m'.
Proof.
  induction m as [|[k a] m IH]; intros [|[k' a'] m'] He Hok; try done. cbn in He. injection He as <- He.
  apply StronglySorted_inv in Hok as [Hok Hk]. constructor; [by apply IH|].
  assert (Forall (fun z => k < z) m.*1) as Hf by (by apply Forall_fmap).
  rewrite He in Hf. exact (proj1 (Forall_fmap _ _ _) Hf).
Qed.

Lemma bt_ok_middle m1 k a m2 : bt_ok (m1 ++ (k, a) :: m2) -> keys_lt m1 k /\ keys_gt m2 k /\ bt_ok (m1 ++ m2).
Proof.
  induction m1 as [|[k' a'] m1 IH]; cbn; intros Hok; apply StronglySorted_inv in Hok as [Hok Hk].
  - split; [constructor|by split].
  - apply IH in Hok as (H1 & H2 & H3). apply Forall_app in Hk as [Hk1 Hk2]. inversion Hk2; subst.
    split; [by constructor|]. split; [done|]. constructor; [done|]. by apply Forall_app.
Qed.

Definition in_storage (st : Memory) x : Prop := m_addr st <= x < m_addr st + m_len st.

(** Two allocations share their storage or have storages that do not meet. *)
Definition storages_ok m : Prop :=
  (forall q, q ∈ m -> m_addr (storage q.2) mod h_page_size H = 0)
  /\ forall q q', q ∈ m -> q' ∈ m -> storage q.2 = storage q'.2
       \/ forall x, in_storage (storage q.2) x -> ~ in_storage (storage q'.2) x.

Lemma storages_sub m m' :
  storages_ok m -> (forall q, q ∈ m' -> exists q0, q0 ∈ m /\ storage q.2 = storage q0.2) -> storages_ok m'.
Proof.
  intros [H1 H2] Hs. split.
  - intros q Hq. destruct (Hs q Hq) as (q0 & Hq0 & ->). by apply H1.
  - intros q q' Hq Hq'. destruct (Hs q Hq) as (q0 & Hq0 & ->), (Hs q' Hq') as (q1 & Hq1 & ->). by apply H2.
Qed.

(** The memory of the storages of a table is as it was. *)
Definition kept_pages m c c' : Prop :=
  (forall q x, q ∈ m -> in_storage (storage q.2) x -> page c' x = page c x)
  /\ forall x, page c' x = page c x \/ page c' x = None.

Lemma remove_one_Ok {E} m1 k a m2 c :
  bt_ok (m1 ++ (k, a) :: m2) -> storages_ok (m1 ++ (k, a) :: m2) ->
  exists c', @remove_one H E k (m1 ++ (k, a) :: m2) c = Ok (m1 ++ m2, c') /\ kept_pages (m1 ++ m2) c c'.
Proof.
  intros Hok [Hs1 Hs2]. apply bt_ok_middle in Hok as (H1 & H2 & _). unfold remove_one.
  rewrite get_key, remove_middle by done. destruct (existsb _ (m1 ++ m2)) eqn:Hx.
  { exists c. split; [done|]. split; [done|]. by left. }
  unfold drop_memory. rewrite unmap_ok by (apply (Hs1 (k, a)); set_solver). cbn [mbind outcome_bind].
  eexists. split; [done|]. split.
  - intros q x Hq Hin. cbn. rewrite decide_False; [done|]. intros Hr.
    destruct (Hs2 q (k, a)) as [He|Hd]; [set_solver|set_solver| |by apply (Hd x)].
    assert (existsb (fun q => bool_decide (storage q.2 = storage a)) (m1 ++ m2) = true) as Ht; [|congruence].
    apply existsb_exists. exists q. split; [by apply list_elem_of_In|]. by apply bool_decide_eq_true.
  - intros x. cbn. case_decide; [by right|by left].
Qed.

Lemma remove_all_Ok {E} t m1 m2 : forall c,
  bt_ok (m1 ++ t ++ m2) -> storages_ok (m1 ++ t ++ m2) ->
  exists c', @remove_all H E t.*1 (m1 ++ t ++ m2) c = Ok (m1 ++ m2, c') /\ kept_pages (m1 ++ m2) c c'.
Proof.
  induction t as [|[k a] t IH]; intros c Hok Hs; cbn [remove_all fmap list_fmap fst app].
  { exists c. split; [done|]. split; [done|]. by left. }
  destruct (@remove_one_Ok E m1 k a (t ++ m2) c Hok Hs) as (c1 & -> & Hk1). cbn [mbind outcome_bind].
  apply bt_ok_middle in Hok as (_ & _ & Hok).
  assert (storages_ok (m1 ++ t ++ m2)) as Hs'.
  { apply (storages_sub _ _ Hs). intros q Hq. exists q. split; [set_solver|done]. }
  destruct (IH c1 Hok Hs') as (c2 & -> & Hk2). exists c2. split; [done|]. split.
  - intros q x Hq Hx. rewrite (proj1 Hk2 q x Hq Hx). apply (proj1 Hk1 q x); [set_solver|done].
  - intros x. destruct (proj2 Hk2 x) as [->| ->]; [apply Hk1|by right].
Qed.

Lemma insert_tail {E} bug tail m1 m2 e :
  keys_lt m1 e -> (tail = [] \/ exists b, tail = [b] /\ addr b = e /\ keys_gt m2 e) ->
  @insert_all E bug tail (m1 ++ m2) = Ok (m1 ++ (key <$> tail) ++ m2).
Proof.
  intros H1 [->|(b & -> & Hb & H2)]; [done|]. cbn. rewrite Hb. rewrite get_middle by done.
  rewrite insert_middle by done. unfold key. by rewrite Hb.
Qed.

(** ** The invariant *)

Record space_ok (s : t) : Prop := SpaceOk {
  so_granularity : allocation_granularity s = h_page_size H /\ h_page_size H <= VIRTUAL_PAGE_SIZE;
  so_ordered : ordered 1 (allocations s);
  so_allocs k a : (k, a) ∈ allocations s ->
    addr a mod VIRTUAL_PAGE_SIZE = 0 /\ m_addr (storage a) <= addr a
    /\ end_ a <= m_addr (storage a) + m_len (storage a)
    /\ m_addr (storage a) + m_len (storage a) + VIRTUAL_PAGE_SIZE < 2 ^ 64;
  so_storages : storages_ok (allocations s);
  so_live q x : q ∈ allocations s -> in_storage (storage q.2) x -> is_Some (page (calls s) x);
  so_pages x a : at_ (allocations s) x = Some a -> page (calls s) x = Some (into_host (prot a))
}.

(** The protection and the name of an address. *)
Definition view (s : t) x : option (Z * str) := (fun a => (prot a, name a)) <$> at_ (allocations s) x.

Lemma view_attrs m m' x :
  attrs <$> at_ m' x = attrs <$> at_ m x ->
  (fun a => (prot a, name a)) <$> at_ m' x = (fun a => (prot a, name a)) <$> at_ m x.
Proof. destruct (at_ m' x), (at_ m x); cbn; intros; unfold attrs in *; congruence. Qed.

Lemma space_live s : space_ok s -> live (calls s) (allocations s).
Proof.
  intros Hs k a Hi. destruct (so_allocs s Hs k a Hi) as (Ha & H1 & H2 & _). split; [done|].
  intros x Hx. apply (so_live s Hs (k, a)); [done|]. unfold inside, in_storage in *. cbn. lia.
Qed.

(** An address space after a cut, with calls that leave what remains alone. *)
Lemma cut_ok s p e c c' :
  space_ok s -> p < e -> e mod VIRTUAL_PAGE_SIZE = 0 ->
  (forall x, is_Some (page (calls s) x) -> is_Some (page c x)) ->
  (forall x, ~ p <= x < e -> page c x = page (calls s) x) ->
  kept_pages (cuts p e (allocations s)) c c' ->
  space_ok (set_allocs s (cuts p e (allocations s)) c').
Proof.
  intros Hs He Hal Hc1 Hc2 [Hk _]. split; cbn.
  - apply Hs.
  - apply ordered_cuts; [done|apply Hs].
  - intros k b Hi. apply elem_cuts in Hi as (k' & a & Ha & [= _ _ ->] & _ & H1 & H2 & H3).
    destruct (so_allocs s Hs k' a Ha) as (Ha1 & Ha2 & Ha3 & Ha4). split; [destruct H3 as [->| ->]; done|lia].
  - apply (storages_sub (allocations s)); [apply Hs|]. intros [k b] Hi.
    apply elem_cuts in Hi as (k' & a & Ha & [= _ _ Hb] & _). by exists (k', a).
  - intros [k b] x Hi Hx. cbn in Hx. rewrite (Hk (k, b) x Hi Hx). apply Hc1.
    apply elem_cuts in Hi as (k' & a & Ha & [= _ _ Hb] & _). apply (so_live s Hs (k', a)); [done|]. cbn. by rewrite <- Hb.
  - intros x b Hb. pose proof (at_cuts p e (allocations s) x He) as Hat. rewrite Hb in Hat. cbn in Hat.
    destruct (decide (p <= x < e)) as [|Hx]; [done|]. destruct (at_ (allocations s) x) as [a|] eqn:Ha; [|done].
    cbn in Hat. injection Hat as Hp _ Hst. rewrite Hp, <- (so_pages s Hs x a Ha).
    apply at_elem in Hb as [Hin [k Hi]]. rewrite <- (Hc2 x Hx). apply (Hk (k, b) x Hi). cbn.
    apply elem_cuts in Hi as (k' & a' & Ha' & [= _ _ ->] & _ & H1 & H2 & _).
    destruct (so_allocs s Hs k' a' Ha') as (_ & Ha2 & Ha3 & _). unfold inside, in_storage in *. lia.
Qed.

(** The end of the range of an operation. *)
Definition range_end {E} p n : outcome E Z := e ← ptr_add p n; align_virtual_page e.

Lemma range_end_cases {E} p n :
  0 <= p -> 0 < n ->
  (exists e, @range_end E p n = Ok e /\ e = round_up (p + n) VIRTUAL_PAGE_SIZE /\ p < e /\ e mod VIRTUAL_PAGE_SIZE = 0)
  \/ (@range_end E p n = Panic POverflow /\ 2 ^ 64 <= p + n + VIRTUAL_PAGE_SIZE).
Proof.
  intros Hp Hn. destruct (round_up_spec (p + n) VIRTUAL_PAGE_SIZE) as (H1 & H2); [done|].
  unfold range_end, align_virtual_page, ptr_add, uadd. destruct (Z.ltb_spec (p + n) (2 ^ 64)); cbn [mbind outcome_bind].
  2: { right. split; [done|]. unfold VIRTUAL_PAGE_SIZE. lia. }
  unfold round_up in *. destruct (Z.eqb_spec ((p + n) mod VIRTUAL_PAGE_SIZE) 0) as [|Hm].
  { left. eexists. split; [done|]. split; [done|]. split; [lia|done]. }
  destruct (Z.ltb_spec (p + n + (VIRTUAL_PAGE_SIZE - (p + n) mod VIRTUAL_PAGE_SIZE)) (2 ^ 64)).
  - left. eexists. split; [done|]. split; [done|]. split; [lia|done].
  - right. split; [done|]. lia.
Qed.

(** The entries of a table that the iterator finds. *)
Lemma split_ordered lo pre a l :
  ordered lo (pre ++ key a :: l) -> ordered lo pre /\ end_of lo pre <= addr a /\ ordered (addr a) (key a :: l).
Proof.
  intros Ho. apply ordered_app in Ho as [Ho (_ & Hk & Hl & Ho')]. split; [done|]. split; [done|]. by repeat split.
Qed.

Lemma munmap_guards p n s :
  munmap H p n s =
    if decide (p mod VIRTUAL_PAGE_SIZE = 0) then
      if decide (n = 0) then Err UZeroLen
      else
        e ← range_end p n;
        let '(pre, l) := start_from (allocations s) p in
        '(l, adds, removes, c) ← munmap_loop H p e (calls s) l;
        m ← insert_all (PExplicit "Address is already allocated.") adds (pre ++ l);
        '(m, c) ← remove_all H removes m c;
        Ok (set_allocs s m c)
    else Err UUnalignedAddr.
Proof.
  unfold munmap, fail_if. destruct (Z.eqb_spec (p mod VIRTUAL_PAGE_SIZE) 0), (Z.eqb_spec n 0);
    rewrite ?(decide_True (P := p mod VIRTUAL_PAGE_SIZE = 0)), ?(decide_False (P := p mod VIRTUAL_PAGE_SIZE = 0)),
      ?(decide_True (P := n = 0)), ?(decide_False (P := n = 0)) by done; try done.
  cbn [negb mbind outcome_bind]. unfold range_end. by destruct (ptr_add p n).
Qed.

Lemma munmap_hole p n s :
  space_ok s -> 0 < n -> p mod VIRTUAL_PAGE_SIZE = 0 -> is_ok (@range_end MunmapError p n) = true ->
  at_ (allocations s) p = None -> munmap H p n s = Ok s.
Proof.
  intros Hs Hn Hal Hr Hat. rewrite munmap_guards, decide_True, decide_False by (done || lia).
  destruct (range_end p n) as [e| |]; [|done..]. cbn [mbind outcome_bind].
  destruct (start_from_spec 1 (allocations s) p (so_ordered s Hs)) as [[-> _]|(pre & a & l & _ & Hm & Hin)].
  - cbn. rewrite app_nil_r. by destruct s.
  - exfalso. assert (at_ (allocations s) p = Some a); [|congruence].
    apply (elem_at 1 _ (addr a)); [apply Hs| |done]. rewrite Hm. set_solver.
Qed.

Lemma munmap_covered p n e s :
  space_ok s -> 0 < n -> p mod VIRTUAL_PAGE_SIZE = 0 -> @range_end MunmapError p n = Ok e ->
  p < e -> e mod VIRTUAL_PAGE_SIZE = 0 -> is_Some (at_ (allocations s) p) ->
  exists c, munmap H p n s = Ok (set_allocs s (cuts p e (allocations s)) c)
  /\ space_ok (set_allocs s (cuts p e (allocations s)) c)
  /\ forall x, p <= x < e -> is_Some (at_ (allocations s) x) -> page c x = None \/ page c x = Some PROT_NONE.
Proof.
  intros Hs Hn Hal Hr He Hea Hat. rewrite munmap_guards, decide_True, decide_False by (done || lia).
  rewrite Hr. cbn [mbind outcome_bind]. pose proof (so_ordered s Hs) as Ho.
  destruct (start_from_spec 1 (allocations s) p Ho) as [[_ Hn']|(pre & a & l & -> & Hm & Hin)].
  { rewrite Hn' in Hat. by destruct Hat. }
  rewrite Hm in Ho. apply split_ordered in Ho as (Ho1 & Hpre & Ho2). pose proof (space_live s Hs) as Hl. rewrite Hm in Hl.
  destruct (loop_first p e a l (calls s) Ho2 Hin He Hal) as (kept & touched & tail & rest & c & -> & Hk & Hst & Hc & Hlt & Ht & Hpg).
  { intros k b Hi. apply (Hl k b). set_solver. }
  cbn [mbind outcome_bind]. assert (cuts p e (allocations s) = (pre ++ kept) ++ (key <$> tail) ++ rest) as Hcuts.
  { rewrite Hm, cuts_app, Hc, <- app_assoc. f_equal. apply (cuts_below 1); [done..|]. unfold inside in Hin. lia. }
  assert (bt_ok (pre ++ kept ++ touched ++ rest)) as Hok.
  { apply (bt_ok_keys (allocations s)); [|by apply (ordered_bt_ok 1), Hs]. rewrite Hm, (fmap_app fst pre (key a :: l)), (fmap_app fst pre (kept ++ touched ++ rest)), Hk. done. }
  replace (pre ++ kept ++ touched ++ rest) with ((pre ++ kept ++ touched) ++ rest) in * by (by rewrite <- !app_assoc).
  assert (keys_lt (pre ++ kept ++ touched) e) as Hlt'.
  { apply keys_app_lt. split; [|done]. apply (ordered_keys_lt 1); [done|]. unfold inside in Hin. lia. }
  assert (bt_ok (((pre ++ kept) ++ touched) ++ (key <$> tail) ++ rest)) as Hok'.
  { rewrite <- (app_assoc pre). destruct Ht as [->|(b & -> & Hb' & Hgt)]; [done|]. cbn. unfold key. rewrite Hb'.
    rewrite <- (insert_middle _ _ _ b Hlt' Hgt). by apply bt_insert_ok. }
  rewrite (insert_tail _ tail _ _ e Hlt' Ht). cbn [mbind outcome_bind].
  replace ((pre ++ kept ++ touched) ++ (key <$> tail) ++ rest) with ((pre ++ kept) ++ touched ++ (key <$> tail) ++ rest)
    by (by rewrite <- !app_assoc).
  destruct (@remove_all_Ok MunmapError touched (pre ++ kept) ((key <$> tail) ++ rest) c) as (c' & -> & Hkept).
  { by rewrite app_assoc. }
  { apply (storages_sub (allocations s)); [apply Hs|]. intros q Hq.
    assert (q ∈ cuts p e (allocations s) \/ q ∈ kept ++ touched) as [Hq'|Hq'] by (rewrite Hcuts; set_solver).
    - destruct q as [k b]. apply elem_cuts in Hq' as (k' & a' & Ha' & [= _ _ Hb'] & _). by exists (k', a').
    - destruct (Hst q Hq') as (k & b & Hb' & Heq). exists (k, b). split; [rewrite Hm; set_solver|done]. }
  cbn [mbind outcome_bind]. rewrite <- Hcuts in *. exists c'. split; [done|]. split.
  - apply (cut_ok s p e c c'); [done..| | |done].
    + intros x Hx. rewrite Hpg. case_decide; [by eexists|done].
    + intros x Hx. rewrite Hpg, decide_False by tauto. done.
  - intros x Hx Hsome. destruct (proj2 Hkept x) as [->| ->]; [|by left]. right. rewrite Hpg, decide_True; [done|].
    split; [done|]. rewrite Hm, at_app in Hsome. destruct (at_ pre x) eqn:Hpx; [|done].
    apply (at_range 1) in Hpx; [|done]. unfold inside in Hin. lia.
Qed.

End munmap.

End VmSpaceProps.
