(* ===== verification/VmUpdateProps.v ===== *)
(** * Updates of the address space

    [mprotect] and [mname]: the allocations in a range are split at its ends
    and changed, and the host follows. *)
From Stdlib Require Import Sorted.
From S2P Require Import Prelude BTree Env VmSpace VmSpaceProps.

Module VmUpdateProps.
Import Env VmSpace VmSpaceProps.
Local Open Scope list_scope.
Implicit Types (m l pre rest : list (Z * Alloc)) (a : Alloc) (x p e : Z) (c : list call).

(** ** Updating *)

Section update.
Context {H : Host} `{!HostOk H}.
Hypothesis page_le : h_page_size H <= VIRTUAL_PAGE_SIZE.
Variables (filt : Alloc -> bool) (u : updater) (g : Alloc -> Alloc).

(** A closure that changes attributes as [g] does, and the protection of the
    host with them. *)
Record updater_ok : Prop := UpdaterOk {
  uo_same a : addr (g a) = addr a /\ len (g a) = len a /\ storage (g a) = storage a;
  uo_part a q n : attrs (g (part a q n)) = attrs (g a);
  uo_run c a : addr a mod VIRTUAL_PAGE_SIZE = 0 -> (forall x, inside a x -> page c x = Some (into_host (prot a))) ->
    exists c', u c a = Ok (g a, c')
    /\ forall x, page c' x = if decide (inside a x) then Some (into_host (prot (g a))) else page c x
}.
Hypothesis u_ok : updater_ok.

Definition split p e a : list Alloc :=
  (if decide (addr a < p) then [part a (addr a) (Z.min (end_ a) p - addr a)] else [])
  ++ (if decide (Z.max (addr a) p < Z.min (end_ a) e)
      then [g (part a (Z.max (addr a) p) (Z.min (end_ a) e - Z.max (addr a) p))] else [])
  ++ (if decide (e < end_ a) then [part a (Z.max (addr a) e) (end_ a - Z.max (addr a) e)] else []).
Definition upd p e a : list Alloc := if filt a then split p e a else [a].
Definition upds p e l : list (Z * Alloc) := key <$> (l.*2 ≫= upd p e).

Lemma upds_app p e l1 l2 : upds p e (l1 ++ l2) = upds p e l1 ++ upds p e l2.
Proof. unfold upds. by rewrite fmap_app, bind_app, fmap_app. Qed.

Lemma upds_cons p e k a l : upds p e ((k, a) :: l) = (key <$> upd p e a) ++ upds p e l.
Proof. unfold upds. cbn. by rewrite fmap_app. Qed.

Lemma upd_below p e a : p < e -> 0 < len a -> end_ a <= p -> upd p e a = [a].
Proof.
  intros He Hl Hp. unfold upd, split. destruct (filt a); [|done]. rewrite decide_True by (unfold end_ in *; lia).
  rewrite !decide_False by lia. rewrite Z.min_l by lia. cbn.
  replace (end_ a - addr a) with (len a) by (unfold end_; lia). by rewrite part_id.
Qed.

Lemma upd_above p e a : p < e -> 0 < len a -> e <= addr a -> upd p e a = [a].
Proof.
  intros He Hl Hp. unfold upd, split. destruct (filt a); [|done]. rewrite (decide_False (P := addr a < p)) by lia.
  rewrite decide_False by lia. rewrite decide_True by (unfold end_ in *; lia). rewrite Z.max_l by lia. cbn.
  replace (end_ a - addr a) with (len a) by (unfold end_; lia). by rewrite part_id.
Qed.

Lemma upds_below lo p e l : ordered lo l -> p < e -> end_of lo l <= p -> upds p e l = l.
Proof.
  revert lo. induction l as [|[k a] l IH]; intros lo Ho He Hp; [done|]. cbn in Ho, Hp. destruct Ho as (-> & Hlo & Hl & Ho).
  rewrite upds_cons. rewrite upd_below; [|done..|pose proof (ordered_end_ge _ _ Ho); lia]. cbn. f_equal. by eapply IH.
Qed.

Lemma upds_above lo p e l : ordered lo l -> p < e -> e <= lo -> upds p e l = l.
Proof.
  revert lo. induction l as [|[k a] l IH]; intros lo Ho He Hp; [done|]. cbn in Ho. destruct Ho as (-> & Hlo & Hl & Ho).
  rewrite upds_cons. rewrite upd_above by (done || lia). cbn. f_equal. eapply IH; [done..|]. unfold end_. lia.
Qed.

(** The attributes after the update. *)
Definition new_attrs p e x a : Z * str * Memory :=
  if decide (p <= x < e) then if filt a then attrs (g a) else attrs a else attrs a.

Lemma at_upd p e a x :
  p < e -> 0 < len a ->
  attrs <$> at_ (key <$> upd p e a) x = if decide (inside a x) then Some (new_attrs p e x a) else None.
Proof.
  intros He Hl. unfold upd, new_attrs. destruct (filt a).
  2: { cbn. destruct (decide (inside a x)), (decide (p <= x < e)); done. }
  unfold split. set (mid := part a (Z.max (addr a) p) _). pose proof (uo_same u_ok mid) as (Hm1 & Hm2 & _).
  assert (attrs (g mid) = attrs (g a)) as Hm by apply (uo_part u_ok). cbn in Hm1, Hm2.
  destruct (decide (addr a < p)), (decide (Z.max (addr a) p < Z.min (end_ a) e)), (decide (e < end_ a)); cbn [app fmap list_fmap key at_];
    unfold inside, end_ in *; rewrite ?Hm1, ?Hm2; cbn [addr len part];
    repeat (case_decide; cbn); try done; try lia; by rewrite ?Hm.
Qed.

Lemma at_upds lo p e m x :
  p < e -> ordered lo m -> attrs <$> at_ (upds p e m) x = new_attrs p e x <$> at_ m x.
Proof.
  intros He. revert lo. induction m as [|[k a] m IH]; intros lo Ho; [done|]. destruct Ho as (-> & Hlo & Hl & Ho).
  rewrite upds_cons, at_app. cbn [at_]. pose proof (at_upd p e a x He Hl) as Hu.
  destruct (at_ (key <$> upd p e a) x); cbn in *; destruct (decide (inside a x)); try done. by eapply IH.
Qed.

Lemma ordered_upds lo p e m : p < e -> ordered lo m -> ordered lo (upds p e m).
Proof.
  intros He. revert lo. induction m as [|[k a] m IH]; intros lo Ho; [done|]. destruct Ho as (-> & Hlo & Hl & Ho).
  rewrite upds_cons. apply IH in Ho. unfold upd. destruct (filt a); [|by repeat split].
  unfold split. set (mid := part a (Z.max (addr a) p) _). pose proof (uo_same u_ok mid) as (Hm1 & Hm2 & _). cbn in Hm1, Hm2.
  destruct (decide (addr a < p)), (decide (Z.max (addr a) p < Z.min (end_ a) e)), (decide (e < end_ a));
    cbn [app fmap list_fmap key ordered]; unfold end_ in *; rewrite ?Hm1, ?Hm2; cbn [addr len part]; repeat split; try lia;
    eapply ordered_weaken; try eassumption; lia.
Qed.

Lemma elem_upds p e m k b :
  (k, b) ∈ upds p e m -> exists k' a, (k', a) ∈ m /\ storage b = storage a /\ k = addr b
    /\ addr a <= addr b /\ end_ b <= end_ a /\ (addr b = addr a \/ addr b = p \/ addr b = e).
Proof.
  unfold upds. intros Hi. apply list_elem_of_fmap in Hi as (b' & [= -> <-] & Hi).
  apply list_elem_of_bind in Hi as (a & Hb & Ha). apply list_elem_of_fmap in Ha as ([k' a'] & -> & Ha).
  exists k', a'. split; [done|]. cbn in Hb. unfold upd in Hb. destruct (filt a').
  2: { apply list_elem_of_singleton in Hb as ->. repeat split; try done; lia. }
  unfold split in Hb. set (mid := part a' (Z.max (addr a') p) _) in Hb.
  pose proof (uo_same u_ok mid) as (Hm1 & Hm2 & Hm3). cbn in Hm1, Hm2, Hm3.
  destruct (decide (addr a' < p)), (decide (Z.max (addr a') p < Z.min (end_ a') e)), (decide (e < end_ a')); cbn [app] in Hb;
    repeat (apply elem_of_cons in Hb as [->|Hb]); try (by apply not_elem_of_nil in Hb);
    unfold end_ in *; rewrite ?Hm1, ?Hm2, ?Hm3; cbn; (split; [done|]); lia.
Qed.

(** *** The loops *)

(** Entries without a gap between them, from [prev] on. *)
Fixpoint contiguous (prev : Z) l : Prop :=
  match l with
  | [] => True
  | (_, a) :: l => (prev = 0 \/ addr a = prev) /\ contiguous (end_ a) l
  end.

Definition mark (q : Z * Alloc) : Z * Alloc * bool := (q, filt q.2).

Lemma scan_spec e l : forall lo prev,
  ordered lo l -> 0 < lo -> (prev = 0 \/ prev = lo) ->
  match update_scan filt e prev l with
  | Ok (tg, rest) =>
      exists touched, tg = mark <$> touched /\ l = touched ++ rest /\ keys_lt touched e
      /\ contiguous prev touched /\ ordered (Z.max e (end_of lo touched)) rest
  | Err (UnmappedAddr z) =>
      lo <= z < e /\ at_ l z = None /\ exists y, z < y < e /\ is_Some (at_ l y)
  | _ => False
  end.
Proof.
  induction l as [|[k a] l IH]; intros lo prev Ho Hlo Hprev; cbn [update_scan]; [by exists []; repeat constructor|].
  pose proof Ho as (-> & Hk & Hl & Ho'). destruct (Z.leb_spec e (addr a)).
  { exists []. repeat split; try done; [constructor|]. cbn. repeat split; try done. lia. }
  unfold fail_if. destruct (Z.eqb_spec prev 0) as [Hp0|Hp0], (Z.eqb_spec (addr a) prev) as [Hap|Hap]; cbn [negb andb mbind outcome_bind].
  4: { destruct Hprev as [|Hprev]; [done|]. subst prev. split; [lia|]. split.
    - apply (at_below (addr a)); [|lia]. by repeat split.
    - exists (addr a). split; [lia|]. cbn. rewrite decide_True by (unfold inside, end_; lia). by eexists. }
  all: specialize (IH (end_ a) (end_ a) Ho' ltac:(unfold end_; lia) ltac:(by right)).
  all: destruct (update_scan filt e (end_ a) l) as [[tg rest]|[| | |z]|]; cbn [mbind outcome_bind]; try done.
  all: try (destruct IH as (Hz & Hn & y & Hy & Hs); split; [unfold end_ in *; lia|]; cbn;
    rewrite !decide_False by (unfold inside; lia); split; [done|]; exists y; split; [done|];
    rewrite decide_False by (unfold inside; lia); done).
  all: destruct IH as (touched & -> & -> & Hlt & Hcont & Hrest); exists ((addr a, a) :: touched).
  all: split; [done|]; split; [done|]; split; [constructor; [done|exact Hlt]|]; split; [|done]; cbn; tauto.
Qed.

(** The host shows the protections of the entries. *)
Definition shown c l : Prop :=
  forall k a, (k, a) ∈ l -> addr a mod VIRTUAL_PAGE_SIZE = 0 /\ forall x, inside a x -> page c x = Some (into_host (prot a)).

(** The protections of the host after the update of entries. *)
Definition painted p e l c c' : Prop :=
  forall x, page c' x =
    if decide (p <= x < e) then
      match at_ l x with
      | Some a => if filt a then Some (into_host (prot (g a))) else page c x
      | None => page c x
      end
    else page c x.

Lemma painted_nil p e c : painted p e [] c c.
Proof. intros x. cbn. by case_decide. Qed.

Lemma prot_part a q n : prot (g (part a q n)) = prot (g a).
Proof. by injection (uo_part u_ok a q n). Qed.

(** The update of one part of an entry, then of the entries after it. *)
Lemma painted_cons p e a b l c c1 c2 :
  ordered (addr a) (key a :: l) -> filt a = true -> prot (g b) = prot (g a) ->
  (forall x, inside b x <-> inside a x /\ p <= x < e) ->
  (forall x, page c1 x = if decide (inside b x) then Some (into_host (prot (g b))) else page c x) ->
  painted p e l c1 c2 -> painted p e (key a :: l) c c2.
Proof.
  intros (_ & _ & _ & Ho) Hf Hb Hin H1 H2 x. rewrite H2, !H1, Hb. cbn.
  destruct (decide (p <= x < e)) as [Hr|Hr]; [|rewrite decide_False; [done|]; rewrite Hin; tauto].
  destruct (decide (inside a x)) as [Ha|Ha].
  - rewrite Hf. destruct (at_ l x) eqn:Hl.
    { apply (at_range (end_ a)) in Hl; [|done]. unfold inside in Ha. lia. }
    rewrite decide_True; [done|]. by rewrite Hin.
  - rewrite decide_False by (rewrite Hin; tauto). done.
Qed.

Lemma shown_cons c k a l :
  shown c ((k, a) :: l) ->
  (addr a mod VIRTUAL_PAGE_SIZE = 0 /\ forall x, inside a x -> page c x = Some (into_host (prot a))) /\ shown c l.
Proof. intros Hl. split; [apply (Hl k); set_solver|]. intros k' a' Hi. apply (Hl k'). set_solver. Qed.

(** Entries after a changed one are as they were. *)
Lemma shown_after c c1 a b l :
  ordered (end_ a) l -> shown c l -> (forall x, inside b x -> inside a x) ->
  (forall x, page c1 x = if decide (inside b x) then Some (into_host (prot (g b))) else page c x) -> shown c1 l.
Proof.
  intros Ho Hl Hb H1 k d Hi. destruct (Hl k d Hi) as [Hd Hx]. split; [done|]. intros x Hin. rewrite H1, decide_False; [by apply Hx|].
  intros Hbx. apply Hb in Hbx. apply (ordered_elem _ _ _ _ Ho) in Hi. unfold inside in *. lia.
Qed.

Lemma last_key p k a l e : ordered p ((k, a) :: l) -> keys_lt ((k, a) :: l) e -> e < end_ a -> l = [].
Proof.
  intros (_ & _ & _ & Ho) Hk He. destruct l as [|[k' a'] l]; [done|]. destruct Ho as (-> & Ho & _).
  apply Forall_inv_tail, Forall_inv in Hk. cbn in Hk. lia.
Qed.

Lemma set_len_part a n : set_len a n = part a (addr a) n.
Proof. done. Qed.

(** Entries that do not start before the range. *)
Lemma targets_ge p e l : forall lo c,
  ordered lo l -> p <= lo -> p < e -> keys_lt l e -> shown c l ->
  exists l' tail c', update_targets u p e c (mark <$> l) = Ok (l', tail, c')
  /\ l'.*1 = l.*1 /\ upds p e l = l' ++ (key <$> tail)
  /\ (tail = [] \/ exists b, tail = [b] /\ addr b = e /\ e < end_of lo l) /\ painted p e l c c'.
Proof.
  induction l as [|[k a] l IH]; intros lo c Ho Hp He Hk Hl.
  { exists [], [], c. repeat split; [by left|apply painted_nil]. }
  pose proof Ho as (-> & Hlo & Hlen & Ho'). apply shown_cons in Hl as [[Ha Hx] Hl].
  pose proof (Forall_inv Hk) as Hka. cbn in Hka. apply Forall_inv_tail in Hk as Hk'.
  assert (ordered (addr a) (key a :: l)) as Hoa by (by repeat split).
  cbn [fmap list_fmap mark update_targets snd]. rewrite upds_cons. unfold upd. destruct (filt a) eqn:Hf.
  2: { destruct (IH (end_ a) c Ho') as (l' & tail & c' & -> & Hkeys & Hu & Ht & Hpaint); [unfold end_; lia|done..|].
    exists ((addr a, a) :: l'), tail, c'. split; [done|]. split; [cbn; by rewrite Hkeys|]. split; [cbn; by rewrite Hu|]. split; [done|].
    intros x. rewrite Hpaint. cbn. destruct (decide (p <= x < e)); [|done]. destruct (decide (inside a x)) as [Hin|]; [|done].
    rewrite Hf. rewrite (at_below _ _ _ Ho'); [done|]. unfold inside in Hin. lia. }
  unfold update_one. rewrite (proj2 (Z.ltb_ge _ _)) by lia. unfold split. rewrite (decide_False (P := addr a < p)), Z.max_l by lia.
  rewrite (decide_True (P := addr a < _)) by (unfold end_ in *; lia). destruct (Z.ltb_spec e (end_ a)) as [Hend|Hend].
  - assert (l = []) as -> by (by apply (last_key (addr a) (addr a) a l e)).
    rewrite Z.min_r, decide_True, Z.max_r by lia. rewrite set_len_part.
    replace (len a - (end_ a - e)) with (e - addr a) by (unfold end_; lia). set (b := part a (addr a) (e - addr a)).
    assert (forall x, inside b x <-> inside a x /\ p <= x < e) as Hb by (intros x; unfold inside, end_ in *; cbn; lia).
    destruct (uo_run u_ok c b Ha) as (c1 & -> & Hc1); [intros x [Hxb _]%Hb; by apply Hx|]. cbn [mbind outcome_bind fmap list_fmap update_targets app].
    pose proof (uo_same u_ok b) as (Hb1 & _). cbn in Hb1.
    exists [(addr a, g b)], [part a e (end_ a - e)], c1. split; [done|]. split; [done|].
    split; [unfold key; cbn; by rewrite Hb1|]. split; [right; by eexists|].
    apply (painted_cons p e a b [] c c1 c1); [done|done|apply prot_part|done|done|apply painted_nil].
  - rewrite Z.min_l, (decide_False (P := e < end_ a)) by lia.
    replace (part a (addr a) (end_ a - addr a)) with a by (rewrite <- (part_id a) at 1; f_equal; unfold end_; lia).
    destruct (uo_run u_ok c a Ha Hx) as (c1 & -> & Hc1). cbn [mbind outcome_bind].
    destruct (IH (end_ a) c1 Ho') as (l' & tail & c' & -> & Hkeys & Hu & Ht & Hpaint);
      [unfold end_ in *; lia|done|done|by apply (shown_after c c1 a a l)|]. cbn [mbind outcome_bind app].
    pose proof (uo_same u_ok a) as (Ha1 & _).
    exists ((addr a, g a) :: l'), tail, c'. split; [done|]. split; [cbn; by rewrite Hkeys|].
    split; [unfold key at 1; cbn; by rewrite Ha1, Hu|]. split; [done|].
    apply (painted_cons p e a a l c c1 c'); try done. intros x. unfold inside. lia.
Qed.

Lemma keys_gt_fst l l' k : l'.*1 = l.*1 -> keys_gt l k -> keys_gt l' k.
Proof.
  intros He Hk. assert (Forall (fun z => k < z) l.*1) as Hf by (by apply Forall_fmap).
  rewrite <- He in Hf. exact (proj1 (Forall_fmap _ _ _) Hf).
Qed.
Lemma keys_lt_fst l l' k : l'.*1 = l.*1 -> keys_lt l k -> keys_lt l' k.
Proof.
  intros He Hk. assert (Forall (fun z => z < k) l.*1) as Hf by (by apply Forall_fmap).
  rewrite <- He in Hf. exact (proj1 (Forall_fmap _ _ _) Hf).
Qed.

(** The entries from the one that contains the first address on. *)
Lemma targets_first p e a l c :
  ordered (addr a) (key a :: l) -> inside a p -> p < e -> p mod VIRTUAL_PAGE_SIZE = 0 ->
  keys_lt (key a :: l) e -> shown c (key a :: l) ->
  exists A B mid tail c', update_targets u p e c (mark <$> key a :: l) = Ok (A ++ B, mid ++ tail, c')
  /\ (A ++ B).*1 = (key a :: l).*1
  /\ upds p e (key a :: l) = A ++ (key <$> mid) ++ B ++ (key <$> tail)
  /\ (mid = [] \/ exists b, mid = [b] /\ addr b = p /\ keys_lt A p /\ keys_gt B p)
  /\ (tail = [] \/ exists b, tail = [b] /\ addr b = e /\ e < end_of (addr a) (key a :: l))
  /\ painted p e (key a :: l) c c'.
Proof.
  intros Ho Hin He Hp Hk Hl. unfold inside in Hin.
  destruct (decide (addr a < p /\ filt a = true)) as [[Hlt Hf]|Hn].
  2: { destruct (decide (addr a < p)) as [Hlt|Hge].
    - assert (filt a = false) as Hf by (by destruct (filt a); naive_solver).
      pose proof Ho as (_ & _ & Hlen & Ho'). apply shown_cons in Hl as [_ Hl]. apply Forall_inv_tail in Hk as Hk'.
      destruct (targets_ge p e l (end_ a) c Ho') as (l' & tail & c' & Hrun & Hkeys & Hu & Ht & Hpaint); [lia|done..|].
      exists [], (key a :: l'), [], tail, c'. cbn [fmap list_fmap update_targets mark key snd]. rewrite Hf, Hrun.
      split; [done|]. split; [cbn; by rewrite Hkeys|]. split; [change (key a :: l) with ((addr a, a) :: l); rewrite upds_cons; unfold upd; rewrite Hf; cbn; by rewrite Hu|].
      split; [by left|]. split; [done|]. intros x. rewrite Hpaint. cbn.
      destruct (decide (p <= x < e)); [|done]. destruct (decide (inside a x)) as [Hax|]; [|done].
      rewrite Hf, (at_below _ _ _ Ho'); [done|]. unfold inside in Hax. lia.
    - destruct (targets_ge p e (key a :: l) (addr a) c Ho) as (l' & tail & c' & Hrun & Hkeys & Hu & Ht & Hpaint); [lia|done..|].
      exists [], l', [], tail, c'. split; [done|]. split; [done|]. split; [done|]. split; [by left|]. done. }
  pose proof Ho as (_ & _ & Hlen & Ho'). apply shown_cons in Hl as [[Ha Hx] Hl]. apply Forall_inv_tail in Hk as Hk'.
  change (key a :: l) with ((addr a, a) :: l). cbn [fmap list_fmap mark update_targets snd]. rewrite upds_cons.
  unfold upd. rewrite Hf. unfold update_one. rewrite (proj2 (Z.ltb_lt _ _)) by lia. unfold split.
  rewrite (decide_True (P := addr a < p)), (Z.max_r (addr a) p), (Z.min_r (end_ a) p) by lia.
  rewrite (decide_True (P := p < _)) by lia. rewrite set_len_part.
  replace (len a - (end_ a - p)) with (p - addr a) by (unfold end_; lia).
  destruct (Z.ltb_spec e (end_ a)) as [Hend|Hend].
  - assert (l = []) as -> by (by apply (last_key (addr a) (addr a) a l e)).
    rewrite Z.min_r, decide_True, Z.max_r by lia. set (b := part a p (e - p)).
    assert (forall x, inside b x <-> inside a x /\ p <= x < e) as Hb by (intros x; unfold inside, end_ in *; cbn; lia).
    destruct (uo_run u_ok c b Hp) as (c1 & -> & Hc1); [intros x [Hxb _]%Hb; by apply Hx|].
    cbn [mbind outcome_bind fmap list_fmap update_targets app]. rewrite (proj2 (Z.eqb_neq _ _)) by lia. cbn [negb].
    pose proof (uo_same u_ok b) as (Hb1 & _). cbn in Hb1.
    exists [(addr a, part a (addr a) (p - addr a))], [], [g b], [part a e (end_ a - e)], c1.
    split; [done|]. split; [done|]. split; [done|]. split; [right; eexists; split; [done|]; split; [done|]; split; [by repeat constructor|constructor]|].
    split; [right; by eexists|].
    apply (painted_cons p e a b [] c c1 c1); [done|done|apply prot_part|done|done|apply painted_nil].
  - rewrite Z.min_l, (decide_False (P := e < end_ a)) by lia. set (b := part a p (end_ a - p)).
    assert (forall x, inside b x <-> inside a x /\ p <= x < e) as Hb by (intros x; unfold inside, end_ in *; cbn; lia).
    destruct (uo_run u_ok c b Hp) as (c1 & -> & Hc1); [intros x [Hxb _]%Hb; by apply Hx|].
    cbn [mbind outcome_bind]. rewrite Z.eqb_refl. cbn [negb]. pose proof (uo_same u_ok b) as (Hb1 & _). cbn in Hb1.
    destruct (targets_ge p e l (end_ a) c1 Ho') as (l' & tail & c' & -> & Hkeys & Hu & Ht & Hpaint);
      [lia|done|done|apply (shown_after c c1 a b l); try done; intros x Hxb; by apply Hb|]. cbn [mbind outcome_bind].
    exists [(addr a, part a (addr a) (p - addr a))], l', [g b], tail, c'.
    split; [done|]. split; [cbn; by rewrite Hkeys|]. split; [cbn; by rewrite Hu|].
    split; [right; eexists; split; [done|]; split; [done|]; split; [by repeat constructor|]|].
    { apply (keys_gt_fst l); [done|]. apply (ordered_keys_gt _ _ _ Ho'). lia. }
    split; [done|]. apply (painted_cons p e a b l c c1 c'); try done. apply prot_part.
Qed.

Lemma insert_all_app {E} bug (l1 l2 : list Alloc) m :
  @insert_all E bug (l1 ++ l2) m = (m ← insert_all bug l1 m; insert_all bug l2 m).
Proof. revert m. induction l1 as [|a l1 IH]; intros m; cbn; [done|]. destruct (bt_get (addr a) m); [done|]. apply IH. Qed.

(** *** The operation *)

Lemma upd_ok s p e c :
  space_ok (H := H) s -> p < e -> p mod VIRTUAL_PAGE_SIZE = 0 -> e mod VIRTUAL_PAGE_SIZE = 0 ->
  painted p e (allocations s) (calls s) c ->
  space_ok (H := H) (set_allocs s (upds p e (allocations s)) c).
Proof.
  intros Hs He Hp Hal Hpaint. pose proof (so_ordered s Hs) as Ho. split; cbn.
  - apply Hs.
  - by apply ordered_upds.
  - intros k b Hi. apply elem_upds in Hi as (k' & a & Ha & -> & _ & H1 & H2 & H3).
    destruct (so_allocs s Hs k' a Ha) as (Ha1 & Ha2 & Ha3 & Ha4). split; [destruct H3 as [->|[->| ->]]; done|lia].
  - apply (storages_sub (allocations s)); [apply Hs|]. intros [k b] Hi.
    apply elem_upds in Hi as (k' & a & Ha & Hb & _). by exists (k', a).
  - intros [k b] x Hi Hx. cbn in Hx. apply elem_upds in Hi as (k' & a & Ha & Hb & _).
    assert (is_Some (page (calls s) x)) as Hsome by (apply (so_live s Hs (k', a)); [done|]; cbn; by rewrite <- Hb).
    rewrite Hpaint. repeat case_match; done.
  - intros x b Hb. pose proof (at_upds 1 p e (allocations s) x He Ho) as Hat. rewrite Hb in Hat.
    rewrite Hpaint. destruct (at_ (allocations s) x) as [a|] eqn:Ha; [|done]. cbn in Hat. injection Hat as Hat.
    assert (prot b = (new_attrs p e x a).1.1) as -> by (by rewrite <- Hat). pose proof (so_pages s Hs x a Ha) as Hpg.
    unfold new_attrs. destruct (decide (p <= x < e)); [destruct (filt a)|]; done.
Qed.

Lemma painted_split lo p e pre a t rest c c' :
  ordered lo (pre ++ key a :: t ++ rest) -> inside a p -> ordered e rest ->
  painted p e (key a :: t) c c' -> painted p e (pre ++ key a :: t ++ rest) c c'.
Proof.
  intros Ho Hin Hr Hp x. rewrite Hp. apply split_ordered in Ho as (Ho1 & Hpre & _). unfold inside in Hin.
  destruct (decide (p <= x < e)); [|done]. rewrite at_app. destruct (at_ pre x) eqn:Hx.
  { apply (at_range lo) in Hx; [|done]. lia. }
  change (key a :: t ++ rest) with ((key a :: t) ++ rest). rewrite (at_app (key a :: t)).
  rewrite (at_below e rest x) by (done || lia). by destruct (at_ (key a :: t) x).
Qed.

Lemma contiguous_at prev l : forall lo x,
  ordered lo l -> contiguous prev l -> prev = lo -> 0 < lo -> lo <= x < end_of lo l -> is_Some (at_ l x).
Proof.
  revert prev. induction l as [|[k a] l IH]; intros prev lo x Ho Hc Hp H0 Hx; cbn in Hx; [lia|].
  destruct Ho as (-> & Hk & Hl & Ho), Hc as [Ha Hc]. cbn. destruct (decide (inside a x)) as [|Hn]; [by eexists|].
  apply (IH (end_ a) (end_ a)); try done; unfold inside, end_ in *; lia.
Qed.

(** *** Inserting what the loop adds *)

Lemma insert_update {E} bug pre A B mid tail rest p e :
  keys_lt pre p -> p < e -> keys_gt rest p -> keys_lt (A ++ B) e ->
  (mid = [] \/ exists b, mid = [b] /\ addr b = p /\ keys_lt A p /\ keys_gt B p) ->
  (tail = [] \/ exists b, tail = [b] /\ addr b = e /\ keys_gt rest e) ->
  @insert_all E bug (mid ++ tail) (pre ++ (A ++ B) ++ rest)
  = Ok (pre ++ (A ++ (key <$> mid) ++ B ++ (key <$> tail)) ++ rest).
Proof.
  intros Hpre He Hrest Hab Hm Ht. apply keys_app_lt in Hab as [Ha Hb]. rewrite insert_all_app.
  replace (pre ++ (A ++ B) ++ rest) with ((pre ++ A) ++ B ++ rest) by (by rewrite <- !app_assoc).
  assert (insert_all (E := E) bug mid ((pre ++ A) ++ B ++ rest) = Ok ((pre ++ A) ++ (key <$> mid) ++ B ++ rest)) as ->.
  { destruct Hm as [->|(b & -> & Hbp & HA & HB)]; [done|]. apply (insert_tail bug [b] _ _ p).
    - by apply keys_app_lt.
    - right. exists b. split; [done|]. split; [done|]. by apply keys_app_gt. }
  cbn [mbind outcome_bind].
  replace ((pre ++ A) ++ (key <$> mid) ++ B ++ rest) with ((pre ++ A ++ (key <$> mid) ++ B) ++ rest) by (by rewrite <- !app_assoc).
  rewrite (insert_tail bug tail _ _ e); [by rewrite <- !app_assoc| |done].
  rewrite !keys_app_lt. split; [eapply Forall_impl; [exact Hpre|]; intros q Hq; cbn in *; lia|]. split; [done|]. split; [|done].
  destruct Hm as [->|(b & -> & Hbp & _)]; [constructor|]. constructor; [cbn; lia|constructor].
Qed.

(** Before a mapped address of the range every address is mapped. *)
Lemma no_gap lo e pre a t rest m p :
  ordered lo (pre ++ key a :: t ++ rest) -> 0 < lo -> m = pre ++ key a :: t ++ rest -> inside a p ->
  contiguous (end_ a) t -> ordered e rest ->
  forall x y, p <= x <= y -> y < e -> is_Some (at_ m y) -> is_Some (at_ m x).
Proof.
  intros Ho Hlo -> Hin Hc Hr x y Hxy Hy Hs. pose proof (split_ordered _ _ _ _ Ho) as (Ho1 & Hpre & (_ & _ & Hl & Ho2)).
  pose proof (ordered_end_ge _ _ Ho1). apply ordered_app in Ho2 as [Ho2 _]. unfold inside in Hin.
  assert (forall z, p <= z < e -> at_ (pre ++ key a :: t ++ rest) z = at_ (key a :: t) z) as Hat.
  { intros z Hz. rewrite at_app. destruct (at_ pre z) eqn:Hpz; [apply (at_range lo) in Hpz; [lia|done]|].
    change (key a :: t ++ rest) with ((key a :: t) ++ rest). rewrite (at_app (key a :: t)), (at_below e rest) by (done || lia).
    by destruct (at_ (key a :: t) z). }
  rewrite Hat in Hs |- * by lia. destruct Hs as [b Hb]. apply (at_range (addr a)) in Hb; [|by repeat split]. cbn in Hb |- *.
  destruct (decide (inside a x)) as [|Hx]; [by eexists|]. unfold inside in Hx.
  apply (contiguous_at (end_ a) t (end_ a)); try done; lia.
Qed.

(** Where the iterator starts, and the entries in the range. *)
Lemma scan_first s p e :
  space_ok (H := H) s -> p < e ->
  (start_from (allocations s) p = (allocations s, []) /\ at_ (allocations s) p = None)
  \/ exists pre a l, start_from (allocations s) p = (pre, key a :: l) /\ allocations s = pre ++ key a :: l /\ inside a p
     /\ match update_scan filt e 0 (key a :: l) with
        | Ok (tg, rest) => exists t, tg = mark <$> key a :: t /\ l = t ++ rest /\ keys_lt (key a :: t) e
            /\ contiguous (end_ a) t /\ ordered (Z.max e (end_of (end_ a) t)) rest
        | Err (UnmappedAddr z) => p < z < e /\ at_ (allocations s) z = None
            /\ exists y, z < y < e /\ is_Some (at_ (allocations s) y)
        | _ => False
        end.
Proof.
  intros Hs He. pose proof (so_ordered s Hs) as Ho.
  destruct (start_from_spec 1 (allocations s) p Ho) as [Hl|(pre & a & l & Hst & Hm & Hin)]; [by left|]. right.
  exists pre, a, l. split; [done|]. split; [done|]. split; [done|]. rewrite Hm in Ho |- *. apply split_ordered in Ho as (Ho1 & Hpre & Ho2).
  pose proof (ordered_end_ge _ _ Ho1). pose proof (scan_spec e (key a :: l) (addr a) 0 Ho2 ltac:(lia) ltac:(by left)) as Hsc.
  assert (forall x, addr a <= x -> at_ (pre ++ key a :: l) x = at_ (key a :: l) x) as Hat.
  { intros x Hx. rewrite at_app. destruct (at_ pre x) eqn:Hp; [|done]. apply (at_range 1) in Hp; [|done]. lia. }
  destruct (update_scan filt e 0 (key a :: l)) as [[tg rest]|[| | |z]|]; try done.
  - destruct Hsc as ([|[k a'] t] & -> & Heq & Hk & Hc & Hr).
    { cbn in Heq. rewrite <- Heq in Hr. destruct Hr as (_ & Hr & _). cbn in Hr. unfold inside in Hin. lia. }
    injection Heq as <- <- ->. exists t. split; [done|]. split; [done|]. split; [done|]. split; [apply Hc|done].
  - destruct Hsc as (Hz & Hn & y & Hy & Hs'). split; [|split; [rewrite Hat by lia; done|exists y; rewrite Hat by lia; done]].
    destruct (decide (p < z)); [lia|]. exfalso. cbn in Hn. rewrite decide_True in Hn; [done|]. unfold inside in *. lia.
Qed.

Lemma update_guards p n s :
  update p n filt u s =
    if decide (p mod VIRTUAL_PAGE_SIZE = 0) then
      if decide (n = 0) then Err ZeroLen
      else
        e ← range_end p n;
        let '(pre, l) := start_from (allocations s) p in
        '(targets, rest) ← update_scan filt e 0 l;
        fail_if (bool_decide (l = [])) InvalidAddr;;
        '(l, adds, c) ← update_targets u p e (calls s) targets;
        m ← insert_all PAssert adds (pre ++ l ++ rest);
        Ok (set_allocs s m c)
    else Err UnalignedAddr.
Proof.
  unfold update, fail_if at 1 2. destruct (Z.eqb_spec (p mod VIRTUAL_PAGE_SIZE) 0), (Z.eqb_spec n 0);
    rewrite ?(decide_True (P := p mod VIRTUAL_PAGE_SIZE = 0)), ?(decide_False (P := p mod VIRTUAL_PAGE_SIZE = 0)),
      ?(decide_True (P := n = 0)), ?(decide_False (P := n = 0)) by done; try done.
  cbn [negb mbind outcome_bind]. unfold range_end. by destruct (ptr_add p n).
Qed.

(** Each branch of [update]. *)
Lemma update_spec p n s :
  space_ok (H := H) s -> 0 <= p -> 0 <= n ->
  let e := round_up (p + n) VIRTUAL_PAGE_SIZE in
  let m := allocations s in
  match update p n filt u s with
  | Ok s' =>
      p mod VIRTUAL_PAGE_SIZE = 0 /\ p < e /\ is_Some (at_ m p) /\ space_ok (H := H) s'
      /\ (exists c, s' = set_allocs s (upds p e m) c)
      /\ (forall x y, p <= x <= y -> y < e -> is_Some (at_ m y) -> is_Some (at_ m x))
  | Err UnalignedAddr => p mod VIRTUAL_PAGE_SIZE <> 0
  | Err ZeroLen => n = 0
  | Err InvalidAddr => at_ m p = None
  | Err (UnmappedAddr z) => p < z < e /\ at_ m z = None /\ exists y, z < y < e /\ is_Some (at_ m y)
  | Panic _ => 2 ^ 64 <= p + n + VIRTUAL_PAGE_SIZE
  end.
Proof.
  intros Hs Hp Hn e m. rewrite update_guards. destruct (decide (p mod VIRTUAL_PAGE_SIZE = 0)) as [Hal|]; [|done].
  destruct (decide (n = 0)); [done|].
  destruct (range_end_cases (E := MemoryUpdateError) p n) as [(? & -> & -> & He & Hea)|[-> Hb]]; [lia..| |exact Hb].
  cbn [mbind outcome_bind]. fold e in He, Hea |- *.
  destruct (scan_first s p e Hs He) as [[-> Hat]|(pre & a & l & -> & Hm & Hin & Hsc)]; [done|].
  destruct (update_scan filt e 0 (key a :: l)) as [[tg rest]|[| | |z]|]; try done. cbn [mbind outcome_bind].
  destruct Hsc as (t & -> & -> & Hk & Hc & Hr). rewrite bool_decide_false by done. unfold fail_if. cbn [mbind outcome_bind].
  pose proof (so_ordered s Hs) as Ho. rewrite Hm in Ho. pose proof (split_ordered _ _ _ _ Ho) as (Ho1 & Hpre & Ho2).
  change (key a :: t ++ rest) with ((key a :: t) ++ rest) in Ho2. apply ordered_app in Ho2 as [Ho2 Ho3].
  assert (shown (calls s) (key a :: t)) as Hsh.
  { intros k b Hi. assert ((k, b) ∈ allocations s) as Hi' by (rewrite Hm; set_solver).
    split; [apply (so_allocs s Hs k b Hi')|]. intros x Hx. apply (so_pages s Hs). by apply (elem_at 1 _ k); [apply Hs|..]. }
  unfold inside in Hin.
  destruct (targets_first p e a t (calls s) Ho2 ltac:(done) He Hal Hk Hsh)
    as (A & B & mid & tail & c & -> & Hkeys & Hu & Hmid & Htail & Hpaint). cbn [mbind outcome_bind].
  assert (keys_gt rest p) as Hrp by (apply (ordered_keys_gt _ _ _ Hr); lia).
  rewrite (insert_update _ pre A B mid tail rest p e); [|apply (ordered_keys_lt 1); [done|lia]|done|done| |done|].
  2: { by apply (keys_lt_fst (key a :: t)). }
  2: { destruct Htail as [->|(b & -> & Hbe & Hlt)]; [by left|]. right. exists b. split; [done|]. split; [done|].
    apply (ordered_keys_gt _ _ _ Hr). cbn in Hlt. lia. }
  cbn [mbind outcome_bind].
  assert (ordered e rest) as Hre by (apply (ordered_weaken _ _ _ Hr); lia).
  assert (pre ++ (A ++ (key <$> mid) ++ B ++ (key <$> tail)) ++ rest = upds p e m) as ->.
  { unfold m. rewrite Hm. change (pre ++ key a :: t ++ rest) with (pre ++ (key a :: t) ++ rest).
    rewrite !upds_app, Hu, (upds_below 1 p e pre), (upds_above e p e rest) by (done || lia). done. }
  split; [done|]. split; [done|]. split; [unfold m; rewrite Hm; exists a; rewrite <- Hm; apply (elem_at 1 _ (addr a)); [apply Hs| |done]; rewrite Hm; set_solver|].
  split; [|split; [by eexists|]].
  - apply upd_ok; try done. rewrite Hm. by apply (painted_split 1).
  - apply (no_gap 1 e pre a t rest m p); done.
Qed.

End update.

End VmUpdateProps.
