(* ===== verification/VmMapProps.v ===== *)
(** * What the operations of an address space do

    [mmap], the main stack, and the specifications of [munmap], [mprotect] and
    [mname] as changes of the function from addresses to attributes. *)
From Stdlib Require Import Sorted.
From S2P Require Import Prelude BTree Env VmSpace VmSpaceProps VmUpdateProps.

Module VmMapProps.
Import Env VmSpace VmSpaceProps VmUpdateProps.
Local Open Scope list_scope.
Implicit Types (m l : list (Z * Alloc)) (a : Alloc) (x p e n : Z) (c : list call).

Section ops.
Context {H : Host} `{!HostOk H}.
Hypothesis page_le : h_page_size H <= VIRTUAL_PAGE_SIZE.

(** ** The closures of [mprotect] and [mname] *)

Lemma do_protect_ok new : updater_ok (do_protect H new) (fun a => set_prot a new).
Proof.
  split; [done|done|]. intros c a Ha Hx. unfold do_protect. rewrite protect_ok.
  - eexists. split; [done|]. intros x. cbn. destruct (decide (inside a x)) as [Hin|Hn].
    + rewrite decide_True by exact Hin. by rewrite Hx.
    + by rewrite decide_False by exact Hn.
  - by apply aligned_host.
  - intros x Hin. rewrite Hx; [by eexists|]. done.
Qed.

Lemma do_name_ok new : updater_ok (do_name new) (fun a => set_name a new).
Proof.
  split; [done|done|]. intros c a Ha Hx. unfold do_name. eexists. split; [done|]. intros x.
  destruct (cstring new); cbn; (case_decide; [by apply Hx|done]).
Qed.

(** ** Mapping *)

Lemma page_size_cases : h_page_size H = VIRTUAL_PAGE_SIZE
  \/ (0 < h_page_size H < VIRTUAL_PAGE_SIZE /\ VIRTUAL_PAGE_SIZE mod h_page_size H = 0).
Proof.
  destruct page_size_pow2 as (k & Hk & He). rewrite He in *. change VIRTUAL_PAGE_SIZE with (2 ^ 14) in *.
  assert (0 < 2 ^ k) by lia. destruct (decide (2 ^ k = 2 ^ 14)); [by left|]. right. split; [lia|].
  apply Z.pow_le_mono_r_iff in page_le; [|lia..]. apply Z.mod_divide; [lia|]. exists (2 ^ (14 - k)).
  rewrite <- Z.pow_add_r by lia. f_equal. lia.
Qed.

(** Where an allocation starts inside the memory that was reserved. *)
Lemma align_base {E} base :
  0 < base -> base mod h_page_size H = 0 -> base + VIRTUAL_PAGE_SIZE < 2 ^ 64 -> h_page_size H < VIRTUAL_PAGE_SIZE ->
  exists q, @align_virtual_page E base = Ok q /\ q mod VIRTUAL_PAGE_SIZE = 0
  /\ base <= q <= base + (VIRTUAL_PAGE_SIZE - h_page_size H).
Proof.
  intros Hb Hm Hlt Hg. destruct page_size_cases as [|[Hp Hd]]; [lia|]. unfold align_virtual_page.
  pose proof (Z.mod_pos_bound base VIRTUAL_PAGE_SIZE ltac:(done)). destruct (Z.eqb_spec (base mod VIRTUAL_PAGE_SIZE) 0) as [|Hn].
  { exists base. split; [done|]. split; [done|]. lia. }
  exists (base + (VIRTUAL_PAGE_SIZE - base mod VIRTUAL_PAGE_SIZE)). split; [apply uadd_Ok; split; [done|lia]|]. split.
  - replace (base + (VIRTUAL_PAGE_SIZE - base mod VIRTUAL_PAGE_SIZE)) with ((base / VIRTUAL_PAGE_SIZE + 1) * VIRTUAL_PAGE_SIZE).
    + by apply Z.mod_mul.
    + pose proof (Z.div_mod base VIRTUAL_PAGE_SIZE ltac:(done)). lia.
  - assert (h_page_size H <= base mod VIRTUAL_PAGE_SIZE); [|lia].
    assert ((h_page_size H | base mod VIRTUAL_PAGE_SIZE)) as [z Hz].
    { rewrite Z.mod_eq by done. apply Z.divide_sub_r; [by apply Z.mod_divide; [lia|]|].
      apply Z.divide_mul_l. by apply Z.mod_divide; [lia|]. }
    rewrite Hz in *. destruct (decide (z <= 0)); nia.
Qed.

(** A new allocation. *)
Definition fresh_alloc (n : Z) c c' a pr nm : Prop :=
  addr a mod VIRTUAL_PAGE_SIZE = 0 /\ 0 < m_addr (storage a) <= addr a
  /\ end_ a = m_addr (storage a) + m_len (storage a)
  /\ m_addr (storage a) + m_len (storage a) + VIRTUAL_PAGE_SIZE < 2 ^ 64
  /\ m_addr (storage a) mod h_page_size H = 0
  /\ n <= len a <= n + (VIRTUAL_PAGE_SIZE - h_page_size H) /\ prot a = pr /\ name a = nm
  /\ (forall x, in_storage (storage a) x -> page c x = None)
  /\ forall x, page c' x = if decide (inside a x) then Some (into_host pr)
                           else if decide (in_storage (storage a) x) then Some PROT_NONE else page c x.

Lemma page_set_name c q n nm x :
  page (if cstring nm is Some cs then CSetName q n cs :: c else c) x = page c x.
Proof. by destruct (cstring nm). Qed.

#[local] Instance in_storage_dec st x : Decision (in_storage st x).
Proof. unfold in_storage. apply _. Defined.

(** Reserving memory and committing the aligned part of it. *)
Lemma alloc_fresh c p n pr nm :
  0 < n -> n + VIRTUAL_PAGE_SIZE <= 2 ^ 64 ->
  match alloc H (h_page_size H) c p n pr nm with
  | (c', Ok a) => fresh_alloc n c c' a pr nm
  | (c', Err _) => forall x, page c' x = page c x
  | (_, Panic _) => False
  end.
Proof.
  intros Hn Hb. unfold alloc. pose proof page_size_cases as Hps.
  assert (exists total, (if h_page_size H <? VIRTUAL_PAGE_SIZE then @uadd io_error n (VIRTUAL_PAGE_SIZE - h_page_size H) else Ok n) = Ok total
    /\ total = n + (VIRTUAL_PAGE_SIZE - h_page_size H)) as (total & -> & Htot).
  { destruct (Z.ltb_spec (h_page_size H) VIRTUAL_PAGE_SIZE); eexists; (split; [|reflexivity]).
    - apply uadd_Ok. split; [done|lia].
    - f_equal. lia. }
  destruct (h_reserve H c p total) as [base|e|b] eqn:Hr; [|done|by apply reserve_no_panic in Hr].
  apply reserve_ok in Hr as (Hb1 & Hb2 & Hb3 & Hfresh); [|lia].
  assert (exists q, (if h_page_size H <? VIRTUAL_PAGE_SIZE then @align_virtual_page io_error base else Ok base) = Ok q
    /\ q mod VIRTUAL_PAGE_SIZE = 0 /\ base <= q <= base + (VIRTUAL_PAGE_SIZE - h_page_size H)) as (q & -> & Hq & Hqb).
  { destruct (Z.ltb_spec (h_page_size H) VIRTUAL_PAGE_SIZE) as [Hlt|Hge].
    - apply align_base; [lia|done|lia|done].
    - exists base. split; [done|]. destruct Hps as [He|[He _]]; [|lia]. rewrite <- He at 1. split; [done|]. lia. }
  destruct (h_commit H _ q _ _) as [e|].
  - unfold drop_memory. cbn [m_addr m_len]. rewrite unmap_ok by done. intros x. cbn. case_decide; [|done]. by rewrite Hfresh.
  - split; [done|]. unfold end_, in_storage. cbn. split; [lia|]. split; [lia|]. split; [lia|]. split; [done|]. split; [lia|].
    split; [done|]. split; [done|]. split; [done|]. intros x. rewrite page_set_name. cbn. unfold inside, end_. cbn.
    repeat case_decide; try done; lia.
Qed.

Lemma end_of_le lo m z : ordered lo m -> lo <= z -> (forall k b, (k, b) ∈ m -> end_ b <= z) -> end_of lo m <= z.
Proof.
  revert lo. induction m as [|[k b] m IH]; intros lo Ho Hz Hb; cbn; [done|]. destruct Ho as (_ & _ & _ & Ho).
  apply IH; [done|apply (Hb k); set_solver|]. intros k' b' Hi. apply (Hb k'). set_solver.
Qed.

Lemma ordered_raise lo z m : ordered lo m -> (forall k b, (k, b) ∈ m -> z <= addr b) -> ordered z m.
Proof.
  destruct m as [|[k b] m]; [done|]. intros (-> & _ & Hl & Ho) Hb. repeat split; try done. apply (Hb (addr b)). set_solver.
Qed.

(** No address of a new allocation was mapped. *)
Lemma fresh_disjoint s n c' a pr nm k b x :
  space_ok (H := H) s -> fresh_alloc n (calls s) c' a pr nm -> (k, b) ∈ allocations s ->
  in_storage (storage b) x -> ~ in_storage (storage a) x.
Proof.
  intros Hs Hf Hi Hx Hn. destruct Hf as (_ & _ & _ & _ & _ & _ & _ & _ & Hfr & _). pose proof (so_live s Hs (k, b) x Hi Hx) as [? Hp].
  by rewrite Hfr in Hp.
Qed.

Lemma fresh_place s n c' a pr nm :
  space_ok (H := H) s -> fresh_alloc n (calls s) c' a pr nm -> 0 < n ->
  exists m1 m2, allocations s = m1 ++ m2 /\ ordered 1 (m1 ++ key a :: m2)
  /\ keys_lt m1 (addr a) /\ keys_gt m2 (addr a).
Proof.
  intros Hs Hf Hn. pose proof (so_ordered s Hs) as Ho. destruct (split_le 1 _ (addr a) Ho) as (m1 & m2 & Hm & H1 & H2).
  assert (forall k b x, (k, b) ∈ allocations s -> inside b x -> ~ in_storage (storage a) x) as Hd.
  { intros k b x Hi Hx. apply (fresh_disjoint s n c' a pr nm k b x Hs Hf Hi).
    destruct (so_allocs s Hs k b Hi) as (_ & Hb1 & Hb2 & _). unfold inside, in_storage in *. lia. }
  destruct Hf as (_ & Hf1 & Hf2 & _ & _ & Hf3 & _). assert (0 < len a) as Hl by lia.
  exists m1, m2. split; [done|]. rewrite Hm in Ho. apply ordered_app in Ho as [Ho1 Ho2].
  assert (end_of 1 m1 <= addr a) as Hle.
  { apply end_of_le; [done|lia|]. intros k b Hi. destruct (decide (end_ b <= addr a)) as [|Hgt]; [done|]. exfalso.
    pose proof (proj1 (Forall_forall _ _) H1 _ Hi) as Hk. cbn in Hk. pose proof (ordered_elem _ _ _ _ Ho1 Hi) as (-> & _).
    apply (Hd (addr b) b (addr a)); [rewrite Hm; set_solver|unfold inside; lia|unfold in_storage, end_ in *; lia]. }
  split; [|split; [by apply (ordered_keys_lt 1)|done]].
  apply ordered_app. split; [done|]. split; [done|]. split; [done|]. split; [done|].
  apply (ordered_raise (end_of 1 m1)); [done|]. intros k b Hi. destruct (decide (end_ a <= addr b)) as [|Hlt]; [done|]. exfalso.
  pose proof (proj1 (Forall_forall _ _) H2 _ Hi) as Hk. cbn in Hk. pose proof (ordered_elem _ _ _ _ Ho2 Hi) as (-> & _ & Hlb & _).
  apply (Hd (addr b) b (addr b)); [rewrite Hm; set_solver|unfold inside, end_ in *; lia|unfold in_storage, end_ in *; lia].
Qed.

Lemma at_insert m1 m2 a x lo : ordered lo (m1 ++ key a :: m2) ->
  at_ (m1 ++ key a :: m2) x = if decide (inside a x) then Some a else at_ (m1 ++ m2) x.
Proof.
  intros Ho. rewrite !at_app. cbn. destruct (decide (inside a x)) as [Hx|]; [|done].
  apply split_ordered in Ho as (Ho & He & _). destruct (at_ m1 x) eqn:H1; [|done].
  apply (at_range lo) in H1; [|done]. unfold inside in Hx. lia.
Qed.

(** A table with a new allocation. *)
Lemma insert_ok s n c' a pr nm :
  space_ok (H := H) s -> fresh_alloc n (calls s) c' a pr nm -> 0 < n ->
  let m := bt_insert (addr a) a (allocations s) in
  bt_get (addr a) (allocations s) = None /\ space_ok (H := H) (set_allocs s m c')
  /\ (forall x, at_ m x = if decide (inside a x) then Some a else at_ (allocations s) x)
  /\ (forall x, inside a x -> at_ (allocations s) x = None).
Proof.
  intros Hs Hf Hn m. destruct (fresh_place s n c' a pr nm Hs Hf Hn) as (m1 & m2 & Hm & Ho & Hlt & Hgt).
  assert (m = m1 ++ key a :: m2) as Hm' by (unfold m; rewrite Hm; by apply insert_middle).
  pose proof Hf as (Ha & Hst & Hend & Hbound & Hal & Hlen & Hpr & _ & _ & Hpage).
  assert (forall q, q ∈ m -> q = key a \/ q ∈ allocations s) as Hel by (intros q; rewrite Hm', Hm; set_solver).
  assert (forall k b x, (k, b) ∈ allocations s -> in_storage (storage b) x -> ~ in_storage (storage a) x) as Hd
    by (intros k b x; by eapply fresh_disjoint).
  assert (forall x, inside a x -> in_storage (storage a) x) as Hin by (intros x; unfold inside, in_storage; lia).
  assert (forall k b x, (k, b) ∈ allocations s -> in_storage (storage b) x -> page c' x = page (calls s) x) as Hkeep.
  { intros k b x Hi Hx. pose proof (Hd k b x Hi Hx) as Hno. rewrite Hpage. rewrite decide_False by (intros ?; by apply Hno, Hin).
    by rewrite decide_False. }
  assert (forall x, at_ m x = if decide (inside a x) then Some a else at_ (allocations s) x) as Hat.
  { intros x. rewrite Hm', Hm. by eapply at_insert. }
  split; [rewrite Hm; by apply get_middle|]. split; [split; cbn; try apply Hs|split; [done|]].
  - by rewrite Hm'.
  - intros k b [[= -> ->]|Hi]%Hel; [|by apply (so_allocs s Hs k)]. split; [done|]. lia.
  - destruct (so_storages s Hs) as [Hs1 Hs2]. split.
    + intros q [->|Hq]%Hel; [done|by apply Hs1].
    + intros [k b] [k' b'] [Hq|Hq]%Hel [Hq'|Hq']%Hel; cbn.
      * left. injection Hq as _ ->. by injection Hq' as _ ->.
      * injection Hq as _ ->. right. intros x Hx Hx'. by apply (Hd k' b' x).
      * injection Hq' as _ ->. right. intros x Hx. by apply (Hd k b x).
      * by apply (Hs2 (k, b) (k', b')).
  - intros [k b] x [[= -> ->]|Hi]%Hel Hx; cbn in Hx.
    + rewrite Hpage. repeat case_decide; try done; by eexists.
    + rewrite (Hkeep k b x Hi Hx). by apply (so_live s Hs (k, b)).
  - intros x b. rewrite Hat. destruct (decide (inside a x)) as [Hx|Hx].
    + intros [= <-]. rewrite Hpage, decide_True by done. by rewrite Hpr.
    + intros Hb. rewrite <- (so_pages s Hs x b Hb). apply at_elem in Hb as [Hbx [k Hi]]. apply (Hkeep k b x Hi).
      destruct (so_allocs s Hs k b Hi) as (_ & H1 & H2 & _). unfold inside, in_storage in *. lia.
  - intros x Hx. destruct (at_ (allocations s) x) as [b|] eqn:Hb; [|done]. exfalso. apply at_elem in Hb as [Hbx [k Hi]].
    apply (Hd k b x Hi); [|by apply Hin]. destruct (so_allocs s Hs k b Hi) as (_ & H1 & H2 & _). unfold inside, in_storage in *. lia.
Qed.

(** Calls that leave the pages as they are. *)
Lemma same_pages s c :
  space_ok (H := H) s -> (forall x, page c x = page (calls s) x) -> space_ok (H := H) (set_allocs s (allocations s) c).
Proof.
  intros Hs Hc. split; cbn; try apply Hs.
  - intros q x Hq Hx. rewrite Hc. by apply (so_live s Hs q).
  - intros x a Ha. rewrite Hc. by apply (so_pages s Hs).
Qed.

(** The pages that a mapping adds. *)
Definition mapped (s s' : t) (v : VPages) n pr nm : Prop :=
  space_ok (H := H) s' /\ ptr v mod VIRTUAL_PAGE_SIZE = 0 /\ 0 < ptr v
  /\ n <= pages_len v <= n + (VIRTUAL_PAGE_SIZE - h_page_size H)
  /\ (forall x, ptr v <= x < ptr v + pages_len v -> view s x = None)
  /\ forall x, view s' x = if decide (ptr v <= x < ptr v + pages_len v) then Some (pr, nm) else view s x.

Lemma map_spec p n pr nm s :
  space_ok (H := H) s -> 0 < n -> n + VIRTUAL_PAGE_SIZE <= 2 ^ 64 ->
  match map H p n pr nm s with
  | (s', Ok v) => mapped s s' v n pr nm
  | (s', Err e) => e = NoMem n /\ allocations s' = allocations s /\ space_ok (H := H) s'
  | (_, Panic b) => b <> PExplicit "Address is already allocated."
  end.
Proof.
  intros Hs Hn Hb. unfold map, uadd. destruct (p + 0x3fff <? 2 ^ 64); [|done].
  rewrite (proj1 (so_granularity s Hs)). pose proof (alloc_fresh (calls s) (Z.land (p + 0x3fff) 0xffffffffffffc000) n pr nm Hn Hb) as Ha.
  destruct (alloc H _ _ _ _ _ _) as [c [a|[|]|b]]; [| |done|done].
  - destruct (insert_ok s n c a pr nm Hs Ha Hn) as (Hg & Hok & Hat & Hno). cbn [allocations set_allocs]. rewrite Hg.
    destruct Ha as (Ha1 & Ha2 & _ & _ & _ & Hlen & <- & <- & _). split; [done|]. cbn [ptr pages_len]. split; [done|]. split; [lia|]. split; [done|].
    unfold view. cbn [allocations set_allocs]. split; [intros x Hx; by rewrite Hno|]. intros x. rewrite Hat.
    destruct (decide (inside a x)) as [Hx|Hx]; [by rewrite decide_True by exact Hx|by rewrite decide_False by exact Hx].
  - split; [done|]. split; [done|]. by apply same_pages.
Qed.

(** ** The guards of [mmap] *)

Lemma offset_bound o : Z.lxor (Z.land o 0x3fff) 0xffffffffffffbfff <= 0xffffffffffffbfff.
Proof.
  set (M := 0xffffffffffffbfff). change 0x3fff with (Z.land M 0x3fff). set (o' := Z.land o (Z.land M 0x3fff)).
  assert (Z.ldiff o' M = 0) as Hd.
  { apply Z.bits_inj'. intros i Hi. unfold o'. rewrite Z.ldiff_spec, !Z.land_spec, Z.bits_0. by destruct (Z.testbit o i), (Z.testbit M i), (Z.testbit 0x3fff i). }
  assert (Z.lxor o' M = M - o') as ->.
  { rewrite Z.sub_nocarry_ldiff by done. apply Z.bits_inj'. intros i Hi. unfold o'.
    rewrite Z.lxor_spec, Z.ldiff_spec, !Z.land_spec. by destruct (Z.testbit o i), (Z.testbit M i), (Z.testbit 0x3fff i). }
  assert (0 <= o') by (apply Z.land_nonneg; right; done). lia.
Qed.

Lemma mmap_check_Ok td p n flags fd offset r :
  0 <= n -> mmap_check td p n flags fd offset = Ok r -> 0 < n <= 0xffffffffffffbfff.
Proof.
  intros Hn Hc. unfold mmap_check in Hc. apply bind_Ok in Hc as (? & _ & Hc). apply bind_Ok in Hc as (? & Hz & Hc).
  apply bind_Ok in Hc as (? & _ & Hc). apply bind_Ok in Hc as (? & Ho & _).
  apply panic_if_Ok, Z.eqb_neq in Hz. apply fail_if_Ok, Z.ltb_ge in Ho. pose proof (offset_bound offset). lia.
Qed.

Lemma mmap_check_Panic td p n flags fd offset b : mmap_check td p n flags fd offset = Panic b -> b = PTodo.
Proof.
  unfold mmap_check, panic_if, fail_if. intros Hc. repeat (case_match; cbn [mbind outcome_bind] in Hc; try congruence).
Qed.

Lemma round_len_spec {E} n :
  0 < n <= 0xffffffffffffbfff ->
  exists r, @round_len E n = Ok r /\ r = round_up n VIRTUAL_PAGE_SIZE /\ 0 < r /\ r + VIRTUAL_PAGE_SIZE <= 2 ^ 64.
Proof.
  intros Hn. destruct (round_up_spec n VIRTUAL_PAGE_SIZE) as [H1 H2]; [done|]. exists (round_up n VIRTUAL_PAGE_SIZE).
  assert (round_up n VIRTUAL_PAGE_SIZE + VIRTUAL_PAGE_SIZE <= 2 ^ 64) as Hb.
  { apply Z.mod_divide in H2 as [z Hz]; [|done]. rewrite Hz in *. unfold VIRTUAL_PAGE_SIZE in *. lia. }
  split; [|split; [done|split; [lia|done]]]. unfold round_len. unfold round_up in *.
  destruct (Z.eqb_spec (n mod VIRTUAL_PAGE_SIZE) 0); [done|]. apply uadd_Ok. split; [done|]. unfold VIRTUAL_PAGE_SIZE in *. lia.
Qed.

Lemma mmap_cases td p n pr nm flags fd offset s :
  space_ok (H := H) s -> 0 <= n ->
  match mmap H td p n pr nm flags fd offset s with
  | (s', Ok v) => mapped s s' v (round_up n VIRTUAL_PAGE_SIZE) (Z.land pr prot_all) nm
  | (s', Err _) => allocations s' = allocations s /\ space_ok (H := H) s'
  | (_, Panic b) => b <> PExplicit "Address is already allocated."
  end.
Proof.
  intros Hs Hn. unfold mmap. destruct (mmap_check td p n flags fd offset) as [r|e|b] eqn:Hc; cbn [mbind outcome_bind]; [|done|].
  2: { by apply mmap_check_Panic in Hc as ->. }
  apply mmap_check_Ok in Hc as Hb; [|done]. destruct (round_len_spec (E := MmapError) n Hb) as (q & -> & -> & Hq1 & Hq2).
  cbn [mbind outcome_bind]. set (s0 := if r.2 then _ else s).
  assert (space_ok (H := H) s0 /\ allocations s0 = allocations s) as [Hs0 He]
    by (unfold s0; destruct r.2; [split; [by apply same_pages|done]|done]).
  pose proof (map_spec p (round_up n VIRTUAL_PAGE_SIZE) (Z.land pr prot_all) nm s0 Hs0 Hq1 Hq2) as Hm.
  destruct (map H p _ _ nm s0) as [s' [v|e|b]]; [|destruct Hm as (_ & Hm & ?); split; congruence|done].
  unfold mapped, view in *. by rewrite He in Hm.
Qed.

(** ** The operations on a good address space *)

Lemma munmap_cases p n s :
  space_ok (H := H) s -> 0 <= p -> 0 <= n ->
  let e := round_up (p + n) VIRTUAL_PAGE_SIZE in
  match munmap H p n s with
  | Ok s' =>
      p mod VIRTUAL_PAGE_SIZE = 0 /\ p < e /\ space_ok (H := H) s'
      /\ (view s p = None -> s' = s)
      /\ (is_Some (view s p) -> forall x, view s' x = if decide (p <= x < e) then None else view s x)
      /\ (is_Some (view s p) -> forall x, p <= x < e -> is_Some (view s x) ->
          page (calls s') x = None \/ page (calls s') x = Some PROT_NONE)
  | Err UUnalignedAddr => p mod VIRTUAL_PAGE_SIZE <> 0
  | Err UZeroLen => n = 0
  | Panic _ => 2 ^ 64 <= p + n + VIRTUAL_PAGE_SIZE
  end.
Proof.
  intros Hs Hp Hn e. destruct (decide (p mod VIRTUAL_PAGE_SIZE = 0)) as [Hal|Hal].
  2: { rewrite munmap_guards, decide_False by done. done. }
  destruct (decide (n = 0)) as [Hz|Hz]; [rewrite munmap_guards, decide_True, decide_True by done; done|].
  destruct (range_end_cases (E := MunmapError) p n) as [(e' & Hr & -> & He & Hea)|[Hr Hb]]; [lia..| |].
  2: { rewrite munmap_guards, decide_True, decide_False, Hr by done. exact Hb. }
  fold e in Hr, He, Hea. assert (forall x, is_Some (view s x) <-> is_Some (at_ (allocations s) x)) as Hv
    by (intros x; unfold view; apply fmap_is_Some).
  destruct (at_ (allocations s) p) as [a|] eqn:Hat.
  - destruct (munmap_covered page_le p n e s Hs ltac:(lia) Hal Hr He Hea ltac:(by rewrite Hat)) as (c & -> & Hok & Hpg).
    split; [done|]. split; [done|]. split; [done|]. split; [unfold view; by rewrite Hat|]. split; intros _ x.
    + unfold view. cbn [allocations set_allocs]. pose proof (at_cuts p e (allocations s) x He) as Hc. destruct (decide (p <= x < e)).
      * by destruct (at_ (cuts p e (allocations s)) x).
      * by apply view_attrs.
    + intros Hx Hsx. apply Hpg; [done|]. by apply Hv.
  - rewrite (munmap_hole page_le p n s Hs) by (done || lia || by rewrite Hr). split; [done|]. split; [done|]. split; [done|]. split; [done|].
    unfold view. rewrite Hat. split; by intros [? ?].
Qed.

(** What an update by [f] of the attributes of a range does: errors with their
    reasons, and on success the change of every mapped address of the range
    and of no other; nothing is mapped after a gap. *)
Definition updates (f : Z * str -> Z * str) p n (s : t) (r : outcome MemoryUpdateError t) : Prop :=
  let e := round_up (p + n) VIRTUAL_PAGE_SIZE in
  match r with
  | Ok s' =>
      p mod VIRTUAL_PAGE_SIZE = 0 /\ p < e /\ is_Some (view s p) /\ space_ok (H := H) s'
      /\ (forall x, view s' x = if decide (p <= x < e) then f <$> view s x else view s x)
      /\ (forall x y, p <= x <= y -> y < e -> is_Some (view s y) -> is_Some (view s x))
  | Err UnalignedAddr => p mod VIRTUAL_PAGE_SIZE <> 0
  | Err ZeroLen => n = 0
  | Err InvalidAddr => view s p = None
  | Err (UnmappedAddr z) => p < z < e /\ view s z = None /\ exists y, z < y < e /\ is_Some (view s y)
  | Panic _ => 2 ^ 64 <= p + n + VIRTUAL_PAGE_SIZE
  end.

Lemma update_cases filt u g f p n s :
  updater_ok u g -> (forall a, (prot (g a), name (g a)) = f (prot a, name a)) ->
  (forall a, filt a = false -> f (prot a, name a) = (prot a, name a)) ->
  space_ok (H := H) s -> 0 <= p -> 0 <= n -> updates f p n s (update p n filt u s).
Proof.
  intros Hu Hg Hf Hs Hp Hn. unfold updates. set (e := round_up (p + n) VIRTUAL_PAGE_SIZE).
  pose proof (update_spec page_le filt u g Hu p n s Hs Hp Hn) as Hsp. fold e in Hsp. cbv zeta in Hsp.
  assert (forall x, is_Some (view s x) <-> is_Some (at_ (allocations s) x)) as Hv
    by (intros x; unfold view; apply fmap_is_Some).
  assert (forall x, at_ (allocations s) x = None -> view s x = None) as Hvn by (intros x Hx; unfold view; by rewrite Hx).
  destruct (update p n filt u s) as [s'|[| | |z]|]; try done; [|by apply Hvn|].
  - destruct Hsp as (Hal & He & Hat & Hok & [c ->] & Hgap). split; [done|]. split; [done|]. split; [by apply Hv|]. split; [done|]. split.
    + intros x. unfold view. cbn [allocations set_allocs]. pose proof (at_upds filt u g Hu 1 p e (allocations s) x He (so_ordered s Hs)) as Hx.
      destruct (at_ (upds filt g p e (allocations s)) x) as [b|], (at_ (allocations s) x) as [a|]; cbn in *; try done; [|by case_decide].
      injection Hx as Hx. unfold new_attrs in Hx. specialize (Hg a). specialize (Hf a). destruct (decide (p <= x < e)).
      * destruct (filt a); injection Hx as -> -> _; [by rewrite Hg|by rewrite Hf].
      * by injection Hx as -> -> _.
    + intros x y Hxy Hy Hs'. apply Hv. apply (Hgap x y); [done..|]. by apply Hv.
  - destruct Hsp as (Hz & Hn' & y & Hy & Hsy). split; [done|]. split; [by apply Hvn|]. exists y. split; [done|]. by apply Hv.
Qed.

Lemma mprotect_cases p n new s :
  space_ok (H := H) s -> 0 <= p -> 0 <= n -> updates (fun q => (new, q.2)) p n s (mprotect H p n new s).
Proof.
  intros. apply (update_cases _ _ (fun a => set_prot a new)); try done; [apply do_protect_ok|].
  intros a Ha. apply negb_false_iff, Z.eqb_eq in Ha. by subst.
Qed.

Lemma mname_cases p n new s :
  space_ok (H := H) s -> 0 <= p -> 0 <= n -> updates (fun q => (q.1, new)) p n s (mname p n new s).
Proof.
  intros. apply (update_cases _ _ (fun a => set_name a new)); try done; [apply do_name_ok|].
  intros a Ha. apply negb_false_iff, bool_decide_eq_true in Ha. by subst.
Qed.

End ops.
End VmMapProps.
