(* ===== verification/VmSpaceSpec.v ===== *)
(** * The address space as its users see it

    The theorems on the operations, for every host that keeps its promises,
    and on the address spaces that a process can reach. *)
From S2P Require Import Prelude BTree Env VmSpace VmSpaceProps VmUpdateProps VmMapProps.

Module VmSpaceSpec.
Import Env VmSpace VmSpaceProps VmUpdateProps VmMapProps.
Local Open Scope list_scope.

(** ** A new address space *)

Section new.
Context {H : Host} `{!HostOk H}.

Lemma empty_ok :
  h_page_size H <= VIRTUAL_PAGE_SIZE -> space_ok (H := H) (Space (h_page_size H) [] stack_new []).
Proof.
  intros Hp. split; cbn; try done.
  - by intros k a ?%not_elem_of_nil.
  - split; [by intros q ?%not_elem_of_nil|]. by intros q q' ?%not_elem_of_nil.
  - by intros q x ?%not_elem_of_nil.
Qed.

(** The invariant does not mention the stack. *)
Lemma set_stack_ok s st :
  space_ok (H := H) s -> space_ok (H := H) (Space (allocation_granularity s) (allocations s) st (calls s)).
Proof. intros Hs. split; apply Hs. Qed.

(** What the host shows at an address. *)
Lemma view_page s x q : space_ok (H := H) s -> view s x = Some q -> page (calls s) x = Some (into_host q.1).
Proof.
  intros Hs Hv. unfold view in Hv. destruct (at_ (allocations s) x) as [a|] eqn:Ha; [|done].
  injection Hv as <-. by apply (so_pages s Hs).
Qed.

Lemma mprotect_stack p n new s s' : mprotect H p n new s = Ok s' -> stack s' = stack s.
Proof.
  unfold mprotect, update. intros Hm. apply bind_Ok in Hm as (? & _ & Hm). apply bind_Ok in Hm as (? & _ & Hm).
  apply bind_Ok in Hm as (? & _ & Hm). apply bind_Ok in Hm as (e & _ & Hm). destruct (start_from (allocations s) p) as [pre l].
  apply bind_Ok in Hm as ([tg rest] & _ & Hm). apply bind_Ok in Hm as (? & _ & Hm). apply bind_Ok in Hm as ([[l' adds] c] & _ & Hm).
  apply bind_Ok in Hm as (m & _ & Hm). by injection Hm as <-.
Qed.

Lemma mmap_stack td p n pr nm flags fd offset s s' r : mmap H td p n pr nm flags fd offset s = (s', Ok r) -> stack s' = stack s.
Proof.
  unfold mmap. destruct (_ ≫= _) as [[clear q]| |]; [|done..]. unfold map. destruct (uadd p 0x3fff) as [q0| |]; [|done..].
  destruct (alloc H _ _ _ _ _ _) as [c [a|[|]|]]; try done. destruct (bt_get (addr a) _); [done|].
  intros [= <- _]. by destruct clear.
Qed.

(** The main stack: readable and writable, below it a page without access. *)
Lemma vm_space_new_ok s :
  vm_space_new H = Ok s ->
  space_ok (H := H) s /\ stack_start (stack s) = guard (stack s) + VIRTUAL_PAGE_SIZE
  /\ (forall x, guard (stack s) <= x < stack_start (stack s) -> page (calls s) x = Some PROT_NONE)
  /\ (forall x, stack_start (stack s) <= x < stack_start (stack s) + stack_len (stack s) ->
      page (calls s) x = Some (Z.lor PROT_READ PROT_WRITE)).
Proof.
  unfold vm_space_new. intros Hnew. apply bind_Ok in Hnew as ([] & Hp & Hnew). apply fail_if_Ok, Z.ltb_ge in Hp.
  cbn [stack stack_len stack_new uadd] in Hnew. change (uadd 0x200000 VIRTUAL_PAGE_SIZE) with (@Ok MemoryManagerError Z 0x204000) in Hnew.
  cbn [mbind outcome_bind] in Hnew.
  pose proof (mmap_cases Hp None 0 0x204000 (stack_prot stack_new) (bytes_of "main stack") (Z.lor MAP_ANON MAP_PRIVATE) (-1) 0 _ (empty_ok Hp) ltac:(done)) as Hm.
  destruct (mmap H _ _ _ _ _ _ _ _ _) as [s1 [v| |]] eqn:Hmm; [|done..]. destruct Hm as (Hs1 & Hal & Hpos & Hlen & _ & Hv1).
  change (round_up 0x204000 VIRTUAL_PAGE_SIZE) with 0x204000 in Hlen.
  apply bind_Ok in Hnew as (s2 & Hpr & Hnew). apply bind_Ok in Hnew as (start & Hst & Hnew). apply uadd_Ok in Hst as [-> _].
  injection Hnew as <-. apply map_err_Ok in Hpr.
  pose proof (mprotect_cases Hp (ptr v) VIRTUAL_PAGE_SIZE 0 s1 Hs1 ltac:(lia) ltac:(done)) as Hu. rewrite Hpr in Hu.
  destruct Hu as (_ & _ & _ & Hs2 & Hv2 & _). cbn [stack guard stack_start stack_len calls].
  assert (round_up (ptr v + VIRTUAL_PAGE_SIZE) VIRTUAL_PAGE_SIZE = ptr v + VIRTUAL_PAGE_SIZE) as He
    by (apply round_up_id, mult_add; [done|reflexivity]).
  rewrite He in Hv2. assert (stack_len (stack s2) = 0x200000) as Hlen2 
    by (by rewrite (mprotect_stack _ _ _ _ _ Hpr), (mmap_stack _ _ _ _ _ _ _ _ _ _ _ Hmm)).
  split; [by apply set_stack_ok|]. split; [done|]. split; intros x Hx.
  - apply (view_page s2 x (0, bytes_of "main stack")); [done|]. rewrite Hv2, decide_True, Hv1, decide_True by (unfold VIRTUAL_PAGE_SIZE in *; lia). done.
  - rewrite Hlen2 in Hx. apply (view_page s2 x (Z.land (stack_prot stack_new) prot_all, bytes_of "main stack")); [done|].
    rewrite Hv2, decide_False, Hv1, decide_True by (unfold VIRTUAL_PAGE_SIZE in *; lia). done.
Qed.

(** ** What a process can do *)

(** The address spaces that the operations lead to; an operation that returns
    an error may have made calls. *)
Inductive reach : t -> Prop :=
  | reach_new s : vm_space_new H = Ok s -> reach s
  | reach_mmap s td p n pr nm flags fd offset s' r :
      reach s -> 0 <= n -> mmap H td p n pr nm flags fd offset s = (s', r) -> (forall b, r <> Panic b) -> reach s'
  | reach_munmap s p n s' : reach s -> 0 <= p -> 0 <= n -> munmap H p n s = Ok s' -> reach s'
  | reach_mprotect s p n new s' : reach s -> 0 <= p -> 0 <= n -> mprotect H p n new s = Ok s' -> reach s'
  | reach_mname s p n new s' : reach s -> 0 <= p -> 0 <= n -> mname p n new s = Ok s' -> reach s'.

Lemma reach_ok s : reach s -> space_ok (H := H) s.
Proof.
  induction 1 as [s Hnew|s td p n pr nm flags fd offset s' r _ Hs Hn Hm Hr|s p n s' _ Hs Hp Hn Hm|s p n new s' _ Hs Hp Hn Hm|s p n new s' _ Hs Hp Hn Hm].
  - by apply vm_space_new_ok.
  - pose proof (mmap_cases (proj2 (so_granularity s Hs)) td p n pr nm flags fd offset s Hs Hn) as Hc. rewrite Hm in Hc.
    destruct r as [v|e|b]; [apply Hc|apply Hc|by destruct (Hr b)].
  - pose proof (munmap_cases (proj2 (so_granularity s Hs)) p n s Hs Hp Hn) as Hc. rewrite Hm in Hc. apply Hc.
  - pose proof (mprotect_cases (proj2 (so_granularity s Hs)) p n new s Hs Hp Hn) as Hc. rewrite Hm in Hc. apply Hc.
  - pose proof (mname_cases (proj2 (so_granularity s Hs)) p n new s Hs Hp Hn) as Hc. rewrite Hm in Hc. apply Hc.
Qed.

(** *** System calls *)

Lemma mmap_internal_reach td p n pr flags fd pos s s' r :
  reach s -> 0 <= n -> mmap_internal H td p n pr flags fd pos s = (s', r) -> (forall b, r <> Panic b) -> reach s'.
Proof.
  intros Hs Hn Hm Hr. unfold mmap_internal in Hm. destruct (p =? guard (stack s)); [by injection Hm as <- _|].
  destruct (mmap H td p n pr [] flags fd pos s) as [s1 r1] eqn:He. injection Hm as <- <-.
  apply (reach_mmap s td p n pr [] flags fd pos s1 r1); [done..|]. intros b ->. by apply (Hr b).
Qed.

Lemma sys_mmap_reach td a0 a1 a2 a3 a4 a5 s s' r :
  reach s -> 0 <= a1 -> sys_mmap H td a0 a1 a2 a3 a4 a5 s = (s', r) -> (forall b, r <> Panic b) -> reach s'.
Proof.
  intros Hs Hn Hm Hr. unfold sys_mmap in Hm. destruct (_ ≫= _) as [[[pr flags] fd]|e|b]; [|by injection Hm as <- _..].
  by eapply mmap_internal_reach.
Qed.

Lemma sys_mname_reach mem a0 a1 a2 s s' v :
  reach s -> 0 <= a0 -> 0 <= a1 -> sys_mname mem a0 a1 a2 s = Ok (s', v) -> reach s'.
Proof.
  intros Hs H0 H1 Hm. unfold sys_mname in Hm. apply bind_Ok in Hm as (? & _ & Hm). apply bind_Ok in Hm as (nm & _ & Hm).
  apply bind_Ok in Hm as (? & _ & Hm). apply bind_Ok in Hm as (? & _ & Hm). apply bind_Ok in Hm as (q & _ & Hm).
  destruct (mname _ _ nm s) as [s1| |] eqn:He; [|by injection Hm as <- _|done]. injection Hm as <- _.
  eapply reach_mname; [exact Hs| | |exact He]; apply Z.land_nonneg; by right.
Qed.

Lemma batch_one_reach td one flags a s s' r :
  reach s -> 0 <= b_len a -> batch_one H td one flags a s = (s', r) -> (forall b, r <> Panic b) -> reach s'.
Proof.
  intros Hs Hn Hm Hr. unfold batch_one in Hm. destruct (batch_op (b_op a)) as [[]| |]; try (by injection Hm as <- _).
  - destruct (_ || _) in Hm; by injection Hm as <- _.
  - destruct (_ || _) in Hm; [by injection Hm as <- _|].
    destruct (mmap_internal H td _ _ _ _ _ _ s) as [s1 r1] eqn:He. injection Hm as <- <-.
    eapply mmap_internal_reach; [exact Hs|exact Hn|exact He|]. intros b ->. by apply (Hr b).
Qed.

(** A batch counts the operations that succeeded, and stops at the first that
    fails; the address space stays good. *)
Lemma batch_loop_spec td one flags ops : forall done s s' k r,
  reach s -> Forall (fun a => 0 <= b_len a) ops -> batch_loop H td one flags ops done s = (s', k, r) ->
  (forall b, r <> Panic b) ->
  reach s' /\ done <= k <= done + Z.of_nat (length ops) /\ (r = Ok tt <-> k = done + Z.of_nat (length ops)).
Proof.
  induction ops as [|a ops IH]; intros done s s' k r Hs Hl Hm Hr; cbn in Hm |- *.
  { injection Hm as <- <- <-. split; [done|]. split; [lia|]. split; [lia|done]. }
  apply Forall_cons in Hl as [Ha Hl]. destruct (batch_one H td one flags a s) as [s1 [[]|e|b]] eqn:He.
  - destruct (IH (done + 1) s1 s' k r) as (H1 & H2 & H3); try done.
    { by eapply batch_one_reach. }
    split; [done|]. split; [lia|]. rewrite H3. lia.
  - injection Hm as <- <- <-. split; [by eapply batch_one_reach|]. split; [lia|]. split; [done|lia].
  - injection Hm as _ _ <-. by destruct (Hr b).
Qed.

End new.

(** ** A host *)

(** A host with pages of 4 KiB that puts every mapping after the ones before. *)
Fixpoint top (c : list call) : Z :=
  match c with
  | [] => 0x10000
  | (CReserve p n | CCommit p n _) :: c => Z.max (p + n) (top c)
  | _ :: c => top c
  end.
Definition demo_host : Host := {|
  h_page_size := 4096;
  h_reserve c p n :=
    let q := round_up (top c) 4096 in
    if q + n + VIRTUAL_PAGE_SIZE <? 2 ^ 64 then Ok q else Err OutOfMemory;
  h_commit _ _ _ _ := None;
  h_protect _ _ _ _ := None;
  h_unmap _ _ _ := None
|}.

Lemma page_top c x : is_Some (page c x) -> x < top c.
Proof.
  induction c as [|[] c IH]; cbn; [by intros [? ?]|..]; try case_decide; intros Hs; try (specialize (IH Hs)); try lia.
  - apply fmap_is_Some in Hs. by apply IH.
  - by destruct Hs.
Qed.

Lemma top_ge c : 0x10000 <= top c.
Proof. induction c as [|[] c IH]; cbn; lia. Qed.

#[export] Instance demo_host_ok : HostOk demo_host.
Proof.
  split; try done.
  - by exists 12.
  - intros c p n q Hr Hn. cbn in Hr. destruct (Z.ltb_spec (round_up (top c) 4096 + n + VIRTUAL_PAGE_SIZE) (2 ^ 64)); [|done].
    injection Hr as <-. destruct (round_up_spec (top c) 4096) as [H1 H2]; [done|]. pose proof (top_ge c).
    split; [done|]. split; [lia|]. split; [done|]. intros x Hx. destruct (page c x) eqn:Hp; [|done].
    assert (x < top c) by (apply page_top; by rewrite Hp). lia.
  - intros c p n b. cbn. by destruct (_ <? _).
Qed.

(** Its new address space. *)
Definition demo_space : t :=
  match vm_space_new demo_host with Ok s => s | _ => Space 0 [] stack_new [] end.

Lemma demo_new : vm_space_new demo_host = Ok demo_space.
Proof. vm_compute. reflexivity. Qed.

Lemma demo_ok : space_ok (H := demo_host) demo_space.
Proof. apply reach_ok, reach_new, demo_new. Qed.

(** ** The theorems *)

(** C7: in every address space that a process can reach, by any sequence of
    operations, the allocations start at pages and do not overlap, each lies
    in its storage, storages are shared or apart, and the host gives every
    mapped address exactly the access that its allocation has; memory of the
    storage of a live allocation is never given back. *)
Theorem vm_space_reachable (H : Host) (HO : HostOk H) s :
  reach (H := H) s ->
  ordered 1 (allocations s)
  /\ (forall k a, (k, a) ∈ allocations s -> addr a mod VIRTUAL_PAGE_SIZE = 0
      /\ m_addr (storage a) <= addr a /\ end_ a <= m_addr (storage a) + m_len (storage a))
  /\ storages_ok (H := H) (allocations s)
  /\ (forall x a, at_ (allocations s) x = Some a -> page (calls s) x = Some (into_host (prot a)))
  /\ (forall q x, q ∈ allocations s -> in_storage (storage q.2) x -> is_Some (page (calls s) x)).
Proof.
  intros Hr. apply reach_ok in Hr as [_ Ho Ha Hs Hl Hp]. split; [done|]. split; [|done].
  intros k a Hi. destruct (Ha k a Hi) as (? & ? & ? & _). done.
Qed.

Lemma vm_space_reachable_witness :
  reach (H := demo_host) demo_space /\ ordered 1 (allocations demo_space).
Proof.
  split; [apply reach_new, demo_new|].
  apply (vm_space_reachable demo_host demo_host_ok demo_space). apply reach_new, demo_new.
Defined.

(** C8: [munmap] unmaps every page of the range when its first page is mapped:
    exactly the addresses of the range disappear, the parts of allocations
    outside keep their attributes, and the host no longer gives access to what
    was unmapped.  When the first page is not mapped nothing changes, also
    when later pages of the range are mapped. *)
Theorem munmap_unmaps (H : Host) (HO : HostOk H) p n s :
  space_ok (H := H) s -> 0 <= p -> 0 <= n ->
  let e := round_up (p + n) VIRTUAL_PAGE_SIZE in
  match munmap H p n s with
  | Ok s' =>
      p mod VIRTUAL_PAGE_SIZE = 0 /\ p < e /\ space_ok (H := H) s'
      /\ (view s p = None -> s' = s)
      /\ (is_Some (view s p) -> forall x, view s' x = if decide (p <= x < e) then None else view s x)
      /\ (is_Some (view s p) -> forall x, p <= x < e -> is_Some (view s x) ->
          page (calls s') x = None \/ page (calls s') x = Some PROT_NONE)
  | Err UUnalignedAddr => p mod VIRTUAL_PAGE_SIZE <> 0
  | Err UZeroLen => n = 0
  | Panic _ => 2 ^ 64 <= p + n + VIRTUAL_PAGE_SIZE
  end.
Proof. intros Hs Hp Hn. by apply munmap_cases; [apply Hs|..]. Qed.

(** The guard page of the stack is at [0x10000].  Unmapping from there on
    unmaps the start of the stack; from the page below on it does nothing. *)
Lemma munmap_unmaps_witness :
  guard (stack demo_space) = 0x10000 /\ view demo_space 0xC000 = None
  /\ is_Some (view demo_space 0x10000) /\ munmap demo_host 0xC000 0x8000 demo_space = Ok demo_space
  /\ exists s, munmap demo_host 0x10000 0x8000 demo_space = Ok s /\ view s 0x14000 = None.
Proof.
  split; [done|]. split; [done|]. split; [vm_compute; by eexists|]. split.
  - pose proof (munmap_unmaps demo_host demo_host_ok 0xC000 0x8000 demo_space demo_ok ltac:(done) ltac:(done)) as Hm.
    cbv zeta in Hm. destruct (munmap demo_host 0xC000 0x8000 demo_space) as [s|e|] eqn:He; [|by vm_compute in He..].
    f_equal. by apply Hm.
  - pose proof (munmap_unmaps demo_host demo_host_ok 0x10000 0x8000 demo_space demo_ok ltac:(done) ltac:(done)) as Hm.
    cbv zeta in Hm. destruct (munmap demo_host 0x10000 0x8000 demo_space) as [s|e|] eqn:He; [|by vm_compute in He..].
    exists s. split; [done|]. destruct Hm as (_ & _ & _ & _ & Hv & _). rewrite Hv; [done|vm_compute; by eexists].
Defined.

(** C9: [mprotect] gives every mapped address of the range the new protection
    and changes no other address and no name; the host follows.  It fails, and
    changes nothing, exactly for an unaligned address, an empty range, a first
    page that is not mapped, or a gap before a mapped page of the range, whose
    address it reports. *)
Theorem mprotect_protects (H : Host) (HO : HostOk H) p n new s :
  space_ok (H := H) s -> 0 <= p -> 0 <= n ->
  updates (H := H) (fun q => (new, q.2)) p n s (mprotect H p n new s).
Proof. intros Hs Hp Hn. by apply mprotect_cases; [apply Hs|..]. Qed.

Lemma mprotect_protects_witness :
  exists s, mprotect demo_host 0x14000 0x4000 CPU_READ demo_space = Ok s
  /\ (fst <$> view s 0x14000) = Some CPU_READ /\ (fst <$> view s 0x18000) = Some (Z.lor CPU_READ CPU_WRITE).
Proof.
  pose proof (mprotect_protects demo_host demo_host_ok 0x14000 0x4000 CPU_READ demo_space demo_ok ltac:(done) ltac:(done)) as Hm.
  destruct (mprotect demo_host 0x14000 0x4000 CPU_READ demo_space) as [s|e|] eqn:He; [|by vm_compute in He..].
  exists s. split; [done|]. destruct Hm as (_ & _ & _ & _ & Hv & _). rewrite !Hv. by vm_compute.
Defined.

(** C19: [mmap] maps memory that was not mapped, at a page, with the known
    protections that were asked for and the name, and changes no other
    address; on an error nothing is mapped.  The mapping is at least as long
    as asked for, in whole pages, but it is up to a virtual page less a page of
    the host longer: on a host with smaller pages its end need not be the end
    of a virtual page. *)
Theorem mmap_maps (H : Host) (HO : HostOk H) td p n pr nm flags fd offset s :
  space_ok (H := H) s -> 0 <= n ->
  match mmap H td p n pr nm flags fd offset s with
  | (s', Ok v) =>
      space_ok (H := H) s' /\ ptr v mod VIRTUAL_PAGE_SIZE = 0 /\ 0 < ptr v
      /\ round_up n VIRTUAL_PAGE_SIZE <= pages_len v
          <= round_up n VIRTUAL_PAGE_SIZE + (VIRTUAL_PAGE_SIZE - h_page_size H)
      /\ (forall x, ptr v <= x < ptr v + pages_len v -> view s x = None)
      /\ forall x, view s' x = if decide (ptr v <= x < ptr v + pages_len v)
                               then Some (Z.land pr prot_all, nm) else view s x
  | (s', Err _) => allocations s' = allocations s /\ space_ok (H := H) s'
  | (_, Panic b) => b <> PExplicit "Address is already allocated."
  end.
Proof.
  intros Hs Hn. pose proof (mmap_cases (proj2 (so_granularity s Hs)) td p n pr nm flags fd offset s Hs Hn) as Hm.
  by destruct (mmap H td p n pr nm flags fd offset s) as [s' [v|e|b]].
Qed.

(** One page is asked for, and a page and a half are mapped. *)
Lemma mmap_maps_witness :
  exists s v, mmap demo_host None 0 0x4000 CPU_READ [] MAP_ANON (-1) 0 demo_space = (s, Ok v)
  /\ pages_len v = 0x6000 /\ view s (ptr v + 0x5000) = Some (CPU_READ, []).
Proof.
  pose proof (mmap_maps demo_host demo_host_ok None 0 0x4000 CPU_READ [] MAP_ANON (-1) 0 demo_space demo_ok ltac:(done)) as Hm.
  destruct (mmap demo_host None 0 0x4000 CPU_READ [] MAP_ANON (-1) 0 demo_space) as [s [v|e|]] eqn:He; [|by vm_compute in He..].
  assert (v = Pages 0x218000 0x6000) as -> by (vm_compute in He; congruence).
  exists s, (Pages 0x218000 0x6000). split; [done|]. split; [done|]. destruct Hm as (_ & _ & _ & _ & _ & Hv). by rewrite Hv.
Defined.

End VmSpaceSpec.
