(* ===== verification/Orbis.v ===== *)
(** * Images of programs and libraries of the previous kernel

    Models [legacy/src/imgact/orbis]: the reader of SELF and ELF files
    ([Elf::open], [read_program]), the checks of the program headers, the
    tables of a dynamic image ([FileInfo]) and its iterators.  The file is an
    instance of [Image], the methods of [Read] and [Seek] that are used. *)
From S2P Require Import Prelude Env Kernel VmSpace.

Module Orbis.
Import Env.
Local Open Scope list_scope.
Local Open Scope Z_scope.
Notation IoError := Kernel.IoError.
Notation contains := VmSpace.contains.

(** ** Files *)

(** [seek(SeekFrom::Start(n))], [read_exact] and [stream_position]. *)
Class Image (I : Type) := {
  seek : Z -> I -> I * (IoError + Z);
  read_exact : Z -> I -> I * (IoError + list Z);
  stream_position : I -> I * (IoError + Z)
}.

(** A call to the file whose error is turned into one of the function. *)
Definition call {I E A} (err : IoError -> E) (op : I -> I * (IoError + A)) : io I E A := fun i =>
  match op i with
  | (i, inl e) => (i, Err (err e))
  | (i, inr a) => (i, Ok a)
  end.

(** [&l[lo..hi]]. *)
Definition range {E} (l : list Z) (lo hi : Z) : outcome E (list Z) := unwrap_or_panic PIndex (get_range l lo hi).
(** [LE::read_u16] and its likes at [&l[off..]]. *)
Definition read_le {E} (l : list Z) (off n : Z) : outcome E Z := b ← range l off (off + n); Ok (le_value b).

(** ** Types of files and programs ([ty.rs], [program.rs]) *)

Inductive FileType := ET_EXEC | ET_SCE_EXEC | ET_SCE_REPLAY_EXEC | ET_SCE_DYNEXEC | ET_SCE_DYNAMIC | ET_OTHER (v : Z).
Definition file_type_code (t : FileType) : Z :=
  match t with
  | ET_EXEC => 0x0002 | ET_SCE_EXEC => 0xfe00 | ET_SCE_REPLAY_EXEC => 0xfe01 | ET_SCE_DYNEXEC => 0xfe10
  | ET_SCE_DYNAMIC => 0xfe18 | ET_OTHER v => v
  end.
Definition all_file_types : list FileType := [ET_EXEC; ET_SCE_EXEC; ET_SCE_REPLAY_EXEC; ET_SCE_DYNEXEC; ET_SCE_DYNAMIC].

(** The member of [all] with code [v]: the constants of a type are its
    constructors, and any other value is kept by [other]. *)
Definition of_code {T} (code : T -> Z) (all : list T) (other : Z -> T) (v : Z) : T :=
  default (other v) (List.find (fun t => code t =? v) all).
Definition file_type (v : Z) : FileType := of_code file_type_code all_file_types ET_OTHER v.

Inductive ProgramType :=
  | PT_NULL | PT_LOAD | PT_DYNAMIC | PT_INTERP | PT_NOTE | PT_SHLIB | PT_PHDR | PT_TLS | PT_NUM
  | PT_SCE_DYNLIBDATA | PT_SCE_PROCPARAM | PT_SCE_MODULEPARAM | PT_SCE_RELRO | PT_GNU_EH_FRAME | PT_GNU_STACK
  | PT_SCE_COMMENT | PT_SCE_VERSION | PT_HIOS | PT_LOPROC | PT_SCE_SEGSYM | PT_HIPROC
  | PT_OTHER (v : Z).
Definition program_type_code (t : ProgramType) : Z :=
  match t with
  | PT_NULL => 0x0 | PT_LOAD => 0x1 | PT_DYNAMIC => 0x2 | PT_INTERP => 0x3 | PT_NOTE => 0x4 | PT_SHLIB => 0x5
  | PT_PHDR => 0x6 | PT_TLS => 0x7 | PT_NUM => 0x8 | PT_SCE_DYNLIBDATA => 0x61000000
  | PT_SCE_PROCPARAM => 0x61000001 | PT_SCE_MODULEPARAM => 0x61000002 | PT_SCE_RELRO => 0x61000010
  | PT_GNU_EH_FRAME => 0x6474e550 | PT_GNU_STACK => 0x6474e551 | PT_SCE_COMMENT => 0x6fffff00
  | PT_SCE_VERSION => 0x6fffff01 | PT_HIOS => 0x6fffffff | PT_LOPROC => 0x70000000
  | PT_SCE_SEGSYM => 0x700000a8 | PT_HIPROC => 0x7fffffff
  | PT_OTHER v => v
  end.
Definition all_program_types : list ProgramType :=
  [PT_NULL; PT_LOAD; PT_DYNAMIC; PT_INTERP; PT_NOTE; PT_SHLIB; PT_PHDR; PT_TLS; PT_NUM; PT_SCE_DYNLIBDATA;
   PT_SCE_PROCPARAM; PT_SCE_MODULEPARAM; PT_SCE_RELRO; PT_GNU_EH_FRAME; PT_GNU_STACK; PT_SCE_COMMENT;
   PT_SCE_VERSION; PT_HIOS; PT_LOPROC; PT_SCE_SEGSYM; PT_HIPROC].
Definition program_type (v : Z) : ProgramType := of_code program_type_code all_program_types PT_OTHER v.

Definition EXECUTE : Z := 0x1.
Definition WRITE : Z := 0x2.
Definition READ : Z := 0x4.

Record Program := MkProgram {
  ty : ProgramType;
  flags : Z;
  offset : Z;
  addr : Z;
  file_size : Z;
  memory_size : Z;
  alignment : Z
}.

Definition end_ {E} (p : Program) : outcome E Z := uadd (addr p) (memory_size p).
Definition align_page {E} (v : Z) : outcome E Z := s ← uadd v 0x3fff; Ok (Z.land s 0xffffffffffffc000).
Definition align_2mb {E} (v : Z) : outcome E Z := s ← uadd v 0x1fffff; Ok (Z.land s 0xffffffffffe00000).
Definition aligned_size {E} (p : Program) : outcome E Z := align_page (memory_size p).

(** ** Dynamic entries ([dynamic.rs]) *)

Inductive DynamicTag :=
  | DT_NULL | DT_NEEDED | DT_PLTRELSZ | DT_PLTGOT | DT_HASH | DT_STRTAB | DT_SYMTAB | DT_RELA | DT_RELASZ
  | DT_RELAENT | DT_STRSZ | DT_SYMENT | DT_INIT | DT_FINI | DT_SONAME | DT_RPATH | DT_SYMBOLIC | DT_REL
  | DT_RELSZ | DT_RELENT | DT_PLTREL | DT_DEBUG | DT_TEXTREL | DT_JMPREL | DT_BIND_NOW | DT_INIT_ARRAY
  | DT_FINI_ARRAY | DT_INIT_ARRAYSZ | DT_FINI_ARRAYSZ | DT_RUNPATH | DT_FLAGS | DT_ENCODING
  | DT_PREINIT_ARRAY | DT_PREINIT_ARRAYSZ | DT_SCE_UNK1 | DT_SCE_FINGERPRINT | DT_SCE_UNK2 | DT_SCE_UNK3
  | DT_SCE_UNK4 | DT_SCE_UNK5 | DT_SCE_UNK6 | DT_SCE_ORIGINAL_FILENAME | DT_SCE_MODULE_INFO
  | DT_SCE_NEEDED_MODULE | DT_SCE_UNK7 | DT_SCE_MODULE_ATTR | DT_SCE_UNK8 | DT_SCE_EXPORT_LIB | DT_SCE_UNK9
  | DT_SCE_IMPORT_LIB | DT_SCE_UNK10 | DT_SCE_EXPORT_LIB_ATTR | DT_SCE_UNK11 | DT_SCE_IMPORT_LIB_ATTR
  | DT_SCE_UNK12 | DT_SCE_UNK13 | DT_SCE_UNK14 | DT_SCE_STUB_MODULE_NAME | DT_SCE_UNK16
  | DT_SCE_STUB_MODULE_VERSION | DT_SCE_UNK18 | DT_SCE_STUB_LIBRARY_NAME | DT_SCE_UNK20
  | DT_SCE_STUB_LIBRARY_VERSION | DT_SCE_UNK22 | DT_SCE_HASH | DT_SCE_UNK23 | DT_SCE_PLTGOT | DT_SCE_UNK24
  | DT_SCE_JMPREL | DT_SCE_UNK25 | DT_SCE_PLTREL | DT_SCE_UNK26 | DT_SCE_PLTRELSZ | DT_SCE_UNK27
  | DT_SCE_RELA | DT_SCE_UNK28 | DT_SCE_RELASZ | DT_SCE_UNK29 | DT_SCE_RELAENT | DT_SCE_UNK30 | DT_SCE_STRTAB
  | DT_SCE_UNK31 | DT_SCE_STRSZ | DT_SCE_UNK32 | DT_SCE_SYMTAB | DT_SCE_UNK33 | DT_SCE_SYMENT | DT_SCE_UNK34
  | DT_SCE_HASHSZ | DT_SCE_UNK35 | DT_SCE_SYMTABSZ | DT_SCE_UNK36 | DT_SCE_UNK37
  | DT_OTHER (v : Z).
Definition tag_code (t : DynamicTag) : Z :=
  match t with
  | DT_NULL => 0 | DT_NEEDED => 1 | DT_PLTRELSZ => 2 | DT_PLTGOT => 3 | DT_HASH => 4 | DT_STRTAB => 5
  | DT_SYMTAB => 6 | DT_RELA => 7 | DT_RELASZ => 8 | DT_RELAENT => 9 | DT_STRSZ => 10 | DT_SYMENT => 11
  | DT_INIT => 12 | DT_FINI => 13 | DT_SONAME => 14 | DT_RPATH => 15 | DT_SYMBOLIC => 16 | DT_REL => 17
  | DT_RELSZ => 18 | DT_RELENT => 19 | DT_PLTREL => 20 | DT_DEBUG => 21 | DT_TEXTREL => 22 | DT_JMPREL => 23
  | DT_BIND_NOW => 24 | DT_INIT_ARRAY => 25 | DT_FINI_ARRAY => 26 | DT_INIT_ARRAYSZ => 27
  | DT_FINI_ARRAYSZ => 28 | DT_RUNPATH => 29 | DT_FLAGS => 30 | DT_ENCODING => 31 | DT_PREINIT_ARRAY => 32
  | DT_PREINIT_ARRAYSZ => 33 | DT_SCE_UNK1 => 0x60000005 | DT_SCE_FINGERPRINT => 0x61000007
  | DT_SCE_UNK2 => 0x61000008 | DT_SCE_UNK3 => 0x6100000a | DT_SCE_UNK4 => 0x6100000b
  | DT_SCE_UNK5 => 0x6100000c | DT_SCE_UNK6 => 0x6100000e | DT_SCE_ORIGINAL_FILENAME => 0x61000009
  | DT_SCE_MODULE_INFO => 0x6100000d | DT_SCE_NEEDED_MODULE => 0x6100000f | DT_SCE_UNK7 => 0x61000010
  | DT_SCE_MODULE_ATTR => 0x61000011 | DT_SCE_UNK8 => 0x61000012 | DT_SCE_EXPORT_LIB => 0x61000013
  | DT_SCE_UNK9 => 0x61000014 | DT_SCE_IMPORT_LIB => 0x61000015 | DT_SCE_UNK10 => 0x61000016
  | DT_SCE_EXPORT_LIB_ATTR => 0x61000017 | DT_SCE_UNK11 => 0x61000018 | DT_SCE_IMPORT_LIB_ATTR => 0x61000019
  | DT_SCE_UNK12 => 0x6100001a | DT_SCE_UNK13 => 0x6100001b | DT_SCE_UNK14 => 0x6100001c
  | DT_SCE_STUB_MODULE_NAME => 0x6100001d | DT_SCE_UNK16 => 0x6100001e
  | DT_SCE_STUB_MODULE_VERSION => 0x6100001f | DT_SCE_UNK18 => 0x61000020
  | DT_SCE_STUB_LIBRARY_NAME => 0x61000021 | DT_SCE_UNK20 => 0x61000022
  | DT_SCE_STUB_LIBRARY_VERSION => 0x61000023 | DT_SCE_UNK22 => 0x61000024 | DT_SCE_HASH => 0x61000025
  | DT_SCE_UNK23 => 0x61000026 | DT_SCE_PLTGOT => 0x61000027 | DT_SCE_UNK24 => 0x61000028
  | DT_SCE_JMPREL => 0x61000029 | DT_SCE_UNK25 => 0x6100002a | DT_SCE_PLTREL => 0x6100002b
  | DT_SCE_UNK26 => 0x6100002c | DT_SCE_PLTRELSZ => 0x6100002d | DT_SCE_UNK27 => 0x6100002e
  | DT_SCE_RELA => 0x6100002f | DT_SCE_UNK28 => 0x61000030 | DT_SCE_RELASZ => 0x61000031
  | DT_SCE_UNK29 => 0x61000032 | DT_SCE_RELAENT => 0x61000033 | DT_SCE_UNK30 => 0x61000034
  | DT_SCE_STRTAB => 0x61000035 | DT_SCE_UNK31 => 0x61000036 | DT_SCE_STRSZ => 0x61000037
  | DT_SCE_UNK32 => 0x61000038 | DT_SCE_SYMTAB => 0x61000039 | DT_SCE_UNK33 => 0x6100003a
  | DT_SCE_SYMENT => 0x6100003b | DT_SCE_UNK34 => 0x6100003c | DT_SCE_HASHSZ => 0x6100003d
  | DT_SCE_UNK35 => 0x6100003e | DT_SCE_SYMTABSZ => 0x6100003f | DT_SCE_UNK36 => 0x6ffffff9
  | DT_SCE_UNK37 => 0x6ffffffb
  | DT_OTHER v => v
  end.
Definition all_tags : list DynamicTag :=
  [DT_NULL; DT_NEEDED; DT_PLTRELSZ; DT_PLTGOT; DT_HASH; DT_STRTAB; DT_SYMTAB; DT_RELA; DT_RELASZ; DT_RELAENT;
   DT_STRSZ; DT_SYMENT; DT_INIT; DT_FINI; DT_SONAME; DT_RPATH; DT_SYMBOLIC; DT_REL; DT_RELSZ; DT_RELENT;
   DT_PLTREL; DT_DEBUG; DT_TEXTREL; DT_JMPREL; DT_BIND_NOW; DT_INIT_ARRAY; DT_FINI_ARRAY; DT_INIT_ARRAYSZ;
   DT_FINI_ARRAYSZ; DT_RUNPATH; DT_FLAGS; DT_ENCODING; DT_PREINIT_ARRAY; DT_PREINIT_ARRAYSZ; DT_SCE_UNK1;
   DT_SCE_FINGERPRINT; DT_SCE_UNK2; DT_SCE_UNK3; DT_SCE_UNK4; DT_SCE_UNK5; DT_SCE_UNK6;
   DT_SCE_ORIGINAL_FILENAME; DT_SCE_MODULE_INFO; DT_SCE_NEEDED_MODULE; DT_SCE_UNK7; DT_SCE_MODULE_ATTR;
   DT_SCE_UNK8; DT_SCE_EXPORT_LIB; DT_SCE_UNK9; DT_SCE_IMPORT_LIB; DT_SCE_UNK10; DT_SCE_EXPORT_LIB_ATTR;
   DT_SCE_UNK11; DT_SCE_IMPORT_LIB_ATTR; DT_SCE_UNK12; DT_SCE_UNK13; DT_SCE_UNK14; DT_SCE_STUB_MODULE_NAME;
   DT_SCE_UNK16; DT_SCE_STUB_MODULE_VERSION; DT_SCE_UNK18; DT_SCE_STUB_LIBRARY_NAME; DT_SCE_UNK20;
   DT_SCE_STUB_LIBRARY_VERSION; DT_SCE_UNK22; DT_SCE_HASH; DT_SCE_UNK23; DT_SCE_PLTGOT; DT_SCE_UNK24;
   DT_SCE_JMPREL; DT_SCE_UNK25; DT_SCE_PLTREL; DT_SCE_UNK26; DT_SCE_PLTRELSZ; DT_SCE_UNK27; DT_SCE_RELA;
   DT_SCE_UNK28; DT_SCE_RELASZ; DT_SCE_UNK29; DT_SCE_RELAENT; DT_SCE_UNK30; DT_SCE_STRTAB; DT_SCE_UNK31;
   DT_SCE_STRSZ; DT_SCE_UNK32; DT_SCE_SYMTAB; DT_SCE_UNK33; DT_SCE_SYMENT; DT_SCE_UNK34; DT_SCE_HASHSZ;
   DT_SCE_UNK35; DT_SCE_SYMTABSZ; DT_SCE_UNK36; DT_SCE_UNK37].
Definition dynamic_tag (v : Z) : DynamicTag := of_code tag_code all_tags DT_OTHER v.

(** [DynamicEntries::next] on the bytes from the entry on.  The iterator is
    the list of the chunks of 16 bytes; one that is too short panics. *)
Definition dynamic_next {E} (c : list Z) : outcome E (DynamicTag * list Z) :=
  tag ← read_le c 0 8;
  value ← range c 8 16;
  Ok (dynamic_tag (to_signed 64 tag), value).

Definition DF_SYMBOLIC : Z := 0x02.
Definition DF_TEXTREL : Z := 0x04.
Definition DF_BIND_NOW : Z := 0x08.

(** ** Relocations ([reloc.rs]) *)

Record Relocation := MkReloc { r_offset : Z; r_info : Z; r_addend : Z }.
Definition R_X86_64_NONE : Z := 0.
Definition R_X86_64_64 : Z := 1.
Definition R_X86_64_COPY : Z := 5.
Definition R_X86_64_GLOB_DAT : Z := 6.
Definition R_X86_64_JUMP_SLOT : Z := 7.
Definition R_X86_64_RELATIVE : Z := 8.
Definition R_X86_64_DTPMOD64 : Z := 16.
Definition R_X86_64_DTPOFF64 : Z := 17.

(** [Relocations::next], on chunks of 24 bytes. *)
Definition reloc_next {E} (c : list Z) : outcome E Relocation :=
  off ← read_le c 0 8;
  info ← read_le c 0x08 8;
  addend ← read_le c 0x10 8;
  Ok (MkReloc off info (to_signed 64 addend)).
Definition r_ty (r : Relocation) : Z := Z.land (r_info r) 0xffffffff.
Definition r_symbol (r : Relocation) : Z := Z.shiftr (r_info r) 32.

(** ** Libraries and modules ([library.rs], [module.rs]) *)

Record LibraryInfo := MkLibrary { l_id : Z; l_name : str; l_flags : Z }.
Definition EXPORT : Z := 0x010000.
Record ModuleInfo := MkModuleInfo { mi_id : Z; mi_name : str }.

(** ** Tables of a dynamic image ([info.rs]) *)

Record FileInfo := MkInfo {
  i_data : list Z;
  i_comment : list Z;
  dynoff : Z;
  dynsize : Z;
  pltrelsz : Z;
  relasz : Z;
  strsz : Z;
  jmprel : Z;
  rela : Z;
  strtab : Z;
  symtab : Z;
  symtabsz : Z;
  buckets : list Z;
  chains : list Z
}.

Inductive FileInfoError :=
  | UnknownTag (t : DynamicTag) | UnsupportedTag (t : DynamicTag) | OrbisUnsupported (t : DynamicTag)
  | NoPltrelsz | NoRelasz | InvalidRelaent | NoRelaent | NoStrsz | InvalidSyment | NoSyment | InvalidPltrel
  | NoPltrel | NoFingerprint | NoFilename | NoModuleInfo | NoHash | NoPltgot | NoJmprel | NoRela | NoStrtab
  | NoSymtab | NoHashsz | NoSymtabsz.

(** The local variables of [parse], [None] or [false] until their tag is
    seen. *)
Inductive var :=
  | Vpltrelsz | Vrelasz | Vrelaent | Vstrsz | Vsyment | Vpltrel | Vfingerprint | Vfilename | Vmodule_info
  | Vhash | Vpltgot | Vjmprel | Vrela | Vstrtab | Vsymtab | Vhashsz | Vsymtabsz.
#[export] Instance var_eq_dec : EqDecision var.
Proof. solve_decision. Defined.
Definition vars : Type := var -> option Z.
Definition vset (x : var) (v : Z) (s : vars) : vars := fun y => if decide (y = x) then Some v else s y.

(** The body of the loop of [parse], but for [DT_NULL]. *)
Definition parse_tag (s : vars) (tag : DynamicTag) (value : Z) : outcome FileInfoError vars :=
  match tag with
  | DT_NEEDED => Ok s
  | DT_PLTRELSZ | DT_SCE_PLTRELSZ => Ok (vset Vpltrelsz value s)
  | DT_PLTGOT | DT_RPATH | DT_BIND_NOW | DT_RUNPATH | DT_ENCODING | DT_SCE_UNK2 | DT_SCE_UNK3 | DT_SCE_UNK4
  | DT_SCE_UNK5 | DT_SCE_UNK6 | DT_SCE_UNK7 | DT_SCE_UNK8 | DT_SCE_UNK9 | DT_SCE_UNK10 | DT_SCE_UNK11
  | DT_SCE_UNK12 | DT_SCE_UNK13 | DT_SCE_UNK14 | DT_SCE_STUB_MODULE_NAME | DT_SCE_UNK16
  | DT_SCE_STUB_MODULE_VERSION | DT_SCE_UNK18 | DT_SCE_STUB_LIBRARY_NAME | DT_SCE_UNK20
  | DT_SCE_STUB_LIBRARY_VERSION | DT_SCE_UNK22 | DT_SCE_UNK23 | DT_SCE_UNK24 | DT_SCE_UNK25 | DT_SCE_UNK26
  | DT_SCE_UNK27 | DT_SCE_UNK28 | DT_SCE_UNK29 | DT_SCE_UNK30 | DT_SCE_UNK31 | DT_SCE_UNK32 | DT_SCE_UNK33
  | DT_SCE_UNK34 | DT_SCE_UNK35 => Err (UnsupportedTag tag)
  | DT_HASH | DT_STRTAB | DT_SYMTAB | DT_RELA | DT_JMPREL | DT_REL | DT_RELSZ | DT_RELENT =>
      Err (OrbisUnsupported tag)
  | DT_RELASZ | DT_SCE_RELASZ => Ok (vset Vrelasz value s)
  | DT_RELAENT | DT_SCE_RELAENT => if value =? 24 then Ok (vset Vrelaent value s) else Err InvalidRelaent
  | DT_STRSZ | DT_SCE_STRSZ => Ok (vset Vstrsz value s)
  | DT_SYMENT | DT_SCE_SYMENT => if value =? 24 then Ok (vset Vsyment value s) else Err InvalidSyment
  | DT_INIT | DT_FINI | DT_SONAME | DT_SYMBOLIC => Ok s
  | DT_PLTREL | DT_SCE_PLTREL => if value =? 7 then Ok (vset Vpltrel value s) else Err InvalidPltrel
  | DT_DEBUG | DT_TEXTREL | DT_INIT_ARRAY | DT_FINI_ARRAY | DT_INIT_ARRAYSZ | DT_FINI_ARRAYSZ | DT_FLAGS
  | DT_PREINIT_ARRAY | DT_PREINIT_ARRAYSZ | DT_SCE_UNK1 => Ok s
  | DT_SCE_FINGERPRINT => Ok (vset Vfingerprint value s)
  | DT_SCE_ORIGINAL_FILENAME => Ok (vset Vfilename value s)
  | DT_SCE_MODULE_INFO => Ok (vset Vmodule_info value s)
  | DT_SCE_NEEDED_MODULE | DT_SCE_MODULE_ATTR | DT_SCE_EXPORT_LIB | DT_SCE_IMPORT_LIB | DT_SCE_EXPORT_LIB_ATTR
  | DT_SCE_IMPORT_LIB_ATTR => Ok s
  | DT_SCE_HASH => Ok (vset Vhash value s)
  | DT_SCE_PLTGOT => Ok (vset Vpltgot value s)
  | DT_SCE_JMPREL => Ok (vset Vjmprel value s)
  | DT_SCE_RELA => Ok (vset Vrela value s)
  | DT_SCE_STRTAB => Ok (vset Vstrtab value s)
  | DT_SCE_SYMTAB => Ok (vset Vsymtab value s)
  | DT_SCE_HASHSZ => Ok (vset Vhashsz value s)
  | DT_SCE_SYMTABSZ => Ok (vset Vsymtabsz value s)
  | DT_SCE_UNK36 | DT_SCE_UNK37 => Ok s
  | v => Err (UnknownTag v)
  end.

Fixpoint parse_dynamic (s : vars) (cs : list (list Z)) : outcome FileInfoError vars :=
  match cs with
  | [] => Ok s
  | c :: cs =>
      '(tag, value) ← dynamic_next c;
      if tag is DT_NULL then Ok s else s ← parse_tag s tag (le_value value); parse_dynamic s cs
  end.

(** The hash table: the buckets and the chains. *)
Definition read_hash {E} (hash : list Z) : outcome E (list Z * list Z) :=
  nbuckets ← read_le hash 0 4;
  nchains ← read_le hash 4 4;
  first ← range hash 0 (8 + nbuckets * 4);
  last ← range hash (8 + nbuckets * 4) (Z.of_nat (length hash));
  (* [read_u32_into] asserts the lengths. *)
  assert_that (Z.of_nat (length last) =? 4 * nchains);;
  Ok (le_value <$> chunks 4 (drop 8 first), le_value <$> chunks 4 last).

Definition info_parse (data comment : list Z) (dynoff dynsize : Z) : outcome FileInfoError FileInfo :=
  e ← uadd dynoff dynsize;
  dyn ← range data dynoff e;
  s ← parse_dynamic (fun _ => None) (chunks 16 dyn);
  pltrelsz ← ok_or NoPltrelsz (s Vpltrelsz);
  relasz ← ok_or NoRelasz (s Vrelasz);
  strsz ← ok_or NoStrsz (s Vstrsz);
  hash ← ok_or NoHash (s Vhash);
  jmprel ← ok_or NoJmprel (s Vjmprel);
  rela ← ok_or NoRela (s Vrela);
  strtab ← ok_or NoStrtab (s Vstrtab);
  symtab ← ok_or NoSymtab (s Vsymtab);
  hashsz ← ok_or NoHashsz (s Vhashsz);
  symtabsz ← ok_or NoSymtabsz (s Vsymtabsz);
  ok_or NoRelaent (s Vrelaent);;
  ok_or NoSyment (s Vsyment);;
  ok_or NoPltrel (s Vpltrel);;
  ok_or NoFingerprint (s Vfingerprint);;
  ok_or NoFilename (s Vfilename);;
  ok_or NoModuleInfo (s Vmodule_info);;
  ok_or NoPltgot (s Vpltgot);;
  e ← uadd hash hashsz;
  table ← range data hash e;
  '(buckets, chains) ← read_hash table;
  Ok (MkInfo data comment dynoff dynsize pltrelsz relasz strsz jmprel rela strtab symtab symtabsz buckets chains).

(** [&self.data[off..(off + n)]]. *)
Definition table {E} (i : FileInfo) (off n : Z) : outcome E (list Z) := e ← uadd off n; range (i_data i) off e.
Definition info_dynamic {E} (i : FileInfo) : outcome E (list (list Z)) :=
  b ← table i (dynoff i) (dynsize i); Ok (chunks 16 b).
Definition reloc_count (i : FileInfo) : Z := relasz i / 24.
Definition relocs {E} (i : FileInfo) : outcome E (list (list Z)) :=
  b ← table i (rela i) (relasz i); Ok (chunks 24 b).
Definition plt_count (i : FileInfo) : Z := pltrelsz i / 24.
Definition plt_relocs {E} (i : FileInfo) : outcome E (list (list Z)) :=
  b ← table i (jmprel i) (pltrelsz i); Ok (chunks 24 b).
Definition symbols {E} (i : FileInfo) : outcome E (list (list Z)) :=
  b ← table i (symtab i) (symtabsz i); Ok (chunks 24 b).

Inductive StringTableError := InvalidStrOffset | NotCString | NotUtf8.
(** [read_str]. *)
Definition read_str (i : FileInfo) (off : Z) : outcome StringTableError str :=
  tab ← table i (strtab i) (strsz i);
  raw ← ok_or InvalidStrOffset (get_range tab off (Z.of_nat (length tab)));
  fail_if (bool_decide (raw = [])) InvalidStrOffset;;
  '(n, _) ← ok_or NotCString (list_find (fun b => b = 0) raw);
  let s := take n raw in
  fail_if (negb (valid_utf8 s)) NotUtf8;;
  Ok s.

Inductive NameError := InvalidNameOffset (off : Z) (e : StringTableError).
Definition read_module (i : FileInfo) (data : list Z) : outcome NameError ModuleInfo :=
  let name := field data 0 4 in
  let id := field data 6 2 in
  n ← map_err (InvalidNameOffset name) (read_str i name);
  Ok (MkModuleInfo id n).
Definition read_library (i : FileInfo) (data : list Z) : outcome NameError LibraryInfo :=
  let name := field data 0 4 in
  let id := field data 6 2 in
  n ← map_err (InvalidNameOffset name) (read_str i name);
  Ok (MkLibrary id n 0).
Definition read_fingerprint {E} (i : FileInfo) (off : Z) : outcome E (list Z) :=
  off ← uadd off (dynoff i);
  e ← uadd off 20;
  range (i_data i) off e.

(** ** Symbols ([symbol.rs]) *)

Record Symbol := MkSymbol { s_name : str; s_info : Z; shndx : Z; value : Z }.
Definition STT_NOTYPE : Z := 0.
Definition STT_OBJECT : Z := 1.
Definition STT_FUNC : Z := 2.
Definition STT_SECTION : Z := 3.
Definition STT_TLS : Z := 6.
Definition STT_ENTRY : Z := 11.
Definition STB_LOCAL : Z := 0.
Definition STB_WEAK : Z := 2.
Definition s_ty (s : Symbol) : Z := Z.land (s_info s) 0xf.
Definition binding (s : Symbol) : Z := Z.shiftr (s_info s) 4.

Inductive ReadSymbolError := InvalidEntry | SymbolName (e : NameError).
(** [Symbols::next], on chunks of 24 bytes. *)
Definition symbol_next (i : FileInfo) (c : list Z) : outcome ReadSymbolError Symbol :=
  fail_if (Z.of_nat (length c) <? 24) InvalidEntry;;
  let name := field c 0 4 in
  n ← map_err (fun e => SymbolName (InvalidNameOffset name e)) (read_str i name);
  Ok (MkSymbol n (field c 4 1) (field c 6 2) (field c 8 8)).

(** ** The image ([mod.rs]) *)

Record SelfSegment := MkSegment { sg_flags : Z; sg_offset : Z; compressed_size : Z; decompressed_size : Z }.
Definition SF_ENCR : Z := 0x2.
Definition SF_BFLG : Z := 0x800.
(** [SelfSegmentFlags::program]. *)
Definition sg_program (f : Z) : nat := Z.to_nat (Z.land (Z.shiftr f 20) 0xfff).

(** [Elf], but for the file. *)
Record Elf := MkElf {
  e_name : str;
  self_data : option (list SelfSegment);
  e_ty : FileType;
  entry_addr : option Z;
  programs : list Program;
  mapping : Z * Z;
  code : option nat;
  relro : option nat;
  data : option nat;
  dynamic : option nat;
  dyndata : option nat;
  tls : option nat;
  proc_param : option nat;
  mod_param : option nat;
  comment : option nat;
  eh : option nat;
  twomb_mode : bool;
  info : option FileInfo
}.

Inductive ReadProgramError :=
  | InvalidIndex | InsufficientBuffer (n : Z) | EncryptedSegment (i : nat)
  | RSeekFailed (off : Z) (e : IoError) | RReadFailed (off n : Z) (e : IoError).
Inductive OpenError :=
  | SeekFailed (off : Z) (e : IoError) | ReadHeaderFailed (e : IoError) | InvalidSelfMagic
  | ReadSelfSegmentFailed (i : nat) (e : IoError) | GetElfOffsetFailed (e : IoError)
  | ReadElfHeaderFailed (e : IoError) | InvalidElfMagic | UnsupportedBitness | UnsupportedEndianness
  | InvalidProgramEntrySize | InvalidProgramOffset | ReadProgramHeadersFailed (e : IoError)
  | InvalidOffset (i : nat) (t : ProgramType) | InvalidAddr (i : nat) (t : ProgramType)
  | InvalidAligment (i : nat) (t : ProgramType) | InvalidFileSize (i : nat) (t : ProgramType)
  | InvalidMemSize (i : nat) (t : ProgramType) | NoMappableProgram | InvalidDynamic | NoDynData | InvalidDynData
  | ReadDynDataFailed (e : ReadProgramError) | ParseFileInfoFailed (e : FileInfoError) | InvalidRelroAddr
  | InvalidRelroSize | InvalidDataAddr (i : nat).

(** Assignments to the fields. *)
Definition set_indices (e : Elf) (code relro data dynamic dyndata tls proc_param mod_param comment eh : option nat)
    : Elf :=
  MkElf (e_name e) (self_data e) (e_ty e) (entry_addr e) (programs e) (mapping e) code relro data dynamic dyndata
    tls proc_param mod_param comment eh (twomb_mode e) (info e).
Definition set_code (i : nat) (e : Elf) : Elf :=
  set_indices e (Some i) (relro e) (data e) (dynamic e) (dyndata e) (tls e) (proc_param e) (mod_param e) (comment e) (eh e).
Definition set_relro (i : nat) (e : Elf) : Elf :=
  set_indices e (code e) (Some i) (data e) (dynamic e) (dyndata e) (tls e) (proc_param e) (mod_param e) (comment e) (eh e).
Definition set_data (i : nat) (e : Elf) : Elf :=
  set_indices e (code e) (relro e) (Some i) (dynamic e) (dyndata e) (tls e) (proc_param e) (mod_param e) (comment e) (eh e).
Definition set_dynamic (i : nat) (e : Elf) : Elf :=
  set_indices e (code e) (relro e) (data e) (Some i) (dyndata e) (tls e) (proc_param e) (mod_param e) (comment e) (eh e).
Definition set_dyndata (i : nat) (e : Elf) : Elf :=
  set_indices e (code e) (relro e) (data e) (dynamic e) (Some i) (tls e) (proc_param e) (mod_param e) (comment e) (eh e).
Definition set_tls (i : nat) (e : Elf) : Elf :=
  set_indices e (code e) (relro e) (data e) (dynamic e) (dyndata e) (Some i) (proc_param e) (mod_param e) (comment e) (eh e).
Definition set_proc_param (i : nat) (e : Elf) : Elf :=
  set_indices e (code e) (relro e) (data e) (dynamic e) (dyndata e) (tls e) (Some i) (mod_param e) (comment e) (eh e).
Definition set_mod_param (i : nat) (e : Elf) : Elf :=
  set_indices e (code e) (relro e) (data e) (dynamic e) (dyndata e) (tls e) (proc_param e) (Some i) (comment e) (eh e).
Definition set_comment (i : nat) (e : Elf) : Elf :=
  set_indices e (code e) (relro e) (data e) (dynamic e) (dyndata e) (tls e) (proc_param e) (mod_param e) (Some i) (eh e).
Definition set_eh (i : nat) (e : Elf) : Elf :=
  set_indices e (code e) (relro e) (data e) (dynamic e) (dyndata e) (tls e) (proc_param e) (mod_param e) (comment e) (Some i).
Definition set_mapping (m : Z * Z) (twomb : bool) (e : Elf) : Elf :=
  MkElf (e_name e) (self_data e) (e_ty e) (entry_addr e) (programs e) m (code e) (relro e) (data e) (dynamic e)
    (dyndata e) (tls e) (proc_param e) (mod_param e) (comment e) (eh e) twomb (info e).
Definition set_info (i : FileInfo) (e : Elf) : Elf :=
  MkElf (e_name e) (self_data e) (e_ty e) (entry_addr e) (programs e) (mapping e) (code e) (relro e) (data e)
    (dynamic e) (dyndata e) (tls e) (proc_param e) (mod_param e) (comment e) (eh e) (twomb_mode e) (Some i).
Definition push_program (p : Program) (e : Elf) : Elf :=
  MkElf (e_name e) (self_data e) (e_ty e) (entry_addr e) (programs e ++ [p]) (mapping e) (code e) (relro e) (data e)
    (dynamic e) (dyndata e) (tls e) (proc_param e) (mod_param e) (comment e) (eh e) (twomb_mode e) (info e).

(** *** Program headers *)

Definition process_mappable (index : nat) (prog : Program) (e : Elf) : outcome OpenError Elf :=
  let ty := ty prog in
  fail_if ((0xffffffff <? offset prog) || negb (Z.land (offset prog) 0x3fff =? 0)) (InvalidOffset index ty);;
  fail_if (negb (Z.land (addr prog) 0x3fff =? 0)) (InvalidAddr index ty);;
  fail_if (negb (Z.land (alignment prog) 0x3fff =? 0)) (InvalidAligment index ty);;
  fail_if (memory_size prog <? file_size prog) (InvalidFileSize index ty);;
  fail_if (0x7fffffff <? memory_size prog) (InvalidMemSize index ty);;
  e0 ← uadd (addr prog) (memory_size prog);
  end' ← align_page e0;
  let start := if addr prog <? fst (mapping e) then addr prog else fst (mapping e) in
  let end' := if snd (mapping e) <? end' then end' else snd (mapping e) in
  let e := set_mapping (start, end') ((0x1fffff <? memory_size prog) || twomb_mode e) e in
  Ok (if ty is PT_SCE_RELRO then set_relro index e
      else if contains (flags prog) EXECUTE then set_code index e
      else if data e is None then set_data index e
      else e).

(** The checks that the other kinds of program share. *)
Definition check_offset (index : nat) (prog : Program) : outcome OpenError unit :=
  fail_if (0xffffffff <? offset prog) (InvalidOffset index (ty prog)).
Definition check_mapped_size (index : nat) (prog : Program) : outcome OpenError unit :=
  fail_if (memory_size prog <? file_size prog) (InvalidFileSize index (ty prog));;
  fail_if (0x7fffffff <? memory_size prog) (InvalidMemSize index (ty prog)).
Definition check_unmapped_size (index : nat) (prog : Program) : outcome OpenError unit :=
  fail_if (0x7fffffff <? file_size prog) (InvalidFileSize index (ty prog));;
  fail_if (negb (memory_size prog =? 0)) (InvalidMemSize index (ty prog)).

Definition process_dynamic (index : nat) (prog : Program) (e : Elf) : outcome OpenError Elf :=
  check_offset index prog;;
  check_mapped_size index prog;;
  Ok (set_dynamic index e).
Definition process_tls (index : nat) (prog : Program) (e : Elf) : outcome OpenError Elf :=
  check_offset index prog;;
  check_mapped_size index prog;;
  fail_if (32 <? alignment prog) (InvalidAligment index (ty prog));;
  Ok (set_tls index e).
Definition process_dyndata (index : nat) (prog : Program) (e : Elf) : outcome OpenError Elf :=
  check_offset index prog;;
  check_unmapped_size index prog;;
  Ok (set_dyndata index e).
Definition process_comment (index : nat) (prog : Program) (e : Elf) : outcome OpenError Elf :=
  check_offset index prog;;
  check_unmapped_size index prog;;
  Ok (set_comment index e).
Definition process_eh (index : nat) (prog : Program) (e : Elf) : outcome OpenError Elf :=
  check_offset index prog;;
  check_mapped_size index prog;;
  Ok (set_eh index e).

(** A header of 0x38 bytes. *)
Definition program_header (h : list Z) : Program :=
  MkProgram (program_type (field h 0 4)) (field h 0x04 4) (field h 0x08 8) (field h 0x10 8) (field h 0x20 8)
    (field h 0x28 8) (field h 0x30 8).
Definition process (i : nat) (p : Program) (e : Elf) : outcome OpenError Elf :=
  match ty p with
  | PT_LOAD | PT_SCE_RELRO => process_mappable i p e
  | PT_DYNAMIC => process_dynamic i p e
  | PT_TLS => process_tls i p e
  | PT_SCE_DYNLIBDATA => process_dyndata i p e
  | PT_SCE_PROCPARAM => Ok (set_proc_param i e)
  | PT_SCE_MODULEPARAM => Ok (set_mod_param i e)
  | PT_SCE_COMMENT => process_comment i p e
  | PT_GNU_EH_FRAME => process_eh i p e
  | _ => Ok e
  end.
(** The body of the loop over the headers. *)
Definition load_program (e : Elf) (ip : nat * Program) : outcome OpenError Elf :=
  let '(i, p) := ip in e ← process i p e; Ok (push_program p e).

(** *** Reading *)

(** [get_self_program]: the loop over the segments from number [i] on. *)
Fixpoint find_segment (progs : list Program) (off len : Z) (i : nat) (segs : list SelfSegment)
    : outcome ReadProgramError Z :=
  match segs with
  | [] => Panic (PExplicit "SELF image is corrupted.")
  | seg :: segs =>
      if negb (contains (sg_flags seg) SF_BFLG) then find_segment progs off len (S i) segs
      else
        prog ← unwrap_or_panic PIndex (progs !! sg_program (sg_flags seg));
        inside ← (if offset prog <=? off then e ← uadd (offset prog) (file_size prog); Ok (off <? e) else Ok false);
        if (inside : bool) then
          fail_if (contains (sg_flags seg) SF_ENCR) (EncryptedSegment i);;
          panic_if (negb (compressed_size seg =? decompressed_size seg))
            (PExplicit "Compressed SELF segment is not supported yet.");;
          panic_if (negb (decompressed_size seg =? file_size prog))
            (PExplicit "SELF segment size different than associated program segment is not supported yet.");;
          e ← uadd (off - offset prog) len;
          panic_if (decompressed_size seg <? e)
            (PExplicit "Segment block is smaller than the size specified in program header.");;
          uadd (off - offset prog) (sg_offset seg)
        else find_segment progs off len (S i) segs
  end.
Definition get_self_program (e : Elf) (segs : list SelfSegment) (prog : Program) : outcome ReadProgramError Z :=
  find_segment (programs e) (offset prog) (file_size prog) 0 segs.

Section image.
Context {I : Type} {HI : Image I}.

Definition read_program (e : Elf) (index : nat) (buf : list Z) : io I ReadProgramError (list Z) :=
  prog ← lift (ok_or InvalidIndex (programs e !! index));
  let len := file_size prog in
  _ ← lift (fail_if (Z.of_nat (length buf) <? len) (InsufficientBuffer len));
  off ← lift (match self_data e with Some segs => get_self_program e segs prog | None => Ok (offset prog) end);
  v ← call (RSeekFailed off) (seek off);
  _ ← lift (panic_if (negb (v =? off)) (PExplicit "File is smaller than offset bytes."));
  b ← call (RReadFailed off len) (read_exact len);
  mret (overwrite buf 0 b).

(** The headers of the segments of a SELF file, from number [i] on. *)
Fixpoint read_segments (i n : nat) : io I OpenError (list SelfSegment) :=
  match n with
  | O => mret []
  | S n =>
      h ← call (ReadSelfSegmentFailed i) (read_exact 32);
      l ← read_segments (S i) n;
      mret (MkSegment (field h 0 8) (field h 8 8) (field h 16 8) (field h 24 8) :: l)
  end.

Definition SELF_MAGIC : list Z := [0x4f; 0x15; 0x3d; 0x1d; 0x00; 0x01; 0x01; 0x12].
Definition starts_with (l p : list Z) : bool := bool_decide (take (length p) l = p).

(** The header of the file and of the ELF image in it, and where that is. *)
Definition read_header : io I OpenError (list Z * Z * option (list SelfSegment)) :=
  _ ← call (SeekFailed 0) (seek 0);
  hdr ← call ReadHeaderFailed (read_exact 64);
  if starts_with hdr SELF_MAGIC then
    _ ← lift (fail_if (negb (field hdr 0x1a 2 =? 0x22)) InvalidSelfMagic);
    let segment_count := field hdr 0x18 2 in
    _ ← call (SeekFailed 32) (seek 32);
    segments ← read_segments 0 (Z.to_nat segment_count);
    elf_offset ← call GetElfOffsetFailed stream_position;
    elf_hdr ← call ReadElfHeaderFailed (read_exact 64);
    mret (elf_hdr, elf_offset, Some segments)
  else mret (hdr, 0, None).

Definition check_header (hdr : list Z) : outcome OpenError unit :=
  fail_if (negb (starts_with hdr [0x7f; 0x45; 0x4c; 0x46])) InvalidElfMagic;;
  fail_if (negb (field hdr 0x04 1 =? 2)) UnsupportedBitness;;
  fail_if (negb (field hdr 0x05 1 =? 1)) UnsupportedEndianness;;
  fail_if (negb (field hdr 0x36 2 =? 0x38)) InvalidProgramEntrySize.

(** The image before its program headers are processed. *)
Definition elf_new (name : str) (self_data : option (list SelfSegment)) (ty : FileType) (entry : Z) : Elf :=
  MkElf name self_data ty (if entry =? 0 then None else Some entry) [] (u64_max, 0) None None None None None None
    None None None None false None.

Definition load_programs (e : Elf) (data : list Z) : outcome OpenError Elf :=
  e ← foldM load_program e (enumerate (program_header <$> chunks_exact 0x38 data));
  fail_if ((fst (mapping e) =? u64_max) || (snd (mapping e) =? 0)) NoMappableProgram;;
  Ok e.

(** The tables of a dynamic image. *)
Definition load_info (e : Elf) : io I OpenError Elf :=
  match dynamic e with
  | None => mret e
  | Some i =>
      dyn ← lift (unwrap_or_panic PIndex (programs e !! i));
      _ ← lift (fail_if (file_size dyn =? 0) InvalidDynamic);
      i ← lift (ok_or NoDynData (dyndata e));
      dd ← lift (unwrap_or_panic PIndex (programs e !! i));
      _ ← lift (fail_if (file_size dd =? 0) InvalidDynData);
      dynoff ← lift (usub (offset dyn) (offset dd));
      data ← (fun s => let '(s, r) := read_program e i (replicate (Z.to_nat (file_size dd)) 0) s in
                       (s, map_err ReadDynDataFailed r));
      comment ←
        match comment e with
        | None => mret []
        | Some c => fun s =>
            match programs e !! c with
            | None => (s, Panic PIndex)
            | Some p =>
                (* An error is not one of [open]. *)
                match read_program e c (replicate (Z.to_nat (file_size p)) 0) s with
                | (s, Ok buf) => (s, Ok buf)
                | (s, Err _) => (s, Ok [])
                | (s, Panic p) => (s, Panic p)
                end
            end
        end;
      fi ← lift (map_err ParseFileInfoFailed (info_parse data comment dynoff (file_size dyn)));
      mret (set_info fi e)
  end.

(** Whether [addr] is where what follows [p] can be. *)
Definition follows {E} (p : Program) (a : Z) : outcome E bool :=
  e ← end_ p;
  a2 ← align_2mb e;
  if a2 =? a then Ok true else (a1 ← align_page e; Ok (a1 =? a)).

Definition check_relro (e : Elf) : outcome OpenError unit :=
  match relro e with
  | None => Ok tt
  | Some i =>
      r ← unwrap_or_panic PIndex (programs e !! i);
      fail_if (addr r =? 0) InvalidRelroAddr;;
      fail_if (memory_size r =? 0) InvalidRelroSize;;
      (if code e is Some i then
         c ← unwrap_or_panic PIndex (programs e !! i);
         ok ← follows c (addr r);
         fail_if (negb ok) InvalidRelroAddr
       else Ok tt);;
      (if data e is Some i then
         d ← unwrap_or_panic PIndex (programs e !! i);
         ok ← follows r (addr d);
         fail_if (negb ok) (InvalidDataAddr i)
       else Ok tt)
  end.

Definition open (name : str) : io I OpenError Elf :=
  '(hdr, off, self_data) ← read_header;
  _ ← lift (check_header hdr);
  let e_type := file_type (field hdr 0x10 2) in
  let e_entry := field hdr 0x18 8 in
  e_phoff ← lift (uadd off 0x40);
  let e_phnum := field hdr 0x38 2 in
  v ← call (SeekFailed e_phoff) (seek e_phoff);
  _ ← lift (fail_if (negb (v =? e_phoff)) InvalidProgramOffset);
  data ← call ReadProgramHeadersFailed (read_exact (e_phnum * 0x38));
  e ← lift (load_programs (elf_new name self_data e_type e_entry) data);
  e ← load_info e;
  _ ← lift (check_relro e);
  mret e.
End image.
End Orbis.
