(* ===== verification/OrbisProps.v ===== *)
(** * Properties of the images of the previous kernel *)
From S2P Require Import Prelude Env Kernel VmSpace Orbis.
Import Env Orbis.
Local Open Scope list_scope.

(** ** Rounding *)

Lemma land_low v k : 0 <= k -> Z.land v (2 ^ k - 1) = v mod 2 ^ k.
Proof. intros Hk. rewrite <-Z.land_ones by done. by rewrite Z.ones_equiv, Z.sub_1_r. Qed.

(** The rounding of [align_page] and [align_2mb]. *)
Lemma round_mask v k : 0 <= k < 64 -> 0 <= v -> v + (2 ^ k - 1) < 2 ^ 64 ->
  Z.land (v + (2 ^ k - 1)) (2 ^ 64 - 2 ^ k) = round_up v (2 ^ k).
Proof.
  intros Hk Hv Hb. assert (0 < 2 ^ k) as Hp by (apply Z.pow_pos_nonneg; lia).
  rewrite land_high by lia. destruct (round_up_spec v (2 ^ k) Hp) as [Hr Hm].
  set (r := round_up v (2 ^ k)) in *. replace (v + (2 ^ k - 1)) with (r + (v + (2 ^ k - 1) - r)) by lia.
  rewrite Z.add_mod, Hm, Z.add_0_l, Z.mod_mod by lia. rewrite Z.mod_small by lia. lia.
Qed.

Lemma align_page_Ok {E} v r : 0 <= v -> @align_page E v = Ok r <-> v + 0x3fff < 2 ^ 64 /\ r = round_up v 0x4000.
Proof.
  intros Hv. unfold align_page. pose proof (round_mask v 14 ltac:(lia) Hv) as Hr.
  change (2 ^ 14) with 0x4000 in Hr. change (0x4000 - 1) with 0x3fff in Hr.
  change (2 ^ 64 - 0x4000) with 0xffffffffffffc000 in Hr. split.
  - intros H. inv_arith. by rewrite Hr.
  - intros [Hb ->]. rewrite <-Hr by done. unfold uadd. by rewrite (proj2 (Z.ltb_lt _ _)).
Qed.

(** ** What the program headers mean *)

(** The last and the first program of a kind. *)
Definition last_index (P : Program -> bool) (l : list Program) : option nat :=
  foldl (fun r ip => if P ip.2 then Some ip.1 else r) None (enumerate l).
Definition first_index (P : Program -> bool) (l : list Program) : option nat :=
  foldl (fun r ip => if r is None then (if P ip.2 then Some ip.1 else None) else r) None (enumerate l).

Lemma last_index_snoc P l p : last_index P (l ++ [p]) = if P p then Some (length l) else last_index P l.
Proof. unfold last_index. by rewrite enumerate_snoc, foldl_app. Qed.
Lemma first_index_snoc P l p :
  first_index P (l ++ [p]) = if first_index P l is None then (if P p then Some (length l) else None) else first_index P l.
Proof. unfold first_index. by rewrite enumerate_snoc, foldl_app. Qed.

Lemma last_index_Some P l k :
  last_index P l = Some k <->
  (exists p, l !! k = Some p /\ P p = true) /\ forall j p, (k < j)%nat -> l !! j = Some p -> P p = false.
Proof.
  revert k. induction l as [|p l IH] using rev_ind; intros k.
  - split; [done|]. intros [(q & Hq & _) _]. done.
  - rewrite last_index_snoc. destruct (P p) eqn:HP.
    + split.
      * intros [= <-]. split; [exists p; by rewrite list_lookup_middle|].
        intros j q Hj Hq%lookup_lt_Some. rewrite length_app in Hq. cbn in Hq. lia.
      * intros [(q & Hq & _) Hlast]. apply lookup_lt_Some in Hq as Hk. rewrite length_app in Hk. cbn in Hk.
        destruct (decide (k = length l)) as [->|]; [done|]. exfalso.
        specialize (Hlast (length l) p ltac:(lia)). rewrite list_lookup_middle in Hlast by done.
        specialize (Hlast eq_refl). congruence.
    + rewrite IH. split; intros [(q & Hq & HPq) Hlast].
      * split; [exists q; split; [by apply lookup_app_l_Some|done]|]. intros j r Hj [Hr|[_ Hr]]%lookup_app_Some; [eauto|].
        apply list_lookup_singleton_Some in Hr as [_ <-]. done.
      * apply lookup_app_Some in Hq as [Hq|[_ Hq]].
        -- split; [eauto|]. intros j r Hj Hr. apply (Hlast j); [done|by apply lookup_app_l_Some].
        -- apply list_lookup_singleton_Some in Hq as [_ <-]. congruence.
Qed.

#[export] Instance ProgramType_eq_dec : EqDecision ProgramType.
Proof. solve_decision. Defined.

Definition is_ty (t : ProgramType) (p : Program) : bool := bool_decide (ty p = t).
Definition executable (p : Program) : bool := contains (flags p) EXECUTE.
(** The programs that are in memory. *)
Definition mappable (p : Program) : bool := is_ty PT_LOAD p || is_ty PT_SCE_RELRO p.
Definition page_end (p : Program) : Z := round_up (addr p + memory_size p) 0x4000.

(** The checks of the headers. *)
Definition small_offset (p : Program) : Prop := offset p <= 0xffffffff.
Definition fits (p : Program) : Prop := file_size p <= memory_size p <= 0x7fffffff.
Definition unmapped (p : Program) : Prop := file_size p <= 0x7fffffff /\ memory_size p = 0.
Definition page_aligned (z : Z) : Prop := z mod 0x4000 = 0.
Definition accepted (p : Program) : Prop :=
  match ty p with
  | PT_LOAD | PT_SCE_RELRO =>
      small_offset p /\ page_aligned (offset p) /\ page_aligned (addr p) /\ page_aligned (alignment p) /\ fits p
      /\ addr p + memory_size p + 0x3fff < 2 ^ 64
  | PT_DYNAMIC | PT_GNU_EH_FRAME => small_offset p /\ fits p
  | PT_TLS => small_offset p /\ fits p /\ alignment p <= 32
  | PT_SCE_DYNLIBDATA | PT_SCE_COMMENT => small_offset p /\ unmapped p
  | _ => True
  end.

(** The fields of an image in terms of its programs. *)
Record described (e : Elf) : Prop := {
  d_code : code e = last_index (fun p => is_ty PT_LOAD p && executable p) (programs e);
  d_relro : relro e = last_index (is_ty PT_SCE_RELRO) (programs e);
  d_data : data e = first_index (fun p => is_ty PT_LOAD p && negb (executable p)) (programs e);
  d_dynamic : dynamic e = last_index (is_ty PT_DYNAMIC) (programs e);
  d_dyndata : dyndata e = last_index (is_ty PT_SCE_DYNLIBDATA) (programs e);
  d_tls : tls e = last_index (is_ty PT_TLS) (programs e);
  d_proc_param : proc_param e = last_index (is_ty PT_SCE_PROCPARAM) (programs e);
  d_mod_param : mod_param e = last_index (is_ty PT_SCE_MODULEPARAM) (programs e);
  d_comment : comment e = last_index (is_ty PT_SCE_COMMENT) (programs e);
  d_eh : eh e = last_index (is_ty PT_GNU_EH_FRAME) (programs e);
  d_mapping : mapping e = (foldl Z.min u64_max (addr <$> filter mappable (programs e)),
                           foldl Z.max 0 (page_end <$> filter mappable (programs e)));
  d_twomb : twomb_mode e = existsb (fun p => mappable p && (0x1fffff <? memory_size p)) (programs e)
}.

Definition sized (p : Program) : Prop := 0 <= addr p /\ 0 <= memory_size p.

Lemma min_spec a b : Z.min b a = if a <? b then a else b.
Proof. destruct (Z.ltb_spec a b); lia. Qed.
Lemma max_spec a b : Z.max b a = if b <? a then a else b.
Proof. destruct (Z.ltb_spec b a); lia. Qed.

Lemma land_3fff v : Z.land v 0x3fff = v mod 0x4000.
Proof. apply (land_low v 14). lia. Qed.

(** A mappable program. *)
Lemma process_mappable_Ok i p e e' :
  sized p -> process_mappable i p e = Ok e' ->
  (small_offset p /\ page_aligned (offset p) /\ page_aligned (addr p) /\ page_aligned (alignment p) /\ fits p
   /\ addr p + memory_size p + 0x3fff < 2 ^ 64)
  /\ let e1 := set_mapping (Z.min (fst (mapping e)) (addr p), Z.max (snd (mapping e)) (page_end p))
                 ((0x1fffff <? memory_size p) || twomb_mode e) e in
     e' = if ty p is PT_SCE_RELRO then set_relro i e1
          else if executable p then set_code i e1 else if data e is None then set_data i e1 else e1.
Proof.
  intros [Ha Hm] H. unfold process_mappable in H. repeat rewrite land_3fff in H.
  apply bind_Ok in H as (u1 & H1 & H). apply bind_Ok in H as (u2 & H2 & H). apply bind_Ok in H as (u3 & H3 & H).
  apply bind_Ok in H as (u4 & H4 & H). apply bind_Ok in H as (u5 & H5 & H). apply bind_Ok in H as (s & Hs & H).
  apply bind_Ok in H as (en & Hen & H). inv_ok. bool_to_prop. apply uadd_Ok in Hs as [-> Hs].
  apply align_page_Ok in Hen as [Hb ->]; [|lia]. unfold small_offset, fits, page_aligned.
  split; [lia|]. rewrite min_spec, max_spec. done.
Qed.

(** The fields that the headers do not change. *)
Definition same_image (e e' : Elf) : Prop :=
  e_name e' = e_name e /\ self_data e' = self_data e /\ e_ty e' = e_ty e /\ entry_addr e' = entry_addr e
  /\ info e' = info e.

Lemma last_index_skip P l p : P p = false -> last_index P (l ++ [p]) = last_index P l.
Proof. intros H. by rewrite last_index_snoc, H. Qed.
Lemma last_index_hit P l p : P p = true -> last_index P (l ++ [p]) = Some (length l).
Proof. intros H. by rewrite last_index_snoc, H. Qed.
Lemma first_index_skip P l p : P p = false -> first_index P (l ++ [p]) = first_index P l.
Proof. intros H. rewrite first_index_snoc, H. by destruct (first_index P l). Qed.
Lemma filter_skip l p : mappable p = false -> filter mappable (l ++ [p]) = filter mappable l.
Proof. intros H. rewrite filter_app, filter_cons_False by (rewrite H; cbn; tauto). by rewrite filter_nil, app_nil_r. Qed.
Lemma filter_hit l p : mappable p = true -> filter mappable (l ++ [p]) = filter mappable l ++ [p].
Proof. intros H. rewrite filter_app, filter_cons_True by (by rewrite H). done. Qed.
Lemma existsb_snoc {A} (f : A -> bool) l a : existsb f (l ++ [a]) = f a || existsb f l.
Proof. rewrite existsb_app. cbn. by rewrite orb_false_r, orb_comm. Qed.

(** The effect of one more program, of a type that is known. *)
Ltac describe p Hd Ht :=
  destruct Hd; constructor; cbn [push_program set_indices set_mapping set_code set_relro set_data set_dynamic
    set_dyndata set_tls set_proc_param set_mod_param set_comment set_eh code relro data dynamic dyndata tls
    proc_param mod_param comment eh mapping twomb_mode programs fst snd];
  rewrite ?last_index_skip, ?first_index_skip, ?filter_skip, ?existsb_snoc
    by (unfold mappable, is_ty; by rewrite Ht);
  rewrite ?last_index_hit, ?filter_hit by (unfold mappable, is_ty; by rewrite Ht);
  try (first [ replace (mappable p) with false by (unfold mappable, is_ty; by rewrite Ht)
             | replace (mappable p) with true by (unfold mappable, is_ty; by rewrite Ht)]);
  try done.

Lemma process_described e i p e' :
  described e -> i = length (programs e) -> sized p -> process i p e = Ok e' ->
  described (push_program p e') /\ accepted p /\ programs e' = programs e /\ same_image e e'.
Proof.
  intros Hd -> Hp H. unfold process in H. unfold accepted.
  destruct (ty p) eqn:Ht;
    try (injection H as <-; split; [by describe p Hd Ht|done]);
    try (unfold process_dynamic, process_tls, process_dyndata, process_comment, process_eh, check_offset,
           check_mapped_size, check_unmapped_size in H;
         inv_ok; bool_to_prop; unfold small_offset, fits, unmapped;
         split; [by describe p Hd Ht|split; [lia|done]]).
  - apply process_mappable_Ok in H as [Ha ->]; [|done]. rewrite Ht. split; [|split; [done|]; by repeat case_match].
    destruct (executable p) eqn:He, (data e) eqn:Hda; describe p Hd Ht.
    all: try (rewrite !fmap_app, !foldl_app, d_mapping0; done).
    all: try (rewrite d_twomb0; done).
    all: rewrite first_index_snoc, <-d_data0, Hda; cbn; rewrite ?He; unfold is_ty; by rewrite ?Ht.
  - apply process_mappable_Ok in H as [Ha ->]; [|done]. rewrite Ht. split; [|done]. describe p Hd Ht.
    all: try (rewrite !fmap_app, !foldl_app, d_mapping0; done).
    all: rewrite d_twomb0; done.
Qed.

(** The loop over the headers. *)
Lemma programs_described e0 progs e :
  described e0 -> programs e0 = [] -> Forall sized progs ->
  foldM load_program e0 (enumerate progs) = Ok e ->
  described e /\ programs e = progs /\ Forall accepted progs /\ same_image e0 e.
Proof.
  intros Hd H0 Hs. revert e. induction progs as [|p progs IH] using rev_ind; intros e H.
  - injection H as <-. done.
  - apply Forall_app in Hs as [Hs [Hp _]%Forall_cons].
    rewrite enumerate_snoc, foldM_app in H. apply bind_Ok in H as (e1 & H1 & H).
    apply IH in H1 as (Hd1 & Hp1 & Ha1 & Hi1); [|done]. cbn [foldM load_program] in H.
    apply bind_Ok in H as (e3 & H & H'). apply bind_Ok in H as (e2 & H2 & H). injection H as <-. injection H' as <-.
    apply process_described in H2 as (Hd2 & Ha & Hp2 & Hi2); [|done|by rewrite Hp1|done].
    split; [done|]. split; [cbn; by rewrite Hp2, Hp1|]. split; [by apply Forall_app; split; [|constructor]|].
    unfold same_image in *. cbn. naive_solver congruence.
Qed.

(** ** Functions that use the file *)

Lemma call_Ok {I E A} (err : IoError -> E) (op : I -> I * (IoError + A)) i i' a :
  call err op i = (i', Ok a) <-> op i = (i', inr a).
Proof. unfold call. destruct (op i) as [i1 [e|x]]; naive_solver. Qed.

Ltac inv_io :=
  repeat match goal with
  | H : (_ ≫= _) _ = (_, Ok _) |- _ => apply io_bind_Ok in H as (? & ? & ? & H)
  | H : lift _ _ = (_, Ok _) |- _ => apply lift_Ok in H as [-> H]
  | H : call _ _ _ = (_, Ok _) |- _ => apply call_Ok in H
  | H : mret _ _ = (_, Ok _) |- _ => apply ret_Ok in H as [-> ->]
  end.

(** What the documentation of [Read] and [Seek] promises of a file with the
    contents [bytes] at position [pos]; calls can fail. *)
Class ImageOk (I : Type) {HI : Image I} (bytes : I -> list Z) (pos : I -> Z) : Prop := {
  bytes_u8 i : Forall is_byte (bytes i);
  seek_ok p i i' r :
    seek p i = (i', r) -> bytes i' = bytes i /\ forall v, r = inr v -> v = p /\ pos i' = p;
  read_ok n i i' r :
    read_exact n i = (i', r) ->
    bytes i' = bytes i /\ forall b, r = inr b ->
      b = slice (bytes i) (pos i) n /\ pos i + n <= Z.of_nat (length (bytes i)) /\ pos i' = pos i + n;
  position_ok i i' r : stream_position i = (i', r) -> i' = i /\ forall v, r = inr v -> v = pos i
}.

(** ** [open] *)

Lemma program_header_sized c : Forall is_byte c -> sized (program_header c).
Proof. intros H. split; cbn; by apply field_nonneg. Qed.

Lemma chunks_go_Forall {A} (P : A -> Prop) f n l : Forall P l -> Forall (Forall P) (chunks_go f n l).
Proof.
  revert l. induction f as [|f IH]; intros [|a l] H; cbn; try constructor.
  - by apply Forall_take.
  - by apply IH, Forall_drop.
Qed.

Lemma chunks_exact_bytes n b : Forall is_byte b -> Forall (Forall is_byte) (chunks_exact n b).
Proof.
  intros H. apply Forall_forall. intros c [_ Hc]%list_elem_of_filter.
  pose proof (chunks_go_Forall is_byte (length b) n b H) as Hb. rewrite Forall_forall in Hb. by apply Hb.
Qed.

Lemma elf_new_described name sd t en : described (elf_new name sd t en).
Proof. by constructor. Qed.

Lemma foldl_min_le z l : foldl Z.min z l <= z /\ Forall (fun a => foldl Z.min z l <= a) l.
Proof.
  revert z. induction l as [|a l IH]; intros z; cbn; [split; [lia|constructor]|].
  destruct (IH (Z.min z a)) as [H1 H2]. split; [lia|]. constructor; [lia|done].
Qed.
Lemma foldl_max_ge z l : z <= foldl Z.max z l /\ Forall (fun a => a <= foldl Z.max z l) l.
Proof.
  revert z. induction l as [|a l IH]; intros z; cbn; [split; [lia|constructor]|].
  destruct (IH (Z.max z a)) as [H1 H2]. split; [lia|]. constructor; [lia|done].
Qed.
(** The result is the start value or an element. *)
Lemma foldl_pick (f : Z -> Z -> Z) z l : (forall a b, f a b = a \/ f a b = b) -> foldl f z l = z \/ foldl f z l ∈ l.
Proof.
  intros Hf. revert z. induction l as [|a l IH]; intros z; cbn; [by left|].
  destruct (IH (f z a)) as [H|H]; [|right; by apply list_elem_of_further].
  rewrite H. destruct (Hf z a) as [->| ->]; [by left|]. right. apply list_elem_of_here.
Qed.

Section open.
Context {I : Type} {HI : Image I} (bytes : I -> list Z) (pos : I -> Z) {HO : ImageOk I bytes pos}.

Lemma read_exact_bytes n i i' b : read_exact n i = (i', inr b) -> Forall is_byte b.
Proof.
  intros H. apply read_ok in H as [_ H]. destruct (H b eq_refl) as [-> _]. apply Forall_slice, bytes_u8.
Qed.

Lemma load_info_Ok e i i' e' :
  load_info e i = (i', Ok e') ->
  (dynamic e = None /\ e' = e) \/ (is_Some (dynamic e) /\ exists fi, e' = set_info fi e).
Proof.
  unfold load_info. destruct (dynamic e) as [k|]; intros H; [right|left]; inv_io; [|done].
  split; [done|]. eauto.
Qed.

Lemma open_Ok name i i' e :
  open name i = (i', Ok e) ->
  exists i1 sd t en data e1,
    Forall is_byte data /\ load_programs (elf_new name sd t en) data = Ok e1
    /\ load_info e1 i1 = (i', Ok e) /\ check_relro e = Ok tt.
Proof.
  unfold open. intros H. apply io_bind_Ok in H as (i1 & [[hdr off] sd] & _ & H). inv_io.
  match goal with H : unit |- _ => destruct H end.
  match goal with H : read_exact _ _ = (_, inr ?d) |- _ => apply read_exact_bytes in H end.
  repeat eexists; eauto.
Qed.
End open.

Lemma set_info_described fi e : described e -> described (set_info fi e).
Proof. intros []. by constructor. Qed.

Lemma mappable_accepted p : mappable p = true -> accepted p -> page_aligned (addr p) /\ fits p.
Proof.
  unfold mappable, is_ty, accepted. intros H Ha.
  destruct (decide (ty p = PT_LOAD)) as [Ht|Ht]; [rewrite Ht in Ha; naive_solver|].
  rewrite bool_decide_eq_false_2 in H by done. apply bool_decide_eq_true in H. rewrite H in Ha. naive_solver.
Qed.

(** The mapping covers the programs in memory. *)
Lemma mapping_covers e p :
  described e -> p ∈ programs e -> mappable p = true -> sized p ->
  fst (mapping e) <= addr p /\ addr p + memory_size p <= snd (mapping e).
Proof.
  intros Hd Hp Hm Hs. rewrite (d_mapping e Hd). cbn.
  assert (p ∈ filter mappable (programs e)) as Hf by (apply list_elem_of_filter; by rewrite Hm).
  destruct (foldl_min_le u64_max (addr <$> filter mappable (programs e))) as [_ H1].
  destruct (foldl_max_ge 0 (page_end <$> filter mappable (programs e))) as [_ H2].
  rewrite Forall_fmap, Forall_forall in H1, H2. specialize (H1 p Hf). specialize (H2 p Hf). unfold compose in H1, H2.
  destruct (round_up_spec (addr p + memory_size p) 0x4000) as [Hr _]; [done|]. fold (page_end p) in Hr. split; lia.
Qed.

Lemma mapping_aligned e :
  described e -> Forall accepted (programs e) -> fst (mapping e) <> u64_max ->
  page_aligned (fst (mapping e)) /\ page_aligned (snd (mapping e)).
Proof.
  intros Hd Ha Hm. rewrite (d_mapping e Hd) in *. cbn in *. split.
  - destruct (foldl_pick Z.min u64_max (addr <$> filter mappable (programs e))) as [|H]; [intros; lia|done|].
    apply list_elem_of_fmap in H as (p & -> & [Hp Hin]%list_elem_of_filter).
    rewrite Forall_forall in Ha. apply mappable_accepted; [by apply Is_true_true|by apply Ha].
  - destruct (foldl_pick Z.max 0 (page_end <$> filter mappable (programs e))) as [->|H]; [intros; lia|done|].
    apply list_elem_of_fmap in H as (p & -> & _). apply round_up_spec. done.
Qed.

(** Where what follows a program can start. *)
Definition adjacent (p : Program) (a : Z) : Prop :=
  a = round_up (addr p + memory_size p) 0x4000 \/ a = round_up (addr p + memory_size p) 0x200000.

Lemma follows_Ok {E} p a : sized p -> @follows E p a = Ok true -> adjacent p a.
Proof.
  intros [Ha Hm] H. unfold follows, end_, adjacent in *. apply bind_Ok in H as (e & He & H).
  apply uadd_Ok in He as [-> He]. apply bind_Ok in H as (a2 & H2 & H). unfold align_2mb in H2.
  apply bind_Ok in H2 as (s & Hs & H2). apply uadd_Ok in Hs as [-> Hs]. injection H2 as <-.
  pose proof (round_mask (addr p + memory_size p) 21 ltac:(lia) ltac:(lia) Hs) as Hr.
  change (2 ^ 64 - 2 ^ 21) with 0xffffffffffe00000 in Hr. change (2 ^ 21 - 1) with 0x1fffff in Hr.
  change (2 ^ 21) with 0x200000 in Hr. rewrite Hr in H.
  destruct (Z.eqb_spec (round_up (addr p + memory_size p) 0x200000) a) as [<-|]; [by right|].
  apply bind_Ok in H as (a1 & H1 & H). apply align_page_Ok in H1 as [_ ->]; [|lia]. injection H as H.
  apply Z.eqb_eq in H. by left.
Qed.

(** The data that must not change after relocation lies between the code and
    the other data. *)
Definition relro_between (e : Elf) : Prop :=
  forall k r, relro e = Some k -> programs e !! k = Some r ->
    addr r <> 0 /\ memory_size r <> 0
    /\ (forall j c, code e = Some j -> programs e !! j = Some c -> adjacent c (addr r))
    /\ (forall j d, data e = Some j -> programs e !! j = Some d -> adjacent r (addr d)).

Lemma check_relro_Ok e : Forall sized (programs e) -> check_relro e = Ok tt -> relro_between e.
Proof.
  intros Hs H k r Hk Hr. unfold check_relro in H. rewrite Hk, Hr in H. cbn [unwrap_or_panic mbind outcome_bind] in H.
  apply bind_Ok in H as (u1 & H1 & H). apply bind_Ok in H as (u2 & H2 & H). apply bind_Ok in H as (u3 & H3 & H4).
  apply fail_if_Ok, Z.eqb_neq in H1. apply fail_if_Ok, Z.eqb_neq in H2. split; [done|]. split; [done|].
  rewrite Forall_lookup in Hs. split.
  - intros j c Hj Hc. rewrite Hj, Hc in H3. cbn [unwrap_or_panic mbind outcome_bind] in H3.
    apply bind_Ok in H3 as ([|] & H & H3); [|done]. by apply follows_Ok in H; [|eapply Hs].
  - intros j d Hj Hd. rewrite Hj, Hd in H4. cbn [unwrap_or_panic mbind outcome_bind] in H4.
    apply bind_Ok in H4 as ([|] & H & H4); [|done]. by apply follows_Ok in H; [|eapply Hs].
Qed.

(** C32: An image that [Elf::open] accepts, from any file that keeps the
    contract of [Read] and [Seek], is laid out consistently.  Each index it
    stores is that of the last program of its kind (the first for the data),
    the 2 MB mode is on exactly when some program in memory has 2 MB or more,
    every header passed the checks of its type, the mapping is page aligned
    and covers every program in memory, the tables are loaded exactly for a
    dynamic image, and PT_SCE_RELRO starts where the code ends and ends where
    the data starts, up to alignment. *)
Theorem image_layout {I} {HI : Image I} (bytes : I -> list Z) (pos : I -> Z) (HO : ImageOk I bytes pos) name i i' e :
  open name i = (i', Ok e) ->
  described e /\ Forall accepted (programs e)
  /\ page_aligned (fst (mapping e)) /\ page_aligned (snd (mapping e))
  /\ Forall (fun p => mappable p = true ->
       fst (mapping e) <= addr p /\ addr p + memory_size p <= snd (mapping e)) (programs e)
  /\ (is_Some (dynamic e) <-> is_Some (info e))
  /\ relro_between e.
Proof.
  intros H. destruct (open_Ok bytes pos name i i' e H) as (i1 & sd & t & en & d & e1 & Hb & Hl & Hi & Hr).
  unfold load_programs in Hl. apply bind_Ok in Hl as (e2 & H2 & Hl). apply bind_Ok in Hl as (u & Hu & Hl).
  injection Hl as ->. apply fail_if_Ok in Hu. bool_to_prop.
  assert (Forall sized (program_header <$> chunks_exact 0x38 d)) as Hs.
  { apply Forall_fmap. eapply Forall_impl; [by apply chunks_exact_bytes|]. apply program_header_sized. }
  apply programs_described in H2 as (Hd & Hp & Ha & _ & _ & _ & _ & Hni);
    [|apply elf_new_described|done|done]. cbn in Hni. rewrite <-Hp in Hs, Ha.
  assert (described e /\ programs e = programs e1 /\ mapping e = mapping e1 /\ (is_Some (dynamic e) <-> is_Some (info e)))
    as (Hde & Hpe & Hme & Hie).
  { apply load_info_Ok in Hi as [[Hn ->]|[Hn [fi ->]]].
    - split; [done|]. split; [done|]. split; [done|]. rewrite Hn, Hni. done.
    - split; [by apply set_info_described|]. split; [done|]. split; [done|]. cbn. split; [by eexists|done]. }
  rewrite <-Hpe in Ha, Hs. destruct (mapping_aligned e Hde Ha) as [Hal1 Hal2]; [by rewrite Hme|].
  do 4 (split; [done|]). split; [|split; [done|by apply check_relro_Ok]].
  apply Forall_forall. intros p Hin Hm. rewrite Forall_forall in Hs. by apply mapping_covers; [| | |apply Hs].
Qed.

(** ** Files in memory *)

(** [std::io::Cursor]. *)
Record cursor := Cursor { c_data : list Z; c_pos : Z }.
Definition c_bytes (c : cursor) : list Z := (fun b => b mod 256) <$> c_data c.
#[export] Instance cursor_image : Image cursor := {|
  seek p c := (Cursor (c_data c) p, inr p);
  read_exact n c :=
    if c_pos c + n <=? Z.of_nat (length (c_data c))
    then (Cursor (c_data c) (c_pos c + n), inr (slice (c_bytes c) (c_pos c) n))
    else (Cursor (c_data c) (Z.of_nat (length (c_data c))), inl Kernel.UnexpectedEof);
  stream_position c := (c, inr (c_pos c))
|}.
#[export] Instance cursor_ok : ImageOk cursor c_bytes c_pos.
Proof.
  constructor.
  - intros c. apply Forall_fmap, Forall_forall. intros b _. apply Z.mod_pos_bound. done.
  - intros p c c' r [= <- <-]. split; [done|]. by intros v [= ->].
  - intros n c c' r H. cbn in H. destruct (Z.leb_spec (c_pos c + n) (Z.of_nat (length (c_data c)))) as [Hl|Hl];
      injection H as <- <-; (split; [done|]); [|done]. intros b [= <-]. split; [done|]. split; [|done].
    unfold c_bytes. by rewrite length_fmap.
  - intros c c' r [= <- <-]. split; [done|]. by intros v [= <-].
Qed.

Lemma c_bytes_u8 l p : Forall is_byte l -> c_bytes (Cursor l p) = l.
Proof.
  unfold c_bytes, is_byte. cbn. induction 1 as [|b l Hb _ IH]; [done|]. cbn. by rewrite IH, Z.mod_small.
Qed.

(** ** Writing images *)

Definition program_bytes (p : Program) : list Z :=
  le_bytes 4 (program_type_code (ty p)) ++ le_bytes 4 (flags p) ++ le_bytes 8 (offset p) ++ le_bytes 8 (addr p)
  ++ replicate 8 0 ++ le_bytes 8 (file_size p) ++ le_bytes 8 (memory_size p) ++ le_bytes 8 (alignment p).
Definition header_bytes (t entry phnum : Z) : list Z :=
  [0x7f; 0x45; 0x4c; 0x46; 2; 1] ++ replicate 10 0 ++ le_bytes 2 t ++ replicate 6 0 ++ le_bytes 8 entry
  ++ replicate 22 0 ++ le_bytes 2 0x38 ++ le_bytes 2 phnum ++ replicate 6 0.
(** An ELF file: the header, the program headers, and [rest]. *)
Definition elf_bytes (t entry : Z) (progs : list Program) (rest : list Z) : list Z :=
  header_bytes t entry (Z.of_nat (length progs)) ++ concat (program_bytes <$> progs) ++ rest.
(** A SELF file is an ELF file behind the headers of its segments. *)
Definition segment_bytes (s : SelfSegment) : list Z :=
  le_bytes 8 (sg_flags s) ++ le_bytes 8 (sg_offset s) ++ le_bytes 8 (compressed_size s) ++ le_bytes 8 (decompressed_size s).
Definition self_bytes (segs : list SelfSegment) (elf : list Z) : list Z :=
  SELF_MAGIC ++ replicate 16 0 ++ le_bytes 2 (Z.of_nat (length segs)) ++ le_bytes 2 0x22 ++ replicate 4 0
  ++ concat (segment_bytes <$> segs) ++ elf.

Definition u (n : Z) (z : Z) : Prop := 0 <= z < 256 ^ n.
Definition program_range (p : Program) : Prop :=
  program_type (program_type_code (ty p)) = ty p /\ u 4 (program_type_code (ty p)) /\ u 4 (flags p)
  /\ u 8 (offset p) /\ u 8 (addr p) /\ u 8 (file_size p) /\ u 8 (memory_size p) /\ u 8 (alignment p).
Definition segment_range (s : SelfSegment) : Prop :=
  u 8 (sg_flags s) /\ u 8 (sg_offset s) /\ u 8 (compressed_size s) /\ u 8 (decompressed_size s).

(** Fields of bytes that are written one after the other. *)
Lemma field_skip a l off n : Z.of_nat (length a) <= off -> field (a ++ l) off n = field l (off - Z.of_nat (length a)) n.
Proof.
  intros H. unfold field, slice. rewrite drop_app_ge by lia. do 3 f_equal. lia.
Qed.
Lemma field_head n m v b off : off = 0 -> m = Z.of_nat n -> u m v -> field (le_bytes n v ++ b) off m = v.
Proof.
  intros -> -> Hv. unfold field, slice. rewrite Nat2Z.id. change (Z.to_nat 0) with 0%nat. rewrite drop_0.
  rewrite take_app_length' by (by rewrite length_le_bytes). by apply le_value_bytes.
Qed.
Lemma field_last n m v off : off = 0 -> m = Z.of_nat n -> u m v -> field (le_bytes n v) off m = v.
Proof. intros. rewrite <-(app_nil_r (le_bytes n v)). by apply field_head. Qed.
Ltac lengths := rewrite ?length_app, ?length_le_bytes, ?length_replicate; cbn [length]; lia.
Ltac read_field :=
  repeat (rewrite field_skip by lengths); first [rewrite field_head by (done || lengths)|rewrite field_last by (done || lengths)]; done.

Lemma length_program_bytes p : length (program_bytes p) = 0x38%nat.
Proof. unfold program_bytes. by rewrite !length_app, !length_le_bytes, length_replicate. Qed.
Lemma length_header_bytes t en n : length (header_bytes t en n) = 64%nat.
Proof. unfold header_bytes. by rewrite !length_app, !length_le_bytes, !length_replicate. Qed.
Lemma length_segment_bytes s : length (segment_bytes s) = 32%nat.
Proof. unfold segment_bytes. by rewrite !length_app, !length_le_bytes. Qed.

Lemma program_header_bytes p : program_range p -> program_header (program_bytes p) = p.
Proof.
  intros (Hc & H1 & H2 & H3 & H4 & H5 & H6 & H7). destruct p as [t f o a fs ms al].
  cbn [ty flags offset addr file_size memory_size alignment] in *.
  unfold program_header. f_equal; unfold program_bytes; cbn [ty flags offset addr file_size memory_size alignment].
  - rewrite field_head; [exact Hc|done|done|exact H1].
  - read_field.
  - read_field.
  - read_field.
  - read_field.
  - read_field.
  - read_field.
Qed.

Lemma segment_fields h s :
  segment_range s -> h = segment_bytes s -> MkSegment (field h 0 8) (field h 8 8) (field h 16 8) (field h 24 8) = s.
Proof.
  intros (H1 & H2 & H3 & H4) ->. destruct s as [f o c d]. unfold segment_bytes.
  cbn [sg_flags sg_offset compressed_size decompressed_size] in *. f_equal; [by rewrite field_head| | |]; read_field.
Qed.

Lemma header_fields t en n :
  u 2 t -> u 8 en -> u 2 n ->
  let h := header_bytes t en n in
  check_header h = Ok tt /\ field h 0x10 2 = t /\ field h 0x18 8 = en /\ field h 0x38 2 = n
  /\ starts_with h SELF_MAGIC = false.
Proof.
  intros Ht He Hn h. subst h. split_and!; try (unfold header_bytes; read_field); [|done].
  unfold check_header. replace (field (header_bytes t en n) 0x36 2) with 0x38; [done|].
  symmetry. unfold header_bytes. read_field.
Qed.

(** Reading [c] from the middle of a file. *)
Lemma read_at a c b p n :
  Forall is_byte (a ++ c ++ b) -> p = Z.of_nat (length a) -> n = Z.of_nat (length c) ->
  read_exact n (Cursor (a ++ c ++ b) p) = (Cursor (a ++ c ++ b) (p + n), inr c).
Proof.
  intros Hu -> ->. cbn -[c_bytes]. rewrite (proj2 (Z.leb_le _ _)) by (rewrite !length_app; lia).
  rewrite c_bytes_u8 by done. unfold slice. rewrite !Nat2Z.id, drop_app_length, take_app_length. done.
Qed.

Lemma read_at_start c b n :
  Forall is_byte (c ++ b) -> n = Z.of_nat (length c) ->
  read_exact n (Cursor (c ++ b) 0) = (Cursor (c ++ b) n, inr c).
Proof. intros Hb Hn. apply (read_at [] c b 0 n); done. Qed.

Lemma read_segments_at segs : forall a b i p,
  Forall segment_range segs -> Forall is_byte (a ++ concat (segment_bytes <$> segs) ++ b) -> p = Z.of_nat (length a) ->
  read_segments i (length segs) (Cursor (a ++ concat (segment_bytes <$> segs) ++ b) p)
  = (Cursor (a ++ concat (segment_bytes <$> segs) ++ b) (p + Z.of_nat (length (concat (segment_bytes <$> segs)))), Ok segs).
Proof.
  induction segs as [|s segs IH]; intros a b i p Hr Hu ->; cbn [fmap list_fmap concat length read_segments].
  - cbn [length Z.of_nat]. by rewrite Z.add_0_r.
  - apply Forall_cons in Hr as [Hs Hr]. cbn [fmap list_fmap concat] in Hu. rewrite <-app_assoc in Hu.
    unfold mbind at 1, io_bind at 1, call at 1. rewrite <-(app_assoc (segment_bytes s)).
    rewrite read_at by (done || by rewrite length_segment_bytes).
    assert (forall x : list Z, a ++ segment_bytes s ++ x = (a ++ segment_bytes s) ++ x) as Ha by (intros x; apply app_assoc).
    rewrite Ha. unfold mbind at 1, io_bind at 1. rewrite IH; [|done|by rewrite <-Ha|rewrite length_app, length_segment_bytes; lia].
    unfold mret, io_ret. rewrite (segment_fields (segment_bytes s) s) by done. f_equal. f_equal.
    change (list_fmap _ _ segment_bytes segs) with (segment_bytes <$> segs).
    rewrite length_app, length_segment_bytes. lia.
Qed.

(** What [open] does after it read the headers. *)
Definition load_image (name : str) (sd : option (list SelfSegment)) (t entry : Z) (progs : list Program)
    : io cursor OpenError Elf :=
  e ← lift (foldM load_program (elf_new name sd (file_type t) entry) (enumerate progs));
  _ ← lift (fail_if ((fst (mapping e) =? u64_max) || (snd (mapping e) =? 0)) NoMappableProgram);
  e ← load_info e;
  _ ← lift (check_relro e);
  mret e.

Section written.
Context (t entry : Z) (progs : list Program) (rest : list Z).
Context (Ht : u 2 t) (He : u 8 entry) (Hn : u 2 (Z.of_nat (length progs))) (Hp : Forall program_range progs).
Context (Hrest : Forall is_byte rest).

Lemma header_is_bytes n : Forall is_byte (header_bytes t entry n).
Proof.
  unfold header_bytes. repeat (apply Forall_app; split); try apply le_bytes_is_byte; try (apply Forall_replicate; unfold is_byte; lia).
  repeat (constructor; [unfold is_byte; lia|]). constructor.
Qed.
Lemma concat_is_bytes {A} (f : A -> list Z) l : (forall a, Forall is_byte (f a)) -> Forall is_byte (concat (f <$> l)).
Proof. intros Hf. induction l as [|a l IH]; cbn; [constructor|]. apply Forall_app. done. Qed.
Lemma elf_is_bytes : Forall is_byte (elf_bytes t entry progs rest).
Proof.
  apply Forall_app; split; [apply header_is_bytes|]. apply Forall_app; split; [|done]. apply concat_is_bytes.
  intros p. unfold program_bytes.
  repeat (apply Forall_app; split); try apply le_bytes_is_byte; try (apply Forall_replicate; unfold is_byte; lia).
Qed.

Lemma length_headers : Z.of_nat (length (concat (program_bytes <$> progs))) = Z.of_nat (length progs) * 0x38.
Proof.
  clear. induction progs as [|p l IH]; cbn [fmap list_fmap concat length]; [done|].
  rewrite length_app, length_program_bytes.
  change (list_fmap _ _ program_bytes l) with (program_bytes <$> l). lia.
Qed.

Lemma headers_read : program_header <$> chunks_exact 0x38 (concat (program_bytes <$> progs)) = progs.
Proof.
  rewrite chunks_exact_concat; [|lia|].
  - clear -Hp. induction progs as [|p l IH]; [done|]. apply Forall_cons in Hp as [H Hl].
    rewrite !fmap_cons, program_header_bytes by done. f_equal. by apply IH.
  - apply Forall_fmap, Forall_forall. intros p _. apply length_program_bytes.
Qed.

(** The rest of [open], with the ELF file after [a]. *)
Lemma open_after name sd a :
  Forall is_byte a -> Z.of_nat (length a) + 0x40 < 2 ^ 64 ->
  let file := a ++ elf_bytes t entry progs rest in
  forall c, read_header c = (Cursor file (Z.of_nat (length a) + 0x40),
      Ok (header_bytes t entry (Z.of_nat (length progs)), Z.of_nat (length a), sd)) ->
  open name c
  = load_image name sd t entry progs (Cursor file (Z.of_nat (length a) + 0x40 + Z.of_nat (length progs) * 0x38)).
Proof.
  intros Ha Hl file c Hc. unfold open. unfold mbind at 1, io_bind at 1. rewrite Hc.
  destruct (header_fields t entry (Z.of_nat (length progs)) Ht He Hn) as (H1 & H2 & H3 & H4 & _).
  rewrite H1, H2, H3, H4. unfold mbind at 1, io_bind at 1, lift at 1.
  unfold mbind at 1, io_bind at 1, lift at 1, uadd. rewrite (proj2 (Z.ltb_lt _ _)) by done.
  unfold mbind at 1, io_bind at 1, call at 1. cbn [seek cursor_image c_data].
  unfold mbind at 1, io_bind at 1, lift at 1. rewrite Z.eqb_refl. cbn [negb fail_if].
  unfold mbind at 1, io_bind at 1, call at 1.
  assert (file = (a ++ header_bytes t entry (Z.of_nat (length progs))) ++ concat (program_bytes <$> progs) ++ rest) as Hf
    by (unfold file, elf_bytes; by rewrite app_assoc).
  rewrite Hf at 1. rewrite read_at;
    [|rewrite <-Hf; apply Forall_app; split; [done|apply elf_is_bytes]|rewrite length_app, length_header_bytes; lia
     |by rewrite length_headers].
  rewrite <-Hf. unfold load_programs. rewrite headers_read. unfold load_image.
  unfold mbind, io_bind, lift, outcome_bind. destruct (foldM _ _ _) as [e|x|p]; [|done|done].
  by destruct (fail_if _ _).
Qed.
End written.

Lemma program_range_sized p : program_range p -> sized p.
Proof. intros (_ & _ & _ & _ & [? _] & _ & [? _] & _). done. Qed.

Lemma load_image_programs name sd t entry progs c e :
  Forall program_range progs -> snd (load_image name sd t entry progs c) = Ok e ->
  e_name e = name /\ self_data e = sd /\ e_ty e = file_type t /\ entry_addr e = (if entry =? 0 then None else Some entry)
  /\ programs e = progs.
Proof.
  intros Hp H. destruct (load_image name sd t entry progs c) as [c' r] eqn:Hl. cbn in H. subst r.
  unfold load_image in Hl. inv_io.
  match goal with H : foldM _ _ _ = Ok ?x |- _ => rename x into e1; rename H into Hf end.
  apply programs_described in Hf as (_ & Hpr & _ & Hn & Hs & Hty & Hen & _);
    [|apply elf_new_described|done|by eapply Forall_impl; [|apply program_range_sized]].
  match goal with H : load_info _ _ = _ |- _ => apply load_info_Ok in H as [[_ ->]|[_ [fi ->]]] end; done.
Qed.

Lemma read_header_elf t entry progs rest p0 :
  u 2 t -> u 8 entry -> u 2 (Z.of_nat (length progs)) -> Forall is_byte rest ->
  read_header (Cursor (elf_bytes t entry progs rest) p0)
  = (Cursor (elf_bytes t entry progs rest) 0x40, Ok (header_bytes t entry (Z.of_nat (length progs)), 0, None)).
Proof.
  intros Ht He Hn Hr. destruct (header_fields t entry (Z.of_nat (length progs)) Ht He Hn) as (_ & _ & _ & _ & H5).
  unfold read_header. unfold mbind at 1, io_bind at 1, call at 1. cbn [seek cursor_image c_data].
  unfold mbind at 1, io_bind at 1, call at 1.
  pose proof (elf_is_bytes t entry progs rest Hr) as Hb. unfold elf_bytes in *.
  rewrite read_at_start; [|done|by rewrite length_header_bytes].
  rewrite H5. done.
Qed.

Lemma self_is_bytes segs elf : Forall is_byte elf -> Forall is_byte (self_bytes segs elf).
Proof.
  intros He. unfold self_bytes.
  repeat (apply Forall_app; split); try apply le_bytes_is_byte; try (apply Forall_replicate; unfold is_byte; lia); [| |done].
  - repeat (constructor; [unfold is_byte; lia|]). constructor.
  - apply concat_is_bytes. intros s. unfold segment_bytes. repeat (apply Forall_app; split); apply le_bytes_is_byte.
Qed.

(** The first 32 bytes of a SELF file. *)
Definition self_header (n : Z) : list Z :=
  SELF_MAGIC ++ replicate 16 0 ++ le_bytes 2 n ++ le_bytes 2 0x22 ++ replicate 4 0.
Lemma self_bytes_eq segs elf :
  self_bytes segs elf = self_header (Z.of_nat (length segs)) ++ concat (segment_bytes <$> segs) ++ elf.
Proof. unfold self_bytes, self_header. by rewrite <-!app_assoc. Qed.
Lemma length_self_header n : length (self_header n) = 32%nat.
Proof. unfold self_header. by rewrite !length_app, !length_le_bytes, !length_replicate. Qed.
Lemma self_header_fields n x :
  u 2 n -> let h := self_header n ++ x in
  field h 0x18 2 = n /\ field h 0x1a 2 = 0x22 /\ starts_with h SELF_MAGIC = true.
Proof.
  intros Hn h. subst h. unfold self_header. change SELF_MAGIC with [0x4f; 0x15; 0x3d; 0x1d; 0x00; 0x01; 0x01; 0x12]. rewrite <-!app_assoc.
  split; [read_field|]. split; [read_field|done].
Qed.

Lemma length_segments segs : Z.of_nat (length (concat (segment_bytes <$> segs))) = 32 * Z.of_nat (length segs).
Proof.
  induction segs as [|s l IH]; [done|]. rewrite fmap_cons. cbn [concat length].
  rewrite length_app, length_segment_bytes. lia.
Qed.

Lemma read_header_self t entry progs rest segs p0 :
  let elf := elf_bytes t entry progs rest in
  let file := self_bytes segs elf in
  Forall is_byte rest -> u 2 (Z.of_nat (length segs)) -> Forall segment_range segs ->
  read_header (Cursor file p0)
  = (Cursor file (32 + 32 * Z.of_nat (length segs) + 0x40),
     Ok (header_bytes t entry (Z.of_nat (length progs)), 32 + 32 * Z.of_nat (length segs), Some segs)).
Proof.
  intros elf file Hr Hn Hs. pose proof (elf_is_bytes t entry progs rest Hr) as Hb.
  pose proof (self_is_bytes segs elf Hb) as Hfb. fold file in Hfb.
  set (more := concat (segment_bytes <$> segs) ++ elf).
  assert (file = self_header (Z.of_nat (length segs)) ++ more) as Hf by apply self_bytes_eq.
  destruct (self_header_fields (Z.of_nat (length segs)) (take 32 more) Hn) as (H1 & H2 & H3).
  unfold read_header. unfold mbind at 1, io_bind at 1, call at 1. cbn [seek cursor_image c_data].
  unfold mbind at 1, io_bind at 1, call at 1.
  assert (32 <= length more)%nat as Hm.
  { unfold more, elf, elf_bytes. rewrite !length_app, length_header_bytes. lia. }
  assert (file = (self_header (Z.of_nat (length segs)) ++ take 32 more) ++ drop 32 more) as Hf'.
  { rewrite <-app_assoc, take_drop. exact Hf. }
  rewrite Hf' at 1. rewrite read_at_start;
    [|by rewrite <-Hf'|rewrite length_app, length_self_header, length_take; lia].
  rewrite <-Hf', H3, H2, H1. unfold mbind at 1, io_bind at 1, lift at 1. cbn [Z.eqb Pos.eqb negb fail_if].
  unfold mbind at 1, io_bind at 1, call at 1. cbn [seek cursor_image c_data].
  unfold mbind at 1, io_bind at 1. rewrite Nat2Z.id, Hf. unfold more.
  rewrite read_segments_at; [|done|unfold more in Hf; by rewrite <-Hf|by rewrite length_self_header].
  unfold mbind at 1, io_bind at 1, call at 1. cbn [stream_position cursor_image c_pos].
  rewrite length_segments. unfold mbind at 1, io_bind at 1, call at 1. unfold elf, elf_bytes.
  rewrite (app_assoc (self_header _)). rewrite read_at; [done| | |by rewrite length_header_bytes].
  - rewrite <-app_assoc. fold (elf_bytes t entry progs rest). fold elf. unfold more in Hf. by rewrite <-Hf.
  - rewrite length_app, length_self_header. pose proof (length_segments segs). lia.
Qed.

(** C33: Reading back what was written.  [open] of an ELF file with the given
    program headers does what the code does with exactly these programs,
    whatever follows the headers, and so does [open] of the SELF file with
    the same ELF file behind its segments, with those segments; where it
    succeeds, the image has the type, the entry point and the programs that
    were written. *)
Theorem image_roundtrip name t entry progs rest segs p0 :
  u 2 t -> u 8 entry -> u 2 (Z.of_nat (length progs)) -> Forall program_range progs -> Forall is_byte rest ->
  u 2 (Z.of_nat (length segs)) -> Forall segment_range segs ->
  let elf := elf_bytes t entry progs rest in
  let size := 0x40 + Z.of_nat (length progs) * 0x38 in
  open name (Cursor elf p0) = load_image name None t entry progs (Cursor elf size)
  /\ open name (Cursor (self_bytes segs elf) p0)
     = load_image name (Some segs) t entry progs
         (Cursor (self_bytes segs elf) (32 + 32 * Z.of_nat (length segs) + size))
  /\ forall c sd e, snd (load_image name sd t entry progs c) = Ok e ->
       e_name e = name /\ self_data e = sd /\ e_ty e = file_type t
       /\ entry_addr e = (if entry =? 0 then None else Some entry) /\ programs e = progs.
Proof.
  intros Ht He Hn Hp Hr Hsn Hs elf size. split; [|split].
  - pose proof (open_after t entry progs rest Ht He Hn Hp Hr name None []) as Ho.
    cbv zeta in Ho. fold elf in Ho. cbn [app length Z.of_nat] in Ho. rewrite !Z.add_0_l in Ho.
    apply Ho; [constructor|done|by apply read_header_elf].
  - assert (self_bytes segs elf = (self_header (Z.of_nat (length segs)) ++ concat (segment_bytes <$> segs)) ++ elf) as Hf
      by (rewrite self_bytes_eq; apply app_assoc).
    assert (Z.of_nat (length (self_header (Z.of_nat (length segs)) ++ concat (segment_bytes <$> segs)))
            = 32 + 32 * Z.of_nat (length segs)) as Hl.
    { rewrite length_app, length_self_header. pose proof (length_segments segs). lia. }
    pose proof (open_after t entry progs rest Ht He Hn Hp Hr name (Some segs)
               (self_header (Z.of_nat (length segs)) ++ concat (segment_bytes <$> segs))) as Ho.
    cbv zeta in Ho. fold elf in Ho. rewrite <-Hf, Hl in Ho.
    unfold size. rewrite Z.add_assoc. apply Ho.
    + pose proof (self_is_bytes segs [] (Forall_nil_2 _)) as Hb. rewrite self_bytes_eq, app_nil_r in Hb. done.
    + unfold u in Hsn. lia.
    + apply read_header_self; done.
  - intros c sd e. by apply load_image_programs.
Qed.

(** ** [read_program] *)

(** Where the bytes of a program are in the file. *)
Definition data_at (e : Elf) (p : Program) (off : Z) : Prop :=
  match self_data e with
  | None => off = offset p
  | Some segs =>
      exists seg prog, seg ∈ segs /\ contains (sg_flags seg) SF_BFLG = true /\ contains (sg_flags seg) SF_ENCR = false
        /\ programs e !! sg_program (sg_flags seg) = Some prog
        /\ offset prog <= offset p /\ offset p - offset prog + file_size p <= file_size prog
        /\ off = offset p - offset prog + sg_offset seg
  end.

Lemma find_segment_Ok progs off len i segs r :
  find_segment progs off len i segs = Ok r ->
  exists seg prog, seg ∈ segs /\ contains (sg_flags seg) SF_BFLG = true /\ contains (sg_flags seg) SF_ENCR = false
    /\ progs !! sg_program (sg_flags seg) = Some prog
    /\ offset prog <= off /\ off - offset prog + len <= file_size prog /\ r = off - offset prog + sg_offset seg.
Proof.
  revert i. induction segs as [|seg segs IH]; intros i H; cbn [find_segment] in H; [done|].
  assert (forall j, find_segment progs off len j segs = Ok r ->
    exists seg0 prog, seg0 ∈ seg :: segs /\ contains (sg_flags seg0) SF_BFLG = true
      /\ contains (sg_flags seg0) SF_ENCR = false /\ progs !! sg_program (sg_flags seg0) = Some prog
      /\ offset prog <= off /\ off - offset prog + len <= file_size prog /\ r = off - offset prog + sg_offset seg0) as Hnext.
  { intros j Hj. apply IH in Hj as (s & q & Hin & Hrest). exists s, q. split; [by apply list_elem_of_further|done]. }
  destruct (contains (sg_flags seg) SF_BFLG) eqn:Hb; cbn [negb] in H; [|by eapply Hnext].
  apply bind_Ok in H as (prog & Hp & H). apply unwrap_or_panic_Ok in Hp.
  apply bind_Ok in H as (ins & Hi & H). destruct ins; [|by eapply Hnext]. clear Hnext IH.
  destruct (Z.leb_spec (offset prog) off) as [Hle|]; [|done].
  exists seg, prog. split; [apply list_elem_of_here|]. split; [done|].
  apply bind_Ok in H as (u1 & H1 & H). apply fail_if_Ok in H1. split; [done|]. split; [done|]. split; [done|].
  apply bind_Ok in H as (u2 & _ & H). apply bind_Ok in H as (u3 & H3 & H). apply panic_if_Ok, negb_false_iff, Z.eqb_eq in H3.
  apply bind_Ok in H as (en & He & H). apply uadd_Ok in He as [-> _]. apply bind_Ok in H as (u4 & H4 & H).
  apply panic_if_Ok, Z.ltb_ge in H4. apply uadd_Ok in H as [-> _]. split; [lia|done].
Qed.

Section read.
Context {I : Type} {HI : Image I} (bytes : I -> list Z) (pos : I -> Z) {HO : ImageOk I bytes pos}.

(** What [read_program] reads. *)
Lemma read_program_Ok e k buf i i' b :
  read_program e k buf i = (i', Ok b) ->
  exists p off, programs e !! k = Some p /\ data_at e p off
    /\ off + file_size p <= Z.of_nat (length (bytes i)) /\ file_size p <= Z.of_nat (length buf)
    /\ b = overwrite buf 0 (slice (bytes i) off (file_size p)).
Proof.
  unfold read_program. intros H. inv_io. inv_ok. bool_to_prop.
  match goal with H : seek ?o _ = (_, inr ?v) |- _ => rename o into off; pose proof H as Hseek; apply seek_ok in H as [Hs1 Hs2] end.
  match goal with H : read_exact _ _ = (_, inr ?v) |- _ => rename v into d; apply read_ok in H as [_ Hr] end.
  destruct (Hs2 _ eq_refl) as [_ Hpos]. destruct (Hr d eq_refl) as (Hd & Hlen & _). rewrite Hs1, Hpos in *.
  match goal with H : programs e !! k = Some ?x |- _ => rename x into p end.
  exists p, off. split; [done|]. split; [|subst d; done]. unfold data_at.
  match goal with H : match self_data e with _ => _ end = Ok _ |- _ => rename H into Ho end.
  destruct (self_data e) as [segs|]; [|by injection Ho].
  unfold get_self_program in Ho. by apply find_segment_Ok in Ho.
Qed.
End read.

(** A program is read from a SELF file as from the ELF file that its blocks
    hold. *)
Theorem self_reads_like_elf {I} {HI : Image I} (bytes : I -> list Z) (pos : I -> Z) (HO : ImageOk I bytes pos)
    e e' segs k buf i i' j j' b b' :
  self_data e = None -> self_data e' = Some segs -> programs e' = programs e ->
  Forall program_range (programs e) -> Forall segment_range segs ->
  (forall seg prog, seg ∈ segs -> contains (sg_flags seg) SF_BFLG = true ->
     programs e !! sg_program (sg_flags seg) = Some prog ->
     slice (bytes j) (sg_offset seg) (file_size prog) = slice (bytes i) (offset prog) (file_size prog)) ->
  read_program e k buf i = (i', Ok b) -> read_program e' k buf j = (j', Ok b') -> b' = b.
Proof.
  intros He He' Hpr Hrange Hsr Hblocks H H'.
  apply (read_program_Ok bytes pos) in H as (p & off & Hp & Hat & _ & _ & ->).
  apply (read_program_Ok bytes pos) in H' as (p' & off' & Hp' & Hat' & _ & _ & ->).
  rewrite Hpr, Hp in Hp'. injection Hp' as <-. unfold data_at in Hat, Hat'. rewrite He in Hat. rewrite He', Hpr in Hat'.
  subst off. destruct Hat' as (seg & prog & Hin & Hb & _ & Hprog & Hle & Hfit & ->). f_equal.
  specialize (Hblocks seg prog Hin Hb Hprog). rewrite Forall_forall in Hsr. apply Hsr in Hin as (_ & [Hso _] & _).
  rewrite Forall_lookup in Hrange.
  destruct (Hrange _ _ Hp) as (_ & _ & _ & [Ho _] & _ & [Hfs _] & _).
  destruct (Hrange _ _ Hprog) as (_ & _ & _ & [Hpo _] & _).
  apply (f_equal (fun l => slice l (offset p - offset prog) (file_size p))) in Hblocks.
  rewrite !slice_slice in Hblocks by lia.
  replace (offset p - offset prog + sg_offset seg) with (sg_offset seg + (offset p - offset prog)) by lia.
  rewrite Hblocks. f_equal. lia.
Qed.

(** ** Examples *)

(** A module with code, data that is relocated, and data. *)
Definition demo_programs : list Program :=
  [MkProgram PT_LOAD 5 0x4000 0 0x10 0x10 0x4000;
   MkProgram PT_SCE_RELRO 4 0x8000 0x4000 0x10 0x20 0x4000;
   MkProgram PT_LOAD 6 0xc000 0x8000 0x10 0x200000 0x4000].
Definition demo_file : list Z := elf_bytes 0xfe18 0x40 demo_programs [].

Lemma image_layout_witness :
  exists c e, open [] (Cursor demo_file 0) = (c, Ok e) /\ mapping e = (0, 0x208000) /\ described e.
Proof.
  eexists _, _. split; [vm_compute; reflexivity|]. split; [reflexivity|].
  eapply (image_layout c_bytes c_pos cursor_ok [] (Cursor demo_file 0)). vm_compute. reflexivity.
Defined.

Lemma demo_range : Forall program_range demo_programs.
Proof. repeat constructor; vm_compute; congruence. Qed.

Lemma image_roundtrip_witness :
  open [] (Cursor (elf_bytes 0xfe18 0x40 demo_programs []) 7)
  = load_image [] None 0xfe18 0x40 demo_programs
      (Cursor (elf_bytes 0xfe18 0x40 demo_programs []) (0x40 + Z.of_nat (length demo_programs) * 0x38)).
Proof.
  refine (proj1 (image_roundtrip [] 0xfe18 0x40 demo_programs [] [] 7 _ _ _ demo_range _ _ _));
    try (split; [lia|reflexivity]); constructor.
Defined.
