(* ===== verification/Module.v ===== *)
(** * Modules in memory

    Models [legacy/src/rtld/mem.rs], the memory of a loaded module, and
    [legacy/src/rtld/module.rs], which maps an image into it and reads its
    dynamic entries.  The address space is that of VmSpace.v, the image that
    of Orbis.v.  The state after an error is not kept: the callers give up. *)
From stdpp Require Import sorting.
From S2P Require Import Prelude Env VPath Kernel VmSpace Orbis.

Module Module_.
Import Env Orbis.
Local Open Scope list_scope.
Local Open Scope Z_scope.
Notation intersects := VmSpace.intersects.
Notation CPU_READ := VmSpace.CPU_READ.
Notation CPU_WRITE := VmSpace.CPU_WRITE.
Notation CPU_EXEC := VmSpace.CPU_EXEC.

(** ** Memory ([mem.rs]) *)

Record MemorySegment := MkSeg { ms_start : Z; ms_len : Z; ms_program : option nat; ms_prot : Z }.
Definition ms_end {E} (s : MemorySegment) : outcome E Z := uadd (ms_start s) (ms_len s).

(** [Memory], with the bytes at [ptr]. *)
Record Memory := MkMemory {
  mm_ptr : Z;
  mm_len : Z;
  mm_segments : list MemorySegment;
  mm_base : Z;
  mm_text : nat;
  mm_data : nat;
  mm_relro : option nat;
  mm_obcode : nat;
  mm_obcode_sealed : Z;
  mm_obdata : nat;
  mm_obdata_sealed : Z;
  mm_bytes : list Z
}.
Definition set_bytes (b : list Z) (m : Memory) : Memory :=
  MkMemory (mm_ptr m) (mm_len m) (mm_segments m) (mm_base m) (mm_text m) (mm_data m) (mm_relro m) (mm_obcode m)
    (mm_obcode_sealed m) (mm_obdata m) (mm_obdata_sealed m) b.
Definition set_sealed (code data : Z) (m : Memory) : Memory :=
  MkMemory (mm_ptr m) (mm_len m) (mm_segments m) (mm_base m) (mm_text m) (mm_data m) (mm_relro m) (mm_obcode m)
    code (mm_obdata m) data (mm_bytes m).

Inductive UnprotectError := MprotectFailed (addr len prot : Z) (e : VmSpace.MemoryUpdateError).
Inductive MapError :=
  | MultipleExecProgram | MultipleDataProgram | MultipleRelroProgram | InvalidProgramAlignment (i : nat)
  | MemoryAllocationFailed (n : Z) (e : VmSpace.MmapError)
  | ProtectMemoryFailed (addr len prot : Z) (e : VmSpace.MemoryUpdateError)
  | UnprotectSegmentFailed (i : nat) (e : UnprotectError)
  | ReadProgramFailed (p : nat) (e : ReadProgramError)
  | UnprotectMemoryFailed (e : UnprotectError)
  | ReadSymbolFailed (i : nat) (e : ReadSymbolError)
  | ReadNeededFailed (i : nat) (e : StringTableError)
  | ReadNameFailed (i : nat) (e : StringTableError)
  | ObsoleteFlags (f : Z)
  | ReadModuleInfoFailed (i : nat) (e : NameError)
  | ReadLibraryInfoFailed (i : nat) (e : NameError).

(** The local variables of [Memory::new]. *)
Record layout := MkLayout {
  la_segments : list MemorySegment;
  la_text : option nat;
  la_relro : option nat;
  la_data : option nat
}.

(** The protection of a segment. *)
Definition segment_prot (fl : Z) : Z :=
  let prot := 0 in
  let prot := if contains fl EXECUTE then Z.lor prot CPU_EXEC else prot in
  let prot := if contains fl READ then Z.lor prot CPU_READ else prot in
  if contains fl WRITE then Z.lor prot CPU_WRITE else prot.

(** The body of the loop over the programs. *)
Definition add_segment (base : Z) (st : layout) (ip : nat * Program) : outcome MapError layout :=
  let '(i, prog) := ip in
  let '(MkLayout segs text relro data) := st in
  if memory_size prog =? 0 then Ok st
  else
    r ← match ty prog with
        | PT_LOAD =>
            if contains (flags prog) EXECUTE then
              fail_if (bool_decide (is_Some text)) MultipleExecProgram;;
              Ok (Some (Some (length segs), relro, data))
            else
              fail_if (bool_decide (is_Some data)) MultipleDataProgram;;
              Ok (Some (text, relro, Some (length segs)))
        | PT_SCE_RELRO =>
            fail_if (bool_decide (is_Some relro)) MultipleRelroProgram;;
            Ok (Some (text, Some (length segs), data))
        | _ => Ok None
        end;
    match r with
    | None => Ok st
    | Some (text, relro, data) =>
        start ← uadd base (addr prog);
        len ← aligned_size prog;
        fail_if (negb (Z.land start 0x3fff =? 0)) (InvalidProgramAlignment i);;
        Ok (MkLayout (segs ++ [MkSeg start len (Some i) (segment_prot (flags prog))]) text relro data)
    end.

(** [sort_unstable_by_key]; segments with the same start do not get past the
    check that follows. *)
Definition start_le (s1 s2 : MemorySegment) : Prop := ms_start s1 <= ms_start s2.
#[export] Instance start_le_dec : RelDecision start_le.
Proof. intros s1 s2. unfold start_le. apply _. Defined.

(** The end of the segments, which must not overlap. *)
Definition place {E} (len : Z) (s : MemorySegment) : outcome E Z :=
  panic_if (ms_start s <? len) PTodo;; ms_end s.

Section host.
Variable H : VmSpace.Host.

Definition protect_segment (ptr : Z) (vm : VmSpace.t) (seg : MemorySegment) : outcome MapError VmSpace.t :=
  addr ← uadd ptr (ms_start seg);
  map_err (ProtectMemoryFailed addr (ms_len seg) (ms_prot seg)) (VmSpace.mprotect H addr (ms_len seg) (ms_prot seg) vm).

(** [td] is what [mmap] asks of the current thread. *)
Definition memory_new (td : option Z) (progs : list Program) (base : Z) (name : str) (vm : VmSpace.t)
    : outcome MapError (Memory * VmSpace.t) :=
  la ← foldM (add_segment base) (MkLayout [] None None None) (enumerate progs);
  text ← unwrap_or_panic PTodo (la_text la);
  data ← unwrap_or_panic PTodo (la_data la);
  let segments := merge_sort start_le (la_segments la) in
  len ← foldM place base segments;
  let obcode := length segments in
  let segments := segments ++ [MkSeg len (1024 * 1024 * 4) None (Z.lor CPU_READ CPU_EXEC)] in
  len ← uadd len (1024 * 1024 * 4);
  let obdata := length segments in
  let segments := segments ++ [MkSeg len (1024 * 1024) None (Z.lor CPU_READ CPU_WRITE)] in
  len ← uadd len (1024 * 1024);
  match VmSpace.mmap H td 0 len 0 name (Z.lor VmSpace.MAP_ANON VmSpace.MAP_PRIVATE) (-1) 0 vm with
  | (_, Err e) => Err (MemoryAllocationFailed len e)
  | (_, Panic p) => Panic p
  | (vm, Ok pages) =>
      vm ← foldM (protect_segment (VmSpace.ptr pages)) vm segments;
      Ok (MkMemory (VmSpace.ptr pages) len segments base text data (la_relro la) obcode 0 obdata 0
            (replicate (Z.to_nat len) 0), vm)
  end.

Definition text_segment {E} (m : Memory) : outcome E MemorySegment :=
  unwrap_or_panic PIndex (mm_segments m !! mm_text m).
Definition data_segment {E} (m : Memory) : outcome E MemorySegment :=
  unwrap_or_panic PIndex (mm_segments m !! mm_data m).
Definition relro_segment {E} (m : Memory) : outcome E (option MemorySegment) :=
  match mm_relro m with
  | None => Ok None
  | Some i => s ← unwrap_or_panic PIndex (mm_segments m !! i); Ok (Some s)
  end.

(** [unprotect_segment], what [f] does with the bytes, and the drop of the
    [UnprotectedSegment]; an error of [f] is returned after the drop. *)
Definition with_segment {E A} (m : Memory) (i : nat) (err : UnprotectError -> E)
    (f : list Z -> outcome E (list Z * A)) (vm : VmSpace.t) : outcome E (Memory * A * VmSpace.t) :=
  seg ← unwrap_or_panic PIndex (mm_segments m !! i);
  ptr ← uadd (mm_ptr m) (ms_start seg);
  let rw := Z.lor CPU_READ CPU_WRITE in
  vm ← map_err (fun e => err (MprotectFailed ptr (ms_len seg) rw e)) (VmSpace.mprotect H ptr (ms_len seg) rw vm);
  match f (slice (mm_bytes m) (ms_start seg) (ms_len seg)) with
  | Panic p => Panic p
  | r =>
      (* [UnprotectedSegment::drop]. *)
      match VmSpace.mprotect H ptr (ms_len seg) (ms_prot seg) vm with
      | Ok vm => '(b, a) ← r; Ok (set_bytes (overwrite (mm_bytes m) (ms_start seg) b) m, a, vm)
      | _ => Panic PUnwrap
      end
  end.

(** The segments of programs, which come before the others. *)
Fixpoint program_segments (l : list MemorySegment) : list MemorySegment :=
  match l with
  | s :: l => if ms_program s is Some _ then s :: program_segments l else []
  | [] => []
  end.
(** [UnprotectedMemory::drop]. *)
Definition reprotect {E} (ptr : Z) (vm : VmSpace.t) (s : MemorySegment) : outcome E VmSpace.t :=
  addr ← uadd ptr (ms_start s);
  match VmSpace.mprotect H addr (ms_len s) (ms_prot s) vm with Ok vm => Ok vm | _ => Panic PUnwrap end.
(** [unprotect], what [f] does with the bytes of the programs, and the drop
    of the [UnprotectedMemory]. *)
Definition with_memory {E A} (m : Memory) (err : UnprotectError -> E) (f : list Z -> outcome E (list Z * A))
    (vm : VmSpace.t) : outcome E (Memory * A * VmSpace.t) :=
  let progs := program_segments (mm_segments m) in
  end' ← (if last progs is Some s then ms_end s else Ok 0);
  let rw := Z.lor CPU_READ CPU_WRITE in
  vm ← map_err (fun e => err (MprotectFailed (mm_ptr m) end' rw e)) (VmSpace.mprotect H (mm_ptr m) end' rw vm);
  match f (slice (mm_bytes m) 0 end') with
  | Panic p => Panic p
  | r =>
      vm ← foldM (reprotect (mm_ptr m)) vm progs;
      '(b, a) ← r;
      Ok (set_bytes (overwrite (mm_bytes m) 0 b) m, a, vm)
  end.

(** [code_workspace], what [f] does with the address and the bytes of the
    workspace, and [seal] of the number of bytes it returns. *)
Definition code_workspace {E} (m : Memory) (err : UnprotectError -> E)
    (f : Z -> list Z -> outcome E (list Z * Z)) (vm : VmSpace.t) : outcome E (Memory * VmSpace.t) :=
  seg ← unwrap_or_panic PIndex (mm_segments m !! mm_obcode m);
  let sealed := mm_obcode_sealed m in
  '(m, n, vm) ← with_segment m (mm_obcode m) err
    (fun b =>
       ptr ← uadd (mm_ptr m) (ms_start seg);
       ptr ← uadd ptr sealed;
       len ← usub (ms_len seg) sealed;
       '(w, n) ← f ptr (slice b sealed len);
       panic_if (len <? n) (PExplicit "The amount to seal is larger than available space.");;
       Ok (overwrite b sealed w, n)) vm;
  sealed ← uadd sealed n;
  Ok (set_sealed sealed (mm_obdata_sealed m) m, vm).

(** [push_data] of a value of the given size and alignment: where it is. *)
Definition push_data {E} (size align : Z) (m : Memory) : outcome E (option Z * Memory) :=
  seg ← unwrap_or_panic PIndex (mm_segments m !! mm_obdata m);
  off ← uadd (ms_start seg) (mm_obdata_sealed m);
  ptr ← uadd (mm_ptr m) off;
  available ← usub (ms_len seg) (mm_obdata_sealed m);
  let offset := if ptr mod align =? 0 then 0 else align - ptr mod align in
  n ← uadd offset size;
  if available <? n then Ok (None, m)
  else
    ptr ← uadd ptr offset;
    sealed ← uadd (mm_obdata_sealed m) n;
    Ok (Some ptr, set_sealed (mm_obcode_sealed m) sealed m).

(** ** Modules ([module.rs]) *)

Record ModuleTls := MkTls { t_init : Z; t_init_size : Z; t_size : Z; t_align : Z }.
Record ModuleEh := MkEh { eh_header : Z; eh_header_size : Z; eh_frame : Z; eh_frame_size : Z }.

Definition MAINPROG : Z := 0x0001.
Definition TEXT_REL : Z := 0x0002.
Definition TLS_DONE : Z := 0x0008.
Definition DAG_INITED : Z := 0x0040.
Definition IS_SYSTEM : Z := 0x0100.
Definition IS_NEW : Z := 0x0200.
Definition JMPSLOTS_DONE : Z := 0x0800.
Definition NOT_GET_PROC : Z := 0x1000.

(** What a relocation refers to; a module is its place in the table of
    modules. *)
Inductive Relocated := Executable (addr : Z) | Data (md : nat) (addr : Z) | Tls (md : nat) (index : Z).

(** The fields of a module that [digest_dynamic] sets. *)
Record Digest := MkDigest {
  d_init : option Z;
  d_fini : option Z;
  d_flags : Z;
  d_names : list str;
  d_needed : list str;
  d_modules : list ModuleInfo;
  d_libraries : list LibraryInfo;
  d_fingerprint : list Z
}.
(** [Module]; the fields from [md_tls_offset] on are behind locks, and so are
    the flags. *)
Record Module := MkModule {
  md_id : Z;
  md_entry : option Z;
  md_tls_index : Z;
  md_tls_info : option ModuleTls;
  md_eh_info : option ModuleEh;
  md_proc_param : option (Z * Z);
  md_mod_param : option Z;
  md_sdk_ver : Z;
  md_digest : Digest;
  md_file_info : option FileInfo;
  md_path : str;
  md_is_self : bool;
  md_file_type : FileType;
  md_programs : list Program;
  md_symbols : list Symbol;
  md_tls_offset : Z;
  md_dag_static : list nat;
  md_dag_dynamic : list nat;
  md_memory : Memory;
  md_relocated : list (option Relocated);
  md_ref_count : Z
}.

(** [digest_eh]: the loop over the frames, and the function. *)
Fixpoint eh_frames {E} (fuel : nat) (mem : list Z) (next total : Z) : outcome E Z :=
  match fuel with
  | O => Panic PUnreachable
  | S fuel =>
      size ← read_le mem next 4;
      if size =? 0 then uadd total 4
      else
        size ← (if size =? 0xffffffff then n ← uadd next 4; s ← read_le mem n 8; uadd s 12 else uadd size 4);
        next ← uadd next size;
        total ← uadd total size;
        eh_frames fuel mem next total
  end.
Definition digest_eh {E} (mem : list Z) (off len : Z) : outcome E (Z * Z) :=
  e ← uadd off len;
  hdr ← range mem off e;
  frame ← read_le hdr 4 4;
  let frame := to_signed 32 frame in
  assert_that (negb (frame =? 0));;
  kind ← read_le hdr 1 1;
  if kind =? 3 then Panic PTodo
  else if kind =? 27 then
    n ← uadd off 4;
    let first := n + frame in
    panic_if ((first <? 0) || (2 ^ 64 <=? first)) PUnwrap;;
    total ← eh_frames (S (length mem)) mem first 0;
    Ok (first, total)
  else Ok (0, 0).

(** [init_plt]: the body of the loop, and the function. *)
Definition init_slot (base : Z) (mem : list Z) (ic : nat * list Z) : outcome MapError (list Z) :=
  let '(i, c) := ic in
  reloc ← reloc_next c;
  off ← uadd base (r_offset reloc);
  e ← uadd off 8;
  range mem off e;;
  Ok (overwrite mem off (le_bytes 8 (Z.lor (Z.of_nat i) 0xeffffffe00000000))).
Definition init_plt (m : Memory) (base : Z) (info : FileInfo) (vm : VmSpace.t) : outcome MapError (Memory * VmSpace.t) :=
  '(m, _, vm) ← with_memory m UnprotectMemoryFailed
    (fun mem => cs ← plt_relocs info; mem ← foldM (init_slot base) mem (enumerate cs); Ok (mem, tt)) vm;
  Ok (m, vm).

(** The assignments of [digest_dynamic]. *)
Definition digest_needed (info : FileInfo) (i : nat) (value : list Z) (d : Digest) : outcome MapError Digest :=
  name ← map_err (ReadNeededFailed i) (read_str info (le_value value));
  Ok (MkDigest (d_init d) (d_fini d) (d_flags d) (d_names d) (d_needed d ++ [name]) (d_modules d) (d_libraries d)
        (d_fingerprint d)).
Definition digest_init {E} (base : Z) (value : list Z) (d : Digest) : outcome E Digest :=
  a ← uadd base (le_value value);
  Ok (MkDigest (Some a) (d_fini d) (d_flags d) (d_names d) (d_needed d) (d_modules d) (d_libraries d) (d_fingerprint d)).
Definition digest_fini {E} (base : Z) (value : list Z) (d : Digest) : outcome E Digest :=
  a ← uadd base (le_value value);
  Ok (MkDigest (d_init d) (Some a) (d_flags d) (d_names d) (d_needed d) (d_modules d) (d_libraries d) (d_fingerprint d)).
Definition digest_soname (info : FileInfo) (i : nat) (value : list Z) (d : Digest) : outcome MapError Digest :=
  name ← map_err (ReadNameFailed i) (read_str info (le_value value));
  Ok (MkDigest (d_init d) (d_fini d) (d_flags d) (d_names d ++ [name]) (d_needed d) (d_modules d) (d_libraries d)
        (d_fingerprint d)).
Definition set_flags (f : Z) (d : Digest) : Digest :=
  MkDigest (d_init d) (d_fini d) f (d_names d) (d_needed d) (d_modules d) (d_libraries d) (d_fingerprint d).
Definition digest_flags (value : list Z) (d : Digest) : outcome MapError Digest :=
  let flags := le_value value in
  fail_if (contains flags DF_SYMBOLIC) (ObsoleteFlags DF_SYMBOLIC);;
  fail_if (contains flags DF_BIND_NOW) (ObsoleteFlags DF_BIND_NOW);;
  Ok (if contains flags DF_TEXTREL then set_flags (Z.lor (d_flags d) TEXT_REL) d else d).
Definition digest_module_info (info : FileInfo) (i : nat) (value : list Z) (d : Digest) : outcome MapError Digest :=
  m ← map_err (ReadModuleInfoFailed i) (read_module info value);
  Ok (MkDigest (d_init d) (d_fini d) (d_flags d) (d_names d) (d_needed d) (d_modules d ++ [m]) (d_libraries d)
        (d_fingerprint d)).
Definition digest_library_info (info : FileInfo) (i : nat) (value : list Z) (export : bool) (d : Digest)
    : outcome MapError Digest :=
  l ← map_err (ReadLibraryInfoFailed i) (read_library info value);
  let l := if export then MkLibrary (l_id l) (l_name l) (Z.lor (l_flags l) EXPORT) else l in
  Ok (MkDigest (d_init d) (d_fini d) (d_flags d) (d_names d) (d_needed d) (d_modules d) (d_libraries d ++ [l])
        (d_fingerprint d)).
Definition digest_fingerprint {E} (info : FileInfo) (off : Z) (d : Digest) : outcome E Digest :=
  fp ← read_fingerprint info off;
  Ok (MkDigest (d_init d) (d_fini d) (d_flags d) (d_names d) (d_needed d) (d_modules d) (d_libraries d) fp).

(** An entry other than [DT_NULL], and the loop of [digest_dynamic] from entry
    [i] on. *)
Definition digest_tag (base : Z) (info : FileInfo) (i : nat) (tag : DynamicTag) (value : list Z) (st : Digest * option Z)
    : outcome MapError (Digest * option Z) :=
  let '(d, fp) := st in
  let keep r := d ← r; Ok (d, fp) in
  match tag with
  | DT_NEEDED => keep (digest_needed info i value d)
  | DT_INIT => keep (digest_init base value d)
  | DT_FINI => keep (digest_fini base value d)
  | DT_SONAME => keep (digest_soname info i value d)
  | DT_TEXTREL => Ok (set_flags (Z.lor (d_flags d) TEXT_REL) d, fp)
  | DT_FLAGS => keep (digest_flags value d)
  | DT_SCE_FINGERPRINT => Ok (d, Some (le_value value))
  | DT_SCE_MODULE_INFO | DT_SCE_NEEDED_MODULE => keep (digest_module_info info i value d)
  | DT_SCE_EXPORT_LIB => keep (digest_library_info info i value true d)
  | DT_SCE_IMPORT_LIB => keep (digest_library_info info i value false d)
  | _ => Ok st
  end.
Definition is_null (tag : DynamicTag) : bool := if tag is DT_NULL then true else false.
Fixpoint digest_loop (base : Z) (info : FileInfo) (i : nat) (cs : list (list Z)) (st : Digest * option Z)
    : outcome MapError (Digest * option Z) :=
  match cs with
  | [] => Ok st
  | c :: cs =>
      '(tag, value) ← dynamic_next c;
      if is_null tag then Ok st
      else st ← digest_tag base info i tag value st; digest_loop base info (S i) cs st
  end.
Definition digest_dynamic (base : Z) (info : FileInfo) (d : Digest) : outcome MapError Digest :=
  cs ← info_dynamic info;
  '(d, fp) ← digest_loop base info 0 cs (d, None);
  digest_fingerprint info (default 0 fp) d.

(** *** [Module::map] *)

Section image.
Context {I : Type} {HI : Image I}.

(** The body of the loop over the segments. *)
Definition load_segment (e : Elf) (st : Memory * VmSpace.t * I) (ks : nat * MemorySegment)
    : outcome MapError (Memory * VmSpace.t * I) :=
  let '(m, vm, img) := st in
  let '(k, s) := ks in
  match ms_program s with
  | None => Ok st
  | Some p =>
      '(m, img, vm) ← with_segment m k (UnprotectSegmentFailed k)
        (fun b => match read_program e p b img with
                  | (img, Ok b) => Ok (b, img)
                  | (_, Err x) => Err (ReadProgramFailed p x)
                  | (_, Panic q) => Panic q
                  end) vm;
      Ok (m, vm, img)
  end.

(** [image.program(i).unwrap()] of an index that is set. *)
Definition the_program {E} (e : Elf) (i : option nat) : outcome E (option Program) :=
  match i with
  | None => Ok None
  | Some i => p ← unwrap_or_panic PUnwrap (programs e !! i); Ok (Some p)
  end.

Definition read_symbols (info : FileInfo) : outcome MapError (list Symbol) :=
  cs ← symbols info;
  foldM (fun r ic => s ← map_err (ReadSymbolFailed (fst ic)) (symbol_next info (snd ic)); Ok (r ++ [s]))
    [] (enumerate cs).

Definition module_map (td : option Z) (e : Elf) (img : I) (base : Z) (mem_name : str) (id : Z) (names : list str)
    (tls_index : Z) (vm : VmSpace.t) : outcome MapError (Module * VmSpace.t) :=
  '(m, vm) ← memory_new td (programs e) base mem_name vm;
  '(m, vm, img) ← foldM (load_segment e) (m, vm, img) (enumerate (mm_segments m));
  p ← the_program e (eh e);
  eh_info ←
    match p with
    | None => Ok None
    | Some p =>
        assert_that (negb (addr p =? 0));;
        assert_that (negb (memory_size p =? 0));;
        header ← uadd base (addr p);
        '(frame, frame_size) ← digest_eh (mm_bytes m) header (memory_size p);
        Ok (Some (MkEh header (memory_size p) frame frame_size))
    end;
  '(m, vm) ← (if info e is Some i then init_plt m base i vm else Ok (m, vm));
  p ← the_program e (tls e);
  tls_info ← (if p is Some p then a ← uadd base (addr p); Ok (Some (MkTls a (file_size p) (memory_size p) (alignment p)))
              else Ok None);
  p ← the_program e (proc_param e);
  proc_param ← (if p is Some p then a ← uadd base (addr p); Ok (Some (a, file_size p)) else Ok None);
  p ← the_program e (mod_param e);
  mod_param ← (if p is Some p then a ← uadd base (addr p); Ok (Some a) else Ok None);
  symbols ← (if info e is Some i then read_symbols i else Ok []);
  sdk_ver ← (if proc_param is Some (off, _) then o ← uadd off 0x10; read_le (mm_bytes m) o 4 else Ok 0);
  path ← unwrap_or_panic PUnwrap (VPath.vpath_new (e_name e));
  let d := MkDigest None None IS_NEW names [] [] [] (replicate 20 0) in
  '(d, relocated) ←
    (if info e is Some i then
       d ← digest_dynamic base i d;
       Ok (d, replicate (Z.to_nat (reloc_count i + plt_count i)) None)
     else Ok (d, []));
  Ok (MkModule id (entry_addr e) tls_index tls_info eh_info proc_param mod_param sdk_ver d (info e) path
        (bool_decide (is_Some (self_data e))) (e_ty e) (programs e) symbols 0 [] [] m relocated 1, vm).
End image.
End host.
End Module_.
