(* ===== verification/Resolver.v ===== *)
(** * Resolving symbols of modules

    Models [legacy/src/rtld/resolver.rs].  A module is its place in the table
    of the modules of the process ([mods]), which stands for the [Arc]s.  The
    loop over a chain of a hash table, which comes from the file, need not
    end: [Hang] is the result where it does not. *)
From S2P Require Import Prelude Env Kernel VmSpace Orbis Module.

Module Resolver.
Import Env Orbis Module_.
Local Open Scope list_scope.
Local Open Scope Z_scope.

Definition UNK1 : Z := 0x00000001.
Definition UNK3 : Z := 0x00000002.
Definition UNK4 : Z := 0x00000008.
Definition UNK2 : Z := 0x00000100.

Definition HASH : Z := 35.

(** [Binaries] ([legacy/src/process/binary.rs]). *)
Record Binaries := MkBinaries { b_list : list nat; b_mains : list nat; b_globals : list nat; b_app : nat }.
Definition binaries_new (app : nat) : Binaries := MkBinaries [app] [app] [] app.
Definition binaries_push (md : nat) (main : bool) (b : Binaries) : Binaries :=
  MkBinaries (b_list b ++ [md]) (if main then b_mains b ++ [md] else b_mains b) (b_globals b) (b_app b).
Definition binaries_push_global (md : nat) (b : Binaries) : Binaries :=
  MkBinaries (b_list b) (b_mains b) (b_globals b ++ [md]) (b_app b).

(** ** Names *)

(** [v.split('#')] and [v.splitn(n, '#')]. *)
Definition split_hash (s : str) : list str := split_on HASH s.
Definition join_hash (l : list str) : str := join_on HASH l.
Definition splitn_hash (n : nat) (s : str) : list str :=
  let l := split_hash s in
  if (length l <=? n)%nat then l else take (n - 1) l ++ [join_hash (drop (n - 1) l)].

Definition ID_CHARS : str := bytes_of "ABCDEFGHIJKLMNOPQRSTUVWXYZabcdefghijklmnopqrstuvwxyz0123456789+-".
Fixpoint decode_digits (r : Z) (v : str) : option Z :=
  match v with
  | [] => Some r
  | c :: v =>
      '(d, _) ← list_find (fun x => x = c) ID_CHARS;
      decode_digits (Z.lor (Z.shiftl r 6 mod 2 ^ 64) (Z.of_nat d)) v
  end.
Definition decode_id (v : str) : option Z := r ← decode_digits 0 v; Some (r mod 2 ^ 16).

Definition find_library (md : Module) (id : Z) : option LibraryInfo :=
  List.find (fun i => l_id i =? id) (d_libraries (md_digest md)).
Definition find_module (md : Module) (id : Z) : option ModuleInfo :=
  List.find (fun i => mi_id i =? id) (d_modules (md_digest md)).

Definition decode_legacy (md : Module) (name : str) : option str :=
  match splitn_hash 3 name with
  | [n; l; m] =>
      if (3 <? length l)%nat || (3 <? length m)%nat then None
      else
        l ← decode_id l;
        m ← decode_id m;
        l ← find_library md l;
        m ← find_module md m;
        Some (n ++ [HASH] ++ l_name l ++ [HASH] ++ mi_name m)
  | _ => None
  end.

(** ** Hashes *)

(** The closure of [hash] on a byte: the new value of [h]. *)
Definition hash_byte {E} (h b : Z) : outcome E Z :=
  t ← uadd b (Z.shiftl h 4 mod 2 ^ 64);
  let h := Z.land t 0xf0000000 in
  Ok (Z.ldiff (Z.lxor (Z.shiftr h 24) t) h).
(** The bytes of [v] up to the first [#], and whether there is one. *)
Fixpoint hash_until {E} (h : Z) (v : str) : outcome E (Z * bool) :=
  match v with
  | [] => Ok (h, false)
  | b :: v => h ← hash_byte h b; if b =? HASH then Ok (h, true) else hash_until h v
  end.
Definition hash {E} (name libname modname : option str) : outcome E Z :=
  '(h, l) ← match name with Some v => '(h, hit) ← hash_until 0 v; Ok (h, negb hit) | None => Ok (0, false) end;
  match libname with
  | None => Ok h
  | Some v =>
      h ← (if (l : bool) then hash_byte h HASH else Ok h);
      '(h, hit) ← hash_until h v;
      match modname with
      | None => Ok h
      | Some v =>
          h ← (if (hit : bool) then Ok h else hash_byte h HASH);
          '(h, _) ← hash_until h v;
          Ok h
      end
  end.
(** The loop of [resolve_with_local] over the decoded name. *)
Definition hash_legacy {E} (name : str) : outcome E Z := foldM hash_byte 0 name.

(** ** Matching *)

Definition symbol_type (flags : Z) (sym : Symbol) : bool :=
  let ty := s_ty sym in
  ((ty =? STT_TLS)
   || (((ty =? STT_NOTYPE) || (ty =? STT_OBJECT) || (ty =? STT_FUNC) || (ty =? STT_ENTRY))
       && negb (value sym =? 0)))
  && (negb (shndx sym =? 0) || ((ty =? STT_FUNC) && negb (contains flags UNK3))).

(** [name] against the name of a symbol, up to the first [#]. *)
Fixpoint same_until_hash (a b : str) : bool :=
  match a, b with
  | [], _ => true
  | x :: a, y :: b => if x =? y then (if x =? HASH then true else same_until_hash a b) else false
  | _ :: _, [] => false
  end.

(** The parts of a name after the first [#]: its library and its module. *)
Definition name_library (md : Module) (name : str) : option LibraryInfo :=
  p ← split_hash name !! 1%nat; id ← decode_id p; find_library md id.
Definition name_module (md : Module) (name : str) : option ModuleInfo :=
  p ← split_hash name !! 2%nat; id ← decode_id p; find_module md id.

Definition is_match (name symmod symlib : option str) (sym : Symbol) (flags : Z) (md : Module) : bool :=
  let ty := s_ty sym in
  let typed :=
    if (ty =? STT_NOTYPE) || (ty =? STT_OBJECT) || (ty =? STT_FUNC) || (ty =? STT_ENTRY)
    then negb (value sym =? 0) else ty =? STT_TLS in
  if negb typed then false
  else if (shndx sym =? 0) && (negb (ty =? STT_FUNC) || contains flags UNK3) then false
  else
    match name with
    | None => false
    | Some name =>
        if negb (same_until_hash name (s_name sym)) then false
        else
          match symlib, name_library md (s_name sym), symmod, name_module md (s_name sym) with
          | Some symlib, Some li, Some symmod, Some mi =>
              bool_decide (l_name li = symlib) && bool_decide (mi_name mi = symmod)
          | _, _, _, _ => false
          end
    end.

(** ** Chains *)

Inductive hang := Hang.

(** The loop of [resolve_from_module] on a chain; [None] is out of fuel. *)
Fixpoint chain (fuel : nat) (syms : list Symbol) (chains : list Z) (test : Symbol -> bool) (index : Z)
    : option (option nat) :=
  match fuel with
  | O => None
  | S fuel =>
      if index =? 0 then Some None
      else
        match syms !! Z.to_nat index with
        | None => Some None
        | Some sym =>
            if test sym then Some (Some (Z.to_nat index))
            else
              match chains !! Z.to_nat index with
              | Some v => chain fuel syms chains test v
              | None => Some None
              end
        end
  end.

(** [buckets[h % buckets.len()]]. *)
Definition bucket {E} (buckets : list Z) (h : Z) : outcome E Z :=
  panic_if (bool_decide (buckets = [])) PDivZero;;
  arr_get buckets (h mod Z.of_nat (length buckets)).

Definition resolve_from_module (name decoded_name symmod symlib : option str) (h flags : Z) (md : Module)
    : outcome hang (option nat) :=
  info ← unwrap_or_panic PUnwrap (md_file_info md);
  let walk test index :=
    ok_or Hang (chain (S (length (md_symbols md))) (md_symbols md) (chains info) test index) in
  if negb (contains flags UNK2) then
    index ← bucket (buckets info) h;
    walk (fun sym => is_match name symmod symlib sym flags md) index
  else
    match decoded_name with
    | None => Ok None
    | Some name =>
        index ← bucket (buckets info) (Z.land h 0xffffffff);
        let target := if bool_decide (HASH ∈ name) then name else default name (decode_legacy md name) in
        walk (fun sym => symbol_type flags sym
                         && bool_decide (default (s_name sym) (decode_legacy md (s_name sym)) = target)) index
    end.

(** ** Lists of modules *)

Section resolver.
(** The modules of the process and [SymbolResolver]. *)
Context (mods : list Module) (bin : Binaries) (new_algorithm : bool).

Definition the_module {E} (k : nat) : outcome E Module := unwrap_or_panic PUnreachable (mods !! k).
(** [md.symbol(i).unwrap().binding() == Symbol::STB_WEAK]. *)
Definition is_weak {E} (md : Module) (i : nat) : outcome E bool :=
  s ← unwrap_or_panic PUnwrap (md_symbols md !! i);
  Ok (binding s =? STB_WEAK).

(** The part of the decoded name after the last [#]. *)
Definition last_part (name : str) : option str :=
  if bool_decide (HASH ∈ name) then last (split_hash name) else None.

Fixpoint resolve_list (name decoded_name symmod symlib : option str) (h flags : Z) (list : list nat)
    (result : option (nat * nat)) : outcome hang (option (nat * nat)) :=
  match list with
  | [] => Ok result
  | k :: list =>
      md ← the_module k;
      let found :=
        if symmod is Some name
        then existsb (fun i => (mi_id i =? 0) && bool_decide (mi_name i = name)) (d_modules (md_digest md)) else true in
      if negb found then resolve_list name decoded_name symmod symlib h flags list result
      else
        r ← resolve_from_module name decoded_name symmod symlib h flags md;
        match r with
        | None => resolve_list name decoded_name symmod symlib h flags list result
        | Some index =>
            weak ← is_weak md index;
            if negb weak then Ok (Some (k, index))
            else
              resolve_list name decoded_name symmod symlib h flags list
                (if result is None then Some (k, index) else result)
        end
  end.
Definition resolve_from_list (name decoded_name symmod symlib : option str) (h flags : Z) (list : list nat)
    : outcome hang (option (nat * nat)) :=
  let symmod := if negb (contains flags UNK2) then symmod else v ← decoded_name; last_part v in
  resolve_list name decoded_name symmod symlib h flags list None.

(** The loop of [resolve_from_global] over [globals]. *)
Fixpoint resolve_globals (name decoded_name symmod symlib : option str) (h flags : Z) (l : list nat)
    (result : option (nat * nat)) : outcome hang (option (nat * nat)) :=
  match l with
  | [] => Ok result
  | g :: l =>
      done ← (if result is Some (k, i) then md ← the_module k; w ← is_weak md i; Ok (negb w) else Ok false);
      if (done : bool) then Ok result
      else
        md ← the_module g;
        r ← resolve_from_list name decoded_name symmod symlib h flags (md_dag_static md);
        result ←
          match r with
          | None => Ok result
          | Some (k, i) =>
              if result is None then Ok r
              else m ← the_module k; w ← is_weak m i; Ok (if negb w then r else result)
          end;
        resolve_globals name decoded_name symmod symlib h flags l result
  end.
Definition resolve_from_global (name decoded_name symmod symlib : option str) (h flags : Z)
    : outcome hang (option (nat * nat)) :=
  r ← resolve_from_list name decoded_name symmod symlib h flags (b_mains bin);
  resolve_globals name decoded_name symmod symlib h flags (b_globals bin) r.
Definition resolve (name decoded_name symmod symlib : option str) (h flags : Z)
    : outcome hang (option (nat * nat)) :=
  resolve_from_global name decoded_name symmod symlib h flags.

(** [k] is the module that refers to its symbol [index]. *)
Definition resolve_with_local (k : nat) (index : Z) (flags : Z) : outcome hang (option (nat * nat)) :=
  md ← the_module k;
  match md_symbols md !! Z.to_nat index with
  | None => Ok None
  | Some sym =>
      data ← unwrap_or_panic PUnwrap (md_file_info md);
      if Z.of_nat (length (chains data)) <=? index then Ok None
      else
        '(name, decoded_name, symmod, symlib, h, flags) ←
          (if new_algorithm then
             let name := s_name sym in
             let l := l_name <$> name_library md name in
             let m := mi_name <$> name_module md name in
             h ← hash (Some name) l m;
             Ok (Some name, None, m, l, h, flags)
           else
             let name := default (s_name sym) (decode_legacy md (s_name sym)) in
             h ← hash_legacy name;
             Ok (None, Some name, None, None, h, Z.lor flags UNK2));
        if binding sym =? STB_LOCAL then Ok (Some (k, Z.to_nat index))
        else if s_ty sym =? STT_SECTION then Ok None
        else
          r ← resolve name decoded_name symmod symlib h flags;
          match r with
          | Some v => Ok (Some v)
          | None => panic_if (binding sym =? STB_WEAK) PTodo;; Ok None
          end
  end.
End resolver.
End Resolver.
