(* ===== verification/Cred.v ===== *)
(** * Credentials and access to files in the previous kernel

    Models [legacy/src/ucred] and [legacy/src/fs/perm.rs]: the credential of
    a process, what its program authority allows, privileges, and the check
    of the permissions of a file. *)
From Stdlib Require Import Sorted.
From stdpp Require Import sorting.
From S2P Require Import Prelude Env.

Module Cred.
Import Env.
Local Open Scope list_scope.
Local Open Scope Z_scope.

(** ** Program authority ([auth.rs]) *)

Record AuthInfo := Auth { paid : Z; caps : list Z; attrs : list Z; unk : list Z }.

Definition cap (a : AuthInfo) (i : nat) : Z := caps a !!! i.
Definition attr (a : AuthInfo) (i : nat) : Z := attrs a !!! i.

Definition SYS_CORE : AuthInfo :=
  Auth 0x3800000000000007 [0x40001C0000000000; 0x800000000000FF00; 0; 0]
    [0x4000400080000000; 0x8000000000000000; 0x0800000000000000; 0xF0000000FFFF4000] (replicate 0x40 0).

(** [str::parse::<u16>]. *)
Definition parse_u16 (s : str) : option Z :=
  v ← parse_u64 s; if v <? 2 ^ 16 then Some v else None.

(** The position of the first byte that is not a zero digit. *)
Fixpoint skip_zeroes (s : str) : option str :=
  match s with
  | [] => None
  | c :: s' => if c =? 48 then skip_zeroes s' else Some s
  end.

(** [get(4..)] on an ASCII string. *)
Definition from_title_id (title_id : str) : option AuthInfo :=
  id ← (if (4 <=? length title_id)%nat then Some (drop 4 title_id) else None);
  id ← skip_zeroes id;
  id ← parse_u16 id;
  Some (Auth (Z.lor (Z.shiftl 0x34000003ACC2 16) id)
    [0x2000038000000000; 0x000000000000FF00; 0; 0]
    [0x4000400040000000; 0x4000000000000000; 0x0080000000000002; 0xF0000000FFFF4000] (replicate 0x40 0)).

Definition clear_non_type (c : list Z) : list Z := [Z.land (c !!! 0%nat) 0x7000000000000000; 0; 0; 0].

Definition bit_set (v mask : Z) : bool := negb (Z.land v mask =? 0).
Definition caps_is_nongame (a : AuthInfo) : bool := bit_set (cap a 0) 0x1000000000000000.
Definition caps_is_user (a : AuthInfo) : bool := bit_set (cap a 0) 0x2000000000000000.
Definition caps_is_system (a : AuthInfo) : bool := bit_set (cap a 0) 0x4000000000000000.
Definition has_use_video_service (a : AuthInfo) : bool := bit_set (cap a 1) 0x0200000000000000.
Definition caps_is_unk1 (a : AuthInfo) : bool := bit_set (cap a 1) 0x4000000000000000.
Definition attrs_is_unk2 (a : AuthInfo) : bool := bit_set (attr a 0) 0x00400000.
Definition attrs_is_unk1 (a : AuthInfo) : bool := bit_set (attr a 0) 0x00800000.
Definition has_sce_program_attribute (a : AuthInfo) : bool := bit_set (attr a 0) 0x80000000.

(** [RcMgr]: nothing is enabled. *)
Definition is_allow_ul_debugger : bool := false.
Definition is_softwagner_qaf_for_acmgr : bool := false.
Definition is_debuggable_process (a : AuthInfo) : bool :=
  if negb (bit_set (attr a 0) 0x01000000)
  then bit_set (attr a 0) 0x02000000 || is_allow_ul_debugger
  else is_softwagner_qaf_for_acmgr.

(** ** Credentials ([mod.rs]) *)

(** [Uid::new] and [Gid::new]. *)
Definition id_new (v : Z) : option Z := if 0 <=? v then Some v else None.

Record Ucred := Cr { effective_uid : Z; real_uid : Z; groups : list Z; auth : AuthInfo }.

Definition ucred_new (euid ruid : Z) (gs : list Z) (a : AuthInfo) : outcome unit Ucred :=
  match gs with
  | [] => Panic PAssert
  | g :: gs => Ok (Cr euid ruid (g :: merge_sort Z.le gs) a)
  end.

(** [slice::binary_search]: whether it finds the value; the loop keeps [size] candidates from [base] on. *)
Fixpoint search_loop (fuel : nat) (l : list Z) (x : Z) (base size : nat) : nat :=
  match fuel with
  | O => base
  | S fuel =>
      if (1 <? size)%nat then
        let half := (size / 2)%nat in
        let mid := (base + half)%nat in
        search_loop fuel l x (if l !!! mid >? x then base else mid) (size - half)
      else base
  end.
Definition binary_search (l : list Z) (x : Z) : bool :=
  match l with
  | [] => false
  | _ => l !!! search_loop (length l) l x 0 (length l) =? x
  end.

(** [Ucred::new] makes sure that there is a first group. *)
Definition is_member (c : Ucred) (gid : Z) : bool :=
  match groups c with
  | [] => false
  | g :: gs => (g =? gid) || binary_search gs gid
  end.

Definition wrapping_add (a b : Z) : Z := (a + b) mod 2 ^ 64.
Definition is_libkernel_web (c : Ucred) : bool :=
  let v := wrapping_add (paid (auth c)) 0xc7ffffffeffffffc in
  (v <? 0xf) && bit_set (Z.shiftr 0x6001 (Z.land v 0x3f)) 1.
Definition is_webprocess_webapp_or_webmas (c : Ucred) : bool :=
  (paid (auth c) =? 0x380000001000000f) || (paid (auth c) =? 0x3800000010000013).
Definition is_diskplayerui_process (c : Ucred) : bool := paid (auth c) =? 0x3800000010000009.
Definition is_videoplayer_process (c : Ucred) : bool := wrapping_add (paid (auth c)) 0xc7ffffffefffffff <? 2.
Definition is_webcore_process (c : Ucred) : bool :=
  let v := wrapping_add (paid (auth c)) 0xc7ffffffeffffffd in
  (v <? 0x11) && bit_set (Z.shiftr 0x1d003 (Z.land v 0x3f)) 1.
Definition unk_gc_check (c : Ucred) : bool :=
  (paid (auth c) =? 0x3800000000000009) || (paid (auth c) =? 0x380100000000002c).
Definition is_nongame (c : Ucred) : bool := caps_is_nongame (auth c).
Definition is_system (c : Ucred) : bool := caps_is_system (auth c).
Definition is_unk1 (c : Ucred) : bool := caps_is_unk1 (auth c) && attrs_is_unk1 (auth c).
Definition is_unk2 (c : Ucred) : bool := caps_is_unk1 (auth c) && attrs_is_unk2 (auth c).

(** [is_jit_compiler_process] and [is_jit_application_process], which test
    different bits. *)
Definition jit_process (bit : Z) (c : Ucred) : outcome unit bool :=
  let v := cap (auth c) 1 in
  if Z.testbit v bit then Ok true
  else
    panic_if (Z.testbit v 0x38) PTodo;;
    panic_if (Z.shiftr (paid (auth c)) 56 =? 0x31) PTodo;;
    Ok false.
Definition is_jit_compiler_process : Ucred -> outcome unit bool := jit_process 0x3e.
Definition is_jit_application_process : Ucred -> outcome unit bool := jit_process 0x3d.

(** [Privilege]. *)
Inductive Privilege :=
  | MAXFILES | SEEOTHERGIDS | SEEOTHERUIDS | PROC_SETLOGIN | VFS_READ | VFS_WRITE | VFS_ADMIN | VFS_EXEC
  | VFS_LOOKUP | SCE680 | SCE683 | SCE685 | SCE686.

Inductive PrivilegeError := NoPrivilege.

Definition priv_check (c : Ucred) (p : Privilege) : outcome PrivilegeError unit :=
  r ← match p with
      | MAXFILES | PROC_SETLOGIN | SCE680 | SCE683 | SCE686 => Ok (is_system c)
      | _ => Panic PTodo
      end;
  if r : bool then Ok tt else Err NoPrivilege.

(** ** Permissions of files ([perm.rs]) *)

Definition EXEC : Z := 0x40.
Definition WRITE : Z := 0x80.
Definition READ : Z := 0x100.
Definition ADMIN : Z := 0x1000.
Definition EXPLICIT_DENY : Z := 0x8000.
Definition DELETE_CHILD : Z := 0x40000.
Definition READ_ATTRIBUTES : Z := 0x80000.
Definition WRITE_ATTRIBUTES : Z := 0x100000.
Definition DELETE : Z := 0x200000.
Definition READ_ACL : Z := 0x400000.
Definition WRITE_ACL : Z := 0x800000.
Definition WRITE_OWNER : Z := 0x1000000.
Definition SYNCHRONIZE : Z := 0x2000000.
Definition ADMIN_PERMS : Z := Eval vm_compute in Z.lor ADMIN (Z.lor WRITE_ATTRIBUTES (Z.lor WRITE_ACL WRITE_OWNER)).
Definition STAT_PERMS : Z := Eval vm_compute in Z.lor READ_ATTRIBUTES READ_ACL.
(** All flags of [Access]; the complement of a set keeps to them. *)
Definition access_all : Z :=
  Eval vm_compute in fold_right Z.lor 0
    [EXEC; WRITE; READ; ADMIN; EXPLICIT_DENY; DELETE_CHILD; READ_ATTRIBUTES; WRITE_ATTRIBUTES; DELETE; READ_ACL;
     WRITE_ACL; WRITE_OWNER; SYNCHRONIZE].
Definition complement (f : Z) : Z := Z.land (Z.lnot f) access_all.

Definition unixify_access (access : Z) : option Z :=
  if bit_set access EXPLICIT_DENY then Some 0
  else if bit_set access (Z.lor DELETE_CHILD DELETE) then None
  else
    let access := if bit_set access ADMIN_PERMS
                  then Z.lor (Z.land access (complement ADMIN_PERMS)) ADMIN else access in
    Some (Z.land access (complement (Z.lor STAT_PERMS SYNCHRONIZE))).

Definition mode_new (v : Z) : option Z := if 0x1ff <? v then None else Some v.

Inductive AccessError := NotPermitted | PermissionDenied.

(** What the mode of the file grants. *)
Definition dac (owner member : bool) (mode : Z) : Z :=
  if owner then Z.lor (Z.land mode 0x140) 0x1000 + (if bit_set mode 0x80 then 0x4080 else 0)
  else
    let '(v1, v2) := if member then (Z.shiftl (Z.land mode 0x28) 3, Z.land mode 0x10)
                     else (Z.shiftl (Z.land mode 5) 6, Z.land mode 2) in
    if v2 =? 0 then v1 else v1 + 0x4080.

(** [!v] of a [u32]. *)
Definition not32 (v : Z) : Z := Z.lxor v 0xFFFFFFFF.

(** [priv_check(..).is_ok()]. *)
Definition has_priv (c : Ucred) (p : Privilege) : outcome AccessError bool :=
  match priv_check c p with
  | Ok _ => Ok true
  | Err _ => Ok false
  | Panic b => Panic b
  end.

Definition check_access (c : Ucred) (file_uid file_gid mode access : Z) (is_dir : bool) : outcome AccessError bool :=
  let granted := dac (effective_uid c =? file_uid) (is_member c file_gid) mode in
  if Z.land (not32 granted) access =? 0 then Ok false
  else
    let exec := Z.land (if Z.land granted 0x40 =? 0 then 1 else 0) (Z.shiftr (access mod 256) 6) in
    let pid :=
      if is_dir then if exec =? 0 then None else Some VFS_LOOKUP
      else if (Z.land mode 0x49 =? 0) || negb (exec =? 1) then None else Some VFS_EXEC in
    x ← (if pid is Some p then has_priv c p else Ok false);
    let g := if x : bool then 0x40 else 0 in
    r ← (if bit_set access 0x100 && negb (bit_set granted 0x100) then has_priv c VFS_READ else Ok false);
    let g := if r : bool then Z.lor g 0x100 else g in
    w ← (if bit_set access 0x80 && negb (bit_set granted 0x80) then has_priv c VFS_WRITE else Ok false);
    let g := if w : bool then Z.lor g (Z.lor 0x4000 0x80) else g in
    a ← (if bit_set access 0x1000 && negb (bit_set granted 0x1000) then has_priv c VFS_ADMIN else Ok false);
    let g := if a : bool then Z.lor g 0x1000 else g in
    if Z.land (not32 (Z.lor g granted)) access =? 0 then Ok true
    else if bit_set access 0x1000 then Err NotPermitted
    else Err PermissionDenied.

End Cred.
