(* ===== verification/CredProps.v ===== *)
(** * Properties of credentials and permissions

    Groups are found exactly when they were given, and the check of a file
    mode grants exactly the bits of the class of the caller. *)
From Stdlib Require Import Sorted.
From stdpp Require Import sorting.
From S2P Require Import Prelude Env Cred.

Module CredProps.
Import Env Cred.
Local Open Scope list_scope.
Local Open Scope Z_scope.

(** ** Groups *)

Definition increasing (l : list Z) : Prop := forall i j, (i <= j < length l)%nat -> l !!! i <= l !!! j.

Lemma sorted_increasing l : StronglySorted Z.le l -> increasing l.
Proof.
  induction 1 as [|x l _ IH Hx]; intros i j Hij; [cbn in Hij; lia|]. destruct i as [|i], j as [|j]; cbn in *; try lia.
  - eapply Forall_lookup_1; [exact Hx|]. apply list_lookup_lookup_total_lt. lia.
  - apply IH. lia.
Qed.

Lemma search_loop_spec l x fuel : forall base size,
  increasing l -> (size <= fuel)%nat -> (1 <= size)%nat -> (base + size <= length l)%nat ->
  (base = 0%nat \/ l !!! base <= x) -> (forall j, (base + size <= j < length l)%nat -> x < l !!! j) ->
  let r := search_loop fuel l x base size in
  (r < length l)%nat /\ (r = 0%nat \/ l !!! r <= x) /\ forall j, (r < j < length l)%nat -> x < l !!! j.
Proof.
  induction fuel as [|fuel IH]; intros base size Hl Hf Hs Hb Hle Hgt; [lia|]. cbn [search_loop].
  destruct (Nat.ltb_spec 1 size) as [H1|H1].
  2: { assert (size = 1%nat) as -> by lia. split; [lia|]. split; [done|]. intros j Hj. apply Hgt. lia. }
  pose proof (Nat.div_lt size 2 ltac:(lia) ltac:(lia)). pose proof (Nat.div_str_pos size 2 ltac:(lia)).
  pose proof (Nat.Div0.mul_div_le size 2).
  destruct (Z.gtb_spec (l !!! (base + size / 2)%nat) x) as [Hg|Hg]; apply IH; try done; try lia.
  - intros j Hj. pose proof (Hl (base + size / 2)%nat j). lia.
  - intros j Hj. apply Hgt. lia.
Qed.

Lemma binary_search_iff l x : increasing l -> binary_search l x = true <-> x ∈ l.
Proof.
  intros Hl. destruct l as [|y l']; [split; [done|by intros ?%not_elem_of_nil]|]. set (l := y :: l') in *.
  destruct (search_loop_spec l x (length l) 0 (length l) Hl) as (Hr & Hle & Hgt); [lia|cbn; lia|lia|by left|lia|].
  change (binary_search l x) with (l !!! search_loop (length l) l x 0 (length l) =? x). rewrite Z.eqb_eq.
  remember (search_loop (length l) l x 0 (length l)) as r eqn:Hdef. clear Hdef. split.
  - intros <-. apply list_elem_of_lookup. exists r. by apply list_lookup_lookup_total_lt.
  - intros Hx. apply list_elem_of_lookup_1 in Hx as [j Hj]. pose proof (lookup_lt_Some _ _ _ Hj).
    apply list_lookup_total_correct in Hj. destruct (decide (r < j)%nat); [pose proof (Hgt j); lia|].
    destruct Hle as [H0|Hle]; [assert (j = r) as -> by lia; done|]. pose proof (Hl j r). lia.
Qed.

(** The groups of a credential are the ones it was made with. *)
Lemma is_member_iff euid ruid gs a c g : ucred_new euid ruid gs a = Ok c -> is_member c g = true <-> g ∈ gs.
Proof.
  intros Hc. destruct gs as [|g0 gs]; [done|]. injection Hc as <-. unfold is_member. cbn [groups].
  rewrite orb_true_iff, Z.eqb_eq, elem_of_cons, binary_search_iff.
  - rewrite merge_sort_Permutation. naive_solver.
  - apply sorted_increasing, StronglySorted_merge_sort; apply _.
Qed.

(** ** Permissions *)

(** The lowest bit of the class of the caller. *)
Definition class (owner member : bool) : Z := if owner then 6 else if member then 3 else 0.

(** The access bits that the mode grants: to run, to write and to read
    according to the class, to administer for the owner. *)
Definition grants (owner member : bool) (mode i : Z) : bool :=
  let k := class owner member in
  if i =? 6 then Z.testbit mode k
  else if (i =? 7) || (i =? 14) then Z.testbit mode (k + 1)
  else if i =? 8 then Z.testbit mode (k + 2)
  else if i =? 12 then owner
  else false.

Definition dac_check (owner member : bool) : bool :=
  forallb (fun mode => (dac owner member mode <? 2 ^ 15) && (0 <=? dac owner member mode)
    && forallb (fun i => Bool.eqb (Z.testbit (dac owner member mode) i) (grants owner member mode i)) (seqZ 0 16))
    (seqZ 0 512).

Lemma dac_checked owner member : dac_check owner member = true.
Proof. destruct owner, member; vm_compute; reflexivity. Qed.

Lemma dac_bits owner member mode i :
  0 <= mode <= 0x1FF -> 0 <= i -> Z.testbit (dac owner member mode) i = grants owner member mode i.
Proof.
  intros Hm Hi. pose proof (dac_checked owner member) as Hc. unfold dac_check in Hc. rewrite forallb_forall in Hc.
  specialize (Hc mode ltac:(apply list_elem_of_In, elem_of_seqZ; lia)). rewrite !andb_true_iff in Hc.
  destruct Hc as [[Hlt Hge] Hc]. bool_to_prop. destruct (decide (i < 16)).
  - rewrite forallb_forall in Hc. specialize (Hc i ltac:(apply list_elem_of_In, elem_of_seqZ; lia)). by apply eqb_prop in Hc.
  - rewrite Z.bits_above_log2; [|lia|].
    + unfold grants. rewrite !(proj2 (Z.eqb_neq _ _)) by lia. done.
    + destruct (decide (dac owner member mode = 0)) as [->|]; [cbn; lia|]. apply Z.log2_lt_pow2; [lia|].
      eapply Z.lt_le_trans; [exact Hlt|]. apply Z.pow_le_mono_r; lia.
Qed.

Lemma bit_set_pow2 v k : 0 <= k -> bit_set v (2 ^ k) = Z.testbit v k.
Proof.
  intros Hk. unfold bit_set. destruct (Z.testbit v k) eqn:Hb.
  - apply negb_true_iff, Z.eqb_neq. intros H0. assert (Z.testbit (Z.land v (2 ^ k)) k = true) as Ht.
    { by rewrite Z.land_spec, Hb, Z.pow2_bits_true. }
    rewrite H0, Z.bits_0 in Ht. done.
  - apply negb_false_iff, Z.eqb_eq. apply Z.bits_inj'. intros i Hi. rewrite Z.land_spec, Z.bits_0.
    rewrite Z.pow2_bits_eqb by done. destruct (Z.eqb_spec k i) as [<-|]; [by rewrite Hb|]. apply andb_false_r.
Qed.

(** Every requested bit is granted. *)
Definition all_granted (owner member : bool) (mode access : Z) : bool :=
  forallb (fun i => negb (Z.testbit access i) || grants owner member mode i) (seqZ 0 32).

Lemma not32_land g access :
  0 <= access < 2 ^ 32 ->
  (Z.land (not32 g) access =? 0) = forallb (fun i => negb (Z.testbit access i) || Z.testbit g i) (seqZ 0 32).
Proof.
  intros Ha. apply eq_true_iff_eq. rewrite Z.eqb_eq, forallb_forall. unfold not32. change 0xFFFFFFFF with (Z.ones 32). split.
  - intros H0 i Hi. apply list_elem_of_In, elem_of_seqZ in Hi. destruct (Z.testbit access i) eqn:Hb; [|done]. cbn.
    assert (Z.testbit (Z.land (Z.lxor g (Z.ones 32)) access) i = false) as Ht by (by rewrite H0, Z.bits_0).
    rewrite Z.land_spec, Z.lxor_spec, Hb, Z.ones_spec_low in Ht by lia. by destruct (Z.testbit g i).
  - intros Hall. apply Z.bits_inj'. intros i Hi. rewrite Z.land_spec, Z.lxor_spec, Z.bits_0. destruct (decide (i < 32)).
    + rewrite Z.ones_spec_low by lia. specialize (Hall i ltac:(apply list_elem_of_In, elem_of_seqZ; lia)).
      by destruct (Z.testbit access i), (Z.testbit g i).
    + assert (Z.testbit access i = false) as ->; [|apply andb_false_r].
      rewrite <- (Z.mod_small access (2 ^ 32)) by done. apply Z.mod_pow2_bits_high. lia.
Qed.

Lemma exec_bit granted access :
  Z.land (if Z.land granted 0x40 =? 0 then 1 else 0) (Z.shiftr (access mod 256) 6)
  = if Z.testbit access 6 && negb (Z.testbit granted 6) then 1 else 0.
Proof.
  pose proof (bit_set_pow2 granted 6 ltac:(done)) as Hb. unfold bit_set in Hb. change (2 ^ 6) with 0x40 in Hb.
  destruct (Z.land granted 0x40 =? 0); cbn [negb] in Hb; rewrite <- Hb; [|by rewrite andb_false_r].
  cbn [negb]. rewrite andb_true_r, Z.land_comm. change 1 with (Z.ones 1) at 1. rewrite Z.land_ones by done. change (2 ^ 1) with 2.
  rewrite <- Z.bit0_mod, Z.shiftr_spec by done. change 256 with (2 ^ 8). rewrite Z.mod_pow2_bits_low by done. by destruct (Z.testbit access _).
Qed.

Lemma granted_eq owner member mode access :
  0 <= mode <= 0x1FF -> 0 <= access < 2 ^ 32 ->
  (Z.land (not32 (dac owner member mode)) access =? 0) = all_granted owner member mode access.
Proof.
  intros Hm Ha. rewrite not32_land by done. unfold all_granted. apply eq_true_iff_eq. rewrite !forallb_forall.
  split; intros Hall i Hi; specialize (Hall i Hi); apply list_elem_of_In, elem_of_seqZ in Hi; by rewrite dac_bits in * by lia.
Qed.

Lemma vfs_priv c p : p = VFS_READ \/ p = VFS_WRITE \/ p = VFS_ADMIN \/ p = VFS_EXEC \/ p = VFS_LOOKUP ->
  has_priv c p = Panic PTodo.
Proof. intros [->|[->|[->|[->| ->]]]]; done. Qed.

(** C37: the check of a file mode agrees with the permissions of Unix.  Access
    is granted exactly when every requested bit is granted to the class of the
    caller: the owner, a member of the group, or others; only the owner may
    administer.  Otherwise the check consults privileges, which are not
    implemented for files and panic, unless only bits are missing that no
    privilege can give, such as running a file that nobody may run. *)
Theorem access_check c uid gid mode access is_dir :
  0 <= mode <= 0x1FF -> 0 <= access < 2 ^ 32 ->
  let owner := effective_uid c =? uid in
  let denied i := Z.testbit access i && negb (grants owner (is_member c gid) mode i) in
  check_access c uid gid mode access is_dir =
    if all_granted owner (is_member c gid) mode access then Ok false
    else if (denied 6 && (is_dir || bit_set mode 0x49)) || denied 8 || denied 7 || denied 12 then Panic PTodo
    else Err (if Z.testbit access 12 then NotPermitted else PermissionDenied).
Proof.
  intros Hm Ha owner denied. unfold check_access. fold owner. set (g := dac owner (is_member c gid) mode).
  assert (forall i, 0 <= i -> Z.testbit g i = grants owner (is_member c gid) mode i) as Hg by (intros; by apply dac_bits).
  pose proof (granted_eq owner (is_member c gid) mode access Hm Ha) as Hge. fold g in Hge. rewrite Hge.
  destruct (all_granted owner (is_member c gid) mode access) eqn:Hall; [done|].
  rewrite exec_bit. change 0x100 with (2 ^ 8). change 0x80 with (2 ^ 7). change 0x1000 with (2 ^ 12).
  rewrite !bit_set_pow2, !Hg by done.
  change (Z.testbit access 6 && negb (grants owner (is_member c gid) mode 6)) with (denied 6).
  change (Z.testbit access 8 && negb (grants owner (is_member c gid) mode 8)) with (denied 8).
  change (Z.testbit access 7 && negb (grants owner (is_member c gid) mode 7)) with (denied 7).
  change (Z.testbit access 12 && negb (grants owner (is_member c gid) mode 12)) with (denied 12).
  assert (forall b : bool, ((if b then 1 else 0) =? 0) = negb b /\ ((if b then 1 else 0) =? 1) = b) as Hb by (by intros []).
  rewrite (proj1 (Hb (denied 6))), (proj2 (Hb (denied 6))). unfold bit_set at 1.
  destruct (denied 6) eqn:H6, is_dir, (Z.land mode 0x49 =? 0) eqn:H49; cbn [negb andb orb]; rewrite ?vfs_priv by tauto; try done;
    cbn [mbind outcome_bind]; (destruct (denied 8); [by rewrite ?vfs_priv by tauto|]); cbn [mbind outcome_bind orb];
    (destruct (denied 7); [by rewrite ?vfs_priv by tauto|]); cbn [mbind outcome_bind orb];
    (destruct (denied 12); [by rewrite ?vfs_priv by tauto|]); cbn [mbind outcome_bind orb];
    rewrite Z.lor_0_l, Hge; by destruct (Z.testbit access 12).
Qed.

Lemma access_check_witness :
  exists c, ucred_new 1000 1000 [100; 5; 3] SYS_CORE = Ok c
  /\ check_access c 0 5 0x1A0 READ false = Ok false /\ check_access c 1000 0 0x1A0 (Z.lor WRITE EXEC) false = Err PermissionDenied.
Proof.
  destruct (ucred_new 1000 1000 [100; 5; 3] SYS_CORE) as [c| |] eqn:Hc; [|by vm_compute in Hc..].
  exists c. split; [done|]. injection Hc as <-. split.
  - rewrite (access_check _ 0 5 0x1A0 READ false) by done. by vm_compute.
  - rewrite (access_check _ 1000 0 0x1A0 (Z.lor WRITE EXEC) false) by done. by vm_compute.
Defined.

End CredProps.
