(* ===== verification/FileDesc.v ===== *)
(** * Tables of a process in the previous kernel

    Models [legacy/src/process/filedesc.rs], the table of open files,
    [legacy/src/idt], the table of named objects, and [legacy/src/budget],
    which uses it.  The locks around them make each operation one step. *)
From S2P Require Import Prelude Env Cred VmSpace.

Module FileDesc.
Import Env.
Local Open Scope list_scope.
Local Open Scope Z_scope.

(** ** Open files *)

Section files.
(** [VFile], [Vnode] and [KernelQueue]. *)
Context {F V K : Type}.
(** [VFile::flags]. *)
Variable flags : F -> Z.

Definition READ : Z := 1.
Definition WRITE : Z := 2.
Definition i32_max : Z := 2 ^ 31 - 1.

Record FileDesc := MkFileDesc {
  files : list (option F);
  cwd : V;
  root : V;
  kqueue_list : list K;
  cmask : Z
}.

Inductive GetFileError := NegativeFd | FdOutOfRange | NoFile | BadFlags (expected file : Z).
Inductive FileAllocError (E : Type) := Inner (e : E).
Inductive FreeError := FNegativeFd | FNoFile.

Definition filedesc_new (root : V) : FileDesc := MkFileDesc [] root root [] 0x12.
Definition insert_kqueue (kq : K) (t : FileDesc) : FileDesc :=
  MkFileDesc (files t) (cwd t) (root t) (kq :: kqueue_list t) (cmask t).
Definition set_files (t : FileDesc) (l : list (option F)) : FileDesc :=
  MkFileDesc l (cwd t) (root t) (kqueue_list t) (cmask t).

(** The loop of [alloc_without_budget] and [alloc] from descriptor [i] on;
    [l] are the entries from there.  [mk] gets the descriptor. *)
Fixpoint alloc_from {E} (mk : Z -> outcome E F) (i : Z) (l : list (option F)) : outcome E (Z * list (option F)) :=
  if i32_max <? i then Panic (PExplicit "Too many files has been opened.")
  else
    match l with
    | [] => f ← mk i; Ok (i, [Some f])
    | None :: l => f ← mk i; Ok (i, Some f :: l)
    | Some g :: l => '(fd, l) ← alloc_from mk (i + 1) l; Ok (fd, Some g :: l)
    end.
Definition alloc_without_budget {E} (mk : Z -> outcome E F) (t : FileDesc) : outcome (FileAllocError E) (FileDesc * Z) :=
  '(fd, l) ← alloc_from (fun i => map_err (Inner E) (mk i)) 0 (files t); Ok (set_files t l, fd).
Definition alloc_with_budget {E} (mk : Z -> outcome E F) (budget : Z) (t : FileDesc)
    : outcome (FileAllocError E) (FileDesc * Z) :=
  alloc_without_budget mk t.

Definition alloc {E} (f : F) (t : FileDesc) : outcome E (FileDesc * Z) :=
  '(fd, l) ← alloc_from (fun _ => Ok f) 0 (files t); Ok (set_files t l, fd).

Definition get_internal (fd fl : Z) (t : FileDesc) : outcome GetFileError F :=
  fail_if (fd <? 0) NegativeFd;;
  e ← ok_or FdOutOfRange (files t !! Z.to_nat fd);
  f ← ok_or NoFile e;
  fail_if (((fl =? WRITE) || (fl =? READ)) && (Z.land (flags f) fl =? 0)) (BadFlags fl (flags f));;
  Ok f.
Definition get (fd : Z) (t : FileDesc) : outcome GetFileError F := get_internal fd 0 t.
Definition get_for_write (fd : Z) (t : FileDesc) : outcome GetFileError F := get_internal fd WRITE t.
Definition get_for_read (fd : Z) (t : FileDesc) : outcome GetFileError F := get_internal fd READ t.

Definition free (fd : Z) (t : FileDesc) : outcome FreeError FileDesc :=
  fail_if (fd <? 0) FNegativeFd;;
  match files t !! Z.to_nat fd with
  | Some _ => Ok (set_files t (<[Z.to_nat fd := None]> (files t)))
  | None => Err FNoFile
  end.

End files.
Arguments FileDesc : clear implicits.

(** ** Named objects *)

Section idt.
Context {T : Type}.

Definition ENTRY_COUNT : Z := 0x80.

Record Entry := MkEntry { e_name : option str; e_data : T; e_ty : Z }.
Record Idt := MkIdt { sets : list (list (option Entry)); next : Z; limit : Z }.

Definition idt_new (limit : Z) : outcome unit Idt :=
  assert_that (negb (limit =? 0));;
  Ok (MkIdt [replicate (Z.to_nat ENTRY_COUNT) None] 0 limit).

(** [try_alloc_with]: the table and the number. *)
Definition try_alloc_with {E} (factory : Z -> outcome E Entry) (t : Idt) : outcome E (Idt * Z) :=
  let id := next t in
  let set := id / ENTRY_COUNT in
  panic_if (Z.of_nat (length (sets t)) <=? set) PTodo;;
  s ← arr_get (sets t) set;
  entry ← arr_get s (id mod ENTRY_COUNT);
  assert_that (if entry is Some _ then false else true);;
  e ← factory id;
  s ← arr_set s (id mod ENTRY_COUNT) (Some e);
  ss ← arr_set (sets t) set s;
  Ok (MkIdt ss (id + 1) (limit t), id).

Definition idt_alloc (e : Entry) (t : Idt) : outcome unit (Idt * Z) := try_alloc_with (fun _ => Ok e) t.

(** [get_mut]: what it refers to.  A set has [ENTRY_COUNT] entries, so that
    the index into it is in range. *)
Definition get_mut (id : Z) (ty : option Z) (t : Idt) : option Entry :=
  if 0x10000 <=? id then None
  else
    let i := Z.land id 0x1fff in
    s ← sets t !! Z.to_nat (i / ENTRY_COUNT);
    e ← s !! Z.to_nat (i mod ENTRY_COUNT);
    e ← e;
    match ty with
    | Some ty => if e_ty e =? ty then Some e else None
    | None => Some e
    end.

End idt.
Arguments Entry : clear implicits.
Arguments Idt : clear implicits.

(** ** Budgets *)

Inductive ProcType := BigApp | MiniApp | System.
Definition ptype_value (p : ProcType) : Z := match p with BigApp => 0 | MiniApp => 1 | System => 2 end.
Record Budget := MkBudget { b_name : str; b_ptype : ProcType }.

Definition budgets_new : outcome unit (Idt Budget) := idt_new 0x1000.
Definition create (b : Budget) (t : Idt Budget) : outcome unit (Idt Budget * Z) :=
  idt_alloc (MkEntry (Some (b_name b)) b 0x2000) t.

Definition ENOENT : Z := 2.
Definition ESRCH : Z := 3.
Definition ENOSYS : Z := 78.

(** [sys_budget_get_ptype] called by a thread with credential [c] of the
    process [id] that has the budget [budget_id]. *)
Definition sys_budget_get_ptype (c : Cred.Ucred) (id : Z) (budget_id : option Z) (a0 : Z) (t : Idt Budget) : outcome Z Z :=
  pid ← VmSpace.arg_i32 a0;
  if Cred.is_system c || (pid =? -1) || (pid =? id) then
    if (pid =? -1) || (pid =? id) then
      b ← ok_or ENOENT budget_id;
      match get_mut b (Some 0x2000) t with
      | Some v => Ok (ptype_value (b_ptype (e_data v)))
      | None => Err ENOENT
      end
    else Err ESRCH
  else Err ENOSYS.

End FileDesc.
