(* ===== verification/FileDescProps.v ===== *)
(** * Theorems about the tables of a process

    The table of open files implements a finite map from descriptors to files
    that allocates the lowest free descriptor; the table of named objects
    returns what was put into it. *)
From stdpp Require Import gmap.
From S2P Require Import Prelude Env Cred VmSpace FileDesc.

Module FileDescProps.
Import FileDesc.
Local Open Scope list_scope.
Local Open Scope Z_scope.

(** ** Open files *)

Section files.
Context {F V K : Type}.
Implicit Types (t : FileDesc F V K) (l : list (option F)) (m : gmap nat F).

(** The abstract table: the open descriptors and their files. *)
Definition view l : gmap nat F := omap id (map_seq (M := gmap nat (option F)) 0 l).
Definition open t : gmap nat F := view (files t).

Lemma view_lookup l i : view l !! i = mjoin (l !! i).
Proof. unfold view. rewrite lookup_omap, lookup_map_seq_0. by destruct (l !! i) as [[f|]|]. Qed.

(** The lowest descriptor that is not open. *)
Definition lowest_free m (n : nat) : Prop := m !! n = None /\ forall j, (j < n)%nat -> is_Some (m !! j).

(** What a table has besides the files. *)
Definition same_rest t t' : Prop :=
  cwd t' = cwd t /\ root t' = root t /\ kqueue_list t' = kqueue_list t /\ cmask t' = cmask t.

(** The position of the first entry without a file. *)
Fixpoint first_free l : nat :=
  match l with Some _ :: l => S (first_free l) | _ => O end.

Lemma first_free_le l : (first_free l <= length l)%nat.
Proof. induction l as [|[f|] l IH]; cbn; lia. Qed.

Lemma first_free_lowest l : lowest_free (view l) (first_free l).
Proof.
  split.
  - rewrite view_lookup. induction l as [|[f|] l IH]; [done|exact IH|done].
  - intros j Hj. rewrite view_lookup. revert j Hj. induction l as [|[f|] l IH]; intros j Hj; cbn in Hj; [lia| |lia].
    destruct j as [|j]; [by eexists|]. apply (IH j). lia.
Qed.

Lemma lowest_free_unique m n n' : lowest_free m n -> lowest_free m n' -> n = n'.
Proof.
  intros [H1 H2] [H1' H2']. destruct (Nat.lt_total n n') as [Hl|[->|Hl]]; [|done|].
  - apply H2' in Hl as [f Hf]. congruence.
  - apply H2 in Hl as [f Hf]. congruence.
Qed.

(** The entries with a file at the first free position. *)
Definition fill l (f : F) : list (option F) :=
  take (first_free l) l ++ Some f :: drop (S (first_free l)) l.

Lemma view_fill l f : view (fill l f) = <[first_free l := f]> (view l).
Proof.
  apply map_eq. intros i. rewrite view_lookup. unfold fill. pose proof (first_free_le l) as Hle.
  destruct (Nat.lt_total i (first_free l)) as [Hi|[->|Hi]].
  - rewrite lookup_app_l by (rewrite length_take; lia). rewrite lookup_take_lt by lia.
    by rewrite lookup_insert_ne, view_lookup by lia.
  - by rewrite list_lookup_middle, lookup_insert_eq by (rewrite length_take; lia).
  - rewrite lookup_insert_ne, view_lookup by lia. f_equal.
    rewrite lookup_app_r by (rewrite length_take; lia). rewrite length_take, Nat.min_l by lia.
    replace (i - first_free l)%nat with (S (i - S (first_free l))) by lia.
    transitivity (drop (S (first_free l)) l !! (i - S (first_free l))%nat); [done|]. rewrite lookup_drop. f_equal. lia.
Qed.

Lemma alloc_from_eq {E} (mk : Z -> outcome E F) i l :
  0 <= i ->
  alloc_from mk i l =
    let fd := i + Z.of_nat (first_free l) in
    if i32_max <? fd then Panic (PExplicit "Too many files has been opened.")
    else f ← mk fd; Ok (fd, fill l f).
Proof.
  revert i. induction l as [|[g|] l IH]; intros i Hi; cbn [alloc_from first_free]; cbv zeta.
  - by rewrite Z.add_0_r.
  - rewrite IH by lia. cbv zeta.
    replace (i + 1 + Z.of_nat (first_free l)) with (i + Z.of_nat (S (first_free l))) by lia.
    destruct (Z.ltb_spec i32_max i), (Z.ltb_spec i32_max (i + Z.of_nat (S (first_free l)))); [done|lia|done|].
    by destruct (mk _).
  - rewrite Z.add_0_r. done.
Qed.

Variable flags : F -> Z.

Lemma alloc_at {E} (f : F) t :
  let n := first_free (files t) in
  if i32_max <? Z.of_nat n
  then alloc (E := E) f t = Panic (PExplicit "Too many files has been opened.")
  else exists t', alloc (E := E) f t = Ok (t', Z.of_nat n) /\ open t' = <[n := f]> (open t) /\ same_rest t t'.
Proof.
  cbv zeta. unfold alloc. rewrite alloc_from_eq by lia. cbv zeta. rewrite Z.add_0_l.
  case_match; [done|]. cbn [mbind outcome_bind]. eexists. split; [done|]. split; [apply view_fill|done].
Qed.

Lemma get_cases fd t :
  match get flags fd t with
  | Ok g => 0 <= fd /\ open t !! Z.to_nat fd = Some g
  | Err e => if fd <? 0 then e = NegativeFd
             else open t !! Z.to_nat fd = None
                  /\ e = if fd <? Z.of_nat (length (files t)) then NoFile else FdOutOfRange
  | Panic _ => False
  end.
Proof.
  unfold get, get_internal, fail_if, ok_or, open. rewrite view_lookup.
  destruct (Z.ltb_spec fd 0); cbn [mbind outcome_bind]; [done|].
  destruct (files t !! Z.to_nat fd) as [[g|]|] eqn:Hf; cbn [mbind outcome_bind].
  - done.
  - apply lookup_lt_Some in Hf. rewrite (proj2 (Z.ltb_lt _ _)) by lia. done.
  - apply lookup_ge_None in Hf. rewrite (proj2 (Z.ltb_ge _ _)) by lia. done.
Qed.

Lemma view_clear l n : view (<[n := None]> l) = delete n (view l).
Proof.
  apply map_eq. intros i. rewrite view_lookup. destruct (decide (i = n)) as [->|Hne].
  - rewrite lookup_delete_eq. destruct (decide (n < length l)%nat).
    + by rewrite list_lookup_insert_eq.
    + by rewrite (proj2 (lookup_ge_None _ _)) by (rewrite length_insert; lia).
  - by rewrite lookup_delete_ne, list_lookup_insert_ne, view_lookup.
Qed.

Lemma free_cases fd t :
  match free fd t with
  | Ok t' => 0 <= fd < Z.of_nat (length (files t)) /\ open t' = delete (Z.to_nat fd) (open t)
             /\ same_rest t t' /\ exists t'', free fd t' = Ok t''
  | Err e => if fd <? 0 then e = FNegativeFd else e = FNoFile /\ Z.of_nat (length (files t)) <= fd
  | Panic _ => False
  end.
Proof.
  unfold free, fail_if, open. destruct (Z.ltb_spec fd 0); cbn [mbind outcome_bind]; [done|].
  destruct (files t !! Z.to_nat fd) as [g|] eqn:Hf.
  - apply lookup_lt_Some in Hf. split; [lia|]. split; [apply view_clear|]. split; [done|].
    cbn [set_files files]. rewrite list_lookup_insert_eq by done. eauto.
  - apply lookup_ge_None in Hf. split; [done|lia].
Qed.

(** C35: The table of open files is a finite map from descriptors to files:
    [alloc] gives the file the lowest descriptor that is not open and stops only
    when that exceeds what a descriptor can hold; [get] finds exactly the open
    descriptors; [free] closes a descriptor and changes nothing else, and it
    accepts every descriptor that was ever allocated, also one that is closed
    already. *)
Theorem fd_table (f : F) t :
  exists n, lowest_free (open t) n
  /\ (forall E, if i32_max <? Z.of_nat n
        then alloc (E := E) f t = Panic (PExplicit "Too many files has been opened.")
        else exists t', alloc (E := E) f t = Ok (t', Z.of_nat n) /\ open t' = <[n := f]> (open t) /\ same_rest t t')
  /\ (forall fd, match get flags fd t with
        | Ok g => 0 <= fd /\ open t !! Z.to_nat fd = Some g
        | Err e => if fd <? 0 then e = NegativeFd
                   else open t !! Z.to_nat fd = None
                        /\ e = if fd <? Z.of_nat (length (files t)) then NoFile else FdOutOfRange
        | Panic _ => False
        end)
  /\ (forall fd, match free fd t with
        | Ok t' => 0 <= fd < Z.of_nat (length (files t)) /\ open t' = delete (Z.to_nat fd) (open t)
                   /\ same_rest t t' /\ exists t'', free fd t' = Ok t''
        | Err e => if fd <? 0 then e = FNegativeFd else e = FNoFile /\ Z.of_nat (length (files t)) <= fd
        | Panic _ => False
        end).
Proof.
  exists (first_free (files t)). split; [apply first_free_lowest|].
  split; [intros E; apply alloc_at|].
  split; intros fd; [apply get_cases|apply free_cases].
Qed.

(** A constructor gets the descriptor that its file will have, and its error is
    the error of the allocation. *)
Lemma alloc_constructor {E} (mk : Z -> outcome E F) t f :
  let n := Z.of_nat (first_free (files t)) in
  n <= i32_max ->
  (mk n = Ok f -> exists t', alloc_without_budget mk t = Ok (t', n) /\ open t' = <[Z.to_nat n := f]> (open t))
  /\ (forall e, mk n = Err e -> alloc_without_budget mk t = Err (Inner E e)).
Proof.
  cbv zeta. intros Hn. unfold alloc_without_budget. rewrite alloc_from_eq by lia. cbv zeta.
  rewrite Z.add_0_l, (proj2 (Z.ltb_ge _ _)) by lia. split.
  - intros ->. cbn [map_err mbind outcome_bind]. eexists. split; [done|]. rewrite Nat2Z.id. apply view_fill.
  - by intros e ->.
Qed.

End files.

(** ** Named objects *)

Section idt.
Context {T : Type}.
Implicit Types (t : Idt T) (e : Entry T).

(** Numbers are given in order, from the first set. *)
Definition idt_ok t : Prop :=
  exists s, sets t = [s] /\ length s = 128%nat /\ 0 <= next t <= 128
    /\ forall i : nat, (i < 128)%nat -> (s !! i = Some None <-> next t <= Z.of_nat i).

Lemma idt_new_ok n t : idt_new n = Ok t -> idt_ok t.
Proof.
  unfold idt_new. intros H. apply bind_Ok in H as ([] & _ & [= <-]). exists (replicate 128 None).
  split; [done|]. split; [apply length_replicate|]. split; [cbn; lia|]. intros i Hi. cbn [next].
  rewrite lookup_replicate. split; [lia|done].
Qed.

Lemma get_mut_low id ty t s :
  0 <= id < 128 -> sets t = [s] ->
  get_mut id ty t = e ← mjoin (s !! Z.to_nat id); if ty is Some ty then if e_ty e =? ty then Some e else None else Some e.
Proof.
  intros Hid Hs. unfold get_mut. rewrite (proj2 (Z.leb_gt _ _)) by lia. cbv zeta.
  assert (Z.land id 0x1fff = id) as ->.
  { change 0x1fff with (Z.ones 13). rewrite Z.land_ones, Z.mod_small by lia. done. }
  unfold ENTRY_COUNT. rewrite Z.div_small, Z.mod_small, Hs by lia.
  change ([s] !! Z.to_nat 0) with (Some s). cbn [mbind option_bind]. destruct (s !! Z.to_nat id) as [[e|]|]; done.
Qed.

(** An object is found under the number it got, and the others are as before. *)
Theorem idt_alloc_get e t :
  idt_ok t -> next t < 128 ->
  exists t', idt_alloc e t = Ok (t', next t) /\ idt_ok t'
    /\ get_mut (next t) (Some (e_ty e)) t' = Some e
    /\ forall id ty, 0 <= id < 128 -> id <> next t -> get_mut id ty t' = get_mut id ty t.
Proof.
  intros (s & Hs & Hl & Hn & Hf) Hlt. set (n := Z.to_nat (next t)).
  assert (s !! n = Some None) as Hnone by (apply Hf; lia).
  set (t' := MkIdt [<[n := Some e]> s] (next t + 1) (limit t)). exists t'. split.
  { unfold idt_alloc, try_alloc_with, ENTRY_COUNT. cbv zeta. rewrite Hs, Z.div_small, Z.mod_small by lia.
    rewrite (proj2 (arr_get_Ok [s] 0 s)) by done.
    rewrite (proj2 (panic_if_Ok _ _ tt)) by done. cbn [mbind outcome_bind].
    rewrite (proj2 (arr_get_Ok s (next t) None)) by (split; [lia|done]). cbn [mbind outcome_bind assert_that].
    rewrite (proj2 (arr_set_Ok s (next t) (Some e) (<[n := Some e]> s))) by (split; [lia|done]).
    done. }
  split; [|split].
  - exists (<[n := Some e]> s). split; [done|]. split; [by rewrite length_insert|]. cbn [next t']. split; [lia|].
    intros i Hi. destruct (decide (i = n)) as [->|Hne].
    + rewrite list_lookup_insert_eq by lia. split; [done|lia].
    + rewrite list_lookup_insert_ne, Hf by done. lia.
  - rewrite (get_mut_low _ _ t' (<[n := Some e]> s)) by first [lia|done]. fold n. rewrite list_lookup_insert_eq by lia.
    cbn. by rewrite Z.eqb_refl.
  - intros id ty Hid Hne. rewrite (get_mut_low _ _ t' (<[n := Some e]> s)), (get_mut_low _ _ t s) by done.
    by rewrite list_lookup_insert_ne by lia.
Qed.

End idt.

(** The type of a process is that of the budget it was created with. *)
Theorem budget_ptype c id b t :
  idt_ok t -> next t < 128 ->
  exists t' n, create b t = Ok (t', n)
    /\ sys_budget_get_ptype c id (Some n) (2 ^ 32 - 1) t' = Ok (ptype_value (b_ptype b)).
Proof.
  intros Ht Hn. destruct (idt_alloc_get (MkEntry (Some (b_name b)) b 0x2000) t Ht Hn) as (t' & Ha & _ & Hg & _).
  exists t', (next t). split; [done|]. unfold sys_budget_get_ptype. cbn [e_ty] in Hg.
  change (VmSpace.arg_i32 (2 ^ 32 - 1)) with (Ok (E := Z) (-1)). cbn [mbind outcome_bind].
  rewrite Z.eqb_refl, orb_true_r. cbn [orb ok_or mbind outcome_bind]. by rewrite Hg.
Qed.

End FileDescProps.
