(* ===== verification/RegMgr.v ===== *)
(** * The registry of the previous kernel

    Models [legacy/src/regmgr]: the table of entries, the lookup of a key, how
    the key of a request is decoded, and the system calls.  Entries cannot be
    changed; a request to set one can only confirm its value. *)
From S2P Require Import Prelude Env Cred VmSpace.

Module RegMgr.
Local Open Scope list_scope.
Local Open Scope Z_scope.

(** ** Keys ([key.rs]) *)

Definition REGISTRY_RECOVER : Z := 0x01050000.
Definition SYSTEM_UPDATE_MODE : Z := 0x02010000.
Definition SYSTEM_POWER_SHUTDOWN_STATUS : Z := 0x02820E00.
Definition SYSTEM_SPECIFIC_IDU_MODE : Z := 0x02860100.
Definition SYSTEM_SPECIFIC_SHOW_MODE : Z := 0x02860200.
Definition SYSTEM_SPECIFIC_ARCADE_MODE : Z := 0x02860300.
Definition AUDIOOUT_CONNECTOR_TYPE : Z := 0x0B060000.
Definition AUDIOOUT_CODEC : Z := 0x0B070000.
Definition NET_WIFI_FREQ_BAND : Z := 0x141E0500.
Definition NP_DEBUG : Z := 0x19810000.
Definition BROWSER_DEBUG_NOTIFICATION : Z := 0x3CC80700.
Definition DEVENV_TOOL_BOOT_PARAM : Z := 0x78020300.
Definition DEVENV_TOOL_TRC_NOTIFY : Z := 0x78026400.
Definition DEVENV_TOOL_USE_DEFAULT_LIB : Z := 0x78028300.
Definition DEVENV_TOOL_SYS_PRX_PRELOAD : Z := 0x78028A00.

(** ** Entries *)

Record RegEntry := E {
  key : Z; unk4 : Z; len : Z; unk8 : Z; unk6 : Z; unk5 : Z; value : Z; unk9 : Z; unk1 : Z; unk2 : Z; unk3 : Z
}.
Record RegUnk6 := U { u_key : Z; u_unk1 : Z; u_unk2 : Z; u_unk3 : Z; u_unk4 : Z }.

Inductive RegError :=
  | NotFound (key : Z) | ChecksumMismatched (expected got : Z)
  | V800d0206 | V800d0207 | V800d0208 | V800d0214 | V800d0216 | V800d0219 | V800d021f.

(** [v as i32] of a [u32]. *)
Definition as_i32 (v : Z) : Z := if v <? 2 ^ 31 then v else v - 2 ^ 32.
Definition code (e : RegError) : Z :=
  as_i32 match e with
    | NotFound _ => 0x800d0203
    | ChecksumMismatched _ _ => 0x800d0204
    | V800d0206 => 0x800d0206
    | V800d0207 => 0x800d0207
    | V800d0208 => 0x800d0208
    | V800d0214 => 0x800d0214
    | V800d0216 => 0x800d0216
    | V800d0219 => 0x800d0219
    | V800d021f => 0x800d021f
    end.

Definition SBOX1 : list Z :=
  [0x68; 0xe8; 0x98; 0x03; 0x9a; 0x70; 0x23; 0x5a; 0x63; 0xee; 0xf5; 0x7b; 0xff; 0xa4; 0x4c; 0x8c].
Definition SBOX2 : list Z :=
  [0x14; 0xee; 0xde; 0xe1; 0x80; 0xac; 0xf3; 0x78; 0x47; 0x43; 0xdb; 0x40; 0x93; 0xdd; 0xb1; 0x34].

Definition UNK_ENTRIES1 : list RegUnk6 :=
  [U NET_WIFI_FREQ_BAND 0 1 1 0; U AUDIOOUT_CONNECTOR_TYPE 0 1 2 0x40; U AUDIOOUT_CODEC 0 1 2 0x40].

Definition ENTRIES : list RegEntry :=
  [E 0x1010000 0x0 4 0x0 1 2 0x900001 0 0x0 0x0 0x0;
   E 0x1020000 0x0 4 0x0 1 2 0x400060 0 0x0 0x0 0x0;
   E 0x1030000 0x0 4 0x0 1 2 0x2000d 0 0x0 0x0 0x0;
   E 0x1040000 0x0 4 0x1000 1 2 0x0 0 0x0 0x0 0x0;
   E 0x1050000 0x0 4 0x1000 1 2 0x0 360 0x0 0x0 0x0;
   E 0x1060000 0x0 4 0x1000 1 2 0x900000 380 0x0 0x0 0x0;
   E 0x1070000 0x0 4 0x210 1 2 0x7e 0 0x0 0x0 0x0;
   E 0x1080000 0x0 4 0x220 1 2 0x700000 0 0x0 0x0 0x0;
   E 0x1400000 0x0 4 0x1000 1 2 0x0 0 0x0 0x0 0x300;
   E 0x1800100 0x0 4 0x200 16 2 0x0 0 0xa 0x10 0x0;
   E 0x1800200 0x0 4 0x210 16 2 0x28 0 0xa 0x10 0x0;
   E 0x2010000 0x0 4 0x20 1 2 0x0 100 0x0 0x0 0x300;
   E 0x2020000 0x0 4 0x2020 1 2 0x1 104 0x0 0x0 0x1355;
   E 0x2030000 0x0 4 0x2020 1 2 0x1 0 0x0 0x0 0x0;
   E 0x2040000 0x0 4 0x20 1 2 0x1 0 0x0 0x0 0x0;
   E 0x2050000 0x1 65 0x20 2 2 0x50 0 0x0 0x0 0x355;
   E 0x2060000 0x0 4 0x20 1 2 0x0 0 0x0 0x0 0x300;
   E 0x2070000 0x0 4 0x10 1 2 0x0 0 0x0 0x0 0x0;
   E 0x2080000 0x0 4 0x20 1 2 0x1 0 0x0 0x0 0x0;
   E 0x20a0000 0x0 4 0x1000 1 2 0x1 0 0x0 0x0 0x11;
   E 0x20b0000 0x0 4 0x6020 1 2 0x1 64 0x0 0x0 0x1355;
   E 0x20c0000 0x0 4 0x20 1 2 0x0 372 0x0 0x0 0x0;
   E 0x20e0000 0x0 4 0x20 1 2 0x1 0 0x0 0x0 0x11;
   E 0x20f0000 0x0 4 0x10 1 2 0x4 0 0x0 0x0 0x0;
   E 0x2100000 0x0 4 0x20 1 2 0x0 0 0x0 0x0 0x300;
   E 0x2110000 0x0 4 0x220 1 2 0x0 396 0x0 0x0 0x0;
   E 0x2120000 0x0 4 0x20 1 2 0x0 0 0x0 0x0 0x300;
   E 0x2800200 0x0 4 0x210 1 2 0x2501000 128 0x0 0x0 0x0;
   E 0x2800300 0x0 4 0x30 1 2 0x184 0 0x0 0x0 0x0;
   E 0x2800400 0x0 4 0x20 1 2 0x0 0 0x0 0x0 0x0;
   E 0x2800500 0x0 4 0x20 1 2 0x0 0 0x0 0x0 0x1;
   E 0x2800600 0x0 4 0x10 1 2 0x1501000 0 0x0 0x0 0x0;
   E 0x2800700 0x2 8 0x2020 2 2 0x91 0 0x0 0x0 0x0;
   E 0x2800800 0x0 4 0x20 1 2 0x0 0 0x0 0x0 0x0;
   E 0x2800900 0x0 4 0x20 1 2 0x7550001 0 0x0 0x0 0x0;
   E 0x2800a00 0x0 4 0x20 1 2 0x7550000 0 0x0 0x0 0x0;
   E 0x2800b00 0x1 30 0x20 2 2 0x99 0 0x0 0x0 0x0;
   E 0x2800c00 0x0 4 0x20 1 2 0x0 0 0x0 0x0 0x0;
   E 0x2800d00 0x0 4 0x20 1 2 0x1 0 0x0 0x0 0x0;
   E 0x2804000 0x0 4 0x20 1 2 0x0 368 0x0 0x0 0x0;
   E 0x2820100 0x0 4 0x8020 1 2 0x2 0 0x0 0x0 0x300;
   E 0x2820200 0x0 4 0x420 1 2 0x1 0 0x0 0x0 0x1;
   E 0x2820300 0x0 4 0x8020 1 2 0x1 0 0x0 0x0 0x0;
   E 0x2820400 0x0 4 0x20 1 2 0xe10 0 0x0 0x0 0x0;
   E 0x2820500 0x0 4 0x2020 1 2 0x0 0 0x0 0x0 0x300;
   E 0x2820600 0x0 4 0x2020 1 2 0x3c 0 0x0 0x0 0x300;
   E 0x2820700 0x0 4 0x20 1 2 0x0 0 0x0 0x0 0x0;
   E 0x2820800 0x0 4 0x8020 1 2 0x1 0 0x0 0x0 0x0;
   E 0x2820900 0x2 8 0x20 2 2 0xb7 0 0x0 0x0 0x0;
   E 0x2820b00 0x0 4 0x2020 1 2 0x1 0 0x0 0x0 0x0;
   E 0x2820c00 0x0 4 0x20 1 2 0x0 0 0x0 0x0 0x1011;
   E 0x2820e00 0x0 4 0x1000 1 2 0x0 0 0x0 0x0 0x0;
   E 0x2780100 0x0 4 0x210 1 2 0x1 0 0x0 0x0 0x0;
   E 0x2780200 0x0 4 0x210 1 2 0x1 0 0x0 0x0 0x0;
   E 0x2780300 0x0 4 0x210 1 2 0x1 0 0x0 0x0 0x0;
   E 0x2780400 0x0 4 0x210 1 2 0x1 0 0x0 0x0 0x0;
   E 0x27c0100 0x0 4 0x20 1 2 0xffffffff 0 0x0 0x0 0x11;
   E 0x2860100 0x0 4 0x1000 1 2 0xffffffff 0 0x0 0x0 0x0;
   E 0x2860300 0x0 4 0x1000 1 2 0xffffffff 0 0x0 0x0 0x0;
   E 0x2860500 0x1 40 0x10 2 2 0xbf 0 0x0 0x0 0x0;
   E 0x2880100 0x0 4 0x8020 1 2 0x0 0 0x0 0x0 0x0;
   E 0x2880200 0x0 4 0x20 1 2 0x0 0 0x0 0x0 0x300;
   E 0x2900100 0x0 4 0x10 1 2 0x1 0 0x0 0x0 0x0;
   E 0x2a00100 0x1 30 0x20 2 2 0xe7 0 0x0 0x0 0x0;
   E 0x2b00100 0x0 4 0x210 1 2 0x0 0 0x0 0x0 0x0;
   E 0x2b00200 0x0 4 0x210 1 2 0x0 0 0x0 0x0 0x0;
   E 0x2b80100 0x2 8 0x10 2 2 0x105 0 0x0 0x0 0x0;
   E 0x2bc0100 0x2 8 0x210 2 2 0x10d 0 0x0 0x0 0x0;
   E 0x2bc0200 0x2 8 0x210 2 2 0x115 0 0x0 0x0 0x0;
   E 0x2bc0300 0x2 8 0x210 2 2 0x11d 0 0x0 0x0 0x0;
   E 0x2bc0400 0x2 8 0x210 2 2 0x125 0 0x0 0x0 0x0;
   E 0x2bc0500 0x2 8 0x210 2 2 0x12d 0 0x0 0x0 0x0;
   E 0x2bc0600 0x2 8 0x210 2 2 0x135 0 0x0 0x0 0x0;
   E 0x2bc0700 0x2 8 0x210 2 2 0x13d 0 0x0 0x0 0x0;
   E 0x2bc0800 0x2 8 0x210 2 2 0x145 0 0x0 0x0 0x0;
   E 0x2bc0900 0x2 8 0x210 2 2 0x14d 0 0x0 0x0 0x0;
   E 0x2bc0a00 0x2 8 0x210 2 2 0x155 0 0x0 0x0 0x0;
   E 0x2bc0b00 0x2 8 0x210 2 2 0x15d 0 0x0 0x0 0x0;
   E 0x2bc4001 0x1 16 0x210 16 2 0x165 0 0x14 0x8 0x0;
   E 0x2bc4002 0x2 8 0x210 16 2 0x2a5 0 0x14 0x8 0x0;
   E 0x2bc4003 0x2 8 0x210 16 2 0x345 0 0x14 0x8 0x0;
   E 0x2be0100 0x0 4 0x20 1 2 0x0 0 0x0 0x0 0x0;
   E 0x2be0200 0x0 4 0x20 1 2 0x0 0 0x0 0x0 0x0;
   E 0x2c30100 0x0 4 0x1000 1 2 0x0 0 0x0 0x0 0x3;
   E 0x2c30200 0x0 4 0x1000 1 2 0x0 0 0x0 0x0 0x3;
   E 0x3800100 0x0 4 0x20 1 2 0x9 0 0x0 0x0 0x355;
   E 0x3800200 0x0 4 0x20 1 2 0x0 0 0x0 0x0 0x310;
   E 0x3800300 0x0 4 0x20 1 2 0xff 0 0x0 0x0 0x310;
   E 0x3800400 0x0 4 0x20 1 2 0x5553 0 0x0 0x0 0x310;
   E 0x3800500 0x0 4 0x20 1 2 0x0 0 0x0 0x0 0x310;
   E 0x3800600 0x0 4 0x20 1 2 0x0 0 0x0 0x0 0x300;
   E 0x3800700 0x0 4 0x20 1 2 0x0 0 0x0 0x0 0x300;
   E 0x3800800 0x1 16 0x20 2 2 0x3e5 0 0x0 0x0 0x310;
   E 0x3800900 0x0 4 0x20 1 2 0x0 0 0x0 0x0 0x300;
   E 0x3800a00 0x0 4 0x1000 1 2 0x0 0 0x0 0x0 0x111;
   E 0x5010000 0x0 4 0x2020 1 2 0xf 0 0x0 0x0 0x355;
   E 0x5020000 0x0 4 0x2020 1 2 0x2 0 0x0 0x0 0x355;
   E 0x5030000 0x0 4 0x2020 1 2 0x0 0 0x0 0x0 0x355;
   E 0x5040000 0x0 4 0x2020 1 2 0x1 0 0x0 0x0 0x355;
   E 0x5050000 0x0 4 0x20 1 2 0x1 0 0x0 0x0 0x300;
   E 0x5060000 0x0 4 0x1000 1 2 0x1 0 0x0 0x0 0x55;
   E 0x5070000 0x0 4 0x20 1 2 0xffffc7c0 0 0x0 0x0 0x55;
   E 0x5080000 0x0 4 0x1000 1 2 0xffffb9b0 0 0x0 0x0 0x55;
   E 0x5090000 0x1 30 0x20 2 2 0x3f5 0 0x0 0x0 0x0;
   E 0x50a0000 0x0 4 0x2020 1 2 0x1 0 0x0 0x0 0x0;
   E 0x5140000 0x2 8 0x220 2 2 0x413 108 0x0 0x0 0x0;
   E 0x5150000 0x2 8 0x220 2 2 0x41b 0 0x0 0x0 0x0;
   E 0x5160000 0x2 8 0x220 2 2 0x423 0 0x0 0x0 0x0;
   E 0x5170000 0x2 8 0x220 2 2 0x42b 0 0x0 0x0 0x0;
   E 0x5180000 0x2 8 0x220 2 2 0x433 424 0x0 0x0 0x0;
   E 0x7010000 0x0 4 0x20 1 2 0x1180c69e 0 0x0 0x0 0x0;
   E 0x7020000 0x0 4 0x10 1 2 0x1180c69e 0 0x0 0x0 0x0;
   E 0x7030000 0x0 4 0x1000 1 2 0x0 0 0x0 0x0 0x0;
   E 0x7040000 0x0 4 0x20 1 2 0x0 0 0x0 0x0 0x0;
   E 0x7050000 0x0 4 0x10 1 2 0x26d3ffde 0 0x0 0x0 0x0;
   E 0x7060000 0x0 4 0x10 1 2 0x2fffffff 0 0x0 0x0 0x0;
   E 0x7070000 0x0 4 0x10 1 2 0x0 0 0x0 0x0 0x0;
   E 0x7800100 0x0 4 0x10 16 2 0x43b 0 0x10 0x10 0x0;
   E 0x7800200 0x1 17 0x10 16 2 0x47b 0 0x10 0x10 0x300;
   E 0x7800300 0x1 16 0x20 16 2 0x58b 0 0x10 0x10 0x0;
   E 0x7800500 0x2 8 0x10 16 2 0x68b 0 0x10 0x10 0x0;
   E 0x7800600 0x1 65 0x20 16 2 0x70b 0 0x10 0x10 0x0;
   E 0x7800700 0x0 4 0x20 16 2 0xb1b 0 0x10 0x10 0x300;
   E 0x7800800 0x0 4 0x10 16 2 0xb5b 0 0x10 0x10 0x0;
   E 0x7800900 0x0 4 0x10 16 2 0xb9b 0 0x10 0x10 0x0;
   E 0x7800a00 0x0 4 0x20 16 2 0xbdb 0 0x10 0x10 0x0;
   E 0x7800b00 0x0 4 0x20 16 2 0xc1b 0 0x10 0x10 0x0;
   E 0x7800c00 0x0 4 0x20 16 2 0xc5b 0 0x10 0x10 0x0;
   E 0x7800d00 0x0 4 0x20 16 2 0xc9b 0 0x10 0x10 0x0;
   E 0x7800e00 0x0 4 0x10 16 2 0xcdb 0 0x10 0x10 0x0;
   E 0x7800f00 0x0 4 0x10 16 2 0xd1b 0 0x10 0x10 0x0;
   E 0x7801000 0x0 4 0x20 16 2 0xd5b 0 0x10 0x10 0x300;
   E 0x7801100 0x2 8 0x20 16 2 0xd9b 0 0x10 0x10 0x0;
   E 0x7805c01 0x0 4 0x20 16 2 0xe1b 0 0x10 0x10 0x311;
   E 0x7805c02 0x0 4 0x20 16 2 0xe5b 0 0x10 0x10 0x310;
   E 0x7805c03 0x0 4 0x20 16 2 0xe9b 0 0x10 0x10 0x310;
   E 0x7805c04 0x0 4 0x20 16 2 0xedb 0 0x10 0x10 0x310;
   E 0x7805c05 0x0 4 0x20 16 2 0xf1b 0 0x10 0x10 0x300;
   E 0x7805c06 0x0 4 0x20 16 2 0xf5b 0 0x10 0x10 0x300;
   E 0x7805c07 0x0 4 0x20 16 2 0xf9b 0 0x10 0x10 0x311;
   E 0x7806401 0x0 4 0x20 16 2 0xfdb 0 0x10 0x10 0x0;
   E 0x7806402 0x0 4 0x10 16 2 0x101b 0 0x10 0x10 0x0;
   E 0x7806403 0x0 4 0x20 16 2 0x105b 0 0x10 0x10 0x0;
   E 0x7806c01 0x0 4 0x20 16 2 0x109b 0 0x10 0x10 0x355;
   E 0x7806c02 0x0 4 0x20 16 2 0x10db 0 0x10 0x10 0x0;
   E 0x7806c03 0x2 16 0x20 16 2 0x111b 0 0x10 0x10 0x0;
   E 0x7807801 0x0 4 0x20 16 2 0x121b 0 0x10 0x10 0x0;
   E 0x7807c01 0x0 4 0x10 16 2 0x125b 0 0x10 0x10 0x0;
   E 0x7807c02 0x0 4 0x10 16 2 0x129b 0 0x10 0x10 0x0;
   E 0x7807c03 0x0 4 0x20 16 2 0x12db 0 0x10 0x10 0x0;
   E 0x7808001 0x0 4 0x2020 16 2 0x131b 0 0x10 0x10 0x0;
   E 0x7808002 0x0 4 0x2020 16 2 0x135b 0 0x10 0x10 0x0;
   E 0x7808003 0x0 4 0x2020 16 2 0x139b 0 0x10 0x10 0x0;
   E 0x7808004 0x0 4 0x2020 16 2 0x13db 0 0x10 0x10 0x0;
   E 0x7808005 0x0 4 0x2020 16 2 0x141b 0 0x10 0x10 0x0;
   E 0x7808006 0x0 4 0x2020 16 2 0x145b 0 0x10 0x10 0x0;
   E 0x7808007 0x0 4 0x2020 16 2 0x149b 0 0x10 0x10 0x0;
   E 0x7808008 0x0 4 0x2020 16 2 0x14db 0 0x10 0x10 0x0;
   E 0x7808009 0x0 4 0x2020 16 2 0x151b 0 0x10 0x10 0x0;
   E 0x780800a 0x0 4 0x2020 16 2 0x155b 0 0x10 0x10 0x0;
   E 0x780800b 0x0 4 0x2020 16 2 0x159b 0 0x10 0x10 0x0;
   E 0x780800c 0x0 4 0x2020 16 2 0x15db 0 0x10 0x10 0x0;
   E 0x780800d 0x0 4 0x2020 16 2 0x161b 0 0x10 0x10 0x0;
   E 0x780800e 0x0 4 0x2020 16 2 0x165b 0 0x10 0x10 0x0;
   E 0x780800f 0x0 4 0x2020 16 2 0x169b 0 0x10 0x10 0x0;
   E 0x7808010 0x0 4 0x2020 16 2 0x16db 0 0x10 0x10 0x0;
   E 0x7808011 0x0 4 0x2020 16 2 0x171b 0 0x10 0x10 0x0;
   E 0x7808012 0x0 4 0x2020 16 2 0x175b 0 0x10 0x10 0x0;
   E 0x7808013 0x0 4 0x2020 16 2 0x179b 0 0x10 0x10 0x0;
   E 0x7808014 0x0 4 0x2020 16 2 0x17db 0 0x10 0x10 0x0;
   E 0x7808015 0x0 4 0x2020 16 2 0x181b 0 0x10 0x10 0x0;
   E 0x7808016 0x0 4 0x2020 16 2 0x185b 0 0x10 0x10 0x0;
   E 0x7808017 0x0 4 0x2020 16 2 0x189b 0 0x10 0x10 0x0;
   E 0x7808018 0x0 4 0x2020 16 2 0x18db 0 0x10 0x10 0x0;
   E 0x7808019 0x0 4 0x2020 16 2 0x191b 0 0x10 0x10 0x0;
   E 0x780801a 0x0 4 0x2020 16 2 0x195b 0 0x10 0x10 0x0;
   E 0x780801b 0x0 4 0x2020 16 2 0x199b 0 0x10 0x10 0x0;
   E 0x780801c 0x0 4 0x2020 16 2 0x19db 0 0x10 0x10 0x0;
   E 0x780801d 0x0 4 0x2020 16 2 0x1a1b 0 0x10 0x10 0x0;
   E 0x780801e 0x0 4 0x2020 16 2 0x1a5b 0 0x10 0x10 0x0;
   E 0x780801f 0x0 4 0x2020 16 2 0x1a9b 0 0x10 0x10 0x0;
   E 0x7808080 0x0 4 0x20 16 2 0x1adb 0 0x10 0x10 0x300;
   E 0x7808081 0x0 4 0x20 16 2 0x1b1b 0 0x10 0x10 0x0;
   E 0x7808082 0x0 4 0x20 16 2 0x1b5b 0 0x10 0x10 0x300;
   E 0x7808083 0x0 4 0x20 16 2 0x1b9b 0 0x10 0x10 0x0;
   E 0x7808084 0x0 4 0x20 16 2 0x1bdb 0 0x10 0x10 0x0;
   E 0x7808085 0x0 4 0x20 16 2 0x1c1b 0 0x10 0x10 0x0;
   E 0x7809001 0x0 4 0x20 16 2 0x1c5b 0 0x10 0x10 0x300;
   E 0x7809002 0x0 4 0x2020 16 2 0x1c9b 0 0x10 0x10 0x300;
   E 0x7809003 0x0 4 0x20 16 2 0x1cdb 0 0x10 0x10 0x300;
   E 0x7809004 0x0 4 0x2020 16 2 0x1d1b 0 0x10 0x10 0x300;
   E 0x7809005 0x0 4 0x20 16 2 0x1d5b 0 0x10 0x10 0x300;
   E 0x7809006 0x0 4 0x20 16 2 0x1d9b 0 0x10 0x10 0x300;
   E 0x780a001 0x0 4 0x20 16 2 0x1ddb 0 0x10 0x10 0x0;
   E 0x780a002 0x0 4 0x20 16 2 0x1e1b 0 0x10 0x10 0x0;
   E 0x780a003 0x0 4 0x20 16 2 0x1e5b 0 0x10 0x10 0x0;
   E 0x780a004 0x0 4 0x20 16 2 0x1e9b 0 0x10 0x10 0x0;
   E 0x780a005 0x0 4 0x20 16 2 0x1edb 0 0x10 0x10 0x355;
   E 0x780a006 0x0 4 0x20 16 2 0x1f1b 0 0x10 0x10 0x0;
   E 0x780a007 0x0 4 0x20 16 2 0x1f5b 0 0x10 0x10 0x300;
   E 0x780a008 0x0 4 0x20 16 2 0x1f9b 0 0x10 0x10 0x300;
   E 0x780a009 0x0 4 0x20 16 2 0x1fdb 0 0x10 0x10 0x300;
   E 0x780a00a 0x0 4 0x20 16 2 0x201b 0 0x10 0x10 0x303;
   E 0x780a00b 0x0 4 0x20 16 2 0x205b 0 0x10 0x10 0x303;
   E 0x780a00c 0x0 4 0x20 16 2 0x209b 0 0x10 0x10 0x0;
   E 0x780a00d 0x0 4 0x20 16 2 0x20db 0 0x10 0x10 0x0;
   E 0x780a00e 0x0 4 0x20 16 2 0x211b 0 0x10 0x10 0x0;
   E 0x780a00f 0x0 4 0x20 16 2 0x215b 0 0x10 0x10 0x300;
   E 0x780b003 0x0 4 0x20 16 2 0x219b 0 0x10 0x10 0x33;
   E 0x780b004 0x0 4 0x10 16 2 0x21db 0 0x10 0x10 0x0;
   E 0x780b007 0x1 17 0x10 16 2 0x221b 0 0x10 0x10 0x0;
   E 0x780b008 0x1 37 0x4010 16 2 0x232b 0 0x10 0x10 0x0;
   E 0x780b009 0x0 4 0x10 16 2 0x257b 0 0x10 0x10 0x0;
   E 0x780b00a 0x0 4 0x4010 16 2 0x25bb 0 0x10 0x10 0x0;
   E 0x780b00b 0x0 4 0x10 16 2 0x25fb 0 0x10 0x10 0x0;
   E 0x780b00c 0x1 17 0x10 16 2 0x263b 0 0x10 0x10 0x0;
   E 0x780b00d 0x1 65 0x10 16 2 0x274b 0 0x10 0x10 0x0;
   E 0x780b00e 0x1 3 0x10 16 2 0x2b5b 0 0x10 0x10 0x0;
   E 0x780b00f 0x1 6 0x10 16 2 0x2b8b 0 0x10 0x10 0x0;
   E 0x780b010 0x1 36 0x10 16 2 0x2beb 0 0x10 0x10 0x0;
   E 0x780b011 0x1 11 0x10 16 2 0x2e2b 0 0x10 0x10 0x0;
   E 0x780b012 0x0 4 0x10 16 2 0x2edb 0 0x10 0x10 0x0;
   E 0x780b013 0x1 65 0x10 16 2 0x2f1b 0 0x10 0x10 0x0;
   E 0x780b801 0x0 4 0x4020 16 2 0x332b 0 0x10 0x10 0x10;
   E 0x780b802 0x0 4 0x4020 16 2 0x336b 0 0x10 0x10 0x10;
   E 0x780b803 0x0 4 0x4020 16 2 0x33ab 0 0x10 0x10 0x10;
   E 0x780b804 0x0 4 0x4020 16 2 0x33eb 0 0x10 0x10 0x10;
   E 0x780b805 0x0 4 0x4020 16 2 0x342b 0 0x10 0x10 0x10;
   E 0x780b806 0x2 8 0x4020 16 2 0x346b 0 0x10 0x10 0x10;
   E 0x780b807 0x0 4 0x4020 16 2 0x34eb 0 0x10 0x10 0x10;
   E 0x780b808 0x0 4 0x4020 16 2 0x352b 0 0x10 0x10 0x10;
   E 0x780b809 0x0 4 0x4020 16 2 0x356b 0 0x10 0x10 0x10;
   E 0x780b80a 0x0 4 0x4020 16 2 0x35ab 0 0x10 0x10 0x10;
   E 0x780b80b 0x0 4 0x4020 16 2 0x35eb 0 0x10 0x10 0x10;
   E 0x780b80c 0x0 4 0x4020 16 2 0x362b 0 0x10 0x10 0x10;
   E 0x780b80d 0x0 4 0x4020 16 2 0x366b 0 0x10 0x10 0x10;
   E 0x780b80e 0x0 4 0x4020 16 2 0x36ab 0 0x10 0x10 0x10;
   E 0x780b80f 0x0 4 0x4020 16 2 0x36eb 0 0x10 0x10 0x10;
   E 0x780b810 0x0 4 0x4020 16 2 0x372b 0 0x10 0x10 0x10;
   E 0x780b811 0x0 4 0x4020 16 2 0x376b 0 0x10 0x10 0x10;
   E 0x780b812 0x0 4 0x4020 16 2 0x37ab 0 0x10 0x10 0x10;
   E 0x780b813 0x0 4 0x4020 16 2 0x37eb 0 0x10 0x10 0x10;
   E 0x780b814 0x0 4 0x4020 16 2 0x382b 0 0x10 0x10 0x10;
   E 0x780b815 0x0 4 0x4020 16 2 0x386b 0 0x10 0x10 0x10;
   E 0x780b816 0x0 4 0x4020 16 2 0x38ab 0 0x10 0x10 0x10;
   E 0x780b817 0x0 4 0x4020 16 2 0x38eb 0 0x10 0x10 0x10;
   E 0x780b818 0x0 4 0x4020 16 2 0x392b 0 0x10 0x10 0x10;
   E 0x780b819 0x0 4 0x4020 16 2 0x396b 0 0x10 0x10 0x10;
   E 0x780b81a 0x0 4 0x4020 16 2 0x39ab 0 0x10 0x10 0x10;
   E 0x780b81b 0x0 4 0x4020 16 2 0x39eb 0 0x10 0x10 0x10;
   E 0x780bc01 0x0 4 0x20 16 2 0x3a2b 0 0x10 0x10 0x0;
   E 0x780bc02 0x0 4 0x20 16 2 0x3a6b 0 0x10 0x10 0x0;
   E 0x780bc03 0x0 4 0x20 16 2 0x3aab 0 0x10 0x10 0x0;
   E 0x780bd01 0x0 4 0x20 16 2 0x3aeb 0 0x10 0x10 0x0;
   E 0x780bd02 0x0 4 0x20 16 2 0x3b2b 0 0x10 0x10 0x0;
   E 0x780bd03 0x0 4 0x20 16 2 0x3b6b 0 0x10 0x10 0x0;
   E 0x780c001 0x0 4 0x20 16 2 0x3bab 0 0x10 0x10 0x0;
   E 0x780c002 0x0 4 0x20 16 2 0x3beb 0 0x10 0x10 0x0;
   E 0x780c003 0x0 4 0x20 16 2 0x3c2b 0 0x10 0x10 0x0;
   E 0x780c004 0x0 4 0x20 16 2 0x3c6b 0 0x10 0x10 0x0;
   E 0x780c005 0x0 4 0x20 16 2 0x3cab 0 0x10 0x10 0x0;
   E 0x780c006 0x0 4 0x20 16 2 0x3ceb 0 0x10 0x10 0x0;
   E 0x780c007 0x1 32 0x20 16 2 0x3d2b 0 0x10 0x10 0x0;
   E 0x780c008 0x0 4 0x20 16 2 0x3f2b 0 0x10 0x10 0x0;
   E 0x780c009 0x0 4 0x20 16 2 0x3f6b 0 0x10 0x10 0x0;
   E 0x780c00a 0x0 4 0x20 16 2 0x3fab 0 0x10 0x10 0x300;
   E 0x780c00b 0x1 41 0x20 16 2 0x3feb 0 0x10 0x10 0x0;
   E 0x780c00c 0x1 41 0x20 16 2 0x427b 0 0x10 0x10 0x0;
   E 0x780c00d 0x0 4 0x20 16 2 0x450b 0 0x10 0x10 0x0;
   E 0x780c00e 0x1 128 0x20 16 2 0x454b 0 0x10 0x10 0x0;
   E 0x780c010 0x0 4 0x20 16 2 0x4d4b 0 0x10 0x10 0x0;
   E 0x780c011 0x0 4 0x20 16 2 0x4d8b 0 0x10 0x10 0x0;
   E 0x780c012 0x0 4 0x20 16 2 0x4dcb 0 0x10 0x10 0x0;
   E 0x780c013 0x0 4 0x20 16 2 0x4e0b 0 0x10 0x10 0x0;
   E 0x780c014 0x1 32 0x20 16 2 0x4e4b 0 0x10 0x10 0x0;
   E 0x780c015 0x0 4 0x20 16 2 0x504b 0 0x10 0x10 0x0;
   E 0x780c016 0x0 4 0x20 16 2 0x508b 0 0x10 0x10 0x0;
   E 0x780c017 0x0 4 0x20 16 2 0x50cb 0 0x10 0x10 0x0;
   E 0x780c018 0x0 4 0x20 16 2 0x510b 0 0x10 0x10 0x0;
   E 0x780c019 0x0 4 0x20 16 2 0x514b 0 0x10 0x10 0x0;
   E 0x780c01a 0x0 4 0x20 16 2 0x518b 0 0x10 0x10 0x0;
   E 0x780c01b 0x0 4 0x20 16 2 0x51cb 0 0x10 0x10 0x0;
   E 0x780c01c 0x0 4 0x20 16 2 0x520b 0 0x10 0x10 0x0;
   E 0x780c01d 0x0 4 0x20 16 2 0x524b 0 0x10 0x10 0x0;
   E 0x780c01e 0x0 4 0x20 16 2 0x528b 0 0x10 0x10 0x0;
   E 0x780c01f 0x0 4 0x20 16 2 0x52cb 0 0x10 0x10 0x0;
   E 0x780c020 0x0 4 0x20 16 2 0x530b 0 0x10 0x10 0x0;
   E 0x780c021 0x0 4 0x20 16 2 0x534b 0 0x10 0x10 0x0;
   E 0x780c022 0x0 4 0x20 16 2 0x538b 0 0x10 0x10 0x0;
   E 0x780c023 0x0 4 0x20 16 2 0x53cb 0 0x10 0x10 0x0;
   E 0x780c024 0x2 8 0x20 16 2 0x540b 0 0x10 0x10 0x0;
   E 0x780c025 0x0 4 0x20 16 2 0x548b 0 0x10 0x10 0x0;
   E 0x780c026 0x0 4 0x20 16 2 0x54cb 0 0x10 0x10 0x0;
   E 0x780c027 0x0 4 0x20 16 2 0x550b 0 0x10 0x10 0x0;
   E 0x780c028 0x0 4 0x20 16 2 0x554b 0 0x10 0x10 0x0;
   E 0x780c029 0x0 4 0x20 16 2 0x558b 0 0x10 0x10 0x0;
   E 0x780c02a 0x0 4 0x20 16 2 0x55cb 0 0x10 0x10 0x0;
   E 0x780c02b 0x0 4 0x20 16 2 0x560b 0 0x10 0x10 0x0;
   E 0x780c02c 0x1 37 0x20 16 2 0x564b 0 0x10 0x10 0x0;
   E 0x780c041 0x1 841 0x20 16 2 0x589b 0 0x10 0x10 0x0;
   E 0x780c042 0x0 4 0x20 16 2 0x8d2b 0 0x10 0x10 0x0;
   E 0x780c043 0x1 601 0x20 16 2 0x8d6b 0 0x10 0x10 0x0;
   E 0x780c501 0x0 4 0x20 16 2 0xb2fb 0 0x10 0x10 0x0;
   E 0x780c502 0x0 4 0x20 16 2 0xb33b 0 0x10 0x10 0x0;
   E 0x780c504 0x1 81 0x20 16 2 0xb37b 0 0x10 0x10 0x0;
   E 0x780c505 0x1 81 0x20 16 2 0xb88b 0 0x10 0x10 0x0;
   E 0x780c506 0x0 4 0x20 16 2 0xbd9b 0 0x10 0x10 0x0;
   E 0x780c601 0x0 4 0x20 16 2 0xbddb 0 0x10 0x10 0x0;
   E 0x780c602 0x1 512 0x20 16 2 0xbe1b 0 0x10 0x10 0x0;
   E 0x780c603 0x2 240 0x20 16 2 0xde1b 0 0x10 0x10 0x0;
   E 0x780c701 0x0 4 0x20 16 2 0xed1b 0 0x10 0x10 0x0;
   E 0x780d001 0x0 4 0x20 16 2 0xed5b 0 0x10 0x10 0x0;
   E 0x780d002 0x0 4 0x20 16 2 0xed9b 0 0x10 0x10 0x0;
   E 0x780d101 0x0 4 0x20 16 2 0xeddb 0 0x10 0x10 0x0;
   E 0x780d102 0x0 4 0x20 16 2 0xee1b 0 0x10 0x10 0x0;
   E 0x780dc01 0x1 37 0x20 16 2 0xee5b 0 0x10 0x10 0x0;
   E 0x780dc02 0x0 4 0x20 16 2 0xf0ab 0 0x10 0x10 0x0;
   E 0x780dc03 0x0 4 0x20 16 2 0xf0eb 0 0x10 0x10 0x0;
   E 0x780dc04 0x0 4 0x20 16 2 0xf12b 0 0x10 0x10 0x300;
   E 0x780dc05 0x0 4 0x20 16 2 0xf16b 0 0x10 0x10 0x0;
   E 0x780dc06 0x0 4 0x20 16 2 0xf1ab 0 0x10 0x10 0x0;
   E 0x780dc07 0x0 4 0x20 16 2 0xf1eb 0 0x10 0x10 0x0;
   E 0x780e001 0x0 4 0x20 16 2 0xf22b 0 0x10 0x10 0x0;
   E 0x780e002 0x0 4 0x20 16 2 0xf26b 0 0x10 0x10 0x0;
   E 0x780e003 0x0 4 0x20 16 2 0xf2ab 0 0x10 0x10 0x0;
   E 0x780e004 0x0 4 0x20 16 2 0xf2eb 0 0x10 0x10 0x0;
   E 0x780e005 0x0 4 0x20 16 2 0xf32b 0 0x10 0x10 0x0;
   E 0x780e101 0x0 4 0x20 16 2 0xf36b 0 0x10 0x10 0x0;
   E 0x780e401 0x0 4 0x20 16 2 0xf3ab 0 0x10 0x10 0x0;
   E 0x780e402 0x0 4 0x20 16 2 0xf3eb 0 0x10 0x10 0x0;
   E 0x780e403 0x0 4 0x10 16 2 0xf42b 0 0x10 0x10 0x0;
   E 0x780f801 0x2 64 0x1000 16 2 0xf46b 0 0x10 0x10 0x0;
   E 0x780f802 0x2 8 0x1000 16 2 0xf86b 0 0x10 0x10 0x0;
   E 0x780f803 0x0 4 0x1000 16 2 0xf8eb 0 0x10 0x10 0x0;
   E 0x9010000 0x0 4 0x20 1 2 0x0 0 0x0 0x0 0x355;
   E 0x9020000 0x0 4 0x20 1 2 0x0 0 0x0 0x0 0x355;
   E 0x9030000 0x0 4 0x20 1 2 0x0 0 0x0 0x0 0x355;
   E 0x9040000 0x0 4 0x20 1 2 0x0 0 0x0 0x0 0x355;
   E 0x9050000 0x0 4 0x20 1 2 0x0 0 0x0 0x0 0x300;
   E 0x9060000 0x0 4 0x20 1 2 0x0 0 0x0 0x0 0x355;
   E 0x9070000 0x0 4 0x20 1 2 0x0 0 0x0 0x0 0x355;
   E 0x9400100 0x0 4 0x20 1 2 0x0 0 0x0 0x0 0x355;
   E 0x9400200 0x0 4 0x20 1 2 0x3 0 0x0 0x0 0x355;
   E 0x9400300 0x0 4 0x20 1 2 0xc 0 0x0 0x0 0x355;
   E 0x9400400 0x0 4 0x20 1 2 0x1 0 0x0 0x0 0x300;
   E 0xa030000 0x0 4 0x2020 1 2 0x0 72 0x0 0x0 0x333;
   E 0xa040000 0x0 4 0x20 1 2 0x0 76 0x0 0x0 0x333;
   E 0xa060000 0x0 4 0x20 1 2 0x1 116 0x0 0x0 0x333;
   E 0xa070000 0x0 4 0x20 1 2 0x2e 120 0x0 0x0 0x333;
   E 0xa080000 0x0 4 0x2020 1 2 0x1 136 0x0 0x0 0x333;
   E 0xa0a0000 0x0 4 0x20 1 2 0x0 140 0x0 0x0 0x300;
   E 0xa0d0000 0x0 4 0x220 1 2 0x729 0 0x0 0x0 0x355;
   E 0xa0f0000 0x2 128 0x20 2 2 0xf92b 216 0x0 0x0 0x30;
   E 0xa100000 0x0 4 0x20 1 2 0x0 348 0x0 0x0 0x0;
   E 0xa110000 0x0 4 0x20 1 2 0x0 352 0x0 0x0 0x311;
   E 0xa120000 0x0 4 0x20 1 2 0x0 388 0x0 0x0 0x300;
   E 0xa130000 0x0 4 0x20 1 2 0x0 392 0x0 0x0 0x0;
   E 0xa140000 0x0 4 0x20 1 2 0x0 400 0x0 0x0 0x300;
   E 0xa150000 0x0 4 0x20 1 2 0x1 404 0x0 0x0 0x300;
   E 0xa160000 0x0 4 0x20 1 2 0x0 408 0x0 0x0 0x0;
   E 0xa170000 0x0 4 0x20 1 2 0x0 0 0x0 0x0 0x301;
   E 0xa180000 0x2 4 0x20 1 2 0xffffffff 0 0x0 0x0 0x311;
   E 0xa190000 0x2 4 0x20 1 2 0xffffffff 0 0x0 0x0 0x311;
   E 0xa1a0000 0x2 4 0x20 1 2 0xffffffff 0 0x0 0x0 0x311;
   E 0xa1b0000 0x0 4 0x1000 1 2 0x1 0 0x0 0x0 0x300;
   E 0xa1c0000 0x2 1024 0x20 2 2 0xf9ab 0 0x0 0x0 0x0;
   E 0xb030000 0x0 4 0x20 1 2 0x1 344 0x0 0x0 0x300;
   E 0xb040000 0x0 4 0x20 1 2 0x0 0 0x0 0x0 0x355;
   E 0xb050000 0x0 4 0x20 1 2 0x0 0 0x0 0x0 0x300;
   E 0xb060000 0x0 4 0x20 1 2 0x0 152 0x0 0x0 0x300;
   E 0xb070000 0x0 4 0x20 1 2 0x18 156 0x0 0x0 0x300;
   E 0xb080000 0x0 4 0x20 1 2 0x0 160 0x0 0x0 0x300;
   E 0xb090000 0x0 4 0x20 1 2 0x0 356 0x0 0x0 0x300;
   E 0xb400101 0x2 32 0x20 16 2 0xfdab 0 0x14 0x8 0x0;
   E 0xc010000 0x2 8 0x4020 2 2 0x1002b 0 0x0 0x0 0x30;
   E 0xc020000 0x0 4 0x20 1 2 0x0 0 0x0 0x0 0x300;
   E 0xc400101 0x2 32 0x20 16 2 0x10033 0 0x14 0x8 0x0;
   E 0x12010100 0x2 1000 0x220 16 2 0x102b3 0 0x20 0x10 0x0;
   E 0x14140100 0x1 16 0x20 2 2 0x17fb3 0 0x0 0x0 0x303;
   E 0x14140200 0x1 16 0x20 2 2 0x17fc3 0 0x0 0x0 0x303;
   E 0x14140300 0x1 16 0x20 2 2 0x17fd3 0 0x0 0x0 0x303;
   E 0x14140400 0x0 4 0x20 1 2 0x0 0 0x0 0x0 0x303;
   E 0x14140500 0x1 16 0x20 2 2 0x17fe3 0 0x0 0x0 0x303;
   E 0x14140600 0x1 16 0x20 2 2 0x17ff3 0 0x0 0x0 0x303;
   E 0x14140700 0x0 4 0x20 1 2 0x0 0 0x0 0x0 0x303;
   E 0x14140800 0x1 256 0x20 2 2 0x18003 0 0x0 0x0 0x303;
   E 0x14140c00 0x1 128 0x20 2 2 0x18103 0 0x0 0x0 0x303;
   E 0x14140d00 0x1 128 0x20 2 2 0x18183 0 0x0 0x0 0x303;
   E 0x14140e00 0x1 16 0x20 2 2 0x18203 0 0x0 0x0 0x3;
   E 0x14140f00 0x2 8 0x20 2 2 0x18213 0 0x0 0x0 0x3;
   E 0x14190100 0x0 4 0x20 1 2 0x1 0 0x0 0x0 0x303;
   E 0x14190600 0x0 4 0x20 1 2 0x1 0 0x0 0x0 0x303;
   E 0x14190700 0x0 4 0x20 1 2 0x0 0 0x0 0x0 0x3;
   E 0x14190800 0x0 4 0x20 1 2 0x0 0 0x0 0x0 0x303;
   E 0x14190900 0x0 4 0x20 1 2 0x0 0 0x0 0x0 0x303;
   E 0x14190a00 0x0 4 0x2020 1 2 0x2 0 0x0 0x0 0x3;
   E 0x141e0100 0x1 33 0x20 2 2 0x1821b 0 0x0 0x0 0x303;
   E 0x141e0200 0x0 4 0x20 1 2 0x2 0 0x0 0x0 0x303;
   E 0x141e0300 0x1 27 0x20 2 2 0x1823c 0 0x0 0x0 0x303;
   E 0x141e0400 0x1 65 0x20 2 2 0x18257 0 0x0 0x0 0x303;
   E 0x141e0500 0x0 4 0x20 1 2 0x0 0 0x0 0x0 0x303;
   E 0x141e4001 0x0 4 0x20 1 2 0x0 0 0x0 0x0 0x303;
   E 0x141e6001 0x0 4 0x20 1 2 0x0 0 0x0 0x0 0x303;
   E 0x141e6002 0x1 256 0x20 2 2 0x18298 0 0x0 0x0 0x303;
   E 0x141e6003 0x1 128 0x20 2 2 0x18398 0 0x0 0x0 0x303;
   E 0x141e6004 0x1 128 0x20 2 2 0x18418 0 0x0 0x0 0x303;
   E 0x141e6005 0x1 16 0x20 2 2 0x18498 0 0x0 0x0 0x303;
   E 0x141e6006 0x1 16 0x20 2 2 0x184a8 0 0x0 0x0 0x303;
   E 0x141e6007 0x1 16 0x20 2 2 0x184b8 0 0x0 0x0 0x303;
   E 0x141e6008 0x0 4 0x20 1 2 0x1 0 0x0 0x0 0x303;
   E 0x141e6009 0x1 16 0x20 2 2 0x184c8 0 0x0 0x0 0x303;
   E 0x141e600a 0x1 16 0x20 2 2 0x184d8 0 0x0 0x0 0x303;
   E 0x141e600b 0x1 16 0x20 2 2 0x184e8 0 0x0 0x0 0x3;
   E 0x141e600c 0x2 8 0x20 2 2 0x184f8 0 0x0 0x0 0x3;
   E 0x141e8001 0x0 4 0x20 1 2 0x0 0 0x0 0x0 0x303;
   E 0x141e8002 0x1 256 0x20 2 2 0x18500 0 0x0 0x0 0x303;
   E 0x141e8003 0x0 4 0x20 1 2 0x1f90 0 0x0 0x0 0x303;
   E 0x14230100 0x1 33 0x20 2 2 0x18600 0 0x0 0x0 0x3;
   E 0x14230200 0x1 33 0x20 2 2 0x18621 0 0x0 0x0 0x3;
   E 0x14230300 0x1 33 0x20 2 2 0x18642 0 0x0 0x0 0x3;
   E 0x14230400 0x1 33 0x20 2 2 0x18663 0 0x0 0x0 0x3;
   E 0x14230500 0x1 65 0x20 2 2 0x18684 0 0x0 0x0 0x3;
   E 0x14230600 0x1 65 0x20 2 2 0x186c5 0 0x0 0x0 0x3;
   E 0x14230700 0x1 27 0x20 2 2 0x18706 0 0x0 0x0 0x3;
   E 0x14230800 0x1 27 0x20 2 2 0x18721 0 0x0 0x0 0x3;
   E 0x14234001 0x1 33 0x20 2 2 0x1873c 0 0x0 0x0 0x3;
   E 0x14234002 0x1 27 0x20 2 2 0x1875d 0 0x0 0x0 0x3;
   E 0x14234003 0x1 33 0x20 2 2 0x18778 0 0x0 0x0 0x3;
   E 0x14234004 0x1 27 0x20 2 2 0x18799 0 0x0 0x0 0x3;
   E 0x14234005 0x1 33 0x20 2 2 0x187b4 0 0x0 0x0 0x3;
   E 0x14234006 0x1 65 0x20 2 2 0x187d5 0 0x0 0x0 0x3;
   E 0x14234007 0x1 33 0x20 2 2 0x18816 0 0x0 0x0 0x3;
   E 0x14234008 0x1 65 0x20 2 2 0x18837 0 0x0 0x0 0x3;
   E 0x14280100 0x0 4 0x20 1 2 0x0 0 0x0 0x0 0x313;
   E 0x14280200 0x1 256 0x20 2 2 0x18878 0 0x0 0x0 0x313;
   E 0x14280300 0x0 4 0x20 1 2 0x1f90 0 0x0 0x0 0x313;
   E 0x142d0100 0x0 4 0x20 1 2 0x0 0 0x0 0x0 0x30;
   E 0x142d0200 0x1 33 0x20 2 2 0x18978 0 0x0 0x0 0x30;
   E 0x142d0300 0x1 65 0x20 2 2 0x18999 0 0x0 0x0 0x30;
   E 0x142d0400 0x0 4 0x20 1 2 0x6 0 0x0 0x0 0x30;
   E 0x142e0100 0x1 65 0x20 2 2 0x189da 0 0x0 0x0 0x100;
   E 0x14320101 0x1 33 0x20 16 2 0x18a1b 0 0xa 0x8 0x0;
   E 0x14320102 0x1 27 0x20 16 2 0x18b65 0 0xa 0x8 0x0;
   E 0x14320103 0x1 65 0x20 16 2 0x18c73 0 0xa 0x8 0x0;
   E 0x14320104 0x2 8 0x20 16 2 0x18efd 0 0xa 0x8 0x0;
   E 0x14700000 0x1 16 0x230 2 2 0x18f4d 0 0x0 0x0 0x300;
   E 0x14710000 0x1 16 0x230 2 2 0x18f5d 0 0x0 0x0 0x300;
   E 0x14740000 0x1 16 0x230 2 2 0x18f6d 0 0x0 0x0 0x300;
   E 0x14750000 0x1 16 0x230 2 2 0x18f7d 0 0x0 0x0 0x300;
   E 0x14760000 0x1 16 0x230 2 2 0x18f8d 0 0x0 0x0 0x300;
   E 0x14770000 0x0 4 0x230 1 2 0x0 0 0x0 0x0 0x300;
   E 0x14780000 0x1 256 0x230 2 2 0x18f9d 0 0x0 0x0 0x300;
   E 0x19010000 0x0 4 0x20 1 2 0x0 0 0x0 0x0 0x0;
   E 0x19600000 0x0 4 0x20 1 2 0x0 0 0x0 0x0 0x0;
   E 0x19800000 0x1 17 0x8020 2 2 0x1909d 0 0x0 0x0 0x1311;
   E 0x19810000 0x0 4 0x30 1 2 0x0 0 0x0 0x0 0x1311;
   E 0x1e010000 0x2 1024 0x10 2 2 0x190ae 0 0x0 0x0 0x31;
   E 0x1e020000 0x0 4 0x20 1 2 0x0 0 0x0 0x0 0x300;
   E 0x20010000 0x2 1024 0x4020 2 2 0x194ae 0 0x0 0x0 0x33;
   E 0x20020100 0x2 1024 0x4020 16 2 0x198ae 0 0xa 0x10 0x33;
   E 0x20034001 0x2 2000 0x4020 16 2 0x1c0ae 0 0x2 0x8 0x33;
   E 0x20400000 0x2 1024 0x4020 2 2 0x1d04e 0 0x0 0x0 0x33;
   E 0x20410000 0x0 4 0x1000 1 2 0x0 0 0x0 0x0 0x33;
   E 0x23010000 0x0 4 0x2020 1 2 0x656e67 0 0x0 0x0 0x300;
   E 0x23020000 0x0 4 0x2020 1 2 0x656e67 0 0x0 0x0 0x300;
   E 0x23030000 0x0 4 0x2020 1 2 0x656e67 0 0x0 0x0 0x300;
   E 0x23040000 0x0 4 0x20 1 2 0x1 0 0x0 0x0 0x300;
   E 0x23050000 0x0 4 0x20 1 2 0x0 0 0x0 0x0 0x300;
   E 0x23060000 0x0 4 0x20 1 2 0x0 0 0x0 0x0 0x300;
   E 0x23070000 0x0 4 0x20 1 2 0x1 0 0x0 0x0 0x300;
   E 0x23080000 0x0 4 0x20 1 2 0x0 0 0x0 0x0 0x300;
   E 0x23090000 0x0 4 0x20 1 2 0x0 0 0x0 0x0 0x300;
   E 0x230a0000 0x0 4 0x2020 1 2 0x656e 0 0x0 0x0 0x300;
   E 0x230b0000 0x0 4 0x2020 1 2 0x656e 0 0x0 0x0 0x300;
   E 0x230c0000 0x0 4 0x2020 1 2 0x656e 0 0x0 0x0 0x300;
   E 0x230d0000 0x0 4 0x20 1 2 0x0 0 0x0 0x0 0x0;
   E 0x230e0000 0x0 4 0x2020 1 2 0x0 0 0x0 0x0 0x0;
   E 0x230f0000 0x0 4 0x2020 1 2 0x0 0 0x0 0x0 0x0;
   E 0x28010000 0x0 4 0x20 1 2 0x0 0 0x0 0x0 0x0;
   E 0x28020000 0x0 4 0x20 1 2 0x0 0 0x0 0x0 0x0;
   E 0x28030000 0x0 4 0x20 1 2 0x0 0 0x0 0x0 0x0;
   E 0x29010000 0x0 4 0x20 1 2 0x0 0 0x0 0x0 0x0;
   E 0x29020000 0x0 4 0x20 1 2 0x0 0 0x0 0x0 0x0;
   E 0x29030000 0x0 4 0x20 1 2 0x0 0 0x0 0x0 0x0;
   E 0x2a010000 0x2 32 0x20 2 2 0x1d44e 0 0x0 0x0 0x0;
   E 0x2d010000 0x0 4 0x20 1 2 0x1 0 0x0 0x0 0x0;
   E 0x320c0000 0x1 43 0x20 2 2 0x1d46e 0 0x0 0x0 0x0;
   E 0x37040000 0x0 4 0x20 1 2 0x0 0 0x0 0x0 0x0;
   E 0x37050000 0x0 4 0x20 1 2 0x0 0 0x0 0x0 0x33;
   E 0x37060000 0x0 4 0x20 1 2 0x0 0 0x0 0x0 0x33;
   E 0x37090000 0x0 4 0x20 1 2 0x12c 0 0x0 0x0 0x0;
   E 0x370a0000 0x0 4 0x20 1 2 0x0 0 0x0 0x0 0x300;
   E 0x3c020000 0x0 4 0x20 1 2 0x1 0 0x0 0x0 0x33;
   E 0x3c030000 0x0 4 0x20 1 2 0x1 0 0x0 0x0 0x33;
   E 0x3c040000 0x0 4 0x20 1 2 0x1 0 0x0 0x0 0x33;
   E 0x41810000 0x0 4 0x20 1 2 0x1 0 0x0 0x0 0x0;
   E 0x41820000 0x0 4 0x20 1 2 0x0 0 0x0 0x0 0x0;
   E 0x41010100 0x0 4 0x4020 16 2 0x1d499 0 0x20 0x10 0x0;
   E 0x41010200 0x0 4 0x4020 16 2 0x1d519 0 0x20 0x10 0x0;
   E 0x41010300 0x2 16 0x4020 16 2 0x1d599 0 0x20 0x10 0x0;
   E 0x41010400 0x0 4 0x4020 16 2 0x1d799 0 0x20 0x10 0x0;
   E 0x42800100 0x0 4 0x4020 16 2 0x1d819 0 0x10 0x10 0x0;
   E 0x42800200 0x0 4 0x4020 16 2 0x1d859 0 0x10 0x10 0x0;
   E 0x42800300 0x2 16 0x4020 16 2 0x1d899 0 0x10 0x10 0x0;
   E 0x42800400 0x0 4 0x4020 16 2 0x1d999 0 0x10 0x10 0x0;
   E 0x43800100 0x0 4 0x4020 16 2 0x1d9d9 0 0x10 0x10 0x0;
   E 0x43800200 0x0 4 0x4020 16 2 0x1da19 0 0x10 0x10 0x0;
   E 0x43800300 0x2 16 0x4020 16 2 0x1da59 0 0x10 0x10 0x0;
   E 0x43800400 0x0 4 0x4020 16 2 0x1db59 0 0x10 0x10 0x0;
   E 0xc8800100 0x0 4 0x20 16 2 0x1db99 0 0x10 0x10 0x0;
   E 0xc8800200 0x0 4 0x20 16 2 0x1dbd9 0 0x10 0x10 0x0;
   E 0xc8800300 0x2 16 0x20 16 2 0x1dc19 0 0x10 0x10 0x0;
   E 0xc8800400 0x0 4 0x20 16 2 0x1dd19 0 0x10 0x10 0x0;
   E 0x45010000 0x0 4 0x20 1 2 0x0 0 0x0 0x0 0x0;
   E 0x45020000 0x0 4 0x20 1 2 0x2 0 0x0 0x0 0x0;
   E 0x45030000 0x0 4 0x20 1 2 0x0 0 0x0 0x0 0x0;
   E 0x45050000 0x0 4 0x20 1 2 0x0 0 0x0 0x0 0x0;
   E 0x45060000 0x0 4 0x20 1 2 0x0 0 0x0 0x0 0x0;
   E 0x45400000 0x0 4 0x20 1 2 0x0 0 0x0 0x0 0x0;
   E 0x55010000 0x0 4 0x20 1 2 0x0 0 0x0 0x0 0x0;
   E 0x56010000 0x1 33 0x20 2 2 0x1dd59 0 0x0 0x0 0x0;
   E 0x64800100 0x1 17 0x4020 16 2 0x1dd7a 0 0x10 0x10 0x0;
   E 0x64800200 0x2 6 0x4020 16 2 0x1de8a 0 0x10 0x10 0x0;
   E 0x64800300 0x2 8 0x4020 16 2 0x1deea 0 0x10 0x10 0x0;
   E 0x46010100 0x0 4 0x20 1 2 0x0 0 0x0 0x0 0xf0;
   E 0x46010200 0x0 4 0x20 1 2 0x0 0 0x0 0x0 0xf0;
   E 0x46010300 0x0 4 0x20 1 2 0x2027 0 0x0 0x0 0xf0;
   E 0x49010000 0x0 4 0x20 1 2 0x0 0 0x0 0x0 0x310;
   E 0x49020100 0x0 4 0x20 1 2 0x0 0 0x0 0x0 0x355;
   E 0x49020200 0x0 4 0x20 1 2 0x1 0 0x0 0x0 0x355;
   E 0x49020300 0x0 4 0x20 1 2 0x20202 0 0x0 0x0 0x355;
   E 0x49020400 0x0 4 0x20 1 2 0x64 0 0x0 0x0 0x355;
   E 0x49020500 0x0 4 0x20 1 2 0x64 0 0x0 0x0 0x355;
   E 0x49020600 0x0 4 0x20 1 2 0x2 0 0x0 0x0 0x355;
   E 0x49020700 0x0 4 0x20 1 2 0x0 0 0x0 0x0 0x355;
   E 0x49020800 0x0 4 0x20 1 2 0x0 0 0x0 0x0 0x355;
   E 0x49020900 0x0 4 0x20 1 2 0x0 0 0x0 0x0 0x355;
   E 0x49020a00 0x0 4 0x20 1 2 0x64 0 0x0 0x0 0x355;
   E 0x49020b00 0x0 4 0x20 1 2 0x20202 0 0x0 0x0 0x355;
   E 0x49020c00 0x0 4 0x20 1 2 0x0 0 0x0 0x0 0x355;
   E 0x4b010000 0x0 4 0x20 1 2 0x0 0 0x0 0x0 0x33;
   E 0x4f010000 0x0 4 0x10 1 2 0x0 0 0x0 0x0 0x10;
   E 0x4f400101 0x2 6 0x20 16 2 0x1df6a 0 0xa 0x8 0x10;
   E 0x4f400102 0x0 4 0x20 16 2 0x1dfa6 0 0xa 0x8 0x10;
   E 0x4f400103 0x2 64 0x20 16 2 0x1dfce 0 0xa 0x8 0x10;
   E 0x4f400104 0x2 8 0x20 16 2 0x1e24e 0 0xa 0x8 0x10;
   E 0x50400100 0x2 48 0x20 2 2 0x1e29e 0 0x0 0x0 0x0;
   E 0x70030000 0x0 4 0x20 1 2 0x0 0 0x0 0x0 0x300;
   E 0x70040000 0x0 4 0x20 1 2 0x0 0 0x0 0x0 0x300;
   E 0x70050000 0x0 4 0x20 1 2 0x0 0 0x0 0x0 0x300;
   E 0x73010100 0x1 32 0x20 2 2 0x1e2ce 0 0x0 0x0 0x0;
   E 0x73010200 0x1 32 0x20 2 2 0x1e2ee 0 0x0 0x0 0x0;
   E 0x73010300 0x1 32 0x20 2 2 0x1e30e 0 0x0 0x0 0x0;
   E 0x73010400 0x1 32 0x20 2 2 0x1e32e 0 0x0 0x0 0x0;
   E 0x73010500 0x1 32 0x20 2 2 0x1e34e 0 0x0 0x0 0x0;
   E 0x73010600 0x1 32 0x20 2 2 0x1e36e 0 0x0 0x0 0x0;
   E 0x73010700 0x1 256 0x20 2 2 0x1e38e 0 0x0 0x0 0x0;
   E 0x73010800 0x1 32 0x20 2 2 0x1e48e 0 0x0 0x0 0x0;
   E 0x76800000 0x0 4 0x20 1 2 0xffffffff 0 0x0 0x0 0x30;
   E 0x7802c9c8 0x0 4 0x30 1 2 0x1 0 0x0 0x0 0x300].

(** ** Lookup *)

(** [v << s] and [a + b] of [u32]. *)
Definition shl32 {X} (v s : Z) : outcome X Z :=
  if s <? 32 then Ok (Z.shiftl v s mod 2 ^ 32) else Panic POverflow.
Definition add32 {X} (a b : Z) : outcome X Z :=
  if a + b <? 2 ^ 32 then Ok (a + b) else Panic POverflow.

(** Whether one of [n] keys from number [v] on, [s] bits apart from [base], is [k]. *)
Fixpoint any_key {X} (n : nat) (v s base k : Z) : outcome X bool :=
  match n with
  | O => Ok false
  | S n =>
      x ← shl32 v s;
      x ← add32 x base;
      if x =? k then Ok true else any_key n (v + 1) s base k
  end.

Fixpoint lookup_in {X} (l : list RegEntry) (k : Z) : outcome X (option RegEntry) :=
  match l with
  | [] => Ok None
  | e :: l =>
      if key e =? k then Ok (Some e)
      else
        found ← (if 2 <=? unk1 e
                 then any_key (Z.to_nat (unk1 e - 1)) 1 (Z.land (unk2 e) 0x1f) (key e) k else Ok false);
        if found : bool then Ok (Some e) else lookup_in l k
  end.
Definition lookup {X} (k : Z) : outcome X (option RegEntry) := lookup_in ENTRIES k.

(** ** Requests *)

Definition byte_at (v : Z) (sh : Z) : Z := Z.land (Z.shiftr v sh) 0xff.

(** The part of [decode_key] before the lookup. *)
Definition decrypt (v1 : Z) : outcome RegError Z :=
  let a := byte_at v1 0 in
  let b := byte_at v1 8 in
  let c := byte_at v1 16 in
  let d := byte_at v1 24 in
  let e := byte_at v1 32 in
  let f := byte_at v1 40 in
  let g := (a + b + c + d + e * f) mod 2 ^ 16 in
  let h := Z.shiftr v1 48 mod 2 ^ 16 in
  fail_if (negb (g =? h)) (ChecksumMismatched h g);;
  let i := Z.lxor f 0x6b in
  panic_if (12 <? i) PTodo;;
  r ← arr_get SBOX1 (15 - i);
  let x := Z.lxor e r in
  sbox ← (if x =? 0x19 then Ok SBOX2 else if x =? 0x72 then Ok SBOX1 else Panic PTodo);
  s3 ← arr_get sbox (i + 3);
  s2 ← arr_get sbox (i + 2);
  s1 ← arr_get sbox (i + 1);
  s0 ← arr_get sbox i;
  Ok (Z.lor (Z.lor (Z.lor (Z.lxor a s3) (Z.shiftl (Z.lxor c s2) 8)) (Z.shiftl (Z.lxor d s1) 16))
        (Z.shiftl (Z.lxor b s0) 24)).

(** [!v & web != 0] of [u32]. *)
Definition not_and (v web : Z) : bool := negb (Z.land (Cred.not32 v) web =? 0).

Definition decode_key (v1 v2 : Z) (cred : Cred.Ucred) (v3 : Z) : outcome RegError Z :=
  k ← decrypt v1;
  entry ← lookup k;
  entry ← ok_or (NotFound k) entry;
  let web := if Cred.is_libkernel_web cred || Cred.is_webprocess_webapp_or_webmas cred then 1 else 0 in
  (if v3 =? 1 then
     fail_if (Cred.is_nongame cred && (Z.land (unk3 entry) 0x10 =? 0)) V800d0216;;
     fail_if (Z.land (unk3 entry) 1 =? 0) V800d0214;;
     fail_if (not_and (Z.shiftr (unk3 entry) 12) web) V800d021f
   else Ok tt);;
  if Cred.is_nongame cred then Panic PTodo
  else if Z.land (unk3 entry) 2 =? 0 then Err V800d0214
  else if not_and (Z.shiftr (unk3 entry) 13) web then Err V800d021f
  else if (unk2 entry =? 8) || (unk2 entry =? 16) then Panic PTodo
  else if negb (v2 =? 0) then Err V800d0206
  else Ok k.

(** ** Values *)

Definition check_param (k v1 n : Z) : outcome RegError RegEntry :=
  entry ← lookup k;
  match entry with
  | None => arr_get ENTRIES 0
  | Some entry =>
      fail_if (negb (unk4 entry =? v1)) V800d0207;;
      (if negb (v1 =? 2) then
         panic_if (v1 =? 1) PTodo;;
         fail_if (negb (v1 =? 0)) V800d0207
       else Ok tt);;
      if len entry =? n then Ok entry else Err V800d0208
  end.

Definition special_key (k : Z) : bool :=
  bool_decide (k ∈ [REGISTRY_RECOVER; SYSTEM_UPDATE_MODE; SYSTEM_POWER_SHUTDOWN_STATUS; SYSTEM_SPECIFIC_IDU_MODE;
                    SYSTEM_SPECIFIC_SHOW_MODE; SYSTEM_SPECIFIC_ARCADE_MODE; DEVENV_TOOL_BOOT_PARAM]).

(** [get_value]: the result and the buffer. *)
Definition get_value (k : Z) (buf : list Z) : outcome RegError (Z * list Z) :=
  panic_if (special_key k) PTodo;;
  entry ← lookup k;
  match entry with
  | None => Ok (0, buf)
  | Some entry =>
      if Z.of_nat (length buf) <? len entry then Err V800d0208
      else if unk5 entry =? 2 then
        if (unk6 entry =? 16) || (unk6 entry =? 2) then Panic PTodo
        else if unk6 entry =? 1 then
          if unk4 entry =? 1 then Panic PTodo
          else
            let n := Z.to_nat (len entry) in
            panic_if (4 <? len entry) PIndex;;
            Ok (0, take n (le_bytes 4 (value entry)) ++ drop n buf)
        else Panic PTodo
      else Panic PTodo
  end.

(** An error that the code does not handle. *)
Definition or_todo {X A} (r : outcome X A) : outcome X A := if r is Err _ then Panic PTodo else r.

(** [get_int]: the result and the value, which the caller sets to zero before. *)
Definition get_int (k : Z) : outcome RegError (Z * Z) :=
  or_todo (check_param k 0 4);;
  '(v, buf) ← or_todo (get_value k (replicate 4 0));
  Ok (v, as_i32 (le_value buf)).

(** The loop of [set_value] over [UNK_ENTRIES1]: whether it returns. *)
Fixpoint ignored_in (l : list RegUnk6) (k : Z) : outcome RegError bool :=
  match l with
  | [] => Ok false
  | e :: l =>
      found ← any_key (Z.to_nat (u_unk2 e)) 0 (Z.land (u_unk1 e) 0xff) (u_key e) k;
      if found : bool then Ok (negb (Z.land (u_unk3 e) 1 =? 0)) else ignored_in l k
  end.

Definition set_value (k : Z) (v : list Z) : outcome RegError Z :=
  ignored ← ignored_in UNK_ENTRIES1 k;
  if ignored : bool then Ok 0
  else
    entry ← lookup k;
    entry ← ok_or (NotFound k) entry;
    fail_if (len entry <? Z.of_nat (length v)) V800d0208;;
    if len entry <? 5 then
      '(_, buf) ← get_value k (replicate (Z.to_nat (len entry)) 0);
      panic_if (unk4 entry =? 1) PTodo;;
      panic_if (negb (bool_decide (take (length v) buf = v))) PTodo;;
      Ok 0
    else Panic PTodo.

Definition set_int (k v : Z) : outcome RegError Z :=
  or_todo (check_param k 0 4);;
  or_todo (set_value k (le_bytes 4 (v mod 2 ^ 32))).

(** ** System calls *)

(** Reads [n] bytes of the memory of the process. *)
Definition read (mem : Z -> Z) (p : Z) (n : nat) : Z :=
  le_value ((fun i => mem (p + i)) <$> seqZ 0 (Z.of_nat n)).

(** [sys_regmgr_call]: the value written to the buffer. *)
Definition sys_regmgr_call (cred : Cred.Ucred) (mem : Z -> Z) (a0 buf req reqlen : Z) : outcome VmSpace.SysErr Z :=
  op ← VmSpace.arg_u32 a0;
  panic_if (buf =? 0) PTodo;;
  panic_if (req =? 0) PTodo;;
  panic_if (2048 <? reqlen) PTodo;;
  let r :=
    if op =? 0x18 then
      k ← decode_key (read mem req 8) (read mem (req + 8) 4) cred 2;
      set_int k (as_i32 (read mem (req + 12) 4))
    else if op =? 0x19 then
      k ← decode_key (read mem req 8) (read mem (req + 8) 4) cred 1;
      Panic PTodo
    else if (op =? 0x27) || (0x40 <=? op) then Err V800d0219
    else Panic PTodo in
  match r with
  | Ok v => Ok v
  | Err e => Ok (code e)
  | Panic p => Panic p
  end.

Definition sys_workaround8849 (a0 : Z) : outcome VmSpace.SysErr Z :=
  k ← VmSpace.arg_u32 a0;
  if bool_decide (k ∈ [NP_DEBUG; BROWSER_DEBUG_NOTIFICATION; DEVENV_TOOL_TRC_NOTIFY; DEVENV_TOOL_USE_DEFAULT_LIB;
                       DEVENV_TOOL_SYS_PRX_PRELOAD])
  then
    match get_int k with
    | Ok (ret, _) => if ret =? 0 then Ok ret else Err (VmSpace.Raw ret)
    | Err _ => Panic PUnwrap
    | Panic p => Panic p
    end
  else Err (VmSpace.Raw VmSpace.EINVAL).

End RegMgr.
