(* ===== verification/RegMgrProps.v ===== *)
(** * Theorems about the registry of the previous kernel

    The table of entries has no ambiguous key, the cipher of request keys is
    inverted by [encrypt], and a request to set an entry changes nothing. *)
From Stdlib Require Import Mergesort Orders Sorted.
From S2P Require Import Prelude Env Cred VmSpace RegMgr.

Module RegMgrProps.
Import RegMgr.
Local Open Scope list_scope.
Local Open Scope Z_scope.

(** ** The table *)

(** The keys that an entry stands for. *)
Definition keys_of (e : RegEntry) : list Z :=
  key e :: ((fun v => key e + Z.shiftl v (unk2 e)) <$> seqZ 1 (unk1 e - 1)).

Definition entry_ok (e : RegEntry) : bool :=
  (0 <=? key e) && (0 <=? unk2 e) && (unk2 e <? 32) && (key e + Z.shiftl (unk1 e) (unk2 e) <? 2 ^ 32)
  && (0 <=? len e) && (0 <=? value e) && (value e <? 2 ^ 32).

Module ZOrder <: TotalLeBool.
Definition t := Z.
Definition leb := Z.leb.
Lemma leb_total a b : leb a b = true \/ leb b a = true.
Proof. unfold leb. rewrite !Z.leb_le. lia. Qed.
End ZOrder.
Module ZSort := Sort ZOrder.

Fixpoint increasing (l : list Z) : bool :=
  match l with
  | a :: (b :: _) as l' => (a <? b) && increasing l'
  | _ => true
  end.

Lemma increasing_NoDup l : increasing l = true -> NoDup l.
Proof.
  intros H. enough (StronglySorted Z.lt l) as Hs.
  { clear H. induction Hs as [|a l Hs IH Hf]; constructor; [|done].
    intros Ha. rewrite List.Forall_forall in Hf. apply list_elem_of_In, Hf in Ha. lia. }
  apply Sorted_StronglySorted; [intros ???; apply Z.lt_trans|].
  induction l as [|a [|b l] IH]; [constructor|repeat constructor|].
  cbn [increasing] in H. apply andb_true_iff in H as [H1%Z.ltb_lt H2].
  constructor; [by apply IH|by constructor].
Qed.

Lemma table_ok : forallb entry_ok ENTRIES = true.
Proof. vm_compute. reflexivity. Qed.

Lemma entry_of e : e ∈ ENTRIES -> entry_ok e = true.
Proof. intros H%list_elem_of_In. pose proof table_ok as Hf. rewrite forallb_forall in Hf. by apply Hf. Qed.

Lemma keys_increasing : increasing (ZSort.sort (ENTRIES ≫= keys_of)) = true.
Proof. vm_compute. reflexivity. Qed.

Lemma keys_NoDup : NoDup (ENTRIES ≫= keys_of).
Proof. rewrite (ZSort.Permuted_sort (ENTRIES ≫= keys_of)). apply increasing_NoDup, keys_increasing. Qed.

#[local] Opaque ENTRIES.

Lemma NoDup_bind_inj {A B} (f : A -> list B) l a a' k :
  NoDup (l ≫= f) -> a ∈ l -> a' ∈ l -> k ∈ f a -> k ∈ f a' -> a = a'.
Proof.
  induction l as [|x l IH]; [by intros _ ?%not_elem_of_nil|]. rewrite bind_cons, NoDup_app.
  intros (_ & Hd & Hn) Ha Ha' Hk Hk'. apply elem_of_cons in Ha as [->|Ha], Ha' as [->|Ha']; [done| | |by apply IH].
  - destruct (Hd k Hk). apply list_elem_of_bind. eauto.
  - destruct (Hd k Hk'). apply list_elem_of_bind. eauto.
Qed.

(** ** Lookup *)

Lemma any_key_spec {X} n v s base k :
  0 <= v -> 0 <= s < 32 -> 0 <= base -> base + Z.shiftl (v + Z.of_nat n) s < 2 ^ 32 ->
  @any_key X n v s base k = Ok (bool_decide (k ∈ (fun i => base + Z.shiftl i s) <$> seqZ v (Z.of_nat n))).
Proof.
  intros Hv Hs Hb. revert v Hv. induction n as [|n IH]; intros v Hv Hk; [done|].
  rewrite Nat2Z.inj_succ in Hk |- *. rewrite seqZ_cons, fmap_cons by lia. rewrite Z.pred_succ.
  rewrite !Z.shiftl_mul_pow2 in Hk |- * by lia. pose proof (Z.pow_pos_nonneg 2 s ltac:(lia) ltac:(lia)) as Hp.
  cbn [any_key]. unfold shl32, add32. rewrite (proj2 (Z.ltb_lt s 32)) by lia. cbn [mbind outcome_bind].
  rewrite Z.shiftl_mul_pow2, Z.mod_small by nia. rewrite (proj2 (Z.ltb_lt _ _)) by nia. cbn [mbind outcome_bind].
  destruct (Z.eqb_spec (v * 2 ^ s + base) k) as [<-|Hne].
  - rewrite bool_decide_true; [done|]. apply elem_of_cons. left. lia.
  - change (v + 1) with (Z.succ v). rewrite IH; [|lia|rewrite Z.shiftl_mul_pow2 by lia; nia].
    f_equal. apply bool_decide_ext. rewrite elem_of_cons. split; [by right|intros [?|?]; [lia|done]].
Qed.

Lemma land_31 s : 0 <= s < 32 -> Z.land s 0x1f = s.
Proof. intros H. change 0x1f with (Z.ones 5). rewrite Z.land_ones, Z.mod_small by lia. done. Qed.

Lemma lookup_in_spec {X} l k :
  forallb entry_ok l = true -> @lookup_in X l k = Ok (find (fun e => bool_decide (k ∈ keys_of e)) l).
Proof.
  induction l as [|e l IH]; [done|]. cbn [forallb lookup_in find]. intros [He Hl]%andb_true_iff. rewrite IH by done.
  unfold entry_ok in He. rewrite !andb_true_iff, !Z.leb_le, !Z.ltb_lt in He.
  destruct He as ((((((Hk & H2) & H3) & Ho) & _) & _) & _). unfold keys_of.
  destruct (Z.eqb_spec (key e) k) as [->|Hne]; [by rewrite bool_decide_true by constructor|].
  destruct (Z.leb_spec 2 (unk1 e)).
  - rewrite land_31 by lia. rewrite any_key_spec; [|lia..|].
    2:{ rewrite Z2Nat.id by lia. by replace (1 + (unk1 e - 1)) with (unk1 e) by lia. }
    rewrite Z2Nat.id by lia. cbn [mbind outcome_bind].
    rewrite (bool_decide_ext (k ∈ key e :: _) (k ∈ (fun v => key e + Z.shiftl v (unk2 e)) <$> seqZ 1 (unk1 e - 1)))
      by (rewrite elem_of_cons; naive_solver).
    by case_match.
  - cbn [mbind outcome_bind]. rewrite bool_decide_false; [done|].
    rewrite seqZ_nil by lia. rewrite elem_of_cons. intros [->|?%not_elem_of_nil]; done.
Qed.

Lemma lookup_in_iff {X} l k e :
  forallb entry_ok l = true -> NoDup (l ≫= keys_of) ->
  @lookup_in X l k = Ok (Some e) <-> e ∈ l /\ k ∈ keys_of e.
Proof.
  intros Hl Hn. rewrite lookup_in_spec by done. split.
  - intros [= [Hi Hk]%find_some]. by rewrite bool_decide_eq_true, <- list_elem_of_In in *.
  - intros [He Hk]. f_equal. destruct (find _ _) as [e'|] eqn:Hf.
    + apply find_some in Hf as [Hi Hk']. rewrite bool_decide_eq_true in Hk'. apply list_elem_of_In in Hi.
      f_equal. by eapply (NoDup_bind_inj keys_of).
    + eapply find_none in Hf; [|by apply list_elem_of_In]. by rewrite bool_decide_eq_false in Hf.
Qed.

(** The lookup of a key finds the one entry that stands for it. *)
Theorem lookup_iff {X} k e : @lookup X k = Ok (Some e) <-> e ∈ ENTRIES /\ k ∈ keys_of e.
Proof. apply lookup_in_iff; [apply table_ok|apply keys_NoDup]. Qed.

Lemma lookup_total {X} k : exists o, @lookup X k = Ok o.
Proof. eexists. apply lookup_in_spec, table_ok. Qed.

(** ** The cipher of keys *)

Definition sbox_of (b : bool) : list Z := if b then SBOX2 else SBOX1.
Definition tag_of (b : bool) : Z := if b then 0x19 else 0x72.

(** The bytes of a request for the key with bytes [k0] to [k3]. *)
Definition request (i : nat) (b : bool) (k0 k1 k2 k3 : Z) : list Z :=
  let s j := sbox_of b !!! (i + j)%nat in
  let x0 := Z.lxor k0 (s 3%nat) in
  let x1 := Z.lxor k3 (s 0%nat) in
  let x2 := Z.lxor k1 (s 2%nat) in
  let x3 := Z.lxor k2 (s 1%nat) in
  let x4 := Z.lxor (tag_of b) (SBOX1 !!! (15 - i)%nat) in
  let x5 := Z.lxor (Z.of_nat i) 0x6b in
  [x0; x1; x2; x3; x4; x5] ++ le_bytes 2 (x0 + x1 + x2 + x3 + x4 * x5).

(** The request for a key, the inverse of [decrypt]. *)
Definition encrypt (i : nat) (b : bool) (k : Z) : Z :=
  le_value (request i b (byte_at k 0) (byte_at k 8) (byte_at k 16) (byte_at k 24)).

Lemma byte_at_value l j :
  Forall is_byte l -> (j < length l)%nat -> byte_at (le_value l) (8 * Z.of_nat j) = l !!! j.
Proof.
  unfold byte_at, is_byte. intros Hl. revert j. induction Hl as [|b l Hb Hl IH]; cbn [length]; intros j Hj; [lia|].
  change 0xff with (Z.ones 8) in *. destruct j as [|j]; cbn [le_value].
  - rewrite Z.shiftr_0_r, Z.land_ones by lia. change (2 ^ 8) with 256.
    rewrite (Z.mul_comm 256), Z.mod_add, Z.mod_small by lia. done.
  - change ((b :: l) !!! S j) with (l !!! j). rewrite <- IH by lia.
    replace (8 * Z.of_nat (S j)) with (8 + 8 * Z.of_nat j) by lia. rewrite <- Z.shiftr_shiftr by lia.
    do 2 f_equal. rewrite Z.shiftr_div_pow2 by lia. change (2 ^ 8) with 256.
    rewrite (Z.mul_comm 256), Z.div_add, Z.div_small by lia. done.
Qed.

Lemma byte_lxor a b : is_byte a -> is_byte b -> is_byte (Z.lxor a b).
Proof.
  unfold is_byte. intros Ha Hb. rewrite <- (Z.mod_small a 256), <- (Z.mod_small b 256) by done.
  change 256 with (2 ^ 8). rewrite <- !Z.land_ones by lia.
  replace (Z.lxor _ _) with (Z.land (Z.lxor a b) (Z.ones 8)).
  - rewrite Z.land_ones by lia. apply Z.mod_pos_bound. lia.
  - apply Z.bits_inj'. intros n Hn. rewrite !Z.lxor_spec, !Z.land_spec, Z.lxor_spec.
    by destruct (Z.testbit a n), (Z.testbit b n), (Z.testbit (Z.ones 8) n).
Qed.

Lemma lor_bytes p q r s :
  is_byte p -> is_byte q -> is_byte r -> is_byte s ->
  Z.lor (Z.lor (Z.lor p (Z.shiftl q 8)) (Z.shiftl r 16)) (Z.shiftl s 24) = le_value [p; q; r; s].
Proof.
  unfold is_byte. intros Hp Hq Hr Hs. rewrite !Z.shiftl_mul_pow2 by lia.
  assert (Z.lor p (q * 2 ^ 8) = p + q * 2 ^ 8) as ->.
  { rewrite Z.lor_comm, (lor_low _ _ 8); [lia|lia|apply Z.mod_mul; lia|lia]. }
  assert (Z.lor (p + q * 2 ^ 8) (r * 2 ^ 16) = p + q * 2 ^ 8 + r * 2 ^ 16) as ->.
  { rewrite Z.lor_comm, (lor_low _ _ 16); [lia|lia|apply Z.mod_mul; lia|lia]. }
  rewrite Z.lor_comm, (lor_low _ _ 24); [cbn [le_value]; lia|lia|apply Z.mod_mul; lia|lia].
Qed.

Lemma sbox_byte b j : is_byte (sbox_of b !!! j).
Proof. destruct b; do 16 (destruct j as [|j]; [by unfold is_byte; cbn|]); by unfold is_byte; cbn. Qed.

Lemma sbox_get {X} b (j : nat) : (j < 16)%nat -> @arr_get X Z (sbox_of b) (Z.of_nat j) = Ok (sbox_of b !!! j).
Proof.
  intros Hj. apply arr_get_Ok. split; [lia|]. rewrite Nat2Z.id. apply list_lookup_lookup_total_lt. by destruct b.
Qed.

Lemma lxor_cancel a b : Z.lxor (Z.lxor a b) b = a.
Proof. by rewrite Z.lxor_assoc, Z.lxor_nilpotent, Z.lxor_0_r. Qed.

(** The decryption of eight bytes. *)
Lemma decrypt_bytes a b c d e f h0 h1 :
  Forall is_byte [a; b; c; d; e; f; h0; h1] ->
  decrypt (le_value [a; b; c; d; e; f; h0; h1]) =
    let g := (a + b + c + d + e * f) mod 2 ^ 16 in
    let h := h0 + 256 * h1 in
    let i := Z.lxor f 0x6b in
    fail_if (negb (g =? h)) (ChecksumMismatched h g);;
    panic_if (12 <? i) PTodo;;
    r ← arr_get SBOX1 (15 - i);
    sbox ← (if Z.lxor e r =? 0x19 then Ok SBOX2 else if Z.lxor e r =? 0x72 then Ok SBOX1 else Panic PTodo);
    s3 ← arr_get sbox (i + 3);
    s2 ← arr_get sbox (i + 2);
    s1 ← arr_get sbox (i + 1);
    s0 ← arr_get sbox i;
    Ok (Z.lor (Z.lor (Z.lor (Z.lxor a s3) (Z.shiftl (Z.lxor c s2) 8)) (Z.shiftl (Z.lxor d s1) 16))
          (Z.shiftl (Z.lxor b s0) 24)).
Proof.
  intros Hl. unfold decrypt. set (l := [a; b; c; d; e; f; h0; h1]) in *.
  assert (forall j, (j < 8)%nat -> byte_at (le_value l) (8 * Z.of_nat j) = l !!! j) as Hb.
  { intros j Hj. by apply byte_at_value. }
  rewrite (Hb 0%nat : _ -> byte_at _ 0 = a), (Hb 1%nat : _ -> byte_at _ 8 = b), (Hb 2%nat : _ -> byte_at _ 16 = c),
    (Hb 3%nat : _ -> byte_at _ 24 = d), (Hb 4%nat : _ -> byte_at _ 32 = e), (Hb 5%nat : _ -> byte_at _ 40 = f) by lia.
  assert (Z.shiftr (le_value l) 48 mod 2 ^ 16 = h0 + 256 * h1) as ->; [|done].
  rewrite Z.shiftr_div_pow2 by lia. enough (le_value l / 2 ^ 48 = h0 + 256 * h1 /\ 0 <= h0 + 256 * h1 < 2 ^ 16) as [-> ?].
  { by apply Z.mod_small. }
  clear Hb. subst l. unfold is_byte in Hl. decompose_Forall_hyps. split; [|lia]. symmetry.
  apply (Z.div_unique _ _ _ (le_value [a; b; c; d; e; f])); cbn [le_value]; lia.
Qed.

Lemma bytes4 a b c d : Forall is_byte [a; b; c; d] -> is_byte a /\ is_byte b /\ is_byte c /\ is_byte d /\ True.
Proof. intros H. by decompose_Forall_hyps. Qed.

(** The key that bytes encrypted with [i] and [b] stand for. *)
Lemma decrypt_request i t k0 k1 k2 k3 :
  (i <= 12)%nat -> Forall is_byte [k0; k1; k2; k3] ->
  decrypt (le_value (request i t k0 k1 k2 k3)) = Ok (le_value [k0; k1; k2; k3]).
Proof.
  intros Hi (? & ? & ? & ? & _)%bytes4. pose proof (sbox_byte t) as Hs. pose proof (sbox_byte false) as Hs1. cbn [sbox_of] in Hs1.
  assert (is_byte (tag_of t)) by (by destruct t).
  assert (is_byte (Z.of_nat i)) by (unfold is_byte; lia). assert (is_byte 0x6b) by done.
  unfold request, le_bytes. cbv zeta. cbn [app].
  rewrite decrypt_bytes by (repeat (apply Forall_cons; split); try (by apply byte_lxor);
    try (by apply Z.mod_pos_bound); by constructor).
  cbv zeta.
  rewrite lxor_cancel. set (n := _ + _ + _ + _ + _ * _).
  assert (n mod 2 ^ 16 = n mod 256 + 256 * (n / 256 mod 256)) as <-.
  { change (2 ^ 16) with (256 * 256). apply Z.rem_mul_r; lia. }
  rewrite Z.eqb_refl, (proj2 (Z.ltb_ge 12 _)) by lia. cbn [negb fail_if panic_if mbind outcome_bind].
  replace (15 - Z.of_nat i) with (Z.of_nat (15 - i)) by lia.
  rewrite (sbox_get false) by lia. cbn [mbind outcome_bind sbox_of]. rewrite lxor_cancel.
  assert ((if tag_of t =? 0x19 then Ok SBOX2 else if tag_of t =? 0x72 then Ok SBOX1 else Panic PTodo)
    = Ok (E := RegError) (sbox_of t)) as -> by (by destruct t).
  cbn [mbind outcome_bind].
  change 3 with (Z.of_nat 3). change 2 with (Z.of_nat 2) at 1. change 1 with (Z.of_nat 1) at 1.
  rewrite <- !Nat2Z.inj_add, !sbox_get by lia. cbn [mbind outcome_bind]. 
  rewrite Nat.add_0_r, !lxor_cancel, lor_bytes by assumption. reflexivity.
Qed.

Lemma byte_at_byte v s : is_byte (byte_at v s).
Proof. unfold is_byte, byte_at. change 0xff with (Z.ones 8). rewrite Z.land_ones by lia. apply Z.mod_pos_bound. lia. Qed.

Lemma bytes_of_key k :
  0 <= k < 2 ^ 32 -> le_value [byte_at k 0; byte_at k 8; byte_at k 16; byte_at k 24] = k.
Proof.
  intros Hk. rewrite <- (le_value_bytes 4 k) at 5 by done. f_equal. unfold byte_at. change 0xff with (Z.ones 8).
  rewrite !Z.land_ones, !Z.shiftr_div_pow2 by lia. unfold le_bytes. rewrite !Z.div_div by lia.
  by rewrite Z.pow_0_r, Z.div_1_r.
Qed.

Lemma decrypt_Ok_request a b c d e f h0 h1 k :
  Forall is_byte [a; b; c; d; e; f; h0; h1] -> decrypt (le_value [a; b; c; d; e; f; h0; h1]) = Ok k ->
  exists i t k0 k1 k2 k3, (i <= 12)%nat /\ Forall is_byte [k0; k1; k2; k3] /\ k = le_value [k0; k1; k2; k3]
    /\ [a; b; c; d; e; f; h0; h1] = request i t k0 k1 k2 k3.
Proof.
  intros Hl. rewrite decrypt_bytes by done. cbv zeta. intros H.
  apply bind_Ok in H as ([] & Hc%fail_if_Ok%negb_false_iff%Z.eqb_eq & H).
  apply bind_Ok in H as ([] & Hi & H). unfold panic_if in Hi. destruct (Z.ltb_spec 12 (Z.lxor f 0x6b)) as [_|Hi12]; [done|].
  apply bind_Ok in H as (r & [Hi15 Hr]%arr_get_Ok & H). apply bind_Ok in H as (sbox & Hb & H).
  apply bind_Ok in H as (s3 & [_ H3]%arr_get_Ok & H). apply bind_Ok in H as (s2 & [_ H2]%arr_get_Ok & H).
  apply bind_Ok in H as (s1 & [_ H1]%arr_get_Ok & H). apply bind_Ok in H as (s0 & [Hi0 H0]%arr_get_Ok & [= <-]).
  assert (exists t, sbox = sbox_of t /\ Z.lxor e r = tag_of t) as (t & -> & Ht).
  { destruct (Z.eqb_spec (Z.lxor e r) 0x19); [exists true; by simplify_eq|].
    destruct (Z.eqb_spec (Z.lxor e r) 0x72); [exists false; by simplify_eq|done]. }
  set (i := Z.to_nat (Z.lxor f 0x6b)) in *. assert (Z.lxor f 0x6b = Z.of_nat i) as Hf by lia.
  rewrite Hf in *. apply list_lookup_total_correct in Hr, H3, H2, H1, H0.
  replace (Z.to_nat (15 - Z.of_nat i)) with (15 - i)%nat in Hr by lia.
  replace (Z.to_nat (Z.of_nat i + 3)) with (i + 3)%nat in H3 by lia.
  replace (Z.to_nat (Z.of_nat i + 2)) with (i + 2)%nat in H2 by lia.
  replace (Z.to_nat (Z.of_nat i + 1)) with (i + 1)%nat in H1 by lia.
  repeat apply Forall_cons in Hl as [? Hl]. pose proof (sbox_byte t) as Hs.
  assert (is_byte (Z.lxor a s3) /\ is_byte (Z.lxor c s2) /\ is_byte (Z.lxor d s1) /\ is_byte (Z.lxor b s0)) as (?&?&?&?)
    by (subst; repeat split; by apply byte_lxor).
  exists i, t, (Z.lxor a s3), (Z.lxor c s2), (Z.lxor d s1), (Z.lxor b s0).
  split; [lia|]. split; [by rewrite !Forall_cons|]. split; [by apply lor_bytes|].
  unfold request. cbv zeta. rewrite Nat.add_0_r, H3, H2, H1, H0, Hr, <- Ht, <- Hf, !lxor_cancel. cbn [app]. do 6 f_equal.
  unfold is_byte in *. unfold le_bytes. set (n := a + b + c + d + e * f) in *.
  change (2 ^ 16) with (256 * 256) in Hc. rewrite Z.rem_mul_r in Hc by lia.
  pose proof (Z.mod_pos_bound n 256). pose proof (Z.mod_pos_bound (n / 256) 256). do 2 f_equal; lia.
Qed.

(** A request decrypts to a key exactly when it is the encryption of that
    key, with one of the 13 positions in one of the two tables; the check of
    the sum and both lookups in the tables are part of the equivalence. *)
Theorem registry_cipher v k :
  is_u64 v ->
  decrypt v = Ok k <-> exists i t, (i <= 12)%nat /\ 0 <= k < 2 ^ 32 /\ v = encrypt i t k.
Proof.
  intros Hv. split.
  - intros H. rewrite <- (le_value_bytes 8 v) in H by done.
    pose proof (le_bytes_is_byte 8 v) as Hb. rewrite <- (le_value_bytes 8 v) by done. unfold le_bytes in H, Hb |- *.
    apply decrypt_Ok_request in H as (i & t & k0 & k1 & k2 & k3 & Hi & Hk & -> & ->); [|done].
    pose proof (le_value_bound _ Hk) as Hbound. exists i, t. split; [done|]. split; [exact Hbound|].
    unfold encrypt. f_equal.
    pose proof (fun j => byte_at_value _ j Hk) as Hat. cbn [length] in Hat.
    by rewrite (Hat 0%nat : _ -> byte_at _ 0 = k0), (Hat 1%nat : _ -> byte_at _ 8 = k1),
      (Hat 2%nat : _ -> byte_at _ 16 = k2), (Hat 3%nat : _ -> byte_at _ 24 = k3) by lia.
  - intros (i & t & Hi & Hk & ->). unfold encrypt. rewrite decrypt_request; [by rewrite bytes_of_key|done|].
    rewrite !Forall_cons. eauto using byte_at_byte.
Qed.

(** The request for the frequency band of the wireless network. *)
Lemma registry_cipher_witness :
  is_u64 (encrypt 3 true NET_WIFI_FREQ_BAND)
  /\ decrypt (encrypt 3 true NET_WIFI_FREQ_BAND) = Ok NET_WIFI_FREQ_BAND.
Proof.
  split; [split; vm_compute; congruence|].
  apply (registry_cipher (encrypt 3 true NET_WIFI_FREQ_BAND) NET_WIFI_FREQ_BAND); [split; vm_compute; congruence|].
  exists 3%nat, true. repeat split; vm_compute; first [lia|congruence].
Defined.

(** ** Values *)

Lemma any_key_one {X} base k :
  0 <= base -> base + 1 < 2 ^ 32 -> @any_key X 1 0 0 base k = Ok (bool_decide (k = base)).
Proof.
  intros Hb Ho. rewrite any_key_spec by (rewrite ?Z.shiftl_0_r; lia). f_equal. apply bool_decide_ext.
  change (seqZ 0 (Z.of_nat 1)) with [0]. rewrite list_fmap_singleton, list_elem_of_singleton. change (Z.shiftl 0 0) with 0.
  by rewrite Z.add_0_r.
Qed.

(** A value for the frequency band is accepted and dropped. *)
Lemma ignored_spec k : ignored_in UNK_ENTRIES1 k = Ok (bool_decide (k = NET_WIFI_FREQ_BAND)).
Proof.
  unfold UNK_ENTRIES1. cbn [ignored_in u_unk2 u_unk1 u_unk3 u_key]. change (Z.to_nat 1) with 1%nat.
  change (Z.land 0 0xff) with 0. rewrite !any_key_one by done. cbn [mbind outcome_bind].
  destruct (bool_decide (k = NET_WIFI_FREQ_BAND)); [done|]. by repeat case_match.
Qed.

Lemma wifi_entry : exists e, lookup (X := RegError) NET_WIFI_FREQ_BAND = Ok (Some e) /\ unk4 e = 0 /\ len e = 4.
Proof. eexists. split; [vm_compute; reflexivity|done]. Qed.

Lemma get_value_Ok k e z buf :
  lookup (X := RegError) k = Ok (Some e) -> len e = 4 -> get_value k (replicate 4 0) = Ok (z, buf) -> z = 0 /\ buf = le_bytes 4 (value e).
Proof.
  unfold get_value. intros He Hl H. apply bind_Ok in H as ([] & _ & H). rewrite He in H. cbn [mbind outcome_bind] in H.
  rewrite Hl in H. repeat case_match; try done. apply bind_Ok in H as ([] & _ & [= <- <-]). done.
Qed.

Lemma check_param_Some k e x :
  lookup (X := RegError) k = Ok (Some e) -> check_param k 0 4 = Ok x <-> x = e /\ unk4 e = 0 /\ len e = 4.
Proof.
  intros He. unfold check_param. rewrite He. cbn [mbind outcome_bind]. unfold fail_if, panic_if. cbn -[Z.eqb].
  destruct (Z.eqb_spec (unk4 e) 0); cbn -[Z.eqb]; [|naive_solver]. destruct (Z.eqb_spec (len e) 4); naive_solver.
Qed.

Lemma as_i32_bytes v w :
  0 <= v < 2 ^ 32 -> - 2 ^ 31 <= w < 2 ^ 31 -> as_i32 v = w <-> le_bytes 4 v = le_bytes 4 (w mod 2 ^ 32).
Proof.
  intros Hv Hw. assert (as_i32 v = w <-> v = w mod 2 ^ 32) as ->.
  { unfold as_i32. destruct (Z.ltb_spec v (2 ^ 31)), (Z.le_gt_cases 0 w).
    - rewrite Z.mod_small by lia. done.
    - rewrite <- (Z.mod_add w 1), Z.mod_small by lia. lia.
    - rewrite Z.mod_small by lia. lia.
    - rewrite <- (Z.mod_add w 1), Z.mod_small by lia. lia. }
  split; [by intros <-|]. intros H%(f_equal le_value).
  rewrite !le_value_bytes in H by (change (256 ^ Z.of_nat 4) with (2 ^ 32); first [lia|by apply Z.mod_pos_bound]). done.
Qed.

Lemma or_todo_Ok {X A} (r : outcome X A) a : or_todo r = Ok a <-> r = Ok a.
Proof. by destruct r. Qed.

Lemma or_todo_Err {X A} (r : outcome X A) e : or_todo r <> Err e.
Proof. by destruct r. Qed.

(** Setting an entry that is in the table. *)
Lemma set_int_Some k e v r :
  lookup (X := RegError) k = Ok (Some e) -> e ∈ ENTRIES -> - 2 ^ 31 <= v < 2 ^ 31 -> k <> NET_WIFI_FREQ_BAND ->
  set_int k v = Ok r <-> r = 0 /\ get_int k = Ok (0, v).
Proof.
  intros He Hin Hv Hk. unfold set_int, get_int. destruct (check_param k 0 4) as [x| |] eqn:Hc; [|naive_solver..].
  apply (check_param_Some _ _ _ He) in Hc as (-> & H4 & Hl). cbn [or_todo mbind outcome_bind]. rewrite or_todo_Ok.
  unfold set_value. rewrite ignored_spec, (bool_decide_false (k = _)) by done. cbn [mbind outcome_bind].
  rewrite He. cbn [ok_or mbind outcome_bind]. rewrite Hl, length_le_bytes, H4.
  change (Z.to_nat 4) with 4%nat. cbn [fail_if mbind outcome_bind Z.ltb Z.compare Z.of_nat Pos.compare Pos.compare_cont Pos.of_succ_nat Pos.succ].
  destruct (get_value k (replicate 4 0)) as [[z buf]| |] eqn:Hg; [|naive_solver..].
  apply (get_value_Ok _ e) in Hg as [-> ->]; [|done..]. cbn [or_todo mbind outcome_bind].
  pose proof (entry_of _ Hin) as Hok. unfold entry_ok in Hok. rewrite !andb_true_iff, !Z.leb_le, !Z.ltb_lt in Hok.
  rewrite le_value_bytes by (change (256 ^ Z.of_nat 4) with (2 ^ 32); lia).
  rewrite take_ge by (by rewrite length_le_bytes). pose proof (as_i32_bytes (value e) v ltac:(lia) Hv) as Heq.
  unfold panic_if. cbn [Z.eqb mbind outcome_bind].
  case_bool_decide; cbn [negb mbind outcome_bind]; naive_solver.
Qed.

(** Keys of the table. *)
Definition known (k : Z) : Prop := exists e, e ∈ ENTRIES /\ k ∈ keys_of e.

Lemma known_Some {X} k e : @lookup X k = Ok (Some e) -> known k.
Proof. intros H. exists e. by apply (lookup_iff (X := X)). Qed.

Lemma unknown_None {X} k : @lookup X k = Ok None -> known k -> False.
Proof. intros H (e & He). apply (lookup_iff (X := X)) in He. rewrite H in He. discriminate He. Qed.

Lemma set_int_None k v r :
  lookup (X := RegError) k = Ok None -> k <> NET_WIFI_FREQ_BAND -> set_int k v <> Ok r.
Proof.
  intros He Hk H. unfold set_int in H. apply bind_Ok in H as (x & _ & H%or_todo_Ok).
  unfold set_value in H. rewrite ignored_spec, (bool_decide_false (k = _) Hk) in H. cbn [mbind outcome_bind] in H.
  rewrite He in H. discriminate H.
Qed.

Lemma set_int_wifi v : set_int NET_WIFI_FREQ_BAND v = Ok 0.
Proof.
  destruct wifi_entry as (e & He & H4 & Hl). unfold set_int.
  rewrite (proj2 (check_param_Some _ _ e He) (conj eq_refl (conj H4 Hl))). cbn [or_todo mbind outcome_bind].
  apply or_todo_Ok. unfold set_value. by rewrite ignored_spec, bool_decide_true by done.
Qed.

(** Setting an entry changes nothing: it succeeds exactly for the frequency
    band of the wireless network, whose value is dropped, and for an entry of
    the table that has this value already.  It never returns an error: in every
    other case the code stops. *)
Theorem registry_set k v :
  - 2 ^ 31 <= v < 2 ^ 31 ->
  (forall r, set_int k v = Ok r <->
     r = 0 /\ (k = NET_WIFI_FREQ_BAND \/ known k /\ get_int k = Ok (0, v)))
  /\ (forall e, set_int k v <> Err e).
Proof.
  intros Hv. split.
  - intros r. destruct (decide (k = NET_WIFI_FREQ_BAND)) as [->|Hk].
    { rewrite set_int_wifi. split; [intros [= <-]; by auto|by intros [-> _]]. }
    destruct (lookup_total (X := RegError) k) as [[e|] He].
    + pose proof (known_Some _ _ He) as Hkn. pose proof (proj1 (lookup_iff k e) He) as [Hin _].
      rewrite (set_int_Some k e v r He Hin Hv Hk).
      split; [intros [? ?]; by auto|intros [-> [?|[_ ?]]]; [contradiction|by auto]].
    + split; [intros H; destruct (set_int_None _ _ _ He Hk H)|].
      intros [_ [?|[Hkn _]]]; [contradiction|destruct (unknown_None _ He Hkn)].
  - intros e H. unfold set_int in H. apply bind_Err in H as [H|(x & _ & H)]; by apply or_todo_Err in H.
Qed.

Lemma registry_set_witness :
  set_int NET_WIFI_FREQ_BAND 7 = Ok 0 /\ get_int NET_WIFI_FREQ_BAND = Ok (0, 0) /\ set_int NP_DEBUG 0 = Ok 0.
Proof.
  split; [apply (registry_set NET_WIFI_FREQ_BAND 7); [lia|by eauto]|]. split; [vm_compute; reflexivity|].
  vm_compute. reflexivity.
Defined.

(** The keys that a game can ask for are all answered with zero. *)
Lemma workaround8849_spec k :
  0 <= k < 2 ^ 32 ->
  sys_workaround8849 k =
    if bool_decide (k ∈ [NP_DEBUG; BROWSER_DEBUG_NOTIFICATION; DEVENV_TOOL_TRC_NOTIFY; DEVENV_TOOL_USE_DEFAULT_LIB;
                         DEVENV_TOOL_SYS_PRX_PRELOAD])
    then Ok 0 else Err (VmSpace.Raw VmSpace.EINVAL).
Proof.
  intros Hk. unfold sys_workaround8849, VmSpace.arg_u32. rewrite (proj2 (Z.ltb_lt _ _)) by lia. cbn [mbind outcome_bind].
  case_bool_decide as H; [|done]. rewrite !elem_of_cons, elem_of_nil in H.
  destruct H as [->|[->|[->|[->|[->|[]]]]]]; vm_compute; reflexivity.
Qed.

End RegMgrProps.
