(* ===== verification/Sysctl.v ===== *)
(** * System parameters of the previous kernel

    Models [legacy/src/sysctl]: the tree of parameters, the system call with
    the lookup by number, the lookup by name, the handlers and the request
    they work on; and [legacy/src/arnd.rs], the random bytes.  A list of
    parameters is the chain of the [link]s from [first] on.  The values of
    type [dyn Any] are a sum, and a [downcast_ref] that fails panics.  Hosts
    are little endian. *)
From S2P Require Import Prelude Env Cred VmSpace.

(** ** Random bytes ([arnd.rs]) *)

Module Arnd.
Local Open Scope list_scope.

Record State := MkState { i : Z; j : Z; sbox : list Z }.

Definition sbox_init : list Z := seqZ 0 256.
Definition state_new : State := MkState 0 0 sbox_init.

(** [wrapping_add] of [u8]. *)
Definition add8 (a b : Z) : Z := (a + b) mod 256.
Definition at_ (l : list Z) (k : Z) : Z := default 0 (l !! Z.to_nat k).
Definition swap (l : list Z) (a b : Z) : list Z :=
  <[Z.to_nat b := at_ l a]> (<[Z.to_nat a := at_ l b]> l).

Definition rand_byte (s : State) : Z * State :=
  let i := add8 (i s) 1 in
  let j := add8 (j s) (at_ (sbox s) i) in
  let sbox := swap (sbox s) i j in
  (at_ sbox (add8 (at_ sbox i) (at_ sbox j)), MkState i j sbox).
Fixpoint rand_bytes (n : nat) (s : State) : list Z * State :=
  match n with
  | O => ([], s)
  | S n =>
      let '(b, s) := rand_byte s in
      let '(l, s) := rand_bytes n s in
      (b :: l, s)
  end.
End Arnd.

Module Sysctl.
Import Env.
Local Open Scope list_scope.
Local Open Scope Z_scope.
Notation SysErr := VmSpace.SysErr.
Notation Raw := VmSpace.Raw.

Definition EPERM : Z := 1.
Definition ENOENT : Z := 2.
Definition ESRCH : Z := 3.
Definition ENOMEM : Z := 12.
Definition EFAULT : Z := 14.
Definition ENOTDIR : Z := 20.
Definition EISDIR : Z := 21.
Definition EINVAL : Z := 22.
Definition EOPNOTSUPP : Z := 45.
Definition ENAMETOOLONG : Z := 63.

Definition CTL_MAXNAME : nat := 24.
Definition CTLTYPE : Z := 0xf.
Definition CTLTYPE_NODE : Z := 1.
Definition CTLTYPE_INT : Z := 2.
Definition CTLTYPE_OPAQUE : Z := 5.
Definition CTLTYPE_UINT : Z := 6.
Definition CTLTYPE_ULONG : Z := 8.
Definition CTLTYPE_U64 : Z := 9.
Definition CTLFLAG_RD : Z := 0x80000000.
Definition CTLFLAG_WR : Z := 0x40000000.
Definition CTLFLAG_RW : Z := Z.lor CTLFLAG_RD CTLFLAG_WR.
Definition CTLFLAG_ANYBODY : Z := 0x10000000.
Definition CTLFLAG_SECURE : Z := 0x08000000.
Definition CTLFLAG_MPSAFE : Z := 0x00040000.
Definition CTLFLAG_CAPRD : Z := 0x00008000.
Definition CTLFLAG_CAPWR : Z := 0x00004000.
Definition CTLFLAG_CAPRW : Z := Z.lor CTLFLAG_CAPRD CTLFLAG_CAPWR.
Definition CTL_DEBUG : Z := 5.
Definition CTL_VM : Z := 2.
Definition VM_PS4DEV : Z := 1.

(** ** Parameters *)

Inductive Handler :=
  | sysctl_name2oid | kern_proc_appinfo | kern_proc_sanitizer | kern_proc_ptc | kern_proc_text_segment | kern_usrstack
  | kern_arandom | kern_cpumode | kern_rngpseudo | budgets_mlock_avail | budgets_mlock_total | machdep_tsc_freq
  | handle_int | handle_64.

(** [dyn Any]. *)
Inductive Any (O : Type) := AList (l : list O) | AI32 (v : Z) | AU64 (v : Z).
Arguments AList {O} l.
Arguments AI32 {O} v.
Arguments AU64 {O} v.

(** The fields of [Oid] that the code reads. *)
Inductive Oid := MkOid {
  number : Z;
  kind : Z;
  arg1 : option (Any Oid);
  arg2 : Z;
  name : string;
  handler : option Handler;
  enabled : bool
}.

Inductive Arg := AName (v : list Z) | AStatic (v : option (Any Oid)).

Definition kinds (l : list Z) : Z := foldr Z.lor 0 l.

Definition SYSCTL_CHILDREN : list Oid :=
  [MkOid 3 (kinds [CTLFLAG_RW; CTLFLAG_ANYBODY; CTLFLAG_MPSAFE; CTLFLAG_CAPRW; CTLTYPE_INT]) None 0 "name2oid"
     (Some sysctl_name2oid) true].
Definition KERN_PROC_CHILDREN : list Oid :=
  [MkOid 35 (kinds [CTLFLAG_RW; CTLFLAG_MPSAFE; CTLTYPE_NODE]) None 0 "appinfo" (Some kern_proc_appinfo) true;
   MkOid 41 (kinds [CTLFLAG_RD; CTLFLAG_MPSAFE; CTLTYPE_NODE]) None 0 "kern_sanitizer" (Some kern_proc_sanitizer) true;
   MkOid 43 (kinds [CTLFLAG_RD; CTLFLAG_ANYBODY; CTLFLAG_MPSAFE; CTLTYPE_U64]) None 0 "ptc" (Some kern_proc_ptc) true;
   MkOid 44 (kinds [CTLFLAG_RD; CTLFLAG_MPSAFE; CTLTYPE_NODE]) None 0 "kern_dynlib_get_libkernel_text_segment"
     (Some kern_proc_text_segment) true].
Definition KERN_SCHED_CHILDREN : list Oid :=
  [MkOid 0x4E4 (kinds [CTLFLAG_RD; CTLFLAG_MPSAFE; CTLTYPE_INT]) None 8 "cpusetsize" (Some handle_int) true].
Definition INT_0 : Z := 0.
Definition INT_8 : Z := 8.
Definition KERN_SMP_CHILDREN : list Oid :=
  [MkOid 0x48A (kinds [CTLFLAG_RD; CTLFLAG_MPSAFE; CTLFLAG_CAPRD; CTLTYPE_INT]) (Some (AI32 INT_8)) 0 "cpus"
     (Some handle_int) true].
Definition KERN_CHILDREN : list Oid :=
  [MkOid 14 (kinds [CTLFLAG_RD; CTLTYPE_NODE]) (Some (AList KERN_PROC_CHILDREN)) 0 "proc" None true;
   MkOid 33 (kinds [CTLFLAG_RD; CTLFLAG_CAPRD; CTLTYPE_ULONG]) None 0 "usrstack" (Some kern_usrstack) true;
   MkOid 37 (kinds [CTLFLAG_RD; CTLFLAG_MPSAFE; CTLFLAG_CAPRD; CTLTYPE_OPAQUE]) None 0 "arandom" (Some kern_arandom) true;
   MkOid 38 (kinds [CTLFLAG_RD; CTLFLAG_MPSAFE; CTLFLAG_CAPRD; CTLTYPE_UINT]) None 0x09008031 "sdk_version"
     (Some handle_int) true;
   MkOid 41 (kinds [CTLFLAG_RD; CTLFLAG_MPSAFE; CTLTYPE_INT]) None 0 "cpumode" (Some kern_cpumode) true;
   MkOid 47 (kinds [CTLFLAG_RD; CTLFLAG_MPSAFE; CTLTYPE_OPAQUE]) None 0 "rng_pseudo" (Some kern_rngpseudo) true;
   MkOid 0x2A0 (kinds [CTLFLAG_RW; CTLTYPE_NODE]) (Some (AList KERN_SCHED_CHILDREN)) 0 "sched" None false;
   MkOid 0x485 (kinds [CTLFLAG_RD; CTLFLAG_CAPRD; CTLTYPE_NODE]) (Some (AList KERN_SMP_CHILDREN)) 0 "smp" None false].
Definition VM_PS4DEV_CHILDREN : list Oid :=
  [MkOid 571 (kinds [CTLFLAG_RD; CTLFLAG_MPSAFE; CTLTYPE_UINT]) (Some (AI32 INT_0)) 0 "trcmem_total" (Some handle_int) true;
   MkOid 572 (kinds [CTLFLAG_RD; CTLFLAG_MPSAFE; CTLTYPE_UINT]) (Some (AI32 INT_0)) 0 "trcmem_avail" (Some handle_int) true].
Definition VM_BUDGETS_CHILDREN : list Oid :=
  [MkOid 314 (kinds [CTLFLAG_RD; CTLTYPE_ULONG]) None 0 "mlock_avail" (Some budgets_mlock_avail) true;
   MkOid 315 (kinds [CTLFLAG_RD; CTLTYPE_ULONG]) None 0 "mlock_total" (Some budgets_mlock_total) true].
Definition VM_CHILDREN : list Oid :=
  [MkOid VM_PS4DEV (kinds [CTLFLAG_RD; CTLTYPE_NODE]) (Some (AList VM_PS4DEV_CHILDREN)) 0 "ps4dev" None false;
   MkOid 313 (kinds [CTLFLAG_RW; CTLTYPE_NODE]) (Some (AList VM_BUDGETS_CHILDREN)) 0 "budgets" None true].
Definition HW_CHILDREN : list Oid :=
  [MkOid 7 (kinds [CTLFLAG_RD; CTLFLAG_MPSAFE; CTLFLAG_CAPRD; CTLTYPE_INT]) None VmSpace.VIRTUAL_PAGE_SIZE "pagesize"
     (Some handle_int) true].
Definition MACHDEP_CHILDREN : list Oid :=
  [MkOid 492 (kinds [CTLFLAG_RW; CTLTYPE_U64]) None 0 "tsc_freq" (Some machdep_tsc_freq) true].
Definition CHILDREN : list Oid :=
  [MkOid 0 (kinds [CTLFLAG_RW; CTLTYPE_NODE]) (Some (AList SYSCTL_CHILDREN)) 0 "sysctl" None false;
   MkOid 1 (kinds [CTLFLAG_RW; CTLFLAG_CAPRD; CTLTYPE_NODE]) (Some (AList KERN_CHILDREN)) 0 "kern" None false;
   MkOid CTL_VM (kinds [CTLFLAG_RW; CTLTYPE_NODE]) (Some (AList VM_CHILDREN)) 0 "vm" None false;
   MkOid 6 (kinds [CTLFLAG_RW; CTLTYPE_NODE]) (Some (AList HW_CHILDREN)) 0 "hw" None false;
   MkOid 7 (kinds [CTLFLAG_RW; CTLTYPE_NODE]) (Some (AList MACHDEP_CHILDREN)) 0 "machdep" None false].

(** ** Requests *)

(** What the handlers ask of the thread, the process and the machine. *)
Record Ctx := MkCtx { pid : Z; cred : Cred.Ucred; ptc : Z; stack_end : Z; tsc_freq : Z }.

(** [SysctlReq], with the parts of the kernel that handlers change: [uptc] of
    the process and the state of the random bytes.  [oldp] is where [old]
    is. *)
Record Req := MkReq {
  oldp : Z;
  old : option (list Z);
  oldidx : Z;
  new : option (list Z);
  newidx : Z;
  validlen : Z;
  uptc : Z;
  rng : Arnd.State
}.
Definition set_old (b : option (list Z)) (n : Z) (q : Req) : Req :=
  MkReq (oldp q) b n (new q) (newidx q) (validlen q) (uptc q) (rng q).
Definition set_newidx (n : Z) (q : Req) : Req :=
  MkReq (oldp q) (old q) (oldidx q) (new q) n (validlen q) (uptc q) (rng q).
Definition set_uptc (p : Z) (q : Req) : Req :=
  MkReq (oldp q) (old q) (oldidx q) (new q) (newidx q) (validlen q) p (rng q).
Definition set_rng (s : Arnd.State) (q : Req) : Req :=
  MkReq (oldp q) (old q) (oldidx q) (new q) (newidx q) (validlen q) (uptc q) s.

Definition len {A} (l : list A) : Z := Z.of_nat (length l).
Definition oldlen (q : Req) : Z := match old q with Some b => len b | None => 0 end.

(** What is in [buf] afterwards. *)
Definition read (buf : list Z) : io Req SysErr (list Z) := fun q =>
  match new q with
  | None => (q, Ok buf)
  | Some b =>
      match usub (len b) (newidx q) with
      | Ok n =>
          if len buf <=? n then
            (set_newidx (newidx q + len buf) q, Ok (slice b (newidx q) (len buf)))
          else (q, Err (Raw EINVAL))
      | Err e => (q, Err e)
      | Panic p => (q, Panic p)
      end
  end.

Definition write (data : list Z) : io Req SysErr unit := fun q =>
  let origidx := oldidx q in
  match uadd origidx (len data) with
  | Err e => (q, Err e)
  | Panic p => (q, Panic p)
  | Ok idx =>
      match old q with
      | None => (set_old None idx q, Ok tt)
      | Some b =>
          let done i b := (set_old (Some b) idx q, if i <? len data then Err (Raw ENOMEM) else Ok tt) in
          if validlen q <=? origidx then done 0 b
          else
            let i := Z.min (validlen q - origidx) (len data) in
            if origidx + i <=? len b then done i (overwrite b origidx (take (Z.to_nat i) data))
            else (set_old (Some b) idx q, Panic PIndex)
      end
  end.

(** ** Handlers *)

Definition i32_bytes (v : Z) : list Z := le_bytes 4 (v mod 2 ^ 32).
Definition is_some {A} (o : option A) : bool := if o is Some _ then true else false.
Definition modify (f : Req -> Req) : io Req SysErr unit := fun q => (f q, Ok tt).
Definition asks {A} (f : Req -> outcome SysErr A) : io Req SysErr A := fun q => (q, f q).
(** A new value is not implemented for most parameters. *)
Definition no_new : io Req SysErr unit := asks (fun q => panic_if (is_some (new q)) PTodo).

(** The children of a node. *)
Definition downcast_list (a : option (Any Oid)) : outcome SysErr (list Oid) :=
  if a is Some (AList l) then Ok l else Panic PUnwrap.

(** The loop of [sysctl_name2oid]: the numbers of the components. *)
Fixpoint name_walk (path : list str) (n : nat) (l : list Oid) : outcome SysErr (list Z) :=
  match path with
  | [] => Ok []
  | target :: path =>
      if (23 <? n)%nat then Panic PTodo
      else
        match List.find (fun o => bool_decide (bytes_of (name o) = target)) l with
        | None => Panic PTodo
        | Some o =>
            if path is [] then Ok [number o]
            else
              fail_if (negb (Z.land (kind o) CTLTYPE =? CTLTYPE_NODE) || is_some (handler o)) (Raw ENOENT);;
              l ← downcast_list (arg1 o);
              ns ← name_walk path (S n) l;
              Ok (number o :: ns)
        end
  end.

Definition DOT : Z := 46.
(** [position(|&b| b == 0)] and [truncate]. *)
Fixpoint until_nul (l : list Z) : list Z :=
  match l with [] => [] | b :: l => if b =? 0 then [] else b :: until_nul l end.
(** [if name.ends_with('.') { name.pop(); }]. *)
Definition pop_dot (s : str) : str :=
  if last s is Some c then if c =? DOT then take (length s - 1) s else s else s.

(** The name of the request, and the numbers of its components in the tree
    [l]. *)
Definition name2oid (l : list Oid) : io Req SysErr unit := fun q =>
  let newlen := match new q with Some b => len b | None => 0 end in
  ((lift (fail_if (newlen =? 0) (Raw ENOENT)) ;;
    lift (fail_if (0x400 <=? newlen) (Raw ENAMETOOLONG)) ;;
    b ← read (replicate (Z.to_nat newlen) 0);
    let name := until_nul (b ++ [0]) in
    lift (panic_if (negb (valid_utf8 name)) PUnwrap) ;;
    lift (fail_if (bool_decide (name = [])) (Raw ENOENT)) ;;
    ns ← lift (name_walk (split_on DOT (pop_dot name)) 0 l);
    write (concat (i32_bytes <$> ns))) : io Req SysErr unit) q.

Definition handle_64_ (a : Arg) : io Req SysErr unit :=
  v ← lift (match a with
            | AName _ => Panic PTodo
            | AStatic (Some (AU64 v)) => Ok v
            | AStatic (Some _) => Panic PUnwrap
            | AStatic None => Panic PTodo
            end);
  write (le_bytes 8 v) ;; no_new.

Definition handle_int_ (a : Arg) (a2 : Z) : io Req SysErr unit :=
  v ← lift (match a with
            | AName v => arr_get v 0
            | AStatic (Some (AI32 v)) => Ok v
            | AStatic (Some _) => Panic PUnwrap
            | AStatic None => Ok (to_signed 32 (a2 mod 2 ^ 32))
            end);
  write (i32_bytes v) ;; no_new.

Definition proc_appinfo (c : Ctx) (a : Arg) : io Req SysErr unit := fun q =>
  ((lift (fail_if (73 <=? oldlen q) (Raw EINVAL)) ;;
    v ← lift (if a is AName v then Ok v else Panic PUnreachable);
    x ← lift (arr_get v 0);
    lift (fail_if (negb (x =? pid c)) (Raw ESRCH)) ;;
    write (replicate (Z.to_nat (oldlen q)) 0) ;;
    no_new) : io Req SysErr unit) q.

Definition proc_ptc (c : Ctx) : io Req SysErr unit :=
  write (le_bytes 8 (ptc c)) ;;
  modify (fun q => set_uptc (if old q is Some _ then oldp q else 0) q).

Definition arandom : io Req SysErr unit := fun q =>
  let '(b, s) := Arnd.rand_bytes (Z.to_nat (Z.min 256 (oldlen q))) (rng q) in
  write b (set_rng s q).

Definition tsc (c : Ctx) : io Req SysErr unit :=
  if tsc_freq c =? 0 then lift (Err (Raw EOPNOTSUPP))
  else handle_64_ (AStatic (Some (AU64 (tsc_freq c)))) ;; no_new.

(** The call of a handler; [l] is the tree. *)
Definition run (c : Ctx) (l : list Oid) (h : Handler) (a : Arg) (a2 : Z) : io Req SysErr unit :=
  match h with
  | sysctl_name2oid => name2oid l
  | kern_proc_appinfo => proc_appinfo c a
  | kern_proc_sanitizer => write (le_bytes 4 0)
  | kern_proc_ptc => proc_ptc c
  | kern_usrstack => write (le_bytes 8 (stack_end c))
  | kern_arandom => arandom
  | machdep_tsc_freq => tsc c
  | handle_int => handle_int_ a a2
  | handle_64 => handle_64_ a
  | kern_proc_text_segment | kern_cpumode | kern_rngpseudo | budgets_mlock_avail | budgets_mlock_total => lift (Panic PTodo)
  end.

(** ** The system call *)

Definition is_node (o : Oid) : bool := Z.land (kind o) CTLTYPE =? CTLTYPE_NODE.

(** The search of [exec] from component [indx] on: the parameter, and the
    components after it. *)
Fixpoint find_oid (indx : nat) (name : list Z) (l : list Oid) : outcome SysErr (Oid * list Z) :=
  match name with
  | [] => if l is [] then Panic PTodo else Panic PIndex
  | n :: rest =>
      match List.find (fun o => number o =? n) l with
      | None => Panic PTodo
      | Some o =>
          if negb (is_node o) then
            fail_if (bool_decide (rest <> [])) (Raw ENOTDIR);; Ok (o, rest)
          else if bool_decide (rest <> []) && negb (is_some (handler o)) then
            panic_if (S indx =? CTL_MAXNAME)%nat PTodo;;
            l ← downcast_list (arg1 o);
            find_oid (S indx) rest l
          else Ok (o, rest)
      end
  end.

Definition exec (c : Ctx) (l : list Oid) (name : list Z) : io Req SysErr unit :=
  '(o, rest) ← lift (find_oid 0 name l);
  lift (fail_if (negb (enabled o)) (Raw ENOENT)) ;;
  lift (fail_if (is_node o && negb (is_some (handler o))) (Raw EISDIR)) ;;
  asks (fun q =>
    if new q is Some _ then
      fail_if (Z.land (kind o) CTLFLAG_WR =? 0) (Raw EPERM);;
      panic_if (negb (Z.land (kind o) CTLFLAG_SECURE =? 0)) PTodo;;
      panic_if (Z.land (kind o) CTLFLAG_ANYBODY =? 0) PTodo
    else Ok tt) ;;
  h ← lift (ok_or (Raw EINVAL) (handler o));
  let '(a, a2) := if is_node o then (AName rest, len rest) else (AStatic (arg1 o), arg2 o) in
  run c l h a a2.

(** What [sys_sysctl] does after it has set up the request: the result is
    what is written to [oldlenp]. *)
Definition respond (c : Ctx) (name : list Z) (oldlenp : option Z) : io Req SysErr (option Z) := fun q =>
  let '(q, r) := exec c CHILDREN name q in
  let ok :=
    (if (oldlenp : option Z) is Some _ then
       Some (if negb (is_some (old q)) || (oldidx q <=? validlen q) then oldidx q else validlen q)
     else None) in
  match r with
  | Ok _ => (q, Ok ok)
  | Err e => (q, if VmSpace.errno e =? ENOMEM then Ok ok else Err e)
  | Panic p => (q, Panic p)
  end.

(** [mem] is the memory of the process, [names] the numbers at the first
    argument, [oldlenp] and [new] what is at these arguments; [None] is a null
    pointer.  The result is the request, with what is written to [old], and
    what is written to [oldlenp]. *)
Definition sys_sysctl (c : Ctx) (mem : Z -> Z) (names : option (Z -> Z)) (a1 oldp : Z) (oldlenp : option Z)
    (new : option (list Z)) (uptc : Z) (rng : Arnd.State) : Req * outcome SysErr (option Z) :=
  let n := default 0 oldlenp in
  let q := MkReq oldp (if oldp =? 0 then None else Some (mem <$> seqZ oldp n)) 0 new 0 n uptc rng in
  ((namelen ← lift (VmSpace.arg_u32 a1);
    lift (fail_if ((namelen <? 2) || (24 <? namelen)) (Raw EINVAL)) ;;
    f ← lift (ok_or (Raw EFAULT) names);
    lift (fail_if ((f 0 =? CTL_DEBUG) && negb (Cred.is_system (cred c))) (Raw EINVAL)) ;;
    lift (panic_if ((f 0 =? CTL_VM) && (f 1 =? VM_PS4DEV)) PTodo) ;;
    respond c (f <$> seqZ 0 namelen) oldlenp) : io Req SysErr (option Z)) q.
End Sysctl.
