(* ===== verification/SysctlProps.v ===== *)
(** * Properties of the system parameters

    Well typed trees of parameters cannot make the system call fail a
    downcast, names and numbers of parameters agree, and the answer fills the
    buffer as far as it goes; the table of the random bytes stays a
    permutation. *)
From S2P Require Import Prelude Env Cred VmSpace Sysctl.

(** ** Random bytes *)

Module ArndProps.
Import Arnd.
Local Open Scope list_scope.

Definition state_ok (s : State) : Prop := is_byte (i s) /\ is_byte (j s) /\ sbox s ≡ₚ seqZ 0 256.

Lemma swap_insert_perm {A} (l : list A) a b x y :
  l !! a = Some x -> l !! b = Some y -> <[b := x]> (<[a := y]> l) ≡ₚ l.
Proof.
  intros Ha Hb. assert (a < length l)%nat by by eapply lookup_lt_Some. assert (b < length l)%nat by by eapply lookup_lt_Some.
  apply Permutation_inj. split; [by rewrite !length_insert|].
  exists (fun k => if decide (k = a) then b else if decide (k = b) then a else k). split.
  - intros k k' H'. repeat case_decide; simplify_eq; done.
  - intros k. destruct (decide (k = b)) as [->|Hkb].
    + rewrite list_lookup_insert_eq by by rewrite length_insert. repeat case_decide; simplify_eq; congruence.
    + rewrite list_lookup_insert_ne by done. destruct (decide (k = a)) as [->|Hka]; [by rewrite list_lookup_insert_eq|].
      by rewrite list_lookup_insert_ne.
Qed.

Lemma at_lookup l k : l ≡ₚ seqZ 0 256 -> is_byte k -> l !! Z.to_nat k = Some (at_ l k) /\ is_byte (at_ l k).
Proof.
  intros Hl Hk. unfold is_byte in *. unfold at_.
  destruct (lookup_lt_is_Some_2 l (Z.to_nat k)) as [v Hv].
  { rewrite (Permutation_length Hl), length_seqZ. lia. }
  rewrite Hv. split; [done|]. cbn. apply list_elem_of_lookup_2 in Hv. rewrite Hl in Hv. apply elem_of_seqZ in Hv. lia.
Qed.

Lemma add8_byte a b : is_byte (add8 a b).
Proof. unfold add8, is_byte. apply Z.mod_pos_bound. lia. Qed.

Lemma rand_byte_ok s : state_ok s -> is_byte (rand_byte s).1 /\ state_ok (rand_byte s).2.
Proof.
  intros (Hi & Hj & Hs). unfold rand_byte. cbn [fst snd].
  set (i' := add8 (i s) 1). assert (is_byte i') as Hi' by apply add8_byte.
  set (j' := add8 (j s) (at_ (sbox s) i')). assert (is_byte j') as Hj' by apply add8_byte.
  assert (swap (sbox s) i' j' ≡ₚ seqZ 0 256) as Hp.
  { etrans; [|exact Hs]. unfold swap. apply swap_insert_perm; by apply at_lookup. }
  split; [|split_and!; done]. apply at_lookup; [done|]. apply add8_byte.
Qed.

(** Whatever was drawn before, the table holds every byte once, so that no
    index is out of range, and what is drawn are bytes. *)
Theorem rand_bytes_ok n s :
  state_ok s -> length (rand_bytes n s).1 = n /\ Forall is_byte (rand_bytes n s).1 /\ state_ok (rand_bytes n s).2.
Proof.
  revert s. induction n as [|n IH]; intros s Hs; cbn [rand_bytes]; [done|].
  pose proof (rand_byte_ok s Hs) as [Hb Hs']. destruct (rand_byte s) as [b s']. cbn in Hb, Hs'.
  destruct (IH s' Hs') as (Hl & Hf & Ho). destruct (rand_bytes n s') as [l s'']. cbn in *. rewrite Hl. auto.
Qed.

Lemma state_new_ok : state_ok state_new.
Proof. done. Qed.
End ArndProps.

Module SysctlProps.
Import Env Sysctl.
Local Open Scope list_scope.
Local Open Scope Z_scope.

(** ** Requests *)

(** A request no handler has written to, and one no handler has worked on. *)
Definition writable (q : Req) : Prop :=
  oldidx q = 0 /\ 0 <= validlen q < 2 ^ 64 /\ forall b, old q = Some b -> len b = validlen q.
Definition fresh (q : Req) : Prop := writable q /\ newidx q = 0 /\ ArndProps.state_ok (rng q).

(** What a buffer holds when it is filled with data. *)
Definition fill (b data : list Z) : list Z := take (length b) data ++ drop (length data) b.
Definition fits (q : Req) (data : list Z) : bool := if old q is Some b then len data <=? len b else true.

Lemma write_spec q data : writable q -> len data < 2 ^ 64 ->
  write data q = (set_old ((fun b => fill b data) <$> old q) (len data) q, if fits q data then Ok tt else Err (Raw ENOMEM)).
Proof.
  intros (Ho & Hv & Hb) Hd. unfold write, uadd, fits. rewrite Ho, Z.add_0_l, (proj2 (Z.ltb_lt _ _)) by done.
  destruct (old q) as [b|] eqn:Eo; [|done]. specialize (Hb b eq_refl). unfold len in *. cbn [fmap option_fmap option_map].
  assert (fill b data = overwrite b 0 (take (Z.to_nat (Z.min (validlen q - 0) (Z.of_nat (length data)))) data)) as Hf.
  { unfold fill, overwrite. rewrite Z.sub_0_r, <- Hb. cbn. rewrite length_take.
    destruct (decide (length b <= length data)%nat).
    - rewrite (Z.min_l _ _) by lia. rewrite Nat2Z.id, Nat.min_l by lia. by rewrite !drop_ge by lia.
    - rewrite (Z.min_r _ _) by lia. rewrite Nat2Z.id, Nat.min_l by lia. rewrite (take_ge data (length b)), (take_ge data (length data)) by lia. done. }
  destruct (Z.leb_spec (validlen q) 0).
  - assert (b = []) as -> by (destruct b; [done|cbn in *; lia]). cbn in *. f_equal; [by rewrite drop_nil|].
    destruct data as [|x data]; [done|]. cbn. done.
  - rewrite Z.add_0_l. rewrite (proj2 (Z.leb_le _ _)) by lia. rewrite <- Hf. f_equal. rewrite Z.sub_0_r.
    destruct (Z.leb_spec (Z.of_nat (length data)) (Z.of_nat (length b))).
    + rewrite (proj2 (Z.ltb_ge _ _)) by lia. done.
    + rewrite (proj2 (Z.ltb_lt _ _)) by lia. done.
Qed.

(** Panics that say that a part is not implemented, and other results. *)
Definition safe {A} (r : outcome SysErr A) : Prop := forall p, r = Panic p -> p = PTodo.

Lemma write_safe q data : writable q -> len data < 2 ^ 64 -> safe (write data q).2.
Proof. intros. rewrite write_spec by done. cbn. destruct (fits q data); by intros p ?. Qed.

Lemma no_new_safe q : safe (no_new q).2.
Proof. unfold no_new, asks, panic_if. cbn. destruct (is_some (new q)); by intros p ?; simplify_eq. Qed.

Lemma io_bind_safe {A B} (m : io Req SysErr A) (f : A -> io Req SysErr B) q :
  safe (m q).2 -> (forall q' a, m q = (q', Ok a) -> safe (f a q').2) -> safe ((m ≫= f) q).2.
Proof.
  unfold mbind, io_bind. destruct (m q) as [q' [a|e|p]]; cbn; intros Hm Hf; [by apply Hf|done|].
  intros p' ?. simplify_eq. by apply Hm.
Qed.
Lemma bind_safe {A B} (m : outcome SysErr A) (f : A -> outcome SysErr B) :
  safe m -> (forall a, m = Ok a -> safe (f a)) -> safe (m ≫= f).
Proof. destruct m as [a|e|p]; cbn; intros Hm Hf; [by apply Hf|done|]. intros p' ?. simplify_eq. by apply Hm. Qed.
Lemma fail_if_safe b e : safe (fail_if b e : outcome SysErr unit).
Proof. unfold fail_if. destruct b; by intros p ?. Qed.
Lemma todo_safe b : safe (panic_if b PTodo : outcome SysErr unit).
Proof. unfold panic_if. destruct b; by intros p ?; simplify_eq. Qed.

(** ** Trees *)

#[export] Instance Oid_inhabited : Inhabited Oid := populate (MkOid 0 0 None 0 "none" None false).

(** The parameter has the argument its handler takes, and so have those under
    it, which have different numbers and names. *)
Definition arg_typed (o : Oid) : bool :=
  match handler o, arg1 o with
  | None, Some (AList _) => true
  | None, _ => negb (is_node o)
  | Some handle_int, (None | Some (AI32 _)) => negb (is_node o)
  | Some handle_64, Some (AU64 _) => negb (is_node o)
  | Some (handle_int | handle_64), _ => false
  | Some kern_proc_appinfo, _ => is_node o
  | Some _, _ => true
  end.
Definition distinct (l : list Oid) : bool := bool_decide (NoDup (number <$> l)) && bool_decide (NoDup (name <$> l)).
Fixpoint typed (o : Oid) : bool :=
  arg_typed o && match o with MkOid _ _ (Some (AList l)) _ _ _ _ => distinct l && forallb typed l | _ => true end.
Definition typed_tree (l : list Oid) : Prop := distinct l = true /\ forallb typed l = true.

Lemma typed_in l o : typed_tree l -> o ∈ l -> typed o = true.
Proof. intros [_ H] Ho. rewrite forallb_forall in H. apply H. by apply list_elem_of_In. Qed.
Lemma typed_arg o : typed o = true -> arg_typed o = true.
Proof. destruct o. cbn [typed]. by intros [? _]%andb_prop. Qed.
Lemma typed_children o l : typed o = true -> arg1 o = Some (AList l) -> typed_tree l.
Proof. destruct o. cbn [typed arg1]. intros [_ H]%andb_prop ->. by apply andb_prop in H. Qed.

Lemma CHILDREN_typed : typed_tree CHILDREN.
Proof. by vm_compute. Qed.

(** The parameter [o] is under [l] at the names [ws] and the numbers [ns]. *)
Inductive leads : list Oid -> list str -> list Z -> Oid -> Prop :=
  | leads_here l o : o ∈ l -> leads l [bytes_of (name o)] [number o] o
  | leads_under l o l' ws ns o' :
      o ∈ l -> is_node o = true -> handler o = None -> arg1 o = Some (AList l') -> leads l' ws ns o' ->
      leads l (bytes_of (name o) :: ws) (number o :: ns) o'.

(** All parameters at most [n] deep. *)
Fixpoint paths (n : nat) (l : list Oid) : list (list str * list Z * Oid) :=
  match n with
  | O => []
  | S n =>
      o ← l;
      ([bytes_of (name o)], [number o], o) ::
      match arg1 o, handler o with
      | Some (AList l'), None =>
          if is_node o then (fun e => (bytes_of (name o) :: e.1.1, number o :: e.1.2, e.2)) <$> paths n l' else []
      | _, _ => []
      end
  end.

Lemma paths_leads n l ws ns o : (ws, ns, o) ∈ paths n l -> leads l ws ns o.
Proof.
  revert l ws ns o. induction n as [|n IH]; intros l ws ns o; cbn [paths]; [by intros ?%elem_of_nil|].
  intros (o' & H & Ho)%list_elem_of_bind. apply elem_of_cons in H as [?|H]; [simplify_eq; by constructor|].
  destruct (arg1 o') as [[l'| |]|] eqn:E1, (handler o') eqn:Eh; try by apply elem_of_nil in H.
  destruct (is_node o') eqn:En; [|by apply elem_of_nil in H].
  apply list_elem_of_fmap in H as ([[ws' ns'] o''] & ? & H). simplify_eq/=. econstructor; eauto.
Qed.

Lemma leads_paths l ws ns o : leads l ws ns o -> forall n, (length ns <= n)%nat -> (ws, ns, o) ∈ paths n l.
Proof.
  induction 1 as [l o Ho|l o l' ws ns o' Ho En Eh E1 _ IH]; intros [|n] Hn; cbn in Hn; try lia; cbn [paths].
  - apply list_elem_of_bind. exists o. split; [|done]. by apply elem_of_cons; left.
  - apply list_elem_of_bind. exists o. split; [|done]. apply elem_of_cons. right. rewrite E1, Eh, En.
    apply list_elem_of_fmap. exists (ws, ns, o'). split; [done|]. apply IH. lia.
Qed.

Lemma NoDup_fmap_eq {A B} (g : A -> B) l x y : NoDup (g <$> l) -> x ∈ l -> y ∈ l -> g x = g y -> x = y.
Proof.
  intros Hl [i Hi]%list_elem_of_lookup_1 [k Hk]%list_elem_of_lookup_1 He.
  assert (i = k) as ->; [|congruence]. eapply NoDup_lookup; [exact Hl| |]; rewrite list_lookup_fmap.
  - by rewrite Hi.
  - by rewrite Hk, He.
Qed.

Lemma find_unique {A B} (g : A -> B) (f : A -> bool) l x :
  (forall y, f y = true <-> g y = g x) -> NoDup (g <$> l) -> x ∈ l -> List.find f l = Some x.
Proof.
  intros Hf Hl Hx. destruct (List.find f l) as [y|] eqn:E.
  - apply find_some in E as [Hy E]. f_equal. eapply NoDup_fmap_eq; [done|by apply list_elem_of_In|done|]. by apply Hf.
  - apply list_elem_of_In in Hx. eapply find_none in E; [|done]. by rewrite (proj2 (Hf x)) in E.
Qed.

Lemma distinct_number l o : typed_tree l -> o ∈ l -> List.find (fun o' => number o' =? number o) l = Some o.
Proof.
  intros [[Hn _]%andb_prop _] Ho. apply bool_decide_eq_true in Hn. eapply find_unique; [|done|done].
  intros y. apply Z.eqb_eq.
Qed.

Lemma bytes_of_inj (a b : string) : bytes_of a = bytes_of b -> a = b.
Proof.
  revert b. induction a as [|c a IH]; intros [|d b]; cbn [bytes_of]; [done..|]. intros H. injection H as Hc%N2Z.inj ->%IH.
  f_equal. rewrite <- (Ascii.ascii_N_embedding c), Hc. apply Ascii.ascii_N_embedding.
Qed.

Lemma distinct_name l o :
  typed_tree l -> o ∈ l -> List.find (fun o' => bool_decide (bytes_of (name o') = bytes_of (name o))) l = Some o.
Proof.
  intros [[_ Hn]%andb_prop _] Ho. apply bool_decide_eq_true in Hn. eapply find_unique; [|done|done].
  intros y. rewrite bool_decide_eq_true. split; [apply bytes_of_inj|congruence].
Qed.

(** The search by number finds a parameter of the tree and stops before the
    arguments of its handler. *)
Lemma find_oid_leads k nm l r : typed_tree l -> nm <> [] -> find_oid k nm l = r ->
  safe r /\ forall o rest, r = Ok (o, rest) -> typed o = true /\
    (exists ws ns, nm = ns ++ rest /\ leads l ws ns o) /\ (rest <> [] -> is_node o = true /\ handler o <> None).
Proof.
  revert k l r. induction nm as [|n rest IH]; intros k l r Hl Hne Hr; [done|]. cbn [find_oid] in Hr. subst r.
  destruct (List.find _ l) as [o|] eqn:E; [|split; [by intros p ?; simplify_eq|done]].
  apply find_some in E as [Ho%list_elem_of_In E%Z.eqb_eq]. subst n. pose proof (typed_in _ _ Hl Ho) as Ht.
  destruct (is_node o) eqn:En; cbn [negb].
  2: { split; [apply bind_safe; [apply fail_if_safe|by intros ? _ p ?]|]. intros o' rest' ([] & H' & ?)%bind_Ok. simplify_eq.
       apply fail_if_Ok, bool_decide_eq_false in H'. assert (rest' = []) as -> by (destruct rest'; naive_solver). split_and!; [done| |done].
       eexists _, [_]. split; [done|by constructor]. }
  case_bool_decide as Hrest; [destruct (handler o) eqn:Eh|]; cbn [andb negb is_some].
  - split; [by intros p ?|]. intros ? ? ?. simplify_eq. split_and!; [done| |by rewrite Eh]. eexists _, [_]. split; [done|by constructor].
  - assert (exists l', arg1 o = Some (AList l')) as [l' E1].
    { apply typed_arg in Ht. unfold arg_typed in Ht. rewrite Eh, En in Ht. destruct (arg1 o) as [[l'| |]|]; eauto; done. }
    rewrite E1. cbn [downcast_list]. pose proof (typed_children _ _ Ht E1) as Hl'. split.
    + apply bind_safe; [apply todo_safe|]. intros _ _. cbn. by apply (IH (S k) l').
    + intros o' rest' ([] & _ & H')%bind_Ok. cbn in H'. destruct (IH (S k) l' _ Hl' Hrest eq_refl) as [_ H]. specialize (H _ _ H') as (Ht' & (ws & ns & -> & Hw) & Hh).
      split_and!; [done| |done]. eexists (_ :: ws), (_ :: ns). split; [done|]. by econstructor.
  - split; [by intros p ?|]. intros ? ? ?. simplify_eq. split_and!; [done| |].
    + eexists _, [_]. split; [done|by constructor].
    + done.
Qed.

Lemma find_oid_complete k ws ns l o :
  leads l ws ns o -> typed_tree l -> (k + length ns <= CTL_MAXNAME)%nat -> find_oid k ns l = Ok (o, []).
Proof.
  intros H. revert k. induction H as [l o Ho|l o l' ws ns o' Ho En Eh E1 H IH]; intros k Hl Hk; cbn [find_oid].
  - rewrite distinct_number by done. by destruct (is_node o).
  - rewrite distinct_number by done. rewrite En, Eh, E1. cbn [negb is_some andb downcast_list].
    rewrite bool_decide_true by by inversion H. cbn [andb].
    assert (1 <= length ns)%nat by (inversion H; cbn; lia). cbn [length] in Hk. unfold CTL_MAXNAME in *.
    rewrite (proj2 (Nat.eqb_neq (S k) 24)) by lia. cbn. apply IH; [|lia]. by eapply typed_children; [eapply typed_in|].
Qed.

Lemma name_walk_leads ws n l r : typed_tree l -> name_walk ws n l = r ->
  safe r /\ forall ns, r = Ok ns -> ws <> [] -> (exists o, leads l ws ns o) /\ (n + length ns <= 24)%nat.
Proof.
  revert n l r. induction ws as [|w ws IH]; intros n l r Hl Hr; cbn [name_walk] in Hr; subst r; [split; [by intros p ?|done]|].
  destruct (Nat.ltb_spec 23 n); [split; [by intros p ?; simplify_eq|done]|].
  destruct (List.find _ l) as [o|] eqn:E; [|split; [by intros p ?; simplify_eq|done]].
  apply find_some in E as [Ho%list_elem_of_In E%bool_decide_eq_true]. subst w. pose proof (typed_in _ _ Hl Ho) as Ht.
  destruct ws as [|w ws].
  { split; [by intros p ?|]. intros ns ? _. simplify_eq. split; [|cbn; lia]. eexists. by constructor. }
  fold (is_node o). destruct (is_node o && negb (is_some (handler o))) eqn:En.
  2: { replace (negb (is_node o) || is_some (handler o)) with true by by destruct (is_node o), (is_some (handler o)).
       split; [by intros p ?|done]. }
  apply andb_prop in En as [En Eh]. destruct (handler o) eqn:Eh'; [done|]. rewrite En. cbn [negb orb is_some].
  assert (exists l', arg1 o = Some (AList l')) as [l' E1].
  { apply typed_arg in Ht. unfold arg_typed in Ht. rewrite Eh', En in Ht. destruct (arg1 o) as [[l'| |]|]; eauto; done. }
  rewrite E1. destruct (IH (S n) l' _ (typed_children _ _ Ht E1) eq_refl) as [Hs Hok].
  cbn [downcast_list fail_if mbind outcome_bind].
  destruct (name_walk (w :: ws) (S n) l') as [ns|e|p] eqn:Ew; cbn [mbind outcome_bind].
  - split; [by intros p ?|]. intros ns' ? _. simplify_eq. destruct (Hok ns eq_refl ltac:(done)) as [[o' Ho'] Hn].
    split; [exists o'; by econstructor|cbn; lia].
  - split; [intros p ?; simplify_eq/=|intros ns' ?; simplify_eq/=].
  - split; [intros p' ?; simplify_eq/=; by apply Hs|intros ns' ?; simplify_eq/=].
Qed.

Lemma name_walk_complete ws ns l o n :
  leads l ws ns o -> typed_tree l -> (n + length ns <= 24)%nat -> name_walk ws n l = Ok ns.
Proof.
  intros H. revert n. induction H as [l o Ho|l o l' ws ns o' Ho En Eh E1 H IH]; intros n Hl Hn; cbn [name_walk length] in *.
  - rewrite (proj2 (Nat.ltb_ge 23 n)) by lia. by rewrite distinct_name.
  - rewrite (proj2 (Nat.ltb_ge 23 n)) by lia. rewrite distinct_name by done. fold (is_node o). rewrite En, Eh, E1.
    cbn [negb orb is_some fail_if downcast_list mbind outcome_bind]. rewrite IH.
    + by inversion H.
    + by eapply typed_children; [eapply typed_in|].
    + lia.
Qed.

(** ** Handlers *)

Lemma until_nul_app b : until_nul (b ++ [0]) = until_nul b.
Proof. induction b as [|x b IH]; cbn; [done|]. by rewrite IH. Qed.

Lemma read_fresh q b : newidx q = 0 -> new q = Some b ->
  read (replicate (Z.to_nat (len b)) 0) q = (set_newidx (len b) q, Ok b).
Proof.
  intros Hi Hb. unfold read, usub, slice, len. rewrite Hb, Hi. rewrite (proj2 (Z.leb_le 0 _)) by lia.
  rewrite length_replicate, Nat2Z.id, Z.sub_0_r, (proj2 (Z.leb_le _ _)) by lia. rewrite Nat2Z.id, drop_0.
  by rewrite take_ge by lia.
Qed.

Lemma length_i32s ns : length (concat (i32_bytes <$> ns)) = (4 * length ns)%nat.
Proof. induction ns as [|n ns IH]; [done|]. cbn [fmap list_fmap concat length]. rewrite length_app, IH. unfold i32_bytes. rewrite length_le_bytes. lia. Qed.

(** The only panic of the search by name is for bytes that are not text. *)
Lemma name2oid_cases l q : typed_tree l -> fresh q ->
  safe (name2oid l q).2
  \/ (name2oid l q).2 = Panic PUnwrap /\ exists b, new q = Some b /\ valid_utf8 (until_nul b) = false.
Proof.
  intros Hl (Hw & Hi & _). unfold name2oid. destruct (new q) as [b|] eqn:Eb; [|left; by intros p ?].
  unfold mbind, io_bind, lift, fail_if, panic_if. destruct (len b =? 0); [left; by intros p ?|].
  destruct (0x400 <=? len b); [left; by intros p ?|]. rewrite read_fresh by done. rewrite until_nul_app.
  destruct (valid_utf8 (until_nul b)) eqn:Eu; cbn [negb]; [left|right; eauto].
  case_bool_decide; [by intros p ?|].
  destruct (name_walk_leads (split_on DOT (pop_dot (until_nul b))) 0 l _ Hl eq_refl) as [Hs Hok].
  destruct (name_walk _ 0 l) as [ns|e|p] eqn:En.
  - apply write_safe; [done|]. unfold len. rewrite length_i32s.
    destruct (Hok ns eq_refl) as [_ Hn]; [|lia]. by destruct (pop_dot (until_nul b)) as [|x s']; cbn; [|destruct (x =? DOT), (split_on DOT s')].
  - by intros p ?.
  - intros p' ?. simplify_eq/=. by apply Hs.
Qed.

(** The argument is what the handler takes. *)
Definition arg_ok (h : Handler) (a : Arg) : Prop :=
  match h with
  | handle_int => exists v, a = AStatic v /\ (v = None \/ exists x, v = Some (AI32 x))
  | handle_64 => exists x, a = AStatic (Some (AU64 x))
  | kern_proc_appinfo => exists v, a = AName v
  | _ => True
  end.

(** The handlers that write a value they have, and then refuse a new one. *)
Lemma write_no_new_safe q data : writable q -> len data < 2 ^ 64 -> safe ((write data ;; no_new) q).2.
Proof. intros. apply io_bind_safe; [by apply write_safe|]. intros. apply no_new_safe. Qed.

Lemma oldlen_bound q : writable q -> 0 <= oldlen q < 2 ^ 64.
Proof. intros (_ & Hv & Hb). unfold oldlen. destruct (old q) as [b|]; [rewrite (Hb b) by done|]; lia. Qed.

Lemma proc_appinfo_cases c v q : writable q ->
  safe (proc_appinfo c (AName v) q).2 \/ v = [] /\ (proc_appinfo c (AName v) q).2 = Panic PIndex.
Proof.
  intros Hw. pose proof (oldlen_bound q Hw). unfold proc_appinfo, lift, fail_if.
  destruct (Z.leb_spec 73 (oldlen q)); [left; by intros p ?|].
  destruct v as [|x v]; [right; done|left]. do 3 (apply io_bind_safe; [by intros p ?|intros ? ? ?; simplify_eq/=]).
  apply io_bind_safe; [cbn; destruct (negb _); by intros p ?|]. intros q1 [] Hq. cbn in Hq. destruct (negb _); [done|]. injection Hq as <-.
  apply write_no_new_safe; [done|]. unfold len. rewrite length_replicate. lia.
Qed.

Lemma run_cases c l h a a2 q : typed_tree l -> fresh q -> arg_ok h a ->
  safe (run c l h a a2 q).2
  \/ h = sysctl_name2oid /\ (run c l h a a2 q).2 = Panic PUnwrap
     /\ (exists b, new q = Some b /\ valid_utf8 (until_nul b) = false)
  \/ h = kern_proc_appinfo /\ a = AName [] /\ (run c l h a a2 q).2 = Panic PIndex.
Proof.
  intros Hl Hq Ha. pose proof Hq as (Hw & _ & Hr).
  destruct h; cbn [run arg_ok] in *; try by left; intros p ?; simplify_eq/=.
  - destruct (name2oid_cases l q Hl Hq) as [|[]]; eauto.
  - destruct Ha as [v ->]. destruct (proc_appinfo_cases c v q Hw) as [|[-> ?]]; eauto.
  - left. by apply write_safe.
  - left. apply io_bind_safe; [by apply write_safe|]. by intros ? ? _ p ?.
  - left. by apply write_safe.
  - left. unfold arandom. pose proof (oldlen_bound q Hw).
    destruct (ArndProps.rand_bytes_ok (Z.to_nat (Z.min 256 (oldlen q))) (rng q) Hr) as [Hn _].
    destruct (Arnd.rand_bytes _ _) as [b s]. cbn in Hn. apply write_safe; [done|]. unfold len. lia.
  - left. unfold tsc. destruct (tsc_freq c =? 0); [by intros p ?|].
    apply io_bind_safe; [|intros; apply no_new_safe]. apply io_bind_safe; [by intros p ?|].
    intros q' y Hy. assert (q' = q) as -> by by injection Hy. by apply write_no_new_safe.
  - left. destruct Ha as (v & -> & Hv). apply io_bind_safe; [destruct Hv as [->|[x ->]]; by intros p ?|].
    intros q' x Hx. assert (q' = q) as -> by by injection Hx. by apply write_no_new_safe.
  - left. destruct Ha as (x & ->). apply io_bind_safe; [by intros p ?|]. intros q' y Hy. assert (q' = q) as -> by by injection Hy.
    by apply write_no_new_safe.
Qed.

Lemma typed_arg_ok o rest h : typed o = true -> handler o = Some h ->
  arg_ok h (if is_node o then AName rest else AStatic (arg1 o)).
Proof.
  intros Ht%typed_arg Hh. unfold arg_typed in Ht. rewrite Hh in Ht.
  destruct h; cbn [arg_ok]; try done; destruct (is_node o); try done; eauto; destruct (arg1 o) as [[]|]; try done; eauto 6.
Qed.

(** ** The system call *)

(** [exec] once the parameter was found. *)
Lemma exec_found c l nm q o rest : find_oid 0 nm l = Ok (o, rest) ->
  (exec c l nm q).1 = q /\ safe (exec c l nm q).2
  \/ exists h, handler o = Some h /\ enabled o = true /\
       exec c l nm q = run c l h (if is_node o then AName rest else AStatic (arg1 o)) (if is_node o then len rest else arg2 o) q.
Proof.
  intros Hf. unfold exec, mbind, io_bind, lift, asks. rewrite Hf. unfold fail_if.
  destruct (enabled o); cbn [negb]; [|left; split; [done|by intros p ?]].
  destruct (is_node o && negb (is_some (handler o))); [left; split; [done|by intros p ?]|].
  match goal with |- context [match ?r with Ok _ => _ | Err _ => _ | Panic _ => _ end] => set (chk := r) end.
  assert (safe chk) as Hc.
  { unfold chk. destruct (new q); [|by intros p ?]. apply (bind_safe (fail_if _ _)); [apply fail_if_safe|intros _ _].
    apply (bind_safe (panic_if _ _)); [apply todo_safe|intros _ _; apply todo_safe]. }
  destruct chk as [[]|e|p]; [|left; split; [done|by intros p ?]|left; split; [done|]; intros p' ?; simplify_eq/=; by apply Hc].
  destruct (handler o) as [h|]; cbn [ok_or]; [right; exists h; split_and!; [done..|]; by destruct (is_node o)|].
  left. split; [done|by intros p ?].
Qed.

Lemma exec_cases c l nm q : typed_tree l -> fresh q -> nm <> [] ->
  safe (exec c l nm q).2
  \/ exists ws ns rest o, nm = ns ++ rest /\ leads l ws ns o /\
       ((exec c l nm q).2 = Panic PUnwrap /\ handler o = Some sysctl_name2oid /\ (rest <> [] -> is_node o = true)
          /\ (exists b, new q = Some b /\ valid_utf8 (until_nul b) = false)
        \/ (exec c l nm q).2 = Panic PIndex /\ handler o = Some kern_proc_appinfo /\ rest = []).
Proof.
  intros Hl Hq Hne. destruct (find_oid_leads 0 nm l _ Hl Hne eq_refl) as [Hs Hok].
  destruct (find_oid 0 nm l) as [[o rest]|e|p] eqn:Ef.
  - destruct (Hok o rest eq_refl) as (Ht & (ws & ns & -> & Hle) & Hn).
    destruct (exec_found c l (ns ++ rest) q o rest Ef) as [[_ ?]|(h & Hh & _ & ->)]; [by left|].
    destruct (run_cases c l h _ (if is_node o then len rest else arg2 o) q Hl Hq (typed_arg_ok o rest h Ht Hh)) as [?|[(-> & -> & Hb)|(-> & Ha & ->)]].
    + by left.
    + right. exists ws, ns, rest, o. split_and!; [done..|]. left. split_and!; [done..| |done]. naive_solver.
    + right. exists ws, ns, rest, o. split_and!; [done..|]. right. split_and!; [done..|]. by destruct (is_node o); simplify_eq.
  - left. unfold exec, mbind, io_bind, lift. rewrite Ef. by intros p ?.
  - left. unfold exec, mbind, io_bind, lift. rewrite Ef. intros p' ?. simplify_eq/=. by apply Hs.
Qed.

(** Of the parameters there are, these handlers have one each. *)
Definition one_each (e : list str * list Z * Oid) : bool :=
  match handler e.2 with
  | Some sysctl_name2oid => bool_decide (e.1.2 = [0; 3]) && negb (is_node e.2)
  | Some kern_proc_appinfo => bool_decide (e.1.2 = [1; 14; 35])
  | _ => true
  end.
Lemma CHILDREN_handlers ws ns o : leads CHILDREN ws ns o -> (length ns <= 24)%nat -> one_each (ws, ns, o) = true.
Proof.
  intros Hl Hn. pose proof (leads_paths _ _ _ _ Hl 24 Hn) as Hp.
  assert (forallb one_each (paths 24 CHILDREN) = true) as Ha by by vm_compute.
  rewrite forallb_forall in Ha. apply Ha. by apply list_elem_of_In.
Qed.

(** The names of a request are those of [exec]. *)
Lemma fresh_request mem oldp oldlenp new uptc rng :
  0 <= default 0 oldlenp < 2 ^ 64 -> ArndProps.state_ok rng ->
  fresh (MkReq oldp (if oldp =? 0 then None else Some (mem <$> seqZ oldp (default 0 oldlenp))) 0 new 0 (default 0 oldlenp) uptc rng).
Proof.
  intros Hn Hr. split; [|done]. split; [done|]. split; [done|]. cbn. intros b. destruct (oldp =? 0); [done|].
  intros Hb. injection Hb as <-. unfold len. rewrite length_fmap, length_seqZ. lia.
Qed.

(** C34: Calls of [sysctl] do not go wrong on the types of the parameters: in
    the tree of parameters every parameter without a handler has children and
    every handler gets the kind of argument it casts to.  Whatever numbers,
    buffers and new value a program passes, the call returns, with a value or
    an error, or reaches a part that is not implemented; the only other panics
    are those for a number of names that does not fit in 32 bits, of
    [kern.proc.appinfo] without a process, and of the search by name for bytes
    that are not UTF-8. *)
Theorem sysctl_type_sound c mem names a1 oldp oldlenp new uptc rng q p :
  0 <= a1 < 2 ^ 64 -> 0 <= default 0 oldlenp < 2 ^ 64 -> ArndProps.state_ok rng ->
  sys_sysctl c mem names a1 oldp oldlenp new uptc rng = (q, Panic p) ->
  p = PTodo
  \/ p = PUnwrap /\ 2 ^ 32 <= a1
  \/ p = PIndex /\ (exists f, names = Some f /\ f <$> seqZ 0 a1 = [1; 14; 35])
  \/ p = PUnwrap /\ (exists f b, names = Some f /\ f <$> seqZ 0 a1 = [0; 3] /\ new = Some b /\ valid_utf8 (until_nul b) = false).
Proof.
  intros Ha Hn Hr H. pose proof (fresh_request mem oldp oldlenp new uptc rng Hn Hr) as Hq.
  unfold sys_sysctl in H. cbv zeta in H. set (rq := MkReq _ _ _ _ _ _ _ _) in *.
  unfold mbind, io_bind, lift, VmSpace.arg_u32 in H. destruct (Z.ltb_spec a1 (2 ^ 32)); [|right; left; by simplify_eq].
  unfold fail_if in H. destruct ((a1 <? 2) || (24 <? a1)) eqn:Ea; [done|]. bool_to_prop.
  destruct names as [f|]; cbn [ok_or] in H; [|done]. destruct ((f 0 =? CTL_DEBUG) && _); [done|].
  unfold panic_if in H. destruct ((f 0 =? CTL_VM) && _); [by left; simplify_eq|]. unfold respond in H.
  assert (f <$> seqZ 0 a1 <> []) as Hne.
  { intros E%(f_equal length). rewrite length_fmap, length_seqZ in E. cbn in E. lia. }
  assert ((exec c CHILDREN (f <$> seqZ 0 a1) rq).2 = Panic p) as Hp.
  { destruct (exec _ _ _ _) as [q' [u|e|p']]; [done| |by simplify_eq]. destruct (VmSpace.errno e =? ENOMEM); done. }
  destruct (exec_cases c CHILDREN _ _ CHILDREN_typed Hq Hne) as [Hs|(ws & ns & rest & o & E & Hl & Hx)]; [left; by apply Hs|].
  right. right. assert (length ns <= 24)%nat as Hlen.
  { apply (f_equal length) in E. rewrite length_fmap, length_seqZ, length_app in E. lia. }
  pose proof (CHILDREN_handlers ws ns o Hl Hlen) as Ho. unfold one_each in Ho. cbn [fst snd] in Ho.
  destruct Hx as [(Hu & Hh & Hrest & b & Hb & Hv)|(Hu & Hh & ->)]; rewrite Hh in Ho; rewrite Hp in Hu; injection Hu as ->.
  - right. split; [done|]. exists f, b. apply andb_prop in Ho as [->%bool_decide_eq_true Ho]. split_and!; [done| |done|done].
    assert (rest = []) as ->; [|by rewrite E]. destruct rest; [done|]. by rewrite Hrest in Ho.
  - left. split; [done|]. exists f. split; [done|]. apply bool_decide_eq_true in Ho as ->. by rewrite E, app_nil_r.
Qed.

Definition demo_cred : Cred.Ucred := Cred.Cr 0 0 [0] Cred.SYS_CORE.
Definition demo_ctx : Ctx := MkCtx 100 demo_cred 77 0x7000 1000.
Definition numbers (l : list Z) (i : Z) : Z := default 0 (l !! Z.to_nat i).

(** The panic of [kern.proc.appinfo] without a process. *)
Lemma sysctl_type_sound_witness :
  exists q p, sys_sysctl demo_ctx (fun _ => 0) (Some (numbers [1; 14; 35])) 3 0 None None 0 Arnd.state_new = (q, Panic p)
  /\ p <> PTodo /\ p <> PUnwrap
  /\ exists f, Some (numbers [1; 14; 35]) = Some f /\ f <$> seqZ 0 3 = [1; 14; 35].
Proof.
  assert (H : sys_sysctl demo_ctx (fun _ => 0) (Some (numbers [1; 14; 35])) 3 0 None None 0 Arnd.state_new
    = ((sys_sysctl demo_ctx (fun _ => 0) (Some (numbers [1; 14; 35])) 3 0 None None 0 Arnd.state_new).1, Panic PIndex))
    by (vm_compute; reflexivity).
  eexists _, PIndex. split; [exact H|]. split; [discriminate|]. split; [discriminate|].
  destruct (sysctl_type_sound demo_ctx (fun _ => 0) (Some (numbers [1; 14; 35])) 3 0 None None 0 Arnd.state_new
    _ PIndex ltac:(lia) ltac:(cbn; lia) ArndProps.state_new_ok H) as [Hp|[[Hp _]|[[_ Hf]|[Hp _]]]];
    [discriminate Hp|discriminate Hp|exact Hf|discriminate Hp].
Defined.

(** ** Names and numbers *)

(** Components are not empty, have no dot and are text; numbers are not
    negative. *)
Definition clean (e : list str * list Z * Oid) : bool :=
  let j := join_on DOT e.1.1 in
  valid_utf8 j && bool_decide (0 ∉ j) && bool_decide (last j <> Some DOT) && bool_decide (j <> []) && (len j <? 0x3ff)
  && forallb (fun w => bool_decide (DOT ∉ w)) e.1.1 && forallb (fun n => (0 <=? n) && (n <? 2 ^ 31)) e.1.2
  && negb (numbers e.1.2 0 =? CTL_DEBUG).
Lemma CHILDREN_clean : Forall (fun e => clean e = true) (paths 24 CHILDREN).
Proof. apply List.Forall_forall. apply forallb_forall. by vm_compute. Qed.

Lemma until_nul_zeros j k : 0 ∉ j -> until_nul (j ++ replicate k 0) = j.
Proof.
  induction j as [|x j IH]; cbn; [by destruct k|]. intros [Hx Hj]%not_elem_of_cons.
  rewrite (proj2 (Z.eqb_neq x 0)) by done. by rewrite IH.
Qed.

Lemma name2oid_found l q ws ns o k : typed_tree l -> leads l ws ns o -> (length ns <= 24)%nat -> clean (ws, ns, o) = true ->
  newidx q = 0 -> new q = Some (join_on DOT ws ++ replicate k 0) -> (k <= 1)%nat ->
  name2oid l q = write (concat (i32_bytes <$> ns)) (set_newidx (len (join_on DOT ws ++ replicate k 0)) q).
Proof.
  intros Hl Hle Hn Hc Hi Hnew Hk. unfold clean in Hc. cbn [fst snd] in Hc.
  apply andb_prop in Hc as [[[[[[[Hu H0]%andb_prop Hd]%andb_prop Hj]%andb_prop Hlen]%andb_prop Hw]%andb_prop _]%andb_prop _].
  apply bool_decide_eq_true in H0, Hd, Hj. apply Z.ltb_lt in Hlen. set (j := join_on DOT ws) in *.
  assert (0 < len (j ++ replicate k 0) < 0x400).
  { unfold len in *. rewrite length_app, length_replicate. destruct j; [done|]. cbn [length] in *. lia. }
  unfold name2oid, mbind, io_bind, lift, fail_if, panic_if. rewrite Hnew. rewrite (proj2 (Z.eqb_neq _ _)), (proj2 (Z.leb_gt _ _)) by lia.
  rewrite read_fresh by done. rewrite until_nul_app, until_nul_zeros by done. rewrite Hu. cbn [negb].
  rewrite bool_decide_false by done. assert (pop_dot j = j) as ->.
  { unfold pop_dot. destruct (last j) as [x|]; [|done]. destruct (Z.eqb_spec x DOT); [by subst|done]. }
  unfold j. rewrite split_join.
  - by rewrite (name_walk_complete _ _ _ _ 0 Hle Hl Hn).
  - by inversion Hle.
  - apply List.Forall_forall. intros w Hin. rewrite forallb_forall in Hw. apply Hw in Hin. by apply bool_decide_eq_true in Hin.
Qed.

Lemma exec_run c l nm q o rest h : find_oid 0 nm l = Ok (o, rest) -> enabled o = true -> handler o = Some h ->
  new q = None \/ Z.land (kind o) CTLFLAG_WR <> 0 /\ Z.land (kind o) CTLFLAG_SECURE = 0 /\ Z.land (kind o) CTLFLAG_ANYBODY <> 0 ->
  exec c l nm q = run c l h (if is_node o then AName rest else AStatic (arg1 o)) (if is_node o then len rest else arg2 o) q.
Proof.
  intros Hf He Hh Hn. unfold exec, mbind, io_bind, lift, asks. rewrite Hf, He, Hh. unfold fail_if, panic_if. cbn [negb is_some andb].
  rewrite andb_false_r. destruct Hn as [->|(Hw & -> & Ha)]; [by destruct (is_node o)|].
  rewrite (proj2 (Z.eqb_neq _ _) Hw), (proj2 (Z.eqb_neq _ _) Ha). destruct (new q); by destruct (is_node o).
Qed.

Lemma field_i32s ns rest k n : ns !! k = Some n -> 0 <= n < 2 ^ 31 ->
  field (concat (i32_bytes <$> ns) ++ rest) (4 * Z.of_nat k) 4 = n.
Proof.
  revert k. induction ns as [|x ns IH]; intros k Hk Hn; [done|]. cbn [fmap list_fmap concat]. rewrite <- app_assoc.
  assert (length (i32_bytes x) = 4%nat) as Hl by apply length_le_bytes. unfold field, slice in *. destruct k as [|k].
  - injection Hk as ->. cbn [Z.of_nat Z.mul Z.to_nat]. rewrite drop_0, take_app_length' by (rewrite Hl; done).
    unfold i32_bytes. rewrite Z.mod_small by lia. apply le_value_bytes. change (256 ^ Z.of_nat 4) with (2 ^ 32). lia.
  - rewrite drop_app_ge by lia. rewrite <- (IH k Hk Hn). do 3 f_equal. lia.
Qed.

Lemma paths_length n l ws ns o : (ws, ns, o) ∈ paths n l -> (length ns <= n)%nat.
Proof.
  revert l ws ns o. induction n as [|n IH]; intros l ws ns o; cbn [paths]; [by intros ?%elem_of_nil|].
  intros (o' & H & Ho)%list_elem_of_bind. apply elem_of_cons in H as [?|H]; [simplify_eq; cbn; lia|].
  destruct (arg1 o') as [[l'| |]|], (handler o'); try by apply elem_of_nil in H.
  destruct (is_node o'); [|by apply elem_of_nil in H].
  apply list_elem_of_fmap in H as ([[ws' ns'] o''] & ? & H). simplify_eq/=. apply IH in H. lia.
Qed.

Lemma fill_fits b data : len data <= len b -> fill b data = data ++ drop (length data) b.
Proof. unfold fill, len. intros. by rewrite take_ge by lia. Qed.

(** C39: The names of parameters and their numbers agree.  For every parameter
    of the tree, the call that translates a name, given the names on the way
    to it with dots between, with or without a zero after them, writes the
    numbers on the way to it into the buffer, as integers of 32 bits, and
    reports their size; and the search by number finds that parameter for
    them. *)
Theorem sysctl_name_roundtrip c q ws ns o k b :
  (ws, ns, o) ∈ paths CTL_MAXNAME CHILDREN -> fresh q -> (k <= 1)%nat ->
  new q = Some (join_on DOT ws ++ replicate k 0) -> old q = Some b -> 4 * len ns <= len b ->
  exists q' b', exec c CHILDREN [0; 3] q = (q', Ok tt) /\ old q' = Some b' /\ oldidx q' = 4 * len ns /\
    (forall i n, ns !! i = Some n -> field b' (4 * Z.of_nat i) 4 = n) /\
    drop (4 * length ns) b' = drop (4 * length ns) b /\
    find_oid 0 ns CHILDREN = Ok (o, []).
Proof.
  intros Hp (Hw & Hi & Hr) Hk Hnew Hold Hb. pose proof (paths_length _ _ _ _ _ Hp) as Hlen. change CTL_MAXNAME with 24%nat in Hp, Hlen.
  pose proof (proj1 (List.Forall_forall _ _) CHILDREN_clean _ (proj1 (list_elem_of_In _ _) Hp)) as Hc.
  pose proof (paths_leads _ _ _ _ _ Hp) as Hl. set (data := concat (i32_bytes <$> ns)).
  assert (len data = 4 * len ns) as Hd by (unfold data, len; rewrite length_i32s; lia).
  assert (length data = (4 * length ns)%nat) as Hd' by apply length_i32s.
  exists (set_old (Some (fill b data)) (4 * len ns) (set_newidx (len (join_on DOT ws ++ replicate k 0)) q)), (fill b data).
  split_and!; [|done|done| | |by apply (find_oid_complete 0 ws ns _ o Hl CHILDREN_typed)].
  - rewrite (exec_run c CHILDREN [0; 3] q (SYSCTL_CHILDREN !!! 0%nat) [] sysctl_name2oid) by (try done; by right).
    cbn [run]. rewrite (name2oid_found CHILDREN q ws ns o k CHILDREN_typed Hl Hlen Hc Hi Hnew Hk). fold data.
    rewrite write_spec by (try done; unfold len in *; lia). unfold fits. cbn [old set_newidx]. rewrite Hold.
    rewrite (proj2 (Z.leb_le _ _)) by lia. by rewrite Hd.
  - intros i n Hin. rewrite fill_fits by lia. apply field_i32s; [done|].
    unfold clean in Hc. cbn [fst snd] in Hc. apply andb_prop in Hc as [[_ Hc]%andb_prop _]. rewrite forallb_forall in Hc.
    specialize (Hc n (proj1 (list_elem_of_In _ _) (list_elem_of_lookup_2 _ _ _ Hin))). cbn beta in Hc. bool_to_prop. lia.
  - rewrite fill_fits by lia. rewrite <- Hd'. apply drop_app_length.
Qed.

Definition demo_req : Req :=
  MkReq 0x1000 (Some (replicate 16 7)) 0 (Some (bytes_of "kern.smp.cpus")) 0 16 0 Arnd.state_new.
Definition demo_path : list str := [bytes_of "kern"; bytes_of "smp"; bytes_of "cpus"].

Lemma sysctl_name_roundtrip_witness :
  exists q' b', exec demo_ctx CHILDREN [0; 3] demo_req = (q', Ok tt) /\ old q' = Some b' /\ oldidx q' = 4 * len [1; 0x485; 0x48A] /\
    (forall i n, [1; 0x485; 0x48A] !! i = Some n -> field b' (4 * Z.of_nat i) 4 = n) /\
    drop (4 * length [1; 0x485; 0x48A]) b' = drop (4 * length [1; 0x485; 0x48A]) (replicate 16 7) /\
    find_oid 0 [1; 0x485; 0x48A] CHILDREN = Ok (KERN_SMP_CHILDREN !!! 0%nat, []).
Proof.
  eapply (sysctl_name_roundtrip demo_ctx demo_req demo_path [1; 0x485; 0x48A] (KERN_SMP_CHILDREN !!! 0%nat) 0 (replicate 16 7)).
  - apply (list_elem_of_lookup_2 _ 16). vm_compute. reflexivity.
  - split; [split; [done|split; [done|]]|].
    + intros b Hb. by injection Hb as <-.
    + split; [done|apply ArndProps.state_new_ok].
  - lia.
  - reflexivity.
  - reflexivity.
  - vm_compute. discriminate.
Defined.

(** ** Reading a parameter *)

(** The value of the parameters whose value is not made for the request. *)
Definition value (c : Ctx) (o : Oid) : option (list Z) :=
  match handler o with
  | Some kern_proc_sanitizer => Some (le_bytes 4 0)
  | Some kern_proc_ptc => Some (le_bytes 8 (ptc c))
  | Some kern_usrstack => Some (le_bytes 8 (stack_end c))
  | Some machdep_tsc_freq => if tsc_freq c =? 0 then None else Some (le_bytes 8 (tsc_freq c))
  | Some handle_int => Some (i32_bytes (if arg1 o is Some (AI32 v) then v else to_signed 32 (arg2 o mod 2 ^ 32)))
  | _ => None
  end.

(** The answer to a request: as much of the data as there is room for. *)
Definition answer (q : Req) (data : list Z) (a : Req * outcome SysErr unit) : Prop :=
  old a.1 = (fun b => fill b data) <$> old q /\ oldidx a.1 = len data /\ validlen a.1 = validlen q /\ new a.1 = new q /\
  a.2 = if fits q data then Ok tt else Err (Raw ENOMEM).

Lemma write_answer q data : writable q -> len data < 2 ^ 64 -> answer q data (write data q).
Proof. intros. rewrite write_spec by done. by split_and!. Qed.

Lemma answer_no_new q data (m : io Req SysErr unit) :
  new q = None -> answer q data (m q) -> answer q data ((m ;; no_new) q).
Proof.
  intros Hq (Ho & Hi & Hv & Hn & Hr). unfold mbind, io_bind. destruct (m q) as [q' r]. cbn [fst snd] in *. subst r.
  unfold answer. destruct (fits q data) eqn:Ef; cbn [fst snd no_new asks]; [|by split_and!].
  unfold panic_if. rewrite Hn, Hq. by split_and!.
Qed.

Lemma run_value c l h o rest q data : handler o = Some h -> typed o = true -> value c o = Some data ->
  writable q -> new q = None ->
  answer q data (run c l h (if is_node o then AName rest else AStatic (arg1 o)) (if is_node o then len rest else arg2 o) q).
Proof.
  intros Hh Ht Hv Hw Hn. unfold value in Hv. pose proof (typed_arg_ok o rest h Ht Hh) as Ha. rewrite Hh in Hv.
  destruct h; simplify_eq; cbn [run].
  - by apply write_answer.
  - unfold proc_ptc, mbind, io_bind. rewrite write_spec by done. unfold modify, answer.
    destruct (fits q _); cbn [fst snd]; by split_and!.
  - by apply write_answer.
  - unfold tsc. destruct (tsc_freq c =? 0); [done|]. simplify_eq. apply answer_no_new; [done|].
    change (handle_64_ _ q) with ((write (le_bytes 8 (tsc_freq c)) ;; no_new) q). apply answer_no_new; [done|]. by apply write_answer.
  - apply typed_arg in Ht. unfold arg_typed in Ht. rewrite Hh in Ht. assert (is_node o = false) as ->.
    { destruct (arg1 o) as [[]|]; try done; by apply negb_true_iff in Ht. }
    set (v := if arg1 o is Some (AI32 v) then v else _).
    assert (handle_int_ (AStatic (arg1 o)) (arg2 o) q = (write (i32_bytes v) ;; no_new) q) as ->.
    { unfold v. by destruct (arg1 o) as [[]|]. }
    apply answer_no_new; [done|]. by apply write_answer.
Qed.

Lemma leads_typed l ws ns o : leads l ws ns o -> typed_tree l -> typed o = true.
Proof.
  induction 1 as [l o Ho|l o l' ws ns o' Ho En Eh E1 H IH]; intros Hl; [by eapply typed_in|].
  apply IH. by eapply typed_children; [eapply typed_in|].
Qed.

Lemma value_short c o data : value c o = Some data -> (length data <= 8)%nat.
Proof.
  unfold value. intros H. repeat case_match; simplify_eq; unfold i32_bytes; rewrite length_le_bytes; lia.
Qed.

(** Reading a parameter.  For every enabled parameter with a value that is
    not made for the request, a call with its numbers and no new value
    succeeds.  Without a buffer it reports the size of the value; a buffer is
    filled with the value as far as it goes, the rest of it is kept, and the
    size of the part that was written is reported.  That a value did not fit is
    not an error: a call with a buffer that is too short succeeds. *)
Theorem sysctl_read c mem f oldp oldlenp uptc rng ws ns o data :
  (ws, ns, o) ∈ paths CTL_MAXNAME CHILDREN -> f <$> seqZ 0 (len ns) = ns -> 2 <= len ns ->
  ~ (f 0 = CTL_VM /\ f 1 = VM_PS4DEV) -> enabled o = true -> value c o = Some data ->
  0 <= default 0 oldlenp < 2 ^ 64 -> ArndProps.state_ok rng ->
  exists q, sys_sysctl c mem (Some f) (len ns) oldp oldlenp None uptc rng
    = (q, Ok ((fun n => if oldp =? 0 then len data else Z.min n (len data)) <$> oldlenp)) /\
    old q = if oldp =? 0 then None else Some (fill (mem <$> seqZ oldp (default 0 oldlenp)) data).
Proof.
  intros Hp Hf Hlen Hps He Hv Hn Hr. pose proof (fresh_request mem oldp oldlenp None uptc rng Hn Hr) as [Hw _].
  pose proof (paths_length _ _ _ _ _ Hp) as Hlen'. change CTL_MAXNAME with 24%nat in Hp, Hlen'.
  pose proof (proj1 (List.Forall_forall _ _) CHILDREN_clean _ (proj1 (list_elem_of_In _ _) Hp)) as Hc. cbn beta in Hc.
  pose proof (paths_leads _ _ _ _ _ Hp) as Hl. pose proof (value_short c o data Hv) as Hs.
  assert (exists h, handler o = Some h) as [h Hh] by (unfold value in Hv; destruct (handler o); [eauto|done]).
  assert (f 0 <> CTL_DEBUG) as Hdbg.
  { unfold clean in Hc. cbn [fst snd] in Hc. apply andb_prop in Hc as [_ Hc]. apply negb_true_iff, Z.eqb_neq in Hc.
    unfold numbers in Hc. rewrite <- Hf, list_lookup_fmap, lookup_seqZ_lt in Hc by (cbn; lia). done. }
  unfold sys_sysctl. cbv zeta. set (rq := MkReq _ _ _ _ _ _ _ _) in *. unfold mbind, io_bind, lift, VmSpace.arg_u32.
  assert (len ns <= 24) by (unfold len; lia). rewrite (proj2 (Z.ltb_lt _ _)) by lia. unfold fail_if, panic_if.
  rewrite (proj2 (Z.ltb_ge _ _)), (proj2 (Z.ltb_ge 24 _)) by lia. cbn [orb ok_or].
  rewrite (proj2 (Z.eqb_neq _ _) Hdbg). cbn [andb].
  replace ((f 0 =? CTL_VM) && (f 1 =? VM_PS4DEV)) with false.
  2: { symmetry. apply andb_false_iff. destruct (Z.eqb_spec (f 0) CTL_VM), (Z.eqb_spec (f 1) VM_PS4DEV); naive_solver. }
  unfold respond. rewrite Hf.
  rewrite (exec_run c CHILDREN ns rq o [] h (find_oid_complete 0 ws ns _ o Hl CHILDREN_typed Hlen') He Hh (or_introl eq_refl)).
  pose proof (run_value c CHILDREN h o [] rq data Hh (leads_typed _ _ _ _ Hl CHILDREN_typed) Hv Hw eq_refl) as Ha.
  destruct (run _ _ _ _ _ _) as [q r]. destruct Ha as (Ho & Hi & Hvl & _ & Hres). cbn [fst snd] in *. subst r.
  exists q. split.
  - transitivity (q, Ok (if oldlenp is Some _ then
                           Some (if negb (is_some (old q)) || (oldidx q <=? validlen q) then oldidx q else validlen q)
                         else None) : outcome SysErr (option Z)); [by destruct (fits rq data)|].
    f_equal. f_equal. rewrite Ho, Hi, Hvl. destruct oldlenp as [n|]; [|done]. unfold rq. cbn. f_equal.
    destruct (oldp =? 0); [done|]. cbn. destruct (Z.leb_spec (len data) n); lia.
  - rewrite Ho. unfold rq. cbn [old]. by destruct (oldp =? 0).
Qed.

(** The first two bytes of the number of processors. *)
Lemma sysctl_read_witness :
  exists q, sys_sysctl demo_ctx (fun _ => 7) (Some (numbers [1; 0x485; 0x48A])) 3 0x1000 (Some 2) None 0 Arnd.state_new = (q, Ok (Some 2)) /\
    old q = Some [8; 0].
Proof.
  destruct (sysctl_read demo_ctx (fun _ => 7) (numbers [1; 0x485; 0x48A]) 0x1000 (Some 2) 0 Arnd.state_new demo_path [1; 0x485; 0x48A]
              (KERN_SMP_CHILDREN !!! 0%nat) [8; 0; 0; 0]) as (q & Hq & Ho).
  - apply (list_elem_of_lookup_2 _ 16). vm_compute. reflexivity.
  - vm_compute. reflexivity.
  - vm_compute. discriminate.
  - vm_compute. intros [H _]. discriminate.
  - reflexivity.
  - vm_compute. reflexivity.
  - cbn. lia.
  - apply ArndProps.state_new_ok.
  - exists q. split; [exact Hq|exact Ho].
Defined.
End SysctlProps.
