(* ===== verification/Signal.v ===== *)
(** * Signals of the previous kernel

    Models [legacy/src/signal], the sets of signals and [sigprocmask], and
    [legacy/src/process/signal.rs] with [sys_sigaction] of
    [legacy/src/process/mod.rs], the actions of a process.  The number of
    signals is that of [kernel/src/signal]. *)
From S2P Require Import Prelude Env VmSpace.

Module Signal.
Local Open Scope list_scope.
Local Open Scope Z_scope.
Notation SysErr := VmSpace.SysErr.
Notation Raw := VmSpace.Raw.
Notation intersects := VmSpace.intersects.
Definition EINVAL : Z := 22.

(** ** Signals ([signal/mod.rs]) *)

Definition SIG_MAXSIG : Z := 128.
Definition signal_new (raw : Z) : option Z := if (1 <=? raw) && (raw <=? SIG_MAXSIG) then Some raw else None.
Definition SIGKILL : Z := 9.
Definition SIGSTOP : Z := 17.
Definition SIGCHLD : Z := 20.
Definition SIG_IGN : Z := 1.
Definition SIG_DFL : Z := 0.

(** [SignalIter]: the signals from [current] on. *)
Fixpoint signal_iter (fuel : nat) (current : Z) : list Z :=
  match fuel with
  | O => []
  | S fuel => if signal_new current is Some s then s :: signal_iter fuel (current + 1) else []
  end.
Definition signal_iter_len (current : Z) : Z := SIG_MAXSIG - current + 1.

(** ** Sets ([signal/set.rs]) *)

(** Four words of 32 bits; a signal is always in range. *)
Definition SignalSet : Type := list Z.
Definition set_default : SignalSet := replicate 4 0.

Definition idx (s : Z) : Z := s - 1.
Definition word (s : Z) : nat := Z.to_nat (Z.shiftr (idx s) 5).
Definition bit (s : Z) : Z := Z.shiftl 1 (Z.land (idx s) 31).
(** [!v] of [u32]. *)
Definition not32 (v : Z) : Z := Z.lxor v 0xffffffff.

Definition contains (set : SignalSet) (s : Z) : bool := negb (Z.land (default 0 ((set : list Z) !! word s)) (bit s) =? 0).
Definition add (s : Z) (set : SignalSet) : SignalSet := alter (M := list Z) (fun w => Z.lor w (bit s)) (word s) set.
Definition remove (s : Z) (set : SignalSet) : SignalSet := alter (M := list Z) (fun w => Z.land w (not32 (bit s))) (word s) set.
Definition bitand_assign (set rhs : SignalSet) : SignalSet := zip_with Z.land set rhs.
Definition bitor_assign (set rhs : SignalSet) : SignalSet := zip_with Z.lor set rhs.
Definition not_set (set : SignalSet) : SignalSet := not32 <$> (set : list Z).

(** ** The mask of a thread *)

Inductive MaskOp := Block | Unblock | SetMask.
Definition mask_op (a : Z) : outcome SysErr MaskOp :=
  fail_if (2 ^ 32 <=? a) (Raw EINVAL);;
  let raw := to_signed 32 a in
  if raw =? 1 then Ok Block
  else if raw =? 2 then Ok Unblock
  else if raw =? 3 then Ok SetMask
  else Err (Raw EINVAL).

(** The new mask, and the one for [oset]. *)
Definition sys_sigprocmask (a0 : Z) (set : option SignalSet) (mask : SignalSet) : outcome SysErr (SignalSet * SignalSet) :=
  how ← mask_op a0;
  let prev := mask in
  let mask :=
    match set with
    | None => mask
    | Some set =>
        match how with
        | Block => bitor_assign mask (remove SIGSTOP (remove SIGKILL set))
        | Unblock => bitand_assign mask (not_set set)
        | SetMask => remove SIGSTOP (remove SIGKILL set)
        end
    end in
  Ok (mask, prev).

(** ** Actions ([process/signal.rs]) *)

Definition SA_ONSTACK : Z := 0x0001.
Definition SA_RESTART : Z := 0x0002.
Definition SA_RESETHAND : Z := 0x0004.
Definition SA_NOCLDSTOP : Z := 0x0008.
Definition SA_NODEFER : Z := 0x0010.
Definition SA_NOCLDWAIT : Z := 0x0020.
Definition SA_SIGINFO : Z := 0x0040.
Definition PS_NOCLDWAIT : Z := 0x0001.
Definition PS_NOCLDSTOP : Z := 0x0002.
Definition PS_CLDSIGIGN : Z := 0x0004.

Record SignalAct := MkAct { sa_handler : Z; sa_flags : Z; sa_mask : SignalSet }.

Record SignalActs := MkActs {
  a_handler : list Z;
  a_catchmask : list SignalSet;
  a_stack : SignalSet;
  a_interupt : SignalSet;
  a_reset : SignalSet;
  a_nodefer : SignalSet;
  a_modern : SignalSet;
  a_ignore : SignalSet;
  a_catch : SignalSet;
  a_flag : Z
}.
Definition acts_new : SignalActs :=
  MkActs (replicate 128 0) (replicate 128 set_default) set_default set_default set_default set_default set_default
    set_default set_default 0.

Definition handler (a : SignalActs) (s : Z) : Z := default 0 (a_handler a !! Z.to_nat (s - 1)).
Definition catchmask (a : SignalActs) (s : Z) : SignalSet := default set_default (a_catchmask a !! Z.to_nat (s - 1)).

Definition signal_flags (a : SignalActs) (s : Z) : Z :=
  let flags := 0 in
  let flags := if contains (a_stack a) s then Z.lor flags SA_ONSTACK else flags in
  let flags := if contains (a_interupt a) s then Z.lor flags SA_RESTART else flags in
  let flags := if contains (a_reset a) s then Z.lor flags SA_RESETHAND else flags in
  let flags := if contains (a_nodefer a) s then Z.lor flags SA_NODEFER else flags in
  let flags := if contains (a_modern a) s then Z.lor flags SA_SIGINFO else flags in
  if s =? SIGCHLD then
    let flags := if intersects (a_flag a) PS_NOCLDSTOP then Z.lor flags SA_NOCLDSTOP else flags in
    if intersects (a_flag a) PS_NOCLDWAIT then Z.lor flags SA_NOCLDWAIT else flags
  else flags.

(** [flag |= f] and [flag &= !f]. *)
Definition set_bit (on : bool) (f flag : Z) : Z := if on then Z.lor flag f else Z.land flag (not32 f).
Definition chld_flag (pid flags hd flag : Z) : Z :=
  let flag := set_bit (intersects flags SA_NOCLDSTOP) PS_NOCLDSTOP flag in
  let flag := set_bit (negb (negb (intersects flags SA_NOCLDWAIT) || (pid =? 1))) PS_NOCLDWAIT flag in
  set_bit (hd =? SIG_IGN) PS_CLDSIGIGN flag.

(** The actions after the new one was installed for the signal. *)
Definition set_action (pid s : Z) (act : SignalAct) (a : SignalActs) : outcome SysErr SignalActs :=
  fail_if (((s =? SIGKILL) || (s =? SIGSTOP)) && negb (sa_handler act =? 0)) (Raw EINVAL);;
  let mask := remove SIGSTOP (remove SIGKILL (sa_mask act)) in
  let k := Z.to_nat (s - 1) in
  let flags := sa_flags act in
  panic_if (negb (intersects flags SA_SIGINFO)) PTodo;;
  panic_if (intersects flags SA_RESTART) PTodo;;
  panic_if (intersects flags SA_ONSTACK) PTodo;;
  panic_if (intersects flags SA_RESETHAND) PTodo;;
  panic_if (intersects flags SA_NODEFER) PTodo;;
  let hd := sa_handler act in
  let flag := if s =? SIGCHLD then chld_flag pid flags hd (a_flag a) else a_flag a in
  panic_if ((hd =? SIG_IGN) || ((s <? 32) && negb (Z.land (Z.shiftr 0x184c8000 s) 1 =? 0) && (hd =? SIG_DFL))) PTodo;;
  Ok (MkActs (<[k := hd]> (a_handler a)) (<[k := mask]> (a_catchmask a)) (remove s (a_stack a)) (add s (a_interupt a))
        (remove s (a_reset a)) (remove s (a_nodefer a)) (add s (a_modern a)) (remove s (a_ignore a))
        (if hd =? SIG_DFL then remove s (a_catch a) else add s (a_catch a)) flag).

(** [act] is what is at the second argument.  The result has the action for
    [oact], which is written also when the new one is refused. *)
Definition sys_sigaction (pid a0 : Z) (act : option SignalAct) (a : SignalActs)
    : outcome SysErr (SignalAct * outcome SysErr SignalActs) :=
  raw ← VmSpace.arg_i32 a0;
  s ← ok_or (Raw EINVAL) (signal_new raw);
  let old := MkAct (handler a s) (signal_flags a s) (catchmask a s) in
  Ok (old, match act with None => Ok a | Some act => set_action pid s act a end).
End Signal.
