(* ===== verification/SignalProps.v ===== *)
(** * Properties of signals

    The four words of a set of signals are a set; the mask of a thread never
    blocks the signals that cannot be caught; and an action that was installed
    is read back. *)
From S2P Require Import Prelude Env VmSpace Signal.

Module SignalProps.
Import Signal.
Local Open Scope list_scope.
Local Open Scope Z_scope.

Definition sig_ok (s : Z) : Prop := 1 <= s <= SIG_MAXSIG.
Definition word_ok (w : Z) : Prop := 0 <= w < 2 ^ 32.
Definition set_ok (set : SignalSet) : Prop := length set = 4%nat /\ Forall word_ok set.

(** The abstract set. *)
Definition mem (set : SignalSet) (s : Z) : Prop := sig_ok s /\ contains set s = true.

Lemma signal_new_ok raw s : signal_new raw = Some s <-> s = raw /\ sig_ok raw.
Proof. unfold signal_new, sig_ok. case_if; bool_to_prop; naive_solver lia. Qed.

(** ** Words and bits *)

Definition bitpos (s : Z) : Z := (s - 1) mod 32.

Lemma bitpos_range s : 0 <= bitpos s < 32.
Proof. apply Z.mod_pos_bound. lia. Qed.

Lemma bit_pow s : bit s = 2 ^ bitpos s.
Proof.
  unfold bit, idx, bitpos. change 31 with (Z.ones 5). rewrite Z.land_ones by lia. rewrite Z.shiftl_mul_pow2 by (apply Z.mod_pos_bound; lia).
  apply Z.mul_1_l.
Qed.

Lemma word_lt s : sig_ok s -> (word s < 4)%nat /\ Z.of_nat (word s) = (s - 1) / 32.
Proof.
  unfold sig_ok, SIG_MAXSIG, word, idx. intros. rewrite Z.shiftr_div_pow2 by lia. change (2 ^ 5) with 32.
  pose proof (Z.div_lt_upper_bound (s - 1) 32 4 ltac:(lia) ltac:(lia)). pose proof (Z.div_pos (s - 1) 32 ltac:(lia) ltac:(lia)). split; lia.
Qed.

Lemma word_bit_inj s t : sig_ok s -> sig_ok t -> word s = word t -> bitpos s = bitpos t -> s = t.
Proof.
  intros Hs Ht Hw Hb. destruct (word_lt s Hs) as [_ E1], (word_lt t Ht) as [_ E2]. unfold bitpos in Hb.
  pose proof (Z.div_mod (s - 1) 32 ltac:(lia)). pose proof (Z.div_mod (t - 1) 32 ltac:(lia)). lia.
Qed.

Lemma land_pow2 x k : 0 <= k -> Z.land x (2 ^ k) = if Z.testbit x k then 2 ^ k else 0.
Proof.
  intros Hk. apply Z.bits_inj'. intros j Hj. rewrite Z.land_spec. destruct (decide (j = k)) as [->|].
  - rewrite Z.pow2_bits_true, andb_true_r by lia. destruct (Z.testbit x k); [by rewrite Z.pow2_bits_true by lia|by rewrite Z.bits_0].
  - rewrite Z.pow2_bits_false, andb_false_r by lia. destruct (Z.testbit x k); [by rewrite Z.pow2_bits_false by lia|by rewrite Z.bits_0].
Qed.
Lemma intersects_testbit x k : 0 <= k -> negb (Z.land x (2 ^ k) =? 0) = Z.testbit x k.
Proof.
  intros. rewrite land_pow2 by done. pose proof (Z.pow_pos_nonneg 2 k). destruct (Z.testbit x k); [|done].
  by rewrite (proj2 (Z.eqb_neq _ _)) by lia.
Qed.

Lemma contains_testbit set s : contains set s = Z.testbit (default 0 ((set : list Z) !! word s)) (bitpos s).
Proof.
  unfold contains. rewrite bit_pow. apply intersects_testbit, bitpos_range.
Qed.

Lemma not32_testbit v k : 0 <= k < 32 -> Z.testbit (not32 v) k = negb (Z.testbit v k).
Proof. intros. unfold not32. change 0xffffffff with (Z.ones 32). rewrite Z.lxor_spec, Z.ones_spec_low by lia. apply xorb_true_r. Qed.

Lemma word_ok_bits v : word_ok v <-> 0 <= v /\ forall k, 32 <= k -> Z.testbit v k = false.
Proof.
  unfold word_ok. split.
  - intros Hv. split; [lia|]. intros k Hk. destruct (decide (v = 0)) as [->|]; [apply Z.bits_0|].
    apply Z.bits_above_log2; [lia|]. apply Z.log2_lt_pow2; [lia|]. pose proof (Z.pow_le_mono_r 2 32 k). lia.
  - intros [H0 Hb]. assert (v = v mod 2 ^ 32) as ->; [|by apply Z.mod_pos_bound]. apply Z.bits_inj'. intros k Hk.
    destruct (Z.lt_ge_cases k 32); [by rewrite Z.mod_pow2_bits_low|]. rewrite Z.mod_pow2_bits_high by lia. by apply Hb.
Qed.

Lemma lor_ok v w : word_ok v -> word_ok w -> word_ok (Z.lor v w).
Proof.
  rewrite !word_ok_bits. intros [Hv Hbv] [Hw Hbw]. split; [by apply Z.lor_nonneg|]. intros k Hk.
  by rewrite Z.lor_spec, Hbv, Hbw.
Qed.
Lemma land_ok v w : word_ok v -> word_ok (Z.land v w).
Proof.
  rewrite !word_ok_bits. intros [Hv Hbv]. split; [apply Z.land_nonneg; by left|]. intros k Hk. by rewrite Z.land_spec, Hbv.
Qed.
Lemma not32_ok v : word_ok v -> word_ok (not32 v).
Proof.
  rewrite !word_ok_bits. unfold not32. change 0xffffffff with (Z.ones 32). intros [Hv Hbv].
  split; [apply Z.lxor_nonneg; done|]. intros k Hk. by rewrite Z.lxor_spec, Hbv, Z.ones_spec_high by lia.
Qed.
Lemma bit_ok s : word_ok (bit s).
Proof.
  rewrite bit_pow. pose proof (bitpos_range s). unfold word_ok. pose proof (Z.pow_lt_mono_r 2 (bitpos s) 32).
  pose proof (Z.pow_pos_nonneg 2 (bitpos s)). lia.
Qed.

(** ** The operations on sets *)

Lemma Forall_alter_ok (f : Z -> Z) k l : (forall w, word_ok w -> word_ok (f w)) -> Forall word_ok l -> Forall word_ok (alter f k l).
Proof. intros Hf Hl. revert k. induction Hl as [|w l Hw Hl IH]; intros [|k]; cbn; constructor; auto. Qed.
Lemma Forall_zip_ok (f : Z -> Z -> Z) l l' : (forall v w, word_ok v -> word_ok w -> word_ok (f v w)) ->
  Forall word_ok l -> Forall word_ok l' -> Forall word_ok (zip_with f l l').
Proof. intros Hf Hl. revert l'. induction Hl as [|w l Hw Hl IH]; intros [|w' l'] Hl'; cbn; try done. inversion Hl'; subst. constructor; auto. Qed.

(** Sets stay four words of 32 bits. *)
Lemma add_ok s set : set_ok set -> set_ok (add s set).
Proof. intros [Hl Hw]. unfold add. split; [by rewrite length_alter|]. apply Forall_alter_ok; [|done]. intros. apply lor_ok; [done|apply bit_ok]. Qed.
Lemma remove_ok s set : set_ok set -> set_ok (remove s set).
Proof. intros [Hl Hw]. unfold remove. split; [by rewrite length_alter|]. apply Forall_alter_ok; [|done]. intros. by apply land_ok. Qed.
Lemma and_ok a b : set_ok a -> set_ok b -> set_ok (bitand_assign a b).
Proof. intros [Hl Hw] [Hl' Hw']. split; [unfold bitand_assign; rewrite length_zip_with; lia|]. apply Forall_zip_ok; try done. intros. by apply land_ok. Qed.
Lemma or_ok a b : set_ok a -> set_ok b -> set_ok (bitor_assign a b).
Proof. intros [Hl Hw] [Hl' Hw']. split; [unfold bitor_assign; rewrite length_zip_with; lia|]. apply Forall_zip_ok; try done. intros. by apply lor_ok. Qed.
Lemma not_ok a : set_ok a -> set_ok (not_set a).
Proof. intros [Hl Hw]. split; [by unfold not_set; rewrite length_fmap|]. apply Forall_fmap. eapply Forall_impl; [exact Hw|]. cbn. apply not32_ok. Qed.
Lemma default_ok : set_ok set_default.
Proof. split; [done|]. apply Forall_replicate. unfold word_ok. lia. Qed.
#[export] Hint Resolve add_ok remove_ok and_ok or_ok not_ok default_ok : core.

(** The words of a set that has them. *)
Lemma set_word set s : set_ok set -> sig_ok s -> exists w, (set : list Z) !! word s = Some w /\ word_ok w.
Proof.
  intros [Hl Hw] Hs. destruct (lookup_lt_is_Some_2 set (word s)) as [w H]; [rewrite Hl; by apply word_lt|].
  exists w. split; [done|]. by eapply Forall_lookup_1 in Hw.
Qed.

(** The operations are those of sets. *)
Lemma contains_add set s t : set_ok set -> sig_ok s -> sig_ok t -> contains (add s set) t = bool_decide (t = s) || contains set t.
Proof.
  intros Hset Hs Ht. rewrite !contains_testbit. unfold add. destruct (set_word set t Hset Ht) as (w & Hw & _).
  destruct (decide (word s = word t)) as [E|E].
  - rewrite E, list_lookup_alter_eq, Hw. cbn. rewrite Z.lor_spec, bit_pow. pose proof (bitpos_range s). pose proof (bitpos_range t).
    case_bool_decide as Est; [subst; by rewrite Z.pow2_bits_true, orb_true_r by lia|]. rewrite Z.pow2_bits_false, orb_false_r; [done|].
    intros Hb. apply Est. by apply word_bit_inj.
  - rewrite list_lookup_alter_ne by done. case_bool_decide; [by subst|done].
Qed.

Lemma contains_remove set s t : set_ok set -> sig_ok s -> sig_ok t -> contains (remove s set) t = negb (bool_decide (t = s)) && contains set t.
Proof.
  intros Hset Hs Ht. rewrite !contains_testbit. unfold remove. destruct (set_word set t Hset Ht) as (w & Hw & _).
  destruct (decide (word s = word t)) as [E|E].
  - rewrite E, list_lookup_alter_eq, Hw. cbn. pose proof (bitpos_range s). pose proof (bitpos_range t).
    rewrite Z.land_spec, not32_testbit, bit_pow by done.
    case_bool_decide as Est; [subst; by rewrite Z.pow2_bits_true, andb_false_r by lia|]. rewrite Z.pow2_bits_false, andb_true_r; [done|].
    intros Hb. apply Est. by apply word_bit_inj.
  - rewrite list_lookup_alter_ne by done. case_bool_decide; [by subst|done].
Qed.

Lemma contains_or a b s : set_ok a -> set_ok b -> sig_ok s -> contains (bitor_assign a b) s = contains a s || contains b s.
Proof.
  intros Ha Hb Hs. rewrite !contains_testbit. destruct (set_word a s Ha Hs) as (v & Hv & _), (set_word b s Hb Hs) as (w & Hw & _).
  unfold bitor_assign. rewrite lookup_zip_with, Hv, Hw. cbn. apply Z.lor_spec.
Qed.
Lemma contains_and a b s : set_ok a -> set_ok b -> sig_ok s -> contains (bitand_assign a b) s = contains a s && contains b s.
Proof.
  intros Ha Hb Hs. rewrite !contains_testbit. destruct (set_word a s Ha Hs) as (v & Hv & _), (set_word b s Hb Hs) as (w & Hw & _).
  unfold bitand_assign. rewrite lookup_zip_with, Hv, Hw. cbn. apply Z.land_spec.
Qed.
Lemma contains_not a s : set_ok a -> sig_ok s -> contains (not_set a) s = negb (contains a s).
Proof.
  intros Ha Hs. rewrite !contains_testbit. destruct (set_word a s Ha Hs) as (v & Hv & _).
  unfold not_set. rewrite list_lookup_fmap, Hv. cbn. apply not32_testbit, bitpos_range.
Qed.

(** ** The mask *)

(** The signals that cannot be blocked. *)
Definition uncatchable (s : Z) : Prop := s = SIGKILL \/ s = SIGSTOP.

Lemma kill_ok : sig_ok SIGKILL /\ sig_ok SIGSTOP.
Proof. by unfold sig_ok. Qed.

Lemma contains_strip set s : set_ok set -> sig_ok s ->
  contains (remove SIGSTOP (remove SIGKILL set)) s = true <-> contains set s = true /\ ~ uncatchable s.
Proof.
  intros Hset Hs. destruct kill_ok. rewrite !contains_remove by auto. unfold uncatchable.
  rewrite !andb_true_iff, !negb_true_iff, !bool_decide_eq_false. naive_solver.
Qed.

(** What a change of the mask is to do, on sets of signals. *)
Definition mask_spec (how : MaskOp) (set mask : Z -> Prop) (s : Z) : Prop :=
  match how with
  | Block => mask s \/ set s /\ ~ uncatchable s
  | Unblock => mask s /\ ~ set s
  | SetMask => set s /\ ~ uncatchable s
  end.

Lemma mask_op_range a0 how : mask_op a0 = Ok how ->
  a0 < 2 ^ 32 /\ to_signed 32 a0 = match how with Block => 1 | Unblock => 2 | SetMask => 3 end.
Proof.
  unfold mask_op, fail_if. destruct (Z.leb_spec (2 ^ 32) a0); cbn; [done|]. intros Hm.
  repeat (match type of Hm with context [if ?b then _ else _] => destruct b eqn:? end); bool_to_prop; by simplify_eq.
Qed.

Lemma sigprocmask_mem how st mask s : set_ok mask -> set_ok st ->
  let mask' :=
    match how with
    | Block => bitor_assign mask (remove SIGSTOP (remove SIGKILL st))
    | Unblock => bitand_assign mask (not_set st)
    | SetMask => remove SIGSTOP (remove SIGKILL st)
    end in
  set_ok mask' /\ (mem mask' s <-> mask_spec how (mem st) (mem mask) s /\ sig_ok s).
Proof.
  intros Hm Hs. cbv zeta. split; [destruct how; auto|]. unfold mem, mask_spec. destruct how.
  - split; [intros [Hok H]; rewrite contains_or, orb_true_iff, contains_strip in H by auto; naive_solver|].
    intros [H Hok]. split; [done|]. rewrite contains_or, orb_true_iff, contains_strip by auto. naive_solver.
  - split; [intros [Hok H]; rewrite contains_and, andb_true_iff, contains_not, negb_true_iff in H by auto; naive_solver congruence|].
    intros [[[_ H] Hn] Hok]. split; [done|]. rewrite contains_and, andb_true_iff, contains_not, negb_true_iff by auto.
    split; [done|]. apply not_true_iff_false. naive_solver.
  - split; [intros [Hok H]; rewrite contains_strip in H by auto; naive_solver|].
    intros [[[_ H] Hn] Hok]. split; [done|]. by rewrite contains_strip by auto.
Qed.

(** C36: A change of the mask of a thread is the one on sets of signals:
    blocking adds the signals of the given set, unblocking removes them, and
    setting replaces the mask; the signals that cannot be caught are never
    added.  The mask before the change is returned, the words of the mask keep
    their width, without a set nothing changes, and any other operation is
    refused. *)
Theorem sigprocmask_refines a0 set mask :
  set_ok mask -> (forall st, set = Some st -> set_ok st) ->
  (exists how mask', mask_op a0 = Ok how /\ sys_sigprocmask a0 set mask = Ok (mask', mask) /\ set_ok mask' /\
     match set with
     | None => mask' = mask
     | Some st => forall s, mem mask' s <-> mask_spec how (mem st) (mem mask) s /\ sig_ok s
     end)
  \/ mask_op a0 = Err (Raw EINVAL) /\ sys_sigprocmask a0 set mask = Err (Raw EINVAL) /\
     (a0 < 2 ^ 32 -> ~ 1 <= to_signed 32 a0 <= 3).
Proof.
  intros Hm Hs. destruct (mask_op a0) as [how|e|p] eqn:Eo.
  - left. unfold sys_sigprocmask. rewrite Eo. cbn. eexists how, _. split; [done|]. split; [done|].
    destruct set as [st|]; [|by split]. specialize (Hs st eq_refl).
    split; [apply (sigprocmask_mem how st mask 0 Hm Hs)|]. intros s. apply (sigprocmask_mem how st mask s Hm Hs).
  - right. assert (e = Raw EINVAL) as ->.
    { revert Eo. unfold mask_op, fail_if. repeat (case_match; cbn); naive_solver. }
    unfold sys_sigprocmask. rewrite Eo. split_and!; [done..|]. intros Ha Hr. revert Eo. unfold mask_op, fail_if.
    rewrite (proj2 (Z.leb_gt _ _)) by lia. cbn.
    assert (to_signed 32 a0 = 1 \/ to_signed 32 a0 = 2 \/ to_signed 32 a0 = 3) as [->|[->| ->]] by lia; done.
  - exfalso. revert Eo. unfold mask_op, fail_if. repeat (case_match; cbn); naive_solver.
Qed.

Lemma sigprocmask_refines_witness :
  exists mask', sys_sigprocmask 1 (Some [0x18100; 0; 0; 0]) [1; 0; 0; 0] = Ok (mask', [1; 0; 0; 0]) /\ ~ mem mask' SIGKILL.
Proof.
  destruct (sigprocmask_refines 1 (Some [0x18100; 0; 0; 0]) [1; 0; 0; 0]) as [(how & mask' & Ho & He & _ & Hm)|[Ho _]].
  - split; [done|]. repeat (apply Forall_cons; split; [unfold word_ok; lia|]). by apply Forall_nil_2.
  - intros st H. injection H as <-. split; [done|]. repeat (apply Forall_cons; split; [unfold word_ok; lia|]). by apply Forall_nil_2.
  - exists mask'. split; [exact He|]. intros H%Hm. destruct H as [H _]. injection Ho as <-.
    destruct H as [[_ H]|[_ H]]; [discriminate H|]. apply H. by left.
  - discriminate Ho.
Defined.

(** A thread whose mask was empty has never blocked them. *)
Definition masks_none (mask : SignalSet) : Prop := set_ok mask /\ forall s, uncatchable s -> ~ mem mask s.
Inductive mask_step : SignalSet -> SignalSet -> Prop :=
  | mask_step_call a0 set mask mask' prev :
      (forall st, set = Some st -> set_ok st) -> sys_sigprocmask a0 set mask = Ok (mask', prev) -> mask_step mask mask'.

Lemma mask_step_none mask mask' : mask_step mask mask' -> masks_none mask -> masks_none mask'.
Proof.
  destruct 1 as [a0 set mask mask' prev Hset H]. intros [Hm Hn]. unfold sys_sigprocmask in H. apply bind_Ok in H as (how & _ & H).
  destruct set as [st|]; simplify_eq/=; [|done]. specialize (Hset st eq_refl).
  split; [apply (sigprocmask_mem how st prev 0 Hm Hset)|]. intros s Hu [Hs _]%(sigprocmask_mem how st prev s Hm Hset).
  destruct how; cbn in Hs; naive_solver.
Qed.

Theorem never_masked mask : rtc mask_step set_default mask -> masks_none mask.
Proof.
  intros H. assert (masks_none set_default) as H0.
  { split; [apply default_ok|]. intros s Hu [_ Hc]. by destruct Hu as [-> | ->]. }
  induction H as [|m1 m2 m3 Hstep _ IH]; [done|]. apply IH. by eapply mask_step_none.
Qed.

(** ** Actions *)

Lemma set_bit_testbit on k flag j : 0 <= k < 32 -> 0 <= j < 32 ->
  Z.testbit (set_bit on (2 ^ k) flag) j = if decide (j = k) then on else Z.testbit flag j.
Proof.
  intros Hk Hj. unfold set_bit. destruct on.
  - rewrite Z.lor_spec. case_decide; [subst; by rewrite Z.pow2_bits_true, orb_true_r by lia|].
    by rewrite Z.pow2_bits_false, orb_false_r by lia.
  - rewrite Z.land_spec, not32_testbit by done. case_decide; [subst; by rewrite Z.pow2_bits_true, andb_false_r by lia|].
    by rewrite Z.pow2_bits_false, andb_true_r by lia.
Qed.

(** The flags of children are those of the action. *)
Lemma chld_flag_bits pid flags hd flag :
  Z.testbit (chld_flag pid flags hd flag) 1 = Z.testbit flags 3 /\
  Z.testbit (chld_flag pid flags hd flag) 0 = Z.testbit flags 5 && negb (pid =? 1).
Proof.
  unfold chld_flag, intersects. change PS_NOCLDSTOP with (2 ^ 1). change PS_NOCLDWAIT with (2 ^ 0). change PS_CLDSIGIGN with (2 ^ 2).
  change SA_NOCLDSTOP with (2 ^ 3). change SA_NOCLDWAIT with (2 ^ 5). rewrite !intersects_testbit by lia.
  rewrite !set_bit_testbit by lia. cbn [decide]. rewrite negb_orb, negb_involutive. done.
Qed.

(** The invariant of the actions of a process. *)
Record acts_ok (a : SignalActs) : Prop := ActsOk {
  ok_handler : length (a_handler a) = 128%nat;
  ok_catchmask : length (a_catchmask a) = 128%nat;
  ok_masks : Forall set_ok (a_catchmask a);
  ok_sets : Forall set_ok [a_stack a; a_interupt a; a_reset a; a_nodefer a; a_modern a; a_ignore a; a_catch a];
  ok_strip : forall s t, sig_ok s -> uncatchable t -> ~ mem (catchmask a s) t;
  ok_default : forall s, uncatchable s -> handler a s = SIG_DFL;
  ok_catch : forall s, sig_ok s -> mem (a_catch a) s <-> handler a s <> SIG_DFL
}.

Lemma acts_new_ok : acts_ok acts_new.
Proof.
  split; try done.
  - apply Forall_replicate, default_ok.
  - repeat (apply Forall_cons; split; [apply default_ok|]). by apply Forall_nil_2.
  - intros s t Hs Ht [_ H]. assert (catchmask acts_new s = set_default) as E.
    { unfold catchmask, acts_new. cbn [a_catchmask]. destruct (replicate 128 set_default !! _) as [x|] eqn:E; [|done].
      by apply lookup_replicate in E as [-> _]. }
    rewrite E in H. by destruct Ht as [-> | ->].
  - by intros s [-> | ->].
  - intros s Hs. assert (handler acts_new s = 0) as ->.
    { unfold handler, acts_new. cbn [a_handler]. destruct (replicate 128 0 !! _) as [x|] eqn:E; [|done].
      by apply lookup_replicate in E as [-> _]. }
    split; [|done]. intros [_ H]. rewrite contains_testbit in H. cbn [acts_new a_catch] in H.
    assert (default 0 ((set_default : list Z) !! word s) = 0) as E; [|by rewrite E, Z.bits_0 in H].
    destruct ((set_default : list Z) !! word s) as [x|] eqn:E; [|done]. by apply lookup_replicate in E as [-> _].
Qed.

Definition act_ok (act : SignalAct) : Prop := set_ok (sa_mask act).

(** What an installed action went through. *)
Lemma set_action_Ok pid s act a a' : set_action pid s act a = Ok a' ->
  (uncatchable s -> sa_handler act = SIG_DFL) /\ Z.testbit (sa_flags act) 6 = true /\ Z.testbit (sa_flags act) 1 = false /\
  a_handler a' = <[Z.to_nat (s - 1) := sa_handler act]> (a_handler a) /\
  a_catchmask a' = <[Z.to_nat (s - 1) := remove SIGSTOP (remove SIGKILL (sa_mask act))]> (a_catchmask a) /\
  a_stack a' = remove s (a_stack a) /\ a_interupt a' = add s (a_interupt a) /\ a_reset a' = remove s (a_reset a) /\
  a_nodefer a' = remove s (a_nodefer a) /\ a_modern a' = add s (a_modern a) /\ a_ignore a' = remove s (a_ignore a) /\
  a_catch a' = (if sa_handler act =? SIG_DFL then remove s (a_catch a) else add s (a_catch a)) /\
  a_flag a' = if s =? SIGCHLD then chld_flag pid (sa_flags act) (sa_handler act) (a_flag a) else a_flag a.
Proof.
  unfold set_action, intersects. change SA_SIGINFO with (2 ^ 6). change SA_RESTART with (2 ^ 1). rewrite !intersects_testbit by lia.
  intros H. apply bind_Ok in H as ([] & Hk%fail_if_Ok & H). cbv zeta in H.
  apply bind_Ok in H as ([] & Hi & H). apply bind_Ok in H as ([] & Hr & H). do 4 apply bind_Ok in H as ([] & _ & H).
  unfold panic_if in Hi, Hr. destruct (Z.testbit (sa_flags act) 6); [|done]. destruct (Z.testbit (sa_flags act) 1); [done|].
  injection H as <-. cbn. split_and!; try done. intros Hu. destruct (Z.eqb_spec (sa_handler act) 0) as [|Hne]; [done|].
  apply andb_false_iff in Hk as [Hk|Hk]; [|done]. apply orb_false_iff in Hk as [H1%Z.eqb_neq H2%Z.eqb_neq].
  by destruct Hu as [-> | ->].
Qed.

Section installed.
Context (pid s : Z) (act : SignalAct) (a a' : SignalActs).
Hypothesis Ha : acts_ok a.
Hypothesis Hact : act_ok act.
Hypothesis Hs : sig_ok s.
Hypothesis Hok : set_action pid s act a = Ok a'.

Lemma slot_lt t : sig_ok t -> (Z.to_nat (t - 1) < 128)%nat.
Proof. unfold sig_ok, SIG_MAXSIG. lia. Qed.

Lemma handler_after t : sig_ok t -> handler a' t = if decide (t = s) then sa_handler act else handler a t.
Proof.
  intros Ht. destruct (set_action_Ok _ _ _ _ _ Hok) as (_ & _ & _ & E & _). unfold handler. rewrite E. case_decide as Et.
  - subst t. rewrite list_lookup_insert_eq; [done|]. rewrite (ok_handler a Ha). by apply slot_lt.
  - rewrite list_lookup_insert_ne; [done|]. unfold sig_ok in *. lia.
Qed.

Lemma catchmask_after t : sig_ok t ->
  catchmask a' t = if decide (t = s) then remove SIGSTOP (remove SIGKILL (sa_mask act)) else catchmask a t.
Proof.
  intros Ht. destruct (set_action_Ok _ _ _ _ _ Hok) as (_ & _ & _ & _ & E & _). unfold catchmask. rewrite E. case_decide as Et.
  - subst t. rewrite list_lookup_insert_eq; [done|]. rewrite (ok_catchmask a Ha). by apply slot_lt.
  - rewrite list_lookup_insert_ne; [done|]. unfold sig_ok in *. lia.
Qed.

Lemma sets_after : Forall set_ok [a_stack a'; a_interupt a'; a_reset a'; a_nodefer a'; a_modern a'; a_ignore a'; a_catch a'].
Proof.
  destruct (set_action_Ok _ _ _ _ _ Hok) as (_ & _ & _ & _ & _ & E1 & E2 & E3 & E4 & E5 & E6 & E7 & _).
  pose proof (ok_sets a Ha) as H. rewrite !Forall_cons in H. rewrite E1, E2, E3, E4, E5, E6, E7, !Forall_cons.
  destruct (sa_handler act =? SIG_DFL); naive_solver.
Qed.

Lemma set_action_acts_ok : acts_ok a'.
Proof.
  pose proof sets_after as Hsets. pose proof (ok_sets a Ha) as H. rewrite !Forall_cons in H. destruct kill_ok as [Hkill Hstop].
  destruct (set_action_Ok _ _ _ _ _ Hok) as (Hu & _ & _ & E1 & E2 & _ & _ & _ & _ & _ & _ & E3 & _).
  split; [rewrite E1, length_insert; apply Ha|rewrite E2, length_insert; apply Ha| |done| | |].
  - rewrite E2. apply Forall_insert; [apply Ha|]. by apply remove_ok, remove_ok.
  - intros t t' Ht Hu' [Ht' Hm]. rewrite catchmask_after in Hm by done. case_decide.
    + apply contains_strip in Hm; [naive_solver|done|done].
    + by eapply (ok_strip a Ha t t').
  - intros t Ht. rewrite handler_after by (destruct Ht as [-> | ->]; done). case_decide; [subst; by apply Hu|by apply (ok_default a Ha)].
  - intros t Ht. rewrite handler_after by done. unfold mem. rewrite E3. pose proof (ok_catch a Ha t Ht) as Hc. unfold mem in Hc.
    destruct (Z.eqb_spec (sa_handler act) SIG_DFL) as [Ed|Ed].
    + rewrite contains_remove by naive_solver. case_bool_decide; case_decide; try done. naive_solver.
    + rewrite contains_add by naive_solver. case_bool_decide; case_decide; try done; naive_solver.
Qed.

Lemma flags_after_other t : sig_ok t -> t <> s -> signal_flags a' t = signal_flags a t.
Proof.
  intros Ht Hne. pose proof (ok_sets a Ha) as H. rewrite !Forall_cons in H. destruct H as (? & ? & ? & ? & ? & _).
  destruct (set_action_Ok _ _ _ _ _ Hok) as (_ & _ & _ & _ & _ & E1 & E2 & E3 & E4 & E5 & _ & _ & Ef).
  unfold signal_flags. rewrite E1, E2, E3, E4, E5, !contains_remove, !contains_add, bool_decide_false by done. cbn [negb andb orb].
  destruct (Z.eqb_spec t SIGCHLD) as [Et|]; [|done]. rewrite Ef, (proj2 (Z.eqb_neq s SIGCHLD)) by congruence. done.
Qed.

Lemma flags_after : pid <> 1 ->
  signal_flags a' s = Z.lor SA_RESTART (Z.land (sa_flags act) (if s =? SIGCHLD then 0x68 else 0x40)).
Proof.
  intros Hp. pose proof (ok_sets a Ha) as H. rewrite !Forall_cons in H. destruct H as (? & ? & ? & ? & ? & _).
  destruct (set_action_Ok _ _ _ _ _ Hok) as (_ & H6 & _ & _ & _ & E1 & E2 & E3 & E4 & E5 & _ & _ & Ef).
  unfold signal_flags, intersects. rewrite E1, E2, E3, E4, E5, Ef, !contains_remove, !contains_add, bool_decide_true by done.
  cbn [negb andb orb]. destruct (s =? SIGCHLD).
  - destruct (chld_flag_bits pid (sa_flags act) (sa_handler act) (a_flag a)) as [B1 B0].
    change PS_NOCLDSTOP with (2 ^ 1). change PS_NOCLDWAIT with (2 ^ 0). rewrite !intersects_testbit, B1, B0 by lia.
    rewrite (proj2 (Z.eqb_neq pid 1)) by done. change 0x68 with (Z.lor (Z.lor (2 ^ 3) (2 ^ 5)) (2 ^ 6)).
    rewrite !Z.land_lor_distr_r, !land_pow2, H6 by lia. by destruct (Z.testbit (sa_flags act) 3), (Z.testbit (sa_flags act) 5).
  - change 0x40 with (2 ^ 6). rewrite land_pow2, H6 by lia. done.
Qed.
End installed.

(** Installing the action of a signal.  When [sigaction] succeeds, the
    action before is returned and the new one is read back: its handler, its
    mask without the signals that cannot be caught, and its flags, but always
    with [SA_RESTART], which cannot be asked for; the actions of all other
    signals are as before.  The invariant is kept: [SIGKILL] and [SIGSTOP] have
    the default action and are in no mask, and the signals that are caught are
    those with a handler. *)
Theorem sigaction_readback pid a0 act a old a' :
  acts_ok a -> act_ok act -> pid <> 1 -> sys_sigaction pid a0 (Some act) a = Ok (old, Ok a') ->
  exists s, VmSpace.arg_i32 a0 = (Ok s : outcome SysErr Z) /\ sig_ok s /\ acts_ok a' /\
    old = MkAct (handler a s) (signal_flags a s) (catchmask a s) /\
    handler a' s = sa_handler act /\
    (forall t, mem (catchmask a' s) t <-> mem (sa_mask act) t /\ ~ uncatchable t) /\
    signal_flags a' s = Z.lor SA_RESTART (Z.land (sa_flags act) (if s =? SIGCHLD then 0x68 else 0x40)) /\
    (forall t, sig_ok t -> t <> s ->
       handler a' t = handler a t /\ catchmask a' t = catchmask a t /\ signal_flags a' t = signal_flags a t).
Proof.
  intros Ha Hact Hp H. unfold sys_sigaction in H. apply bind_Ok in H as (raw & Hraw & H). apply bind_Ok in H as (s & Hs & H).
  destruct (signal_new raw) as [s'|] eqn:En; [|done]. injection Hs as ->. apply signal_new_ok in En as [-> Hs].
  injection H as <- Hset. exists raw. split_and!; try done.
  - by eapply set_action_acts_ok.
  - erewrite handler_after by done. by rewrite decide_True.
  - intros t. erewrite catchmask_after by done. rewrite decide_True by done. unfold mem. split.
    + intros [Ht Hm]. apply contains_strip in Hm; naive_solver.
    + intros [[Ht Hm] Hu]. split; [done|]. by apply contains_strip.
  - by eapply flags_after.
  - intros t Ht Hne. rewrite (handler_after pid raw act a a' Ha Hs Hset t Ht), (catchmask_after pid raw act a a' Ha Hs Hset t Ht).
    rewrite !decide_False by done. split_and!; [done..|]. by apply (flags_after_other pid raw act a a' Ha Hs Hset).
Qed.

Definition demo_act : SignalAct := MkAct 0x4000 0x40 [0x100; 1; 0; 0].

(** [SA_RESTART] is read back though it was not set. *)
Lemma sigaction_readback_witness :
  exists old a', sys_sigaction 100 11 (Some demo_act) acts_new = Ok (old, Ok a') /\ sa_flags demo_act = 0x40 /\ signal_flags a' 11 = 0x42.
Proof.
  destruct (sys_sigaction 100 11 (Some demo_act) acts_new) as [[old [a'|e|p]]|e|p] eqn:E; try (vm_compute in E; discriminate E).
  exists old, a'. split; [reflexivity|]. split; [reflexivity|].
  destruct (sigaction_readback 100 11 demo_act acts_new old a') as (s & Hs & _ & _ & _ & _ & _ & Hf & _).
  - apply acts_new_ok.
  - split; [reflexivity|]. repeat (apply Forall_cons; split; [unfold word_ok; lia|]). by apply Forall_nil_2.
  - lia.
  - exact E.
  - injection Hs as <-. exact Hf.
Defined.
End SignalProps.
