(* ===== verification/Process.v ===== *)
(** * Processes and threads of the previous kernel

    Models [legacy/src/process]: the manager of processes with the choice of
    process identifiers, processes, threads, groups and sessions, the limits of
    resources, and the system calls except [sigaction], which is in Signal.v.
    A process in the table of the manager is [None] when nothing else refers
    to it any more.  The limits of the host and whether an address space can be
    made are parameters. *)
From S2P Require Import Prelude Env Cred VmSpace Signal.

Module Process.
Import Env Cred.
Local Open Scope list_scope.
Local Open Scope Z_scope.
Notation SysErr := VmSpace.SysErr.
Notation Raw := VmSpace.Raw.
Definition EPERM : Z := 1.
Definition ESRCH : Z := 3.
Definition EINVAL : Z := 22.
Definition ERANGE : Z := 34.
Definition ENAMETOOLONG : Z := 63.

Definition PID_MAX : Z := 99999.
Definition KERNEL : Z := 0.
Definition IDLE : Z := 10.
(** [Pid::new]. *)
Definition pid_new (v : Z) : option Z := if 0 <=? v then Some v else None.

(** ** Limits ([rlimit.rs]) *)

Inductive ResourceType := Cpu | Fsize | Data.
Record ResourceLimit := Limit { cur : Z; max : Z }.
Inductive LoadLimitError := FailedToLoadCpuLimit (e : Z) | FailedToLoadFsizeLimit (e : Z) | FailedToLoadDataLimit (e : Z).
Inductive SpawnError := FailedToLoadLimits (e : LoadLimitError) | VmInitFailed (e : Z).

Section host.
Context (host : ResourceType -> outcome Z ResourceLimit) (vm_new : outcome Z unit).

Definition try_load (ty : ResourceType) : outcome Z ResourceLimit :=
  l ← host ty;
  if ty is Data then
    let m := 5 * (1024 * (1024 * 1024)) in
    Ok (if m <? max l then Limit m m else l)
  else Ok l.
Definition limits_load : outcome LoadLimitError (list ResourceLimit) :=
  c ← map_err FailedToLoadCpuLimit (try_load Cpu);
  f ← map_err FailedToLoadFsizeLimit (try_load Fsize);
  d ← map_err FailedToLoadDataLimit (try_load Data);
  Ok [c; f; d].

(** ** Threads and processes *)

Record Td := MkTd {
  tid : Z;
  t_cred : Ucred;
  t_sigmask : Signal.SignalSet;
  pri_class : Z;
  base_user_pri : Z;
  t_cpus : Z;
  t_name : option str
}.
(** [VThread::new]; the handlers of its events belong to other parts. *)
Definition thread_new (cred : Ucred) (id : Z) : Td := MkTd id cred Signal.set_default 3 700 0 None.

Record Session := MkSession { s_id : Z; s_login : str }.
Record Group := MkGroup { g_id : Z; g_session : Session }.
Record Proc := MkProc {
  p_id : Z;
  p_name : str;
  p_threads : list Td;
  p_cred : Ucred;
  p_group : option Group;
  p_acts : Signal.SignalActs;
  p_path : str;
  p_limits : list ResourceLimit;
  p_ptype : option Z
}.
Definition set_threads (l : list Td) (p : Proc) : Proc :=
  MkProc (p_id p) (p_name p) l (p_cred p) (p_group p) (p_acts p) (p_path p) (p_limits p) (p_ptype p).
Definition set_group (g : option Group) (p : Proc) : Proc :=
  MkProc (p_id p) (p_name p) (p_threads p) (p_cred p) g (p_acts p) (p_path p) (p_limits p) (p_ptype p).
Definition set_pname (n : str) (p : Proc) : Proc :=
  MkProc (p_id p) n (p_threads p) (p_cred p) (p_group p) (p_acts p) (p_path p) (p_limits p) (p_ptype p).
Definition set_tname (n : option str) (t : Td) : Td :=
  MkTd (tid t) (t_cred t) (t_sigmask t) (pri_class t) (base_user_pri t) (t_cpus t) n.

(** [VProc::new]. *)
Definition proc_new (id : Z) (name : str) (cred : Ucred) (ptype : option Z) (path : str) : outcome SpawnError Proc :=
  limits ← map_err FailedToLoadLimits limits_load;
  map_err VmInitFailed vm_new;;
  Ok (MkProc id name [] cred None Signal.acts_new path limits ptype).

(** The drop of [Running], when a thread ends. *)
Definition end_thread (id : Z) (p : Proc) : outcome SysErr Proc :=
  '(i, _) ← unwrap_or_panic PUnwrap (list_find (fun t => tid t = id) (p_threads p));
  Ok (set_threads (delete i (p_threads p)) p).

(** ** The manager *)

Record Mgr := MkMgr {
  procs : gmap Z (option Proc);
  sessions : gset Z;
  groups : gset Z;
  last_pid : Z;
  random_pid : bool;
  next_tid : Z
}.
Definition set_procs (ps : gmap Z (option Proc)) (m : Mgr) : Mgr :=
  MkMgr ps (sessions m) (groups m) (last_pid m) (random_pid m) (next_tid m).
Definition set_last_pid (p : Z) (m : Mgr) : Mgr :=
  MkMgr (procs m) (sessions m) (groups m) p (random_pid m) (next_tid m).
Definition set_next_tid (t : Z) (m : Mgr) : Mgr :=
  MkMgr (procs m) (sessions m) (groups m) (last_pid m) (random_pid m) t.

(** [ProcManager::new], with the threads of the kernel process. *)
Definition mgr_new (kern : Ucred) : outcome SpawnError Mgr :=
  proc0 ← proc_new KERNEL (bytes_of "kernel") kern None [];
  let proc0 := set_threads [thread_new kern (PID_MAX + 1)] proc0 in
  idle ← proc_new IDLE (bytes_of "idle") kern None [];
  Ok (MkMgr (<[IDLE := Some idle]> {[KERNEL := Some proc0]}) ∅ ∅ 0 false (PID_MAX + 2)).

(** The search of [alloc_pid]. *)
Definition pid_used (m : Mgr) (pid : Z) : bool :=
  bool_decide (pid ∈ dom (procs m)) || bool_decide (pid ∈ sessions m) || bool_decide (pid ∈ groups m).
Fixpoint find_pid (fuel : nat) (m : Mgr) (pid : Z) : outcome SpawnError Z :=
  match fuel with
  | O => Panic PTodo
  | S fuel =>
      panic_if (PID_MAX <=? pid) PTodo;;
      if pid_used m pid then find_pid fuel m (pid + 1) else Ok pid
  end.
Definition alloc_pid (high : bool) (m : Mgr) : outcome SpawnError (Z * Mgr) :=
  let pid := last_pid m + 1 in
  panic_if (negb high && random_pid m) PTodo;;
  let pid := if high && (pid <? 10) then 10 else pid in
  pid ← find_pid (Z.to_nat (PID_MAX - pid + 1)) m pid;
  p ← unwrap_or_panic PUnwrap (pid_new pid);
  Ok (p, if high then m else set_last_pid pid m).

(** [NEXT_TID.fetch_add(1)], which wraps, and the [unwrap]. *)
Definition alloc_tid (m : Mgr) : outcome SpawnError (Z * Mgr) :=
  let id := next_tid m in
  panic_if (id =? 0) PUnwrap;;
  Ok (id, set_next_tid (to_signed 32 ((id + 1) mod 2 ^ 32)) m).

Definition spawn_cred (auth : AuthInfo) : outcome SpawnError Ucred :=
  match (if caps_is_system auth then ucred_new 0 0 [0] auth else ucred_new 1 1 [1] auth) with
  | Ok c => Ok c
  | Err _ => Panic PUnwrap
  | Panic p => Panic p
  end.

(** The two parts of [spawn]: the new process with its thread, and its entry
    in the table.  The locks are free in between. *)
Definition spawn_create (auth : AuthInfo) (ptype : Z) (path : str) (high : bool) (m : Mgr) : outcome SpawnError (Proc * Mgr) :=
  cred ← spawn_cred auth;
  '(pid, m) ← alloc_pid high m;
  p ← proc_new pid [] cred (Some ptype) path;
  '(id, m) ← alloc_tid m;
  Ok (set_threads [thread_new cred id] p, m).
Definition spawn_insert (p : Proc) (m : Mgr) : outcome SpawnError Mgr :=
  panic_if (match procs m !! p_id p with Some (Some _) => true | _ => false end) PAssert;;
  Ok (set_procs (<[p_id p := Some p]> (procs m)) m).
Definition spawn (auth : AuthInfo) (ptype : Z) (path : str) (high : bool) (m : Mgr) : outcome SpawnError (Proc * Mgr) :=
  '(p, m) ← spawn_create auth ptype path high m;
  m ← spawn_insert p m;
  Ok (p, m).

(** [spawn_kthread]: a thread of the process [pid], or of the kernel. *)
Definition spawn_kthread (pid : option Z) (m : Mgr) : outcome SpawnError (Td * Mgr) :=
  p ← unwrap_or_panic PUnwrap (mjoin (procs m !! default KERNEL pid));
  '(id, m) ← alloc_tid m;
  let td := thread_new (p_cred p) id in
  Ok (td, set_procs (<[p_id p := Some (set_threads (p_threads p ++ [td]) p)]> (procs m)) m).
End host.

(** ** System calls *)

(** [+] of [u32]. *)
Definition add32 (a b : Z) : outcome SysErr Z := if a + b <? 2 ^ 32 then Ok (a + b) else Panic POverflow.

(** [priv_check] of a thread; the error number of its error. *)
Definition td_priv_check (t : Td) (p : Privilege) : outcome SysErr unit :=
  match priv_check (t_cred t) p with Ok _ => Ok tt | Err NoPrivilege => Err (Raw EPERM) | Panic b => Panic b end.
(** [can_see], whose first check is not implemented. *)
Definition can_see (t : Td) (p : Proc) : outcome SysErr unit := Panic PTodo.
(** [i64] and [i32] of an argument. *)
Definition arg_i64 (v : Z) : Z := to_signed 64 v.
(** The conversions of arguments to the enumerations below: a value that is
    not an [i32], or not one of them, is refused. *)
Definition arg_enum {A} (new : Z -> option A) (v : Z) : outcome SysErr A :=
  ok_or (Raw EINVAL) (if v <? 2 ^ 32 then new (to_signed 32 v) else None).

Definition sys_getpid (p : Proc) : outcome SysErr Z := Ok (p_id p).

Definition sys_setlogin (mem : Z -> Z) (a0 : Z) (t : Td) (p : Proc) : outcome SysErr Proc :=
  td_priv_check t PROC_SETLOGIN;;
  login ← match VmSpace.to_str mem a0 17 with
          | Err e => Err (if VmSpace.errno e =? ENAMETOOLONG then Raw EINVAL else e)
          | r => r
          end;
  login ← unwrap_or_panic PUnwrap login;
  g ← unwrap_or_panic PUnwrap (p_group p);
  Ok (set_group (Some (MkGroup (g_id g) (MkSession (s_id (g_session g)) login))) p).

Definition sys_setsid (t : Td) (p : Proc) : outcome SysErr (Z * Proc) :=
  td_priv_check t SCE680;;
  fail_if (if p_group p is Some _ then true else false) (Raw EPERM);;
  Ok (p_id p, set_group (Some (MkGroup (p_id p) (MkSession (p_id p) (bytes_of "root")))) p).

(** What is written to the first argument. *)
Definition sys_thr_self (t : Td) : outcome SysErr Z := Ok (tid t).

Definition size_ThrParam : Z := 0x68.
Definition sys_thr_new (a1 : Z) : outcome SysErr Z :=
  size ← VmSpace.arg_u32 a1;
  fail_if (size_ThrParam <? size) (Raw EINVAL);;
  Panic PTodo.

Definition sys_thr_set_name (mem : Z -> Z) (a0 a1 : Z) (p : Proc) : outcome SysErr Proc :=
  let id := arg_i64 a0 in
  name ← VmSpace.to_str mem a1 32;
  let name := default [] name in
  if id =? -1 then Ok (set_pname name p)
  else
    '(i, _) ← ok_or (Raw ESRCH) (list_find (fun t => tid t = to_signed 32 (id mod 2 ^ 32)) (p_threads p));
    Ok (set_threads (alter (set_tname (Some name)) i (p_threads p)) p).

Inductive RtpFunction := Lookup | Set_ | Unk.
Definition rtp_function (v : Z) : option RtpFunction :=
  if v =? 0 then Some Lookup else if v =? 1 then Some Set_ else if v =? 2 then Some Unk else None.

(** What is written to the third argument: type and priority. *)
Definition sys_rtprio_thread (a0 a1 : Z) (t : Td) (p : Proc) : outcome SysErr (Z * Z) :=
  function ← arg_enum rtp_function a0;
  lwpid ← VmSpace.arg_i32 a1;
  panic_if (if function is Set_ then true else false) PTodo;;
  panic_if ((if function is Unk then true else false) && is_system (t_cred t)) PTodo;;
  td1 ← (if (lwpid =? 0) || (lwpid =? tid t) then Ok t
         else ok_or (Raw ESRCH) (List.find (fun t => tid t =? lwpid) (p_threads p)));
  if function is Lookup then
    can_see t p;;
    let c := Z.land (pri_class td1) 0xfff7 in
    Ok (pri_class td1, if (2 <=? c) && (c <=? 4) then base_user_pri td1 else 0)
  else Panic PTodo.

Inductive CpuLevel := LRoot | LCpuset | LWhich.
Definition cpu_level (v : Z) : option CpuLevel :=
  if v =? 1 then Some LRoot else if v =? 2 then Some LCpuset else if v =? 3 then Some LWhich else None.
Inductive CpuWhich := WTid | WPid | WCpuset | WIrq | WJail.
Definition cpu_which (v : Z) : option CpuWhich :=
  if v =? 1 then Some WTid else if v =? 2 then Some WPid else if v =? 3 then Some WCpuset
  else if v =? 4 then Some WIrq else if v =? 5 then Some WJail else None.

(** [thread] without a process: the process with the thread, and the thread.
    The order of the table does not matter when identifiers are unique. *)
Definition thread (id : Z) (m : Mgr) : option (Proc * Td) :=
  head (omap (fun e => p ← e.2; t ← List.find (fun t => tid t =? id) (p_threads p); Some (p, t)) (map_to_list (procs m))).

Definition can_sched (p target : Proc) : outcome SysErr unit := if p_id p =? p_id target then Ok tt else Panic PTodo.

Definition cpuset_which (which : CpuWhich) (id : Z) (t : Td) (p : Proc) (m : Mgr) : outcome SysErr (Proc * Td) :=
  r ← match which with
      | WTid =>
          if id =? -1 then Ok (p, t)
          else
            fail_if (negb ((- 2 ^ 31 <=? id) && (id <? 2 ^ 31)) || (id =? 0)) (Raw ESRCH);;
            ok_or (Raw ESRCH) (thread id m)
      | _ => Panic PTodo
      end;
  can_sched p r.1;;
  Ok r.

(** The last lines of [sys_cpuset_getaffinity], on 32 bits. *)
Definition swap_bits (x : Z) : outcome SysErr Z :=
  y ← add32 (Z.land (Z.shiftr x 1) 0x55) (Z.land x 0x55 * 2);
  z ← add32 (Z.land (Z.shiftr y 2) 0xfffffff3) (Z.land y 0x33 * 4);
  Ok (Z.lor (Z.shiftr z 4) (Z.shiftl (Z.land z 0xf) 4)).

(** What is written to the fifth argument. *)
Definition sys_cpuset_getaffinity (a0 a1 a2 size : Z) (t : Td) (p : Proc) (m : Mgr) : outcome SysErr (list Z) :=
  level ← arg_enum cpu_level a0;
  which ← arg_enum cpu_which a1;
  fail_if (8 <? (size - 8) mod 2 ^ 64) (Raw ERANGE);;
  '(_, td) ← cpuset_which which (arg_i64 a2) t p m;
  buf ← match level, which with
        | LWhich, WTid => Ok (overwrite (replicate (Z.to_nat size) 0) 0 (le_bytes 8 (t_cpus td)))
        | _, _ => Panic PTodo
        end;
  v ← swap_bits (field buf 0 4);
  Ok (overwrite buf 0 (le_bytes 8 v)).

Definition sys_cpuset_setaffinity (a0 a1 size : Z) : outcome SysErr Z :=
  arg_enum cpu_level a0;;
  arg_enum cpu_which a1;;
  fail_if (8 <? (size - 8) mod 2 ^ 64) (Raw ERANGE);;
  Panic PTodo.

(** The roots of the process and of the system. *)
Definition sys_is_in_sandbox (root fs_root : Z) : outcome SysErr Z := Ok (if root =? fs_root then 0 else 1).

Definition pid_arg (v : Z) : outcome SysErr Z :=
  v ← VmSpace.arg_i32 v;
  unwrap_or_panic PUnwrap (pid_new v).

(** What a thread may see of the authority of a process. *)
Definition visible_auth (t : Td) (p : Proc) : outcome SysErr AuthInfo :=
  let a := auth (p_cred p) in
  match td_priv_check t SCE686 with
  | Panic b => Panic b
  | Ok _ => Ok a
  | Err _ =>
      let x := wrapping_add (paid a) 0xc7ffffffeffffffc in
      Ok (Auth (if (x <? 0xf) && negb (Z.land (Z.shiftr 0x6001 (Z.land x 0x3f)) 1 =? 0) then paid a else 0)
            (clear_non_type (caps a)) [0; 0; 0; 0] (replicate 0x40 0))
  end.
(** What is written to the second argument. *)
Definition sys_get_authinfo (a0 : Z) (t : Td) (p : Proc) (m : Mgr) : outcome SysErr AuthInfo :=
  id ← pid_arg a0;
  target ← (if negb (id =? 0) then
              q ← ok_or (Raw ESRCH) (mjoin (procs m !! id));
              can_see t q;;
              Ok q
            else Ok p);
  visible_auth t target.

(** The buffer at the second argument and the number at the third, [None] for
    a null pointer; the result is what is written to them. *)
Definition sys_randomized_path (a0 : Z) (get : option (list Z)) (len : option Z) (p : Proc)
    : option (list Z) * option Z * outcome SysErr Z :=
  let path := p_path p in
  let '(n, len') :=
    match get, len with
    | Some _, Some v => (v, Some (Z.of_nat (length path)))
    | _, _ => (0, len)
    end in
  let get' :=
    if (0 <? n) && bool_decide (path <> []) then
      let k := Z.min (n - 1) (Z.of_nat (length path)) in
      (fun b => overwrite b 0 (take (Z.to_nat k) path ++ [0])) <$> get
    else get in
  (get', len', if a0 =? 0 then Ok 0 else Panic PTodo).

(** [ProcTypeInfo]: length, type and flags. *)
Definition sys_get_proc_type_info (nbuf : Z) (p : Proc) : outcome SysErr (Z * Z * Z) :=
  fail_if (negb (nbuf =? 16)) (Raw EINVAL);;
  let c := p_cred p in
  let flag (b : bool) (v : Z) := if b then v else 0 in
  match is_jit_compiler_process c, is_jit_application_process c with
  | Ok j1, Ok j2 =>
      Ok (nbuf, default (-1) (p_ptype p),
          foldr Z.lor 0 [flag j1 0x1; flag j2 0x2; flag (is_videoplayer_process c) 0x4; flag (is_diskplayerui_process c) 0x8;
                         flag (has_use_video_service (auth c)) 0x10; flag (is_webcore_process c) 0x20;
                         flag (has_sce_program_attribute (auth c)) 0x40; flag (is_debuggable_process (auth c)) 0x80])
  | Panic b, _ | _, Panic b => Panic b
  | _, _ => Panic PUnwrap
  end.
End Process.
