(* ===== verification/ProcessProps.v ===== *)
(** * Properties of processes

    Identifiers of processes and threads are unique in every interleaving of
    spawns of programs, and kernel spawns that run at once can fail; what a
    process may see of others; and the results of the system calls. *)
From S2P Require Import Prelude Env Cred VmSpace Signal Process.

Module ProcessProps.
Import Cred Process.
Local Open Scope list_scope.
Local Open Scope Z_scope.

(** ** The choice of an identifier *)

Lemma pid_used_false m pid : pid_used m pid = false <-> pid ∉ dom (procs m) /\ pid ∉ sessions m /\ pid ∉ groups m.
Proof. unfold pid_used. rewrite !orb_false_iff, !bool_decide_eq_false. tauto. Qed.

(** The lowest identifier that is free, or a panic when there is none. *)
Lemma find_pid_spec m fuel pid : PID_MAX - pid < Z.of_nat fuel ->
  match find_pid fuel m pid with
  | Ok q => pid <= q < PID_MAX /\ pid_used m q = false /\ forall r, pid <= r < q -> pid_used m r = true
  | Panic b => b = PTodo /\ forall r, pid <= r < PID_MAX -> pid_used m r = true
  | Err _ => False
  end.
Proof.
  revert pid. induction fuel as [|fuel IH]; intros pid Hf; cbn [find_pid]; [split; [done|]; lia|]. unfold panic_if.
  destruct (Z.leb_spec PID_MAX pid); cbn; [split; [done|]; lia|]. destruct (pid_used m pid) eqn:E; [|split_and!; [lia|lia|done|lia]].
  specialize (IH (pid + 1) ltac:(lia)). destruct (find_pid fuel m (pid + 1)) as [q|e|b]; [|done|].
  - destruct IH as (Hq & Hu & Hr). split_and!; [lia|lia|done|]. intros r Hr'. destruct (decide (r = pid)) as [->|]; [done|]. apply Hr. lia.
  - destruct IH as [-> Hr]. split; [done|]. intros r Hr'. destruct (decide (r = pid)) as [->|]; [done|]. apply Hr. lia.
Qed.

Lemma alloc_pid_Ok high m pid m' : 0 <= last_pid m -> alloc_pid high m = Ok (pid, m') ->
  last_pid m < pid < PID_MAX /\ pid_used m pid = false /\ m' = if high then m else set_last_pid pid m.
Proof.
  intros Hl H. unfold alloc_pid in H. apply bind_Ok in H as ([] & _ & H). cbv zeta in H. apply bind_Ok in H as (q & Hq & H).
  set (start := if high && (last_pid m + 1 <? 10) then 10 else last_pid m + 1) in *.
  assert (last_pid m < start) by (unfold start; destruct (Z.ltb_spec (last_pid m + 1) 10), high; cbn; lia).
  pose proof (find_pid_spec m (Z.to_nat (PID_MAX - start + 1)) start) as Hs.
  assert (PID_MAX - start < Z.of_nat (Z.to_nat (PID_MAX - start + 1)) \/ PID_MAX < start) as [Hf|Hf] by lia.
  - specialize (Hs Hf). rewrite Hq in Hs. destruct Hs as (? & ? & _). apply bind_Ok in H as (r & Hr & H). unfold pid_new in Hr.
    rewrite (proj2 (Z.leb_le 0 q)) in Hr by lia. simplify_eq/=. split_and!; [lia|lia|done|done].
  - replace (Z.to_nat (PID_MAX - start + 1)) with 0%nat in Hq by lia. done.
Qed.

(** ** Interleavings of spawns *)

Section spawns.
Context (host : ResourceType -> outcome Z ResourceLimit) (vm_new : outcome Z unit).

(** Programs are spawned in two steps, so that several spawns can be under way;
    the processes that were made and are not yet in the table are the second
    component.  Spawns of kernel processes are not interleaved here. *)
Inductive step : Mgr * list Proc -> Mgr * list Proc -> Prop :=
  | step_create au ty path m l p m' :
      next_tid m < 2 ^ 31 - 1 -> spawn_create host vm_new au ty path false m = Ok (p, m') -> step (m, l) (m', p :: l)
  | step_insert p m m' l1 l2 : spawn_insert p m = Ok m' -> step (m, l1 ++ p :: l2) (m', l1 ++ l2)
  | step_kernel au ty path m l p m' :
      next_tid m < 2 ^ 31 - 1 -> spawn host vm_new au ty path true m = Ok (p, m') -> step (m, l) (m', l)
  | step_kthread pid m l t m' : next_tid m < 2 ^ 31 - 1 -> spawn_kthread pid m = Ok (t, m') -> step (m, l) (m', l)
  | step_gone pid m l : step (m, l) (set_procs (alter (fun _ => None) pid (procs m)) m, l).

(** A process with its identifier, in the table or on its way to it. *)
Definition lives (s : Mgr * list Proc) (k : Z) (p : Proc) : Prop :=
  procs s.1 !! k = Some (Some p) \/ p ∈ s.2 /\ p_id p = k.
Definition threads_ok (m : Mgr) (p : Proc) : Prop :=
  NoDup (tid <$> p_threads p) /\ Forall (fun t => PID_MAX < tid t < next_tid m) (p_threads p).

Record inv (s : Mgr * list Proc) : Prop := Inv {
  inv_last : 0 <= last_pid s.1;
  inv_tid : PID_MAX < next_tid s.1;
  inv_pending : Forall (fun p => p_id p <= last_pid s.1 /\ p_id p ∉ dom (procs s.1)) s.2;
  inv_distinct : NoDup (p_id <$> s.2);
  inv_id : forall k p, lives s k p -> p_id p = k /\ threads_ok s.1 p;
  inv_threads : forall k k' p p' t t', lives s k p -> lives s k' p' -> t ∈ p_threads p -> t' ∈ p_threads p' -> tid t = tid t' -> k = k'
}.

Lemma alloc_tid_Ok m id m' : PID_MAX < next_tid m -> next_tid m < 2 ^ 31 - 1 -> alloc_tid m = Ok (id, m') ->
  id = next_tid m /\ m' = set_next_tid (next_tid m + 1) m.
Proof.
  intros H0 H1 H. unfold alloc_tid in H. apply bind_Ok in H as ([] & _ & H). injection H as <- <-. split; [done|].
  unfold PID_MAX in *. rewrite Z.mod_small by lia. unfold to_signed. rewrite (proj2 (Z.ltb_lt _ _)) by lia. done.
Qed.

(** A created process has a new identifier and one thread, which is new. *)
Lemma spawn_create_Ok au ty path high m p m' :
  0 <= last_pid m -> PID_MAX < next_tid m -> next_tid m < 2 ^ 31 - 1 ->
  spawn_create host vm_new au ty path high m = Ok (p, m') ->
  last_pid m < p_id p < PID_MAX /\ p_id p ∉ dom (procs m) /\ (tid <$> p_threads p) = [next_tid m] /\
  procs m' = procs m /\ next_tid m' = next_tid m + 1 /\ last_pid m' = if high then last_pid m else p_id p.
Proof.
  intros Hl Ht Hb H. unfold spawn_create in H. apply bind_Ok in H as (c & _ & H). apply bind_Ok in H as ([pid m1] & Hp & H).
  apply alloc_pid_Ok in Hp as (Hr & Hu & ->); [|done]. apply bind_Ok in H as (p0 & Hn & H). apply bind_Ok in H as ([id m2] & Hid & H).
  apply alloc_tid_Ok in Hid as [-> ->]; [|by destruct high..]. injection H as <- <-.
  assert (p_id p0 = pid) as Hpid. { unfold proc_new in Hn. inv_ok. done. }
  apply pid_used_false in Hu as (Hu & _). cbn. rewrite Hpid. destruct high; cbn; split_and!; lia || done.
Qed.

(** A step after which every process has the threads it had, and one process
    may have a new one. *)
Definition grows (s s' : Mgr * list Proc) (kn : Z) : Prop :=
  next_tid s.1 <= next_tid s'.1 /\
  forall k q, lives s' k q -> p_id q = k /\
    exists ths new, p_threads q = ths ++ new /\ (ths = [] \/ exists q0, lives s k q0 /\ p_threads q0 = ths) /\
      (new = [] \/ k = kn /\ (tid <$> new) = [next_tid s.1] /\ next_tid s.1 < next_tid s'.1).

Lemma grows_thread s s' kn k q t : inv s -> grows s s' kn -> lives s' k q -> t ∈ p_threads q ->
  PID_MAX < tid t < next_tid s'.1 /\
  ((exists q0, lives s k q0 /\ t ∈ p_threads q0) /\ tid t < next_tid s.1 \/ k = kn /\ tid t = next_tid s.1).
Proof.
  intros Hs [Hn Hg] Hq Ht. destruct (Hg k q Hq) as (_ & ths & new & E & Ho & Hnew). rewrite E in Ht. apply elem_of_app in Ht as [Ht|Ht].
  - destruct Ho as [->|(q0 & Hq0 & <-)]; [by apply elem_of_nil in Ht|]. destruct (inv_id s Hs k q0 Hq0) as (_ & _ & Hf).
    rewrite Forall_forall in Hf. specialize (Hf t Ht). split; [lia|]. left. split; [eauto|lia].
  - destruct Hnew as [->|(-> & E' & Hlt)]; [by apply elem_of_nil in Ht|]. pose proof (inv_tid s Hs).
    apply (list_elem_of_fmap_2 tid) in Ht. rewrite E' in Ht. apply list_elem_of_singleton in Ht. split; [lia|by right].
Qed.

Lemma grows_inv s s' kn : inv s -> grows s s' kn ->
  (forall k p, lives s' k p -> p_id p = k /\ threads_ok s'.1 p) /\
  (forall k k' p p' t t', lives s' k p -> lives s' k' p' -> t ∈ p_threads p -> t' ∈ p_threads p' -> tid t = tid t' -> k = k').
Proof.
  intros Hs Hg. split.
  - intros k p Hp. pose proof (proj2 Hg k p Hp) as (Hid & ths & new & E & Ho & Hnew). split; [done|]. split.
    + rewrite E, fmap_app. assert (NoDup (tid <$> ths) /\ Forall (fun t => tid t < next_tid s.1) ths) as [Hd Hlt].
      { destruct Ho as [->|(q0 & Hq0 & <-)]; [split; constructor|]. destruct (inv_id s Hs k q0 Hq0) as (_ & Hd & Hf).
        split; [done|]. eapply Forall_impl; [exact Hf|]. cbn. lia. }
      destruct Hnew as [->|(_ & E' & _)]; [by rewrite app_nil_r|]. rewrite E'. apply NoDup_app. split_and!; [done| |apply NoDup_singleton].
      intros x (t & -> & Ht)%list_elem_of_fmap Hx%list_elem_of_singleton. rewrite Forall_forall in Hlt. specialize (Hlt t Ht). lia.
    + apply Forall_forall. intros t Ht. by apply (grows_thread s s' kn k p t Hs Hg Hp Ht).
  - intros k k' p p' t t' Hp Hp' Ht Ht' E.
    destruct (grows_thread s s' kn k p t Hs Hg Hp Ht) as [_ [[(q & Hq & Hqt) ?]|[-> ?]]], (grows_thread s s' kn k' p' t' Hs Hg Hp' Ht') as [_ [[(q' & Hq' & Hqt') ?]|[-> ?]]]; try lia.
    by eapply (inv_threads s Hs k k' q q' t t').
Qed.

(** What stays as it is. *)
Lemma lives_same (s : Mgr * list Proc) nt kn k q : inv s -> lives s k q -> p_id q = k /\
  exists ths new, p_threads q = ths ++ new /\ (ths = [] \/ exists q0, lives s k q0 /\ p_threads q0 = ths) /\
    (new = [] \/ k = kn /\ (tid <$> new) = [next_tid s.1] /\ next_tid s.1 < nt).
Proof.
  intros Hs Hq. split; [by apply (inv_id s Hs)|]. exists (p_threads q), []. rewrite app_nil_r. split_and!; [done| |by left].
  right. eauto.
Qed.

(** A new process. *)
Lemma lives_new (s : Mgr * list Proc) nt p : (tid <$> p_threads p) = [next_tid s.1] -> next_tid s.1 < nt ->
  p_id p = p_id p /\
  exists ths new, p_threads p = ths ++ new /\ (ths = [] \/ exists q0, lives s (p_id p) q0 /\ p_threads q0 = ths) /\
    (new = [] \/ p_id p = p_id p /\ (tid <$> new) = [next_tid s.1] /\ next_tid s.1 < nt).
Proof. intros Ht Hn. split; [done|]. exists [], (p_threads p). split_and!; [done|by left|by right]. Qed.

Lemma create_inv au ty path m l p m' : next_tid m < 2 ^ 31 - 1 -> inv (m, l) ->
  spawn_create host vm_new au ty path false m = Ok (p, m') -> inv (m', p :: l).
Proof.
  intros Hb Hs H. pose proof Hs as [Hl Ht Hp Hd _ _]. cbn [fst snd] in *.
  apply spawn_create_Ok in H as (Hr & Hu & Hth & Eps & Ent & Elp); [|done..].
  assert (grows (m, l) (m', p :: l) (p_id p)) as Hg.
  { split; cbn [fst]; [lia|]. intros k q [Hq|[Hq Hk]]; cbn [fst snd] in *.
    - rewrite Eps in Hq. apply lives_same; [done|]. by left.
    - apply elem_of_cons in Hq as [->|Hq]; [subst k; apply lives_new; cbn; [done|lia]|]. apply lives_same; [done|]. by right. }
  destruct (grows_inv _ _ _ Hs Hg) as [H1 H2]. split; cbn [fst snd]; try done; [lia|lia| |].
  - rewrite Eps, Elp. constructor; [split; [lia|done]|]. eapply Forall_impl; [exact Hp|]. intros q [? ?]. split; [lia|done].
  - cbn. constructor; [|done]. intros (q & E & Hq)%list_elem_of_fmap. rewrite Forall_forall in Hp. specialize (Hp q Hq). lia.
Qed.

Lemma insert_inv p m m' l1 l2 : inv (m, l1 ++ p :: l2) -> spawn_insert p m = Ok m' -> inv (m', l1 ++ l2).
Proof.
  intros Hs H. pose proof Hs as [Hl Ht Hp Hd _ _]. cbn [fst snd] in *. unfold spawn_insert in H. apply bind_Ok in H as ([] & _ & H).
  injection H as <-. rewrite Forall_app, Forall_cons in Hp. destruct Hp as (Hp1 & [Hpl Hpd] & Hp2).
  rewrite fmap_app, fmap_cons in Hd. apply NoDup_app in Hd as (Hd1 & Hx & [Hp' Hd2]%NoDup_cons).
  assert (grows (m, l1 ++ p :: l2) (set_procs (<[p_id p := Some p]> (procs m)) m, l1 ++ l2) 0) as Hg.
  { split; cbn [fst]; [done|]. intros k q [Hq|[Hq Hk]]; cbn [fst snd procs set_procs] in *.
    - destruct (decide (k = p_id p)) as [->|].
      + rewrite lookup_insert_eq in Hq. injection Hq as <-. apply lives_same; [done|]. right. cbn. split; [set_solver|done].
      + rewrite lookup_insert_ne in Hq by done. apply lives_same; [done|]. by left.
    - apply lives_same; [done|]. right. cbn. split; [set_solver|done]. }
  destruct (grows_inv _ _ _ Hs Hg) as [H1 H2]. split; cbn [fst snd]; try done.
  - assert (forall q, q ∈ l1 ++ l2 -> p_id q <> p_id p) as Hne.
    { intros q [Hq|Hq]%elem_of_app E.
      - apply (Hx (p_id q)); [by apply list_elem_of_fmap_2|rewrite E; by left].
      - apply Hp'. rewrite <- E. by apply list_elem_of_fmap_2. }
    assert (Forall (fun q => p_id q <= last_pid m /\ p_id q ∉ dom (procs m)) (l1 ++ l2)) as Hf by by apply Forall_app.
    rewrite Forall_forall in *. intros q Hq. cbn. rewrite dom_insert. specialize (Hf q Hq). specialize (Hne q Hq). set_solver.
  - rewrite fmap_app. apply NoDup_app. split_and!; [done| |done]. intros x Hx1 Hx2. apply (Hx x Hx1). by right.
Qed.

Lemma kernel_inv au ty path m l p m' : next_tid m < 2 ^ 31 - 1 -> inv (m, l) ->
  spawn host vm_new au ty path true m = Ok (p, m') -> inv (m', l).
Proof.
  intros Hb Hs H. pose proof Hs as [Hl Ht Hp Hd _ _]. cbn [fst snd] in *. unfold spawn in H.
  apply bind_Ok in H as ([p1 m1] & Hc & H). apply bind_Ok in H as (m2 & Hi & H). injection H as -> ->.
  apply spawn_create_Ok in Hc as (Hr & Hu & Hth & Eps & Ent & Elp); [|done..].
  unfold spawn_insert in Hi. apply bind_Ok in Hi as ([] & _ & Hi). injection Hi as <-.
  assert (grows (m, l) (set_procs (<[p_id p := Some p]> (procs m1)) m1, l) (p_id p)) as Hg.
  { split; cbn [fst set_procs next_tid]; [lia|]. intros k q [Hq|[Hq Hk]]; cbn [fst snd procs set_procs] in *.
    - rewrite Eps in Hq. destruct (decide (k = p_id p)) as [->|].
      + rewrite lookup_insert_eq in Hq. injection Hq as <-. apply lives_new; cbn; [done|lia].
      + rewrite lookup_insert_ne in Hq by done. apply lives_same; [done|]. by left.
    - apply lives_same; [done|]. by right. }
  destruct (grows_inv _ _ _ Hs Hg) as [H1 H2]. split; cbn [fst snd set_procs next_tid last_pid procs]; try done; [lia|lia|].
  rewrite Forall_forall in *. intros q Hq. rewrite dom_insert, Eps. specialize (Hp q Hq). split; [lia|].
  apply not_elem_of_union. split; [|tauto]. apply not_elem_of_singleton. lia.
Qed.

Lemma kthread_inv pid m l t m' : next_tid m < 2 ^ 31 - 1 -> inv (m, l) -> spawn_kthread pid m = Ok (t, m') -> inv (m', l).
Proof.
  intros Hb Hs H. pose proof Hs as [Hl Ht Hp Hd Hid _]. cbn [fst snd] in *. unfold spawn_kthread in H.
  apply bind_Ok in H as (p & Hq & H). apply bind_Ok in H as ([id m1] & Ha & H). apply alloc_tid_Ok in Ha as [-> ->]; [|done..].
  injection H as <- <-. set (k := default KERNEL pid) in *. cbn [procs set_next_tid] in *.
  assert (procs m !! k = Some (Some p)) as Hk. { destruct (procs m !! k) as [[x|]|]; cbn in Hq; by simplify_eq. }
  destruct (Hid k p (or_introl Hk)) as [Ek _]. rewrite Ek.
  match goal with |- inv (?x, l) => set (m2 := x) end.
  assert (grows (m, l) (m2, l) k) as Hg.
  { split; cbn; [lia|]. intros k' q [Hq'|[Hq' Hk']]; cbn [fst snd procs m2 set_procs set_next_tid] in *.
    - destruct (decide (k' = k)) as [->|].
      + rewrite lookup_insert_eq in Hq'. injection Hq' as <-. split; [done|]. eexists (p_threads p), [_]. split_and!; [done| |].
        * right. exists p. split; [by left|done].
        * right. split_and!; [done|done|cbn; lia].
      + rewrite lookup_insert_ne in Hq' by done. apply lives_same; [done|]. by left.
    - apply lives_same; [done|]. by right. }
  destruct (grows_inv _ _ _ Hs Hg) as [H1 H2]. split; cbn [fst snd m2 set_procs set_next_tid next_tid last_pid procs]; try done; [lia|].
  by rewrite dom_insert_lookup_L.
Qed.

Lemma gone_inv pid m l : inv (m, l) -> inv (set_procs (alter (fun _ => None) pid (procs m)) m, l).
Proof.
  intros Hs. pose proof Hs as [Hl Ht Hp Hd _ _]. cbn [fst snd] in *.
  assert (grows (m, l) (set_procs (alter (fun _ => None) pid (procs m)) m, l) 0) as Hg.
  { split; cbn [fst]; [done|]. intros k q [Hq|[Hq Hk]]; cbn [fst snd procs set_procs] in *.
    - destruct (decide (k = pid)) as [->|].
      + rewrite lookup_alter_eq in Hq. by destruct (procs m !! pid).
      + rewrite lookup_alter_ne in Hq by done. apply lives_same; [done|]. by left.
    - apply lives_same; [done|]. by right. }
  destruct (grows_inv _ _ _ Hs Hg) as [H1 H2]. split; cbn [fst snd set_procs next_tid last_pid procs]; try done.
  by rewrite dom_alter_L.
Qed.

Lemma procs_step_inv s s' : step s s' -> inv s -> inv s'.
Proof.
  destruct 1; intros Hs.
  - by eapply create_inv.
  - by eapply insert_inv.
  - by eapply kernel_inv.
  - by eapply kthread_inv.
  - by apply gone_inv.
Qed.

Lemma mgr_new_inv kern m : mgr_new host vm_new kern = Ok m -> inv (m, []).
Proof.
  intros H. unfold mgr_new in H. apply bind_Ok in H as (p0 & H0 & H). apply bind_Ok in H as (idle & Hi & H). injection H as <-.
  assert (p_id p0 = KERNEL) as E0 by (unfold proc_new in H0; inv_ok; done).
  assert (p_id idle = IDLE /\ p_threads idle = []) as [Ei Eth] by (unfold proc_new in Hi; inv_ok; done).
  assert (forall k q, lives (MkMgr (<[IDLE:=Some idle]> {[KERNEL:=Some (set_threads [thread_new kern (PID_MAX + 1)] p0)]}) ∅ ∅ 0 false (PID_MAX + 2), []) k q ->
    k = IDLE /\ q = idle \/ k = KERNEL /\ q = set_threads [thread_new kern (PID_MAX + 1)] p0) as Hlives.
  { intros k q [Hq|[Hq _]]; cbn in Hq; [|by apply elem_of_nil in Hq]. apply lookup_insert_Some in Hq as [[<- Hq]|[_ Hq]]; [left; by simplify_eq|].
    apply lookup_singleton_Some in Hq as [<- Hq]. right. by simplify_eq. }
  split; cbn [fst snd last_pid next_tid procs]; try (unfold PID_MAX; lia); [by constructor|by constructor| |].
  - intros k q [[-> ->]|[-> ->]]%Hlives; (split; [done|]); unfold threads_ok; [rewrite Eth; split; constructor|].
    cbn. split; [apply NoDup_singleton|]. constructor; [cbn; lia|constructor].
  - intros k k' q q' t t' [[-> ->]|[-> ->]]%Hlives [[-> ->]|[-> ->]]%Hlives; rewrite ?Eth; try done.
    + by intros ?%elem_of_nil.
    + by intros _ ?%elem_of_nil.
Qed.

Lemma procs_inv kern m s : mgr_new host vm_new kern = Ok m -> rtc step (m, []) s -> inv s.
Proof.
  intros Hm%mgr_new_inv H. induction H as [|s1 s2 s3 Hs _ IH]; [done|]. apply IH. by eapply procs_step_inv.
Qed.

(** A kernel process takes an identifier without marking it. *)
Lemma find_pid_tid fuel t m pid : find_pid fuel (set_next_tid t m) pid = find_pid fuel m pid.
Proof. revert pid. induction fuel as [|fuel IH]; intros pid; cbn [find_pid]; [done|]. by rewrite IH. Qed.

Lemma create_high au ty path m p m' : spawn_create host vm_new au ty path true m = Ok (p, m') ->
  alloc_pid true m = Ok (p_id p, m) /\ exists t, m' = set_next_tid t m.
Proof.
  intros H. unfold spawn_create in H. apply bind_Ok in H as (c & _ & H). apply bind_Ok in H as ([pid m1] & Hp & H).
  apply bind_Ok in H as (p0 & Hn & H). apply bind_Ok in H as ([id m2] & Hid & H). injection H as <- <-.
  assert (m1 = m) as ->.
  { unfold alloc_pid in Hp. apply bind_Ok in Hp as ([] & _ & Hp). apply bind_Ok in Hp as (q & _ & Hp). apply bind_Ok in Hp as (r & _ & Hp).
    by injection Hp. }
  split.
  - assert (p_id p0 = pid) as <- by (unfold proc_new in Hn; inv_ok; done). exact Hp.
  - unfold alloc_tid in Hid. apply bind_Ok in Hid as ([] & _ & Hid). injection Hid as <- <-. eauto.
Qed.

Lemma kernel_race au1 ty1 path1 au2 ty2 path2 m p1 m1 p2 m2 : 0 <= last_pid m ->
  spawn_create host vm_new au1 ty1 path1 true m = Ok (p1, m1) -> spawn_create host vm_new au2 ty2 path2 true m1 = Ok (p2, m2) ->
  exists m3, spawn_insert p1 m2 = Ok m3 /\ spawn_insert p2 m3 = Panic PAssert.
Proof.
  intros Hl [Hp1 [t1 ->]]%create_high [Hp2 [t2 ->]]%create_high. pose proof Hp1 as (_ & Hu & _)%alloc_pid_Ok; [|done].
  apply pid_used_false in Hu as (Hu%not_elem_of_dom & _).
  assert (p_id p2 = p_id p1) as E.
  { unfold alloc_pid in Hp1, Hp2. cbn [last_pid random_pid set_next_tid] in Hp2. rewrite find_pid_tid in Hp2.
    apply bind_Ok in Hp1 as ([] & _ & Hp1). apply bind_Ok in Hp1 as (q1 & Hq1 & Hp1). apply bind_Ok in Hp1 as (r1 & Hr1 & Hp1).
    apply bind_Ok in Hp2 as ([] & _ & Hp2). apply bind_Ok in Hp2 as (q2 & Hq2 & Hp2). apply bind_Ok in Hp2 as (r2 & Hr2 & Hp2).
    injection Hp1 as <-. injection Hp2 as <-. congruence. }
  unfold spawn_insert at 1. cbn [procs set_next_tid]. rewrite Hu. eexists. split; [reflexivity|].
  unfold spawn_insert. cbn [procs set_procs set_next_tid]. rewrite E, lookup_insert_eq. done.
Qed.
End spawns.

(** C24: Identifiers of processes and threads.  From the start of the manager
    on, in every interleaving of the two parts of spawns of programs with
    spawns of kernel processes and threads that run alone and with processes
    that go away, a process is in the table under its own identifier, a process
    on its way to the table has one that no process has or had, so that its
    entry succeeds, and no two threads have the same identifier (until the
    counter of threads reaches its end).  Kernel processes are different when
    their spawns overlap: the second gets the identifier of the first, and
    entering it fails an assertion. *)
Theorem spawn_identifiers host vm_new kern m s :
  mgr_new host vm_new kern = Ok m -> rtc (step host vm_new) (m, []) s ->
  (forall k p, procs s.1 !! k = Some (Some p) -> p_id p = k) /\
  NoDup (p_id <$> s.2) /\
  (forall p, p ∈ s.2 -> p_id p ∉ dom (procs s.1) /\ exists m', spawn_insert p s.1 = Ok m') /\
  (forall k p, lives s k p -> NoDup (tid <$> p_threads p)) /\
  (forall k k' p p' t t', lives s k p -> lives s k' p' -> t ∈ p_threads p -> t' ∈ p_threads p' -> tid t = tid t' -> k = k') /\
  (forall au1 ty1 path1 au2 ty2 path2 p1 m1 p2 m2,
     spawn_create host vm_new au1 ty1 path1 true s.1 = Ok (p1, m1) ->
     spawn_create host vm_new au2 ty2 path2 true m1 = Ok (p2, m2) ->
     exists m3, spawn_insert p1 m2 = Ok m3 /\ spawn_insert p2 m3 = Panic PAssert).
Proof.
  intros Hm Hs. pose proof (procs_inv _ _ _ _ _ Hm Hs) as Hi. destruct Hi as [Hl Ht Hp Hd Hid Hth]. split_and!; try done.
  - intros k p Hk. by apply (Hid k p (or_introl Hk)).
  - rewrite Forall_forall in Hp. intros p Hin. destruct (Hp p Hin) as [_ Hnot]. split; [done|]. unfold spawn_insert.
    apply not_elem_of_dom in Hnot. rewrite Hnot. eexists. reflexivity.
  - intros k p Hk. by apply (Hid k p Hk).
  - intros. by eapply kernel_race.
Qed.

Definition demo_host (ty : ResourceType) : outcome Z ResourceLimit := Ok (Limit 1000 (2 ^ 40)).
Definition demo_kern : Ucred := Cr 0 0 [0] SYS_CORE.
Definition demo_game : AuthInfo := Auth 0x3100000000000001 [0x2000000000000000; 0; 0; 0] [0; 0; 0; 0] (replicate 0x40 0).

(** Two programs are under way at once; they get the identifiers 1 and 2. *)
Lemma spawn_identifiers_witness :
  exists m p1 m1 p2 m2, mgr_new demo_host (Ok tt) demo_kern = Ok m /\
    spawn_create demo_host (Ok tt) demo_game 0 [] false m = Ok (p1, m1) /\
    spawn_create demo_host (Ok tt) demo_game 0 [] false m1 = Ok (p2, m2) /\
    p_id p1 = 1 /\ p_id p2 = 2 /\ NoDup (p_id <$> [p2; p1]).
Proof.
  destruct (mgr_new demo_host (Ok tt) demo_kern) as [m|e|b] eqn:Em; [|vm_compute in Em; discriminate Em..].
  destruct (spawn_create demo_host (Ok tt) demo_game 0 [] false m) as [[p1 m1]|e|b] eqn:E1; [|vm_compute in Em; injection Em as <-; vm_compute in E1; discriminate E1..].
  destruct (spawn_create demo_host (Ok tt) demo_game 0 [] false m1) as [[p2 m2]|e|b] eqn:E2;
    [|vm_compute in Em; injection Em as <-; vm_compute in E1; injection E1 as <- <-; vm_compute in E2; discriminate E2..].
  exists m, p1, m1, p2, m2. split; [reflexivity|]. split; [exact E1|]. split; [exact E2|].
  destruct (spawn_identifiers demo_host (Ok tt) demo_kern m (m2, [p2; p1]) Em) as (_ & Hn & _).
  - eapply rtc_l; [eapply step_create; [|exact E1]|eapply rtc_l; [eapply step_create; [|exact E2]|apply rtc_refl]].
    + vm_compute in Em. injection Em as <-. reflexivity.
    + vm_compute in Em. injection Em as <-. vm_compute in E1. injection E1 as <- <-. reflexivity.
  - vm_compute in Em. injection Em as <-. vm_compute in E1. injection E1 as <- <-. vm_compute in E2. injection E2 as <- <-.
    split; [reflexivity|]. split; [reflexivity|exact Hn].
Defined.

(** ** Affinity *)

(** The reference: bit [i] of the result is bit [7 - i] of the mask. *)
Definition rev8 (x : Z) : Z := foldr (fun i v => Z.lor v (if Z.testbit x (7 - i) then 2 ^ i else 0)) 0 (seqZ 0 8).

Lemma low_bits x k mask : 0 <= k -> 0 <= mask -> mask * 2 ^ k < 256 -> Z.land (Z.shiftr x k) mask = Z.land (Z.shiftr (x mod 256) k) mask.
Proof.
  intros Hk Hm Hb. change 256 with (2 ^ 8) in *. apply Z.bits_inj'. intros i Hi. rewrite !Z.land_spec, !Z.shiftr_spec by lia.
  destruct (Z.lt_ge_cases (i + k) 8) as [Hlt|Hge]; [by rewrite Z.mod_pow2_bits_low|].
  assert (Z.testbit mask i = false) as ->; [|by rewrite !andb_false_r].
  destruct (decide (mask = 0)) as [->|]; [apply Z.bits_0|]. apply Z.bits_above_log2; [lia|].
  assert (mask < 2 ^ (8 - k)).
  { destruct (Z.lt_ge_cases mask (2 ^ (8 - k))) as [|Hge']; [done|]. destruct (Z.lt_ge_cases 8 k).
    - pose proof (Z.pow_le_mono_r 2 8 k). nia.
    - assert (2 ^ (8 - k) * 2 ^ k = 2 ^ 8) by (rewrite <- Z.pow_add_r by lia; f_equal; lia). pose proof (Z.pow_pos_nonneg 2 k). nia. }
  apply Z.log2_lt_pow2; [lia|]. pose proof (Z.pow_le_mono_r 2 (8 - k) i). lia.
Qed.

(** The arithmetic of [sys_cpuset_getaffinity] reverses the bits of the first
    eight processors, drops the others, and does not overflow. *)
Theorem swap_bits_reverses x : 0 <= x -> swap_bits x = Ok (rev8 x).
Proof.
  intros Hx. assert (swap_bits x = swap_bits (x mod 256)) as ->.
  { unfold swap_bits. rewrite (low_bits x 1 0x55) by lia. pose proof (low_bits x 0 0x55) as H0. rewrite !Z.shiftr_0_r in H0. by rewrite H0 by lia. }
  assert (rev8 x = rev8 (x mod 256)) as ->.
  { unfold rev8. change (seqZ 0 8) with [0; 1; 2; 3; 4; 5; 6; 7]. cbn [foldr]. change 256 with (2 ^ 8).
    by rewrite !(Z.mod_pow2_bits_low x 8) by lia. }
  pose proof (Z.mod_pos_bound x 256 ltac:(lia)) as Hr.
  assert (forallb (fun v => if swap_bits v is Ok w then w =? rev8 v else false) (seqZ 0 256) = true) as Hf by by vm_compute.
  rewrite forallb_forall in Hf. specialize (Hf (x mod 256)). rewrite <- list_elem_of_In, elem_of_seqZ in Hf.
  specialize (Hf ltac:(lia)). destruct (swap_bits (x mod 256)) as [w|e|p]; [|done..]. apply Z.eqb_eq in Hf. by subst.
Qed.

(** ** Other system calls *)

Lemma overwrite_0 {A} (l s : list A) : overwrite l 0 s = s ++ drop (length s) l.
Proof. reflexivity. Qed.

(** The path of a process is copied with a zero after it, as much of it as fits
    into the number of bytes that was given; nothing after them is written, and
    its full length is reported. *)
Theorem randomized_path_fits p b n : 0 < n -> n <= Z.of_nat (length b) -> p_path p <> [] ->
  exists b' k, sys_randomized_path 0 (Some b) (Some n) p = (Some b', Some (Z.of_nat (length (p_path p))), Ok 0) /\
    k = Nat.min (Z.to_nat n - 1) (length (p_path p)) /\ length b' = length b /\
    take k b' = take k (p_path p) /\ b' !! k = Some 0 /\ drop (Z.to_nat n) b' = drop (Z.to_nat n) b.
Proof.
  intros Hn Hb Hp. unfold sys_randomized_path. rewrite (proj2 (Z.ltb_lt 0 n)), bool_decide_true by done. cbn [andb fmap option_fmap option_map].
  set (k := Nat.min (Z.to_nat n - 1) (length (p_path p))).
  replace (Z.to_nat (Z.min (n - 1) (Z.of_nat (length (p_path p))))) with k by (unfold k; lia).
  assert (length (take k (p_path p)) = k) as Hk by (rewrite length_take; unfold k; lia).
  assert (k < Z.to_nat n)%nat by (unfold k; lia). eexists _, k. split; [reflexivity|]. split_and!; [done| | | |].
  - rewrite length_overwrite; [done|lia|]. rewrite length_app, Hk. cbn [length]. lia.
  - rewrite overwrite_0. rewrite <- app_assoc. by rewrite take_app_length' by lia.
  - rewrite overwrite_0. rewrite <- app_assoc, lookup_app_r by lia. by rewrite Hk, Nat.sub_diag.
  - rewrite overwrite_0. rewrite drop_app_ge by (rewrite length_app, Hk; cbn [length]; lia).
    rewrite drop_drop. f_equal. rewrite length_app, Hk. cbn [length]. lia.
Qed.

(** Without the privilege a thread sees of the authority of a process the type
    bits of its capabilities, and its identifier only for three programs. *)
Theorem visible_auth_bound t p a : is_system (t_cred t) = false -> 0 <= paid (auth (p_cred p)) < 2 ^ 64 ->
  visible_auth t p = Ok a ->
  caps a = [Z.land (caps (auth (p_cred p)) !!! 0%nat) 0x7000000000000000; 0; 0; 0] /\ attrs a = [0; 0; 0; 0] /\ unk a = replicate 0x40 0 /\
  (paid a = 0 \/ paid a = paid (auth (p_cred p)) /\ paid a ∈ [0x3800000010000004; 0x3800000010000011; 0x3800000010000012]).
Proof.
  intros Hs Hp H. unfold visible_auth, td_priv_check, priv_check in H. rewrite Hs in H. cbn [mbind outcome_bind] in H.
  injection H as <-. cbn [caps attrs unk paid]. split_and!; try done. set (x := wrapping_add _ _).
  destruct (Z.ltb_spec x 0xf) as [Hx|Hx]; cbn [andb]; [|by left]. destruct (negb _) eqn:E; [right; split; [done|]|by left].
  assert (0 <= x) as H0 by (apply Z.mod_pos_bound; lia).
  assert (paid (auth (p_cred p)) = 0x3800000010000004 + x) as ->.
  { unfold x, wrapping_add in *. set (q := paid (auth (p_cred p))) in *. clearbody q. clear -Hp Hx.
    pose proof (Z.div_mod (q + 0xc7ffffffeffffffc) (2 ^ 64) ltac:(lia)).
    pose proof (Z.mod_pos_bound (q + 0xc7ffffffeffffffc) (2 ^ 64) ltac:(lia)). lia. }
  assert (x = 0 \/ x = 1 \/ x = 2 \/ x = 3 \/ x = 4 \/ x = 5 \/ x = 6 \/ x = 7 \/ x = 8 \/ x = 9 \/ x = 10 \/ x = 11 \/ x = 12 \/ x = 13 \/ x = 14) as Hc by lia.
  destruct_or! Hc; rewrite Hc in *; try discriminate E; apply list_elem_of_In; cbn; tauto.
Qed.

(** A session is made once, by a process of the system, and its login name is
    then the one that was set; before that, setting it panics. *)
Theorem session_login t p : is_system (t_cred t) = true ->
  (p_group p = None -> forall mem a0 s, VmSpace.to_str mem a0 17 = Ok (Some s) -> sys_setlogin mem a0 t p = Panic PUnwrap) /\
  (forall id p', sys_setsid t p = Ok (id, p') -> p_group p = None /\ id = p_id p /\
     sys_setsid t p' = Err (Raw EPERM) /\
     forall mem a0 s, VmSpace.to_str mem a0 17 = Ok (Some s) ->
       exists p'', sys_setlogin mem a0 t p' = Ok p'' /\ p_group p'' = Some (MkGroup (p_id p) (MkSession (p_id p) s))).
Proof.
  intros Hs. assert (td_priv_check t PROC_SETLOGIN = Ok tt /\ td_priv_check t SCE680 = Ok tt) as [H1 H2].
  { unfold td_priv_check, priv_check. rewrite Hs. done. }
  split.
  - intros Hg mem a0 s Hm. unfold sys_setlogin. rewrite H1, Hm, Hg. done.
  - intros id p' H. unfold sys_setsid in *. rewrite H2 in *. cbn in H. destruct (p_group p) eqn:Eg; [done|]. injection H as <- <-.
    split_and!; [done..|]. intros mem a0 s Hm. unfold sys_setlogin. rewrite H1, Hm. cbn. eauto.
Qed.
End ProcessProps.
