(* ===== verification/Time.v ===== *)
(** * Clocks of the previous kernel

    Models [legacy/src/time]: the clocks, the conversions of the times of the
    host, and the system calls, with what they compute.  The answers of the
    host are parameters.  Integers of 64 bits have a sign here. *)
From S2P Require Import Prelude VmSpace.

Module Time.
Local Open Scope list_scope.
Local Open Scope Z_scope.
Definition EINVAL : Z := 22.

(** Errors of system calls; the error number of a failure of the host is not
    implemented. *)
Inductive TimeErr := TRaw (e : Z) | IoError (e : Z).

(** Operations of [i64]. *)
Definition fits_i64 (v : Z) : bool := (- 2 ^ 63 <=? v) && (v <? 2 ^ 63).
Definition imul (a b : Z) : outcome TimeErr Z := if fits_i64 (a * b) then Ok (a * b) else Panic POverflow.
Definition idiv (a b : Z) : outcome TimeErr Z :=
  panic_if (b =? 0) PDivZero;;
  if fits_i64 (Z.quot a b) then Ok (Z.quot a b) else Panic POverflow.
Definition irem (a b : Z) : outcome TimeErr Z :=
  panic_if (b =? 0) PDivZero;;
  if fits_i64 (Z.quot a b) then Ok (Z.rem a b) else Panic POverflow.

Record TimeSpec := MkTimeSpec { sec : Z; nsec : Z }.
Record TimeVal := MkTimeVal { tv_sec : Z; tv_usec : Z }.
Definition timespec_of (tv : TimeVal) : outcome TimeErr TimeSpec :=
  n ← imul (tv_usec tv) 1000;
  Ok (MkTimeSpec (tv_sec tv) n).

(** [ClockId]; negative numbers are clocks too. *)
Definition clock_id (v : Z) : outcome TimeErr Z :=
  if (v <? 0) || bool_decide (v ∈ [0; 1; 2; 4; 5; 7; 8; 9; 10; 11; 12; 13; 14; 15; 16; 17; 18; 19]) then Ok v
  else Err (TRaw EINVAL).
Definition MONOTONIC : Z := 4.
Definition UPTIME : Z := 5.
Definition UPTIME_PRECISE : Z := 7.
Definition MONOTONIC_PRECISE : Z := 11.
Definition SECOND : Z := 13.

(** [nanouptime] on Windows, from the counter of the host and its frequency. *)
Definition nanouptime_windows (counter frequency : Z) : outcome TimeErr TimeSpec :=
  seconds ← idiv counter frequency;
  leftover ← irem counter frequency;
  n ← imul leftover 1000000000;
  nanoseconds ← idiv n frequency;
  Ok (MkTimeSpec seconds nanoseconds).

(** [microtime] on Windows, from the two words of the time of a file. *)
Definition microtime_windows (high low : Z) : outcome TimeErr TimeVal :=
  let intervals := Z.lor (Z.shiftl high 32) low in
  s ← usub (intervals / 10000000) 11644473600;
  panic_if (2 ^ 63 <=? s) PUnwrap;;
  Ok (MkTimeVal s (intervals mod 10000000)).

Section host.
Context (nanouptime : outcome TimeErr TimeSpec) (microtime : outcome TimeErr TimeVal).

Definition time_second : outcome TimeErr TimeSpec :=
  t ← nanouptime;
  Ok (MkTimeSpec (sec t) 0).

(** What is written to the first argument; the second one is not null when
    [tz] is true. *)
Definition sys_gettimeofday (tv tz : bool) : outcome TimeErr (option TimeVal) :=
  r ← (if tv then t ← microtime; Ok (Some t) else Ok None);
  panic_if tz PTodo;;
  Ok r.

(** What is written to the second argument. *)
Definition sys_clock_gettime (a0 : Z) : outcome TimeErr TimeSpec :=
  v ← VmSpace.arg_i32 a0;
  id ← clock_id v;
  if bool_decide (id ∈ [UPTIME; UPTIME_PRECISE; MONOTONIC; MONOTONIC_PRECISE]) then nanouptime
  else if id =? SECOND then time_second
  else Panic PTodo.

Definition sys_clock_getres (a0 : Z) (ts : bool) : outcome TimeErr (option TimeSpec) :=
  v ← VmSpace.arg_i32 a0;
  id ← clock_id v;
  if ts then
    if id =? SECOND then Ok (Some (MkTimeSpec 1 0))
    else if bool_decide (id ∈ [0; 4; 5; 7; 8; 9; 10; 11; 12; 1; 2; 14]) then Panic PTodo
    else Ok None
  else Ok None.
End host.

(** ** Properties *)

(** The time of the counter is exact: seconds and nanoseconds are those of the
    quotient in nanoseconds, and no product overflows as long as the counter
    ticks less than nine times in a nanosecond. *)
Theorem nanouptime_exact c f : 0 <= c < 2 ^ 63 -> 0 < f <= 9000000000 ->
  exists t, nanouptime_windows c f = Ok t /\ 0 <= nsec t < 1000000000 /\ sec t * 1000000000 + nsec t = c * 1000000000 / f.
Proof.
  intros Hc Hf. pose proof (Z.div_mod c f ltac:(lia)) as Hd. pose proof (Z.mod_pos_bound c f ltac:(lia)) as Hm.
  assert (0 <= c / f <= c) by (split; [apply Z.div_pos; lia|apply Z.div_le_upper_bound; nia]).
  assert (0 <= c mod f * 1000000000 / f < 1000000000) as Hn.
  { split; [apply Z.div_pos; nia|apply Z.div_lt_upper_bound; nia]. }
  unfold nanouptime_windows, idiv, irem, imul, fits_i64, panic_if. rewrite (proj2 (Z.eqb_neq f 0)) by lia. cbn [mbind outcome_bind].
  rewrite !Z.quot_div_nonneg, Z.rem_mod_nonneg by lia.
  rewrite (proj2 (Z.leb_le _ (c / f))), (proj2 (Z.ltb_lt (c / f) _)) by lia. cbn [andb mbind outcome_bind].
  rewrite (proj2 (Z.leb_le _ (c mod f * 1000000000))), (proj2 (Z.ltb_lt (c mod f * 1000000000) _)) by nia.
  cbn [andb mbind outcome_bind]. rewrite Z.quot_div_nonneg by nia.
  rewrite (proj2 (Z.leb_le _ (c mod f * 1000000000 / f))), (proj2 (Z.ltb_lt (c mod f * 1000000000 / f) _)) by lia.
  cbn [andb]. eexists. split; [reflexivity|]. cbn [sec nsec]. split; [done|].
  replace (c * 1000000000) with (c mod f * 1000000000 + (c / f * 1000000000) * f) by nia. rewrite Z.div_add by lia. lia.
Qed.

(** The field for microseconds is in units of a tenth of one: it is the number
    of microseconds times ten and more, and exceeds a second for nine tenths of
    every second. *)
Theorem microtime_units high low t : 0 <= high < 2 ^ 32 -> 0 <= low < 2 ^ 32 -> microtime_windows high low = Ok t ->
  let intervals := high * 2 ^ 32 + low in
  tv_sec t = intervals / 10000000 - 11644473600 /\
  tv_usec t / 10 = (intervals / 10) mod 1000000 /\
  (1000000 <= tv_usec t <-> 100000 <= (intervals / 10) mod 1000000).
Proof.
  intros Hh Hl H. cbv zeta. assert (Z.lor (Z.shiftl high 32) low = high * 2 ^ 32 + low) as E.
  { rewrite Z.shiftl_mul_pow2 by lia. rewrite <- Z.add_lor_land. replace (Z.land (high * 2 ^ 32) low) with 0; [lia|]. symmetry.
    apply Z.bits_inj'. intros i Hi. rewrite Z.land_spec, Z.bits_0. destruct (Z.lt_ge_cases i 32).
    - by rewrite Z.mul_pow2_bits_low.
    - replace low with (low mod 2 ^ 32) by (apply Z.mod_small; lia).
      rewrite Z.mod_pow2_bits_high by lia. apply andb_false_r. }
  unfold microtime_windows in H. rewrite E in H. set (n := high * 2 ^ 32 + low) in *. clearbody n.
  apply bind_Ok in H as (s & Hs & H). apply usub_Ok in Hs as [-> _]. apply bind_Ok in H as ([] & _ & H). injection H as <-. cbn [tv_sec tv_usec].
  assert (n mod 10000000 / 10 = (n / 10) mod 1000000) as Eu.
  { pose proof (Z.div_mod n 10000000 ltac:(lia)). pose proof (Z.mod_pos_bound n 10000000 ltac:(lia)).
    pose proof (Z.div_mod (n mod 10000000) 10 ltac:(lia)). pose proof (Z.mod_pos_bound (n mod 10000000) 10 ltac:(lia)).
    pose proof (Z.div_mod n 10 ltac:(lia)). pose proof (Z.mod_pos_bound n 10 ltac:(lia)).
    pose proof (Z.div_mod (n / 10) 1000000 ltac:(lia)). pose proof (Z.mod_pos_bound (n / 10) 1000000 ltac:(lia)). lia. }
  split; [done|]. split; [done|]. rewrite <- Eu. pose proof (Z.div_mod (n mod 10000000) 10 ltac:(lia)).
  pose proof (Z.mod_pos_bound (n mod 10000000) 10 ltac:(lia)). lia.
Qed.
End Time.
