(* ===== verification/Rtld.v ===== *)
(** * The runtime linker

    Models [legacy/src/rtld/mod.rs]: [exec] and [load], which map modules,
    thread-local storage, relocation, and the system calls.  The modules of
    a process are a table ([mods]); a module is its place in it.  What is not
    part of the sources are parameters: the native engine, SHA-1, and the
    files.  What a call writes to the memory of the process is its result. *)
From S2P Require Import Prelude Env VPath Cred FileDesc Kernel VmSpace Orbis Module Resolver.

Module Rtld.
Import Env Orbis Module_ Resolver.
Local Open Scope list_scope.
Local Open Scope Z_scope.

Definition EPERM : Z := 1.
Definition ENOENT : Z := 2.
Definition ESRCH : Z := 3.
Definition ENOEXEC : Z := 8.
Definition ENOMEM : Z := 12.
Definition EINVAL : Z := 22.

Definition HAS_UBSAN : Z := 0x01.
Definition HAS_ASAN : Z := 0x02.

Record TlsAlloc := MkTlsAlloc { max_index : Z; last_offset : Z; last_size : Z; static_space : Z }.
(** [RuntimeLinker]. *)
Record Linker := MkLinker { ld_tls : TlsAlloc; ld_flags : Z }.
Definition linker_new : Linker := MkLinker (MkTlsAlloc 1 0 0 0) 0.

(** The parts of a process that the linker uses. *)
Record Proc := MkProc {
  p_mods : list Module;
  p_bin : option Binaries;
  p_vm : VmSpace.t;
  p_objects : FileDesc.Idt nat;
  p_big_app : bool
}.

(** Assignments to the fields of a module that are behind locks. *)
Definition set_md_flags (f : Z) (m : Module) : Module :=
  MkModule (md_id m) (md_entry m) (md_tls_index m) (md_tls_info m) (md_eh_info m) (md_proc_param m) (md_mod_param m)
    (md_sdk_ver m) (set_flags f (md_digest m)) (md_file_info m) (md_path m) (md_is_self m) (md_file_type m)
    (md_programs m) (md_symbols m) (md_tls_offset m) (md_dag_static m) (md_dag_dynamic m) (md_memory m)
    (md_relocated m) (md_ref_count m).
Definition set_runtime (tls_offset : Z) (ds dd : list nat) (mem : Memory) (relocated : list (option Relocated))
    (ref_count : Z) (m : Module) : Module :=
  MkModule (md_id m) (md_entry m) (md_tls_index m) (md_tls_info m) (md_eh_info m) (md_proc_param m) (md_mod_param m)
    (md_sdk_ver m) (md_digest m) (md_file_info m) (md_path m) (md_is_self m) (md_file_type m)
    (md_programs m) (md_symbols m) tls_offset ds dd mem relocated ref_count.
Definition set_tls_offset (o : Z) (m : Module) : Module :=
  set_runtime o (md_dag_static m) (md_dag_dynamic m) (md_memory m) (md_relocated m) (md_ref_count m) m.
Definition set_relocated (mem : Memory) (r : list (option Relocated)) (m : Module) : Module :=
  set_runtime (md_tls_offset m) (md_dag_static m) (md_dag_dynamic m) mem r (md_ref_count m) m.
Definition md_flags (m : Module) : Z := d_flags (md_digest m).

(** ** Thread-local storage *)

(** The loop of [load] that searches a free index, and the new maximum. *)
Fixpoint tls_search (fuel : nat) (used : list Z) (max index : Z) : Z * Z :=
  match fuel with
  | O => (index, max)
  | S fuel =>
      if bool_decide (index ∈ used) then
        let index := index + 1 in
        if max <? index then (index, index) else tls_search fuel used max index
      else (index, max)
  end.
Definition tls_alloc (used : list Z) (a : TlsAlloc) : Z * TlsAlloc :=
  let '(index, max) := tls_search (Z.to_nat (max_index a)) used (max_index a) 1 in
  (index, MkTlsAlloc max (last_offset a) (last_size a) (static_space a)).

(** [(x + align - 1) & !(align - 1)]. *)
Definition tls_round {E} (x align : Z) : outcome E Z :=
  x ← uadd x align;
  x ← usub x 1;
  a ← usub align 1;
  Ok (Z.ldiff x a).

(** The body of the loop of [sys_dynlib_process_needed_and_relocate] over the
    main modules. *)
Definition init_tls {E} (st : TlsAlloc * list Module) (k : nat) : outcome E (TlsAlloc * list Module) :=
  let '(tls, mods) := st in
  md ← the_module mods k;
  if contains (md_flags md) TLS_DONE then Ok st
  else
    let finish tls md := Ok (tls, <[k := set_md_flags (Z.lor (md_flags md) TLS_DONE) md]> mods) in
    match md_tls_info md with
    | Some t =>
        if t_size t =? 0 then finish tls md
        else
          off ← (if md_tls_index md =? 1 then tls_round (t_size t) (t_align t)
                 else x ← uadd (last_offset tls) (t_size t); tls_round x (t_align t));
          if negb (static_space tls =? 0) && (static_space tls <? off) then Ok st
          else finish (MkTlsAlloc (max_index tls) off (t_size t) (static_space tls)) (set_tls_offset off md)
    | None => finish tls md
    end.

(** ** Relocation *)

Inductive RelocateError :=
  | UnprotectFailed (path : str) (e : UnprotectError)
  | UnsupportedRela (path : str) (ty : Z)
  | UnsupportedPlt (path : str) (ty : Z)
  | Loops. (* the resolver does not return *)

(** [wrapping_add_signed]. *)
Definition wrapping_add_signed (v a : Z) : Z := (v + a) mod 2 ^ 64.

Section engine.
(** [NativeEngine::get_function]: the address of the function of a module at
    an address of its code. *)
Variable get_function : nat -> Z -> option Z.
Variable H : VmSpace.Host.

Definition module_function {E} (mods : list Module) (k : nat) (off : Z) : outcome E Z :=
  md ← the_module mods k;
  a ← uadd (mm_ptr (md_memory md)) (mm_base (md_memory md));
  a ← uadd a off;
  unwrap_or_panic PUnwrap (get_function k a).

Definition get_relocated {E} (mods : list Module) (k i : nat) : outcome E (Relocated * Z) :=
  md ← the_module mods k;
  sym ← unwrap_or_panic PUnwrap (md_symbols md !! i);
  if (s_ty sym =? STT_FUNC) || (s_ty sym =? STT_ENTRY) then
    a ← module_function mods k (value sym);
    Ok (Executable a, a)
  else
    a ← uadd (mm_ptr (md_memory md)) (mm_base (md_memory md));
    a ← uadd a (value sym);
    Ok (Data k a, a).

(** The value of a relocation of [relocate_rela]; [None] leaves the target
    alone.  [target] is what is there. *)
Definition rela_value (mods : list Module) (bin : Binaries) (new_algorithm : bool) (k : nat) (r : Relocation)
    (target : list Z) : outcome RelocateError (option (Relocated * Z)) :=
  md ← the_module mods k;
  let resolve := map_err (fun _ => Loops) (resolve_with_local mods bin new_algorithm k (r_symbol r) 0) in
  let base := mm_base (md_memory md) in
  let ty := r_ty r in
  if ty =? R_X86_64_64 then
    s ← resolve;
    match s with
    | None => Ok None
    | Some (m, i) => '(how, v) ← get_relocated mods m i; Ok (Some (how, wrapping_add_signed v (r_addend r)))
    end
  else if ty =? R_X86_64_GLOB_DAT then
    s ← resolve;
    match s with
    | None => Ok None
    | Some (m, i) => p ← get_relocated mods m i; Ok (Some p)
    end
  else if ty =? R_X86_64_RELATIVE then
    panic_if (r_addend r <? 0) PUnwrap;;
    off ← uadd base (r_addend r);
    seg ← unwrap_or_panic PUnwrap
      (List.find (fun s => bool_decide (is_Some (ms_program s)) && (ms_start s <=? off) && (off <? ms_start s + ms_len s))
         (mm_segments (md_memory md)));
    if intersects (ms_prot seg) CPU_EXEC then
      a ← module_function mods k (r_addend r);
      Ok (Some (Executable a, a))
    else
      a ← uadd (mm_ptr (md_memory md)) off;
      Ok (Some (Data k a, a))
  else if ty =? R_X86_64_DTPMOD64 then
    s ← resolve;
    match s with
    | None => Ok None
    | Some (m, _) =>
        m' ← the_module mods m;
        v ← uadd (le_value target) (md_tls_index m');
        Ok (Some (Tls m (md_tls_index m'), v))
    end
  else if ty =? R_X86_64_DTPOFF64 then
    s ← resolve;
    match s with
    | None => Ok None
    | Some (m, _) =>
        m' ← the_module mods m;
        (* The symbol of the module that was found, at the index of this one. *)
        sym ← unwrap_or_panic PUnwrap (md_symbols m' !! Z.to_nat (r_symbol r));
        v ← uadd (le_value target) (value sym);
        let v := wrapping_add_signed v (r_addend r) in
        Ok (Some (Data m v, v))
    end
  else Err (UnsupportedRela (md_path md) ty).

(** The loop of [relocate_rela] from relocation [i] on. *)
Fixpoint relocate_rela (mods : list Module) (bin : Binaries) (new_algorithm : bool) (k : nat) (i : nat)
    (cs : list (list Z)) (mem : list Z) (done : list (option Relocated))
    : outcome RelocateError (list Z * list (option Relocated)) :=
  match cs with
  | [] => Ok (mem, done)
  | c :: cs =>
      r ← reloc_next c;
      d ← unwrap_or_panic PIndex (done !! i);
      if (d : option Relocated) is Some _ then relocate_rela mods bin new_algorithm k (S i) cs mem done
      else
        md ← the_module mods k;
        off ← uadd (mm_base (md_memory md)) (r_offset r);
        e ← uadd off 8;
        target ← range mem off e;
        if r_ty r =? R_X86_64_NONE then Ok (mem, done)
        else
          v ← rela_value mods bin new_algorithm k r target;
          match v with
          | None => relocate_rela mods bin new_algorithm k (S i) cs mem done
          | Some (how, v) =>
              relocate_rela mods bin new_algorithm k (S i) cs (overwrite mem off (le_bytes 8 v)) (<[i := Some how]> done)
          end
  end.

(** The loop of [relocate_plt] from relocation [i] of [count] on. *)
Fixpoint relocate_plt (mods : list Module) (bin : Binaries) (new_algorithm : bool) (k : nat) (count i : nat)
    (cs : list (list Z)) (mem : list Z) (done : list (option Relocated))
    : outcome RelocateError (list Z * list (option Relocated)) :=
  match cs with
  | [] => Ok (mem, done)
  | c :: cs =>
      r ← reloc_next c;
      d ← unwrap_or_panic PIndex (done !! (count + i)%nat);
      if (d : option Relocated) is Some _ then relocate_plt mods bin new_algorithm k count (S i) cs mem done
      else
        md ← the_module mods k;
        fail_if (negb (r_ty r =? R_X86_64_JUMP_SLOT)) (UnsupportedPlt (md_path md) (r_ty r));;
        s ← map_err (fun _ => Loops) (resolve_with_local mods bin new_algorithm k (r_symbol r) UNK1);
        match s with
        | None => relocate_plt mods bin new_algorithm k count (S i) cs mem done
        | Some (m, j) =>
            '(how, v) ← get_relocated mods m j;
            off ← uadd (mm_base (md_memory md)) (r_offset r);
            e ← uadd off 8;
            range mem off e;;
            relocate_plt mods bin new_algorithm k count (S i) cs
              (overwrite mem off (le_bytes 8 (wrapping_add_signed v (r_addend r)))) (<[(count + i)%nat := Some how]> done)
        end
  end.

Definition relocate_single (bin : Binaries) (new_algorithm : bool) (st : list Module * VmSpace.t) (k : nat)
    : outcome RelocateError (list Module * VmSpace.t) :=
  let '(mods, vm) := st in
  md ← the_module mods k;
  '(m, done, vm) ← with_memory H (md_memory md) (UnprotectFailed (md_path md))
    (fun mem =>
       info ← unwrap_or_panic PUnwrap (md_file_info md);
       cs ← relocs info;
       '(mem, done) ← relocate_rela mods bin new_algorithm k 0 cs mem (md_relocated md);
       if contains (md_flags md) JMPSLOTS_DONE then Ok (mem, done)
       else
         cs ← plt_relocs info;
         relocate_plt mods bin new_algorithm k (Z.to_nat (reloc_count info)) 0 cs mem done) vm;
  Ok (<[k := set_relocated m done md]> mods, vm).

Definition relocate (bin : Binaries) (new_algorithm : bool) (k : nat) (mods : list Module) (vm : VmSpace.t)
    : outcome RelocateError (list Module * VmSpace.t) :=
  st ← relocate_single bin new_algorithm (mods, vm) k;
  foldM (relocate_single bin new_algorithm) st (filter (fun j => j <> k) (b_list bin)).

(** ** Loading *)

Definition init_dag {E} (mods : list Module) (k : nat) : outcome E (list Module) :=
  md ← the_module mods k;
  if intersects (md_flags md) DAG_INITED then Ok mods
  else
    let md := set_runtime (md_tls_offset md) (md_dag_static md ++ [k]) (md_dag_dynamic md ++ [k]) (md_memory md)
                (md_relocated md) (md_ref_count md) md in
    Ok (<[k := set_md_flags (Z.lor (md_flags md) DAG_INITED) md]> mods).

Section files.
Context {I : Type} {HI : Image I} {OE SE : Type}.
(** [Fs::open] and [NativeEngine::setup_module]. *)
Variable fs_open : str -> OE + I.
Variable setup_module : Module -> VmSpace.t -> outcome SE (Module * VmSpace.t).
(** What [mmap] asks of the current thread. *)
Variable td : option Z.

Inductive ExecError :=
  | OpenExeFailed (e : OE) | ReadExeFailed (e : OpenError) | InvalidExe | MapFailed (e : MapError) | SetupFailed (e : SE).
Inductive LoadError :=
  | NoExe | OpenFileFailed (e : OE) | OpenElfFailed (e : OpenError) | InvalidElf | LMapFailed (e : MapError)
  | ImpureText | LSetupFailed (e : SE).
Definition load_errno (e : LoadError) : Z :=
  match e with
  | NoExe => EPERM
  | OpenFileFailed _ => ENOENT
  | OpenElfFailed _ | InvalidElf | LMapFailed _ | LSetupFailed _ => ENOEXEC
  | ImpureText => EINVAL
  end.

(** Whether the application needs a sanitizer. *)
Definition sanitizer_flags (modules : list ModuleInfo) : Z :=
  foldl (fun f m =>
           if bool_decide (mi_name m = bytes_of "libSceDbgUndefinedBehaviorSanitizer") then Z.lor f HAS_UBSAN
           else if bool_decide (mi_name m = bytes_of "libSceDbgAddressSanitizer") then Z.lor f HAS_ASAN
           else f) 0 modules.

(** The result is the module of the application. *)
Definition exec (path : str) (ld : Linker) (p : Proc) : outcome ExecError (nat * Linker * Proc) :=
  img ← match fs_open path with inl e => Err (OpenExeFailed e) | inr i => Ok i end;
  let '(img, r) := open path img in
  elf ← map_err ReadExeFailed r;
  match e_ty elf with
  | ET_EXEC | ET_SCE_EXEC | ET_SCE_REPLAY_EXEC => panic_if (bool_decide (info elf = None)) PTodo
  | ET_SCE_DYNEXEC => fail_if (bool_decide (dynamic elf = None)) InvalidExe
  | _ => Err InvalidExe
  end;;
  let base := if e_ty elf is ET_SCE_DYNEXEC then 0x400000 else 0 in
  '(app, vm) ← map_err MapFailed (module_map H td elf img base (bytes_of "executable") 0 [] 1 (p_vm p));
  let app := set_md_flags (Z.lor (md_flags app) MAINPROG) app in
  '(app, vm) ← map_err SetupFailed (setup_module app vm);
  let flags := sanitizer_flags (d_modules (md_digest app)) in
  panic_if (bool_decide (is_Some (p_bin p))) PTodo;;
  let k := length (p_mods p) in
  Ok (k, MkLinker (ld_tls ld) flags,
      MkProc (p_mods p ++ [app]) (Some (binaries_new k)) vm (p_objects p) (p_big_app p)).

(** The modules that are in [l], with their places. *)
Definition modules_of {E} (mods : list Module) (l : list nat) : outcome E (list (nat * Module)) :=
  foldM (fun r k => md ← the_module mods k; Ok (r ++ [(k, md)])) [] l.

(** [file_name().unwrap()]. *)
Definition the_file_name {E} (path : str) : outcome E str :=
  match VPath.file_name path with
  | Ok (Some n) => Ok n
  | Panic p => Panic p
  | _ => Panic PUnwrap
  end.

(** Maps the module with number [id]: the closure of [load]. *)
Definition create_module (path name : str) (elf : Elf) (img : I) (tls id : Z) (vm : VmSpace.t)
    : outcome LoadError (Module * VmSpace.t) :=
  panic_if (2 ^ 32 <=? id + 1) PUnwrap;;
  '(md, vm) ← map_err LMapFailed (module_map H td elf img 0 name (id + 1) [name] tls vm);
  fail_if (contains (md_flags md) TEXT_REL) ImpureText;;
  let md := if bool_decide (name = bytes_of "libc.sprx") || bool_decide (name = bytes_of "libSceFios2.sprx")
            then md else set_md_flags (Z.lor (md_flags md) IS_SYSTEM) md in
  map_err LSetupFailed (setup_module md vm).

(** [load] up to the search of an index: a module that is loaded already, or
    the image with its place in the process. *)
Definition load_open (path : str) (force : bool) (ld : Linker) (p : Proc)
    : outcome LoadError (nat * Proc + Binaries * list (nat * Module) * str * Elf * I) :=
  bin ← ok_or NoExe (p_bin p);
  l ← modules_of (p_mods p) (b_list bin);
  match List.find (fun km => bool_decide (md_path (snd km) = path)) (drop 1 l) with
  | Some (k, md) =>
      panic_if (2 ^ 32 <=? md_ref_count md + 1) POverflow;;
      let md := set_runtime (md_tls_offset md) (md_dag_static md) (md_dag_dynamic md) (md_memory md) (md_relocated md)
                  (md_ref_count md + 1) md in
      Ok (inl (k, MkProc (<[k := md]> (p_mods p)) (p_bin p) (p_vm p) (p_objects p) (p_big_app p)))
  | None =>
      name ← the_file_name path;
      match (if force then None else List.find (fun km => bool_decide (name ∈ d_names (md_digest (snd km)))) (drop 1 l)) with
      | Some (k, _) => Ok (inl (k, p))
      | None =>
          app ← the_module (p_mods p) (b_app bin);
          the_file_name (md_path app);;
          panic_if (intersects (ld_flags ld) HAS_ASAN) PTodo;;
          img ← match fs_open path with inl e => Err (OpenFileFailed e) | inr i => Ok i end;
          let '(img, r) := open path img in
          elf ← map_err OpenElfFailed r;
          (if e_ty elf is ET_SCE_DYNAMIC then Ok tt else Err InvalidElf);;
          Ok (inr (bin, l, name, elf, img))
      end
  end.
(** The rest of [load] with the index of the module. *)
Definition load_map (path : str) (main : bool) (bin : Binaries) (name : str) (elf : Elf) (img : I) (tls : Z) (p : Proc)
    : outcome LoadError (nat * Proc) :=
  let k := length (p_mods p) in
  '(objects, id) ← FileDesc.try_alloc_with
    (fun id => create_module path name elf img tls id (p_vm p);; Ok (FileDesc.MkEntry None k 0x2000)) (p_objects p);
  '(md, vm) ← create_module path name elf img tls id (p_vm p);
  Ok (k, MkProc (p_mods p ++ [md]) (Some (binaries_push k main bin)) vm objects (p_big_app p)).
(** [load]: the largest index is kept even if the module cannot be mapped; the
    memory of such a module is given back when it is dropped. *)
Definition load (path : str) (force main : bool) (ld : Linker) (p : Proc) : Linker * outcome LoadError (nat * Proc) :=
  match load_open path force ld p with
  | Err e => (ld, Err e)
  | Panic q => (ld, Panic q)
  | Ok (inl r) => (ld, Ok r)
  | Ok (inr (bin, l, name, elf, img)) =>
      match the_program elf (tls elf) with
      | Err e => (ld, Err e)
      | Panic q => (ld, Panic q)
      | Ok prog =>
          let '(tls, alloc) :=
            if (if prog is Some q then memory_size q else 0) =? 0 then (0, ld_tls ld)
            else tls_alloc (List.map (fun km => md_tls_index (snd km)) l) (ld_tls ld) in
          (MkLinker alloc (ld_flags ld), load_map path main bin name elf img tls p)
      end
  end.

(** ** System calls *)

(** The errors of the calls are numbers. *)
Definition sys_err (e : VmSpace.SysErr) : Z := VmSpace.errno e.
Definition relocate_errno {A} (m : outcome RelocateError A) : outcome (hang + Z) A :=
  match m with
  | Ok a => Ok a
  | Err (UnprotectFailed _ _) => Panic PTodo
  | Err (UnsupportedRela _ _) => Err (inr ENOEXEC)
  | Err (UnsupportedPlt _ _) => Err (inr EINVAL)
  | Err Loops => Err (inl Hang)
  | Panic p => Panic p
  end.

(** The process must have been dynamically linked. *)
Definition dynamic_app (err : Z) (p : Proc) : outcome (hang + Z) (Binaries * Module) :=
  bin ← ok_or (inr err) (p_bin p);
  app ← the_module (p_mods p) (b_app bin);
  fail_if (bool_decide (md_file_info app = None)) (inr err);;
  Ok (bin, app).
(** [bin.list().find(|m| m.id() == handle)]. *)
Definition by_handle (handle : Z) (bin : Binaries) (p : Proc) : outcome (hang + Z) (nat * Module) :=
  l ← modules_of (p_mods p) (b_list bin);
  ok_or (inr ESRCH) (List.find (fun km => md_id (snd km) =? handle) l).
Definition new_algorithm (app : Module) (ld : Linker) : bool :=
  (0x5000000 <=? md_sdk_ver app) || contains (ld_flags ld) HAS_ASAN.

(** SHA-1, and [get_nid]. *)
Variable sha1 : list Z -> list Z.
Definition NID_SALT : list Z :=
  [0x51; 0x8d; 0x64; 0xa6; 0x35; 0xde; 0xd8; 0xc1; 0xe6; 0xb0; 0x39; 0xb1; 0xc3; 0xe5; 0x52; 0x30].
Definition nid_char (i : Z) : Z := default 0 (ID_CHARS !! Z.to_nat i).
Definition get_nid (name : str) : str :=
  let hash := le_value (take 8 (sha1 (name ++ NID_SALT))) in
  ((fun s => nid_char (Z.land (Z.shiftr hash s) 0x3f)) <$> [58; 52; 46; 40; 34; 28; 22; 16; 10; 4])
  ++ [nid_char (Z.land hash 0xf * 4)].

Definition resolve_symbol (k : nat) (name : str) (flags : Z) (bin : Binaries) (ld : Linker) (p : Proc)
    : outcome (hang + Z) (option Z) :=
  md ← the_module (p_mods p) k;
  let mname := mi_name <$> find_module md 0 in
  let '(lib, mname, name) :=
    if intersects flags UNK1 then (None, None, name) else (mname, mname, get_nid name) in
  panic_if (intersects (md_flags md) MAINPROG) PTodo;;
  h ← hash (Some name) lib mname;
  s ← map_err inl (resolve_from_list (p_mods p) (Some name) None mname lib h
                     (Z.lor (Z.lor flags UNK3) UNK4) (md_dag_static md));
  match s with
  | None => Ok None
  | Some (m, i) =>
      md ← the_module (p_mods p) m;
      sym ← unwrap_or_panic PUnwrap (md_symbols md !! i);
      a ← uadd (mm_ptr (md_memory md)) (mm_base (md_memory md));
      a ← uadd a (value sym);
      Ok (Some a)
  end.

(** [mem] is the memory of the process; the result is what is written. *)
Definition sys_dynlib_dlsym (mem : Z -> Z) (a0 a1 : Z) (ld : Linker) (p : Proc) : outcome (hang + Z) Z :=
  '(bin, _) ← dynamic_app EPERM p;
  handle ← VmSpace.arg_u32 a0;
  name ← map_err (inr ∘ sys_err) (VmSpace.to_str mem a1 2560);
  name ← unwrap_or_panic PUnwrap name;
  '(k, _) ← by_handle handle bin p;
  let flags := if bool_decide (name = bytes_of "BaOKcng8g88") || bool_decide (name = bytes_of "KpDMrPHvt3Q")
               then UNK1 else 0 in
  r ← resolve_symbol k name flags bin ld p;
  ok_or (inr ESRCH) r.

Definition sys_dynlib_get_list (max : Z) (p : Proc) : outcome (hang + Z) (list Z * Z) :=
  '(bin, _) ← dynamic_app EPERM p;
  let len := Z.of_nat (length (b_list bin)) in
  fail_if (max <? len) (inr ENOMEM);;
  l ← modules_of (p_mods p) (b_list bin);
  Ok (List.map (fun km => md_id (snd km)) l, len).

Record SegmentInfo := MkSegInfo { si_addr : Z; si_size : Z; si_prot : Z }.
Definition no_segment : SegmentInfo := MkSegInfo 0 0 0.
Record DynlibInfo := MkDynlibInfo {
  di_size : Z; di_name : list Z; di_text : SegmentInfo; di_data : SegmentInfo; di_relro : SegmentInfo;
  di_unk : SegmentInfo; di_segment_count : Z; di_fingerprint : list Z
}.
(** A length as [u32]. *)
Definition u32_len {E} (s : MemorySegment) : outcome E Z :=
  panic_if (2 ^ 32 <=? ms_len s) PUnwrap;; Ok (ms_len s).
(** The array for a name. *)
Definition name_array {E} (path : str) : outcome E (list Z) :=
  name ← the_file_name path;
  panic_if (256 <? length name)%nat PIndex;;
  Ok (<[255%nat := 0]> (name ++ replicate (256 - length name) 0)).

Definition dynlib_get_info (handle : Z) (no_system : bool) (bin : Binaries) (p : Proc) : outcome (hang + Z) DynlibInfo :=
  '(_, md) ← by_handle handle bin p;
  fail_if (no_system && intersects (md_flags md) IS_SYSTEM) (inr EPERM);;
  name ← name_array (md_path md);
  let m := md_memory md in
  ts ← text_segment m;
  tn ← u32_len ts;
  ds ← data_segment m;
  da ← uadd (mm_ptr m) (ms_start ds);
  dn ← u32_len ds;
  rs ← relro_segment m;
  '(relro, count) ←
    match rs with
    | None => Ok (no_segment, 2)
    | Some s => a ← uadd (mm_ptr m) (ms_start s); n ← u32_len s; Ok (MkSegInfo a n 1, 3)
    end;
  Ok (MkDynlibInfo 0 name (MkSegInfo (mm_base m) tn 5) (MkSegInfo da dn 3) relro no_segment count
        (d_fingerprint (md_digest md))).
(** [size] is the field that the process sets. *)
Definition sys_dynlib_get_info (a0 size : Z) (p : Proc) : outcome (hang + Z) DynlibInfo :=
  handle ← VmSpace.arg_u32 a0;
  '(bin, _) ← dynamic_app EPERM p;
  fail_if (negb (size =? 0x160)) (inr EINVAL);;
  dynlib_get_info handle true bin p.

Definition sys_dynlib_do_copy_relocations (p : Proc) : outcome (hang + Z) unit :=
  '(_, app) ← dynamic_app EPERM p;
  info ← ok_or (inr EPERM) (md_file_info app);
  cs ← relocs info;
  (fix any (cs : list (list Z)) : outcome (hang + Z) unit :=
     match cs with
     | [] => Ok tt
     | c :: cs => r ← reloc_next c; if r_ty r =? R_X86_64_COPY then Err (inr EINVAL) else any cs
     end) cs.

Definition sys_dynlib_get_proc_param (p : Proc) : outcome (hang + Z) (Z * Z) :=
  '(_, app) ← dynamic_app EPERM p;
  '(off, size) ← unwrap_or_panic PTodo (md_proc_param app);
  a ← uadd (mm_ptr (md_memory app)) off;
  Ok (a, size).

Definition sys_dynlib_process_needed_and_relocate (ld : Linker) (p : Proc) : outcome (hang + Z) (Linker * Proc) :=
  '(bin, _) ← dynamic_app EINVAL p;
  mods ← foldM init_dag (p_mods p) (b_list bin);
  '(tls, mods) ← foldM init_tls (ld_tls ld, mods) (b_mains bin);
  app ← the_module mods (b_app bin);
  '(mods, vm) ← relocate_errno (relocate bin (new_algorithm app ld) (b_app bin) mods (p_vm p));
  Ok (MkLinker tls (ld_flags ld), MkProc mods (p_bin p) vm (p_objects p) (p_big_app p)).

Record DynlibInfoEx := MkDynlibInfoEx {
  dx_name : list Z; dx_handle : Z; dx_tlsindex : Z; dx_tlsinit : Z; dx_tlsinitsize : Z; dx_tlssize : Z;
  dx_tlsoffset : Z; dx_tlsalign : Z; dx_init : Z; dx_fini : Z; dx_eh_frame_hdr : Z; dx_eh_frame : Z;
  dx_eh_frame_hdr_size : Z; dx_eh_frame_size : Z; dx_text : SegmentInfo; dx_data : SegmentInfo;
  dx_segment_count : Z; dx_refcount : Z
}.
(** [try_into().unwrap()] to [u32]. *)
Definition as_u32 {E} (v : Z) : outcome E Z := panic_if (2 ^ 32 <=? v) PUnwrap;; Ok v.
(** [map(|v| addr + v).unwrap_or(0)]. *)
Definition addr_or_zero {E} (a : Z) (o : option Z) : outcome E Z := if o is Some v then uadd a v else Ok 0.

Definition sys_dynlib_get_info_ex (a0 a1 size : Z) (p : Proc) : outcome (hang + Z) DynlibInfoEx :=
  handle ← VmSpace.arg_u32 a0;
  flags ← VmSpace.arg_u32 a1;
  '(bin, _) ← dynamic_app EPERM p;
  fail_if (negb (size =? 0x1a8)) (inr EINVAL);;
  '(_, md) ← by_handle handle bin p;
  let m := md_memory md in
  let a := mm_ptr m in
  ta ← uadd a (mm_base m);
  ts ← text_segment m;
  tn ← u32_len ts;
  ds ← data_segment m;
  da ← uadd a (ms_start ds);
  dn ← u32_len ds;
  name ← (if (Z.land flags 2 =? 0) || negb (contains (md_flags md) IS_SYSTEM) then name_array (md_path md)
          else Ok (replicate 256 0));
  let tlsindex :=
    if negb (Z.land flags 1 =? 0) then
      let upper := if contains (md_flags md) IS_SYSTEM then 1 else 0 in
      let upper := if contains (md_flags md) MAINPROG then upper + 2 else upper in
      Z.lor (Z.shiftl upper 16) (Z.land (md_tls_index md) 0xffff)
    else Z.land (md_tls_index md) 0xffff in
  '(tlsinit, tlsinitsize, tlssize, tlsalign) ←
    match md_tls_info md with
    | Some t =>
        i ← uadd a (t_init t);
        s ← as_u32 (t_init_size t);
        z ← as_u32 (t_size t);
        l ← as_u32 (t_align t);
        Ok (i, s, z, l)
    | None => Ok (a, 0, 0, 0)
    end;
  tlsoffset ← as_u32 (md_tls_offset md);
  '(init, fini) ←
    (if contains (md_flags md) NOT_GET_PROC then Ok (0, 0)
     else i ← addr_or_zero a (d_init (md_digest md)); f ← addr_or_zero a (d_fini (md_digest md)); Ok (i, f));
  '(hdr, hdr_size, frame, frame_size) ←
    match md_eh_info md with
    | Some e =>
        h ← uadd a (eh_header e);
        hs ← as_u32 (eh_header_size e);
        f ← uadd a (eh_frame e);
        fs ← as_u32 (eh_frame_size e);
        Ok (h, hs, f, fs)
    | None => Ok (a, 0, 0, 0)
    end;
  Ok (MkDynlibInfoEx name (md_id md) tlsindex tlsinit tlsinitsize tlssize tlsoffset tlsalign init fini hdr frame
        hdr_size frame_size (MkSegInfo ta tn 5) (MkSegInfo da dn 3) 2 (md_ref_count md)).

Definition sys_dynlib_get_obj_member (a0 a1 : Z) (p : Proc) : outcome (hang + Z) Z :=
  handle ← VmSpace.arg_u32 a0;
  panic_if (2 ^ 8 <=? a1) PUnwrap;;
  '(bin, _) ← dynamic_app EINVAL p;
  '(_, md) ← by_handle handle bin p;
  if ((1 <=? a1) && (a1 <=? 4)) || (a1 =? 7) then Panic PTodo
  else if a1 =? 8 then
    param ← unwrap_or_panic PUnwrap (md_mod_param md);
    uadd (mm_ptr (md_memory md)) param
  else Err (inr EINVAL).

(** [sys_dynlib_load_prx]: the number of the module. *)
Definition load_prx_args (mem : Z -> Z) (a0 a1 : Z) (p : Proc) : outcome (hang + Z) (Z * str) :=
  flags ← VmSpace.arg_u32 a1;
  fail_if (negb (Z.land flags 0xfff8ffff =? 0)) (inr EINVAL);;
  name ← map_err (inr ∘ sys_err) (VmSpace.to_str mem a0 1024);
  name ← unwrap_or_panic PUnwrap name;
  name ← unwrap_or_panic PTodo (VPath.vpath_new name);
  Ok (if p_big_app p then Z.lor flags 0x01 else flags, name).
Definition load_prx_start (flags : Z) (k : nat) (ld : Linker) (p : Proc) : outcome (hang + Z) (Z * Proc) :=
  bin ← unwrap_or_panic PUnreachable (p_bin p);
  let bin := if bool_decide (k ∈ b_globals bin) then bin else binaries_push_global k bin in
  md ← the_module (p_mods p) k;
  '(mods, vm) ←
    (if intersects (md_flags md) DAG_INITED then Ok (p_mods p, p_vm p)
     else
       let v1 := md_flags md in
       let v2 := if Z.land flags 0x20000 =? 0 then Z.land v1 0xf7ff else Z.lor v1 0x800 in
       let v1 := if Z.land flags 0x40000 =? 0 then Z.land v2 0xefff else Z.lor v2 0x1000 in
       mods ← init_dag (<[k := set_md_flags v1 md]> (p_mods p)) k;
       app ← the_module mods (b_app bin);
       match relocate bin (new_algorithm app ld) k mods (p_vm p) with
       | Ok r => Ok r
       | Err Loops => Err (inl Hang)
       | Err _ => Panic PTodo
       | Panic q => Panic q
       end);
  Ok (md_id md, MkProc mods (Some bin) vm (p_objects p) (p_big_app p)).
Definition sys_dynlib_load_prx (mem : Z -> Z) (a0 a1 : Z) (ld : Linker) (p : Proc)
    : Linker * outcome (hang + Z) (Z * Proc) :=
  match load_prx_args mem a0 a1 p with
  | Err e => (ld, Err e)
  | Panic q => (ld, Panic q)
  | Ok (flags, name) =>
      let '(ld, r) := load name true false ld p in
      (ld, '(k, p) ← map_err (inr ∘ load_errno) r; load_prx_start flags k ld p)
  end.
End files.
End engine.
End Rtld.
