(* ===== verification/ResolverProps.v ===== *)
(** * Properties of the resolver of symbols *)
From S2P Require Import Prelude Env Kernel VmSpace Orbis Module Resolver.
Import Env Orbis Module_ Resolver.
Local Open Scope list_scope.

(** ** Chains *)

Section chain.
Context (syms : list Symbol) (chains : list Z) (test : Symbol -> bool).











(** *** Cycles *)

End chain.




(** ** Hashes *)

(** Bits 28 to 31 are clear, which is what a round leaves. *)
Definition folded (h : Z) : Prop := 0 <= h < 2 ^ 64 /\ Z.land h 0xf0000000 = 0.

Lemma nibble_bit i : 0 <= i -> Z.testbit 0xf0000000 i = (28 <=? i) && (i <? 32).
Proof.
  intros Hi. change 0xf0000000 with (Z.shiftl (Z.ones 4) 28). rewrite Z.shiftl_spec by done.
  destruct (Z.leb_spec 28 i); cbn [andb]; [|by rewrite Z.testbit_neg_r by lia].
  rewrite Z.testbit_ones by lia. rewrite (proj2 (Z.leb_le 0 (i - 28))) by lia. cbn [andb].
  destruct (Z.ltb_spec (i - 28) 4), (Z.ltb_spec i 32); lia || done.
Qed.

Lemma bits_bound x n : 0 <= x -> 0 <= n -> (forall i, n <= i -> Z.testbit x i = false) -> x < 2 ^ n.
Proof.
  intros Hx Hn Hb. assert (x = x mod 2 ^ n) as ->; [|apply Z.mod_pos_bound, Z.pow_pos_nonneg; lia].
  apply Z.bits_inj'. intros i Hi. destruct (Z.lt_ge_cases i n).
  - by rewrite Z.mod_pow2_bits_low.
  - rewrite Z.mod_pow2_bits_high by lia. by apply Hb.
Qed.
Lemma high_bit x n i : 0 <= x < 2 ^ n -> n <= i -> Z.testbit x i = false.
Proof.
  intros Hx Hi. destruct (Z.lt_ge_cases n 0); [rewrite Z.pow_neg_r in Hx by lia; lia|].
  rewrite <-(Z.mod_small x (2 ^ n)) by done. by apply Z.mod_pow2_bits_high.
Qed.

(** The sum of a round does not overflow. *)
Lemma folded_sum h b : folded h -> 0 <= b < 256 -> b + Z.shiftl h 4 mod 2 ^ 64 < 2 ^ 64.
Proof.
  intros [Hh Hl] Hb. rewrite Z.shiftl_mul_pow2 by lia.
  change 0xf0000000 with (Z.shiftl (Z.ones 4) 28) in Hl. rewrite land_field in Hl by lia.
  assert ((h / 2 ^ 28) mod 2 ^ 4 = 0) as Hn by lia. clear Hl.
  change (2 ^ 64) with (2 ^ 60 * 2 ^ 4) at 1. rewrite Z.mul_mod_distr_r by done.
  pose proof (Z.div_mod h (2 ^ 28) ltac:(done)). pose proof (Z.mod_pos_bound h (2 ^ 28) ltac:(done)).
  pose proof (Z.div_mod (h / 2 ^ 28) (2 ^ 4) ltac:(done)).
  pose proof (Z.div_mod (h / 2 ^ 28 / 2 ^ 4) (2 ^ 28) ltac:(done)).
  pose proof (Z.mod_pos_bound (h / 2 ^ 28 / 2 ^ 4) (2 ^ 28) ltac:(done)).
  assert (h mod 2 ^ 60 = (h / 2 ^ 28 / 2 ^ 4) mod 2 ^ 28 * 2 ^ 32 + h mod 2 ^ 28) as ->; [|lia].
  symmetry. apply (Z.mod_unique _ _ (h / 2 ^ 28 / 2 ^ 4 / 2 ^ 28)); lia.
Qed.

Lemma hash_byte_Ok {E} h b : folded h -> 0 <= b < 256 -> exists h', @hash_byte E h b = Ok h' /\ folded h'.
Proof.
  intros Hf Hb. pose proof (folded_sum h b Hf Hb) as Hs. unfold hash_byte, uadd.
  rewrite (proj2 (Z.ltb_lt _ _)) by done. cbn [mbind outcome_bind]. eexists. split; [done|].
  set (t := b + Z.shiftl h 4 mod 2 ^ 64) in *.
  assert (0 <= t < 2 ^ 64) as Ht by (pose proof (Z.mod_pos_bound (Z.shiftl h 4) (2 ^ 64) ltac:(done)); lia).
  clearbody t. clear -Ht. set (g := Z.land t 0xf0000000).
  assert (0 <= g) as Hg by (apply Z.land_nonneg; lia).
  assert (0 <= Z.ldiff (Z.lxor (Z.shiftr g 24) t) g) as H0.
  { apply Z.ldiff_nonneg. left. apply Z.lxor_nonneg. rewrite Z.shiftr_nonneg. lia. }
  split; [split; [done|]|].
  - apply bits_bound; [done|done|]. intros i Hi. rewrite Z.ldiff_spec, Z.lxor_spec, Z.shiftr_spec by lia.
    unfold g. rewrite !Z.land_spec, (high_bit t 64 i Ht Hi), (high_bit t 64 (i + 24) Ht) by lia. done.
  - apply Z.bits_inj'. intros i Hi. rewrite Z.bits_0, Z.land_spec, nibble_bit by done.
    rewrite Z.ldiff_spec, Z.lxor_spec, Z.shiftr_spec by lia. unfold g. rewrite !Z.land_spec, !nibble_bit by lia.
    destruct (Z.leb_spec 28 i), (Z.ltb_spec i 32); cbn [andb]; rewrite ?andb_false_r; try done.
    rewrite (proj2 (Z.ltb_ge (i + 24) 32)) by lia. rewrite andb_false_r, andb_false_r, andb_true_r.
    by destruct (Z.testbit t i).
Qed.

Lemma hash_fold_Ok {E} h v : folded h -> Forall is_byte v -> exists h', foldM (@hash_byte E) h v = Ok h' /\ folded h'.
Proof.
  intros Hh Hv. revert h Hh. induction Hv as [|b v Hb Hv IH]; intros h Hh; cbn [foldM]; [by eexists|].
  destruct (@hash_byte_Ok E h b Hh Hb) as (h1 & -> & H1). cbn [mbind outcome_bind]. by apply IH.
Qed.

(** [hash_until] hashes the bytes up to and with the first [#]. *)
Lemma hash_until_free {E} h v :
  HASH ∉ v -> @hash_until E h v = (h ← foldM hash_byte h v; Ok (h, false)).
Proof.
  revert h. induction v as [|b v IH]; intros h Hv; cbn [hash_until foldM]; [done|].
  apply not_elem_of_cons in Hv as [Hb Hv]. destruct (hash_byte h b) as [h1|e|p]; cbn [mbind outcome_bind]; [|done|done].
  rewrite (proj2 (Z.eqb_neq b HASH)) by congruence. by apply IH.
Qed.
Lemma hash_until_hash {E} h v w :
  HASH ∉ v -> @hash_until E h (v ++ HASH :: w) = (h ← foldM hash_byte h (v ++ [HASH]); Ok (h, true)).
Proof.
  revert h. induction v as [|b v IH]; intros h Hv; cbn [hash_until foldM app].
  - destruct (hash_byte h HASH) as [h1|e|p]; done.
  - apply not_elem_of_cons in Hv as [Hb Hv]. destruct (hash_byte h b) as [h1|e|p]; cbn [mbind outcome_bind]; [|done|done].
    rewrite (proj2 (Z.eqb_neq b HASH)) by congruence. by apply IH.
Qed.

(** The two ways to hash a symbol agree.  The old algorithm hashes the
    name with the names of its library and its module, and the new one passes
    the three to [hash]: the results are equal for every name, with or
    without the encoded identifiers after a [#].  No overflow check of the
    function fails.  The hash can have more than 32 bits, though, and only
    the old algorithm reduces it to 32 before it selects a bucket: there is a
    name of the usual form for which the two look into different buckets. *)
Theorem hash_agrees n rest l m :
  HASH ∉ n -> HASH ∉ l -> HASH ∉ m -> Forall is_byte n -> Forall is_byte l -> Forall is_byte m ->
  exists h, @hash_legacy hang (n ++ [HASH] ++ l ++ [HASH] ++ m) = Ok h /\ folded h
    /\ @hash hang (Some (n ++ HASH :: rest)) (Some l) (Some m) = Ok h
    /\ @hash hang (Some n) (Some l) (Some m) = Ok h
    /\ exists name h', @hash hang (Some (bytes_of name)) (Some (bytes_of "libc")) (Some (bytes_of "libc")) = Ok h'
         /\ forall b, @bucket hang (seqZ 0 7) h' = Ok b -> @bucket hang (seqZ 0 7) (Z.land h' 0xffffffff) <> Ok b.
Proof.
  intros Hn Hl Hm Bn Bl Bm.
  destruct (@hash_fold_Ok hang 0 (n ++ [HASH] ++ l ++ [HASH] ++ m)) as (h & Hh & Hf).
  { done. }
  { assert (is_byte HASH) by done. repeat (apply Forall_app; split); try done; by repeat constructor. }
  exists h. split; [done|]. split; [done|].
  assert (forall h0, (h ← foldM (@hash_byte hang) h0 l;
             h ← hash_byte h HASH; '(h, _) ← hash_until h m; Ok h) = foldM hash_byte h0 (l ++ [HASH] ++ m)) as Htail.
  { intros h0. rewrite foldM_app. destruct (foldM hash_byte h0 l) as [h1|e|p]; cbn [mbind outcome_bind app foldM]; [|done|done].
    destruct (hash_byte h1 HASH) as [h2|e|p]; cbn [mbind outcome_bind]; [|done|done]. rewrite hash_until_free by done.
    by destruct (foldM hash_byte h2 m). }
  assert (forall h0, ('(h, hit) ← @hash_until hang h0 l;
             h ← (if (hit : bool) then Ok h else hash_byte h HASH); '(h, _) ← hash_until h m; Ok h)
             = foldM hash_byte h0 (l ++ [HASH] ++ m)) as Hlib.
  { intros h0. rewrite <-Htail, hash_until_free by done. by destruct (foldM hash_byte h0 l). }
  split; [|split].
  - unfold hash. rewrite hash_until_hash by done. rewrite app_assoc, foldM_app in Hh.
    destruct (foldM hash_byte 0 (n ++ [HASH])) as [h1|e|p]; cbn [mbind outcome_bind negb] in *; [|done|done].
    rewrite Hlib. done.
  - unfold hash. rewrite hash_until_free by done. rewrite app_assoc, foldM_app, foldM_app in Hh.
    destruct (foldM hash_byte 0 n) as [h1|e|p]; cbn [mbind outcome_bind negb foldM] in *; [|done|done].
    destruct (hash_byte h1 HASH) as [h2|e|p]; cbn [mbind outcome_bind] in *; [|done|done]. rewrite Hlib. done.
  - exists "ltZmnLY27tz#B#B"%string. eexists. split; [vm_compute; reflexivity|]. vm_compute. congruence.
Qed.

Lemma hash_agrees_witness :
  exists h, @hash hang (Some (bytes_of "ltZmnLY27tz#B#B")) (Some (bytes_of "libc")) (Some (bytes_of "libc")) = Ok h
    /\ folded h.
Proof.
  assert (forall s : str, forallb (fun b => (0 <=? b) && (b <? 256)) s = true -> Forall is_byte s) as Hb.
  { intros s Hs. apply Forall_forall. intros b Hin. rewrite forallb_forall in Hs.
    specialize (Hs b (proj1 (list_elem_of_In _ _) Hin)). unfold is_byte. lia. }
  assert (forall s : str, bool_decide (HASH ∈ s) = false -> HASH ∉ s) as Hn.
  { intros s Hs. by apply bool_decide_eq_false in Hs. }
  destruct (hash_agrees (bytes_of "ltZmnLY27tz") (bytes_of "B#B") (bytes_of "libc") (bytes_of "libc")
              (Hn (bytes_of "ltZmnLY27tz") eq_refl) (Hn (bytes_of "libc") eq_refl) (Hn (bytes_of "libc") eq_refl)
              (Hb (bytes_of "ltZmnLY27tz") eq_refl) (Hb (bytes_of "libc") eq_refl) (Hb (bytes_of "libc") eq_refl)) as (h & _ & Hf & Hh & _).
  exists h. split; [exact Hh|exact Hf].
Defined.
