(* ===== verification/ModuleProps.v ===== *)
(** * Properties of the memory of modules *)
From stdpp Require Import sorting.
From S2P Require Import Prelude Env VPath Kernel VmSpace VmSpaceProps VmMapProps VmSpaceSpec Orbis OrbisProps Module.
Import Env Orbis Module_.
Local Open Scope list_scope.

(** ** Segments of programs *)

(** The programs that get a segment, and the segment. *)
Definition loaded (p : Program) : bool := mappable p && negb (memory_size p =? 0).
Definition segment_of (base : Z) (i : nat) (p : Program) : MemorySegment :=
  MkSeg (base + addr p) (round_up (memory_size p) 0x4000) (Some i) (segment_prot (flags p)).
Definition segments_of (base : Z) (progs : list Program) : list MemorySegment :=
  (fun ip => segment_of base ip.1 ip.2) <$> filter (fun ip => loaded ip.2 = true) (enumerate progs).

Definition is_text (p : Program) : bool := is_ty PT_LOAD p && executable p && negb (memory_size p =? 0).
Definition is_data (p : Program) : bool := is_ty PT_LOAD p && negb (executable p) && negb (memory_size p =? 0).
Definition is_relro (p : Program) : bool := is_ty PT_SCE_RELRO p && negb (memory_size p =? 0).

(** The index that a variable of [Memory::new] holds is that of the segment
    of a program of its kind, in the order of the file. *)
Definition indexed (base : Z) (progs : list Program) (segs : list MemorySegment) (kind : Program -> bool) (o : option nat)
    : Prop :=
  forall k, o = Some k -> exists i p, progs !! i = Some p /\ kind p = true /\ segs !! k = Some (segment_of base i p).

Record laid_out (base : Z) (progs : list Program) (la : layout) : Prop := {
  lo_segments : la_segments la = segments_of base progs;
  lo_aligned : Forall (fun s => page_aligned (ms_start s)) (la_segments la);
  lo_text : indexed base progs (la_segments la) is_text (la_text la);
  lo_data : indexed base progs (la_segments la) is_data (la_data la);
  lo_relro : indexed base progs (la_segments la) is_relro (la_relro la)
}.

Lemma segments_of_snoc base progs p :
  segments_of base (progs ++ [p])
  = segments_of base progs ++ (if loaded p then [segment_of base (length progs) p] else []).
Proof.
  unfold segments_of. rewrite enumerate_snoc, filter_app, fmap_app. f_equal.
  destruct (loaded p) eqn:Hl; [by rewrite filter_cons_True|]. rewrite filter_cons_False by (cbn; congruence). done.
Qed.

Lemma indexed_snoc base progs segs kind o p x :
  indexed base progs segs kind o -> indexed base (progs ++ [p]) (segs ++ x) kind o.
Proof.
  intros H k Hk. destruct (H k Hk) as (i & q & Hi & Hq & Hs). exists i, q.
  split; [by apply lookup_app_l_Some|]. split; [done|by apply lookup_app_l_Some].
Qed.
Lemma indexed_new base progs segs kind p :
  kind p = true -> indexed base (progs ++ [p]) (segs ++ [segment_of base (length progs) p]) kind (Some (length segs)).
Proof.
  intros Hk k [= <-]. exists (length progs), p. rewrite !list_lookup_middle by done. done.
Qed.

Lemma not_loaded base progs la p :
  loaded p = false -> laid_out base progs la -> laid_out base (progs ++ [p]) la.
Proof.
  intros Hp [H1 H2 H3 H4 H5]. constructor; [by rewrite segments_of_snoc, Hp, app_nil_r|done|..];
    rewrite <-(app_nil_r (la_segments la)); by apply indexed_snoc.
Qed.

(** The step that the three kinds share: the segment is appended. *)
Lemma push_segment base progs segs p n (text relro data : option nat) la' :
  0 <= base -> sized p -> loaded p = true -> segs = segments_of base progs ->
  Forall (fun s => page_aligned (ms_start s)) segs ->
  indexed base (progs ++ [p]) (segs ++ [segment_of base (length progs) p]) is_text text ->
  indexed base (progs ++ [p]) (segs ++ [segment_of base (length progs) p]) is_data data ->
  indexed base (progs ++ [p]) (segs ++ [segment_of base (length progs) p]) is_relro relro ->
  n = length progs ->
  (start ← uadd base (addr p);
   len ← aligned_size p;
   fail_if (negb (Z.land start 0x3fff =? 0)) (InvalidProgramAlignment n);;
   Ok (MkLayout (segs ++ [MkSeg start len (Some n) (segment_prot (flags p))]) text relro data)) = Ok la' ->
  laid_out base (progs ++ [p]) la'.
Proof.
  intros Hb [Ha Hm] Hl Hs Hal Ht Hd Hr -> H. apply bind_Ok in H as (st & Hst & H). apply uadd_Ok in Hst as [-> _].
  apply bind_Ok in H as (len & Hlen & H). unfold aligned_size in Hlen. apply align_page_Ok in Hlen as [_ ->]; [|done].
  apply bind_Ok in H as (u0 & Hu & H). apply fail_if_Ok, negb_false_iff, Z.eqb_eq in Hu. rewrite land_3fff in Hu.
  injection H as <-. fold (segment_of base (length progs) p). constructor; cbn [la_segments la_text la_data la_relro]; [|..|done|done|done].
  - by rewrite segments_of_snoc, Hl, Hs.
  - apply Forall_app. split; [done|]. constructor; [done|constructor].
Qed.

Lemma add_segment_Ok base progs la p la' :
  0 <= base -> sized p -> laid_out base progs la -> add_segment base la (length progs, p) = Ok la' ->
  laid_out base (progs ++ [p]) la'.
Proof.
  intros Hb Hp Hla H. destruct la as [segs text relro data]. unfold add_segment in H.
  destruct (memory_size p =? 0) eqn:Hm.
  { injection H as <-. apply not_loaded; [|done]. unfold loaded. by rewrite Hm, andb_false_r. }
  destruct (ty p) eqn:Ht;
    try (injection H as <-; apply not_loaded; [unfold loaded, mappable, is_ty; by rewrite Ht|done]).
  - destruct Hla as [H1 H2 H3 H4 H5]. cbn [la_segments la_text la_data la_relro] in *.
    destruct (contains (flags p) EXECUTE) eqn:He.
    all: apply bind_Ok in H as (r & Hr & H); apply bind_Ok in Hr as (u0 & _ & Hr); injection Hr as <-.
    all: eapply push_segment; [done|done| |done|done| | | |done|exact H];
      try (unfold loaded, mappable, is_ty; by rewrite Ht, Hm); try by apply indexed_snoc.
    all: apply indexed_new; unfold is_text, is_data, is_ty, executable; by rewrite Ht, Hm, He.
  - destruct Hla as [H1 H2 H3 H4 H5]. cbn [la_segments la_text la_data la_relro] in *.
    apply bind_Ok in H as (r & Hr & H); apply bind_Ok in Hr as (u0 & _ & Hr); injection Hr as <-.
    eapply push_segment; [done|done| |done|done| | | |done|exact H];
      try (unfold loaded, mappable, is_ty; by rewrite Ht, Hm); try by apply indexed_snoc.
    apply indexed_new. unfold is_relro, is_ty. by rewrite Ht, Hm.
Qed.

Lemma layout_Ok base progs la :
  0 <= base -> Forall sized progs -> foldM (add_segment base) (MkLayout [] None None None) (enumerate progs) = Ok la ->
  laid_out base progs la.
Proof.
  intros Hb Hs. revert la. induction progs as [|p progs IH] using rev_ind; intros la H.
  - injection H as <-. by constructor.
  - apply Forall_app in Hs as [Hs [Hp _]%Forall_cons]. rewrite enumerate_snoc, foldM_app in H.
    apply bind_Ok in H as (la1 & H1 & H). apply IH in H1; [|done]. cbn [foldM] in H.
    apply bind_Ok in H as (la2 & H2 & H). injection H as <-. by eapply add_segment_Ok.
Qed.

(** ** The order of the segments *)

(** Segments one after the other, from [b] to [e]. *)
Fixpoint in_order (b : Z) (l : list MemorySegment) (e : Z) : Prop :=
  match l with
  | [] => e = b
  | s :: l => b <= ms_start s /\ in_order (ms_start s + ms_len s) l e
  end.

Lemma place_in_order {E} b l e : foldM (@place E) b l = Ok e -> in_order b l e.
Proof.
  revert b. induction l as [|s l IH]; intros b H; cbn [foldM in_order] in *; [by injection H|].
  apply bind_Ok in H as (b1 & H1 & H). unfold place in H1. apply bind_Ok in H1 as (u0 & Hu & H1).
  apply panic_if_Ok, Z.ltb_ge in Hu. unfold ms_end in H1. apply uadd_Ok in H1 as [-> _]. split; [done|by apply IH].
Qed.

Lemma in_order_snoc b l e s : in_order b l e -> ms_start s = e -> in_order b (l ++ [s]) (e + ms_len s).
Proof.
  revert b. induction l as [|s0 l IH]; intros b H Hs; cbn in *; [subst; lia|]. destruct H as [H1 H2].
  split; [done|by apply IH].
Qed.

Lemma in_order_le b l e : Forall (fun s => 0 <= ms_len s) l -> in_order b l e -> b <= e.
Proof.
  intros Hl. revert b. induction Hl as [|s l Hs _ IH]; intros b H; cbn in H; [lia|]. destruct H as [H1 H2].
  apply IH in H2. lia.
Qed.

(** Two of them do not overlap, and all are between [b] and [e]. *)
Lemma in_order_inside b l e k s :
  Forall (fun s => 0 <= ms_len s) l -> in_order b l e -> l !! k = Some s -> b <= ms_start s /\ ms_start s + ms_len s <= e.
Proof.
  intros Hl. revert b k. induction Hl as [|s0 l Hs0 Hl IH]; intros b k H Hk; [done|]. cbn in H. destruct H as [H1 H2].
  destruct k as [|k]; cbn in Hk.
  - injection Hk as ->. split; [done|]. by eapply in_order_le.
  - destruct (IH _ _ H2 Hk). lia.
Qed.
Lemma in_order_apart b l e j k s s' :
  Forall (fun s => 0 <= ms_len s) l -> in_order b l e -> l !! j = Some s -> l !! k = Some s' -> (j < k)%nat ->
  ms_start s + ms_len s <= ms_start s'.
Proof.
  intros Hl. revert b j k. induction Hl as [|s0 l Hs0 Hl IH]; intros b j k H Hj Hk Hjk; [done|]. cbn in H.
  destruct H as [H1 H2], k as [|k]; [lia|]. destruct j as [|j]; cbn in Hj, Hk; [|by eapply (IH _ j k); [done..|lia]].
  injection Hj as ->. by destruct (in_order_inside _ _ _ _ _ Hl H2 Hk).
Qed.

Lemma page_aligned_add a b : page_aligned a -> page_aligned b -> page_aligned (a + b).
Proof. apply mult_add. Qed.

Definition aligned_segment (s : MemorySegment) : Prop :=
  page_aligned (ms_start s) /\ page_aligned (ms_len s) /\ 0 < ms_len s.

Lemma in_order_end b l e : Forall aligned_segment l -> l <> [] -> in_order b l e -> page_aligned e.
Proof.
  intros Hl Hn. revert b. induction Hl as [|s l (H1 & H2 & _) Hl IH]; intros b H; [done|]. cbn in H. destruct H as [_ H].
  destruct l as [|s' l]; [cbn in H; subst; by apply page_aligned_add|]. by eapply IH.
Qed.

Lemma segments_of_elem base progs s :
  s ∈ segments_of base progs <-> exists i p, progs !! i = Some p /\ loaded p = true /\ s = segment_of base i p.
Proof.
  unfold segments_of. rewrite list_elem_of_fmap. split.
  - intros ([i p] & -> & [Hl Hin]%list_elem_of_filter). apply list_elem_of_lookup in Hin as [j Hj].
    apply enumerate_lookup in Hj as [-> Hp]. by exists j, p.
  - intros (i & p & Hp & Hl & ->). exists (i, p). split; [done|]. apply list_elem_of_filter. split; [done|].
    apply list_elem_of_lookup. exists i. by apply enumerate_lookup.
Qed.

Lemma segment_len p : sized p -> loaded p = true -> 0 < round_up (memory_size p) 0x4000 /\ page_aligned (round_up (memory_size p) 0x4000).
Proof.
  intros [_ Hm] Hl. destruct (round_up_spec (memory_size p) 0x4000) as [Hr Ha]; [done|]. split; [|done].
  unfold loaded in Hl. apply andb_true_iff in Hl as [_ Hl]. apply negb_true_iff, Z.eqb_neq in Hl. lia.
Qed.

(** The two segments for the code and the data of the emulator. *)
Definition code_segment (start : Z) : MemorySegment := MkSeg start (1024 * 1024 * 4) None (Z.lor CPU_READ CPU_EXEC).
Definition heap_segment (start : Z) : MemorySegment := MkSeg start (1024 * 1024) None (Z.lor CPU_READ CPU_WRITE).

Section memory.
Context {H : VmSpace.Host}.

(** What [Memory::new] computes. *)
Lemma memory_new_Ok td progs base name vm m vm' :
  0 <= base -> Forall sized progs -> memory_new H td progs base name vm = Ok (m, vm') ->
  exists la e vm1 pages,
    laid_out base progs la /\ la_text la = Some (mm_text m) /\ la_data la = Some (mm_data m) /\ la_relro la = mm_relro m
    /\ in_order base (merge_sort start_le (la_segments la)) e
    /\ mm_segments m = merge_sort start_le (la_segments la) ++ [code_segment e; heap_segment (e + 0x400000)]
    /\ mm_len m = e + 0x500000 /\ mm_base m = base /\ mm_ptr m = VmSpace.ptr pages
    /\ mm_obcode m = length (la_segments la) /\ mm_obdata m = S (length (la_segments la))
    /\ mm_bytes m = replicate (Z.to_nat (mm_len m)) 0
    /\ VmSpace.mmap H td 0 (mm_len m) 0 name (Z.lor VmSpace.MAP_ANON VmSpace.MAP_PRIVATE) (-1) 0 vm = (vm1, Ok pages)
    /\ foldM (protect_segment H (VmSpace.ptr pages)) vm1 (mm_segments m) = Ok vm'.
Proof.
  intros Hb Hs Hm. unfold memory_new in Hm. apply bind_Ok in Hm as (la & Hla & Hm). apply layout_Ok in Hla; [|done|done].
  apply bind_Ok in Hm as (text & Ht & Hm). apply bind_Ok in Hm as (data & Hd & Hm).
  apply unwrap_or_panic_Ok in Ht, Hd. apply bind_Ok in Hm as (e & He & Hm). apply place_in_order in He.
  apply bind_Ok in Hm as (e1 & He1 & Hm). apply uadd_Ok in He1 as [-> _].
  apply bind_Ok in Hm as (e2 & He2 & Hm). apply uadd_Ok in He2 as [-> _].
  match goal with H : context [VmSpace.mmap ?a ?b ?c ?d ?e ?f ?g ?h ?i ?j] |- _ =>
    destruct (VmSpace.mmap a b c d e f g h i j) as [vm1 [pages|x|x]] eqn:Hmap; [|done|done] end.
  apply bind_Ok in Hm as (vm2 & Hp & Hm). injection Hm as <- <-.
  exists la, e, vm1, pages. cbn [mm_text mm_data mm_relro mm_segments mm_len mm_base mm_ptr mm_obcode mm_obdata mm_bytes].
  rewrite <-app_assoc in *. change (1024 * 1024 * 4) with 0x400000 in *. change (1024 * 1024) with 0x100000 in *.
  rewrite <-Z.add_assoc in *. change (0x400000 + 0x100000) with 0x500000 in *.
  assert (length (merge_sort start_le (la_segments la)) = length (la_segments la)) as Hlen
    by (apply Permutation_length, merge_sort_Permutation).
  do 9 (split; [done|]). split; [done|]. split; [rewrite length_app, Hlen; cbn; lia|]. done.
Qed.

#[local] Instance start_le_trans : Transitive start_le.
Proof. intros s1 s2 s3. unfold start_le. lia. Qed.
#[local] Instance start_le_total : Total start_le.
Proof. intros s1 s2. unfold start_le. lia. Qed.

(** A list in the order of the starts is the sorted one. *)
Lemma sorted_same b l ps e :
  Forall aligned_segment ps -> in_order b ps e -> ps ≡ₚ l -> Sorted start_le ps -> Sorted start_le l -> l = ps.
Proof.
  intros Ha Ho Hp Hs1 Hs2. symmetry. apply (Sorted_unique_strong start_le); [|done|done|done].
  intros s1 s2 Hin1 Hin2 H12 H21. rewrite <-Hp in Hin2.
  apply list_elem_of_lookup in Hin1 as [j Hj]. apply list_elem_of_lookup in Hin2 as [k Hk].
  assert (Forall (fun s => 0 <= ms_len s) ps) as Hl by (eapply Forall_impl; [done|]; intros ? (_ & _ & ?); lia).
  pose proof (Forall_lookup_1 _ _ _ _ Ha Hj) as (_ & _ & L1). pose proof (Forall_lookup_1 _ _ _ _ Ha Hk) as (_ & _ & L2).
  unfold start_le in *. destruct (Nat.lt_trichotomy j k) as [Hjk|[->|Hjk]]; [|congruence|].
  - pose proof (in_order_apart _ _ _ _ _ _ _ Hl Ho Hj Hk Hjk). lia.
  - pose proof (in_order_apart _ _ _ _ _ _ _ Hl Ho Hk Hj Hjk). lia.
Qed.

Lemma programs_aligned base progs la :
  0 <= base -> Forall sized progs -> laid_out base progs la -> Forall aligned_segment (la_segments la).
Proof.
  intros Hb Hs [H1 H2 _ _ _]. apply Forall_forall. intros s Hin. rewrite Forall_forall in H2.
  pose proof (H2 s Hin) as Hal. rewrite H1 in Hin. apply segments_of_elem in Hin as (i & p & Hp & Hl & ->).
  destruct (segment_len p) as [Hn Ha]; [by eapply Forall_lookup_1|done|]. done.
Qed.

Lemma memory_segments td progs base name vm m vm' :
  0 <= base -> Forall sized progs -> memory_new H td progs base name vm = Ok (m, vm') ->
  Forall aligned_segment (mm_segments m) /\ in_order base (mm_segments m) (mm_len m).
Proof.
  intros Hb Hs Hm.
  destruct (memory_new_Ok td progs base name vm m vm' Hb Hs Hm)
    as (la & e & vm1 & pages & Hla & Ht & _ & _ & Ho & Hseg & Hlen & _).
  pose proof (programs_aligned base progs la Hb Hs Hla) as Ha.
  assert (Forall aligned_segment (merge_sort start_le (la_segments la))) as Ha' by (by rewrite merge_sort_Permutation).
  assert (page_aligned e) as He.
  { eapply in_order_end; [done| |done]. intros Hn. pose proof (merge_sort_Permutation start_le (la_segments la)) as Hp.
    rewrite Hn in Hp. apply Permutation_nil in Hp. destruct (lo_text _ _ _ Hla _ Ht) as (i & p & _ & _ & Hk).
    rewrite Hp in Hk. done. }
  rewrite Hseg, Hlen. split.
  - apply Forall_app. split; [done|]. repeat constructor; cbn; try done. by apply page_aligned_add.
  - change [code_segment e; heap_segment (e + 0x400000)] with ([code_segment e] ++ [heap_segment (e + 0x400000)]).
    rewrite app_assoc.
    replace (e + 0x500000) with (e + ms_len (code_segment e) + ms_len (heap_segment (e + 0x400000))) by (cbn; lia).
    apply in_order_snoc; [by apply in_order_snoc|cbn; lia].
Qed.
End memory.

(** ** The answers of [text_segment], [data_segment] and [relro_segment] *)

(** How many programs in memory lie below a segment: its place in the order of
    the addresses. *)
Definition rank (base : Z) (progs : list Program) (s : MemorySegment) : nat :=
  length (filter (fun s' => ms_start s' < ms_start s) (segments_of base progs)).

(** The index is the place of the header among those of programs in memory,
    and the answer [s] is the segment with that place in the order of the
    addresses. *)
Definition answers (base : Z) (progs : list Program) (kind : Program -> bool) (k : nat) (s : MemorySegment) : Prop :=
  s ∈ segments_of base progs /\ rank base progs s = k
  /\ exists i p, progs !! i = Some p /\ kind p = true /\ segments_of base progs !! k = Some (segment_of base i p)
       /\ (s = segment_of base i p <-> rank base progs (segment_of base i p) = k).

Lemma filter_keeps {A} (P : A -> Prop) `{!forall x, Decision (P x)} l : Forall P l -> filter P l = l.
Proof. induction 1 as [|x l Hx _ IH]; [done|]. by rewrite filter_cons_True, IH. Qed.
Lemma filter_drops {A} (P : A -> Prop) `{!forall x, Decision (P x)} l : Forall (fun x => ~ P x) l -> filter P l = [].
Proof. induction 1 as [|x l Hx _ IH]; [done|]. by rewrite filter_cons_False, IH. Qed.

Section ordered.
Context (base e : Z) (progs : list Program) (ps : list MemorySegment).
Hypothesis aligned : Forall aligned_segment ps.
Hypothesis ordered : in_order base ps e.
Hypothesis same : ps ≡ₚ segments_of base progs.

Lemma ordered_starts j k s s' : ps !! j = Some s -> ps !! k = Some s' -> ms_start s < ms_start s' <-> (j < k)%nat.
Proof.
  intros Hj Hk. assert (Forall (fun s => 0 <= ms_len s) ps) as Hl by (eapply Forall_impl; [done|]; intros ? (_ & _ & ?); lia).
  pose proof (Forall_lookup_1 _ _ _ _ aligned Hj) as (_ & _ & L1). pose proof (Forall_lookup_1 _ _ _ _ aligned Hk) as (_ & _ & L2).
  destruct (Nat.lt_trichotomy j k) as [Hjk|[->|Hjk]].
  - pose proof (in_order_apart _ _ _ _ _ _ _ Hl ordered Hj Hk Hjk). lia.
  - assert (s = s') as -> by congruence. lia.
  - pose proof (in_order_apart _ _ _ _ _ _ _ Hl ordered Hk Hj Hjk). lia.
Qed.

Lemma rank_index k s : ps !! k = Some s -> rank base progs s = k.
Proof.
  intros Hk. unfold rank. rewrite <-same. rewrite <-(take_drop k ps), filter_app, length_app.
  rewrite (filter_keeps _ (take k ps)), (filter_drops _ (drop k ps)).
  - cbn. rewrite length_take. apply lookup_lt_Some in Hk. lia.
  - apply Forall_lookup_2. intros j s' Hj. rewrite lookup_drop in Hj. rewrite (ordered_starts _ _ _ _ Hj Hk). lia.
  - apply Forall_lookup_2. intros j s' Hj. apply lookup_take_Some in Hj as [Hj ?]. by rewrite (ordered_starts _ _ _ _ Hj Hk).
Qed.
Lemma index_rank k s : s ∈ segments_of base progs -> rank base progs s = k -> ps !! k = Some s.
Proof. rewrite <-same. intros [j Hj]%list_elem_of_lookup <-. by rewrite (rank_index _ _ Hj). Qed.

Lemma index_answers kind o k :
  indexed base progs (segments_of base progs) kind o -> o = Some k -> exists s, ps !! k = Some s /\ answers base progs kind k s.
Proof.
  intros Hi Ho. destruct (Hi k Ho) as (i & p & Hp & Hkind & Hl).
  destruct (lookup_lt_is_Some_2 ps k) as [s Hs]; [rewrite same; by eapply lookup_lt_Some|]. exists s. split; [done|].
  split; [rewrite <-same; by eapply list_elem_of_lookup_2|]. split; [by apply rank_index|]. exists i, p. do 3 (split; [done|]).
  split; [intros <-; by apply rank_index|]. intros Hr%index_rank; [congruence|]. by eapply list_elem_of_lookup_2.
Qed.

(** When the headers are in the order of the addresses. *)
Lemma rank_sorted k s : Sorted start_le ps -> Sorted start_le (segments_of base progs) ->
  segments_of base progs !! k = Some s -> rank base progs s = k.
Proof. intros H1 H2. rewrite (sorted_same _ _ _ _ aligned ordered same H1 H2). apply rank_index. Qed.
End ordered.

(** With two headers, the data before the code and above it, both answers are
    the other one. *)
Lemma answers_swapped base d t k k' s s' :
  is_data d = true -> is_text t = true -> addr t < addr d ->
  answers base [d; t] is_text k s -> answers base [d; t] is_data k' s' -> s = segment_of base 0 d /\ s' = segment_of base 1 t.
Proof.
  intros Hd Ht Hlt. unfold answers.
  assert (segments_of base [d; t] = [segment_of base 0 d; segment_of base 1 t]) as Hsegs.
  { assert (loaded d = true /\ loaded t = true) as [L1 L2].
    { unfold loaded, mappable, is_text, is_data in *. apply andb_true_iff in Ht as [[Ht _]%andb_true_iff ->].
      apply andb_true_iff in Hd as [[Hd _]%andb_true_iff ->]. by rewrite Ht, Hd. }
    unfold segments_of. change (enumerate [d; t]) with [(0%nat, d); (1%nat, t)]. by rewrite !filter_cons_True. }
  assert (rank base [d; t] (segment_of base 0 d) = 1%nat /\ rank base [d; t] (segment_of base 1 t) = 0%nat) as [R0 R1].
  { unfold rank. rewrite Hsegs, !filter_cons, !filter_nil. cbn.
    split; repeat case_decide; cbn; lia. }
  assert (is_text d = false /\ is_data t = false) as [Hd0 Ht0].
  { unfold is_text, is_data in *. destruct (is_ty PT_LOAD d), (executable d), (is_ty PT_LOAD t), (executable t); done. }
  rewrite Hsegs. intros (Hin & Hr & i & p & Hp & Hip & Hk & _) (Hin' & Hr' & i' & p' & Hp' & Hip' & Hk' & _).
  rewrite !elem_of_cons, elem_of_nil in Hin, Hin'.
  destruct i as [|[|i]]; [injection Hp as <-; congruence|injection Hp as <-|done].
  destruct i' as [|[|i']]; [injection Hp' as <-|injection Hp' as <-; congruence|done].
  destruct k as [|[|k]]; [by injection Hk| |done]. destruct k' as [|[|k']]; [|by injection Hk'|done].
  destruct Hin as [->|[->|[]]]; [|congruence]. by destruct Hin' as [->|[->|[]]]; [congruence|].
Qed.

(** C28: The memory of a module.  The segments of the programs, one for each
    program that is in memory, and the two segments of the emulator after them
    lie one after the other from the base to the length of the memory, start
    and end at pages and do not overlap, and the workspaces are where their
    indices say.  The indices of [text_segment], [data_segment] and
    [relro_segment] are taken before the segments are sorted: an index is the
    place of the header of that kind among the headers of programs in memory,
    and the answer is the segment with that place in the order of the
    addresses.  So the answer is the segment of that program exactly when as
    many programs lie below it as have their headers before its header.  It is
    when the headers are in the order of their addresses; with only the header
    of the data and then that of the code, which lies below the data, the two
    answers are swapped. *)
Theorem module_memory H td progs base name vm m vm' :
  0 <= base -> Forall sized progs -> memory_new H td progs base name vm = Ok (m, vm') ->
  (exists ps e, ps ≡ₚ segments_of base progs
     /\ mm_segments m = ps ++ [code_segment e; heap_segment (e + 0x400000)]
     /\ mm_segments m !! mm_obcode m = Some (code_segment e)
     /\ mm_segments m !! mm_obdata m = Some (heap_segment (e + 0x400000)))
  /\ in_order base (mm_segments m) (mm_len m) /\ Forall aligned_segment (mm_segments m)
  /\ length (mm_bytes m) = Z.to_nat (mm_len m)
  /\ exists text data, @text_segment unit m = Ok text /\ answers base progs is_text (mm_text m) text
     /\ @data_segment unit m = Ok data /\ answers base progs is_data (mm_data m) data
     /\ match mm_relro m with
        | None => @relro_segment unit m = Ok None
        | Some k => exists relro, @relro_segment unit m = Ok (Some relro) /\ answers base progs is_relro k relro
        end
     /\ (Sorted start_le (segments_of base progs) ->
          forall k s, segments_of base progs !! k = Some s -> rank base progs s = k)
     /\ (forall d t, progs = [d; t] -> is_data d = true -> is_text t = true -> addr t < addr d ->
          text = segment_of base 0 d /\ data = segment_of base 1 t).
Proof.
  intros Hb Hs Hm. destruct (memory_segments td progs base name vm m vm' Hb Hs Hm) as [Hal Hord].
  destruct (memory_new_Ok td progs base name vm m vm' Hb Hs Hm)
    as (la & e & vm1 & pages & Hla & Ht & Hd & Hr & Ho & Hseg & Hlen & _ & _ & Hoc & Hod & Hby & _).
  pose proof (programs_aligned base progs la Hb Hs Hla) as Ha. destruct Hla as [Hsegs _ Lt Ld Lr].
  pose proof (merge_sort_Permutation start_le (la_segments la)) as Hperm.
  assert (Sorted start_le (merge_sort start_le (la_segments la))) as Hsort
    by (apply Sorted_merge_sort; intros ??; unfold start_le; lia).
  rewrite <-Hperm in Ha. rewrite Hsegs in Lt, Ld, Lr. rewrite Hsegs in Hperm at 2.
  rewrite <-(Permutation_length (merge_sort_Permutation start_le (la_segments la))) in Hoc, Hod.
  set (ps := merge_sort start_le (la_segments la)) in *. clearbody ps. clear Hsegs.
  split; [|split; [done|split; [done|split; [by rewrite Hby, length_replicate|]]]].
  { exists ps, e. split; [done|]. split; [done|]. rewrite Hseg, Hoc, Hod. split; [by apply list_lookup_middle|].
    rewrite lookup_app_r by lia. by replace (S _ - _)%nat with 1%nat by lia. }
  destruct (index_answers base e progs ps Ha Ho Hperm _ _ _ Lt Ht) as (text & Htext & At).
  destruct (index_answers base e progs ps Ha Ho Hperm _ _ _ Ld Hd) as (data & Hdata & Ad).
  exists text, data. unfold text_segment, data_segment, relro_segment. rewrite Hseg.
  rewrite (lookup_app_l_Some _ _ _ _ Htext), (lookup_app_l_Some _ _ _ _ Hdata).
  split; [done|]. split; [done|]. split; [done|]. split; [done|]. split; [|split].
  - destruct (mm_relro m) as [k|]; [|done]. destruct (index_answers base e progs ps Ha Ho Hperm _ _ _ Lr Hr) as (relro & Hrelro & Ar).
    exists relro. by rewrite (lookup_app_l_Some _ _ _ _ Hrelro).
  - intros Hsorted k s. by apply (rank_sorted base e progs ps).
  - intros d t -> Hdd Htt Hlt. by apply (answers_swapped base d t (mm_text m) (mm_data m)).
Qed.

(** ** Protections *)

Notation view := VmSpaceProps.view.
Notation space_ok := VmSpaceProps.space_ok.

(** The protection of offset [x] after the segments of [l] were protected one
    after the other, when it was [d] before. *)
Fixpoint prot_after (l : list MemorySegment) (x d : Z) : Z :=
  match l with
  | [] => d
  | s :: l => prot_after l x (if decide (ms_start s <= x < ms_start s + ms_len s) then ms_prot s else d)
  end.

Lemma prot_after_out l x d :
  (forall s, s ∈ l -> ~ ms_start s <= x < ms_start s + ms_len s) -> prot_after l x d = d.
Proof.
  revert d. induction l as [|s l IH]; intros d Ho; cbn; [done|].
  rewrite decide_False by (apply Ho, list_elem_of_here). apply IH. intros s' Hs'. by apply Ho, list_elem_of_further.
Qed.

Lemma prot_after_in b l e k s x d :
  Forall (fun s => 0 <= ms_len s) l -> in_order b l e -> l !! k = Some s -> ms_start s <= x < ms_start s + ms_len s ->
  prot_after l x d = ms_prot s.
Proof.
  intros Hl. revert b k d. induction Hl as [|s0 l Hs0 Hl IH]; intros b k d Ho Hk Hx; [done|].
  cbn in Ho. destruct Ho as [H1 H2], k as [|k]; cbn in Hk.
  - injection Hk as ->. cbn. rewrite decide_True by done. apply prot_after_out.
    intros s' [j Hj]%list_elem_of_lookup. pose proof (in_order_inside _ _ _ _ _ Hl H2 Hj). lia.
  - cbn. by eapply IH.
Qed.

Section protection.
Context {H : VmSpace.Host} {HO : VmSpaceProps.HostOk H}.

(** Protecting a segment of a module at [p]. *)
Lemma protect_view p s vm vm' :
  space_ok (H := H) vm -> 0 <= p -> page_aligned p -> 0 <= ms_start s -> aligned_segment s ->
  VmSpace.mprotect H (p + ms_start s) (ms_len s) (ms_prot s) vm = Ok vm' ->
  space_ok (H := H) vm'
  /\ forall x, view vm' (p + x) = (fun q => (prot_after [s] x q.1, q.2)) <$> view vm (p + x).
Proof.
  intros Hok Hp Hpa Hs (Ha & Hla & Hl) Hm.
  pose proof (VmMapProps.mprotect_cases (proj2 (VmSpaceProps.so_granularity _ Hok)) (p + ms_start s) (ms_len s) (ms_prot s) vm
                Hok ltac:(lia) ltac:(lia)) as Hu.
  rewrite Hm in Hu. destruct Hu as (_ & _ & _ & Hok' & Hv & _). split; [done|]. intros x. rewrite Hv.
  rewrite round_up_id by (change VmSpace.VIRTUAL_PAGE_SIZE with 0x4000; by apply page_aligned_add; [apply page_aligned_add|]).
  cbn. destruct (decide (p + ms_start s <= p + x < p + ms_start s + ms_len s)), (decide (ms_start s <= x < ms_start s + ms_len s));
    try lia; [done|]. destruct (view vm (p + x)) as [[]|]; done.
Qed.

(** Protecting segments, as [Memory::new] and [UnprotectedMemory::drop] do. *)
Lemma protect_all_view {E} (f : VmSpace.t -> MemorySegment -> outcome E VmSpace.t) p l vm vm' :
  (forall vm s vm', f vm s = Ok vm' -> VmSpace.mprotect H (p + ms_start s) (ms_len s) (ms_prot s) vm = Ok vm') ->
  space_ok (H := H) vm -> 0 <= p -> page_aligned p -> Forall (fun s => 0 <= ms_start s /\ aligned_segment s) l ->
  foldM f vm l = Ok vm' ->
  space_ok (H := H) vm' /\ forall x, view vm' (p + x) = (fun q => (prot_after l x q.1, q.2)) <$> view vm (p + x).
Proof.
  intros Hf Hok Hp Hpa Hl. revert vm Hok. induction Hl as [|s l [Hs Hal] Hl IH]; intros vm Hok Hm; cbn [foldM] in Hm.
  - injection Hm as <-. split; [done|]. intros x. cbn. by destruct (view vm (p + x)) as [[]|].
  - apply bind_Ok in Hm as (vm1 & H1 & Hm). apply Hf in H1. apply protect_view in H1 as [Hok1 Hv1]; [|done..].
    destruct (IH vm1 Hok1 Hm) as [Hok2 Hv2]. split; [done|]. intros x. rewrite Hv2, Hv1. by destruct (view vm (p + x)) as [[]|].
Qed.

Lemma protect_segment_Ok p vm s vm' :
  protect_segment H p vm s = Ok vm' -> VmSpace.mprotect H (p + ms_start s) (ms_len s) (ms_prot s) vm = Ok vm'.
Proof.
  unfold protect_segment. intros Hm. apply bind_Ok in Hm as (a & Ha & Hm). apply uadd_Ok in Ha as [-> _].
  by apply map_err_Ok in Hm.
Qed.
Lemma reprotect_Ok {E} p vm s vm' :
  @reprotect H E p vm s = Ok vm' -> VmSpace.mprotect H (p + ms_start s) (ms_len s) (ms_prot s) vm = Ok vm'.
Proof.
  unfold reprotect. intros Hm. apply bind_Ok in Hm as (a & Ha & Hm). apply uadd_Ok in Ha as [-> _].
  destruct (VmSpace.mprotect H _ _ _ vm); [|done|done]. by injection Hm as ->.
Qed.


(** The address space after [Memory::new]: [n] bytes that were free belong to
    the module, and nothing else changes. *)
Lemma memory_new_view td progs base name vm m vm' :
  space_ok (H := H) vm -> 0 <= base -> Forall sized progs -> memory_new H td progs base name vm = Ok (m, vm') ->
  space_ok (H := H) vm' /\ 0 < mm_ptr m /\ page_aligned (mm_ptr m)
  /\ exists n, mm_len m <= n
     /\ (forall x, 0 <= x < n -> view vm (mm_ptr m + x) = None)
     /\ forall x, view vm' (mm_ptr m + x)
          = if decide (0 <= x < n) then Some (prot_after (mm_segments m) x 0, name) else view vm (mm_ptr m + x).
Proof.
  intros Hok Hb Hs Hm. destruct (memory_segments td progs base name vm m vm' Hb Hs Hm) as [Hal Hord].
  destruct (memory_new_Ok td progs base name vm m vm' Hb Hs Hm)
    as (la & e & vm1 & pages & _ & _ & _ & _ & _ & _ & _ & _ & Hptr & _ & _ & _ & Hmap & Hp).
  assert (Forall (fun s => 0 <= ms_len s) (mm_segments m)) as Hl by (eapply Forall_impl; [done|]; intros ? (_ & _ & ?); lia).
  pose proof (in_order_le _ _ _ Hl Hord) as Hlen.
  pose proof (VmMapProps.mmap_cases (proj2 (VmSpaceProps.so_granularity _ Hok)) td 0 (mm_len m) 0 name
                (Z.lor VmSpace.MAP_ANON VmSpace.MAP_PRIVATE) (-1) 0 vm Hok ltac:(lia)) as Hc.
  rewrite Hmap in Hc. destruct Hc as (Hok1 & Ha & Hpos & Hn & Hfree & Hv). rewrite Hptr in *.
  assert (mm_len m <= VmSpace.pages_len pages) as Hlen'
    by (destruct (round_up_spec (mm_len m) VmSpace.VIRTUAL_PAGE_SIZE) as [? _]; [done|]; lia).
  assert (forall k s, mm_segments m !! k = Some s -> base <= ms_start s /\ ms_start s + ms_len s <= mm_len m) as Hin
    by (intros k s; by apply in_order_inside).
  eapply protect_all_view in Hp as [Hok2 Hv2]; [|by apply protect_segment_Ok|done|lia|done|].
  2: { apply Forall_forall. intros s Hi. rewrite Forall_forall in Hal. split; [|by apply Hal].
       apply list_elem_of_lookup in Hi as [k Hk]. apply Hin in Hk. lia. }
  split; [done|]. split; [lia|]. split; [done|]. exists (VmSpace.pages_len pages). split; [done|].
  split; [intros x Hx; apply Hfree; lia|]. intros x. rewrite Hv2, Hv.
  destruct (decide (VmSpace.ptr pages <= VmSpace.ptr pages + x < VmSpace.ptr pages + VmSpace.pages_len pages)), (decide (0 <= x < VmSpace.pages_len pages));
    try lia; [done|].
  rewrite <-(option_fmap_id (view vm (VmSpace.ptr pages + x))) at 2. apply option_fmap_ext. intros [q nm]. cbn. f_equal.
  apply prot_after_out. intros s [k Hk]%list_elem_of_lookup. apply Hin in Hk. lia.
Qed.

Lemma program_segments_app ps s l :
  Forall (fun s => is_Some (ms_program s)) ps -> ms_program s = None -> program_segments (ps ++ s :: l) = ps.
Proof.
  intros Hps Hs. induction Hps as [|s0 ps [i Hi] _ IH]; cbn; [by rewrite Hs|]. by rewrite Hi, IH.
Qed.
Lemma in_order_last b l e s : in_order b l e -> last l = Some s -> ms_start s + ms_len s = e.
Proof.
  revert b. induction l as [|s0 l IH]; intros b Ho Hs; [done|]. cbn in Ho. destruct Ho as [_ Ho].
  destruct l as [|s1 l]; [cbn in *; by injection Hs as ->|]. by apply (IH _ Ho).
Qed.

(** Using the memory of the programs. *)
Lemma with_memory_view {E A} (m : Memory) (err : UnprotectError -> E) (f : list Z -> outcome E (list Z * A)) vm b ps c l e r vm' :
  space_ok (H := H) vm -> 0 <= mm_ptr m -> page_aligned (mm_ptr m) -> 0 <= b ->
  mm_segments m = ps ++ c :: l -> Forall (fun s => is_Some (ms_program s)) ps -> ms_program c = None -> ps <> [] ->
  Forall aligned_segment ps -> in_order b ps e ->
  with_memory H m err f vm = Ok (r, vm') ->
  space_ok (H := H) vm'
  /\ forall x, view vm' (mm_ptr m + x)
       = (fun q => (prot_after ps x (if decide (0 <= x < e) then Z.lor CPU_READ CPU_WRITE else q.1), q.2)) <$> view vm (mm_ptr m + x).
Proof.
  intros Hok Hp Hpa Hb Hsegs Hprogs Hc Hne Hal Ho Hw. unfold with_memory in Hw. rewrite Hsegs, program_segments_app in Hw by done.
  assert (Forall (fun s => 0 <= ms_len s) ps) as Hl by (eapply Forall_impl; [done|]; intros ? (_ & _ & ?); lia).
  pose proof (in_order_le _ _ _ Hl Ho) as Hbe.
  apply bind_Ok in Hw as (e' & He & Hw).
  assert (e' = e) as ->.
  { destruct (last ps) as [s|] eqn:Hlast; [|by apply last_None in Hlast]. unfold ms_end in He.
    apply uadd_Ok in He as [-> _]. by eapply in_order_last. }
  apply bind_Ok in Hw as (vm1 & H1 & Hw). apply map_err_Ok in H1.
  pose proof (in_order_end _ _ _ Hal Hne Ho) as Hea.
  assert (0 < e) as Hpos.
  { destruct Hal as [|s ps' (_ & _ & Hs) Hal]; [done|]. cbn in Ho. apply Forall_cons in Hl as [_ Hl].
    destruct Ho as [Ho1 Ho2]. apply in_order_le in Ho2; [lia|done]. }
  destruct (protect_view (mm_ptr m) (MkSeg 0 e None (Z.lor CPU_READ CPU_WRITE)) vm vm1) as [Hok1 Hv1];
    [done..|by cbn [ms_start]; rewrite Z.add_0_r|].
  assert (exists vm2, foldM (reprotect H (mm_ptr m)) vm1 ps = @Ok E _ vm2 /\ vm2 = vm') as (vm2 & H2 & ->).
  { destruct (f _) as [[b0 a]|x|x]; [| |done]; apply bind_Ok in Hw as (vm2 & H2 & Hw); exists vm2; [|done].
    split; [done|]. cbn in Hw. by injection Hw. }
  eapply protect_all_view in H2 as [Hok2 Hv2]; [|by apply reprotect_Ok|done..|].
  2: { apply Forall_forall. intros s Hi. rewrite Forall_forall in Hal. split; [|by apply Hal].
       apply list_elem_of_lookup in Hi as [k Hk]. apply (in_order_inside _ _ _ _ _ Hl Ho) in Hk. lia. }
  split; [done|]. intros x. rewrite Hv2, Hv1. destruct (view vm (mm_ptr m + x)) as [[q nm]|]; done.
Qed.
End protection.

Definition inside (s : MemorySegment) (x : Z) : Prop := ms_start s <= x < ms_start s + ms_len s.

(** The programs before the workspaces. *)
Lemma memory_programs H td progs base name vm m vm' :
  0 <= base -> Forall sized progs -> memory_new H td progs base name vm = Ok (m, vm') ->
  exists ps e, mm_segments m = ps ++ [code_segment e; heap_segment (e + 0x400000)] /\ ps <> []
    /\ Forall (fun s => is_Some (ms_program s)) ps /\ Forall aligned_segment ps /\ in_order base ps e.
Proof.
  intros Hb Hs Hm. destruct (memory_segments td progs base name vm m vm' Hb Hs Hm) as [Hal _].
  destruct (memory_new_Ok td progs base name vm m vm' Hb Hs Hm)
    as (la & e & vm1 & pages & Hla & Ht & _ & _ & Ho & Hseg & _).
  exists (merge_sort start_le (la_segments la)), e. pose proof (merge_sort_Permutation start_le (la_segments la)) as Hp.
  rewrite Hseg in Hal. apply Forall_app in Hal as [Hal _]. split; [done|]. split; [|split; [|done]].
  - intros Hn. rewrite Hn in Hp. apply Permutation_nil in Hp. destruct (lo_text _ _ _ Hla _ Ht) as (i & p & _ & _ & Hk).
    by rewrite Hp in Hk.
  - rewrite Hp, (lo_segments _ _ _ Hla). apply Forall_forall. intros s (i & p & _ & _ & ->)%segments_of_elem. by eexists.
Qed.

Lemma aligned_len l : Forall aligned_segment l -> Forall (fun s => 0 <= ms_len s) l.
Proof. intros Hf. eapply Forall_impl; [done|]. intros s (_ & _ & ?). lia. Qed.

Lemma memory_inside H td progs base name vm m vm' s x :
  0 <= base -> Forall sized progs -> memory_new H td progs base name vm = Ok (m, vm') ->
  s ∈ mm_segments m -> inside s x -> 0 <= x < mm_len m.
Proof.
  intros Hb Hs Hm [k Hk]%list_elem_of_lookup Hx. unfold inside in Hx.
  destruct (memory_segments td progs base name vm m vm' Hb Hs Hm) as [Hal Hord].
  destruct (in_order_inside _ _ _ _ _ (aligned_len _ Hal) Hord Hk). lia.
Qed.

(** What [unprotect] and the drop leave. *)
Lemma unprotect_view H (HO : VmSpaceProps.HostOk H) td progs base name vm m vm'
    (f : list Z -> outcome MapError (list Z * unit)) r vm'' :
  space_ok (H := H) vm' -> 0 < mm_ptr m -> page_aligned (mm_ptr m) -> 0 <= base -> Forall sized progs ->
  memory_new H td progs base name vm = Ok (m, vm') ->
  with_memory H m UnprotectMemoryFailed f vm' = Ok (r, vm'') ->
  space_ok (H := H) vm''
  /\ exists s e, last (program_segments (mm_segments m)) = Some s /\ ms_start s + ms_len s = e /\ e <= mm_len m
     /\ (forall x q nm, 0 <= x < e -> (forall s, s ∈ mm_segments m -> ~ inside s x) -> view vm' (mm_ptr m + x) = Some (q, nm) ->
           view vm'' (mm_ptr m + x) = Some (Z.lor CPU_READ CPU_WRITE, nm))
     /\ (forall x, ~ 0 <= x < e -> view vm'' (mm_ptr m + x) = view vm' (mm_ptr m + x))
     /\ (forall s x nm, s ∈ mm_segments m -> inside s x -> view vm' (mm_ptr m + x) = Some (ms_prot s, nm) ->
           view vm'' (mm_ptr m + x) = view vm' (mm_ptr m + x)).
Proof.
  intros Hok Hpos Hpa Hb Hs Hm Hw.
  destruct (memory_programs H td progs base name vm m vm' Hb Hs Hm) as (ps & e & Hseg & Hne & Hpr & Hpal & Hpo).
  destruct (with_memory_view m UnprotectMemoryFailed f vm' base ps (code_segment e) [heap_segment (e + 0x400000)] e r vm'')
    as [Hok'' Hv'']; [done|lia|done..|]. split; [done|].
  assert (forall x, ~ 0 <= x < e -> view vm'' (mm_ptr m + x) = view vm' (mm_ptr m + x)) as Hout.
  { intros x Hx. rewrite Hv''. rewrite <-(option_fmap_id (view vm' (mm_ptr m + x))) at 2. apply option_fmap_ext.
    intros [q nm]. cbn. rewrite decide_False by done. f_equal. apply prot_after_out.
    intros s [k Hk]%list_elem_of_lookup. destruct (in_order_inside _ _ _ _ _ (aligned_len _ Hpal) Hpo Hk). lia. }
  destruct (last ps) as [s|] eqn:Hlast; [|by apply last_None in Hlast].
  exists s, e. rewrite Hseg, program_segments_app by done. split; [done|]. split; [by eapply in_order_last|].
  rewrite <-Hseg. split; [|split; [|split; [done|]]].
  - destruct (memory_segments td progs base name vm m vm' Hb Hs Hm) as [Hal Hord].
    assert (mm_segments m !! length ps = Some (code_segment e)) as Hk by (rewrite Hseg; by apply list_lookup_middle).
    destruct (in_order_inside _ _ _ _ _ (aligned_len _ Hal) Hord Hk). cbn in *. lia.
  - intros x q nm Hx Ho Hq. rewrite Hv'', Hq. cbn. rewrite decide_True by done. do 2 f_equal.
    apply prot_after_out. intros s' Hs'. apply Ho. rewrite Hseg. apply elem_of_app. by left.
  - intros s' x nm Hs' Hx Hq. rewrite Hseg in Hs'. apply elem_of_app in Hs' as [Hs'|Hs'].
    + apply list_elem_of_lookup in Hs' as [k Hk]. rewrite Hv'', Hq. cbn. do 2 f_equal.
      by eapply prot_after_in; [by apply aligned_len| | |].
    + apply Hout. apply list_elem_of_In in Hs'. destruct Hs' as [<-|[<-|[]]]; unfold inside in Hx; cbn in Hx; lia.
Qed.

(** C27: The protections of a module.  [Memory::new] takes memory that was
    free; each segment gets the protection of its program, the gaps between
    segments cannot be accessed, and every other mapping stays as it was.
    [unprotect] and the drop of its result give every segment its protection
    back, and leave the workspaces and all that is outside the module alone;
    the gaps below the end of the programs remain readable and writable. *)
Theorem module_protection H (HO : VmSpaceProps.HostOk H) td progs base name vm m vm' :
  space_ok (H := H) vm -> 0 <= base -> Forall sized progs -> memory_new H td progs base name vm = Ok (m, vm') ->
  space_ok (H := H) vm'
  /\ (forall s x, s ∈ mm_segments m -> inside s x ->
        view vm (mm_ptr m + x) = None /\ view vm' (mm_ptr m + x) = Some (ms_prot s, name))
  /\ (forall x, 0 <= x < mm_len m -> (forall s, s ∈ mm_segments m -> ~ inside s x) -> view vm' (mm_ptr m + x) = Some (0, name))
  /\ (forall y, is_Some (view vm y) -> view vm' y = view vm y)
  /\ forall (f : list Z -> outcome MapError (list Z * unit)) r vm'',
       with_memory H m UnprotectMemoryFailed f vm' = Ok (r, vm'') ->
       space_ok (H := H) vm''
       /\ exists s e, last (program_segments (mm_segments m)) = Some s /\ ms_start s + ms_len s = e
          /\ (forall x, 0 <= x < e -> (forall s, s ∈ mm_segments m -> ~ inside s x) ->
                view vm'' (mm_ptr m + x) = Some (Z.lor CPU_READ CPU_WRITE, name))
          /\ (forall x, ~ 0 <= x < e \/ (exists s, s ∈ mm_segments m /\ inside s x) ->
                view vm'' (mm_ptr m + x) = view vm' (mm_ptr m + x)).
Proof.
  intros Hok Hb Hs Hm. destruct (memory_segments td progs base name vm m vm' Hb Hs Hm) as [Hal Hord].
  destruct (memory_new_view td progs base name vm m vm' Hok Hb Hs Hm) as (Hok' & Hpos & Hpa & n & Hn & Hfree & Hv).
  assert (forall s x, s ∈ mm_segments m -> inside s x ->
            view vm (mm_ptr m + x) = None /\ view vm' (mm_ptr m + x) = Some (ms_prot s, name)) as Hsegs.
  { intros s x Hi Hx. pose proof (memory_inside H td progs base name vm m vm' s x Hb Hs Hm Hi Hx).
    apply list_elem_of_lookup in Hi as [k Hk]. split; [apply Hfree; lia|]. rewrite Hv, decide_True by lia. do 2 f_equal.
    by eapply prot_after_in; [by apply aligned_len| | |]. }
  assert (forall x, 0 <= x < mm_len m -> (forall s, s ∈ mm_segments m -> ~ inside s x) ->
            view vm' (mm_ptr m + x) = Some (0, name)) as Hgap.
  { intros x Hx Ho. rewrite Hv, decide_True by lia. do 2 f_equal. by apply prot_after_out. }
  split; [done|]. split; [done|]. split; [done|]. split.
  - intros y Hy. replace y with (mm_ptr m + (y - mm_ptr m)) in * by lia. rewrite Hv. case_decide as Hd; [|done].
    rewrite (Hfree _ Hd) in Hy. by destruct Hy.
  - intros f r vm'' Hw.
    destruct (unprotect_view H HO td progs base name vm m vm' f r vm'') as (Hok'' & s & e & Hlast & Hse & He & H1 & H2 & H3);
      [done..|].
    split; [done|]. exists s, e. split; [done|]. split; [done|]. split.
    + intros x Hx Ho. eapply H1; [done|done|]. apply Hgap; [lia|done].
    + intros x [Hx|(s' & Hs' & Hx)]; [by apply H2|]. eapply H3; [done|done|]. by apply Hsegs.
Qed.

(** ** A module *)

(** The data comes first in the file and last in memory, after a gap. *)
Definition data_program : Program := MkProgram PT_LOAD 6 0x8000 0xc000 0x10 0x5000 0x4000.
Definition text_program : Program := MkProgram PT_LOAD 5 0x4000 0 0x10 0x1234 0x4000.
Definition demo_module : list Program := [data_program; text_program].

Lemma demo_sized : Forall sized demo_module.
Proof. repeat constructor; vm_compute; congruence. Qed.

Lemma demo_memory :
  exists m vm', memory_new VmSpaceSpec.demo_host None demo_module 0 [] VmSpaceSpec.demo_space = Ok (m, vm').
Proof. eexists _, _. lazy -[replicate Z.to_nat]. reflexivity. Qed.

Lemma module_memory_witness :
  exists m vm', memory_new VmSpaceSpec.demo_host None demo_module 0 [] VmSpaceSpec.demo_space = Ok (m, vm')
    /\ @text_segment unit m = Ok (segment_of 0 0 data_program) /\ @data_segment unit m = Ok (segment_of 0 1 text_program).
Proof.
  destruct demo_memory as (m & vm' & Hm). exists m, vm'. split; [exact Hm|].
  destruct (module_memory VmSpaceSpec.demo_host None demo_module 0 [] VmSpaceSpec.demo_space m vm' ltac:(lia) demo_sized Hm)
    as (_ & _ & _ & _ & text & data & Ht & _ & Hd & _ & _ & _ & Hswap).
  destruct (Hswap data_program text_program) as [-> ->]; [reflexivity..|]. split; [exact Ht|exact Hd].
Defined.

(** The code can be executed and the data written. *)
Lemma module_protection_witness :
  exists m vm', memory_new VmSpaceSpec.demo_host None demo_module 0 [] VmSpaceSpec.demo_space = Ok (m, vm')
    /\ space_ok (H := VmSpaceSpec.demo_host) vm'
    /\ forall s x, s ∈ mm_segments m -> inside s x ->
         view VmSpaceSpec.demo_space (mm_ptr m + x) = None /\ view vm' (mm_ptr m + x) = Some (ms_prot s, []).
Proof.
  destruct demo_memory as (m & vm' & Hm). exists m, vm'. split; [exact Hm|].
  destruct (module_protection VmSpaceSpec.demo_host VmSpaceSpec.demo_host_ok None demo_module 0 [] VmSpaceSpec.demo_space m vm'
              VmSpaceSpec.demo_ok ltac:(lia) demo_sized Hm) as (Hok & Hs & _). split; [exact Hok|exact Hs].
Defined.
