(* ===== verification/RtldProps.v ===== *)
(** * Properties of the runtime linker *)
From S2P Require Import Prelude Env VPath Kernel VmSpace VmSpaceSpec Orbis OrbisProps Module Resolver Rtld.
Import Env Orbis Module_ Resolver Rtld.
Local Open Scope list_scope.

(** ** Indices of thread-local storage *)

(** The index and the new maximum that the search gives. *)
Definition tls_found (used : list Z) (max from index max' : Z) : Prop :=
  from <= index <= max' /\ index ∉ used /\ (forall j, from <= j < index -> j ∈ used)
  /\ max' = Z.max max index /\ max' <= max + 1.

Lemma tls_search_spec fuel used max from :
  from <= max -> max - from < Z.of_nat fuel -> (forall u, u ∈ used -> u <= max) ->
  tls_found used max from (tls_search fuel used max from).1 (tls_search fuel used max from).2.
Proof.
  intros Hle Hf Hu. revert from Hle Hf. induction fuel as [|fuel IH]; intros from Hle Hf; [lia|]. cbn [tls_search].
  case_bool_decide as Hin; [|cbn; split; [lia|]; split; [done|]; split; [intros j Hj; lia|lia]].
  cbv zeta. destruct (Z.ltb_spec max (from + 1)) as [Hm|Hm].
  - assert (from = max) as -> by lia. cbn. split; [lia|]. split; [intros Hn; apply Hu in Hn; lia|].
    split; [|lia]. intros j Hj. by replace j with max by lia.
  - destruct (IH (from + 1)) as (H1 & H2 & H3 & H4 & H5); [lia|lia|]. split; [lia|]. split; [done|]. split; [|done].
    intros j Hj. destruct (decide (j = from)) as [->|]; [done|]. apply H3. lia.
Qed.

(** The indices of modules. *)
Definition tls_ids (mods : list Module) (ks : list nat) (ids : list Z) : Prop :=
  Forall2 (fun k x => md_tls_index <$> mods !! k = Some x) ks ids.

(** The indices of a process: the application has the first one, two modules
    with storage have different ones, and none is above the maximum. *)
Definition tls_ok (ld : Linker) (p : Proc) : Prop :=
  exists bin ids, p_bin p = Some bin /\ tls_ids (p_mods p) (b_list bin) (1 :: ids)
    /\ NoDup (filter (.≠ 0) (1 :: ids)) /\ Forall (fun x => 0 <= x <= max_index (ld_tls ld)) (1 :: ids).

Lemma modules_of_Ok {E} mods ks l :
  @modules_of E mods ks = Ok l -> l.*1 = ks /\ Forall (fun km => mods !! km.1 = Some km.2) l.
Proof.
  unfold modules_of.
  assert (forall acc, foldM (fun r k => md ← @the_module mods E k; Ok (r ++ [(k, md)])) acc ks = Ok l ->
            l.*1 = acc.*1 ++ ks /\ (Forall (fun km => mods !! km.1 = Some km.2) acc -> Forall (fun km => mods !! km.1 = Some km.2) l)) as H.
  { induction ks as [|k ks IH]; intros acc Hr; cbn [foldM] in Hr; [injection Hr as <-; by rewrite app_nil_r|].
    apply bind_Ok in Hr as (r & Hk & Hr). apply bind_Ok in Hk as (md & Hm & Hk). injection Hk as <-.
    apply unwrap_or_panic_Ok in Hm. destruct (IH _ Hr) as [H1 H2]. rewrite H1, fmap_app, <-app_assoc. split; [done|].
    intros Ha. apply H2, Forall_app. split; [done|]. apply Forall_cons. by split; [|apply Forall_nil_2]. }
  intros Hr. destruct (H [] Hr) as [H1 H2]. split; [done|]. by apply H2, Forall_nil_2.
Qed.

Lemma tls_ids_used {E} mods ks ids l :
  tls_ids mods ks ids -> @modules_of E mods ks = Ok l -> List.map (fun km => md_tls_index (snd km)) l = ids.
Proof.
  intros Hi [<- Hl]%modules_of_Ok. unfold tls_ids in Hi. apply Forall2_fmap_l in Hi.
  induction Hi as [|[k md] x l ids Hx _ IH]; [done|]. apply Forall_cons in Hl as [Hk Hl]. cbn in *. rewrite Hk in Hx.
  injection Hx as ->. by rewrite IH.
Qed.

(** Modules that are changed and modules that are added. *)
Lemma tls_ids_same mods mods' ks ids :
  (forall k, md_tls_index <$> mods' !! k = md_tls_index <$> mods !! k) -> tls_ids mods ks ids -> tls_ids mods' ks ids.
Proof. intros H Hi. eapply Forall2_impl; [exact Hi|]. intros k x. by rewrite H. Qed.
Lemma tls_ids_push mods ks ids md :
  tls_ids mods ks ids -> tls_ids (mods ++ [md]) (ks ++ [length mods]) (ids ++ [md_tls_index md]).
Proof.
  intros H. apply Forall2_app.
  - eapply Forall2_impl; [exact H|]. intros k x Hk. apply fmap_Some in Hk as (m & Hm & ->).
    by rewrite (lookup_app_l_Some _ _ _ _ Hm).
  - constructor; [|constructor]. by rewrite list_lookup_middle.
Qed.

(** The index of a new module. *)
Lemma module_map_index {H I} {HI : Image I} td e (img : I) base nm id names tls vm md vm' :
  module_map H td e img base nm id names tls vm = Ok (md, vm') -> md_tls_index md = tls.
Proof.
  unfold module_map. intros Hm. apply bind_Ok in Hm as ([m1 v1] & _ & Hm). apply bind_Ok in Hm as ([[m2 v2] i2] & _ & Hm).
  apply bind_Ok in Hm as (x1 & _ & Hm). apply bind_Ok in Hm as (x2 & _ & Hm). apply bind_Ok in Hm as ([x3 x4] & _ & Hm).
  do 8 (apply bind_Ok in Hm as (? & _ & Hm)). apply bind_Ok in Hm as (? & _ & Hm). cbv zeta in Hm.
  apply bind_Ok in Hm as ([d rel] & _ & Hm). by injection Hm as <- _.
Qed.

Section load.
Context {H : VmSpace.Host} {I : Type} {HI : Image I} {OE SE : Type}.
Context (fs_open : str -> OE + I) (setup_module : Module -> VmSpace.t -> outcome SE (Module * VmSpace.t)) (td : option Z).
(** The index of a module has no setter. *)
Hypothesis setup_index : forall md vm md' vm', setup_module md vm = Ok (md', vm') -> md_tls_index md' = md_tls_index md.

Lemma create_module_index path nm elf img tls id vm md vm' :
  create_module (OE := OE) H setup_module td path nm elf img tls id vm = Ok (md, vm') -> md_tls_index md = tls.
Proof.
  unfold create_module. intros Hm. apply bind_Ok in Hm as (u0 & _ & Hm). apply bind_Ok in Hm as ([m v] & Hmap & Hm).
  apply map_err_Ok, module_map_index in Hmap. apply bind_Ok in Hm as (u1 & _ & Hm). cbv zeta in Hm.
  apply map_err_Ok, setup_index in Hm. by rewrite Hm; destruct (_ || _).
Qed.

Lemma tls_ok_push ld p bin ids md tls main vm objs :
  p_bin p = Some bin -> tls_ids (p_mods p) (b_list bin) (1 :: ids) -> NoDup (filter (.≠ 0) (1 :: ids)) ->
  Forall (fun x => 0 <= x <= max_index (ld_tls ld)) (1 :: ids) ->
  max_index (ld_tls ld) <= max_index tls -> 0 <= md_tls_index md <= max_index tls ->
  (md_tls_index md <> 0 -> md_tls_index md ∉ 1 :: ids) ->
  tls_ok (MkLinker tls (ld_flags ld))
    (MkProc (p_mods p ++ [md]) (Some (binaries_push (length (p_mods p)) main bin)) vm objs (p_big_app p)).
Proof.
  intros Hb Hi Hn Hm Hle Hmd Hnew. exists (binaries_push (length (p_mods p)) main bin), (ids ++ [md_tls_index md]).
  split; [done|]. rewrite app_comm_cons. split; [by apply tls_ids_push|]. cbn [ld_tls]. split.
  - rewrite filter_app. apply NoDup_app. split; [done|]. destruct (decide (md_tls_index md = 0)) as [Hz|Hz].
    + assert (filter (.≠ 0) [md_tls_index md] = []) as -> by (rewrite filter_cons_False; [done|by intros Hx]). split; [|apply NoDup_nil_2]. by intros ? _ ?%not_elem_of_nil.
    + assert (filter (.≠ 0) [md_tls_index md] = [md_tls_index md]) as -> by (by rewrite filter_cons_True). split; [|apply NoDup_singleton].
      intros x Hx ->%list_elem_of_singleton. apply list_elem_of_filter in Hx as [_ Hx]. by apply Hnew.
  - apply Forall_app. split; [eapply Forall_impl; [exact Hm|]; cbn; lia|]. apply Forall_cons. split; [done|apply Forall_nil_2].
Qed.

Lemma exec_tls path ld p k ld' p' :
  ld_tls ld = ld_tls linker_new -> exec (I := I) H fs_open setup_module td path ld p = Ok (k, ld', p') -> tls_ok ld' p'.
Proof.
  intros Hld He. unfold exec in He. apply bind_Ok in He as (img & _ & He).
  destruct (open path img) as [img' r]. apply bind_Ok in He as (elf & _ & He). apply bind_Ok in He as (u0 & _ & He).
  cbv zeta in He. apply bind_Ok in He as ([app vm] & Hm & He). apply map_err_Ok, module_map_index in Hm.
  apply bind_Ok in He as ([app' vm'] & Hs & He). apply map_err_Ok, setup_index in Hs.
  apply bind_Ok in He as (u1 & _ & He). injection He as <- <- <-.
  exists (binaries_new (length (p_mods p))), []. split; [done|]. split; [|split].
  - constructor; [|constructor]. cbn [p_mods]. rewrite list_lookup_middle by done. cbn. rewrite Hs. cbn. by rewrite Hm.
  - apply NoDup_singleton.
  - cbn [ld_tls]. rewrite Hld. apply Forall_cons. split; [cbn; lia|apply Forall_nil_2].
Qed.

Lemma load_open_known path force ld p bin ids r :
  p_bin p = Some bin -> tls_ids (p_mods p) (b_list bin) (1 :: ids) ->
  load_open (I := I) (SE := SE) fs_open path force ld p = Ok r ->
  match r with
  | inl (_, p') => p_bin p' = Some bin /\ tls_ids (p_mods p') (b_list bin) (1 :: ids)
  | inr (bin', l, _, _, _) => bin' = bin /\ List.map (fun km => md_tls_index (snd km)) l = 1 :: ids
  end.
Proof.
  intros Hb Hi Hl. unfold load_open in Hl. rewrite Hb in Hl. apply bind_Ok in Hl as (bin' & Hb' & Hl).
  injection Hb' as <-. apply bind_Ok in Hl as (l & Hmods & Hl). pose proof (tls_ids_used _ _ _ _ Hi Hmods) as Hused.
  destruct (List.find _ (drop 1 l)) as [[k0 md]|] eqn:Hf.
  { apply bind_Ok in Hl as (u0 & _ & Hl). cbv zeta in Hl. injection Hl as <-. split; [done|].
    eapply tls_ids_same; [|exact Hi]. intros j. cbn [p_mods].
    apply modules_of_Ok in Hmods as [_ Hmods]. apply List.find_some in Hf as [Hin _].
    assert ((k0, md) ∈ l) as Hin' by (rewrite <-(take_drop 1 l); apply elem_of_app; right; by apply list_elem_of_In).
    clear Hin; rename Hin' into Hin. rewrite Forall_forall in Hmods. apply Hmods in Hin. cbn in Hin.
    destruct (decide (j = k0)) as [->|Hj]; [|by rewrite list_lookup_insert_ne].
    rewrite list_lookup_insert_eq by (by eapply lookup_lt_Some). by rewrite Hin. }
  apply bind_Ok in Hl as (nm & _ & Hl).
  destruct (if force then None else _) as [[k0 md]|]; [by injection Hl as <-|].
  do 3 (apply bind_Ok in Hl as (? & _ & Hl)). apply bind_Ok in Hl as (img & _ & Hl). destruct (open path img) as [img' r'].
  do 2 (apply bind_Ok in Hl as (? & _ & Hl)). injection Hl as <-. done.
Qed.
(** The index of a new module. *)
Lemma tls_alloc_next ids a size :
  Forall (fun x => 0 <= x <= max_index a) (1 :: ids) ->
  let r := if size =? 0 then (0, a) else tls_alloc (1 :: ids) a in
  max_index a <= max_index r.2 <= max_index a + 1 /\ 0 <= r.1 <= max_index r.2 /\ (r.1 <> 0 -> r.1 ∉ 1 :: ids).
Proof.
  intros Hm. pose proof (Forall_inv Hm) as H1. cbn beta in H1.
  destruct (size =? 0); cbn [fst snd]; [split; [lia|split; [lia|by intros []]]|]. unfold tls_alloc.
  pose proof (tls_search_spec (Z.to_nat (max_index a)) (1 :: ids) (max_index a) 1) as Hs.
  destruct (tls_search _ _ _ _) as [ix mx]. cbn [fst snd max_index] in *.
  destruct Hs as (S1 & S2 & _ & S3 & S4); [lia|lia|intros u Hu; rewrite Forall_forall in Hm; apply Hm in Hu; lia|].
  split; [lia|]. split; [lia|done].
Qed.

(** What [load] leaves, whether it succeeds or not. *)
Lemma load_tls path force main ld p ld' r :
  tls_ok ld p -> load (I := I) H fs_open setup_module td path force main ld p = (ld', r) ->
  max_index (ld_tls ld) <= max_index (ld_tls ld') <= max_index (ld_tls ld) + 1
  /\ tls_ok ld' (if r is Ok (_, p') then p' else p).
Proof.
  intros (bin & ids & Hb & Hi & Hn & Hm) Hl. unfold load in Hl.
  assert (tls_ok ld p) as Hok by by exists bin, ids.
  destruct (load_open _ _ _ _ _) as [r0|e|q] eqn:Ho; [|injection Hl as <- <-; split; [lia|done]..].
  apply (load_open_known _ _ _ _ bin ids) in Ho; [|done|done].
  destruct r0 as [[k p']|[[[[bin' l] nm] elf] img]].
  { injection Hl as <- <-. split; [lia|]. destruct Ho as [Hb' Hi']. by exists bin, ids. }
  destruct Ho as [-> Hused].
  destruct (the_program _ _) as [prog|e|q]; [|injection Hl as <- <-; split; [lia|done]..]. rewrite Hused in Hl.
  pose proof (tls_alloc_next ids (ld_tls ld) (if prog is Some q then memory_size q else 0) Hm) as Ha. cbv zeta in Ha.
  destruct (if _ =? 0 then (0, ld_tls ld) else _) as [tls alloc]. cbn [fst snd] in Ha. destruct Ha as (H1 & H2 & H3).
  injection Hl as <- <-. split; [cbn; lia|].
  assert (tls_ok (MkLinker alloc (ld_flags ld)) p) as Hsame.
  { exists bin, ids. split; [done|]. split; [done|]. split; [done|]. cbn [ld_tls]. eapply Forall_impl; [exact Hm|]. cbn. lia. }
  destruct (load_map _ _ _ _ _ _ _ _ _ _ _) as [[k p']|e|q] eqn:Hmap; [|done..]. unfold load_map in Hmap. cbv zeta in Hmap.
  apply bind_Ok in Hmap as ([objs id] & _ & Hmap). apply bind_Ok in Hmap as ([md vm] & Hc & Hmap).
  apply create_module_index in Hc. injection Hmap as <- <-. eapply tls_ok_push; [done..|lia|by rewrite Hc|by rewrite Hc].
Qed.
End load.

(** C31: Indices of thread-local storage.  After [exec] and any number of
    [load]s, of which some may fail, the application has index 1, modules that
    have storage have different indices, and the maximum that the linker keeps
    is above all of them and grows by at most one with a module; the search for
    an index that is free always ends. *)
Theorem tls_indices {I} {HI : Image I} {OE SE} H (fs_open : str -> OE + I)
    (setup_module : Module -> VmSpace.t -> outcome SE (Module * VmSpace.t)) td :
  (forall md vm md' vm', setup_module md vm = Ok (md', vm') -> md_tls_index md' = md_tls_index md) ->
  (forall path p k ld' p', exec (I := I) H fs_open setup_module td path linker_new p = Ok (k, ld', p') -> tls_ok ld' p')
  /\ (forall path force main ld p ld' r, tls_ok ld p ->
        load (I := I) H fs_open setup_module td path force main ld p = (ld', r) ->
        tls_ok ld' (if r is Ok (_, p') then p' else p)
        /\ max_index (ld_tls ld) <= max_index (ld_tls ld') <= max_index (ld_tls ld) + 1)
  /\ (forall used a, 1 <= max_index a -> (forall u, u ∈ used -> u <= max_index a) ->
        let r := tls_alloc used a in
        1 <= r.1 <= max_index r.2 /\ r.1 ∉ used /\ (forall j, 1 <= j < r.1 -> j ∈ used)).
Proof.
  intros Hset. split; [|split].
  - intros path p k ld' p' He. by eapply exec_tls.
  - intros path force main ld p ld' r Hok Hl. eapply load_tls in Hl as [? ?]; done.
  - intros used a Ha Hu. pose proof (tls_search_spec (Z.to_nat (max_index a)) used (max_index a) 1 ltac:(lia) ltac:(lia) Hu) as Hs.
    unfold tls_alloc. destruct (tls_search _ _ _ _) as [ix mx]. destruct Hs as (H1 & H2 & H3 & _). done.
Qed.

(** ** Offsets of thread-local storage *)

(** Where a block that needs the bytes up to [x] ends. *)
Definition tls_at (x a : Z) : Z := Z.ldiff (x + a - 1) (a - 1).
Lemma ldiff_land_sub y m : y - Z.land y m = Z.ldiff y m.
Proof.
  assert (Z.ldiff (Z.land y m) y = 0) as H.
  { apply Z.bits_inj'. intros i Hi. rewrite Z.ldiff_spec, Z.land_spec, Z.bits_0. by destruct (Z.testbit y i), (Z.testbit m i). }
  rewrite Z.sub_nocarry_ldiff by done. apply Z.bits_inj'. intros i Hi. rewrite !Z.ldiff_spec, Z.land_spec.
  by destruct (Z.testbit y i), (Z.testbit m i).
Qed.
Lemma tls_at_bounds x a : 0 <= x -> 0 < a -> x <= tls_at x a < x + a.
Proof.
  intros Hx Ha. unfold tls_at. rewrite <- ldiff_land_sub.
  assert (0 <= Z.land (x + a - 1) (a - 1)) by (apply Z.land_nonneg; lia).
  pose proof (ldiff_land_sub (a - 1) (x + a - 1)). rewrite Z.land_comm in H0.
  assert (0 <= Z.ldiff (a - 1) (x + a - 1)) by (apply Z.ldiff_nonneg; lia). lia.
Qed.
(** The bits below the alignment are clear, which aligns it for a power of two. *)
Lemma tls_at_low x a : Z.land (tls_at x a) (a - 1) = 0.
Proof.
  unfold tls_at. apply Z.bits_inj'. intros i Hi. rewrite Z.land_spec, Z.ldiff_spec, Z.bits_0.
  by destruct (Z.testbit (x + a - 1) i), (Z.testbit (a - 1) i).
Qed.
Lemma tls_at_aligned x k : 0 <= k -> tls_at x (2 ^ k) mod 2 ^ k = 0.
Proof.
  intros Hk. rewrite <- Z.land_ones by done. rewrite Z.ones_equiv, <- Z.sub_1_r. apply tls_at_low.
Qed.
Lemma tls_round_Ok {E} x a : 0 <= x -> 0 < a -> x + a < 2 ^ 64 -> @tls_round E x a = Ok (tls_at x a).
Proof.
  intros Hx Ha Hb. unfold tls_round, tls_at.
  rewrite (proj2 (uadd_Ok x a (x + a))) by lia. cbn [mbind outcome_bind].
  rewrite (proj2 (usub_Ok (x + a) 1 (x + a - 1))) by lia. cbn [mbind outcome_bind].
  by rewrite (proj2 (usub_Ok a 1 (a - 1))) by lia.
Qed.
(** Without an alignment the code subtracts one from zero. *)
Lemma tls_round_zero {E} x : 0 <= x -> @tls_round E x 0 = Panic POverflow.
Proof.
  intros Hx. unfold tls_round, uadd, usub. destruct (x + 0 <? 2 ^ 64); [|done]. cbn [mbind outcome_bind].
  by destruct (1 <=? x + 0).
Qed.

(** The block of a module: its size and its alignment. *)
Definition tls_block (md : Module) : option ModuleTls :=
  match md_tls_info md with
  | Some t => if t_size t =? 0 then None else Some t
  | None => None
  end.

(** The room that the blocks of modules need at most. *)
Definition tls_room (md : Module) : Z := if tls_block md is Some t then t_size t + t_align t else 0.
Definition tls_sum (l : list Module) : Z := foldr (fun md n => tls_room md + n) 0 l.
Definition tls_good (md : Module) : Prop :=
  forall t, tls_block md = Some t -> 0 <= t_size t /\ 0 < t_align t.

(** What [init_tls] makes of a module whose block ends at [off]. *)
Definition tls_done (md : Module) (off : Z) : Module :=
  let md := if tls_block md is Some _ then set_tls_offset off md else md in
  set_md_flags (Z.lor (md_flags md) TLS_DONE) md.

(** The ends of the blocks, one after the other from [b] on. *)
Fixpoint tls_ends (b : Z) (l : list Module) : list Z :=
  match l with
  | [] => []
  | md :: l =>
      let e := if tls_block md is Some t then tls_at (b + t_size t) (t_align t) else b in
      e :: tls_ends e l
  end.

Lemma init_tls_step {E} tls mods k md :
  mods !! k = Some md -> contains (md_flags md) TLS_DONE = false -> tls_good md -> static_space tls = 0 ->
  0 <= last_offset tls -> last_offset tls + tls_room md < 2 ^ 64 -> (md_tls_index md = 1 -> last_offset tls = 0) ->
  let e := if tls_block md is Some t then tls_at (last_offset tls + t_size t) (t_align t) else last_offset tls in
  last_offset tls <= e <= last_offset tls + tls_room md
  /\ exists n, @init_tls E (tls, mods) k = Ok (MkTlsAlloc (max_index tls) e n 0, <[k := tls_done md e]> mods).
Proof.
  intros Hk Hf Hg Hst Hlo Hroom Hone e. unfold init_tls, the_module. rewrite Hk. cbn [unwrap_or_panic mbind outcome_bind].
  rewrite Hf. unfold tls_done. destruct tls as [mi lo ls st]. cbn [last_offset static_space max_index] in *. subst st.
  unfold tls_good, tls_room, tls_block in *. destruct (md_tls_info md) as [t|]; [|split; [unfold e; lia|by exists ls]].
  destruct (t_size t =? 0) eqn:Hz; [split; [unfold e; lia|by exists ls]|].
  destruct (Hg t eq_refl) as [Hs Ha]. pose proof (tls_at_bounds (lo + t_size t) (t_align t) ltac:(lia) Ha) as Hr.
  unfold e. split; [lia|]. exists (t_size t).
  assert ((if md_tls_index md =? 1 then tls_round (t_size t) (t_align t)
           else x ← uadd lo (t_size t); tls_round x (t_align t)) = @Ok E _ (tls_at (lo + t_size t) (t_align t))) as ->; [|done].
  destruct (Z.eqb_spec (md_tls_index md) 1) as [H1|H1].
  - apply Hone in H1 as ->. by rewrite tls_round_Ok by lia.
  - rewrite (proj2 (uadd_Ok lo (t_size t) (lo + t_size t))) by lia. cbn [mbind outcome_bind]. by rewrite tls_round_Ok by lia.
Qed.

Lemma init_tls_all {E} ks l tls mods :
  NoDup ks -> Forall2 (fun k md => mods !! k = Some md) ks l ->
  Forall (fun md => contains (md_flags md) TLS_DONE = false /\ tls_good md) l ->
  (forall md, head l = Some md -> md_tls_index md = 1 -> last_offset tls = 0) ->
  Forall (fun md => md_tls_index md <> 1) (tail l) ->
  static_space tls = 0 -> 0 <= last_offset tls -> last_offset tls + tls_sum l < 2 ^ 64 ->
  exists tls' mods', foldM (@init_tls E) (tls, mods) ks = Ok (tls', mods')
    /\ (forall i e, tls_ends (last_offset tls) l !! i = Some e -> e <= last_offset tls')
    /\ last_offset tls <= last_offset tls' <= last_offset tls + tls_sum l
    /\ static_space tls' = 0 /\ max_index tls' = max_index tls
    /\ (forall i k md e, ks !! i = Some k -> l !! i = Some md -> tls_ends (last_offset tls) l !! i = Some e ->
          mods' !! k = Some (tls_done md e))
    /\ (forall k, k ∉ ks -> mods' !! k = mods !! k).
Proof.
  revert l tls mods.
  induction ks as [|k ks IH]; intros l tls mods Hnd Hl Hok Hhead Htail Hst Hlo Hsum; apply Forall2_cons_inv_l in Hl || apply Forall2_nil_inv_l in Hl as ->.
  - exists tls, mods. cbn in *. repeat split; try done; lia.
  - destruct Hl as (md & l' & Hk & Hl & ->). apply NoDup_cons in Hnd as [Hkn Hnd].
    apply Forall_cons in Hok as [[Hf Hg] Hok]. cbn [tls_sum foldr] in Hsum. fold (tls_sum l') in Hsum.
    assert (0 <= tls_sum l').
    { clear -Hok. induction Hok as [|x l' [_ Hx] _ IH]; cbn; [lia|]. fold (tls_sum l'). unfold tls_room.
      destruct (tls_block x) as [t|] eqn:Ht; [|lia]. destruct (Hx t Ht). lia. }
    destruct (init_tls_step (E := E) tls mods k md) as (He & n & Hs); [done..|lia|by apply Hhead|].
    cbn [foldM]. rewrite Hs. cbn [mbind outcome_bind].
    set (e := if tls_block md is Some t then _ else _) in *.
    destruct (IH l' (MkTlsAlloc (max_index tls) e n 0) (<[k := tls_done md e]> mods)) as (tls' & mods' & Hr & H1 & H2 & H3 & H4 & H5 & H6);
      cbn [last_offset static_space max_index] in *; [done| |done| | |done|lia|lia|].
    + apply Forall2_same_length_lookup in Hl as [Hlen Hl]. apply Forall2_same_length_lookup. split; [done|].
      intros i x y Hx Hy. rewrite list_lookup_insert_ne; [by eapply Hl|]. intros ->. apply Hkn. by eapply list_elem_of_lookup_2.
    + intros md' Hmd' Hi. cbn in Htail. destruct l' as [|x l']; [done|]. injection Hmd' as ->. by apply Forall_cons in Htail as [].
    + cbn in Htail. by destruct Htail; [constructor|].
    + exists tls', mods'. split; [done|]. split.
      { intros [|i] e' He'; cbn in He'; [injection He' as <-; unfold e in *; lia|by eapply H1]. }
      cbn [tls_sum foldr]. fold (tls_sum l'). split; [lia|]. split; [done|]. split; [done|]. split.
      * intros [|i] k' md' e' Hk' Hmd' He'; cbn in Hk', Hmd', He'; [|by eapply H5].
        injection Hk' as <-. injection Hmd' as <-. injection He' as <-. rewrite H6 by done.
        apply list_lookup_insert_eq. by eapply lookup_lt_Some.
      * intros k' Hk'. apply not_elem_of_cons in Hk' as [Hne Hk']. rewrite H6 by done. by rewrite list_lookup_insert_ne by done.
Qed.

Lemma tls_ends_spec b l i md t e :
  0 <= b -> Forall tls_good l -> l !! i = Some md -> tls_block md = Some t -> tls_ends b l !! i = Some e ->
  (exists x, e = tls_at x (t_align t)) /\ b + t_size t <= e
  /\ forall j e', (j < i)%nat -> tls_ends b l !! j = Some e' -> e' + t_size t <= e.
Proof.
  intros Hb0 Hg. revert b i Hb0. induction Hg as [|x l Hx Hg IH]; intros b i Hb0 Hi Ht He; [done|].
  assert (b <= (if tls_block x is Some t then tls_at (b + t_size t) (t_align t) else b)) as Hb.
  { destruct (tls_block x) as [t0|] eqn:H0; [|lia]. destruct (Hx t0 H0).
    pose proof (tls_at_bounds (b + t_size t0) (t_align t0)). lia. }
  destruct i as [|i]; cbn in Hi, He.
  - injection Hi as ->. rewrite Ht in He. injection He as <-. destruct (Hx t Ht).
    pose proof (tls_at_bounds (b + t_size t) (t_align t)). split; [by eauto|]. split; [lia|]. intros j e' Hj. lia.
  - edestruct IH as (H1 & H2 & H3); [|exact Hi|exact Ht|exact He|]; [lia|]. split; [done|]. split; [lia|].
    intros [|j] e' Hj He'; cbn in He'; [injection He' as <-; lia|]. apply (H3 j e'); [lia|done].
Qed.

Lemma tls_ends_length b l : length (tls_ends b l) = length l.
Proof. revert b. induction l as [|md l IH]; intros b; cbn; [done|]. by rewrite IH. Qed.

Lemma tls_block_done md e : tls_block (tls_done md e) = tls_block md.
Proof. unfold tls_done. destruct (tls_block md) as [t|] eqn:Ht; exact Ht. Qed.
Lemma tls_offset_done md e t : tls_block md = Some t -> md_tls_offset (tls_done md e) = e.
Proof. unfold tls_done. by intros ->. Qed.

Lemma init_tls_zero {E} tls mods k md t :
  mods !! k = Some md -> contains (md_flags md) TLS_DONE = false -> 0 <= last_offset tls ->
  tls_block md = Some t -> 0 <= t_size t -> t_align t = 0 -> @init_tls E (tls, mods) k = Panic POverflow.
Proof.
  intros Hk Hf Hlo Hb Hs Ha. unfold init_tls, the_module. rewrite Hk. cbn [unwrap_or_panic mbind outcome_bind]. rewrite Hf.
  unfold tls_block in Hb. destruct (md_tls_info md) as [t'|]; [|done]. destruct (t_size t' =? 0); [done|]. injection Hb as ->.
  rewrite Ha. unfold uadd. destruct (md_tls_index md =? 1); [by rewrite tls_round_zero|].
  destruct (last_offset tls + t_size t <? 2 ^ 64); [|done]. cbn [mbind outcome_bind]. by rewrite tls_round_zero by lia.
Qed.
(** An alignment of 24, which an image may ask for, is not respected. *)
Example tls_misaligned : @tls_round unit 1 24 = Ok 8.
Proof. reflexivity. Qed.

(** C30: The static thread-local storage.  [process_needed_and_relocate] gives
    the main modules, of which only the first has the index of the
    application, blocks below the thread pointer: no two blocks overlap, all
    end within the room that [last_offset] records, and the loop neither fails
    nor overflows when the sizes and alignments of the modules add up to less
    than the address space.  The offset of every block has the bits below its
    alignment clear, so that it respects an alignment that is a power of two;
    images can ask for others, which are not respected.  A module without
    storage keeps its offset, and modules that are not main are left alone.
    All this is for alignments that are not zero: for a block with alignment
    zero, which images can ask for too, the loop overflows. *)
Theorem tls_layout {E} ks l tls mods :
  NoDup ks -> Forall2 (fun k md => mods !! k = Some md) ks l ->
  Forall (fun md => contains (md_flags md) TLS_DONE = false /\ tls_good md) l ->
  Forall (fun md => md_tls_index md <> 1) (tail l) ->
  static_space tls = 0 -> last_offset tls = 0 -> tls_sum l < 2 ^ 64 ->
  exists tls' mods', foldM (@init_tls E) (tls, mods) ks = Ok (tls', mods')
    /\ 0 <= last_offset tls' <= tls_sum l /\ max_index tls' = max_index tls
    /\ (forall k, k ∉ ks -> mods' !! k = mods !! k)
    /\ (forall i k md, ks !! i = Some k -> mods !! k = Some md ->
          exists md', mods' !! k = Some md' /\ tls_block md' = tls_block md /\ contains (md_flags md') TLS_DONE = true
            /\ (tls_block md = None -> md_tls_offset md' = md_tls_offset md)
            /\ forall t, tls_block md = Some t ->
                 Z.land (md_tls_offset md') (t_align t - 1) = 0
                 /\ (forall n, 0 <= n -> t_align t = 2 ^ n -> md_tls_offset md' mod t_align t = 0)
                 /\ t_size t <= md_tls_offset md' <= last_offset tls')
    /\ (forall i j k k' md md' t t', (i < j)%nat -> ks !! i = Some k -> ks !! j = Some k' ->
          mods' !! k = Some md -> mods' !! k' = Some md' -> tls_block md = Some t -> tls_block md' = Some t' ->
          md_tls_offset md <= md_tls_offset md' - t_size t')
    /\ (forall tls mods k md t, mods !! k = Some md -> contains (md_flags md) TLS_DONE = false -> 0 <= last_offset tls ->
          tls_block md = Some t -> 0 <= t_size t -> t_align t = 0 -> @init_tls E (tls, mods) k = Panic POverflow).
Proof.
  intros Hnd Hl Hok Htail Hst Hlo Hsum.
  destruct (init_tls_all (E := E) ks l tls mods) as (tls' & mods' & Hr & H1 & H2 & H3 & H4 & H5 & H6); [done..|lia|lia|].
  exists tls', mods'. rewrite Hlo in *. split; [done|]. split; [lia|]. split; [done|]. split; [done|].
  assert (Forall tls_good l) as Hg by (eapply Forall_impl; [done|]; by intros ? []).
  apply Forall2_same_length_lookup in Hl as [Hlen Hl].
  assert (forall i k, ks !! i = Some k -> exists md e, l !! i = Some md /\ mods !! k = Some md /\ tls_ends 0 l !! i = Some e
            /\ mods' !! k = Some (tls_done md e)) as Hat.
  { intros i k Hk. apply lookup_lt_Some in Hk as Hi. rewrite Hlen in Hi. apply lookup_lt_is_Some_2 in Hi as Hm. destruct Hm as [md Hm].
    rewrite <-(tls_ends_length 0) in Hi. apply lookup_lt_is_Some_2 in Hi as [e He]. exists md, e. split; [done|].
    split; [by eapply Hl|]. split; [done|]. by eapply H5. }
  split; [|split; [|intros tls0 mods0 k0 md0 t0; apply init_tls_zero]].
  - intros i k md Hk Hm. destruct (Hat i k Hk) as (md0 & e & Hi & Hm0 & He & Hd). assert (md0 = md) as -> by congruence.
    exists (tls_done md e). split; [done|]. split; [apply tls_block_done|]. split.
    { unfold tls_done. cbn. unfold md_flags, contains. cbn. apply Z.eqb_eq. apply Z.bits_inj'. intros n Hn.
      rewrite Z.land_spec, Z.lor_spec. by destruct (Z.testbit TLS_DONE n); rewrite ?orb_true_r, ?andb_false_r. }
    split; [by unfold tls_done; intros ->|]. intros t Ht. rewrite (tls_offset_done _ _ t Ht).
    destruct (tls_ends_spec 0 l i md t e ltac:(lia) Hg Hi Ht He) as ((x & ->) & Hb & _). split; [apply tls_at_low|].
    split; [intros n Hn ->; by apply tls_at_aligned|]. split; [lia|]. by eapply H1.
  - intros i j k k' md md' t t' Hij Hk Hk' Hm Hm' Ht Ht'.
    destruct (Hat i k Hk) as (m1 & e1 & Hi1 & _ & He1 & Hd1), (Hat j k' Hk') as (m2 & e2 & Hi2 & _ & He2 & Hd2).
    rewrite Hd1 in Hm. injection Hm as <-. rewrite Hd2 in Hm'. injection Hm' as <-. rewrite tls_block_done in Ht, Ht'.
    rewrite (tls_offset_done _ _ _ Ht), (tls_offset_done _ _ _ Ht').
    destruct (tls_ends_spec 0 l j m2 t' e2 ltac:(lia) Hg Hi2 Ht' He2) as (_ & _ & Hd). pose proof (Hd i e1 Hij He1). lia.
Qed.

(** ** Relocation *)

Lemma reloc_offset_nonneg {E} c r : Forall is_byte c -> @reloc_next E c = Ok r -> 0 <= r_offset r.
Proof.
  intros Hc Hr. unfold reloc_next, read_le, range in Hr. apply bind_Ok in Hr as (off & Ho & Hr).
  apply bind_Ok in Ho as (b & Hb & Ho). apply unwrap_or_panic_Ok, get_range_Some in Hb as [_ ->]. injection Ho as <-.
  apply bind_Ok in Hr as (x & _ & Hr). apply bind_Ok in Hr as (y & _ & Hr). injection Hr as <-. by apply field_nonneg.
Qed.

(** A loop over relocations: [value_of] gives what is written, and a relocation
    for which [stops] holds ends the loop. *)
Section sweep.
Context (md : Module) (value_of : Relocation -> list Z -> outcome RelocateError (option (Relocated * Z))) (stops : Relocation -> bool).

(** Where a relocation writes. *)
Definition target (r : Relocation) : Z := mm_base (md_memory md) + r_offset r.
Definition decodes (c : list Z) (r : Relocation) : Prop := @reloc_next RelocateError c = Ok r.

Inductive sweep : nat -> list (list Z) -> list Z -> list (option Relocated) -> list Z -> list (option Relocated) -> Prop :=
  | sweep_nil i mem dn : sweep i [] mem dn mem dn
  | sweep_done i c cs mem dn h mem' dn' :
      dn !! i = Some (Some h) -> sweep (S i) cs mem dn mem' dn' -> sweep i (c :: cs) mem dn mem' dn'
  | sweep_stop i c cs mem dn r :
      decodes c r -> dn !! i = Some None -> stops r = true -> sweep i (c :: cs) mem dn mem dn
  | sweep_none i c cs mem dn r mem' dn' :
      decodes c r -> dn !! i = Some None -> stops r = false -> value_of r (slice mem (target r) 8) = Ok None ->
      sweep (S i) cs mem dn mem' dn' -> sweep i (c :: cs) mem dn mem' dn'
  | sweep_some i c cs mem dn r how v mem' dn' :
      decodes c r -> dn !! i = Some None -> stops r = false -> value_of r (slice mem (target r) 8) = Ok (Some (how, v)) ->
      target r + 8 <= Z.of_nat (length mem) ->
      sweep (S i) cs (overwrite mem (target r) (le_bytes 8 v)) (<[i := Some how]> dn) mem' dn' ->
      sweep i (c :: cs) mem dn mem' dn'.

(** The relocations that are not done yet: none of them ends the loop, and no
    two write to the same bytes. *)
Definition pending (i : nat) (cs : list (list Z)) (dn : list (option Relocated)) (n : nat) (r : Relocation) : Prop :=
  exists c, cs !! n = Some c /\ decodes c r /\ dn !! (i + n)%nat = Some None.
Definition effective (i : nat) (cs : list (list Z)) (dn : list (option Relocated)) : Prop :=
  forall n r, pending i cs dn n r -> stops r = false.
Definition apart (r r' : Relocation) : Prop := target r + 8 <= target r' \/ target r' + 8 <= target r.
Definition separate (i : nat) (cs : list (list Z)) (dn : list (option Relocated)) : Prop :=
  forall n n' r r', n <> n' -> pending i cs dn n r -> pending i cs dn n' r' -> apart r r'.

(** What is pending after the first one. *)
Lemma pending_tail i c cs dn dn0 n r :
  (forall j, (i < j)%nat -> dn0 !! j = dn !! j) -> pending (S i) cs dn0 n r <-> pending i (c :: cs) dn (S n) r.
Proof.
  intros Hd. unfold pending. cbn. replace (i + S n)%nat with (S (i + n)) by lia. rewrite Hd by lia. done.
Qed.
Lemma pending_head i c cs dn r : decodes c r -> dn !! i = Some None -> pending i (c :: cs) dn 0 r.
Proof. intros Hd Hi. exists c. by rewrite Nat.add_0_r. Qed.
Lemma pending_same i cs dn dn0 n r :
  (forall j, (i <= j)%nat -> dn0 !! j = dn !! j) -> pending i cs dn0 n r <-> pending i cs dn n r.
Proof. intros Hd. unfold pending. rewrite Hd by lia. done. Qed.
Lemma insert_after {A} (i : nat) (x : A) (l : list A) j : (i < j)%nat -> <[i := x]> l !! j = l !! j.
Proof. intros. apply list_lookup_insert_ne. lia. Qed.

Lemma effective_tail i c cs dn dn0 :
  (forall j, (i < j)%nat -> dn0 !! j = dn !! j) -> effective i (c :: cs) dn -> effective (S i) cs dn0.
Proof. intros Hd He n r Hp. eapply (pending_tail _ c) in Hp; [|done]. by apply He in Hp. Qed.
Lemma separate_tail i c cs dn dn0 :
  (forall j, (i < j)%nat -> dn0 !! j = dn !! j) -> separate i (c :: cs) dn -> separate (S i) cs dn0.
Proof.
  intros Hd Hs n n' r r' Hn Hp Hp'. eapply (pending_tail _ c) in Hp, Hp'; [|done..].
  apply (Hs (S n) (S n')); [lia|done|done].
Qed.

(** The relocations that the loop goes through: those before the first pending
    one that ends it. *)
Definition reached (i : nat) (cs : list (list Z)) (dn : list (option Relocated)) (cs1 : list (list Z)) : Prop :=
  effective i cs1 dn
  /\ (cs1 = cs \/ exists c r cs2, cs = cs1 ++ c :: cs2 /\ decodes c r /\ stops r = true /\ dn !! (i + length cs1)%nat = Some None).

Lemma reached_cons i c cs dn dn0 cs1 :
  (forall j, (i < j)%nat -> dn0 !! j = dn !! j) -> (forall r, decodes c r -> dn !! i = Some None -> stops r = false) ->
  reached (S i) cs dn0 cs1 -> reached i (c :: cs) dn (c :: cs1).
Proof.
  intros Hd Hc [He Hr]. split.
  - intros [|n] r Hp.
    + destruct Hp as (c0 & Hn & Hdc & Hi). injection Hn as <-. rewrite Nat.add_0_r in Hi. by apply Hc.
    + apply (He n). by eapply (pending_tail _ c).
  - destruct Hr as [->|(c0 & r & cs2 & -> & Hdc & Hst & Hi)]; [by left|]. right. exists c0, r, cs2.
    split; [done|]. split; [done|]. split; [done|]. rewrite <-Hd by (cbn; lia). cbn.
    by replace (i + S (length cs1))%nat with (S i + length cs1)%nat by lia.
Qed.

Lemma sweep_reached i cs mem dn mem' dn' :
  sweep i cs mem dn mem' dn' -> exists cs1, reached i cs dn cs1 /\ sweep i cs1 mem dn mem' dn'.
Proof.
  induction 1 as [i mem dn|i c cs mem dn h mem' dn' Hi Hs IH|i c cs mem dn r Hd Hi Hst|i c cs mem dn r mem' dn' Hd Hi Hst Hv Hs IH
    |i c cs mem dn r how v mem' dn' Hd Hi Hst Hv Hl Hs IH].
  - exists []. split; [|constructor]. split; [|by left]. intros n r (c & Hn & _). done.
  - destruct IH as (cs1 & Hr & Hw). exists (c :: cs1). split; [|by eapply sweep_done].
    eapply reached_cons; [done|congruence|done].
  - exists []. split; [|constructor]. split; [intros n r0 (c0 & Hn & _); done|]. right. exists c, r, cs.
    split; [done|]. split; [done|]. split; [done|]. by rewrite Nat.add_0_r.
  - destruct IH as (cs1 & Hr & Hw). exists (c :: cs1). split; [|by eapply sweep_none].
    eapply reached_cons; [done| |done]. intros r0 Hd0 _. unfold decodes in *. congruence.
  - destruct IH as (cs1 & Hr & Hw). exists (c :: cs1). split; [|by eapply sweep_some].
    eapply reached_cons; [apply insert_after| |done]. intros r0 Hd0 _. unfold decodes in *. congruence.
Qed.
Lemma reached_bytes i cs dn cs1 : reached i cs dn cs1 -> Forall (Forall is_byte) cs -> Forall (Forall is_byte) cs1.
Proof. intros [_ [->|(c & r & cs2 & -> & _)]]; [done|]. by intros [? _]%Forall_app. Qed.

Hypothesis base_nonneg : 0 <= mm_base (md_memory md).

Lemma reloc_target_nonneg c r : Forall is_byte c -> decodes c r -> 0 <= target r.
Proof. intros Hc Hd. pose proof (reloc_offset_nonneg c r Hc Hd). unfold target. lia. Qed.

(** What is done stays done, and only what is pending is written and
    recorded. *)
Definition framed (i : nat) (cs : list (list Z)) (mem : list Z) (dn : list (option Relocated)) (mem' : list Z)
    (dn' : list (option Relocated)) : Prop :=
  length mem' = length mem /\ length dn' = length dn
  /\ (forall j h, dn !! j = Some (Some h) -> dn' !! j = Some (Some h))
  /\ (forall j, (forall n r, pending i cs dn n r -> j <> (i + n)%nat) -> dn' !! j = dn !! j)
  /\ (forall a, (forall n r, pending i cs dn n r -> ~ target r <= Z.of_nat a < target r + 8) -> mem' !! a = mem !! a).

Lemma framed_refl i cs mem dn : framed i cs mem dn mem dn.
Proof. by repeat split. Qed.
Lemma framed_skip i c cs mem dn mem' dn' : framed (S i) cs mem dn mem' dn' -> framed i (c :: cs) mem dn mem' dn'.
Proof.
  intros (H1 & H2 & H3 & H4 & H5). split; [done|]. split; [done|]. split; [done|]. split.
  - intros j Hj. apply H4. intros n r Hp%(pending_tail _ c _ dn); [|done]. apply Hj in Hp. lia.
  - intros a Ha. apply H5. intros n r Hp%(pending_tail _ c _ dn); [|done]. by apply Ha in Hp.
Qed.
Lemma framed_write i c cs mem dn r how v mem' dn' :
  Forall is_byte c -> decodes c r -> dn !! i = Some None -> target r + 8 <= Z.of_nat (length mem) ->
  framed (S i) cs (overwrite mem (target r) (le_bytes 8 v)) (<[i := Some how]> dn) mem' dn' -> framed i (c :: cs) mem dn mem' dn'.
Proof.
  intros Hc Hd Hi Hl (H1 & H2 & H3 & H4 & H5). pose proof (reloc_target_nonneg c r Hc Hd) as Ht.
  pose proof (pending_head i c cs dn r Hd Hi) as Hp0.
  assert (target r + Z.of_nat (length (le_bytes 8 v)) <= Z.of_nat (length mem)) by (rewrite length_le_bytes; lia).
  split; [by rewrite H1, length_overwrite|]. split; [by rewrite H2, length_insert|]. split; [|split].
  - intros j h Hj. apply H3. rewrite list_lookup_insert_ne; [done|]. congruence.
  - intros j Hj. rewrite H4.
    + apply list_lookup_insert_ne. apply Hj in Hp0. lia.
    + intros n r0 Hp%(pending_tail _ c _ dn); [|apply insert_after]. apply Hj in Hp. lia.
  - intros a Ha. rewrite H5.
    + apply lookup_overwrite_out; [done|done|]. rewrite length_le_bytes. apply Ha in Hp0. lia.
    + intros n r0 Hp%(pending_tail _ c _ dn); [|apply insert_after]. by apply Ha in Hp.
Qed.

Lemma sweep_frame i cs mem dn mem' dn' :
  sweep i cs mem dn mem' dn' -> Forall (Forall is_byte) cs -> framed i cs mem dn mem' dn'.
Proof.
  induction 1 as [| | | |i c cs mem dn r how v mem' dn' Hd Hi _ _ Hl _ IH]; intros Hcs; try apply framed_refl.
  all: apply Forall_cons in Hcs as [Hc Hcs]; eauto using framed_skip, framed_write.
Qed.

(** What a relocation that was pending leaves. *)
Definition applied (mem mem' : list Z) (dn' : list (option Relocated)) (j : nat) (r : Relocation) : Prop :=
  exists o, value_of r (slice mem (target r) 8) = Ok o
    /\ match o with
       | Some (how, v) => dn' !! j = Some (Some how) /\ slice mem' (target r) 8 = le_bytes 8 v
       | None => dn' !! j = Some None /\ slice mem' (target r) 8 = slice mem (target r) 8
       end.

Lemma slice_same {A} (l l' : list A) off n :
  0 <= off -> (forall a, off <= Z.of_nat a < off + n -> l !! a = l' !! a) -> slice l off n = slice l' off n.
Proof.
  intros Ho Hl. apply list_eq. intros i. destruct (decide (i < Z.to_nat n)%nat).
  - rewrite !lookup_slice by lia. apply Hl. lia.
  - unfold slice. by rewrite !lookup_take_ge by lia.
Qed.

(** The bytes of a target that no other relocation writes. *)
Lemma framed_slice i cs mem dn mem' dn' r :
  framed i cs mem dn mem' dn' -> 0 <= target r -> (forall n r0, pending i cs dn n r0 -> apart r r0) ->
  slice mem' (target r) 8 = slice mem (target r) 8.
Proof.
  intros (_ & _ & _ & _ & Hf) Ht Hp. apply slice_same; [done|]. intros a Ha. apply Hf. intros n r0 Hn.
  destruct (Hp n r0 Hn); lia.
Qed.
Lemma framed_before i cs mem dn mem' dn' j : framed i cs mem dn mem' dn' -> (j < i)%nat -> dn' !! j = dn !! j.
Proof. intros (_ & _ & _ & Hf & _) Hj. apply Hf. lia. Qed.

(** The others do not change what one leaves, nor what it starts from. *)
Lemma applied_keep i cs mem dn mem' dn' mem0 j r :
  framed i cs mem dn mem' dn' -> 0 <= target r -> (forall n r0, pending i cs dn n r0 -> apart r r0 /\ j <> (i + n)%nat) ->
  applied mem0 mem dn j r -> applied mem0 mem' dn' j r.
Proof.
  intros Hf Ht Hp (o & Ho & Ha). exists o. split; [done|].
  rewrite (framed_slice i cs mem dn mem' dn' r Hf Ht) by (intros n r0 Hn; by apply (Hp n r0)).
  destruct Hf as (_ & _ & _ & Hf & _). rewrite Hf by (intros n r0 Hn; by apply (Hp n r0)). done.
Qed.
Lemma applied_start mem mem0 mem' dn' j r :
  slice mem0 (target r) 8 = slice mem (target r) 8 -> applied mem0 mem' dn' j r -> applied mem mem' dn' j r.
Proof. unfold applied. by intros ->. Qed.

(** The first relocation. *)
Lemma sweep_first i c cs mem dn mem' dn' r :
  sweep i (c :: cs) mem dn mem' dn' -> Forall is_byte c -> Forall (Forall is_byte) cs ->
  effective i (c :: cs) dn -> separate i (c :: cs) dn -> pending i (c :: cs) dn 0 r -> applied mem mem' dn' i r.
Proof.
  intros Hr Hc Hcs He Hs Hp. pose proof Hp as (c0 & Hn & Hd0 & Hdn). injection Hn as <-. rewrite Nat.add_0_r in Hdn.
  pose proof (reloc_target_nonneg c r Hc Hd0) as Ht.
  assert (forall dn0 n r0, (forall j, (i < j)%nat -> dn0 !! j = dn !! j) -> pending (S i) cs dn0 n r0 -> apart r r0 /\ i <> (S i + n)%nat) as Hk.
  { intros dn0 n r0 Hd1 Hp1. eapply (pending_tail _ c) in Hp1; [|done]. split; [by apply (Hs 0%nat (S n))|lia]. }
  apply He in Hp as Hno.
  inversion Hr as [| |? ? ? ? ? r1 Hd1|? ? ? ? ? r1 ? ? Hd1 ? ? Hv Hw|? ? ? ? ? r1 how v ? ? Hd1 ? ? Hv Hl Hw]; subst; [congruence|..].
  all: assert (r1 = r) as -> by (unfold decodes in *; congruence).
  - congruence.
  - eapply applied_keep; [by eapply sweep_frame|done|by intros n r0; apply Hk|]. exists None. done.
  - eapply applied_keep; [by eapply sweep_frame|done|intros n r0; apply Hk, insert_after|]. exists (Some (how, v)). split; [done|].
    split; [by eapply list_lookup_insert_eq, lookup_lt_Some|].
    apply (slice_overwrite_in mem (target r) (le_bytes 8 v)); [done|]. rewrite length_le_bytes. lia.
Qed.

Lemma sweep_applied i cs mem dn mem' dn' n r :
  sweep i cs mem dn mem' dn' -> Forall (Forall is_byte) cs -> effective i cs dn -> separate i cs dn ->
  pending i cs dn n r -> applied mem mem' dn' (i + n) r.
Proof.
  intros Hr Hcs. revert i mem dn n Hr. induction Hcs as [|c cs Hc Hcs IH]; intros i mem dn n Hr He Hs Hp.
  { destruct Hp as (c & Hn & _). done. }
  destruct n as [|n]; [rewrite Nat.add_0_r; by eapply sweep_first|]. replace (i + S n)%nat with (S i + n)%nat by lia.
  assert (forall mem0 dn0, sweep (S i) cs mem0 dn0 mem' dn' -> (forall j, (i < j)%nat -> dn0 !! j = dn !! j) ->
            slice mem0 (target r) 8 = slice mem (target r) 8 -> applied mem mem' dn' (S i + n) r) as Hk.
  { intros mem0 dn0 H0 Hd1 Hsl. eapply applied_start; [done|].
    eapply IH; [done|by eapply effective_tail|by eapply separate_tail|by eapply pending_tail]. }
  inversion Hr as [| |? ? ? ? ? r1 Hd1|? ? ? ? ? r1 ? ? Hd1 ? ? Hv Hw|? ? ? ? ? r1 how v ? ? Hd1 ? ? Hv Hl Hw]; subst;
    [by eapply Hk| |by eapply Hk|].
  - rewrite (He 0%nat r1) in *; [done|by apply pending_head].
  - pose proof (reloc_target_nonneg c r1 Hc Hd1) as Ht1.
    assert (0 <= target r) as Ht by (destruct Hp as (c0 & Hn & Hd0 & _); exact (reloc_target_nonneg c0 r (Forall_lookup_1 _ _ _ _ Hcs Hn) Hd0)).
    eapply Hk; [done|apply insert_after|]. apply slice_overwrite_out; [done|rewrite length_le_bytes; lia|done|].
    rewrite length_le_bytes. destruct (Hs 0%nat (S n) r1 r); [done|by apply pending_head|done|right; lia|left; lia].
Qed.
End sweep.

Definition is_none (r : Relocation) : bool := r_ty r =? R_X86_64_NONE.

Section relocate.
Context (get_function : nat -> Z -> option Z) (mods : list Module) (bin : Binaries) (alg : bool) (k : nat) (md : Module).
Hypothesis at_k : mods !! k = Some md.
Local Notation value_of := (rela_value get_function mods bin alg k).

(** The value of a slot of the procedure linkage table. *)
Definition plt_value (r : Relocation) (_ : list Z) : outcome RelocateError (option (Relocated * Z)) :=
  s ← map_err (fun _ => Loops) (resolve_with_local mods bin alg k (r_symbol r) UNK1);
  match s with
  | None => Ok None
  | Some (m, j) => '(how, v) ← get_relocated get_function mods m j; Ok (Some (how, wrapping_add_signed v (r_addend r)))
  end.

Lemma at_k_Ok {E} md0 : @the_module mods E k = Ok md0 -> md0 = md.
Proof. unfold the_module. intros H%unwrap_or_panic_Ok. congruence. Qed.

Lemma rela_sweep i cs mem dn mem' dn' :
  relocate_rela get_function mods bin alg k i cs mem dn = Ok (mem', dn') -> sweep md value_of is_none i cs mem dn mem' dn'.
Proof.
  revert i mem dn. induction cs as [|c cs IH]; intros i mem dn Hr; cbn [relocate_rela] in Hr; [injection Hr as <- <-; constructor|].
  apply bind_Ok in Hr as (r & Hd & Hr). apply bind_Ok in Hr as (d & Hi & Hr). apply unwrap_or_panic_Ok in Hi.
  destruct d; [eapply sweep_done; by eauto|].
  apply bind_Ok in Hr as (md0 & ->%at_k_Ok & Hr). apply bind_Ok in Hr as (off & Ho & Hr). apply uadd_Ok in Ho as [-> _].
  apply bind_Ok in Hr as (e & He & Hr). apply uadd_Ok in He as [-> _]. apply bind_Ok in Hr as (tg & Ht & Hr).
  unfold range in Ht. apply unwrap_or_panic_Ok, get_range_Some in Ht as [Hl ->]. fold (target md r) in *.
  replace (target md r + 8 - target md r) with 8 in Hr by lia.
  destruct (r_ty r =? R_X86_64_NONE) eqn:Hn; [injection Hr as <- <-; by eapply sweep_stop|].
  apply bind_Ok in Hr as (o & Ho & Hr). destruct o as [[how v]|]; [|by eapply sweep_none; eauto].
  eapply sweep_some; [done|done|done|done|lia|by apply IH].
Qed.

Lemma plt_sweep count i cs mem dn mem' dn' :
  relocate_plt get_function mods bin alg k count i cs mem dn = Ok (mem', dn') ->
  sweep md plt_value (fun _ => false) (count + i) cs mem dn mem' dn'
  /\ forall n r, pending (count + i) cs dn n r -> r_ty r = R_X86_64_JUMP_SLOT.
Proof.
  revert i mem dn. induction cs as [|c cs IH]; intros i mem dn Hr; cbn [relocate_plt] in Hr.
  { injection Hr as <- <-. split; [constructor|]. by intros n r (c & Hn & _). }
  apply bind_Ok in Hr as (r & Hd & Hr). apply bind_Ok in Hr as (d & Hi & Hr). apply unwrap_or_panic_Ok in Hi.
  assert (forall mem0 dn0, relocate_plt get_function mods bin alg k count (S i) cs mem0 dn0 = Ok (mem', dn') ->
            (forall j, (count + i < j)%nat -> dn0 !! j = dn !! j) -> (d = None -> r_ty r = R_X86_64_JUMP_SLOT) ->
            sweep md plt_value (fun _ => false) (S (count + i)) cs mem0 dn0 mem' dn'
            /\ forall n r, pending (count + i) (c :: cs) dn n r -> r_ty r = R_X86_64_JUMP_SLOT) as Hk.
  { intros mem0 dn0 H0 Hj Ht. apply IH in H0 as [Hw Hp]. rewrite Nat.add_succ_r in Hw, Hp. split; [done|].
    intros [|n] r0 H1; [|eapply Hp, (pending_tail _ c); done]. destruct H1 as (c0 & Hn & Hd0 & Hi0). injection Hn as <-.
    rewrite Nat.add_0_r in Hi0. assert (r0 = r) as -> by (unfold decodes in *; congruence). apply Ht. congruence. }
  destruct d; [apply Hk in Hr as [? ?]; [|done..]; split; [by eapply sweep_done|done]|].
  apply bind_Ok in Hr as (md0 & ->%at_k_Ok & Hr). apply bind_Ok in Hr as ([] & Hf & Hr). apply fail_if_Ok, negb_false_iff, Z.eqb_eq in Hf.
  apply bind_Ok in Hr as (o & Ho & Hr). destruct o as [[m j]|].
  - apply bind_Ok in Hr as ([how v] & Hg & Hr). apply bind_Ok in Hr as (off & Hoff & Hr). apply uadd_Ok in Hoff as [-> _].
    apply bind_Ok in Hr as (e & He & Hr). apply uadd_Ok in He as [-> _]. apply bind_Ok in Hr as (tg & Ht & Hr).
    unfold range in Ht. apply unwrap_or_panic_Ok, get_range_Some in Ht as [Hl ->]. fold (target md r) in *.
    apply Hk in Hr as [? ?]; [|apply insert_after|done]. split; [|done].
    eapply sweep_some; [done|done|done| |lia|done]. unfold plt_value. rewrite Ho. cbn. by rewrite Hg.
  - apply Hk in Hr as [? ?]; [|done..]. split; [|done]. eapply sweep_none; [done..| |done]. unfold plt_value. by rewrite Ho.
Qed.
End relocate.

(** A relocation that can be read is one of those that are counted. *)
Lemma chunks_go_fits {A} f n (l : list A) i c : chunks_go f n l !! i = Some c -> (i * n + length c <= length l)%nat.
Proof.
  revert l i. induction f as [|f IH]; intros l i Hi; [done|]. destruct l as [|x l]; [done|]. cbn [chunks_go] in Hi.
  destruct i as [|i]; [injection Hi as <-; rewrite length_take; lia|]. cbn in Hi.
  destruct (decide (length (x :: l) <= n)%nat).
  - rewrite drop_ge in Hi by done. by destruct f.
  - apply IH in Hi. rewrite length_drop in Hi. lia.
Qed.
Lemma reloc_counted {E} info cs n c r :
  @relocs E info = Ok cs -> cs !! n = Some c -> decodes c r -> (n < Z.to_nat (reloc_count info))%nat.
Proof.
  intros Hr Hn Hd. unfold relocs in Hr. apply bind_Ok in Hr as (b & Hb & Hr). injection Hr as <-.
  unfold table in Hb. apply bind_Ok in Hb as (e & He & Hb). apply uadd_Ok in He as [-> _].
  unfold range in Hb. apply unwrap_or_panic_Ok, get_range_Some in Hb as [Hl ->].
  apply chunks_go_fits in Hn. unfold slice in Hn. rewrite length_take, length_drop in Hn.
  assert (24 <= length c)%nat.
  { unfold decodes, reloc_next in Hd. apply bind_Ok in Hd as (x & _ & Hd). apply bind_Ok in Hd as (y & _ & Hd).
    apply bind_Ok in Hd as (z & Hz & _). unfold read_le, range in Hz. apply bind_Ok in Hz as (w & Hw & _).
    apply unwrap_or_panic_Ok, get_range_Some in Hw as [? _]. lia. }
  unfold reloc_count. apply Nat2Z.inj_lt. pose proof (Z.div_le_lower_bound (relasz info) 24 (Z.of_nat n + 1)). lia.
Qed.

Lemma chunks_bytes {E} info off n m cs :
  Forall is_byte (i_data info) -> (b ← @table E info off n; Ok (chunks m b)) = Ok cs -> Forall (Forall is_byte) cs.
Proof.
  intros Hd Hr. apply bind_Ok in Hr as (b & Hb & Hr). injection Hr as <-. apply chunks_go_Forall.
  unfold table in Hb. apply bind_Ok in Hb as (e & _ & Hb). unfold range in Hb. apply unwrap_or_panic_Ok, get_range_Some in Hb as [_ ->].
  unfold slice. by apply Forall_take, Forall_drop.
Qed.

(** What [relocate_single] does with a module: both loops, on the bytes of the
    programs. *)
Definition program_end (m : Memory) : outcome RelocateError Z :=
  if last (program_segments (mm_segments m)) is Some s then ms_end s else Ok 0.
Definition slots_of {A} (md : Module) (ps : list A) : list A := if contains (md_flags md) JMPSLOTS_DONE then [] else ps.

Lemma relocate_single_Ok get_function H mods bin alg k md info cs ps vm mods' vm' :
  mods !! k = Some md -> md_file_info md = Some info -> @relocs RelocateError info = Ok cs -> @plt_relocs RelocateError info = Ok ps ->
  relocate_single get_function H bin alg (mods, vm) k = Ok (mods', vm') ->
  exists e mem1 dn1 mem' dn', program_end (md_memory md) = Ok e
    /\ relocate_rela get_function mods bin alg k 0 cs (slice (mm_bytes (md_memory md)) 0 e) (md_relocated md) = Ok (mem1, dn1)
    /\ relocate_plt get_function mods bin alg k (Z.to_nat (reloc_count info)) 0 (slots_of md ps) mem1 dn1 = Ok (mem', dn')
    /\ mods' = <[k := set_relocated (set_bytes (overwrite (mm_bytes (md_memory md)) 0 mem') (md_memory md)) dn' md]> mods.
Proof.
  intros Hk Hi Hc Hp Hr. unfold relocate_single in Hr. apply bind_Ok in Hr as (md0 & Hm & Hr). apply (at_k_Ok mods k md Hk) in Hm as ->.
  apply bind_Ok in Hr as ([[m dn'] vm1] & Hw & Hr). injection Hr as <- <-. unfold with_memory in Hw.
  apply bind_Ok in Hw as (e & He & Hw). apply bind_Ok in Hw as (vm2 & _ & Hw). rewrite Hi in Hw. cbn [unwrap_or_panic] in Hw.
  change (mbind ?f (Ok ?x)) with (f x) in Hw. cbv beta in Hw. rewrite Hc, Hp in Hw. change (mbind ?f (Ok ?x)) with (f x) in Hw. cbv beta in Hw.
  destruct (relocate_rela _ _ _ _ _ _ _ _ _) as [[mem1 dn1]|e1|q1] eqn:Hrela;
    [|by apply bind_Ok in Hw as (? & _ & Hw)|done].
  change (mbind ?f (Ok ?x)) with (f x) in Hw. cbv beta iota in Hw.
  assert (exists mem' vm3, relocate_plt get_function mods bin alg k (Z.to_nat (reloc_count info)) 0 (slots_of md ps) mem1 dn1 = Ok (mem', dn')
            /\ (m, vm1) = (set_bytes (overwrite (mm_bytes (md_memory md)) 0 mem') (md_memory md), vm3)) as (mem' & vm3 & Hplt & Hm).
  { unfold slots_of. destruct (contains _ _).
    - apply bind_Ok in Hw as (vm3 & _ & Hw). injection Hw as <- <- <-. by exists mem1, vm3.
    - change (mbind ?f (Ok ?x)) with (f x) in Hw. cbv beta in Hw. destruct (relocate_plt _ _ _ _ _ _ _ _ _ _) as [[mem2 dn2]|e1|q1] eqn:Hplt;
        [|by apply bind_Ok in Hw as (? & _ & Hw)|done].
      apply bind_Ok in Hw as (vm3 & _ & Hw). injection Hw as <- <- <-. by exists mem2, vm3. }
  injection Hm as -> _. exists e, mem1, dn1, mem', dn'. done.
Qed.

(** Both loops, when what one records is not of the other. *)
Lemma apart_sym md r r' : apart md r r' -> apart md r' r.
Proof. unfold apart. tauto. Qed.

Section both.
Context (md : Module) (value_of value_of' : Relocation -> list Z -> outcome RelocateError (option (Relocated * Z))).
Context (count : nat) (cs ps : list (list Z)) (mem mem1 mem' : list Z) (dn dn1 dn' : list (option Relocated)).
Hypothesis base_nonneg : 0 <= mm_base (md_memory md).
Hypothesis first : sweep md value_of is_none 0 cs mem dn mem1 dn1.
Hypothesis second : sweep md value_of' (fun _ => false) count ps mem1 dn1 mem' dn'.
Hypothesis cs_bytes : Forall (Forall is_byte) cs.
Hypothesis ps_bytes : Forall (Forall is_byte) ps.
Hypothesis counted : forall n r, pending 0 cs dn n r -> (n < count)%nat.

Lemma both_first : framed md 0 cs mem dn mem1 dn1.
Proof. by apply (sweep_frame md value_of is_none base_nonneg). Qed.
Lemma both_second : framed md count ps mem1 dn1 mem' dn'.
Proof. by apply (sweep_frame md value_of' (fun _ => false) base_nonneg). Qed.
Lemma both_pending n r : pending count ps dn1 n r <-> pending count ps dn n r.
Proof.
  apply pending_same. intros j Hj. destruct both_first as (_ & _ & _ & Hf & _). apply Hf. intros m r0 Hm%counted. lia.
Qed.

Lemma both_framed :
  length mem' = length mem /\ length dn' = length dn
  /\ (forall j h, dn !! j = Some (Some h) -> dn' !! j = Some (Some h))
  /\ (forall a, (forall n r, pending 0 cs dn n r \/ pending count ps dn n r -> ~ target md r <= Z.of_nat a < target md r + 8) ->
        mem' !! a = mem !! a).
Proof.
  destruct both_first as (H1 & H2 & H3 & _ & H5), both_second as (K1 & K2 & K3 & _ & K5).
  split; [congruence|]. split; [congruence|]. split; [auto|]. intros a Ha. rewrite K5, H5; [done|..].
  - intros n r Hn. apply (Ha n). by left.
  - intros n r Hn%both_pending. apply (Ha n). by right.
Qed.

Lemma both_applied :
  effective is_none 0 cs dn -> separate md 0 cs dn -> separate md count ps dn ->
  (forall n n' r r', pending 0 cs dn n r -> pending count ps dn n' r' -> apart md r r') ->
  (forall n r, pending 0 cs dn n r -> applied md value_of mem mem' dn' n r)
  /\ (forall n r, pending count ps dn n r -> applied md value_of' mem mem' dn' (count + n) r).
Proof.
  intros He Hs Hs' Hx.
  assert (forall i l n r, Forall (Forall is_byte) l -> pending i l dn n r -> 0 <= target md r) as Ht.
  { intros i l n r Hl (c & Hn & Hd & _). eapply reloc_target_nonneg; [done| |exact Hd]. by eapply Forall_lookup_1. }
  split; intros n r Hp.
  - eapply (applied_keep md value_of); [exact both_second|exact (Ht 0%nat cs n r cs_bytes Hp)| |].
    + intros m r0 Hm%both_pending. split; [by eapply Hx|]. apply counted in Hp. lia.
    + by apply (sweep_applied md value_of is_none base_nonneg 0 cs mem dn mem1 dn1).
  - eapply (applied_start md value_of' mem mem1).
    + eapply framed_slice; [exact both_first|exact (Ht count ps n r ps_bytes Hp)|]. intros m r0 Hm. by eapply apart_sym, Hx.
    + apply (sweep_applied md value_of' (fun _ => false) base_nonneg count ps mem1 dn1); [done|done|by intros ? ? _| |by apply both_pending].
      intros m m' r0 r0' Hm Hp0%both_pending Hp1%both_pending. by apply (Hs' m m').
Qed.
End both.

(** C29: Relocating a module ([relocate_single]), when it succeeds.  The
    relocations of the module are those of its file up to the first one of type
    NONE that is not done, where the first loop ends; its slots are the
    relocations of the procedure linkage table, which all have type JUMP_SLOT,
    or none when the module has its slots done.  What was done before stays
    done and is not applied again, only the targets of the others are written,
    and the memory keeps its size.  When no two of the others write to the same
    bytes, each has the value that its type and its symbol give, at its target,
    and is recorded as done; one with a symbol that is not found leaves its
    target and is not recorded. *)
Theorem relocations_applied get_function H mods bin alg k md info cs ps vm mods' vm' :
  mods !! k = Some md -> 0 <= mm_base (md_memory md) -> md_file_info md = Some info -> Forall is_byte (i_data info) ->
  @relocs RelocateError info = Ok cs -> @plt_relocs RelocateError info = Ok ps ->
  relocate_single get_function H bin alg (mods, vm) k = Ok (mods', vm') ->
  let dn := md_relocated md in let count := Z.to_nat (reloc_count info) in let slots := slots_of md ps in
  exists e cs1 mem' dn', program_end (md_memory md) = Ok e /\ reached is_none 0 cs dn cs1
    /\ mods' = <[k := set_relocated (set_bytes (overwrite (mm_bytes (md_memory md)) 0 mem') (md_memory md)) dn' md]> mods
    /\ let mem := slice (mm_bytes (md_memory md)) 0 e in
       length mem' = length mem /\ length dn' = length dn
       /\ (forall j h, dn !! j = Some (Some h) -> dn' !! j = Some (Some h))
       /\ (forall a, (forall n r, pending 0 cs1 dn n r \/ pending count slots dn n r -> ~ target md r <= Z.of_nat a < target md r + 8) ->
             mem' !! a = mem !! a)
       /\ (forall n r, pending count slots dn n r -> r_ty r = R_X86_64_JUMP_SLOT)
       /\ (separate md 0 cs1 dn -> separate md count slots dn ->
            (forall n n' r r', pending 0 cs1 dn n r -> pending count slots dn n' r' -> apart md r r') ->
            (forall n r, pending 0 cs1 dn n r -> applied md (rela_value get_function mods bin alg k) mem mem' dn' n r)
            /\ (forall n r, pending count slots dn n r -> applied md (plt_value get_function mods bin alg k) mem mem' dn' (count + n) r)).
Proof.
  intros Hk Hb Hi Hd Hc Hp Hr. cbv zeta.
  destruct (relocate_single_Ok get_function H mods bin alg k md info cs ps vm mods' vm' Hk Hi Hc Hp Hr)
    as (e & mem1 & dn1 & mem' & dn' & He & H1 & H2 & Hm).
  apply (rela_sweep get_function mods bin alg k md Hk), sweep_reached in H1 as (cs1 & Hre & H1).
  apply (plt_sweep get_function mods bin alg k md Hk) in H2 as [H2 Hty]. rewrite Nat.add_0_r in H2, Hty.
  assert (Forall (Forall is_byte) cs1) as Hcs1 by (eapply reached_bytes; [done|]; by eapply chunks_bytes).
  assert (Forall (Forall is_byte) (slots_of md ps)) as Hps.
  { unfold slots_of. destruct (contains _ _); [apply Forall_nil_2|]. by eapply chunks_bytes. }
  assert (forall n r, pending 0 cs1 (md_relocated md) n r -> (n < Z.to_nat (reloc_count info))%nat) as Hn.
  { intros n r (c & Hn & Hdc & _). eapply reloc_counted; [done| |done]. destruct Hre as [_ [->|(? & ? & ? & -> & _)]]; [done|].
    by apply lookup_app_l_Some. }
  exists e, cs1, mem', dn'. split; [done|]. split; [done|]. split; [done|].
  destruct (both_framed md _ _ _ _ _ _ _ _ _ _ _ Hb H1 H2 Hcs1 Hps Hn) as (F1 & F2 & F3 & F4).
  split; [done|]. split; [done|]. split; [done|]. split; [done|]. split.
  - intros n r Hpn. apply (Hty n). by apply (both_pending md _ _ _ _ _ _ _ _ Hb H1 Hcs1 Hn).
  - intros Hs Hs' Hx. by apply (both_applied md _ _ _ _ _ _ _ _ _ _ _ Hb H1 H2 Hcs1 Hps Hn (proj1 Hre)).
Qed.

(** ** A process *)

(** A module at [0x800000000] with 64 bytes of data. *)
Definition demo_md (index : Z) (t : option ModuleTls) : Module :=
  MkModule 0 None index t None None None 0 (MkDigest None None 0 [] [] [] [] []) None [] false ET_SCE_DYNAMIC [] [] 0 [] []
    (MkMemory 0x800000000 64 [MkSeg 0 64 (Some 0%nat) 3] 0 0 0 None 0 0 0 0 (replicate 64 0)) [None; None] 1.

(** A module with two relocations and one of type NONE between them, and with
    one slot. *)
Definition reloc_bytes (off info addend : Z) : list Z := le_bytes 8 off ++ le_bytes 8 info ++ le_bytes 8 addend.
Definition demo_rela : list (list Z) := [reloc_bytes 8 R_X86_64_RELATIVE 0x10; reloc_bytes 0 0 0; reloc_bytes 0x18 R_X86_64_RELATIVE 0x20].
Definition demo_slot : list Z := reloc_bytes 0x20 (2 ^ 32 + R_X86_64_JUMP_SLOT) 4.
Definition demo_info : FileInfo := MkInfo (concat demo_rela ++ demo_slot) [] 0 0 24 72 0 72 0 0 0 0 [] [0; 0].
Definition demo_linked : Module :=
  MkModule 0 None 1 None None None None 0 (MkDigest None None 0 [] [] [] [] []) (Some demo_info) [] false ET_SCE_DYNAMIC []
    [MkSymbol [] 0 0 0; MkSymbol [] 0 0 0x30] 0 [] []
    (MkMemory 0x14000 64 [MkSeg 0 64 (Some 0%nat) 3] 0 0 0 None 0 0 0 0 (replicate 64 0)) [None; None; None; None] 1.

Lemma reloc_bytes_ok off info addend : Forall is_byte (reloc_bytes off info addend).
Proof. unfold reloc_bytes. rewrite !Forall_app. auto using le_bytes_is_byte. Qed.
Lemma demo_info_bytes : Forall is_byte (i_data demo_info).
Proof. unfold demo_info, demo_rela, demo_slot. cbn [i_data concat]. rewrite !Forall_app. auto using reloc_bytes_ok. Qed.

(** The first relocation and the slot are pending before the loop ends. *)
Lemma demo_reached cs1 :
  reached is_none 0 demo_rela [None; None; None; None] cs1 -> cs1 = [reloc_bytes 8 R_X86_64_RELATIVE 0x10].
Proof.
  intros [He Hr].
  assert (cs1 !! 1%nat <> Some (reloc_bytes 0 0 0)) as Hno.
  { intros H1. specialize (He 1%nat (MkReloc 0 0 0)). discriminate He. exists (reloc_bytes 0 0 0). split; [done|]. split; reflexivity. }
  destruct Hr as [->|(c & r & cs2 & Hc & Hd & Hst & _)]; [done|].
  destruct cs1 as [|c1 [|c2 cs1]]; cbn in Hc; [|by injection Hc as -> _ _|injection Hc as _ <- _; done].
  injection Hc as <- _. vm_compute in Hd. injection Hd as <-. done.
Qed.
Lemma demo_pending n r : pending 0 [reloc_bytes 8 R_X86_64_RELATIVE 0x10] [None; None; None; None] n r -> n = 0%nat /\ r = MkReloc 8 8 0x10.
Proof.
  intros (c & Hn & Hd & _). unfold decodes in Hd. destruct n; [|done]. injection Hn as <-. vm_compute in Hd. by injection Hd.
Qed.
Lemma demo_slots n r :
  pending 3 [demo_slot] [None; None; None; None] n r -> n = 0%nat /\ r = MkReloc 0x20 (2 ^ 32 + 7) 4.
Proof.
  intros (c & Hn & Hd & _). unfold decodes in Hd. destruct n; [|done]. injection Hn as <-. vm_compute in Hd. by injection Hd.
Qed.

Lemma relocations_applied_witness :
  exists mods' vm' mem' dn', relocate_single (fun _ _ => None) VmSpaceSpec.demo_host (binaries_new 0) true ([demo_linked], VmSpaceSpec.demo_space) 0
      = Ok (mods', vm')
    /\ mods' = [set_relocated (set_bytes (overwrite (replicate 64 0) 0 mem') (md_memory demo_linked)) dn' demo_linked]
    /\ slice mem' 8 8 = le_bytes 8 0x14010 /\ dn' !! 0%nat = Some (Some (Data 0 0x14010))
    /\ slice mem' 0x20 8 = le_bytes 8 0x14034 /\ dn' !! 3%nat = Some (Some (Data 0 0x14030)).
Proof.
  destruct (relocate_single (fun _ _ => None) VmSpaceSpec.demo_host (binaries_new 0) true ([demo_linked], VmSpaceSpec.demo_space) 0)
    as [[mods' vm']| |] eqn:Hr; [|by vm_compute in Hr..].
  destruct (relocations_applied (fun _ _ => None) VmSpaceSpec.demo_host [demo_linked] (binaries_new 0) true 0 demo_linked demo_info demo_rela
              [demo_slot] VmSpaceSpec.demo_space mods' vm' eq_refl ltac:(cbn; lia) eq_refl demo_info_bytes eq_refl eq_refl Hr)
    as (e & cs1 & mem' & dn' & He & Hre & Hm & _ & _ & _ & _ & _ & Ha).
  apply demo_reached in Hre as ->. destruct Ha as [H1 H2].
  - intros n n' r r' Hn [-> ->]%demo_pending [-> ->]%demo_pending. done.
  - intros n n' r r' Hn [-> ->]%demo_slots [-> ->]%demo_slots. done.
  - intros n n' r r' [-> ->]%demo_pending [-> ->]%demo_slots. left. vm_compute. discriminate.
  - exists mods', vm', mem', dn'. split; [reflexivity|]. split; [exact Hm|]. clear Hr. vm_compute in He. injection He as <-.
    destruct (H1 0%nat (MkReloc 8 8 0x10)) as (o & Ho & Ho'); [eexists; split; [reflexivity|split; reflexivity]|].
    destruct (H2 0%nat (MkReloc 0x20 (2 ^ 32 + 7) 4)) as (o2 & Ho2 & Ho2'); [eexists; split; [reflexivity|split; reflexivity]|].
    vm_compute in Ho, Ho2. injection Ho as <-. injection Ho2 as <-. destruct Ho' as [? ?], Ho2' as [? ?]. auto.
Defined.

(** Two modules with storage around one that has none. *)
Definition demo_tls : list Module :=
  [demo_md 1 (Some (MkTls 0 0 0x24 0x10)); demo_md 2 None; demo_md 3 (Some (MkTls 0 8 0x100 0x20))].

Lemma demo_good : Forall (fun md => contains (md_flags md) TLS_DONE = false /\ tls_good md) demo_tls.
Proof.
  unfold demo_tls. rewrite !Forall_cons. split; [|split; [|split; [|apply Forall_nil_2]]]; (split; [reflexivity|]); intros t Ht;
    vm_compute in Ht; try discriminate; injection Ht as <-; cbn; lia.
Qed.

Lemma tls_layout_witness :
  exists tls' mods', foldM (@init_tls unit) (MkTlsAlloc 3 0 0 0, demo_tls) [0%nat; 1%nat; 2%nat] = Ok (tls', mods')
    /\ md_tls_offset <$> mods' = [0x30; 0; 0x140] /\ last_offset tls' = 0x140.
Proof.
  destruct (tls_layout (E := unit) [0%nat; 1%nat; 2%nat] demo_tls (MkTlsAlloc 3 0 0 0) demo_tls) as (tls' & mods' & Hr & _).
  - apply (bool_decide_unpack _). reflexivity.
  - repeat constructor.
  - exact demo_good.
  - repeat constructor; discriminate.
  - reflexivity.
  - reflexivity.
  - reflexivity.
  - exists tls', mods'. split; [exact Hr|]. vm_compute in Hr. injection Hr as <- <-. split; reflexivity.
Defined.

(** An index that a module gave back is used again. *)
Lemma tls_indices_witness :
  tls_alloc [1; 2; 4] (MkTlsAlloc 4 0 0 0) = (3, MkTlsAlloc 4 0 0 0) /\ 3 ∉ [1; 2; 4].
Proof.
  split; [reflexivity|].
  apply (tls_indices (OE := unit) VmSpaceSpec.demo_host (fun _ => inr (Cursor [] 0)) (fun md vm => @Ok unit _ (md, vm)) None
           ltac:(intros md vm md' vm' E; injection E as <- _; reflexivity)
         : _ /\ _ /\ forall used a, _) with (used := [1; 2; 4]) (a := MkTlsAlloc 4 0 0 0).
  - cbn. lia.
  - intros u Hu. rewrite !elem_of_cons, elem_of_nil in Hu. cbn. lia.
Defined.
