(* ===== verification/Vnode.v ===== *)
(** * Vnodes and file systems of the previous kernel

    Models [legacy/src/fs]: vnodes and mounts ([vnode.rs], [mount.rs]) and the
    file systems, which are directories of the host ([host]), memory ([tmp]),
    devices ([dev]) and another directory of the system ([null]).

    Vnodes, mounts and the entries of the device file system are shared
    objects: the world holds them in lists that only grow, and a reference is
    an index, so that two references are to the same object when they are
    equal.  Vnodes that were dropped are in [dead]; [release] finds those that
    nothing refers to any more.  A file of the host is its path from the
    directory that is mounted, since [HostFile] keeps its parent and is opened
    by name from it; what the host answers is a parameter.  The errors of a
    file system are boxed as [dyn Errno], of which only the number is used. *)
From S2P Require Import Prelude Env Cred VPath Sysctl.

Module Vnode.
Import Env.
Local Open Scope list_scope.
Local Open Scope Z_scope.
Definition EPERM : Z := 1.
Definition ENOENT : Z := 2.
Definition EIO : Z := 5.
Definition EACCES : Z := 13.
Definition EEXIST : Z := 17.
Definition ENOTDIR : Z := 20.
Definition EINVAL : Z := 22.
Definition ENOSPC : Z := 28.
Definition EROFS : Z := 30.
Definition EOPNOTSUPP : Z := 45.

Definition MNT_RDONLY : Z := 0x1.
Definition MNT_LOCAL : Z := 0x1000.
Definition MNT_ROOTFS : Z := 0x4000.
Definition MNT_UPDATE : Z := 0x10000.
Definition intersects (flags f : Z) : bool := negb (Z.land flags f =? 0).

(** ** Objects *)

Inductive VnodeType := File | Directory (root : bool) | CharacterDevice | Link.
Inductive VnodeItem := IMount (m : nat) | IDevice (d : nat).
(** The implementations of [VnodeBackend] with what they refer to. *)
Inductive Backend := BHost (file : list str) | BTmp (node : nat) | BDev (ent : nat) | BNull (lower : nat).
Record Vnode := MkVnode {
  v_mount : nat;
  v_ty : VnodeType;
  v_backend : Backend;
  v_hash : Z;
  v_item : option VnodeItem
}.
Definition is_directory (x : Vnode) : bool := if v_ty x is Directory _ then true else false.
Definition is_character (x : Vnode) : bool := if v_ty x is CharacterDevice then true else false.

(** [VnodeAttrs]. *)
Record Attrs := MkAttrs { a_uid : Z; a_gid : Z; a_mode : Z; a_size : Z; a_fsid : Z }.

(** [Node] of tmpfs: the entries of a directory, [None] for a file. *)
Record TNode := MkTNode { t_vnode : option nat; t_dir : option (bool * list (str * nat)) }.
(** The implementations of [Filesystem].  The nodes of a tmpfs are in the
    order of their creation, the root first. *)
Inductive FsData :=
  | DHost (root : Z) (actives : gmap Z nat)
  | DTmp (max : Z) (nodes : list TNode)
  | DDev (index : nat) (root : nat) (generation : Z)
  | DNull (lower : nat).
(** [Mount]; the fields that nothing reads are left out. *)
Record Mount := MkMount {
  m_ty : Z;
  m_fs : FsData;
  m_parent : option nat;
  m_flags : Z;
  m_hashseed : Z;
  m_id : Z * Z;
  m_owner : Z
}.

(** [Dirent] of devfs. *)
Inductive DirentType := DtCharacter | DtDirectory | DtLink.
#[export] Instance dirent_type_eq_dec : EqDecision DirentType.
Proof. solve_decision. Defined.
Record Dirent := MkDirent {
  d_ty : DirentType;
  d_inode : Z;
  d_uid : Z;
  d_gid : Z;
  d_mode : Z;
  d_dir : option nat;
  d_cdev : option nat;
  d_name : str;
  d_children : list nat;
  d_vnode : option nat
}.
(** [CharacterDevice]: [c_dirents] has its entry in each devfs. *)
Record Device := MkDevice {
  c_name : str;
  c_uid : Z;
  c_gid : Z;
  c_mode : Z;
  c_flags : Z;
  c_inode : Z;
  c_dirents : list (option nat)
}.

(** What an operation sees of the thread that calls it. *)
Record Td := MkTd { td_root : nat; td_cwd : nat; td_cred : Cred.Ucred }.

(** ** The world *)

(** Errors of the host of which the kind matters. *)
Inductive IoError := AlreadyExists | OtherError.

(** The host: files by the directory that is mounted and a path from it. *)
Record Host (HS : Type) := MkHost {
  h_root : HS -> str -> outcome IoError Z;
  h_id : HS -> Z -> list str -> outcome IoError Z;
  h_is_dir : HS -> Z -> list str -> outcome IoError bool;
  h_len : HS -> Z -> list str -> outcome IoError Z;
  h_open : HS -> Z -> list str -> outcome IoError unit;
  h_mkdir : HS -> Z -> list str -> HS * outcome IoError unit
}.
Arguments h_root {HS} _ _ _.
Arguments h_id {HS} _ _ _ _.
Arguments h_is_dir {HS} _ _ _ _.
Arguments h_len {HS} _ _ _ _.
Arguments h_open {HS} _ _ _ _.
Arguments h_mkdir {HS} _ _ _ _.

(** [held] are the vnodes that processes refer to: their roots, their working
    directories and their open files. *)
Record World (HS : Type) := MkWorld {
  hs : HS;
  vnodes : list Vnode;
  dead : gset nat;
  held : list nat;
  mounts : list Mount;
  mount_list : list nat;
  mount_base : Z;
  dirents : list Dirent;
  devices : list Device;
  generation : Z;
  next_inode : Z;
  devfs_index : nat;
  null_table : gmap Z (nat * nat);
  rng : Arnd.State;
  root_vnode : nat
}.
Arguments MkWorld {HS}.
Arguments hs {HS}.
Arguments vnodes {HS}.
Arguments dead {HS}.
Arguments held {HS}.
Arguments mounts {HS}.
Arguments mount_list {HS}.
Arguments mount_base {HS}.
Arguments dirents {HS}.
Arguments devices {HS}.
Arguments generation {HS}.
Arguments next_inode {HS}.
Arguments devfs_index {HS}.
Arguments null_table {HS}.
Arguments rng {HS}.
Arguments root_vnode {HS}.

Section world.
Context {HS : Type}.
Implicit Types (w : World HS).

Definition set_hs (x : HS) w := MkWorld x (vnodes w) (dead w) (held w) (mounts w) (mount_list w) (mount_base w) (dirents w) (devices w) (generation w) (next_inode w) (devfs_index w) (null_table w) (rng w) (root_vnode w).
Definition set_vnodes x w := MkWorld (hs w) x (dead w) (held w) (mounts w) (mount_list w) (mount_base w) (dirents w) (devices w) (generation w) (next_inode w) (devfs_index w) (null_table w) (rng w) (root_vnode w).
Definition set_dead x w := MkWorld (hs w) (vnodes w) x (held w) (mounts w) (mount_list w) (mount_base w) (dirents w) (devices w) (generation w) (next_inode w) (devfs_index w) (null_table w) (rng w) (root_vnode w).
Definition set_held x w := MkWorld (hs w) (vnodes w) (dead w) x (mounts w) (mount_list w) (mount_base w) (dirents w) (devices w) (generation w) (next_inode w) (devfs_index w) (null_table w) (rng w) (root_vnode w).
Definition set_mounts x w := MkWorld (hs w) (vnodes w) (dead w) (held w) x (mount_list w) (mount_base w) (dirents w) (devices w) (generation w) (next_inode w) (devfs_index w) (null_table w) (rng w) (root_vnode w).
Definition set_mount_list x w := MkWorld (hs w) (vnodes w) (dead w) (held w) (mounts w) x (mount_base w) (dirents w) (devices w) (generation w) (next_inode w) (devfs_index w) (null_table w) (rng w) (root_vnode w).
Definition set_mount_base x w := MkWorld (hs w) (vnodes w) (dead w) (held w) (mounts w) (mount_list w) x (dirents w) (devices w) (generation w) (next_inode w) (devfs_index w) (null_table w) (rng w) (root_vnode w).
Definition set_dirents x w := MkWorld (hs w) (vnodes w) (dead w) (held w) (mounts w) (mount_list w) (mount_base w) x (devices w) (generation w) (next_inode w) (devfs_index w) (null_table w) (rng w) (root_vnode w).
Definition set_devices x w := MkWorld (hs w) (vnodes w) (dead w) (held w) (mounts w) (mount_list w) (mount_base w) (dirents w) x (generation w) (next_inode w) (devfs_index w) (null_table w) (rng w) (root_vnode w).
Definition set_generation x w := MkWorld (hs w) (vnodes w) (dead w) (held w) (mounts w) (mount_list w) (mount_base w) (dirents w) (devices w) x (next_inode w) (devfs_index w) (null_table w) (rng w) (root_vnode w).
Definition set_next_inode x w := MkWorld (hs w) (vnodes w) (dead w) (held w) (mounts w) (mount_list w) (mount_base w) (dirents w) (devices w) (generation w) x (devfs_index w) (null_table w) (rng w) (root_vnode w).
Definition set_devfs_index x w := MkWorld (hs w) (vnodes w) (dead w) (held w) (mounts w) (mount_list w) (mount_base w) (dirents w) (devices w) (generation w) (next_inode w) x (null_table w) (rng w) (root_vnode w).
Definition set_null_table x w := MkWorld (hs w) (vnodes w) (dead w) (held w) (mounts w) (mount_list w) (mount_base w) (dirents w) (devices w) (generation w) (next_inode w) (devfs_index w) x (rng w) (root_vnode w).
Definition set_rng x w := MkWorld (hs w) (vnodes w) (dead w) (held w) (mounts w) (mount_list w) (mount_base w) (dirents w) (devices w) (generation w) (next_inode w) (devfs_index w) (null_table w) x (root_vnode w).
Definition set_root_vnode x w := MkWorld (hs w) (vnodes w) (dead w) (held w) (mounts w) (mount_list w) (mount_base w) (dirents w) (devices w) (generation w) (next_inode w) (devfs_index w) (null_table w) (rng w) x.

Definition asks {E A} (f : World HS -> A) : io (World HS) E A := fun w => (w, Ok (f w)).
Definition modify {E} (f : World HS -> World HS) : io (World HS) E unit := fun w => (f w, Ok tt).
(** What a reference refers to. *)
Definition deref {E A} (f : World HS -> option A) : io (World HS) E A := fun w => (w, unwrap_or_panic PUnreachable (f w)).
Definition the_vnode {E} (v : nat) : io (World HS) E Vnode := deref (fun w => vnodes w !! v).
Definition the_mount {E} (m : nat) : io (World HS) E Mount := deref (fun w => mounts w !! m).
Definition the_dirent {E} (e : nat) : io (World HS) E Dirent := deref (fun w => dirents w !! e).
Definition upd_vnode {E} (v : nat) (f : Vnode -> Vnode) : io (World HS) E unit :=
  modify (fun w => set_vnodes (alter (M := list Vnode) f v (vnodes w)) w).
Definition upd_mount {E} (m : nat) (f : Mount -> Mount) : io (World HS) E unit :=
  modify (fun w => set_mounts (alter (M := list Mount) f m (mounts w)) w).
Definition upd_dirent {E} (e : nat) (f : Dirent -> Dirent) : io (World HS) E unit :=
  modify (fun w => set_dirents (alter (M := list Dirent) f e (dirents w)) w).
Definition item_is (i : option VnodeItem) (x : Vnode) : Vnode :=
  MkVnode (v_mount x) (v_ty x) (v_backend x) (v_hash x) i.
Definition fs_is (d : FsData) (x : Mount) : Mount :=
  MkMount (m_ty x) d (m_parent x) (m_flags x) (m_hashseed x) (m_id x) (m_owner x).
Definition parent_is (p : option nat) (x : Mount) : Mount :=
  MkMount (m_ty x) (m_fs x) p (m_flags x) (m_hashseed x) (m_id x) (m_owner x).
Definition with_vnode (v : option nat) (d : Dirent) : Dirent :=
  MkDirent (d_ty d) (d_inode d) (d_uid d) (d_gid d) (d_mode d) (d_dir d) (d_cdev d) (d_name d) (d_children d) v.
Definition with_child (c : nat) (d : Dirent) : Dirent :=
  MkDirent (d_ty d) (d_inode d) (d_uid d) (d_gid d) (d_mode d) (d_dir d) (d_cdev d) (d_name d) (d_children d ++ [c]) (d_vnode d).

(** ** Reference counts *)

Definition is_alive w (v : nat) : Prop := (v < length (vnodes w))%nat /\ v ∉ dead w.
#[export] Instance is_alive_dec w v : Decision (is_alive w v).
Proof. apply _. Defined.
(** [Weak::upgrade] of a reference to a vnode. *)
Definition upgrade w (v : option nat) : option nat :=
  match v with Some v => if decide (is_alive w v) then Some v else None | None => None end.
(** The vnodes that a mount keeps alive: the one that it covers, and those of
    its file system. *)
Definition mount_refs (m : Mount) : list nat :=
  option_list (m_parent m) ++
  match m_fs m with
  | DTmp _ nodes => omap t_vnode nodes
  | DNull lower => [lower]
  | _ => []
  end.
Definition lower_of (x : Vnode) : list nat := if v_backend x is BNull lower then [lower] else [].
(** The vnodes among [alive], and the mounts that they or the list of mounts keep. *)
Definition vnodes_of w (alive : list nat) : list Vnode := omap (fun v => vnodes w !! v) alive.
Definition mounts_of w (alive : list nat) : list nat := mount_list w ++ (v_mount <$> vnodes_of w alive).
(** Everything that refers to a vnode while those of [alive] exist; [locals]
    are the references in local variables. *)
Definition references w (locals alive : list nat) : gset nat :=
  list_to_set (root_vnode w :: locals ++ held w
    ++ (map_to_list (null_table w) ≫= fun e => [e.2.1; e.2.2])
    ++ (omap (fun m => mounts w !! m) (mounts_of w alive) ≫= mount_refs)
    ++ (vnodes_of w alive ≫= lower_of)).
Fixpoint survivors (fuel : nat) w (locals alive : list nat) : list nat :=
  match fuel with
  | O => alive
  | S fuel =>
      let r := references w locals alive in
      survivors fuel w locals (filter (fun v => v ∈ r) alive)
  end.
(** References go away: vnodes without any are dropped, and then those that
    only they referred to. *)
Definition release {E} (locals : list nat) : io (World HS) E unit :=
  modify (fun w =>
    let all := seq 0 (length (vnodes w)) in
    let alive := survivors (length all) w locals (filter (fun v => v ∉ dead w) all) in
    set_dead (list_to_set (filter (fun v => v ∉ alive) all)) w).

(** [Weak::upgrade] of a reference to a mount. *)
Definition mount_alive w (m : nat) : bool :=
  bool_decide (m ∈ mounts_of w (filter (is_alive w) (seq 0 (length (vnodes w))))).

(** [rand_bytes] for a number of four bytes. *)
Definition rand_u32 {E} : io (World HS) E Z := fun w =>
  let '(b, s) := Arnd.rand_bytes 4 (rng w) in (set_rng s w, Ok (le_value b)).
(** [Vnode::new], with the item that is set before anyone sees the vnode. *)
Definition vnode_new {E} (m : nat) (ty : VnodeType) (b : Backend) (item : option VnodeItem) : io (World HS) E nat :=
  h ← rand_u32;
  v ← asks (fun w => length (vnodes w));
  modify (fun w => set_vnodes (vnodes w ++ [MkVnode m ty b h item]) w);;
  mret v.
End world.

(** ** Vnodes of each file system *)

Section ops.
Context {HS : Type} (H : Host HS).
Notation M := (io (World HS)).

Definition map_io {E E' A} (f : E -> E') (m : M E A) : M E' A := fun w => let '(w, r) := m w in (w, map_err f r).
Definition host_call {E A} (e : IoError -> E) (f : HS -> outcome IoError A) : M E A :=
  fun w => (w, map_err e (f (hs w))).
Definition as_EIO (e : IoError) : Z := EIO.

(** [HostFs::get_vnode]; the root is the file without a parent. *)
Definition actives_insert (id : Z) (v : nat) (x : Mount) : Mount :=
  fs_is (if m_fs x is DHost root actives then DHost root (<[id := v]> actives) else m_fs x) x.
Definition get_vnode (m : nat) (file : list str) : M Z nat :=
  x ← the_mount m;
  match m_fs x with
  | DHost root actives =>
      id ← host_call as_EIO (fun s => h_id H s root file);
      active ← asks (fun w => upgrade w (actives !! id));
      match active with
      | Some v => mret v
      | None =>
          dir ← host_call as_EIO (fun s => h_is_dir H s root file);
          let ty := if dir : bool then Directory (bool_decide (file = [])) else File in
          v ← vnode_new m ty (BHost file) None;
          upd_mount m (actives_insert id v);;
          mret v
      end
  | _ => lift (Panic PUnreachable)
  end.

(** [TempFs::alloc_vnode]. *)
Definition node_upd (n : nat) (f : TNode -> TNode) (x : Mount) : Mount :=
  fs_is (if m_fs x is DTmp max nodes then DTmp max (alter (M := list TNode) f n nodes) else m_fs x) x.
Definition into_vnode_type (n : TNode) : VnodeType := if t_dir n is Some (root, _) then Directory root else File.
Definition tmp_alloc_vnode {E} (m n : nat) : M E nat :=
  x ← the_mount m;
  match m_fs x with
  | DTmp max nodes =>
      nd ← lift (unwrap_or_panic PUnreachable (nodes !! n));
      match t_vnode nd with
      | Some v => mret v
      | None =>
          v ← vnode_new m (into_vnode_type nd) (BTmp n) None;
          upd_mount m (node_upd n (fun nd => MkTNode (Some v) (t_dir nd)));;
          mret v
      end
  | _ => lift (Panic PUnreachable)
  end.
(** [Nodes::alloc]. *)
Definition nodes_alloc (m : nat) (dir : option (bool * list (str * nat))) : M Z nat :=
  x ← the_mount m;
  match m_fs x with
  | DTmp max nodes =>
      lift (fail_if (max <=? Z.of_nat (length nodes)) ENOSPC);;
      upd_mount m (fs_is (DTmp max (nodes ++ [MkTNode None dir])));;
      mret (length nodes)
  | _ => lift (Panic PUnreachable)
  end.

(** *** Devices *)

Definition SI_ETERNAL : Z := 1.
Definition SI_ALIAS : Z := 2.
Definition NEEDMINOR : Z := 0x00800000.
Definition ETERNAL : Z := 0x10.
Definition DEVFS_ROOTINO : Z := 2.

Definition new_dirent {E} (d : Dirent) : M E nat :=
  e ← asks (fun w => length (dirents w));
  modify (fun w => set_dirents (dirents w ++ [d]) w);;
  mret e.
(** [INODE.fetch_add(1)] as an [i32]. *)
Definition fetch_inode {E} : M E Z :=
  i ← asks next_inode;
  modify (set_next_inode ((i + 1) mod 2 ^ 32));;
  lift (panic_if (2 ^ 31 <=? i) PUnwrap);;
  mret i.
(** [DevFs::mkdir]. *)
Definition dev_mkdir {E} (name : str) (inode : Z) (parent : option nat) : M E nat :=
  i ← (if inode =? 0 then fetch_inode else mret inode);
  dir ← new_dirent (MkDirent DtDirectory i 0 0 0x16D None None name [] None);
  dot ← new_dirent (MkDirent DtDirectory 0 0 0 0 (Some dir) None VPath.dot [] None);
  upd_dirent dir (with_child dot);;
  dd ← new_dirent (MkDirent DtDirectory 0 0 0 0 (Some (default dir parent)) None VPath.dotdot [] None);
  upd_dirent dir (with_child dd);;
  mret dir.

(** The first of the entries [l] that satisfies [p]. *)
Fixpoint find_entry (p : Dirent -> bool) (ds : list Dirent) (l : list nat) : option nat :=
  match l with
  | [] => None
  | c :: l => match ds !! c with
              | Some d => if p d then Some c else find_entry p ds l
              | None => find_entry p ds l
              end
  end.
Definition named (name : str) (d : Dirent) : bool := bool_decide (d_name d = name).
(** [Dirent::find] without a type. *)
Definition find {E} (e : nat) (name : str) : M E (option nat) :=
  d ← the_dirent e; asks (fun w => find_entry (named name) (dirents w) (d_children d)).
(** [Dirent::parent]. *)
Definition dirent_parent {E} (e : nat) : M E (option nat) :=
  d ← the_dirent e;
  if negb (bool_decide (d_ty d = DtDirectory)) then p ← lift (unwrap_or_panic PUnwrap (d_dir d)); mret (Some p)
  else if bool_decide (d_name d = VPath.dot) || bool_decide (d_name d = VPath.dotdot) then mret None
  else
    c ← lift (unwrap_or_panic PIndex (d_children d !! 1%nat));
    dd ← the_dirent c;
    p ← lift (unwrap_or_panic PUnwrap (d_dir dd));
    mret (Some p).

(** The directories along the name of a device: the last one, and what
    follows the last separator. *)
Fixpoint dev_walk {E} (dir : nat) (parts : list str) : M E (nat * str) :=
  match parts with
  | [] => lift (Panic PUnreachable)
  | [name] => mret (dir, name)
  | n :: parts =>
      c ← find dir n;
      match c with
      | Some c =>
          d ← the_dirent c;
          lift (panic_if (bool_decide (d_ty d = DtLink)) PTodo);;
          dev_walk c parts
      | None =>
          d ← dev_mkdir n 0 (Some dir);
          upd_dirent dir (with_child d);;
          dev_walk d parts
      end
  end.
(** The body of the loop of [populate] for the device number [k]: its entry. *)
Definition set_dirent (index e : nat) (c : Device) : Device :=
  let l := c_dirents c in
  let l := if (length l <=? index)%nat then l ++ replicate (index + 1 - length l) None else l in
  MkDevice (c_name c) (c_uid c) (c_gid c) (c_mode c) (c_flags c) (c_inode c) (<[index := Some e]> l).
Definition device_entry {E} (index root k : nat) (dev : Device) : M E unit :=
  '(dir, name) ← dev_walk root (split_on VPath.SLASH (c_name dev));
  d ← the_dirent dir;
  lnk ← asks (fun w => find_entry (fun d => bool_decide (d_ty d = DtLink) && named name d) (dirents w) (d_children d));
  lift (panic_if (bool_decide (is_Some lnk)) PTodo);;
  lift (panic_if (intersects (c_flags dev) SI_ALIAS) PTodo);;
  e ← new_dirent (MkDirent DtCharacter (c_inode dev) (c_uid dev) (c_gid dev) (c_mode dev) (Some dir) (Some k) name [] None);
  upd_dirent dir (with_child e);;
  modify (fun w => set_devices (alter (M := list Device) (set_dirent index e) k (devices w)) w).
Definition add_device {E} (index root k : nat) : M E unit :=
  dev ← deref (fun w => devices w !! k);
  match c_dirents dev !! index with
  | Some (Some _) => mret tt
  | _ => device_entry index root k dev
  end.
Fixpoint add_devices {E} (index root : nat) (ks : list nat) : M E unit :=
  match ks with [] => mret tt | k :: ks => add_device index root k;; add_devices index root ks end.
(** [DevFs::populate]. *)
Definition populate {E} (m : nat) : M E unit :=
  x ← the_mount m;
  match m_fs x with
  | DDev index root gen =>
      g ← asks generation;
      if gen =? g then mret tt
      else
        n ← asks (fun w => length (devices w));
        add_devices index root (seq 0 n);;
        upd_mount m (fs_is (DDev index root g))
  | _ => lift (Panic PUnreachable)
  end.
(** [DevFs::alloc_vnode]; a device of the list is never dropped. *)
Definition dev_alloc_vnode (m e : nat) : M Z nat :=
  d ← the_dirent e;
  active ← asks (fun w => upgrade w (d_vnode d));
  match active with
  | Some v => mret v
  | None =>
      v ← match d_ty d with
          | DtCharacter =>
              dev ← lift (unwrap_or_panic PUnwrap (d_cdev d));
              vnode_new m CharacterDevice (BDev e) (Some (IDevice dev))
          | DtDirectory => vnode_new m (Directory (d_inode d =? DEVFS_ROOTINO)) (BDev e) None
          | DtLink => lift (Panic PTodo)
          end;
      upd_dirent e (with_vnode (Some v));;
      mret v
  end.

Inductive MakeDevError := AlreadyExist (name : str).
Definition dev_exists (ds : list Device) (name : str) : bool :=
  existsb (fun d => VPath.path_contains (c_name d) name || VPath.path_contains name (c_name d)) ds.
(** [make_dev]: the index of the new device. *)
Definition make_dev (driver_flags : Z) (name : str) (uid gid mode flags : Z) : M MakeDevError nat :=
  lift (panic_if (intersects driver_flags NEEDMINOR) PTodo);;
  ex ← asks (fun w => dev_exists (devices w) name);
  lift (fail_if ex (AlreadyExist name));;
  let df := if intersects flags ETERNAL then SI_ETERNAL else 0 in
  i ← fetch_inode;
  k ← asks (fun w => length (devices w));
  modify (fun w => set_devices (devices w ++ [MkDevice name uid gid mode df i [None]]) w);;
  g ← asks generation;
  lift (panic_if (2 ^ 32 <=? g + 1) POverflow);;
  modify (set_generation (g + 1));;
  mret k.

(** *** Another directory of the system *)

(** [Vnode::hash_index]. *)
Definition hash_index {E} (v : nat) : M E Z :=
  x ← the_vnode v;
  m ← the_mount (v_mount x);
  mret ((v_hash x + m_hashseed m) mod 2 ^ 32).
(** [NullHashTable::get] and [insert]. *)
Definition null_get {E} (m lower : nat) : M E (option nat) :=
  h ← hash_index lower;
  e ← asks (fun w => null_table w !! h);
  match e with
  | Some (stored, null) =>
      x ← the_vnode null;
      mret (if bool_decide (stored = lower) && bool_decide (v_mount x = m) then Some null else None)
  | None => mret None
  end.
Definition null_insert {E} (lower null : nat) : M E unit :=
  h ← hash_index lower; modify (fun w => set_null_table (<[h := (lower, null)]> (null_table w)) w).
Definition null_nodeget {E} (m lower : nat) : M E nat :=
  c ← null_get m lower;
  match c with
  | Some v => mret v
  | None =>
      x ← the_vnode lower;
      v ← vnode_new m (v_ty x) (BNull lower) None;
      null_insert lower v;;
      mret v
  end.

(** ** Operations of vnodes

    A vnode of nullfs calls the vnode below it, which was created before:
    [fuel] bounds the depth. *)

(** [access] of devfs for an entry. *)
Definition access_errno (e : Cred.AccessError) : Z :=
  match e with Cred.NotPermitted => EPERM | Cred.PermissionDenied => EACCES end.
(** The entry that has the attributes. *)
Definition attr_dirent {E} (is_dir : bool) (e : nat) : M E Dirent :=
  d ← the_dirent e;
  match d_dir d with
  | Some p => if is_dir then the_dirent p else mret d
  | None => mret d
  end.
Definition dev_access (x : Vnode) (e : nat) (td : option Td) (mode : Z) : M Z unit :=
  d ← attr_dirent (is_directory x) e;
  match td with
  | None => mret tt
  | Some td =>
      lift (map_err access_errno (Cred.check_access (td_cred td) (d_uid d) (d_gid d) (d_mode d) mode (is_directory x)));;
      mret tt
  end.
Definition contains (flags f : Z) : bool := Z.land flags f =? f.

(** [Vnode::access]; on nullfs it is [accessx]. *)
Fixpoint access_ (fuel : nat) (td : option Td) (mode : Z) (v : nat) : M Z unit :=
  x ← the_vnode v;
  match v_backend x with
  | BHost _ | BTmp _ => mret tt
  | BDev e => dev_access x e td mode
  | BNull lower =>
      m ← the_mount (v_mount x);
      let ro := match v_ty x with CharacterDevice => false | _ => contains (m_flags m) MNT_RDONLY end in
      lift (fail_if (contains mode Cred.WRITE && ro) EROFS);;
      match fuel with O => lift (Panic PUnreachable) | S fuel => access_ fuel td mode lower end
  end.
Definition access (td : option Td) (mode : Z) (v : nat) : M Z unit := access_ v td mode v.

Definition host_root_of {E} (m : nat) : M E Z :=
  x ← the_mount m; match m_fs x with DHost root _ => mret root | _ => lift (Panic PUnreachable) end.
Definition tmp_nodes_of {E} (m : nat) : M E (list TNode) :=
  x ← the_mount m; match m_fs x with DTmp _ nodes => mret nodes | _ => lift (Panic PUnreachable) end.

(** [Vnode::getattr]. *)
Definition host_getattr (x : Vnode) (file : list str) : M Z Attrs :=
  root ← host_root_of (v_mount x);
  size ← host_call as_EIO (fun s => h_len H s root file);
  mode ← match v_ty x with
         | Directory _ => mret 0x16D
         | File | Link => lift (Panic PTodo)
         | CharacterDevice => lift (Panic PUnreachable)
         end;
  mret (MkAttrs 0 0 mode size (2 ^ 32 - 1)).
Definition dev_getattr (x : Vnode) (e : nat) : M Z Attrs :=
  populate (v_mount x);;
  d ← attr_dirent (is_directory x) e;
  size ← match v_ty x with Directory _ => mret 512 | Link => lift (Panic PTodo) | _ => mret 0 end;
  mret (MkAttrs (d_uid d) (d_gid d) (d_mode d) size (2 ^ 32 - 1)).
Fixpoint getattr_ (fuel : nat) (v : nat) : M Z Attrs :=
  x ← the_vnode v;
  match v_backend x with
  | BHost file => host_getattr x file
  | BTmp _ => lift (Panic PTodo)
  | BDev e => dev_getattr x e
  | BNull lower =>
      a ← match fuel with O => lift (Panic PUnreachable) | S fuel => getattr_ fuel lower end;
      m ← the_mount (v_mount x);
      mret (MkAttrs (a_uid a) (a_gid a) (a_mode a) (a_size a) (m_id m).1)
  end.
Definition getattr (v : nat) : M Z Attrs := getattr_ v v.

(** [lookup] of each file system; [access] is that of the vnode. *)
Definition BACKSLASH : Z := 92.
(** [HostFile::open]: the name becomes a C string.  A child that is still
    open is not opened again, for which the host answers the same as long as
    its files stay. *)
Definition host_open {E} (e : IoError -> E) (root : Z) (file : list str) (name : str) : M E (list str) :=
  lift (panic_if (bool_decide (0 ∈ name)) PUnwrap);;
  host_call e (fun s => h_open H s root (file ++ [name]));;
  mret (file ++ [name]).
(** Checks that a vnode is a directory in which [name] can be looked up. *)
Definition check_dir (x : Vnode) (name : str) : outcome Z unit :=
  match v_ty x with
  | Directory root => fail_if (bool_decide (name = VPath.dotdot) && root) EIO
  | _ => Err ENOTDIR
  end.
Definition host_lookup (v : nat) (x : Vnode) (file : list str) (td : option Td) (name : str) : M Z nat :=
  lift (check_dir x name);;
  access td Cred.EXEC v;;
  if bool_decide (name = VPath.dot) then mret v
  else
    file ← (if bool_decide (name = VPath.dotdot)
            then if bool_decide (file = []) then lift (Panic PUnwrap) else mret (take (length file - 1) file)
            else
              lift (fail_if (bool_decide (VPath.SLASH ∈ name) || bool_decide (BACKSLASH ∈ name)) ENOENT);;
              root ← host_root_of (v_mount x);
              host_open as_EIO root file name);
    get_vnode (v_mount x) file.
Definition tmp_lookup (v : nat) (x : Vnode) (n : nat) (td : option Td) (name : str) : M Z nat :=
  access td Cred.EXEC v;;
  if bool_decide (name = VPath.dotdot) then lift (Panic PTodo)
  else if bool_decide (name = VPath.dot) then mret v
  else
    nodes ← tmp_nodes_of (v_mount x);
    nd ← lift (unwrap_or_panic PUnreachable (nodes !! n));
    '(_, entries) ← lift (unwrap_or_panic PUnreachable (t_dir nd));
    e ← lift (ok_or ENOENT (list_find (fun e => e.1 = name) entries));
    tmp_alloc_vnode (v_mount x) e.2.2.
Definition dev_lookup (v : nat) (x : Vnode) (e : nat) (td : option Td) (name : str) : M Z nat :=
  populate (v_mount x);;
  lift (check_dir x name);;
  access td Cred.EXEC v;;
  if bool_decide (name = VPath.dot) then mret v
  else if bool_decide (name = VPath.dotdot) then
    p ← dirent_parent e;
    p ← lift (ok_or ENOENT p);
    dev_alloc_vnode (v_mount x) p
  else
    c ← find e name;
    c ← lift (unwrap_or_panic PTodo c);
    dev_alloc_vnode (v_mount x) c.
(** [Vnode::lookup]. *)
Fixpoint lookup_ (fuel : nat) (td : option Td) (name : str) (v : nat) : M Z nat :=
  x ← the_vnode v;
  match v_backend x with
  | BHost file => host_lookup v x file td name
  | BTmp n => tmp_lookup v x n td name
  | BDev e => dev_lookup v x e td name
  | BNull lower =>
      l ← match fuel with O => lift (Panic PUnreachable) | S fuel => lookup_ fuel td name lower end;
      if bool_decide (l = v) then mret v else null_nodeget (v_mount x) l
  end.
Definition vnode_lookup (td : option Td) (name : str) (v : nat) : M Z nat := lookup_ v td name v.

(** [Vnode::mkdir]. *)
Definition mkdir_errno (e : IoError) : Z := match e with AlreadyExists => EEXIST | OtherError => EIO end.
(** [HostFile::mkdir]; the mode is not used. *)
Definition host_mkdir (root : Z) (file : list str) (name : str) : M Z (list str) :=
  lift (panic_if (bool_decide (0 ∈ name)) PUnwrap);;
  (fun w => let '(s, r) := h_mkdir H (hs w) root (file ++ [name]) in (set_hs s w, map_err mkdir_errno r));;
  host_open mkdir_errno root file name.
Definition tmp_mkdir (x : Vnode) (n : nat) (name : str) : M Z nat :=
  c ← nodes_alloc (v_mount x) (Some (false, []));
  v ← tmp_alloc_vnode (v_mount x) c;
  nodes ← tmp_nodes_of (v_mount x);
  nd ← lift (unwrap_or_panic PUnreachable (nodes !! n));
  lift (panic_if (negb (bool_decide (is_Some (t_dir nd)))) PUnreachable);;
  upd_mount (v_mount x) (node_upd n (fun nd => MkTNode (t_vnode nd) (prod_map id (fun l => l ++ [(name, c)]) <$> t_dir nd)));;
  mret v.
Definition vnode_mkdir (td : option Td) (name : str) (v : nat) : M Z nat :=
  x ← the_vnode v;
  match v_backend x with
  | BHost file =>
      access td Cred.WRITE v;;
      root ← host_root_of (v_mount x);
      dir ← host_mkdir root file name;
      get_vnode (v_mount x) dir
  | BTmp n => tmp_mkdir x n name
  | BDev _ | BNull _ => lift (Err EOPNOTSUPP)
  end.

(** [Mount::root]. *)
Definition mount_root (m : nat) : M Z nat :=
  x ← the_mount m;
  match m_fs x with
  | DHost _ _ => get_vnode m []
  | DTmp _ _ => tmp_alloc_vnode m 0
  | DDev _ root _ => dev_alloc_vnode m root
  | DNull lower => null_nodeget m lower
  end.
End ops.
End Vnode.
