(* ===== verification/VnodeProps.v ===== *)
(** * Properties of vnodes

    What the operations on vnodes keep: every file of the host, of memory and
    of the devices has at most one vnode that is in use, as [vnode.rs] asks
    for, and looking up names only adds vnodes and entries. *)
From S2P Require Import Prelude Env Cred VPath Sysctl Vnode.

Module VnodeProps.
Import Env Vnode.
Local Open Scope list_scope.
Local Open Scope Z_scope.

(** ** Computations that keep a relation between the states *)

Definition keeps {I E A} (R : I -> I -> Prop) (m : io I E A) : Prop := forall i, R i (m i).1.

Section keeps.
Context {I E : Type} (R : I -> I -> Prop) `{!PreOrder R}.

Lemma keeps_bind {A B} (m : io I E A) (f : A -> io I E B) :
  keeps R m -> (forall i i1 a, m i = (i1, Ok a) -> R i1 (f a i1).1) -> keeps R (m ≫= f).
Proof.
  intros Hm Hf i. specialize (Hm i). unfold mbind, io_bind. destruct (m i) as [i1 [a|e|p]] eqn:Hi; try done.
  etrans; [exact Hm|]. by eapply Hf.
Qed.
Lemma io_bind_eq {A B} (m : io I E A) (f : A -> io I E B) i i1 a : m i = (i1, Ok a) -> (m ≫= f) i = f a i1.
Proof. unfold mbind, io_bind. by intros ->. Qed.
Lemma keeps_then {A B} (m : io I E A) (f : A -> io I E B) : keeps R m -> (forall a, keeps R (f a)) -> keeps R (m ≫= f).
Proof. intros Hm Hf. apply keeps_bind; [done|]. intros i i1 a _. apply Hf. Qed.
Lemma keeps_ret {A} (a : A) : keeps R (mret a : io I E A).
Proof. by intros i. Qed.
Lemma keeps_lift {A} (m : outcome E A) : keeps R (lift m : io I E A).
Proof. by intros i. Qed.
Lemma keeps_eq {A} (m : io I E A) i i' r : keeps R m -> m i = (i', r) -> R i i'.
Proof. intros Hm Hi. specialize (Hm i). by rewrite Hi in Hm. Qed.
End keeps.

Section world.
Context {HS : Type}.
Implicit Types (w : World HS).

Lemma keeps_asks {E A} R `{!PreOrder R} (f : World HS -> A) : keeps R (asks (E := E) f).
Proof. by intros w. Qed.
Lemma keeps_deref {E A} R `{!PreOrder R} (f : World HS -> option A) : keeps R (deref (E := E) f).
Proof. by intros w. Qed.
Lemma keeps_map_io {E E' A} R `{!PreOrder R} (f : E -> E') (m : io (World HS) E A) : keeps R m -> keeps R (map_io f m).
Proof. intros Hm w. specialize (Hm w). unfold map_io. by destruct (m w). Qed.
Lemma keeps_host_call {E A} R `{!PreOrder R} (e : IoError -> E) (f : HS -> outcome IoError A) :
  keeps R (host_call e f : io (World HS) E A).
Proof. by intros w. Qed.
Lemma deref_Ok {E A} (f : World HS -> option A) w w' a : deref (E := E) f w = (w', Ok a) -> w' = w /\ f w = Some a.
Proof. unfold deref. destruct (f w); cbn; naive_solver. Qed.
Lemma asks_Ok {E A} (f : World HS -> A) w w' a : asks (E := E) f w = (w', Ok a) -> w' = w /\ a = f w.
Proof. unfold asks. naive_solver. Qed.
End world.

Lemma host_call_Ok {E A HS} (e : IoError -> E) (f : HS -> outcome IoError A) (w w' : World HS) a :
  host_call e f w = (w', Ok a) -> w' = w /\ f (hs w) = Ok a.
Proof. unfold host_call. destruct (f (hs w)); naive_solver. Qed.
Lemma map_io_Ok {E E' A HS} (f : E -> E') (m : io (World HS) E A) (w w' : World HS) a :
  map_io f m w = (w', Ok a) -> m w = (w', Ok a).
Proof. unfold map_io. destruct (m w) as [w1 []]; naive_solver. Qed.
(** Replaces a successful computation by the successes of its steps. *)
Ltac io_inv_step :=
  match goal with
  | H : (_ ≫= _) _ = (_, Ok _) |- _ => apply io_bind_Ok in H as (? & ? & ? & ?)
  | H : lift _ _ = (_, Ok _) |- _ => apply lift_Ok in H as [? ?]
  | H : mret _ _ = (_, Ok _) |- _ => apply ret_Ok in H as [? ?]
  | H : asks _ _ = (_, Ok _) |- _ => apply asks_Ok in H as [? ?]
  | H : deref _ _ = (_, Ok _) |- _ => apply deref_Ok in H as [? ?]
  | H : the_vnode _ _ = (_, Ok _) |- _ => apply deref_Ok in H as [? ?]
  | H : the_mount _ _ = (_, Ok _) |- _ => apply deref_Ok in H as [? ?]
  | H : the_dirent _ _ = (_, Ok _) |- _ => apply deref_Ok in H as [? ?]
  | H : host_call _ _ _ = (_, Ok _) |- _ => apply host_call_Ok in H as [? ?]
  | H : map_io _ _ _ = (_, Ok _) |- _ => apply map_io_Ok in H
  end; subst; inv_ok.
Ltac io_inv := repeat io_inv_step.

Create HintDb keep.
(** Goes through a computation; the steps that are not reads are in the hints. *)
Ltac keep_step :=
  match goal with
  | |- keeps _ (mret _) => apply keeps_ret; apply _
  | |- keeps _ (lift _) => apply keeps_lift; apply _
  | |- keeps _ (asks _) => apply keeps_asks; apply _
  | |- keeps _ (deref _) => apply keeps_deref; apply _
  | |- keeps _ (the_vnode _) => apply keeps_deref; apply _
  | |- keeps _ (the_mount _) => apply keeps_deref; apply _
  | |- keeps _ (the_dirent _) => apply keeps_deref; apply _
  | |- keeps _ (host_call _ _) => apply keeps_host_call; apply _
  | |- keeps _ (map_io _ _) => apply keeps_map_io; [apply _|]
  | |- keeps _ _ => solve [eauto with keep]
  | |- keeps _ (_ ≫= _) => apply keeps_then; [apply _| |intros ?]
  | |- keeps _ (match ?x with _ => _ end) => destruct x
  | |- keeps _ (let '(_, _) := ?x in _) => destruct x
  | |- keeps _ (let _ := _ in _) => progress cbv zeta
  end.
Ltac keep := repeat keep_step.

(** ** Entries of devfs *)

(** [d'] is [d] with more children. *)
Definition grown (d d' : Dirent) : Prop :=
  exists l, d' = MkDirent (d_ty d) (d_inode d) (d_uid d) (d_gid d) (d_mode d) (d_dir d) (d_cdev d) (d_name d) (d_children d ++ l)
    (d_vnode d).
(** Entries are added, without a vnode, and existing ones get children. *)
Definition grow (ds ds' : list Dirent) : Prop :=
  (forall e d, ds !! e = Some d -> exists d', ds' !! e = Some d' /\ grown d d') /\
  (forall e d', ds' !! e = Some d' -> ds !! e = None -> d_vnode d' = None).
(** The entry [..] of the directory [de] leads to [q]. *)
Definition up (ds : list Dirent) (de : Dirent) (q : nat) : Prop :=
  exists c dd, d_children de !! 1%nat = Some c /\ ds !! c = Some dd /\ d_dir dd = Some q.
Definition is_subdir (d : Dirent) : Prop := d_ty d = DtDirectory /\ d_name d <> VPath.dot /\ d_name d <> VPath.dotdot.
(** The directories in a directory lead back to it. *)
Definition child_ok (ds : list Dirent) (q e : nat) : Prop :=
  exists de, ds !! e = Some de /\ (is_subdir de -> up ds de q).
Definition dirents_ok (ds : list Dirent) : Prop :=
  forall q dq e, ds !! q = Some dq -> e ∈ d_children dq -> child_ok ds q e.

#[export] Instance grown_preorder : PreOrder grown.
Proof.
  split.
  - intros d. exists []. rewrite app_nil_r. by destruct d.
  - intros d d1 d2 [l ->] [l' ->]. exists (l ++ l'). cbn. by rewrite app_assoc.
Qed.
#[export] Instance grow_preorder : PreOrder grow.
Proof.
  split.
  - split; [|naive_solver]. intros e d He. exists d. by split.
  - intros ds ds1 ds2 [H1 N1] [H2 N2]. split.
    + intros e d (d1 & He1 & Hg1)%H1. destruct (H2 _ _ He1) as (d2 & He2 & Hg2). exists d2. split; [done|]. by etrans.
    + intros e d2 He2 Hn. destruct (ds1 !! e) as [d1|] eqn:He1; [|by eapply N2].
      destruct (H2 _ _ He1) as (d2' & He2' & l & ->). simplify_eq. cbn. by eapply N1.
Qed.
Lemma up_grow ds ds' d d' q : grow ds ds' -> grown d d' -> up ds d q -> up ds' d' q.
Proof.
  intros [Hg _] [l ->] (c & dd & Hc & Hdd & Hq). destruct (Hg _ _ Hdd) as (dd' & Hdd' & l' & ->).
  exists c. eexists. split_and!; [by apply lookup_app_l_Some|done|done].
Qed.
Lemma child_ok_grow ds ds' q e : grow ds ds' -> child_ok ds q e -> child_ok ds' q e.
Proof.
  intros Hg (de & He & Hup). destruct (proj1 Hg _ _ He) as (de' & He' & Hd). exists de'. split; [done|].
  intros Hs. eapply up_grow; [done|done|]. apply Hup. by destruct Hd as [l ->].
Qed.
Lemma grow_app ds l : Forall (fun d => d_vnode d = None) l -> grow ds (ds ++ l).
Proof.
  intros Hl. split.
  - intros e d He. exists d. split; [by apply lookup_app_l_Some|done].
  - intros e d' He Hn%lookup_ge_None. rewrite lookup_app_r in He by done. by eapply Forall_lookup_1 in Hl.
Qed.
Lemma grow_child ds q c : grow ds (alter (M := list Dirent) (with_child c) q ds).
Proof.
  split.
  - intros e d He. destruct (decide (e = q)) as [->|Hne].
    + exists (with_child c d). split; [by rewrite list_lookup_alter_eq, He|]. by exists [c].
    + exists d. by rewrite list_lookup_alter_ne.
  - intros e d' He Hn. destruct (decide (e = q)) as [->|Hne].
    + by rewrite list_lookup_alter_eq, Hn in He.
    + rewrite list_lookup_alter_ne in He by done. congruence.
Qed.
Lemma dirents_ok_child ds q c :
  dirents_ok ds -> child_ok ds q c -> dirents_ok (alter (M := list Dirent) (with_child c) q ds).
Proof.
  intros Hok Hc p dp e Hp He. eapply child_ok_grow; [apply grow_child|].
  destruct (decide (p = q)) as [->|Hne].
  - rewrite list_lookup_alter_eq in Hp. destruct (ds !! q) as [dq|] eqn:Hq; simplify_eq/=.
    apply elem_of_app in He as [He|He%list_elem_of_singleton]; [by eapply Hok|by subst].
  - rewrite list_lookup_alter_ne in Hp by done. by eapply Hok.
Qed.
Lemma dirents_ok_app ds l :
  dirents_ok ds -> Forall (fun d => d_vnode d = None) l ->
  (forall i d e, l !! i = Some d -> e ∈ d_children d -> child_ok (ds ++ l) (length ds + i) e) ->
  dirents_ok (ds ++ l).
Proof.
  intros Hok Hl Hnew q dq e Hq He. apply lookup_app_Some in Hq as [Hq|[Hlen Hq]].
  - eapply child_ok_grow; [by apply grow_app|]. by eapply Hok.
  - replace q with (length ds + (q - length ds))%nat by lia. by eapply Hnew.
Qed.

(** *** Populating *)

Section dev.
Context {HS : Type}.
Implicit Types (w : World HS).

(** Nothing but entries, devices and the next inode changes. *)
Definition dev_step w w' : Prop :=
  w' = set_dirents (dirents w') (set_devices (devices w') (set_next_inode (next_inode w') w)) /\
  (dirents_ok (dirents w) -> dirents_ok (dirents w') /\ grow (dirents w) (dirents w')).
#[export] Instance dev_step_preorder : PreOrder dev_step.
Proof.
  split.
  - intros w. split; [by destruct w|]. by split.
  - intros w w1 w2 [E1 H1] [E2 H2]. split.
    + rewrite E2 at 1. rewrite E1. done.
    + intros Hok. destruct (H1 Hok) as [Hok1 Hg1]. destruct (H2 Hok1) as [Hok2 Hg2]. split; [done|]. by etrans.
Qed.

Lemma new_dirent_Ok {E} d w : new_dirent (E := E) d w = (set_dirents (dirents w ++ [d]) w, Ok (length (dirents w))).
Proof. done. Qed.
Lemma new_dirent_step {E} d : d_vnode d = None -> d_children d = [] -> keeps dev_step (new_dirent (HS := HS) (E := E) d).
Proof.
  intros Hv Hc w. rewrite new_dirent_Ok. split; [by destruct w|]. intros Hok. cbn.
  assert (Hd : Forall (fun d => d_vnode d = None) [d]) by by constructor. split; [|by apply grow_app].
  apply dirents_ok_app; [done..|]. intros [|i] d' e Hi He; simplify_eq/=. rewrite Hc in He. by apply not_elem_of_nil in He.
Qed.
Lemma fetch_inode_eq {E} w :
  exists x, (exists i, fetch_inode (E := E) w = (set_next_inode x w, Ok i)) \/ fetch_inode (E := E) w = (set_next_inode x w, Panic PUnwrap).
Proof.
  exists ((next_inode w + 1) mod 2 ^ 32). unfold fetch_inode, mbind, io_bind, asks, modify, lift, mret, io_ret, panic_if. cbn.
  case_if; [by right|]. left. by eexists.
Qed.
(** What [DevFs::mkdir] adds. *)
Definition dir_dirents (name : str) (i : Z) (n p : nat) : list Dirent :=
  [MkDirent DtDirectory i 0 0 0x16D None None name [S n; S (S n)] None;
   MkDirent DtDirectory 0 0 0 0 (Some n) None VPath.dot [] None;
   MkDirent DtDirectory 0 0 0 0 (Some p) None VPath.dotdot [] None].
Lemma alter_app_r {A} (f : A -> A) (l k : list A) i :
  alter (M := list A) f (length l + i)%nat (l ++ k) = l ++ alter (M := list A) f i k.
Proof. induction l as [|a l IH]; [done|]. cbn. by f_equal. Qed.
Lemma dev_mkdir_eq {E} name inode parent w w' r :
  dev_mkdir (HS := HS) (E := E) name inode parent w = (w', r) ->
  match r with
  | Ok dir => exists i, (inode <> 0 -> i = inode) /\ dir = length (dirents w) /\
      w' = set_next_inode (next_inode w') (set_dirents (dirents w ++ dir_dirents name i dir (default dir parent)) w)
  | _ => w' = set_next_inode (next_inode w') w
  end.
Proof.
  unfold dev_mkdir. intros Hr.
  set (n := length (dirents w)).
  assert (Hrest : forall i (w1 : World HS), dirents w1 = dirents w ->
    (dir ← new_dirent (HS := HS) (MkDirent DtDirectory i 0 0 0x16D None None name [] None);
     dot ← new_dirent (MkDirent DtDirectory 0 0 0 0 (Some dir) None VPath.dot [] None);
     upd_dirent dir (with_child dot);;
     dd ← new_dirent (MkDirent DtDirectory 0 0 0 0 (Some (default dir parent)) None VPath.dotdot [] None);
     upd_dirent dir (with_child dd);;
     (mret dir : io (World HS) E nat)) w1 = (set_dirents (dirents w ++ dir_dirents name i n (default n parent)) w1, Ok n)).
  { intros i w1 Hw1.
    assert (Hx : forall k f, alter (M := list Dirent) f n (dirents w ++ k) = dirents w ++ alter (M := list Dirent) f 0%nat k).
    { intros k f. rewrite <- (Nat.add_0_r n). apply alter_app_r. }
    do 5 (erewrite io_bind_eq by reflexivity). cbn. rewrite Hw1. fold n. rewrite <- !app_assoc, !Hx, !length_app. cbn.
    unfold mret, io_ret. f_equal. unfold set_dirents. cbn. f_equal. rewrite <- app_assoc, Hx. unfold dir_dirents, with_child. cbn.
    fold n. by rewrite Nat.add_1_r, Nat.add_succ_r, Nat.add_1_r. }
  revert Hr. unfold mbind at 1, io_bind at 1. destruct (inode =? 0) eqn:Hinode; bool_to_prop.
  - destruct (fetch_inode_eq (E := E) w) as (x & [[i ->]| ->]).
    + rewrite Hrest by done. intros Hr. simplify_eq. exists i. split; [done|]. by destruct w.
    + intros [= <- <-]. by destruct w.
  - unfold mret at 1, io_ret at 1. intros Hr. rewrite Hrest in Hr by done. simplify_eq. exists inode. split; [done|]. by destruct w.
Qed.

Lemma dir_dirents_lookup (ds : list Dirent) name i n p k d :
  n = length ds -> dir_dirents name i n p !! k = Some d -> (ds ++ dir_dirents name i n p) !! (n + k)%nat = Some d.
Proof. intros -> Hk. rewrite lookup_app_r by lia. by replace (length ds + k - length ds)%nat with k by lia. Qed.
Lemma dev_mkdir_step {E} name inode parent : keeps dev_step (dev_mkdir (HS := HS) (E := E) name inode parent).
Proof.
  intros w. destruct (dev_mkdir name inode parent w) as [w' r] eqn:Hr. apply dev_mkdir_eq in Hr.
  assert (Hid : w' = set_next_inode (next_inode w') w -> dev_step w w').
  { intros ->. split; by destruct w. }
  destruct r as [dir| |]; [|by apply Hid..]. destruct Hr as (i & _ & -> & Hw'). cbn. rewrite Hw'. split; [by destruct w|].
  intros Hok. cbn. set (n := length (dirents w)). set (q := default n parent).
  assert (Hv : Forall (fun d => d_vnode d = None) (dir_dirents name i n q)) by by repeat constructor.
  split; [|by apply grow_app]. apply dirents_ok_app; [done..|]. intros [|[|[|k]]] d e Hk He; simplify_eq/=;
    [|by apply not_elem_of_nil in He..].
  rewrite !elem_of_cons in He. destruct He as [->|[->|He]]; [| |by apply not_elem_of_nil in He].
  - eexists. split; [replace (S n) with (n + 1)%nat by lia; by apply dir_dirents_lookup|]. by intros (_ & ? & _).
  - eexists. split; [replace (S (S n)) with (n + 2)%nat by lia; by apply dir_dirents_lookup|]. by intros (_ & _ & ?).
Qed.
Lemma dev_mkdir_child {E} name inode q w w' dir :
  dev_mkdir (E := E) name inode (Some q) w = (w', Ok dir) -> child_ok (dirents w') q dir.
Proof.
  intros (i & _ & Hdir & Hw')%dev_mkdir_eq. rewrite Hw'. cbn.
  pose proof (dir_dirents_lookup (dirents w) name i dir q 0 _ Hdir eq_refl) as H0. rewrite Nat.add_0_r in H0.
  eexists. split; [exact H0|].
  intros _. exists (S (S dir)). eexists. split; [done|].
  change (S (S dir)) with (2 + dir)%nat. rewrite (Nat.add_comm 2). by split; [apply dir_dirents_lookup|].
Qed.
Lemma upd_child_step {E} q c w : child_ok (dirents w) q c -> dev_step w (upd_dirent (E := E) q (with_child c) w).1.
Proof. intros Hc. split; [by destruct w|]. intros Hok. split; [by apply dirents_ok_child|apply grow_child]. Qed.

Lemma find_step {E} e name : keeps dev_step (find (HS := HS) (E := E) e name).
Proof. unfold find. keep. Qed.
#[local] Hint Resolve find_step dev_mkdir_step : keep.
Lemma dev_walk_step {E} parts dir : keeps dev_step (dev_walk (HS := HS) (E := E) dir parts).
Proof.
  revert dir. induction parts as [|n [|n' parts] IH]; intros dir; [by intros w..|].
  change (keeps dev_step (c ← find (HS := HS) (E := E) dir n;
    match c with
    | Some c => d ← the_dirent c; lift (panic_if (bool_decide (d_ty d = DtLink)) PTodo);; dev_walk c (n' :: parts)
    | None => d ← dev_mkdir n 0 (Some dir); upd_dirent dir (with_child d);; dev_walk d (n' :: parts)
    end)).
  apply keeps_then; [apply _|apply find_step|]. intros [c|]; [by keep|].
  apply keeps_bind; [apply _|apply dev_mkdir_step|]. intros w w1 d Hd.
  etrans; [apply (upd_child_step (E := E)), (dev_mkdir_child _ _ _ _ _ _ Hd)|]. unfold mbind, io_bind. cbn. apply IH.
Qed.
Lemma set_devices_step {E} f : keeps dev_step (modify (HS := HS) (E := E) (fun w => set_devices (f w) w)).
Proof. intros w. split; by destruct w. Qed.
Lemma device_entry_step {E} index root k dev : keeps dev_step (device_entry (HS := HS) (E := E) index root k dev).
Proof.
  apply keeps_then; [apply _|apply dev_walk_step|]. intros [dir name]. do 4 (apply keeps_then; [apply _|by keep|intros ?]).
  apply keeps_bind; [apply _|by apply new_dirent_step|]. intros w w1 e He. rewrite new_dirent_Ok in He. simplify_eq.
  etrans; [apply (upd_child_step (E := E) dir (length (dirents w)))|by apply (set_devices_step (E := E))].
  eexists. split; [cbn; by apply list_lookup_middle|]. by intros [].
Qed.
#[local] Hint Resolve device_entry_step : keep.
Lemma add_device_step {E} index root k : keeps dev_step (add_device (HS := HS) (E := E) index root k).
Proof. unfold add_device. keep. Qed.
Lemma add_devices_step {E} index root ks : keeps dev_step (add_devices (HS := HS) (E := E) index root ks).
Proof.
  induction ks as [|k ks IH]; [by intros w|]. apply keeps_then; [apply _|apply add_device_step|]. by intros _.
Qed.
End dev.

(** ** What every operation keeps *)

Section wf.
Context {HS : Type} (H : Host HS).
Implicit Types (w : World HS).

(** The type of the vnode of an entry. *)
Definition dev_type (d : Dirent) : VnodeType :=
  match d_ty d with
  | DtCharacter => CharacterDevice
  | DtDirectory => Directory (d_inode d =? DEVFS_ROOTINO)
  | DtLink => Link
  end.
(** The host has given two files the same identifier; and it has said that a
    file is a directory. *)
Definition same_id (root : Z) (f g : list str) : Prop := exists s s' i, h_id H s root f = Ok i /\ h_id H s' root g = Ok i.
Definition host_dir (root : Z) (f : list str) : Prop := exists s, h_is_dir H s root f = Ok true.
Definition kind_ok (x : Vnode) (d : FsData) : Prop :=
  match v_backend x, d with
  | BHost f, DHost root _ => is_directory x = true -> host_dir root f
  | BTmp _, DTmp _ _ | BDev _, DDev _ _ _ | BNull _, DNull _ => True
  | _, _ => False
  end.
(** The file system records [v] as the vnode of the file [b] of the mount [m]. *)
Definition records w (m : nat) (b : Backend) (v : nat) : Prop :=
  match b with
  | BHost f => exists mt root act id s,
      mounts w !! m = Some mt /\ m_fs mt = DHost root act /\ act !! id = Some v /\ h_id H s root f = Ok id
  | BTmp n => exists mt max nodes nd, mounts w !! m = Some mt /\ m_fs mt = DTmp max nodes /\ nodes !! n = Some nd /\ t_vnode nd = Some v
  | BDev e => exists d, dirents w !! e = Some d /\ d_vnode d = Some v
  | BNull _ => True
  end.
(** [v] is a vnode of the file [b] of the mount [m]. *)
Definition is_vnode w (v m : nat) (b : Backend) : Prop := exists x, vnodes w !! v = Some x /\ v_mount x = m /\ v_backend x = b.

(** What a file system records belongs to it. *)
Definition fs_ok w (m : nat) (d : FsData) : Prop :=
  match d with
  | DHost root act => forall id v, act !! id = Some v -> exists f s, is_vnode w v m (BHost f) /\ h_id H s root f = Ok id
  | DTmp _ nodes => forall n nd v, nodes !! n = Some nd -> t_vnode nd = Some v -> is_vnode w v m (BTmp n) /\ v ∉ dead w
  | DDev _ root _ => exists d, dirents w !! root = Some d /\ dev_type d = Directory true
  | DNull _ => True
  end.
Definition type_ok w (x : Vnode) : Prop :=
  if v_backend x is BDev e then exists d, dirents w !! e = Some d /\ v_ty x = dev_type d else True.
Definition has_kind (ms : list Mount) (x : Vnode) : Prop :=
  exists mt, ms !! v_mount x = Some mt /\ kind_ok x (m_fs mt).
Definition item_ok w (x : Vnode) : Prop := forall m, v_item x = Some (IMount m) -> m ∈ mount_list w.

Record wf0 w : Prop := {
  wf_dirents : dirents_ok (dirents w);
  wf_dead v : v ∈ dead w -> (v < length (vnodes w))%nat;
  wf_kind v x : vnodes w !! v = Some x -> has_kind (mounts w) x;
  wf_fs m mt : mounts w !! m = Some mt -> fs_ok w m (m_fs mt);
  wf_dev e d v : dirents w !! e = Some d -> d_vnode d = Some v -> exists m, is_vnode w v m (BDev e);
  wf_type v x : vnodes w !! v = Some x -> type_ok w x;
  wf_item v x : vnodes w !! v = Some x -> item_ok w x;
  wf_list m : m ∈ mount_list w -> (m < length (mounts w))%nat
}.
(** Every vnode that is in use is recorded. *)
Definition recorded w : Prop := forall v x, vnodes w !! v = Some x -> v ∉ dead w -> records w (v_mount x) (v_backend x) v.
Definition wf w : Prop := wf0 w /\ recorded w.

Lemma is_vnode_prefix w w' v m b : vnodes w `prefix_of` vnodes w' -> is_vnode w v m b -> is_vnode w' v m b.
Proof. intros Hp (x & Hv & Hm & Hb). exists x. split_and!; [by eapply prefix_lookup_Some|done..]. Qed.
Lemma is_vnode_lt w v m b : is_vnode w v m b -> (v < length (vnodes w))%nat.
Proof. intros (x & Hv & _). by apply lookup_lt_Some in Hv. Qed.
(** Only these parts of the world matter. *)
Lemma wf_same w w' :
  dirents w' = dirents w -> dead w' = dead w -> vnodes w' = vnodes w -> mounts w' = mounts w -> mount_list w' = mount_list w ->
  wf w -> wf w'.
Proof.
  destruct w, w'. cbn. intros -> -> -> -> -> [[? ? ? ? ? ? ? ?] Hr]. split; [split; done|]. done.
Qed.

Lemma wf_dev_step w w' : dev_step w w' -> wf w -> wf w'.
Proof.
  intros [Hw' Hs] [Hwf Hrec]. destruct (Hs (wf_dirents _ Hwf)) as [Hok [Hg Hn]]. rewrite Hw'.
  assert (Hold : forall e d', dirents w' !! e = Some d' -> is_Some (d_vnode d') -> exists d, dirents w !! e = Some d /\ grown d d').
  { intros e d' He' [v Hv]. destruct (dirents w !! e) as [d|] eqn:He.
    - destruct (Hg _ _ He) as (d'' & He'' & Hd). naive_solver.
    - by rewrite (Hn _ _ He' He) in Hv. }
  assert (Hty : forall e t, (exists d, dirents w !! e = Some d /\ t = dev_type d) -> exists d, dirents w' !! e = Some d /\ t = dev_type d).
  { intros e t (d & He & ->). destruct (Hg _ _ He) as (d' & He' & l & ->). by eexists. }
  split; [split; cbn; try by apply Hwf|].
  - done.
  - intros m mt Hm. pose proof (wf_fs _ Hwf m mt Hm) as Hf. destruct (m_fs mt) as [| |i root g|]; try done.
    destruct Hf as (d & He & Ht). destruct (Hty root (Directory true)) as (d' & He' & Ht'); naive_solver.
  - intros e d' v He' Hv. destruct (Hold e d' He') as (d & He & l & ->); [by rewrite Hv|]. by eapply (wf_dev _ Hwf).
  - intros v x Hv. pose proof (wf_type _ Hwf _ _ Hv) as Ht. unfold type_ok in *. destruct (v_backend x); try done. by apply Hty.
  - intros v x Hv Ha. pose proof (Hrec v x Hv Ha) as Hr. destruct (v_backend x); try done. destruct Hr as (d & He & Hd).
    destruct (Hg _ _ He) as (d' & He' & l & ->). eexists. split; [exact He'|]. done.
Qed.

(** Mounts change or are added. *)
Lemma wf0_set_mounts w ms :
  wf0 w -> (length (mounts w) <= length ms)%nat ->
  (forall v x, vnodes w !! v = Some x -> has_kind ms x) -> (forall m mt, ms !! m = Some mt -> fs_ok w m (m_fs mt)) ->
  wf0 (set_mounts ms w).
Proof.
  intros Hwf Hlen Hk Hf. split; cbn; try by apply Hwf.
  - done.
  - intros m mt Hm. specialize (Hf _ _ Hm). by destruct (m_fs mt).
  - intros m Hm%(wf_list _ Hwf). lia.
Qed.
(** A vnode is added. *)
Lemma wf0_set_vnodes w x :
  wf0 w -> has_kind (mounts w) x -> type_ok w x -> item_ok w x -> wf0 (set_vnodes (vnodes w ++ [x]) w).
Proof.
  intros Hwf Hk Ht Hi.
  assert (Hp : vnodes w `prefix_of` vnodes (set_vnodes (vnodes w ++ [x]) w)) by by eexists.
  assert (Hv : forall (P : Vnode -> Prop) v y, P x -> (forall y, vnodes w !! v = Some y -> P y) -> (vnodes w ++ [x]) !! v = Some y -> P y).
  { intros P v y Hx Hold [[_ Hy]|[_ <-]]%lookup_snoc_Some; auto. }
  split; cbn.
  - apply Hwf.
  - intros v Hd%(wf_dead _ Hwf). rewrite length_app. cbn. lia.
  - intros v y. apply Hv; [done|]. apply Hwf.
  - intros m mt Hm. pose proof (wf_fs _ Hwf m mt Hm) as Hf. destruct (m_fs mt); try done; cbn in *.
    + intros id v Hact. destruct (Hf _ _ Hact) as (f & s & Hvn & Hid). exists f, s. split; [|done]. by eapply is_vnode_prefix.
    + intros n nd v Hnd Hvn. destruct (Hf _ _ _ Hnd Hvn). split; [|done]. by eapply is_vnode_prefix.
  - intros e d v He Hd. destruct (wf_dev _ Hwf _ _ _ He Hd) as (m & Hvn). exists m. by eapply is_vnode_prefix.
  - intros v y. apply (Hv (type_ok w)); [done|]. apply Hwf.
  - intros v y. apply (Hv (item_ok w)); [done|]. apply Hwf.
  - apply Hwf.
Qed.

(** ** Looking up only adds *)

Definition same_fs (d d' : FsData) : Prop :=
  match d, d' with
  | DHost r _, DHost r' _ => r = r'
  | DTmp max ns, DTmp max' ns' => max = max' /\ t_dir <$> ns' = t_dir <$> ns
  | DDev i r _, DDev i' r' _ => i = i' /\ r = r'
  | DNull l, DNull l' => l = l'
  | _, _ => False
  end.
Definition same_mount (x y : Mount) : Prop :=
  same_fs (m_fs x) (m_fs y) /\ m_ty y = m_ty x /\ m_parent y = m_parent x /\ m_flags y = m_flags x /\ m_id y = m_id x.
(** [d'] is [d] with more children and perhaps another vnode. *)
Definition same_dirent (d d' : Dirent) : Prop :=
  exists l v, d' = MkDirent (d_ty d) (d_inode d) (d_uid d) (d_gid d) (d_mode d) (d_dir d) (d_cdev d) (d_name d) (d_children d ++ l) v.
Record lext w w' : Prop := {
  le_vnodes : vnodes w `prefix_of` vnodes w';
  le_length : length (mounts w') = length (mounts w);
  le_mounts m x : mounts w !! m = Some x -> exists y, mounts w' !! m = Some y /\ same_mount x y;
  le_dirents e d : dirents w !! e = Some d -> exists d', dirents w' !! e = Some d' /\ same_dirent d d';
  le_list : mount_list w' = mount_list w;
  le_held : held w' = held w;
  le_root : root_vnode w' = root_vnode w
}.
#[export] Instance same_fs_preorder : PreOrder same_fs.
Proof. split; [by intros []|]. intros [] [] []; cbn; try done; naive_solver congruence. Qed.
#[export] Instance same_mount_preorder : PreOrder same_mount.
Proof.
  split; [by intros x; split_and!|]. intros x y z (? & ? & ? & ? & ?) (? & ? & ? & ? & ?). split; [by etrans|]. split_and!; congruence.
Qed.
#[export] Instance same_dirent_preorder : PreOrder same_dirent.
Proof.
  split.
  - intros d. exists [], (d_vnode d). rewrite app_nil_r. by destruct d.
  - intros d d1 d2 (l & v & ->) (l' & v' & ->). exists (l ++ l'), v'. cbn. by rewrite app_assoc.
Qed.
#[export] Instance lext_preorder : PreOrder lext.
Proof.
  split.
  - intros w. split; try done; intros ?? Hx; eexists; (split; [exact Hx|reflexivity]).
  - intros w w1 w2 [A1 B1 C1 D1 E1 F1 G1] [A2 B2 C2 D2 E2 F2 G2]. split; try congruence; [by etrans|..].
    + intros m x (y & Hy & Hs)%C1. destruct (C2 _ _ Hy) as (z & Hz & Hs'). exists z. split; [done|]. by etrans.
    + intros m x (y & Hy & Hs)%D1. destruct (D2 _ _ Hy) as (z & Hz & Hs'). exists z. split; [done|]. by etrans.
Qed.
(** An operation that only adds, and drops nothing. *)
Definition looks w w' : Prop := wf w -> wf w' /\ lext w w' /\ dead w' = dead w.
#[export] Instance looks_preorder : PreOrder looks.
Proof.
  split; [by intros w|]. intros w w1 w2 H1 H2 Hwf. destruct (H1 Hwf) as (Hwf1 & ? & ?). destruct (H2 Hwf1) as (? & ? & ?).
  split_and!; [done|by etrans|congruence].
Qed.
(** It returns a vnode of the file [b] that is in use. *)
Definition finds w w' (m : nat) (b : Backend) (v : nat) : Prop := is_vnode w' v m b /\ v ∉ dead w'.

Lemma grown_same d d' : grown d d' -> same_dirent d d'.
Proof. intros [l ->]. by exists l, (d_vnode d). Qed.
Lemma dev_step_looks w w' : dev_step w w' -> looks w w'.
Proof.
  intros Hs Hwf. split; [by eapply wf_dev_step|]. destruct Hs as [Hw' Hs]. destruct (Hs (wf_dirents _ (proj1 Hwf))) as [_ [Hg _]].
  rewrite Hw'. split; [|done]. split; cbn; try done.
  - intros m x Hx. exists x. by split.
  - intros e d (d' & He & Hd)%Hg. exists d'. split; [done|]. by apply grown_same.
Qed.

Lemma rand_u32_eq {E} w : exists s h, rand_u32 (E := E) w = (set_rng s w, Ok h).
Proof. unfold rand_u32. destruct (Arnd.rand_bytes 4 (rng w)) as [b s]. by eexists _, _. Qed.
Lemma vnode_new_eq {E} m ty b item w :
  exists s h, vnode_new (E := E) m ty b item w =
    (set_vnodes (vnodes w ++ [MkVnode m ty b h item]) (set_rng s w), Ok (length (vnodes w))).
Proof.
  unfold vnode_new. destruct (rand_u32_eq (E := E) w) as (s & h & Hr). exists s, h. by rewrite (io_bind_eq _ _ _ _ _ Hr).
Qed.

(** *** Vnodes of the host *)

(** The state that an operation leaves and the vnode that it returns. *)
Definition looks_up w (m : nat) (b : Backend) {E} (p : World HS * outcome E nat) : Prop :=
  wf w -> (wf p.1 /\ lext w p.1 /\ dead p.1 = dead w) /\ (forall v, p.2 = Ok v -> finds w p.1 m b v).
Lemma looks_up_same w m b {E} (r : outcome E nat) : (forall v, r <> Ok v) -> looks_up w m b (w, r).
Proof. intros Hr Hwf. split; [done|]. intros v Hv. by destruct (Hr v). Qed.
Lemma looks_up_old w m b {E} v : (wf w -> is_vnode w v m b /\ v ∉ dead w) -> looks_up w m b (E := E) (w, Ok v).
Proof. intros Hr Hwf. split; [done|]. intros v' [= <-]. by apply Hr. Qed.

(** A file of the host keeps its identifier. *)
Definition ids_stable : Prop := forall s s' r f i i', h_id H s r f = Ok i -> h_id H s' r f = Ok i' -> i = i'.
Lemma same_id_trans root f g h : ids_stable -> same_id root f g -> same_id root g h -> same_id root f h.
Proof.
  intros Hst (s & s' & i & Hf & Hg) (t & t' & j & Hg' & Hh). rewrite (Hst _ _ _ _ _ _ Hg Hg') in Hf. by exists s, t', j.
Qed.
Lemma same_id_sym root f g : same_id root f g -> same_id root g f.
Proof. intros (s & s' & i & Hf & Hg). by exists s', s, i. Qed.
(** The directory of the host that a mount shows. *)
Definition host_mount w (m : nat) (root : Z) : Prop := exists mt act, mounts w !! m = Some mt /\ m_fs mt = DHost root act.
(** A vnode in use of a file with the identifier of [file], which may have got
    its vnode under another name. *)
Definition finds_host w (m : nat) (file : list str) (v : nat) : Prop :=
  exists f root, is_vnode w v m (BHost f) /\ v ∉ dead w /\ host_mount w m root /\ same_id root file f.
Definition looks_up_host w (m : nat) (file : list str) {E} (p : World HS * outcome E nat) : Prop :=
  wf w -> (wf p.1 /\ lext w p.1 /\ dead p.1 = dead w) /\ (forall v, p.2 = Ok v -> finds_host p.1 m file v).
Lemma looks_up_host_same w m file {E} (r : outcome E nat) : (forall v, r <> Ok v) -> looks_up_host w m file (w, r).
Proof. intros Hr Hwf. split; [done|]. intros v Hv. by destruct (Hr v). Qed.

Lemma upgrade_Some w o v : upgrade w o = Some v -> o = Some v /\ v ∉ dead w.
Proof. unfold upgrade, is_alive. destruct o as [u|]; [|done]. case_decide; naive_solver. Qed.
Lemma upgrade_None w v : upgrade w (Some v) = None -> (v < length (vnodes w))%nat -> v ∈ dead w.
Proof. unfold upgrade, is_alive. case_decide as Hd; [done|]. intros _ Hv. destruct (decide (v ∈ dead w)); naive_solver. Qed.

(** A vnode that is not in use yet. *)
Lemma fresh_vnode w : wf0 w -> length (vnodes w) ∉ dead w.
Proof. intros Hwf Hd%(wf_dead _ Hwf). lia. Qed.
Lemma set_rng_wf w s : wf w -> wf (set_rng s w).
Proof. by apply wf_same. Qed.
(** The mount [m] changes in a way that [looks] allows. *)
Lemma lext_alter w m f :
  (forall x, mounts w !! m = Some x -> same_mount x (f x)) ->
  lext w (set_mounts (alter (M := list Mount) f m (mounts w)) w).
Proof.
  intros Hf. split; cbn; try done.
  - apply length_alter.
  - intros k x Hx. destruct (decide (k = m)) as [->|Hne].
    + exists (f x). rewrite list_lookup_alter_eq, Hx. naive_solver.
    + exists x. by rewrite list_lookup_alter_ne.
  - intros e d He. exists d. by split.
Qed.
Lemma lext_snoc w x s : lext w (set_vnodes (vnodes w ++ [x]) (set_rng s w)).
Proof.
  split; cbn; try done; [by eexists|..]; intros ?? Hx; eexists; (split; [exact Hx|reflexivity]).
Qed.
(** The kinds of vnodes stay when a mount keeps its kind. *)
Lemma has_kind_alter w m f x :
  (forall mt, mounts w !! m = Some mt -> same_fs (m_fs mt) (m_fs (f mt))) ->
  has_kind (mounts w) x -> has_kind (alter (M := list Mount) f m (mounts w)) x.
Proof.
  intros Hf (mt & Hm & Hk). destruct (decide (v_mount x = m)) as [<-|Hne].
  - exists (f mt). rewrite list_lookup_alter_eq, Hm. split; [done|]. specialize (Hf _ Hm).
    unfold kind_ok in *. destruct (v_backend x), (m_fs mt), (m_fs (f mt)); try done. cbn in Hf. by subst.
  - exists mt. by rewrite list_lookup_alter_ne.
Qed.
(** A vnode is made and recorded in its mount. *)
Lemma wf_new_vnode w m mt f x s :
  wf w -> mounts w !! m = Some mt -> v_mount x = m -> v_item x = None -> kind_ok x (m_fs mt) -> type_ok w x ->
  same_fs (m_fs mt) (m_fs (f mt)) ->
  let w1 := set_vnodes (vnodes w ++ [x]) (set_rng s w) in
  let w2 := set_mounts (alter (M := list Mount) f m (mounts w)) w1 in
  fs_ok w1 m (m_fs (f mt)) ->
  (forall v y, vnodes w !! v = Some y -> v ∉ dead w -> records w2 (v_mount y) (v_backend y) v) ->
  records w2 m (v_backend x) (length (vnodes w)) -> wf w2.
Proof.
  intros Hwf Hm Hxm Hxi Hk Ht Hsame w1 w2 Hf Hold Hnew.
  assert (Hwf1 : wf0 w1).
  { apply (wf0_set_vnodes (set_rng s w)); [by apply set_rng_wf| |done|by intros k; rewrite Hxi]. exists mt. by rewrite Hxm. }
  split.
  - apply wf0_set_mounts; [done|by rewrite length_alter|..].
    + intros v y Hy%(wf_kind _ Hwf1). apply (has_kind_alter w); [|done]. naive_solver.
    + intros k kt Hkt. destruct (decide (k = m)) as [->|Hne].
      * rewrite list_lookup_alter_eq, Hm in Hkt. by simplify_eq/=.
      * rewrite list_lookup_alter_ne in Hkt by done. by apply Hwf1.
  - intros v y [[_ Hy]|[-> <-]]%lookup_snoc_Some Ha; [by apply Hold|]. by rewrite Hxm.
Qed.

Lemma get_vnode_new w m mt root act id file x s :
  wf w -> mounts w !! m = Some mt -> m_fs mt = DHost root act -> (exists hs, h_id H hs root file = Ok id) ->
  upgrade w (act !! id) = None -> v_mount x = m -> v_backend x = BHost file -> v_item x = None ->
  (is_directory x = true -> host_dir root file) ->
  wf (set_mounts (alter (M := list Mount) (actives_insert id (length (vnodes w))) m (mounts w))
        (set_vnodes (vnodes w ++ [x]) (set_rng s w))).
Proof.
  intros Hwf Hm Hfs [t Hid] Hup Hxm Hxb Hxi Hdir.
  assert (Hmt : m_fs (actives_insert id (length (vnodes w)) mt) = DHost root (<[id := length (vnodes w)]> act)).
  { unfold actives_insert. cbn. by rewrite Hfs. }
  apply (wf_new_vnode w m mt); try done.
  - unfold kind_ok. by rewrite Hxb, Hfs.
  - unfold type_ok. by rewrite Hxb.
  - by rewrite Hmt, Hfs.
  - rewrite Hmt. intros id' v Hv. destruct (decide (id' = id)) as [->|Hne].
    + rewrite lookup_insert_eq in Hv. simplify_eq. exists file, t. split; [|done]. exists x. split_and!; [by apply list_lookup_middle|done..].
    + rewrite lookup_insert_ne in Hv by done. pose proof (wf_fs _ (proj1 Hwf) m mt Hm) as Hf. rewrite Hfs in Hf.
      destruct (Hf _ _ Hv) as (f & t' & Hvn & Hid'). exists f, t'. split; [|done]. eapply is_vnode_prefix; [|done]. by eexists.
  - intros v y Hy Ha. pose proof (proj2 Hwf _ _ Hy Ha) as Hr. destruct (v_backend y) as [f|n|e|l]; try done.
    + destruct Hr as (mt' & root' & act' & id' & t' & Hm' & Hfs' & Hact & Hid').
      destruct (decide (v_mount y = m)) as [Hym|Hne].
      * rewrite Hym in Hm'. simplify_eq. eexists _, _, _, id', t'. split; [cbn; by rewrite Hym, list_lookup_alter_eq, Hm|].
        split; [exact Hmt|]. split; [|congruence]. rewrite lookup_insert_ne; [congruence|]. intros <-.
        assert (act' = act) as -> by congruence. rewrite Hact in Hup. apply Ha, (upgrade_None w v Hup). by apply lookup_lt_Some in Hy.
      * exists mt', root', act', id', t'. split; [cbn; by rewrite list_lookup_alter_ne|]. done.
    + destruct Hr as (mt' & max & nodes & nd & Hm' & Hfs' & Hnd & Ht). exists mt', max, nodes, nd.
      destruct (decide (v_mount y = m)) as [Hym|Hne]; [|split; [cbn; by rewrite list_lookup_alter_ne|done]].
      rewrite Hym in Hm'. congruence.
  - rewrite Hxb. eexists _, _, _, id, t. split; [cbn; by rewrite list_lookup_alter_eq, Hm|]. split; [exact Hmt|].
    by rewrite lookup_insert_eq.
Qed.
Lemma get_vnode_spec w m file : looks_up_host w m file (get_vnode H m file w).
Proof.
  unfold get_vnode, mbind, io_bind, the_mount, deref, asks, host_call, lift. destruct (mounts w !! m) as [mt|] eqn:Hm; cbn;
    [|by apply looks_up_host_same].
  destruct (m_fs mt) as [root act| | |] eqn:Hfs; cbn; try by apply looks_up_host_same.
  destruct (h_id H (hs w) root file) as [id| |] eqn:Hid; cbn; try by apply looks_up_host_same.
  destruct (upgrade w (act !! id)) as [v|] eqn:Hup.
  { intros Hwf. split; [done|]. intros v' [= <-]. apply upgrade_Some in Hup as [Hact Ha].
    pose proof (wf_fs _ (proj1 Hwf) m mt Hm) as Hf. rewrite Hfs in Hf. destruct (Hf _ _ Hact) as (f & s & Hvn & Hid').
    exists f, root. split; [done|]. split; [done|]. split; [by exists mt, act|]. by exists (hs w), s, id. }
  destruct (h_is_dir H (hs w) root file) as [dir| |] eqn:Hdir; cbn; try by apply looks_up_host_same.
  match goal with |- context [vnode_new m ?ty ?b ?i w] => destruct (vnode_new_eq (E := Z) m ty b i w) as (s & h & ->) end.
  unfold mret, io_ret. cbn. intros Hwf. set (x := MkVnode m _ _ h None). split; [split_and!|].
  - eapply get_vnode_new; eauto. intros Hd. exists (hs w). destruct dir; [done|]. discriminate Hd.
  - etrans; [apply (lext_snoc w x s)|]. apply (lext_alter (set_vnodes (vnodes w ++ [x]) (set_rng s w))). cbn. rewrite Hm. intros y [= <-]. split; [|done].
    unfold actives_insert. cbn. by rewrite Hfs.
  - done.
  - intros v [= <-]. exists file, root. split; [exists x; split_and!; [by apply list_lookup_middle|done..]|].
    split; [exact (fresh_vnode w (proj1 Hwf))|]. split; [|by exists (hs w), (hs w), id].
    eexists _, _. cbn. rewrite list_lookup_alter_eq, Hm. split; [done|]. unfold actives_insert. cbn. by rewrite Hfs.
Qed.

(** *** Vnodes of tmpfs *)

Lemma tmp_alloc_new w m mt max nodes n nd x s :
  let g := fun nd => MkTNode (Some (length (vnodes w))) (t_dir nd) in
  wf w -> mounts w !! m = Some mt -> m_fs mt = DTmp max nodes -> nodes !! n = Some nd -> t_vnode nd = None ->
  v_mount x = m -> v_backend x = BTmp n -> v_item x = None ->
  wf (set_mounts (alter (M := list Mount) (node_upd n g) m (mounts w)) (set_vnodes (vnodes w ++ [x]) (set_rng s w))).
Proof.
  intros g Hwf Hm Hfs Hnd Hnone Hxm Hxb Hxi.
  assert (Hmt : m_fs (node_upd n g mt) = DTmp max (alter (M := list TNode) g n nodes)) by (unfold node_upd; cbn; by rewrite Hfs).
  apply (wf_new_vnode w m mt); try done.
  - unfold kind_ok. by rewrite Hxb, Hfs.
  - unfold type_ok. by rewrite Hxb.
  - rewrite Hmt, Hfs. split; [done|]. apply list_eq. intros i. rewrite !list_lookup_fmap.
    destruct (decide (i = n)) as [->|Hne]; [by rewrite list_lookup_alter_eq, Hnd|by rewrite list_lookup_alter_ne].
  - rewrite Hmt. intros i nd' v Hi Hv. destruct (decide (i = n)) as [->|Hne].
    + rewrite list_lookup_alter_eq, Hnd in Hi. simplify_eq/=. split; [|by apply fresh_vnode, Hwf].
      exists x. split_and!; [by apply list_lookup_middle|done..].
    + rewrite list_lookup_alter_ne in Hi by done. pose proof (wf_fs _ (proj1 Hwf) m mt Hm) as Hf. rewrite Hfs in Hf.
      destruct (Hf _ _ _ Hi Hv) as [Hvn Ha]. split; [|done]. eapply is_vnode_prefix; [|done]. by eexists.
  - intros v y Hy Ha. pose proof (proj2 Hwf _ _ Hy Ha) as Hr. destruct (v_backend y) as [f|n'|e|l]; try done.
    + destruct Hr as (mt' & root' & act' & id' & t' & Hm' & Hfs' & Hr). exists mt', root', act', id', t'.
      destruct (decide (v_mount y = m)) as [Hym|Hne]; [|split; [cbn; by rewrite list_lookup_alter_ne|done]].
      rewrite Hym in Hm'. congruence.
    + destruct Hr as (mt' & max' & nodes' & nd' & Hm' & Hfs' & Hnd' & Ht).
      destruct (decide (v_mount y = m)) as [Hym|Hne].
      * rewrite Hym in Hm'. simplify_eq. eexists _, _, _, nd'. split; [cbn; by rewrite Hym, list_lookup_alter_eq, Hm|].
        split; [exact Hmt|]. rewrite list_lookup_alter_ne; [|congruence]. by assert (nodes' = nodes) as -> by congruence.
      * exists mt', max', nodes', nd'. split; [cbn; by rewrite list_lookup_alter_ne|]. done.
  - rewrite Hxb. eexists _, _, _, (g nd). split; [cbn; by rewrite list_lookup_alter_eq, Hm|]. split; [exact Hmt|].
    by rewrite list_lookup_alter_eq, Hnd.
Qed.
Lemma tmp_alloc_vnode_spec {E} w m n : looks_up w m (BTmp n) (tmp_alloc_vnode (E := E) m n w).
Proof.
  unfold tmp_alloc_vnode, mbind, io_bind, the_mount, deref, lift. destruct (mounts w !! m) as [mt|] eqn:Hm; cbn; [|by apply looks_up_same].
  destruct (m_fs mt) as [|max nodes| |] eqn:Hfs; cbn; try by apply looks_up_same.
  destruct (nodes !! n) as [nd|] eqn:Hnd; cbn; [|by apply looks_up_same].
  destruct (t_vnode nd) as [v|] eqn:Hv.
  { apply looks_up_old. intros Hwf. pose proof (wf_fs _ (proj1 Hwf) m mt Hm) as Hf. rewrite Hfs in Hf. by apply (Hf n nd). }
  match goal with |- context [vnode_new m ?ty ?b ?i w] => destruct (vnode_new_eq (E := E) m ty b i w) as (s & h & ->) end.
  unfold mret, io_ret. cbn. intros Hwf. set (x := MkVnode m _ _ h None). split; [split_and!|].
  - eapply tmp_alloc_new; eauto.
  - etrans; [apply (lext_snoc w x s)|]. apply (lext_alter (set_vnodes (vnodes w ++ [x]) (set_rng s w))). cbn. rewrite Hm.
    intros y [= <-]. split; [|done]. unfold node_upd. cbn. rewrite Hfs. split; [done|]. apply list_eq. intros i. rewrite !list_lookup_fmap.
    destruct (decide (i = n)) as [->|Hne]; [by rewrite list_lookup_alter_eq, Hnd|by rewrite list_lookup_alter_ne].
  - done.
  - intros v [= <-]. split; [|exact (fresh_vnode w (proj1 Hwf))]. exists x. split_and!; [by apply list_lookup_middle|done..].
Qed.

(** *** Vnodes of devfs *)

Lemma lookup_with_vnode ds e v k d' :
  alter (M := list Dirent) (with_vnode v) e ds !! k = Some d' ->
  exists d, ds !! k = Some d /\ d' = (if decide (k = e) then with_vnode v d else d).
Proof.
  case_decide as Hk; [subst; rewrite list_lookup_alter_eq|rewrite list_lookup_alter_ne by done]; destruct (ds !! _); naive_solver.
Qed.
Lemma lookup_with_vnode_2 ds e v k d :
  ds !! k = Some d -> alter (M := list Dirent) (with_vnode v) e ds !! k = Some (if decide (k = e) then with_vnode v d else d).
Proof.
  intros Hk. case_decide as He; [subst; by rewrite list_lookup_alter_eq, Hk|by rewrite list_lookup_alter_ne].
Qed.
Lemma dirents_ok_vnode ds e v : dirents_ok ds -> dirents_ok (alter (M := list Dirent) (with_vnode v) e ds).
Proof.
  intros Hok q dq c (dq0 & Hq & ->)%lookup_with_vnode Hc. destruct (Hok q dq0 c Hq) as (dc & Hdc & Hup); [by destruct (decide (q = e))|].
  eexists. split; [by apply lookup_with_vnode_2|]. intros Hsub.
  destruct Hup as (k & dd & Hk & Hdd & Hdir); [by destruct (decide (c = e))|].
  exists k, (if decide (k = e) then with_vnode v dd else dd). split_and!; [by destruct (decide (c = e))|by apply lookup_with_vnode_2|by destruct (decide (k = e))].
Qed.
Lemma dev_type_vnode (b : bool) v d : dev_type (if b then with_vnode v d else d) = dev_type d.
Proof. by destruct b. Qed.
Lemma dev_alloc_new w m mt i root g e d x s :
  let v := length (vnodes w) in
  wf w -> mounts w !! m = Some mt -> m_fs mt = DDev i root g -> dirents w !! e = Some d -> upgrade w (d_vnode d) = None ->
  v_mount x = m -> v_backend x = BDev e -> v_ty x = dev_type d -> (forall k, v_item x <> Some (IMount k)) ->
  wf (set_dirents (alter (M := list Dirent) (with_vnode (Some v)) e (dirents w)) (set_vnodes (vnodes w ++ [x]) (set_rng s w))).
Proof.
  intros v Hwf Hm Hfs He Hup Hxm Hxb Hxt Hxi.
  assert (Hwf1 : wf0 (set_vnodes (vnodes w ++ [x]) (set_rng s w))).
  { apply (wf0_set_vnodes (set_rng s w)); [by apply set_rng_wf|..].
    - exists mt. unfold kind_ok; by rewrite Hxm, Hxb, Hfs.
    - unfold type_ok. rewrite Hxb. by exists d.
    - intros k Hk. by destruct (Hxi k). }
  assert (Hty : forall k t, (exists d, dirents w !! k = Some d /\ t = dev_type d) ->
    exists d, alter (M := list Dirent) (with_vnode (Some v)) e (dirents w) !! k = Some d /\ t = dev_type d).
  { intros k t (d' & Hk & ->). eexists. split; [by apply lookup_with_vnode_2|]. by case_decide. }
  split; [split; cbn; try by apply Hwf1|].
  - by apply dirents_ok_vnode, Hwf.
  - intros k kt Hk. pose proof (wf_fs _ Hwf1 k kt Hk) as Hf. destruct (m_fs kt) as [| |i' r' g'|]; try done.
    destruct Hf as (d' & Hd' & Ht'). destruct (Hty r' (Directory true)) as (d'' & ? & ?); [by exists d'|by exists d''].
  - intros k d' u (d0 & Hk & ->)%lookup_with_vnode Hu. case_decide as Hke; [|by apply (wf_dev _ Hwf1 k d0)].
    cbn in Hu. simplify_eq. exists (v_mount x), x. split_and!; [by apply list_lookup_middle|done..].
  - intros u y Hy. pose proof (wf_type _ Hwf1 _ _ Hy) as Ht. unfold type_ok in *. destruct (v_backend y); try done. by apply Hty.
  - intros u y Hy Ha. apply lookup_snoc_Some in Hy as [[_ Hy]|[-> <-]]; cbn.
    + pose proof (proj2 Hwf _ _ Hy Ha) as Hr. destruct (v_backend y) as [| |e'|]; try done. destruct Hr as (d' & He' & Hd').
      eexists. split; [by apply lookup_with_vnode_2|]. case_decide as Hee; [|done]. subst. simplify_eq. rewrite Hd' in Hup.
      destruct Ha. apply (upgrade_None w u Hup). by apply lookup_lt_Some in Hy.
    + rewrite Hxb. eexists. split; [by apply lookup_with_vnode_2|]. by rewrite decide_True.
Qed.
Lemma lext_dirents w e v : lext w (set_dirents (alter (M := list Dirent) (with_vnode v) e (dirents w)) w).
Proof.
  split; cbn; try done; [intros m x Hx; by exists x|]. intros k d Hk. eexists. split; [by apply lookup_with_vnode_2|].
  case_decide; [exists [], v|exists [], (d_vnode d)]; rewrite app_nil_r; by destruct d.
Qed.
(** The vnode of an entry, on any mount. *)
Definition looks_up_dev w e {E} (p : World HS * outcome E nat) : Prop :=
  wf w -> (wf p.1 /\ lext w p.1 /\ dead p.1 = dead w) /\ (forall v, p.2 = Ok v -> exists m, finds w p.1 m (BDev e) v).
Lemma looks_up_dev_same w e {E} (r : outcome E nat) : (forall v, r <> Ok v) -> looks_up_dev w e (w, r).
Proof. intros Hr Hwf. split; [done|]. intros v Hv. by destruct (Hr v). Qed.
Lemma dev_alloc_vnode_spec w m mt i root g e :
  mounts w !! m = Some mt -> m_fs mt = DDev i root g -> looks_up_dev w e (dev_alloc_vnode m e w).
Proof.
  intros Hm Hfs. unfold dev_alloc_vnode. unfold mbind at 1, io_bind at 1, the_dirent, deref.
  destruct (dirents w !! e) as [d|] eqn:He; cbn; [|by apply looks_up_dev_same].
  unfold mbind at 1, io_bind at 1, asks. destruct (upgrade w (d_vnode d)) as [v|] eqn:Hup.
  { apply upgrade_Some in Hup as [Hd Ha]. intros Hwf. split; [done|]. intros v' [= <-].
    destruct (wf_dev _ (proj1 Hwf) _ _ _ He Hd) as (m' & Hvn). by exists m'. }
  assert (Hnew : forall item, (forall k, item <> Some (IMount k)) -> looks_up_dev w e
    ((v ← vnode_new m (dev_type d) (BDev e) item; upd_dirent e (with_vnode (Some v));; (mret v : io (World HS) Z nat)) w)).
  { intros item Hi. destruct (vnode_new_eq (E := Z) m (dev_type d) (BDev e) item w) as (s & h & Hv).
    rewrite (io_bind_eq _ _ _ _ _ Hv). unfold mbind, io_bind, mret, io_ret. cbn. intros Hwf. set (x := MkVnode m _ _ h item). split; [split_and!|].
    - by eapply dev_alloc_new.
    - etrans; [apply (lext_snoc w x s)|]. apply (lext_dirents (set_vnodes (vnodes w ++ [x]) (set_rng s w))).
    - done.
    - intros v [= <-]. exists m. split; [|exact (fresh_vnode w (proj1 Hwf))]. exists x. split_and!; [by apply list_lookup_middle|done..]. }
  unfold dev_type in Hnew. destruct (d_ty d) eqn:Hty; [|by apply Hnew|by apply looks_up_dev_same].
  destruct (d_cdev d) as [k|]; [|by apply looks_up_dev_same]. by apply (Hnew (Some (IDevice k))).
Qed.

(** *** Changes of a mount *)

(** The file system still records the same vnodes. *)
Definition keep_fs (d d' : FsData) : Prop :=
  match d, d' with
  | DHost r a, DHost r' a' => r = r' /\ a = a'
  | DTmp _ ns, DTmp _ ns' =>
      (forall n nd, ns !! n = Some nd -> exists nd', ns' !! n = Some nd' /\ t_vnode nd' = t_vnode nd) /\
      (forall n nd', ns' !! n = Some nd' -> ns !! n = None -> t_vnode nd' = None)
  | DDev i r _, DDev i' r' _ => i = i' /\ r = r'
  | DNull l, DNull l' => l = l'
  | _, _ => False
  end.
Lemma keep_fs_refl d : keep_fs d d.
Proof. destruct d; cbn; try done. split; [|congruence]. naive_solver. Qed.
Lemma keep_fs_ok w m d d' : keep_fs d d' -> fs_ok w m d -> fs_ok w m d'.
Proof.
  destruct d as [r a|max ns|i r g|l], d' as [r' a'|max' ns'|i' r' g'|l']; cbn; try done; [by intros [<- <-]| |by intros [<- <-]].
  intros [Hk Hn] Hok n nd' v Hnd' Hv. destruct (ns !! n) as [nd|] eqn:Hnd.
  - destruct (Hk _ _ Hnd) as (nd'' & ? & ?). simplify_eq. apply (Hok n nd v Hnd). congruence.
  - by rewrite (Hn _ _ Hnd' Hnd) in Hv.
Qed.
Lemma keep_fs_kind x d d' : keep_fs d d' -> kind_ok x d -> kind_ok x d'.
Proof. unfold kind_ok. destruct (v_backend x), d, d'; try done. by intros [<- _]. Qed.
Lemma records_mounts w ms m b v :
  (forall mt, mounts w !! m = Some mt -> exists mt', ms !! m = Some mt' /\ keep_fs (m_fs mt) (m_fs mt')) ->
  records w m b v -> records (set_mounts ms w) m b v.
Proof.
  intros Hms Hr. destruct b as [f|n|e|l]; try done.
  - destruct Hr as (mt & root & act & id & s & Hm & Hfs & Hact). destruct (Hms _ Hm) as (mt' & Hm' & Hk). rewrite Hfs in Hk.
    destruct (m_fs mt') as [r' a'| | |] eqn:Hfs'; try done. destruct Hk as [<- <-]. by exists mt', root, act, id, s.
  - destruct Hr as (mt & max & ns & nd & Hm & Hfs & Hnd & Hv). destruct (Hms _ Hm) as (mt' & Hm' & Hk). rewrite Hfs in Hk.
    destruct (m_fs mt') as [|max' ns'| |] eqn:Hfs'; try done. destruct Hk as [Hk _]. destruct (Hk _ _ Hnd) as (nd' & Hnd' & Hv').
    exists mt', max', ns', nd'. split_and!; try done. congruence.
Qed.
(** Mounts keep what they record, and new mounts are in order. *)
Lemma wf_set_mounts w ms :
  wf w -> (forall m mt, mounts w !! m = Some mt -> exists mt', ms !! m = Some mt' /\ keep_fs (m_fs mt) (m_fs mt')) ->
  (forall m mt', ms !! m = Some mt' -> mounts w !! m = None -> fs_ok w m (m_fs mt')) -> wf (set_mounts ms w).
Proof.
  intros [Hwf Hrec] Hold Hnew. split.
  - apply wf0_set_mounts; [done|..].
    + destruct (decide (length (mounts w) <= length ms)%nat) as [|Hlt]; [done|].
      destruct (lookup_lt_is_Some_2 (mounts w) (length ms)) as [mt Hmt]; [lia|].
      destruct (Hold _ _ Hmt) as (mt' & Hmt' & _). apply lookup_lt_Some in Hmt'. lia.
    + intros v x (mt & Hm & Hk)%(wf_kind _ Hwf). destruct (Hold _ _ Hm) as (mt' & Hm' & Hkeep). exists mt'. split; [done|].
      by eapply keep_fs_kind.
    + intros m mt' Hm'. destruct (mounts w !! m) as [mt|] eqn:Hm; [|by apply Hnew].
      destruct (Hold _ _ Hm) as (mt'' & ? & Hkeep). simplify_eq. eapply keep_fs_ok; [done|]. by apply Hwf.
  - intros v x Hv Ha. apply records_mounts; [by apply Hold|]. by apply Hrec.
Qed.
Lemma wf_alter_mount w m f :
  wf w -> (forall mt, mounts w !! m = Some mt -> keep_fs (m_fs mt) (m_fs (f mt))) ->
  wf (set_mounts (alter (M := list Mount) f m (mounts w)) w).
Proof.
  intros Hwf Hf. apply wf_set_mounts; [done|..].
  - intros k mt Hk. destruct (decide (k = m)) as [->|Hne].
    + exists (f mt). rewrite list_lookup_alter_eq, Hk. naive_solver.
    + exists mt. rewrite list_lookup_alter_ne by done. split; [done|]. apply keep_fs_refl.
  - intros k mt' Hk Hn. destruct (decide (k = m)) as [->|Hne].
    + by rewrite list_lookup_alter_eq, Hn in Hk.
    + rewrite list_lookup_alter_ne in Hk by done. congruence.
Qed.
Lemma looks_alter_mount w m f :
  (forall mt, mounts w !! m = Some mt -> same_mount mt (f mt) /\ keep_fs (m_fs mt) (m_fs (f mt))) ->
  looks w (set_mounts (alter (M := list Mount) f m (mounts w)) w).
Proof.
  intros Hf Hwf. split; [apply wf_alter_mount; [done|]; intros x Hx; apply (Hf x Hx)|]. split; [|done]. apply lext_alter. intros x Hx. apply (Hf x Hx).
Qed.

(** *** Operations that only read and populate *)

Lemma populate_looks {E} m : keeps looks (populate (HS := HS) (E := E) m).
Proof.
  intros w. unfold populate. unfold mbind at 1, io_bind at 1, the_mount, deref.
  destruct (mounts w !! m) as [mt|] eqn:Hm; cbn; [|reflexivity].
  destruct (m_fs mt) as [| |i root g|] eqn:Hfs; cbn; try reflexivity.
  unfold mbind at 1, io_bind at 1, asks. destruct (g =? generation w); [reflexivity|].
  unfold mbind at 1, io_bind at 1. unfold mbind at 1, io_bind at 1.
  pose proof (add_devices_step (E := E) i root (seq 0 (length (devices w))) w) as Hs.
  destruct (add_devices i root _ w) as [w1 [u|e|p]]; cbn in *; [|by apply dev_step_looks..].
  etrans; [by apply dev_step_looks|]. apply looks_alter_mount. destruct Hs as [-> _]. cbn. rewrite Hm. intros mt' [= <-].
  unfold same_mount. cbn. by rewrite Hfs.
Qed.

Lemma dev_access_read x e td mode : keeps eq (dev_access (HS := HS) x e td mode).
Proof. unfold dev_access, attr_dirent. keep. Qed.
#[local] Hint Resolve dev_access_read : keep.
Lemma access_read fuel td mode v : keeps eq (access_ (HS := HS) fuel td mode v).
Proof. revert v. induction fuel as [|fuel IH]; intros v; cbn [access_]; keep. Qed.
Lemma access_same td mode v w w' u : access (HS := HS) td mode v w = (w', Ok u) -> w' = w.
Proof. intros Ha. pose proof (access_read v td mode v w) as Hr. unfold access in Ha. by rewrite Ha in Hr. Qed.
Lemma access_looks td mode v : keeps looks (access (HS := HS) td mode v).
Proof. intros w. unfold access. by rewrite <- (access_read v td mode v w). Qed.
Lemma get_vnode_looks m file : keeps looks (get_vnode H m file).
Proof. intros w Hwf. by apply get_vnode_spec. Qed.
Lemma tmp_alloc_looks {E} m n : keeps looks (tmp_alloc_vnode (HS := HS) (E := E) m n).
Proof. intros w Hwf. by apply tmp_alloc_vnode_spec. Qed.
#[local] Hint Resolve access_looks get_vnode_looks tmp_alloc_looks populate_looks : keep.

(** The steps of a computation with what is known of the states between them. *)
Lemma looks_bind {E A B} (m : io (World HS) E A) (f : A -> io (World HS) E B) w :
  looks w (m w).1 -> (forall a w1, m w = (w1, Ok a) -> wf w1 -> lext w w1 -> looks w1 (f a w1).1) -> looks w ((m ≫= f) w).1.
Proof.
  intros Hm Hf Hwf. destruct (Hm Hwf) as (Hwf1 & Hl & Hd). unfold mbind, io_bind.
  destruct (m w) as [w1 [a|e|p]]; cbn in *; [|done..]. specialize (Hf a w1 eq_refl Hwf1 Hl Hwf1) as (? & ? & ?).
  split; [done|]. split; [by etrans|congruence].
Qed.

(** The kind of a mount stays. *)
Definition is_dev w (m : nat) : Prop := exists mt i root g, mounts w !! m = Some mt /\ m_fs mt = DDev i root g.
Definition is_null w (m : nat) : Prop := exists mt l, mounts w !! m = Some mt /\ m_fs mt = DNull l.
Lemma is_dev_lext w w' m : lext w w' -> is_dev w m -> is_dev w' m.
Proof.
  intros Hl (mt & i & root & g & Hm & Hfs). destruct (le_mounts _ _ Hl _ _ Hm) as (mt' & Hm' & Hs & _). rewrite Hfs in Hs.
  destruct (m_fs mt') as [| |i' r' g'|] eqn:Hfs'; try done. by exists mt', i', r', g'.
Qed.
Lemma is_null_lext w w' m : lext w w' -> is_null w m -> is_null w' m.
Proof.
  intros Hl (mt & l & Hm & Hfs). destruct (le_mounts _ _ Hl _ _ Hm) as (mt' & Hm' & Hs & _). rewrite Hfs in Hs.
  destruct (m_fs mt') as [| | |l'] eqn:Hfs'; try done. by exists mt', l'.
Qed.
Lemma dev_kind w v x e : wf w -> vnodes w !! v = Some x -> v_backend x = BDev e -> is_dev w (v_mount x).
Proof.
  intros Hwf Hv Hb. destruct (wf_kind _ (proj1 Hwf) _ _ Hv) as (mt & Hm & Hk). unfold kind_ok in Hk. rewrite Hb in Hk.
  destruct (m_fs mt) as [| |i root g|] eqn:Hfs; try done. by exists mt, i, root, g.
Qed.
Lemma null_kind w v x l : wf w -> vnodes w !! v = Some x -> v_backend x = BNull l -> is_null w (v_mount x).
Proof.
  intros Hwf Hv Hb. destruct (wf_kind _ (proj1 Hwf) _ _ Hv) as (mt & Hm & Hk). unfold kind_ok in Hk. rewrite Hb in Hk.
  destruct (m_fs mt) as [| | |l'] eqn:Hfs; try done. by exists mt, l'.
Qed.
Lemma dev_alloc_looks w m e : is_dev w m -> looks w (dev_alloc_vnode m e w).1.
Proof. intros (mt & i & root & g & Hm & Hfs) Hwf. by eapply dev_alloc_vnode_spec. Qed.

Lemma hash_index_read {E} v : keeps eq (hash_index (HS := HS) (E := E) v).
Proof. unfold hash_index. keep. Qed.
#[local] Hint Resolve hash_index_read : keep.
Lemma null_get_read {E} m lower : keeps eq (null_get (HS := HS) (E := E) m lower).
Proof. unfold null_get. keep. Qed.
Lemma eq_looks {E A} (m : io (World HS) E A) : keeps eq m -> keeps looks m.
Proof. intros Hm w. by rewrite <- (Hm w). Qed.
Lemma looks_null_table w t : looks w (set_null_table t w).
Proof.
  intros Hwf. split; [by apply (wf_same w)|]. split; [|done]. split; cbn; try done; intros ?? Hx; eexists; (split; [exact Hx|reflexivity]).
Qed.
Lemma null_insert_looks {E} lower null : keeps looks (null_insert (HS := HS) (E := E) lower null).
Proof.
  unfold null_insert. apply keeps_then; [apply _|apply eq_looks, hash_index_read|]. intros h w. apply looks_null_table.
Qed.
Lemma vnode_new_null {E} w m ty l : is_null w m -> looks w (vnode_new (E := E) m ty (BNull l) None w).1.
Proof.
  intros (mt & l' & Hm & Hfs) Hwf. destruct (vnode_new_eq (E := E) m ty (BNull l) None w) as (s & h & ->). cbn.
  set (x := MkVnode m ty (BNull l) h None). split; [split|split; [apply lext_snoc|done]].
  - apply (wf0_set_vnodes (set_rng s w)); [by apply set_rng_wf| |done|done]. exists mt. unfold kind_ok. cbn. by rewrite Hfs.
  - intros v y [[_ Hy]|[-> <-]]%lookup_snoc_Some Ha; [|done]. by apply (proj2 Hwf).
Qed.
Lemma null_nodeget_looks {E} w m lower : is_null w m -> looks w (null_nodeget (E := E) m lower w).1.
Proof.
  intros Hn. unfold null_nodeget. apply looks_bind; [apply eq_looks, null_get_read|]. intros [v|] w1 _ _ Hl; [reflexivity|].
  apply looks_bind; [reflexivity|]. intros x w2 [-> Hx]%deref_Ok _ _.
  apply looks_bind; [by apply vnode_new_null, (is_null_lext w)|]. intros v w3 _ _ _.
  revert w3. apply keeps_then; [apply _|apply null_insert_looks|]. intros _. keep.
Qed.

Lemma dirent_parent_read {E} e : keeps eq (dirent_parent (HS := HS) (E := E) e).
Proof. unfold dirent_parent. keep. Qed.
Lemma find_read {E} e name : keeps eq (find (HS := HS) (E := E) e name).
Proof. unfold find. keep. Qed.
Lemma dev_lookup_looks w v x e td name : is_dev w (v_mount x) -> looks w (dev_lookup v x e td name w).1.
Proof.
  intros Hd. unfold dev_lookup. apply looks_bind; [apply populate_looks|]. intros _ w1 _ _ Hl.
  apply looks_bind; [reflexivity|]. intros _ w2 [-> _]%lift_Ok _ _.
  apply looks_bind; [apply access_looks|]. intros _ w3 ->%access_same _ _.
  assert (Hd1 : is_dev w1 (v_mount x)) by by eapply is_dev_lext. case_bool_decide; [reflexivity|]. case_bool_decide.
  - apply looks_bind; [apply eq_looks, dirent_parent_read|]. intros p w4 _ _ Hl4.
    apply looks_bind; [reflexivity|]. intros p' w5 [-> _]%lift_Ok _ _. by eapply dev_alloc_looks, is_dev_lext.
  - apply looks_bind; [apply eq_looks, find_read|]. intros p w4 _ _ Hl4.
    apply looks_bind; [reflexivity|]. intros p' w5 [-> _]%lift_Ok _ _. by eapply dev_alloc_looks, is_dev_lext.
Qed.
Lemma host_lookup_looks v x file td name : keeps looks (host_lookup H v x file td name).
Proof. unfold host_lookup, host_open, host_root_of. keep. Qed.
Lemma tmp_lookup_looks v x n td name : keeps looks (tmp_lookup (HS := HS) v x n td name).
Proof. unfold tmp_lookup, tmp_nodes_of. keep. Qed.
Lemma lookup_looks fuel td name v : keeps looks (lookup_ H fuel td name v).
Proof.
  revert v. induction fuel as [|fuel IH]; intros v w Hwf; revert Hwf; cbn [lookup_];
    (apply looks_bind; [reflexivity|]; intros x w1 [-> Hx]%deref_Ok Hwf _;
     destruct (v_backend x) as [file|n|e|lower] eqn:Hb;
       [apply host_lookup_looks|apply tmp_lookup_looks|by eapply dev_lookup_looks, dev_kind|]).
  - reflexivity.
  - apply looks_bind; [apply IH|]. intros l w2 _ _ Hl. case_bool_decide; [reflexivity|].
    apply null_nodeget_looks. by eapply is_null_lext, null_kind.
Qed.
Lemma mount_root_looks m : keeps looks (mount_root H m).
Proof.
  intros w. unfold mount_root. apply looks_bind; [reflexivity|]. intros x w1 [-> Hx]%deref_Ok Hwf _.
  destruct (m_fs x) as [| |i root g|l] eqn:Hfs; [apply get_vnode_looks|apply tmp_alloc_looks|..].
  - apply dev_alloc_looks. by exists x, i, root, g.
  - apply null_nodeget_looks. by exists x, l.
Qed.

(** *** Dropping vnodes *)

Lemma survivors_incl fuel w locals alive v : v ∈ survivors fuel w locals alive -> v ∈ alive.
Proof.
  revert alive. induction fuel as [|fuel IH]; intros alive; cbn; [done|]. intros Hv%IH. by apply list_elem_of_filter in Hv as [_ ?].
Qed.
Lemma survivors_keep fuel w locals alive v :
  (forall alive, v ∈ alive -> v ∈ references w locals alive) -> v ∈ alive -> v ∈ survivors fuel w locals alive.
Proof.
  intros Href. revert alive. induction fuel as [|fuel IH]; intros alive Hv; cbn; [done|]. apply IH, list_elem_of_filter.
  split; [|done]. by apply Href.
Qed.
(** References that keep a vnode. *)
Lemma references_held w locals alive v : v ∈ root_vnode w :: locals ++ held w -> v ∈ references w locals alive.
Proof. unfold references. rewrite elem_of_list_to_set. rewrite !elem_of_cons, !elem_of_app. naive_solver. Qed.
Lemma references_mount w locals alive v x mt :
  v ∈ alive -> vnodes w !! v = Some x -> mounts w !! v_mount x = Some mt -> v ∈ mount_refs mt -> v ∈ references w locals alive.
Proof.
  intros Hv Hx Hm Hr. unfold references. rewrite elem_of_list_to_set, elem_of_cons, !elem_of_app. do 4 right. left.
  apply list_elem_of_bind. exists mt. split; [done|]. apply list_elem_of_omap. exists (v_mount x). split; [|done].
  apply elem_of_app. right. apply list_elem_of_fmap. exists x. split; [done|]. apply list_elem_of_omap. by exists v.
Qed.
Lemma dead_release {E} w locals v :
  wf w -> (v < length (vnodes w))%nat -> v ∉ dead w -> (forall alive, v ∈ alive -> v ∈ references w locals alive) ->
  v ∉ dead (release (E := E) locals w).1.
Proof.
  intros Hwf Hv Hd Href. cbn. rewrite elem_of_list_to_set, list_elem_of_filter. intros [Hn _]. apply Hn.
  apply survivors_keep; [done|]. apply list_elem_of_filter. split; [done|]. apply elem_of_seq. lia.
Qed.
Lemma alive_release {E} w locals v :
  (v < length (vnodes w))%nat -> v ∉ dead (release (E := E) locals w).1 -> v ∉ dead w.
Proof.
  intros Hv. cbn. rewrite elem_of_list_to_set, list_elem_of_filter. intros Hn Hd. apply Hn. split; [|apply elem_of_seq; lia].
  intros Hs%survivors_incl. by apply list_elem_of_filter in Hs as [? _].
Qed.
Lemma release_wf {E} w locals : wf w -> wf (release (E := E) locals w).1.
Proof.
  intros Hwf. split; [split; try by apply (proj1 Hwf)|].
  - intros v. cbn. rewrite elem_of_list_to_set, list_elem_of_filter, elem_of_seq. lia.
  - intros m mt Hm. pose proof (wf_fs _ (proj1 Hwf) m mt Hm) as Hf. destruct (m_fs mt) as [|max nodes| |] eqn:Hfs; try done.
    intros n nd v Hnd Hv. destruct (Hf _ _ _ Hnd Hv) as [Hvn Ha]. split; [done|]. pose proof Hvn as (x & Hx & Hxm & _).
    apply dead_release; [done|by eapply is_vnode_lt|done|]. intros alive Hal.
    eapply (references_mount w locals alive v x mt); [done|done|by rewrite Hxm|]. unfold mount_refs. rewrite Hfs, elem_of_app. right.
    apply list_elem_of_omap. exists nd. split; [|done]. by eapply list_elem_of_lookup_2.
  - intros v x Hx Ha. apply (proj2 Hwf v x Hx). eapply (alive_release (E := E)); [by apply lookup_lt_Some in Hx|done].
Qed.
Lemma release_lext {E} w locals : lext w (release (E := E) locals w).1.
Proof. split; cbn; try done; intros ?? Hx; eexists; (split; [exact Hx|reflexivity]). Qed.

(** *** Other operations *)

Lemma host_getattr_looks x file : keeps looks (host_getattr H x file).
Proof. unfold host_getattr, host_root_of. keep. Qed.
Lemma dev_getattr_looks x e : keeps looks (dev_getattr (HS := HS) x e).
Proof. unfold dev_getattr, attr_dirent. keep. Qed.
#[local] Hint Resolve host_getattr_looks dev_getattr_looks : keep.
Lemma getattr_looks fuel v : keeps looks (getattr_ H fuel v).
Proof. revert v. induction fuel as [|fuel IH]; intros v; cbn [getattr_]; keep. Qed.

(** The world stays in order, and mounts stay. *)
Definition sound w w' : Prop := wf w -> wf w' /\ mount_list w ⊆ mount_list w'.
#[export] Instance sound_preorder : PreOrder sound.
Proof.
  split; [by intros w ?|]. intros w w1 w2 H1 H2 Hwf. destruct (H1 Hwf) as [Hwf1 ?]. destruct (H2 Hwf1) as [? ?]. split; [done|]. by etrans.
Qed.
Lemma looks_sound_at w w' : looks w w' -> sound w w'.
Proof. intros Hl Hwf. destruct (Hl Hwf) as (? & He & _). split; [done|]. by rewrite (le_list _ _ He). Qed.
Lemma looks_sound {E A} (m : io (World HS) E A) : keeps looks m -> keeps sound m.
Proof. intros Hm w. by apply looks_sound_at. Qed.
Lemma sound_same w w' :
  dirents w' = dirents w -> dead w' = dead w -> vnodes w' = vnodes w -> mounts w' = mounts w -> mount_list w' = mount_list w ->
  sound w w'.
Proof. intros ???? Hl Hwf. split; [by apply (wf_same w)|by rewrite Hl]. Qed.
#[local] Hint Resolve looks_sound : keep.

Lemma sound_alter_mount w m f :
  (forall mt, mounts w !! m = Some mt -> keep_fs (m_fs mt) (m_fs (f mt))) ->
  sound w (set_mounts (alter (M := list Mount) f m (mounts w)) w).
Proof. intros Hf Hwf. split; [by apply wf_alter_mount|done]. Qed.
Lemma nodes_alloc_sound m dir : keeps sound (nodes_alloc (HS := HS) m dir).
Proof.
  unfold nodes_alloc. apply keeps_bind; [apply _|by keep|]. intros w1 w x [-> Hx]%deref_Ok.
  destruct (m_fs x) as [|max nodes| |] eqn:Hfs; try reflexivity.
  unfold mbind, io_bind, lift, fail_if. destruct (max <=? Z.of_nat (length nodes)); cbn; [reflexivity|].
  apply sound_alter_mount. rewrite Hx. intros mt [= <-]. rewrite Hfs. cbn. split.
  - intros n nd Hn. exists nd. split; [by apply lookup_app_l_Some|done].
  - intros n nd' Hn Hnone%lookup_ge_None. rewrite lookup_app_r in Hn by done. apply list_lookup_singleton_Some in Hn as [_ <-]. done.
Qed.
Lemma tmp_entry_sound {E} m n f :
  (forall nd, t_vnode (f nd) = t_vnode nd) -> keeps sound (upd_mount (HS := HS) (E := E) m (node_upd n f)).
Proof.
  intros Hf w. apply sound_alter_mount. intros mt Hm. unfold node_upd. cbn. destruct (m_fs mt) as [|max nodes| |] eqn:Hfs;
    try apply keep_fs_refl. cbn. split.
  - intros k nd Hk. destruct (decide (k = n)) as [->|Hne].
    + exists (f nd). by rewrite list_lookup_alter_eq, Hk.
    + exists nd. by rewrite list_lookup_alter_ne.
  - intros k nd' Hk Hn. destruct (decide (k = n)) as [->|Hne].
    + by rewrite list_lookup_alter_eq, Hn in Hk.
    + rewrite list_lookup_alter_ne in Hk by done. congruence.
Qed.
Lemma host_mkdir_sound root file name : keeps sound (host_mkdir H root file name).
Proof.
  unfold host_mkdir, host_open. apply keeps_then; [apply _|by keep|]. intros _. apply keeps_then; [apply _| |intros _; by keep].
  intros w. destruct (h_mkdir H (hs w) root (file ++ [name])) as [s r]. by apply sound_same.
Qed.
#[local] Hint Resolve nodes_alloc_sound tmp_entry_sound host_mkdir_sound : keep.
Lemma vnode_mkdir_sound td name v : keeps sound (vnode_mkdir H td name v).
Proof. unfold vnode_mkdir, tmp_mkdir, tmp_nodes_of, host_root_of. keep. Qed.

(** *** One vnode for a file *)

(** The vnodes are of the same file: files of the host with the same
    identifier, whatever their names are, files of a tmpfs, or entries of a
    devfs, which belong to it alone.  A vnode of nullfs is not the file
    itself. *)
Definition same_file w (x y : Vnode) : Prop :=
  match v_backend x, v_backend y with
  | BHost f, BHost g => v_mount x = v_mount y /\ exists root, host_mount w (v_mount x) root /\ same_id root f g
  | BTmp n, BTmp k => v_mount x = v_mount y /\ n = k
  | BDev e, BDev k => e = k
  | _, _ => False
  end.
Lemma wf_unique w v u x y :
  ids_stable -> wf w -> vnodes w !! v = Some x -> vnodes w !! u = Some y -> v ∉ dead w -> u ∉ dead w -> same_file w x y -> v = u.
Proof.
  intros Hst Hwf Hv Hu Hdv Hdu Hs. pose proof (proj2 Hwf _ _ Hv Hdv) as Rv. pose proof (proj2 Hwf _ _ Hu Hdu) as Ru.
  unfold same_file in Hs. destruct (v_backend x) as [f|n|e|l], (v_backend y) as [g|k|e'|l']; try done.
  - destruct Hs as [Hm (root & (mt0 & act0 & Hmt0 & Hfs0) & t & t' & i & Hf & Hg)].
    destruct Rv as (mt & r & act & id & s & Hmt & Hfs & Hact & Hid).
    destruct Ru as (mt' & r' & act' & id' & s' & Hmt' & Hfs' & Hact' & Hid'). rewrite <-Hm in Hmt'. simplify_eq.
    rewrite Hfs in Hfs0, Hfs'. simplify_eq. rewrite (Hst _ _ _ _ _ _ Hid Hf) in Hact. rewrite (Hst _ _ _ _ _ _ Hid' Hg) in Hact'. congruence.
  - destruct Hs as [Hm <-]. destruct Rv as (mt & r & ns & nd & Hmt & Hfs & Hnd & Hid).
    destruct Ru as (mt' & r' & ns' & nd' & Hmt' & Hfs' & Hnd' & Hid'). rewrite Hm in Hmt. simplify_eq. rewrite Hfs in Hfs'. congruence.
  - subst. destruct Rv as (d & He & Hd), Ru as (d' & He' & Hd'). congruence.
Qed.
End wf.
End VnodeProps.
