(* ===== verification/Fs.v ===== *)
(** * The virtual file system of the previous kernel

    Models [legacy/src/fs/mod.rs] over the vnodes of [Vnode]: mounting, the
    lookup of paths, the start of the file system, and the system calls on
    files as far as they are written. *)
From S2P Require Import Prelude Env Cred VPath Sysctl FileDesc VmSpace Vnode.

Module Fs.
Import Env Vnode.
Local Open Scope list_scope.
Local Open Scope Z_scope.
Definition EBUSY : Z := 16.
Definition ENODEV : Z := 19.
Definition ESPIPE : Z := 29.
Definition ENAMETOOLONG : Z := 63.

(** ** Options of a mount *)

Inductive MountOpt :=
  | OBool (b : bool) | OI32 (v : Z) | OU64 (v : Z) | OUsize (v : Z) | OStr (s : str) | OVPath (p : str) | OPath (p : str)
  | OParam | OGid (v : Z) | OUid (v : Z) | OMode (v : Z).
Definition Opts := gmap string MountOpt.
Definition as_bool (o : MountOpt) : option bool := if o is OBool b then Some b else None.
Definition as_i32 (o : MountOpt) : option Z := if o is OI32 v then Some v else None.
Definition as_u64 (o : MountOpt) : option Z := if o is OU64 v then Some v else None.
Definition as_usize (o : MountOpt) : option Z := if o is OUsize v then Some v else None.
Definition as_str (o : MountOpt) : option str := if o is OStr s then Some s else None.
Definition as_vpath (o : MountOpt) : option str := if o is OVPath p then Some p else None.
Definition as_path (o : MountOpt) : option str := if o is OPath p then Some p else None.
Definition as_gid (o : MountOpt) : option Z := if o is OGid v then Some v else None.
Definition as_uid (o : MountOpt) : option Z := if o is OUid v then Some v else None.
Definition as_mode (o : MountOpt) : option Z := if o is OMode v then Some v else None.
(** [MountOpts::remove]: the caller does not use the option again. *)
Definition remove {E A} (ty : MountOpt -> option A) (name : string) (opts : Opts) : outcome E (option A) :=
  match opts !! name with
  | None => Ok None
  | Some o => v ← unwrap_or_panic PUnwrap (ty o); Ok (Some v)
  end.
Definition remove_or {E A} (ty : MountOpt -> option A) (name : string) (fallback : A) (opts : Opts) : outcome E A :=
  v ← remove ty name opts; Ok (default fallback v).

(** ** File systems by name *)

Inductive FsKind := KHost | KDev | KTmp | KNull | KTodo.
Record FsConfig := MkConf { conf_name : str; conf_ty : Z; conf_mount : FsKind }.
Definition configs : list FsConfig := [
  MkConf (bytes_of "exfatfs") 0x2C KHost;
  MkConf (bytes_of "mlfs") 0xF1 KTodo;
  MkConf (bytes_of "udf2") 0 KTodo;
  MkConf (bytes_of "devfs") 0x71 KDev;
  MkConf (bytes_of "tmpfs") 0x87 KTmp;
  MkConf (bytes_of "unionfs") 0x41 KTodo;
  MkConf (bytes_of "procfs") 0x2 KTodo;
  MkConf (bytes_of "cd9660") 0xBD KTodo;
  MkConf (bytes_of "ufs") 0x35 KTodo;
  MkConf (bytes_of "nullfs") 0x29 KNull;
  MkConf (bytes_of "pfs") 0xA4 KHost].
Definition find_config (name : str) : option FsConfig :=
  let name := if bool_decide (name = bytes_of "ffs") then bytes_of "ufs" else name in
  List.find (fun c => bool_decide (conf_name c = name)) configs.

(** Errors with their error numbers. *)
Inductive LookupError :=
  | LGetRootFailed (e : Z) | EscapeChroot | NotFound (e : Z) | LookupFailed (i : nat) (com : str) (e : Z).
Definition lookup_errno (e : LookupError) : Z :=
  match e with
  | LGetRootFailed e => e
  | EscapeChroot | NotFound _ => ENOENT
  | LookupFailed _ _ e => e
  end.
Inductive MkdirError := RootPath | LookupParentFailed (e : LookupError) | CreateFailed (e : Z).
Inductive MountError :=
  | FsTooLong | PathTooLong | InvalidFs | LookupPathFailed (e : LookupError) | MountFailed (e : Z) | PathAlreadyMounted
  | GetRootFailed (e : Z).
Definition mount_errno (e : MountError) : Z :=
  match e with
  | FsTooLong | PathTooLong => ENAMETOOLONG
  | InvalidFs => ENODEV
  | LookupPathFailed e => lookup_errno e
  | MountFailed e | GetRootFailed e => e
  | PathAlreadyMounted => EBUSY
  end.
Inductive FsInitError :=
  | MountDevFailed (e : Z) | GetDevRootFailed (e : Z) | IGetRootFailed (e : Z) | MountRootFailed (e : MountError)
  | LookupDevFailed (e : Z) | CreateDevFailed (e : Z) | DevNotDirectory.

Section fs.
Context {HS : Type} (H : Host HS).
Notation M := (io (World HS)).

(** The end of an operation: its local references go away, except its result. *)
Definition scoped {E} (locals : list nat) (m : M E nat) : M E nat := fun w =>
  let '(w, r) := m w in
  ((release (E := E) (match r with Ok v => v :: locals | _ => locals end) w).1, r).

(** ** Paths *)

(** [Fs::follow]. *)
Definition follow (v : nat) : M Z nat :=
  x ← the_vnode v;
  match v_ty x with
  | Directory _ =>
      match v_item x with
      | Some (IMount m) =>
          alive ← asks (fun w => mount_alive w m);
          if alive : bool then mount_root H m
          else upd_vnode v (item_is None);; mret v
      | Some (IDevice _) => lift (Panic PUnreachable)
      | None => mret v
      end
  | Link => lift (Panic PTodo)
  | _ => mret v
  end.

Definition lookup_failed (i : nat) (com : str) (e : Z) : LookupError :=
  if e =? ENOENT then NotFound e else LookupFailed i com e.
(** The loop of [lookup] over the components from number [i] on.  [locals]
    are the vnodes that the callers refer to; the vnodes that the loop leaves
    behind are let go. *)
Fixpoint lookup_loop (locals : list nat) (td : option Td) (root : nat) (i : nat) (coms : list str) (vn : nat)
    : M LookupError nat :=
  match coms with
  | [] => mret vn
  | com :: coms =>
      resolved ← map_io LGetRootFailed (follow vn);
      lift (fail_if (bool_decide (com = VPath.dotdot) && bool_decide (resolved = root)) EscapeChroot);;
      next ← map_io (lookup_failed i com) (vnode_lookup H td com resolved);
      release (root :: next :: locals);;
      lookup_loop locals td root (S i) coms next
  end.
Definition start_of (path : str) (td : option Td) (root : nat) : nat :=
  if VPath.is_absolute path then root
  else match td with Some td => td_cwd td | None => root end.
(** [Fs::lookup]. *)
Definition lookup (locals : list nat) (path : str) (follow_last : bool) (td : option Td) : M LookupError nat := scoped locals (
  top ← asks (fun w => match td with Some td => td_root td | None => root_vnode w end);
  let vn := start_of path td top in
  root ← map_io LGetRootFailed (follow top);
  vn ← lookup_loop (top :: locals) td root 0 (VPath.components path) vn;
  if follow_last then map_io LGetRootFailed (follow vn) else mret vn).

(** [Fs::mkdir]. *)
Definition path_part {A} (f : str -> outcome unit A) (p : str) : M MkdirError A :=
  lift (map_err (fun _ => RootPath) (f p)).
Definition mkdir (locals : list nat) (path : str) (td : option Td) : M MkdirError nat := scoped locals (
  parent ← path_part VPath.parent path;
  parent ← lift (ok_or RootPath parent);
  parent ← map_io LookupParentFailed (lookup locals parent true td);
  name ← path_part VPath.file_name path;
  name ← lift (unwrap_or_panic PUnwrap name);
  map_io CreateFailed (vnode_mkdir H td name parent)).

(** ** Mounting *)

(** [Mounts::set_id]: an identifier that no mount of the list has.  A round
    is needed only for a mount that has the identifier of the round before. *)
Definition fsid (base ty : Z) : Z :=
  Z.lor (Z.lor ((Z.shiftl base 8) mod 2 ^ 32) base) (Z.lor ((Z.shiftl ty 24) mod 2 ^ 32) 0xff00).
Fixpoint set_id (fuel : nat) (ids : list (Z * Z)) (ty base : Z) : option (Z * Z) :=
  let v1 := fsid base ty in
  let next := (base + 1) mod 2 ^ 16 in
  if bool_decide ((v1, ty) ∈ ids) then match fuel with O => None | S fuel => set_id fuel ids ty next end
  else Some (v1, next).
(** [Mounts::push]. *)
Definition push {E} (x : Mount) : M E nat :=
  ids ← asks (fun w => m_id <$> omap (fun m => mounts w !! m) (mount_list w));
  base ← asks mount_base;
  '(v1, base) ← lift (unwrap_or_panic PUnreachable (set_id (length ids) ids (m_ty x) base));
  modify (set_mount_base base);;
  m ← asks (fun w => length (mounts w));
  modify (fun w => set_mounts (mounts w ++ [MkMount (m_ty x) (m_fs x) (m_parent x) (m_flags x) (m_hashseed x) (v1, m_ty x) (m_owner x)]) w);;
  modify (fun w => set_mount_list (mount_list w ++ [m]) w);;
  mret m.
(** [Mounts::remove]. *)
Definition remove_mount {E} (m : nat) : M E unit :=
  modify (fun w => set_mount_list (filter (fun k => k <> m) (mount_list w)) w).
(** [Mount::new]. *)
Definition mount_new {E} (conf : FsConfig) (cred : Cred.Ucred) (parent : option nat) (flags : Z) (d : FsData) : M E Mount :=
  seed ← rand_u32;
  mret (MkMount (conf_ty conf) d parent flags seed (0, 0) (Cred.effective_uid cred)).

(** The [mount] functions of the file systems. *)
Definition mount_host (conf : FsConfig) (cred : Cred.Ucred) (parent : option nat) (opts : Opts) (flags : Z) : M Z Mount :=
  lift (panic_if (intersects flags MNT_UPDATE) PTodo);;
  from ← lift (unwrap_or_panic PUnwrap (opts !! "from"%string));
  lift (panic_if (match from with OStr _ | OVPath _ => false | _ => true end) PUnreachable);;
  root ← lift (remove as_path "ob:root" opts);
  root ← lift (unwrap_or_panic PUnwrap root);
  r ← host_call as_EIO (fun s => h_root H s root);
  mount_new conf cred parent (Z.lor flags MNT_LOCAL) (DHost r ∅).
Definition mount_dev (conf : FsConfig) (cred : Cred.Ucred) (parent : option nat) (flags : Z) : M Z Mount :=
  lift (fail_if (intersects flags MNT_ROOTFS) EOPNOTSUPP);;
  lift (fail_if (intersects flags MNT_UPDATE) EOPNOTSUPP);;
  index ← asks devfs_index;
  modify (set_devfs_index (S index));;
  root ← dev_mkdir [] DEVFS_ROOTINO None;
  mount_new conf cred parent (Z.lor flags MNT_LOCAL) (DDev index root 0).
(** The pages and the nodes that a tmpfs can have. *)
Definition tmp_pages (size : Z) : Z :=
  if (size - 0x4000) mod 2 ^ 64 <? 0xffffffffffff8000 then Z.shiftr ((size + 0x3fff) mod 2 ^ 64) 14 else 2 ^ 64 - 1.
Definition tmp_max_nodes (inodes pages : Z) : Z :=
  if inodes <? 4 then if pages <? 0xfffffffd then pages + 3 else 2 ^ 32 - 1 else inodes.
Definition mount_tmp (conf : FsConfig) (cred : Cred.Ucred) (parent : option nat) (opts : Opts) (flags : Z) : M Z Mount :=
  lift (fail_if (intersects flags MNT_UPDATE) EINVAL);;
  p ← lift (unwrap_or_panic PUnwrap parent);
  attrs ← getattr H p;
  let root := Cred.real_uid cred =? 0 in
  gid ← lift (if root then remove_or as_gid "gid" (a_gid attrs) opts else Ok (a_gid attrs));
  uid ← lift (if root then remove_or as_uid "uid" (a_uid attrs) opts else Ok (a_uid attrs));
  mode ← lift (if root then remove_or as_mode "mode" (a_mode attrs) opts else Ok (a_mode attrs));
  inodes ← lift (remove_or as_i32 "inodes" 0 opts);
  size ← lift (remove_or as_usize "size" 0 opts);
  file_size ← lift (remove_or as_u64 "maxfilesize" 0 opts);
  let max := tmp_max_nodes inodes (tmp_pages size) in
  lift (fail_if (max <=? 0) ENOSPC);;
  mount_new conf cred parent (Z.lor flags MNT_LOCAL) (DTmp max [MkTNode None (Some (true, []))]).
Definition mount_null (locals : list nat) (conf : FsConfig) (cred : Cred.Ucred) (opts : Opts) (flags : Z) : M Z Mount :=
  lift (fail_if (intersects flags MNT_ROOTFS) EOPNOTSUPP);;
  lift (if intersects flags MNT_UPDATE
        then ex ← remove as_bool "export" opts;
             panic_if (bool_decide (ex = Some true)) PTodo;; Err EOPNOTSUPP
        else Ok tt);;
  target ← lift (remove as_vpath "target" opts);
  target ← lift (unwrap_or_panic PTodo target);
  lower ← map_io lookup_errno (lookup locals target true None);
  mount_new conf cred (Some lower) flags (DNull lower).
Definition conf_mount_fn (locals : list nat) (conf : FsConfig) (cred : Cred.Ucred) (parent : option nat) (opts : Opts) (flags : Z)
    : M Z Mount :=
  match conf_mount conf with
  | KHost => mount_host conf cred parent opts flags
  | KDev => mount_dev conf cred parent flags
  | KTmp => mount_tmp conf cred parent opts flags
  | KNull => mount_null locals conf cred opts flags
  | KTodo => lift (Panic PTodo)
  end.

(** The options that [mount] does not handle yet, and [ro]. *)
Definition todo_options : list string :=
  ["async"; "atime"; "clusterr"; "clusterw"; "exec"; "force"; "multilabel"; "noasync"; "noatime"; "noclusterr"; "noclusterw";
   "noexec"; "noro"; "nosuid"; "nosymfollow"; "rdonly"; "reload"; "rw"; "suid"; "suiddir"; "symfollow"; "sync"; "union";
   "update"]%string.
Definition retain_flags {E} (opts : Opts) (flags : Z) : outcome E Z :=
  panic_if (existsb (fun k => bool_decide (is_Some (opts !! k))) todo_options) PTodo;;
  match opts !! "ro"%string with
  | None => Ok flags
  | Some o =>
      b ← unwrap_or_panic PUnwrap (as_bool o);
      Ok (if b : bool then Z.lor flags MNT_RDONLY else Z.ldiff flags MNT_RDONLY)
  end.
(** [Fs::mount]; [kern] is the credential of the kernel. *)
Definition mount (kern : Cred.Ucred) (locals : list nat) (opts : Opts) (flags : Z) (td : option Td) : M MountError nat := scoped locals (
  fs ← lift (remove as_str "fstype" opts);
  fs ← lift (unwrap_or_panic PUnwrap fs);
  path ← lift (remove as_vpath "fspath" opts);
  path ← lift (unwrap_or_panic PUnwrap path);
  flags ← lift (retain_flags opts flags);
  lift (fail_if (15 <=? length fs)%nat FsTooLong);;
  lift (fail_if (87 <=? length path)%nat PathTooLong);;
  lift (panic_if (intersects flags MNT_UPDATE) PTodo);;
  conf ← lift (ok_or InvalidFs (find_config fs));
  vn ← map_io LookupPathFailed (lookup locals path false td);
  let flags := Z.ldiff flags 0xFFFFFFFF272F3F80 in
  let cred := match td with Some td => td_cred td | None => kern end in
  x ← map_io MountFailed (conf_mount_fn (vn :: locals) conf cred (Some vn) opts flags);
  m ← push x;
  y ← the_vnode vn;
  match v_item y with
  | Some _ => remove_mount m;; lift (Err PathAlreadyMounted)
  | None =>
      upd_vnode vn (item_is (Some (IMount m)));;
      map_io GetRootFailed (mount_root H m)
  end).

(** ** The start of the file system *)

Definition swap_first (l : list nat) : list nat := match l with a :: b :: l => b :: a :: l | _ => l end.
Definition first_mount {E} : M E nat := deref (fun w => head (mount_list w)).
(** [Fs::new], where the system is the directory [system] of the host. *)
Definition fs_new (kern : Cred.Ucred) (system : str) : M FsInitError unit :=
  conf ← lift (unwrap_or_panic PUnwrap (find_config (bytes_of "devfs")));
  init ← map_io MountDevFailed (mount_dev conf kern None 0);
  init ← push init;
  root ← map_io GetDevRootFailed (mount_root H init);
  modify (set_root_vnode root);;
  let opts : Opts := list_to_map
    [("fstype", OStr (bytes_of "exfatfs")); ("fspath", OVPath VPath.buf_new); ("from", OStr (bytes_of "md0")); ("ro", OBool true);
     ("ob:root", OPath system)]%string in
  root ← map_io MountRootFailed (mount kern [] opts MNT_ROOTFS None);
  old ← first_mount;
  modify (fun w => set_mount_list (swap_first (mount_list w)) w);;
  modify (set_root_vnode root);;
  old_root ← map_io IGetRootFailed (mount_root H old);
  upd_vnode old_root (item_is None);;
  new ← first_mount;
  upd_mount new (parent_is None);;
  dev ← (fun w =>
    match vnode_mkdir H None (bytes_of "dev") root w with
    | (w, Ok v) => (w, Ok v)
    | (w, Err e) =>
        if e =? EEXIST then
          (vn ← map_io LookupDevFailed (vnode_lookup H None (bytes_of "dev") root);
           x ← the_vnode vn;
           lift (fail_if (negb (is_directory x)) DevNotDirectory);;
           mret vn) w
        else (w, Err (CreateDevFailed e))
    | (w, Panic p) => (w, Panic p)
    end);
  o ← the_mount old;
  lift (assert_that (bool_decide (m_parent o = None)));;
  upd_mount old (parent_is (Some dev));;
  x ← the_vnode dev;
  lift (assert_that (bool_decide (v_item x = None)));;
  upd_vnode dev (item_is (Some (IMount old)));;
  release [].

(** ** Files *)

(** [VFile]: the flags, the vnode, and the device when it is one. *)
Record VFile := MkVFile { f_flags : Z; f_vnode : nat; f_dev : option nat }.
(** [Vnode::to_file_backend]. *)
Definition to_file_backend {E} (flags : Z) (v : nat) : M E VFile :=
  x ← the_vnode v;
  mret (MkVFile flags v (match v_backend x, v_item x with BDev _, Some (IDevice d) => Some d | _, _ => None end)).
(** [Fs::open]; the error has the number of its source. *)
Definition open (locals : list nat) (path : str) (flags : Z) (td : option Td) : M Z VFile :=
  v ← map_io lookup_errno (lookup locals path true td);
  to_file_backend flags v.

Definition O_ACCMODE : Z := 0x3.
Definition O_SHLOCK : Z := 0x10.
Definition O_EXLOCK : Z := 0x20.
Definition O_TRUNC : Z := 0x400.
Definition O_EXEC : Z := 0x40000.
Definition UNK1 : Z := 0x400000.
(** [OpenFlags::into_fflags]. *)
Definition into_fflags (flags : Z) : Z := Z.land (flags + 1) 3.

(** [SysArg::to_path] and [unwrap]: the string at the address, [None] for a
    null pointer. *)
Definition to_path (s : option str) : outcome Z str :=
  s ← unwrap_or_panic PUnwrap s;
  fail_if (negb (valid_utf8 s)) ENOENT;;
  unwrap_or_panic PTodo (VPath.vpath_new s).

(** What the thread of a process with the files [t] sees. *)
Definition td_of {K} (t : FileDesc.FileDesc VFile nat K) (c : Cred.Ucred) : Td :=
  MkTd (FileDesc.root t) (FileDesc.cwd t) c.
(** [sys_open] up to the call of [open]: the path and the flags. *)
Definition open_args (a0 : option str) (a1 a2 : Z) : outcome Z (str * Z) :=
  path ← to_path a0;
  flags ← VmSpace.arg_u32 a1;
  fail_if (if intersects flags O_EXEC then intersects flags O_ACCMODE else contains flags O_ACCMODE) EINVAL;;
  panic_if (intersects flags (Z.lor UNK1 (Z.lor O_SHLOCK (Z.lor O_EXLOCK O_TRUNC)))) PTodo;;
  mode ← VmSpace.arg_u32 a2;
  panic_if (negb (mode =? 0)) PTodo;;
  Ok (path, flags).
Definition sys_open {K} (c : Cred.Ucred) (a0 : option str) (a1 a2 : Z) (t : FileDesc.FileDesc VFile nat K)
    : M Z (FileDesc.FileDesc VFile nat K * Z) :=
  '(path, flags) ← lift (open_args a0 a1 a2);
  file ← open [] path (into_fflags flags) (Some (td_of t c));
  modify (fun w => set_held (f_vnode file :: held w) w);;
  lift (FileDesc.alloc file t).

(** [sys_revoke]: no vnode can be revoked yet. *)
Definition revoke (v : nat) (td : Td) : M Z unit :=
  a ← getattr H v;
  lift (if Cred.effective_uid (td_cred td) =? a_uid a then Ok tt
        else map_err (fun _ => EPERM) (Cred.priv_check (td_cred td) Cred.VFS_ADMIN));;
  x ← the_vnode v;
  lift (Panic (if v_backend x is BDev _ then PTodo else PExplicit "vop_revoke called")).
Definition sys_revoke {K} (c : Cred.Ucred) (a0 : option str) (t : FileDesc.FileDesc VFile nat K) : M Z Z :=
  path ← lift (to_path a0);
  lift (map_err (fun _ => EPERM) (Cred.priv_check c Cred.SCE683));;
  v ← map_io lookup_errno (lookup [] path true (Some (td_of t c)));
  x ← the_vnode v;
  lift (fail_if (negb (is_character x)) EINVAL);;
  revoke v (td_of t c);;
  mret 0.
End fs.
End Fs.
