(* ===== verification/FsProps.v ===== *)
(** * Properties of the virtual file system

    What paths, mounts and the start of the file system keep: the states that
    a system reaches are well formed, and a lookup is a walk along the entries
    of directories and the mounts on them. *)
From S2P Require Import Prelude Env Cred VPath Sysctl FileDesc Vnode VnodeProps Fs.

Module FsProps.
Import Env Vnode VnodeProps Fs.
Local Open Scope list_scope.
Local Open Scope Z_scope.

Section fs.
Context {HS : Type} (H : Host HS).
Implicit Types (w : World HS).
Notation wf := (wf H).
Notation looks := (looks H).
Notation sound := (sound H).

(** ** Lookups *)

(** A lookup only adds, and lets vnodes go. *)
Definition walks w w' : Prop := wf w -> wf w' /\ lext w w'.
#[export] Instance walks_preorder : PreOrder walks.
Proof.
  split; [by intros w ?|]. intros w w1 w2 H1 H2 Hwf. destruct (H1 Hwf) as [Hwf1 ?]. destruct (H2 Hwf1). split; [done|]. by etrans.
Qed.
Lemma looks_walks_at w w' : looks w w' -> walks w w'.
Proof. intros Hl Hwf. by destruct (Hl Hwf) as (? & ? & _). Qed.
Lemma looks_walks {E A} (m : io (World HS) E A) : keeps looks m -> keeps walks m.
Proof. intros Hm w. by apply looks_walks_at. Qed.
Lemma walks_sound_at w w' : walks w w' -> sound w w'.
Proof. intros Hl Hwf. destruct (Hl Hwf) as [? He]. split; [done|]. by rewrite (le_list _ _ He). Qed.
Lemma release_walks {E} locals : keeps walks (release (HS := HS) (E := E) locals).
Proof. intros w Hwf. split; [by apply release_wf|apply release_lext]. Qed.

Lemma item_alive w v x m : wf w -> vnodes w !! v = Some x -> v_item x = Some (IMount m) -> mount_alive w m = true.
Proof.
  intros Hwf Hv Hi. apply bool_decide_eq_true, elem_of_app. left. by eapply (wf_item _ _ (proj1 Hwf)).
Qed.
Lemma follow_looks v : keeps looks (follow H v).
Proof.
  intros w Hwf. revert Hwf. unfold follow. apply looks_bind; [reflexivity|]. intros x w1 [-> Hx]%deref_Ok Hwf _.
  destruct (v_ty x); try reflexivity. destruct (v_item x) as [[m|d]|] eqn:Hi; try reflexivity.
  apply looks_bind; [reflexivity|]. intros a w2 [-> ->]%asks_Ok _ _. erewrite item_alive by done. by apply mount_root_looks.
Qed.
#[local] Hint Resolve looks_walks follow_looks lookup_looks release_walks : keep.
Lemma lookup_loop_walks locals td root i coms vn : keeps walks (lookup_loop H locals td root i coms vn).
Proof.
  revert i vn. induction coms as [|com coms IH]; intros i vn; cbn [lookup_loop]; unfold vnode_lookup; keep.
Qed.
Lemma scoped_keeps {E} R `{!PreOrder R} locals (m : io (World HS) E nat) :
  (forall l, keeps R (release (HS := HS) (E := E) l)) -> keeps R m -> keeps R (scoped locals m).
Proof.
  intros Hr Hm w. specialize (Hm w). unfold scoped. destruct (m w) as [w1 r]. cbn in *. etrans; [exact Hm|]. apply Hr.
Qed.
#[local] Hint Resolve lookup_loop_walks : keep.
Lemma lookup_walks locals path fl td : keeps walks (lookup H locals path fl td).
Proof. apply scoped_keeps; [apply _|apply release_walks|]. keep. Qed.

(** ** Soundness *)

Lemma walks_sound {E A} (m : io (World HS) E A) : keeps walks m -> keeps sound m.
Proof. intros Hm w. by apply walks_sound_at. Qed.
#[local] Hint Resolve walks_sound lookup_walks vnode_mkdir_sound : keep.
Lemma mkdir_sound locals path td : keeps sound (mkdir H locals path td).
Proof. apply scoped_keeps; [apply _|intros l; by keep|]. unfold path_part. keep. Qed.

(** A mount that is not in the list yet. *)
Definition new_mount w (x : Mount) : Prop := forall m, fs_ok H w m (m_fs x).
Lemma rand_looks {E} : keeps looks (rand_u32 (HS := HS) (E := E)).
Proof.
  intros w Hwf. destruct (rand_u32_eq (E := E) w) as (s & h & ->). split; [by apply (set_rng_wf H)|]. split; [|done].
  split; cbn; try done; intros ?? Hx; eexists; (split; [exact Hx|reflexivity]).
Qed.
Lemma mount_new_sound {E} conf cred parent flags d : keeps sound (mount_new (HS := HS) (E := E) conf cred parent flags d).
Proof. unfold mount_new. apply keeps_then; [apply _|apply looks_sound, rand_looks|]. intros s. keep. Qed.
Lemma mount_new_Ok {E} conf cred parent flags d w w' x :
  mount_new (E := E) conf cred parent flags d w = (w', Ok x) -> exists s, w' = set_rng s w /\ m_fs x = d.
Proof.
  unfold mount_new. intros Hr. destruct (rand_u32_eq (E := E) w) as (s & h & Hs). rewrite (io_bind_eq _ _ _ _ _ Hs) in Hr.
  apply ret_Ok in Hr as [-> ->]. by exists s.
Qed.
Lemma dev_mkdir_looks {E} name inode parent : keeps looks (dev_mkdir (HS := HS) (E := E) name inode parent).
Proof. intros w. apply dev_step_looks, dev_mkdir_step. Qed.
Lemma devfs_index_sound {E} i : keeps sound (modify (HS := HS) (E := E) (set_devfs_index i)).
Proof. intros w. by apply sound_same. Qed.
#[local] Hint Resolve mount_new_sound looks_sound dev_mkdir_looks devfs_index_sound getattr_looks : keep.
Lemma conf_mount_sound locals conf cred parent opts flags : keeps sound (conf_mount_fn H locals conf cred parent opts flags).
Proof.
  unfold conf_mount_fn. destruct (conf_mount conf);
    [unfold mount_host|unfold mount_dev|unfold mount_tmp, getattr|unfold mount_null|]; keep.
Qed.
Lemma mount_dev_new conf cred parent flags w w' x : mount_dev conf cred parent flags w = (w', Ok x) -> new_mount w' x.
Proof.
  unfold mount_dev. intros Hr. io_inv. 
  match goal with Hm : mount_new _ _ _ _ _ _ = _ |- _ => apply mount_new_Ok in Hm as (s & -> & Hx) end.
  match goal with Hd : dev_mkdir _ _ _ _ = _ |- _ => apply dev_mkdir_eq in Hd as (i & Hi & Hroot & Hw) end.
  intros m. rewrite Hx. rewrite Hw. eexists. split; [cbn; rewrite Hroot; by apply list_lookup_middle|by rewrite Hi].
Qed.
Lemma conf_mount_new locals conf cred parent opts flags w w' x :
  conf_mount_fn H locals conf cred parent opts flags w = (w', Ok x) -> new_mount w' x.
Proof.
  unfold conf_mount_fn. destruct (conf_mount conf).
  - unfold mount_host. intros Hr. io_inv. match goal with Hm : mount_new _ _ _ _ _ _ = _ |- _ => apply mount_new_Ok in Hm as (s & -> & Hx) end.
    intros m. rewrite Hx. intros id v Hv. by rewrite lookup_empty in Hv.
  - apply mount_dev_new.
  - unfold mount_tmp. intros Hr. io_inv. match goal with Hm : mount_new _ _ _ _ _ _ = _ |- _ => apply mount_new_Ok in Hm as (s & -> & Hx) end.
    intros m. rewrite Hx. intros [|n] nd v Hn Hv; by simplify_eq/=.
  - unfold mount_null. intros Hr. io_inv. match goal with Hm : mount_new _ _ _ _ _ _ = _ |- _ => apply mount_new_Ok in Hm as (s & -> & Hx) end.
    intros m. by rewrite Hx.
  - by intros [_ [=]]%lift_Ok.
Qed.

Lemma wf_mount_list w l :
  wf w -> (forall v x, vnodes w !! v = Some x -> forall m, v_item x = Some (IMount m) -> m ∈ l) ->
  (forall m, m ∈ l -> (m < length (mounts w))%nat) -> wf (set_mount_list l w).
Proof.
  intros Hwf Hi Hl. split; [|apply Hwf]. split; try by apply (proj1 Hwf).
  - intros v x Hx m Hm. by eapply Hi.
  - done.
Qed.
Lemma lookup_item (l : list Vnode) i v k y :
  alter (M := list Vnode) (item_is i) v l !! k = Some y ->
  exists x, l !! k = Some x /\ y = (if decide (k = v) then item_is i x else x).
Proof.
  case_decide as Hk; [subst; rewrite list_lookup_alter_eq|rewrite list_lookup_alter_ne by done]; destruct (l !! _); naive_solver.
Qed.
Lemma is_vnode_item w v i k m b :
  is_vnode w k m b -> is_vnode (set_vnodes (alter (M := list Vnode) (item_is i) v (vnodes w)) w) k m b.
Proof.
  intros (x & Hx & Hm & Hb). exists (if decide (k = v) then item_is i x else x). cbn. case_decide as Hk.
  - subst. by rewrite list_lookup_alter_eq, Hx.
  - by rewrite list_lookup_alter_ne.
Qed.
Lemma wf_upd_item w v i :
  wf w -> (forall m, i = Some (IMount m) -> m ∈ mount_list w) ->
  wf (set_vnodes (alter (M := list Vnode) (item_is i) v (vnodes w)) w).
Proof.
  intros Hwf Hi. pose proof (proj1 Hwf) as Hwf0. split; [split; cbn|].
  - apply Hwf0.
  - rewrite length_alter. apply Hwf0.
  - intros k y (x & Hx & ->)%lookup_item. pose proof (wf_kind _ _ Hwf0 _ _ Hx). by case_decide.
  - intros m mt Hm. pose proof (wf_fs _ _ Hwf0 m mt Hm) as Hf. destruct (m_fs mt) as [root act|max nodes| |]; try done; cbn in *.
    + intros id u Hu. destruct (Hf _ _ Hu) as (f & s & Hvn & Hid). exists f, s. split; [by apply is_vnode_item|done].
    + intros n nd u Hn Hu. destruct (Hf _ _ _ Hn Hu). split; [by apply is_vnode_item|done].
  - intros e d u He Hd. destruct (wf_dev _ _ Hwf0 _ _ _ He Hd) as (m & Hvn). exists m. by apply is_vnode_item.
  - intros k y (x & Hx & ->)%lookup_item. pose proof (wf_type _ _ Hwf0 _ _ Hx). by case_decide.
  - intros k y (x & Hx & ->)%lookup_item. pose proof (wf_item _ _ Hwf0 _ _ Hx). case_decide; [|done]. intros m Hm. by apply Hi.
  - apply Hwf0.
  - intros k y (x & Hx & ->)%lookup_item Ha. pose proof (proj2 Hwf _ _ Hx Ha). by case_decide.
Qed.
Lemma sound_upd_item {E} v i w :
  (forall m, i = Some (IMount m) -> m ∈ mount_list w) -> sound w (upd_vnode (E := E) v (item_is i) w).1.
Proof. intros Hi Hwf. split; [by apply wf_upd_item|done]. Qed.

Definition with_id (id : Z * Z) (x : Mount) : Mount :=
  MkMount (m_ty x) (m_fs x) (m_parent x) (m_flags x) (m_hashseed x) id (m_owner x).
Definition ids_of w : list (Z * Z) := m_id <$> omap (fun m => mounts w !! m) (mount_list w).
Lemma push_eq {E} x w :
  match set_id (length (ids_of w)) (ids_of w) (m_ty x) (mount_base w) with
  | Some (v1, base) =>
      push (E := E) x w = (set_mount_list (mount_list w ++ [length (mounts w)])
        (set_mounts (mounts w ++ [with_id (v1, m_ty x) x]) (set_mount_base base w)), Ok (length (mounts w)))
  | None => push (E := E) x w = (w, Panic PUnreachable)
  end.
Proof.
  unfold push, mbind, io_bind, asks. cbn. fold (ids_of w). unfold lift, unwrap_or_panic.
  by destruct (set_id _ _ _ _) as [[v1 base]|].
Qed.
Lemma push_result {E} x w w' m :
  push (E := E) x w = (w', Ok m) -> wf w -> new_mount w x ->
  wf w' /\ m = length (mounts w) /\ mount_list w' = mount_list w ++ [m] /\ vnodes w' = vnodes w.
Proof.
  intros Hp Hwf Hx. pose proof (push_eq (E := E) x w) as Heq. destruct (set_id _ _ _ _) as [[v1 base]|]; [|by rewrite Hp in Heq].
  rewrite Heq in Hp. simplify_eq. split; [|done].
  assert (Hwf1 : wf (set_mounts (mounts w ++ [with_id (v1, m_ty x) x]) (set_mount_base base w))).
  { apply wf_set_mounts; [by apply (wf_same _ w)|..]; cbn.
    - intros k mt Hk. exists mt. split; [by apply lookup_app_l_Some|apply keep_fs_refl].
    - intros k mt' Hk Hn%lookup_ge_None. rewrite lookup_app_r in Hk by done. apply list_lookup_singleton_Some in Hk as [_ <-]. apply Hx. }
  apply (wf_mount_list _ _ Hwf1); cbn.
  - intros v y Hy k Hk. apply elem_of_app. left. by eapply (wf_item _ _ (proj1 Hwf)).
  - intros k. rewrite elem_of_app, list_elem_of_singleton, length_app. cbn. intros [Hk%(wf_list _ _ (proj1 Hwf))| ->]; lia.
Qed.
Lemma push_fails {E} x w w' r : push (E := E) x w = (w', r) -> (forall m, r <> Ok m) -> w' = w.
Proof.
  intros Hp Hr. pose proof (push_eq (E := E) x w) as Heq. rewrite Hp in Heq.
  destruct (set_id _ _ _ _) as [[v1 base]|]; simplify_eq; [|done]. by edestruct Hr.
Qed.
(** What [mount] does with the new mount. *)
Lemma sound_bind {E A B} (m : io (World HS) E A) (f : A -> io (World HS) E B) w :
  sound w (m w).1 -> (forall a w1, m w = (w1, Ok a) -> wf w1 -> mount_list w ⊆ mount_list w1 -> sound w1 (f a w1).1) ->
  sound w ((m ≫= f) w).1.
Proof.
  intros Hm Hf Hwf. destruct (Hm Hwf) as [Hwf1 Hl]. unfold mbind, io_bind. destruct (m w) as [w1 [a|e|p]]; cbn in *; [|done..].
  destruct (Hf a w1 eq_refl Hwf1 Hl Hwf1). split; [done|]. by etrans.
Qed.
Lemma attach_sound vn x w : wf w -> new_mount w x ->
  sound w ((m ← push x;
    y ← the_vnode vn;
    match v_item y with
    | Some _ => remove_mount m;; (lift (Err PathAlreadyMounted) : io (World HS) MountError nat)
    | None => upd_vnode vn (item_is (Some (IMount m)));; map_io GetRootFailed (mount_root H m)
    end) w).1.
Proof.
  intros Hwf Hx. unfold mbind at 1, io_bind at 1. destruct (push x w) as [w1 [m|e|p]] eqn:Hp;
    [|apply push_fails in Hp as ->; [reflexivity|done]..].
  destruct (push_result _ _ _ _ Hp Hwf Hx) as (Hwf1 & Hm & Hl & Hv).
  assert (Hincl : mount_list w ⊆ mount_list w1) by (rewrite Hl; set_solver).
  unfold mbind at 1, io_bind at 1, the_vnode, deref. destruct (vnodes w1 !! vn) as [y|]; [|by split]. cbn.
  destruct (v_item y) as [i|] eqn:Hy.
  - intros _. unfold mbind, io_bind, remove_mount, modify, lift. cbn.
    assert (Hin : forall k, k ∈ mount_list w -> k ∈ filter (fun k => k <> m) (mount_list w1)).
    { intros k Hk. apply list_elem_of_filter. split; [|by apply Hincl]. apply (wf_list _ _ (proj1 Hwf)) in Hk. lia. }
    split; [|exact Hin]. apply wf_mount_list; [done|..].
    + intros v z Hz k Hk. apply Hin. rewrite Hv in Hz. by eapply (wf_item _ _ (proj1 Hwf)).
    + intros k [_ Hk]%list_elem_of_filter. by apply (wf_list _ _ (proj1 Hwf1)).
  - assert (Hs : sound w1 ((upd_vnode vn (item_is (Some (IMount m)));; map_io GetRootFailed (mount_root H m)) w1).1).
    { apply sound_bind.
      - apply sound_upd_item. intros k [= <-]. rewrite Hl. set_solver.
      - intros _ w2 _ _ _. apply keeps_map_io; [apply _|]. by apply looks_sound, mount_root_looks. }
    intros _. destruct (Hs Hwf1). split; [done|]. by etrans.
Qed.
Lemma mount_sound kern locals opts flags td : keeps sound (mount H kern locals opts flags td).
Proof.
  apply scoped_keeps; [apply _|intros l; by keep|]. intros w. do 9 (apply sound_bind; [reflexivity|]; intros ? ? _ _ _).
  apply sound_bind; [apply keeps_map_io; [apply _|]; apply walks_sound, lookup_walks|]. intros vn ? _ _ _.
  apply sound_bind; [apply keeps_map_io; [apply _|]; apply conf_mount_sound|]. intros x wx Hx Hwfx _.
  apply attach_sound; [done|]. apply map_io_Ok in Hx. by eapply conf_mount_new.
Qed.

Lemma push_sound {E} x w : wf w -> new_mount w x -> sound w (push (E := E) x w).1.
Proof.
  intros Hwf Hx _. destruct (push x w) as [w1 [m|e|p]] eqn:Hp.
  - destruct (push_result _ _ _ _ Hp Hwf Hx) as (Hwf1 & Hm & Hl & Hv). split; [done|]. cbn. rewrite Hl. set_solver.
  - apply push_fails in Hp as ->; [by split|done].
  - apply push_fails in Hp as ->; [by split|done].
Qed.
Lemma set_root_sound {E} v : keeps sound (modify (HS := HS) (E := E) (set_root_vnode v)).
Proof. intros w. by apply sound_same. Qed.
Lemma elem_of_swap_first l m : m ∈ swap_first l <-> m ∈ l.
Proof. destruct l as [|a [|b l]]; cbn; [done..|]. set_solver. Qed.
Lemma swap_sound {E} : keeps sound (modify (HS := HS) (E := E) (fun w => set_mount_list (swap_first (mount_list w)) w)).
Proof.
  intros w Hwf. split; [|intros m Hm; by apply elem_of_swap_first]. apply wf_mount_list; [done|..].
  - intros v x Hx m Hm. rewrite elem_of_swap_first. by eapply (wf_item _ _ (proj1 Hwf)).
  - intros m Hm. rewrite elem_of_swap_first in Hm. by apply (wf_list _ _ (proj1 Hwf)).
Qed.
Lemma parent_sound {E} m p : keeps sound (upd_mount (HS := HS) (E := E) m (parent_is p)).
Proof. intros w. apply sound_alter_mount. intros mt _. apply keep_fs_refl. Qed.
Lemma dev_dir_sound root : keeps sound (fun w =>
    match vnode_mkdir H None (bytes_of "dev") root w with
    | (w, Ok v) => (w, Ok v)
    | (w, Err e) =>
        if e =? EEXIST then
          (vn ← map_io LookupDevFailed (vnode_lookup H None (bytes_of "dev") root);
           x ← the_vnode vn;
           lift (fail_if (negb (is_directory x)) DevNotDirectory);;
           mret vn) w
        else (w, Err (CreateDevFailed e))
    | (w, Panic p) => (w, Panic p)
    end).
Proof.
  intros w. pose proof (vnode_mkdir_sound H None (bytes_of "dev") root w) as Hm.
  destruct (vnode_mkdir H None (bytes_of "dev") root w) as [w1 [v|e|p]]; try done. case_if; [|done].
  etrans; [exact Hm|]. revert w1 Hm. unfold vnode_lookup. intros w1 _. revert w1. apply keeps_then; [apply _|by keep|]. intros vn. keep.
Qed.
#[local] Hint Resolve set_root_sound swap_sound parent_sound mount_sound mount_root_looks : keep.
Lemma keeps_at {E A} R (m : io (World HS) E A) w : keeps R m -> R w (m w).1.
Proof. intros Hm. apply Hm. Qed.
Lemma fs_new_sound kern system : keeps sound (fs_new H kern system).
Proof.
  intros w. apply sound_bind; [reflexivity|]. intros conf w1 _ _ _.
  apply sound_bind; [apply keeps_at; unfold mount_dev; by keep|]. intros init w2 Hi Hwf2 _. apply map_io_Ok, mount_dev_new in Hi.
  apply sound_bind; [by apply push_sound|]. intros m w3 _ _ _. clear w w1 w2 Hi Hwf2. revert w3.
  apply keeps_then; [apply _|by keep|]. intros root. apply keeps_then; [apply _|by keep|]. intros _.
  apply keeps_then; [apply _|by keep|]. intros root'. intros w.
  apply sound_bind; [reflexivity|]. intros old w1 [-> Hold]%deref_Ok _ _.
  apply sound_bind; [by apply swap_sound|]. intros _ w2 _ _ Hl2.
  apply sound_bind; [by apply set_root_sound|]. intros _ w3 _ _ Hl3.
  apply sound_bind; [apply keeps_at; by keep|]. intros old_root w4 _ _ Hl4.
  apply sound_bind; [by apply sound_upd_item|]. intros _ w5 _ _ Hl5.
  apply sound_bind; [reflexivity|]. intros new w6 [-> _]%deref_Ok _ _.
  apply sound_bind; [by apply parent_sound|]. intros _ w7 _ _ Hl7.
  apply sound_bind; [by apply dev_dir_sound|]. intros dev w8 _ _ Hl8.
  do 2 (apply sound_bind; [reflexivity|]; intros ? ? [-> _]%deref_Ok _ _ || intros ? ? [-> _]%lift_Ok _ _).
  apply sound_bind; [by apply parent_sound|]. intros _ w9 _ _ Hl9.
  do 2 (apply sound_bind; [reflexivity|]; intros ? ? [-> _]%deref_Ok _ _ || intros ? ? [-> _]%lift_Ok _ _).
  apply sound_bind; [apply sound_upd_item|]. 
  - intros k [= <-]. apply Hl9, Hl8, Hl7, Hl5, Hl4, Hl3, Hl2. destruct (mount_list w); [done|]. simplify_eq/=. set_solver.
  - intros _ w10 _ _ _. by apply keeps_at, walks_sound, release_walks.
Qed.

Lemma fetch_inode_sound {E} : keeps sound (fetch_inode (HS := HS) (E := E)).
Proof. intros w. destruct (fetch_inode_eq (E := E) w) as (x & [[i ->]| ->]); by apply sound_same. Qed.
Lemma make_dev_sound df name uid gid mode flags : keeps sound (make_dev (HS := HS) df name uid gid mode flags).
Proof.
  unfold make_dev. do 3 (apply keeps_then; [apply _|by keep|intros ?]). cbv zeta.
  apply keeps_then; [apply _|apply fetch_inode_sound|intros i]. apply keeps_then; [apply _|by keep|intros k].
  apply keeps_then; [apply _|intros w; by apply sound_same|intros _]. do 2 (apply keeps_then; [apply _|by keep|intros ?]).
  apply keeps_then; [apply _|intros w; by apply sound_same|intros _]. keep.
Qed.

(** ** The steps of the system *)

(** Operations of the file system in any order, with whatever vnodes the
    processes refer to between them. *)
Inductive fs_step : World HS -> World HS -> Prop :=
  | step_lookup locals path fl td w : fs_step w (lookup H locals path fl td w).1
  | step_mkdir locals path td w : fs_step w (mkdir H locals path td w).1
  | step_mount kern locals opts flags td w : fs_step w (mount H kern locals opts flags td w).1
  | step_make_dev df name uid gid mode flags w : fs_step w (make_dev df name uid gid mode flags w).1
  | step_held l w : fs_step w (set_held l w)
  | step_release locals w : fs_step w (release (E := Z) locals w).1.
(** Before [Fs::new]: there may be devices. *)
Definition initial w : Prop := vnodes w = [] /\ mounts w = [] /\ mount_list w = [] /\ dirents w = [] /\ dead w = ∅.
(** The states of a system that has started. *)
Definition running w : Prop :=
  exists kern system w0 w1, initial w0 /\ fs_new H kern system w0 = (w1, Ok tt) /\ rtc fs_step w1 w.
Lemma initial_wf w : initial w -> wf w.
Proof.
  intros (Hv & Hm & Hl & Hd & Hdead). split; [split|]; rewrite ?Hv, ?Hm, ?Hl, ?Hd, ?Hdead; try done; try set_solver.
  by intros v x; rewrite Hv.
Qed.
Lemma fs_step_sound w w' : fs_step w w' -> sound w w'.
Proof.
  intros []; [by apply keeps_at, walks_sound, lookup_walks|by apply keeps_at, mkdir_sound|by apply keeps_at, mount_sound|
    by apply keeps_at, make_dev_sound|by apply sound_same|by apply keeps_at, walks_sound, release_walks].
Qed.
Lemma running_wf w : running w -> wf w.
Proof.
  intros (kern & system & w0 & w1 & Hi & Hnew & Hsteps). apply initial_wf in Hi.
  pose proof (keeps_at _ _ w0 (fs_new_sound kern system) Hi) as [Hwf _]. rewrite Hnew in Hwf. cbn in Hwf.
  clear Hnew. induction Hsteps as [|w1 w2 w3 Hs _ IH]; [done|]. by apply IH, (fs_step_sound _ _ Hs).
Qed.
End fs.
End FsProps.
