(* ===== verification/ChrootProps.v ===== *)
(** * Lookups stay below the root directory of the process

    Where no nullfs is mounted and no directory of the host has a link to it, a
    lookup returns a vnode that is reached from the root directory of the
    process through entries of directories and mounts; and lookups through a
    nullfs and through a link that leave it.  A file has one vnode. *)
From S2P Require Import Prelude Env Cred VPath Sysctl FileDesc Vnode VnodeProps Fs FsProps.

Module ChrootProps.
Import Env Vnode VnodeProps Fs FsProps.
Local Open Scope list_scope.
Local Open Scope Z_scope.

Section chroot.
Context {HS : Type} (H : Host HS).
Implicit Types (w : World HS).
Notation wf := (wf H).
Notation same_file := (same_file H).

(** No directory of the host has a link to it: two names of a directory are
    names in the same directory, and the directory that is mounted has none
    below it. *)
Definition dirs_unlinked : Prop := forall root f g, host_dir H root f -> same_id H root f g ->
  f = [] /\ g = [] \/ exists f' g' n n', f = f' ++ [n] /\ g = g' ++ [n'] /\ same_id H root f' g'.
Context (Hst : ids_stable H) (Hdirs : dirs_unlinked).

(** ** Being below a directory *)

(** [y] is the vnode of an entry of the directory of [x]. *)
Definition entry_of w (x y : Vnode) : Prop :=
  match v_backend x, v_backend y with
  | BHost f, BHost g => v_mount y = v_mount x /\ exists root name, host_mount w (v_mount x) root /\ same_id H root (f ++ [name]) g
  | BTmp n, BTmp c => v_mount y = v_mount x /\ exists mt max nodes nd root l name,
      mounts w !! v_mount x = Some mt /\ m_fs mt = DTmp max nodes /\ nodes !! n = Some nd /\ t_dir nd = Some (root, l) /\ (name, c) ∈ l
  | BDev e, BDev c => exists d, dirents w !! e = Some d /\ c ∈ d_children d
  | _, _ => False
  end.
(** [y] is the vnode of the root of the mount [m]. *)
Definition root_of w (m : nat) (y : Vnode) : Prop :=
  exists mt, mounts w !! m = Some mt /\
    match m_fs mt, v_backend y with
    | DHost root _, BHost f => v_mount y = m /\ same_id H root [] f
    | DTmp _ _, BTmp n => v_mount y = m /\ n = 0%nat
    | DDev _ root _, BDev e => e = root
    | _, _ => False
    end.
(** The vnodes that are reached from [r] downwards. *)
Inductive inside w (r : nat) : nat -> Prop :=
  | inside_root : inside w r r
  | inside_entry v x u y :
      inside w r v -> vnodes w !! v = Some x -> vnodes w !! u = Some y -> entry_of w x y -> inside w r u
  | inside_mount v x m u y :
      inside w r v -> vnodes w !! v = Some x -> v_item x = Some (IMount m) -> vnodes w !! u = Some y -> root_of w m y -> inside w r u.
Definition no_null w : Prop := forall m mt l, mounts w !! m = Some mt -> m_fs mt <> DNull l.

Lemma host_mount_lext w w' m root : lext w w' -> host_mount w m root -> host_mount w' m root.
Proof.
  intros Hl (mt & act & Hm & Hfs). destruct (le_mounts _ _ Hl _ _ Hm) as (mt' & Hm' & Hs & _). rewrite Hfs in Hs.
  destruct (m_fs mt') as [root' act'| | |] eqn:Hfs'; try done. cbn in Hs. subst. by exists mt', act'.
Qed.
Lemma host_mount_eq w m root root' : host_mount w m root -> host_mount w m root' -> root = root'.
Proof. intros (mt & act & Hm & Hfs) (mt' & act' & Hm' & Hfs'). congruence. Qed.
Lemma entry_of_lext w w' x y : lext w w' -> entry_of w x y -> entry_of w' x y.
Proof.
  intros Hl. unfold entry_of. destruct (v_backend x) as [f|n|e|l], (v_backend y) as [g|c|c|l']; try done.
  - intros [Hm (root & name & Hr & Hid)]. split; [done|]. exists root, name. split; [by eapply host_mount_lext|done].
  - intros [Hm (mt & max & nodes & nd & root & l & name & Hmt & Hfs & Hnd & Hdir & Hin)]. split; [done|].
    destruct (le_mounts _ _ Hl _ _ Hmt) as (mt' & Hmt' & Hs & _). rewrite Hfs in Hs.
    destruct (m_fs mt') as [|max' nodes'| |] eqn:Hfs'; try done. destruct Hs as [<- Hn].
    assert (Hlk : (t_dir <$> nodes') !! n = Some (t_dir nd)) by (by rewrite Hn, list_lookup_fmap, Hnd).
    rewrite list_lookup_fmap in Hlk. destruct (nodes' !! n) as [nd'|] eqn:Hnd'; simplify_eq/=.
    exists mt', max, nodes', nd', root, l, name. split_and!; try done. congruence.
  - intros (d & He & Hc). destruct (le_dirents _ _ Hl _ _ He) as (d' & He' & l & v & ->). eexists. split; [exact He'|]. cbn. set_solver.
Qed.
Lemma root_of_lext w w' m y : lext w w' -> root_of w m y -> root_of w' m y.
Proof.
  intros Hl (mt & Hmt & Hr). destruct (le_mounts _ _ Hl _ _ Hmt) as (mt' & Hmt' & Hs & _). exists mt'. split; [done|].
  destruct (m_fs mt), (m_fs mt'), (v_backend y); try done; [by cbn in Hs; subst|]. destruct Hs. congruence.
Qed.
Lemma vnodes_lext w w' v x : lext w w' -> vnodes w !! v = Some x -> vnodes w' !! v = Some x.
Proof. intros Hl Hx. eapply prefix_lookup_Some; [done|]. by apply Hl. Qed.
Lemma inside_lext w w' r v : lext w w' -> inside w r v -> inside w' r v.
Proof.
  intros Hl. induction 1 as [|v x u y _ IH Hx Hy He|v x m u y _ IH Hx Hi Hy Hr]; [constructor|..].
  - eapply inside_entry; [done|by eapply vnodes_lext..|by eapply entry_of_lext].
  - eapply inside_mount; [done|by eapply vnodes_lext|done|by eapply vnodes_lext|by eapply root_of_lext].
Qed.
Lemma no_null_lext w w' : lext w w' -> no_null w -> no_null w'.
Proof.
  intros Hl Hn m mt' l Hm' Hfs'. destruct (lookup_lt_is_Some_2 (mounts w) m) as [mt Hm].
  { rewrite <- (le_length _ _ Hl). by apply lookup_lt_Some in Hm'. }
  destruct (le_mounts _ _ Hl _ _ Hm) as (mt'' & ? & Hs & _). simplify_eq. rewrite Hfs' in Hs.
  destruct (m_fs mt) as [| | |l0] eqn:Hfs; try done. by eapply Hn.
Qed.

(** ** Upwards *)

(** [..] of the directory of [x] is the file of [y]. *)
Definition parent_of w (x y : Vnode) : Prop :=
  match v_backend x, v_backend y with
  | BHost f, BHost g => v_mount y = v_mount x /\ f <> [] /\ exists root,
      host_mount w (v_mount x) root /\ host_dir H root f /\ same_id H root (take (length f - 1) f) g
  | BDev e, BDev p => v_ty x <> Directory true /\ exists d, dirents w !! e = Some d /\ is_subdir d /\ up (dirents w) d p
  | _, _ => False
  end.
Lemma parent_of_entry w x y z : wf w -> entry_of w x y -> parent_of w y z -> same_file w x z.
Proof.
  intros Hwf. unfold entry_of, parent_of, VnodeProps.same_file.
  destruct (v_backend x) as [f|n|e|l], (v_backend y) as [g|c|c|l'], (v_backend z) as [h|k|p|l'']; try done.
  - intros [Hm (root & name & Hr & Hid)] (Hm' & Hne & root' & Hr' & Hd & Hid'). rewrite Hm in Hr'.
    rewrite (host_mount_eq _ _ _ _ Hr' Hr) in *. split; [congruence|]. exists root. split; [done|].
    destruct (Hdirs _ _ _ Hd (same_id_sym _ _ _ _ Hid)) as [[-> _]|(g' & f' & n & n' & -> & Hf & Hup)]; [done|].
    apply app_inj_tail in Hf as [<- <-]. rewrite length_app in Hid'. cbn in Hid'. rewrite Nat.add_sub, take_app_length in Hid'.
    eapply same_id_trans; [done|by apply same_id_sym|done].
  - intros (d & He & Hc) (_ & dc & Hdc & Hsub & k & dd & Hk & Hdd & Hup).
    destruct (wf_dirents _ _ (proj1 Hwf) _ _ _ He Hc) as (dc' & ? & Hup'). simplify_eq.
    destruct (Hup' Hsub) as (k' & dd' & ? & ? & ?). congruence.
Qed.
Lemma parent_of_root w v m x y : wf w -> vnodes w !! v = Some x -> root_of w m x -> ~ parent_of w x y.
Proof.
  intros Hwf Hv (mt & Hm & Hr) Hp. unfold parent_of in Hp. pose proof (wf_fs _ _ (proj1 Hwf) _ _ Hm) as Hfs.
  pose proof (wf_type _ _ (proj1 Hwf) _ _ Hv) as Ht. unfold type_ok in Ht.
  destruct (m_fs mt) as [root act| |i root g|] eqn:Hmt, (v_backend x) as [f| | |], (v_backend y); try done.
  { destruct Hr as [<- Hid], Hp as (_ & Hne & root' & Hr' & Hd & _). assert (root' = root) as ->.
    { eapply host_mount_eq; [done|]. by exists mt, act. }
    destruct (Hdirs _ _ _ Hd (same_id_sym _ _ _ _ Hid)) as [[-> _]|(? & ? & ? & ? & _ & Hf & _)]; [done|]. by destruct x1. }
  subst. destruct Hfs as (d & ? & ?), Ht as (d' & ? & ?), Hp as [? _]. simplify_eq. congruence.
Qed.
(** Another vnode of a file that is below [r] is below it. *)
Lemma inside_same w r v x u y :
  wf w -> is_alive w r -> inside w r v -> vnodes w !! v = Some x -> vnodes w !! u = Some y -> u ∉ dead w -> same_file w x y ->
  inside w r u.
Proof.
  intros Hwf Hr Hin Hx Hy Hu Hs. destruct Hin as [|z t v' x' Hz Ht Hx' He|z t m v' x' Hz Ht Hi Hx' Hro].
  - assert (r = u) as <- by (eapply (wf_unique H); eauto; by destruct Hr). constructor.
  - assert (x' = x) as -> by congruence. eapply inside_entry; [done|done|done|]. unfold entry_of, VnodeProps.same_file in *.
    destruct (v_backend t), (v_backend x), (v_backend y); try done.
    + destruct He as [Hm (root & name & Hro & Hid)], Hs as [Hm' (root' & Hro' & Hid')]. split; [congruence|].
      rewrite Hm in Hro'. rewrite (host_mount_eq _ _ _ _ Hro' Hro) in Hid'. exists root, name. split; [done|]. by eapply same_id_trans.
    + destruct He as [? ?], Hs as [? ?]. split; [congruence|]. by subst.
    + by subst.
  - assert (x' = x) as -> by congruence. eapply inside_mount; [done|done|done|done|]. destruct Hro as (mt & Hm & Hro). exists mt. split; [done|].
    unfold VnodeProps.same_file in Hs. destruct (m_fs mt) as [root act| | |] eqn:Hfs, (v_backend x), (v_backend y); try done; [|naive_solver congruence..].
    destruct Hro as [Hm0 Hid], Hs as [Hm' (root' & Hro' & Hid')]. split; [congruence|]. rewrite Hm0 in Hro'.
    assert (root' = root) as -> by (eapply host_mount_eq; [done|]; by exists mt, act). by eapply same_id_trans.
Qed.
Definition moves w (x : Vnode) (name : str) (y : Vnode) : Prop :=
  if bool_decide (name = VPath.dotdot) then parent_of w x y else entry_of w x y.
Lemma inside_moves w r v x name u y :
  wf w -> is_alive w r -> inside w r v -> vnodes w !! v = Some x -> vnodes w !! u = Some y -> u ∉ dead w -> moves w x name y ->
  (name = VPath.dotdot -> v = r -> exists m, root_of w m x) -> inside w r u.
Proof.
  intros Hwf Hr Hin Hx Hy Hu Hm Hroot. unfold moves in Hm. case_bool_decide as Hname; [|by eapply inside_entry].
  destruct Hin as [|z t v' x' Hz Ht Hx' He|z t m v' x' Hz Ht Hi Hx' Hro].
  - destruct (Hroot Hname eq_refl) as [m Hro]. by destruct (parent_of_root w r m x y).
  - assert (x' = x) as -> by congruence. eapply (inside_same w r z t u y); try done. by eapply parent_of_entry.
  - assert (x' = x) as -> by congruence. by destruct (parent_of_root w v' m x y).
Qed.

(** ** What a lookup in a directory returns *)

(** The vnode [u] of the state [w'] is where [name] leads from [x], or [v] itself. *)
Definition leads w' (v : nat) (x : Vnode) (name : str) (u : nat) : Prop :=
  u = v \/ exists y, vnodes w' !! u = Some y /\ u ∉ dead w' /\ moves w' x name y.
Lemma host_dir_of w w' v x file root :
  wf w -> lext w w' -> vnodes w !! v = Some x -> v_backend x = BHost file -> is_directory x = true ->
  host_mount w' (v_mount x) root -> host_dir H root file.
Proof.
  intros Hwf Hl Hx Hb Hd Hr. destruct (wf_kind _ _ (proj1 Hwf) _ _ Hx) as (mt & Hm & Hk). unfold kind_ok in Hk. rewrite Hb in Hk.
  destruct (m_fs mt) as [r act| | |] eqn:Hfs; try done. rewrite (host_mount_eq w' (v_mount x) root r); [by apply Hk|done|].
  eapply host_mount_lext; [done|]. by exists mt, act.
Qed.
Lemma host_lookup_Ok w w' v x file td name u :
  wf w -> vnodes w !! v = Some x -> v_backend x = BHost file -> host_lookup H v x file td name w = (w', Ok u) -> leads w' v x name u.
Proof.
  intros Hwf Hx Hb. unfold host_lookup. intros Hr. io_inv.
  match goal with Ha : access _ _ _ _ = _ |- _ => apply access_same in Ha; subst end.
  case_bool_decide; io_inv; [by left|]. right.
  match goal with Hg : get_vnode _ ?m ?f ?w1 = _ |- _ =>
    pose proof (get_vnode_spec H w1 m f) as Hs; rewrite Hg in Hs end.
  unfold moves, parent_of, entry_of. rewrite Hb. case_bool_decide.
  - case_bool_decide; io_inv. destruct (Hs Hwf) as [_ Hf]. destruct (Hf u eq_refl) as (g & root & (y & Hy & Hm & Hyb) & Hd & Hro & Hid).
    exists y. rewrite Hyb. split; [done|]. split; [done|]. split; [done|]. split; [done|]. exists root. split; [done|]. split; [|done].
    eapply (host_dir_of w w'); [done|by apply Hs|done|done| |done]. unfold check_dir, is_directory in *. by destruct (v_ty x).
  - unfold host_root_of, host_open in *. io_inv. case_match; io_inv. destruct (Hs Hwf) as [_ Hf].
    destruct (Hf u eq_refl) as (g & rt & (y & Hy & Hm & Hyb) & Hd & Hro & Hid). exists y. rewrite Hyb. eauto 8.
Qed.
Lemma tmp_lookup_Ok w w' v x n td name u :
  wf w -> v_backend x = BTmp n -> tmp_lookup v x n td name w = (w', Ok u) -> leads w' v x name u.
Proof.
  intros Hwf Hb. unfold tmp_lookup. intros Hr. io_inv.
  match goal with Ha : access _ _ _ _ = _ |- _ => apply access_same in Ha; subst end.
  case_bool_decide as Hdd; [by io_inv|]. case_bool_decide; io_inv; [by left|]. right.
  unfold tmp_nodes_of in *. io_inv. case_match eqn:Hfs; io_inv. destruct_and?. case_match; simplify_eq. io_inv.
  match goal with Hf : list_find _ _ = Some ?e |- _ => destruct e as [i [name' c]]; apply list_find_Some in Hf as (Hl & _ & _) end.
  cbn in *. pose proof (tmp_alloc_vnode_spec H (E := Z) w (v_mount x) c Hwf) as [[_ [Hext _]] Hf].
  match goal with Ha : tmp_alloc_vnode _ _ _ = _ |- _ => rewrite Ha in Hext, Hf end.
  destruct (Hf u eq_refl) as [(y & Hy & Hm & Hyb) Hd]. exists y. split_and!; try done. unfold moves. rewrite bool_decide_false by done.
  apply (entry_of_lext w w'); [done|]. unfold entry_of. rewrite Hb, Hyb. split; [done|].
  do 7 eexists. split_and!; try done. by eapply list_elem_of_lookup_2.
Qed.
Lemma dirent_parent_Ok w w' e p :
  dirent_parent (E := Z) e w = (w', Ok (Some p)) ->
  w' = w /\ exists d, dirents w !! e = Some d /\ (d_ty d = DtDirectory -> is_subdir d /\ up (dirents w) d p).
Proof.
  unfold dirent_parent. intros Hr. io_inv. case_match; bool_to_prop.
  - case_bool_decide as Hty; [done|]. io_inv. split; [done|]. eexists. split; [done|]. by intros ?.
  - case_match eqn:Hn; io_inv; [by simplify_eq|]. apply orb_false_iff in Hn as [Hn1%bool_decide_eq_false Hn2%bool_decide_eq_false].
    split; [done|]. eexists. split; [done|]. intros Hty. split; [done|]. simplify_eq.
    eexists _, _. split_and!; done.
Qed.
Lemma find_Ok w w' e name c :
  find (E := Z) e name w = (w', Ok (Some c)) -> w' = w /\ exists d, dirents w !! e = Some d /\ c ∈ d_children d.
Proof.
  unfold find. intros Hr. io_inv. split; [done|]. eexists. split; [done|].
  match goal with Hf : Some c = find_entry _ _ _ |- _ => symmetry in Hf; revert Hf end.
  generalize (d_children x0) as l. induction l as [|a l IH]; cbn; [done|]. case_match; [case_if|]; naive_solver set_solver.
Qed.
Lemma dev_alloc_Ok w w' m c u :
  wf w -> is_dev w m -> dev_alloc_vnode m c w = (w', Ok u) ->
  lext w w' /\ exists y, vnodes w' !! u = Some y /\ v_backend y = BDev c /\ u ∉ dead w'.
Proof.
  intros Hwf (mt & i & root & g & Hm & Hfs) Ha. pose proof (dev_alloc_vnode_spec H w m mt i root g c Hm Hfs Hwf) as [[_ [Hl _]] Hf].
  rewrite Ha in Hl, Hf. split; [done|]. destruct (Hf u eq_refl) as (m' & (y & Hy & _ & Hyb) & Hd). by exists y.
Qed.
Lemma same_up w w' d d' p : lext w w' -> same_dirent d d' -> up (dirents w) d p -> up (dirents w') d' p.
Proof.
  intros Hl (l & v & ->) (c & dd & Hc & Hdd & Hp). destruct (le_dirents _ _ Hl _ _ Hdd) as (dd' & Hdd' & l' & v' & ->).
  exists c. eexists. split_and!; [by apply lookup_app_l_Some|done|done].
Qed.
Lemma dev_lookup_Ok w w' v x e td name u :
  wf w -> vnodes w !! v = Some x -> v_backend x = BDev e -> dev_lookup v x e td name w = (w', Ok u) -> leads w' v x name u.
Proof.
  intros Hwf Hx Hb. unfold dev_lookup. intros Hr. io_inv.
  match goal with Ha : access _ _ _ _ = _ |- _ => apply access_same in Ha; subst end.
  match goal with Hp : populate _ w = (?w1, _) |- _ => destruct (keeps_eq _ _ _ _ _ (populate_looks H _) Hp Hwf) as (Hwf1 & Hl1 & _);
    rename w1 into wp end.
  assert (Hdev : is_dev wp (v_mount x)) by (eapply is_dev_lext; [done|]; by eapply dev_kind).
  case_bool_decide; io_inv; [by left|]. right. unfold moves, parent_of, entry_of. rewrite Hb. case_bool_decide as Hdd; io_inv.
  - match goal with Hp : dirent_parent _ _ = _ |- _ => apply dirent_parent_Ok in Hp as (-> & d & He & Hup) end.
    match goal with Ha : dev_alloc_vnode _ _ _ = _ |- _ => apply dev_alloc_Ok in Ha as (Hl & y & Hy & Hyb & Hu); [|done..] end.
    exists y. rewrite Hyb. split_and!; try done.
    + intros Ht. unfold check_dir in *. rewrite Ht in *. by rewrite bool_decide_true in * by done.
    + pose proof (wf_type _ _ (proj1 Hwf1) v x (vnodes_lext _ _ _ _ Hl1 Hx)) as Ht. unfold type_ok in Ht. rewrite Hb in Ht.
      destruct Ht as (d' & ? & Ht). simplify_eq. destruct Hup as [Hsub Hup].
      { unfold check_dir, dev_type in *. destruct (d_ty d); [by rewrite Ht in *|done|by rewrite Ht in *]. }
      destruct (le_dirents _ _ Hl _ _ He) as (d' & He' & Hd'). exists d'. split_and!; [done| |by eapply same_up].
      by destruct Hd' as (l & v' & ->).
  - match goal with Hp : find _ _ _ = _ |- _ => apply find_Ok in Hp as (-> & d & He & Hc) end.
    match goal with Ha : dev_alloc_vnode _ _ _ = _ |- _ => apply dev_alloc_Ok in Ha as (Hl & y & Hy & Hyb & Hu); [|done..] end.
    exists y. rewrite Hyb. split_and!; try done. destruct (le_dirents _ _ Hl _ _ He) as (d' & He' & l & v' & ->).
    eexists. split; [done|]. cbn. set_solver.
Qed.
(** [Vnode::lookup] where there is no nullfs. *)
Lemma vnode_lookup_Ok w w' td name v x u :
  wf w -> no_null w -> vnodes w !! v = Some x -> vnode_lookup H td name v w = (w', Ok u) -> leads w' v x name u.
Proof.
  intros Hwf Hn Hx. unfold vnode_lookup. intros Hr.
  assert (Hr' : (match v_backend x with
    | BHost file => host_lookup H v x file td name
    | BTmp n => tmp_lookup v x n td name
    | BDev e => dev_lookup v x e td name
    | BNull _ => lift (Panic PUnreachable)
    end) w = (w', Ok u)).
  { destruct v; cbn [lookup_] in Hr; io_inv; simplify_eq; destruct (v_backend x) as [| | |l] eqn:Hb; try done;
      destruct (null_kind _ _ _ _ _ Hwf Hx Hb) as (mt & l' & Hm & Hfs); by destruct (Hn _ _ l' Hm). }
  destruct (v_backend x) as [| | |l] eqn:Hb; [by eapply host_lookup_Ok|by eapply tmp_lookup_Ok|by eapply dev_lookup_Ok|done].
Qed.
(** [Mount::root] of a mount that is not a nullfs. *)
Lemma mount_root_Ok w w' m u :
  wf w -> no_null w -> mount_root H m w = (w', Ok u) -> exists y, vnodes w' !! u = Some y /\ root_of w' m y /\ u ∉ dead w'.
Proof.
  intros Hwf Hn Hr. destruct (keeps_eq _ _ _ _ _ (mount_root_looks H m) Hr Hwf) as (Hwf' & Hl & _).
  unfold mount_root in Hr. io_inv. match goal with Hm : mounts _ !! m = Some ?x |- _ => rename Hm into Hmt; rename x into mt end.
  match goal with Hq : _ = (w', Ok u) |- _ => rename Hq into Hroot end.
  destruct (le_mounts _ _ Hl _ _ Hmt) as (mt' & Hmt' & Hs & _). unfold root_of.
  destruct (m_fs mt) as [r a|mx ns|i r g|l] eqn:Hfs, (m_fs mt') as [r' a'|mx' ns'|i' r' g'|l'] eqn:Hfs'; try done.
  - pose proof (get_vnode_spec H _ m [] Hwf) as [_ Hf]. rewrite Hroot in Hf.
    destruct (Hf u eq_refl) as (g & rt & (y & Hy & Hm & Hb) & Hd & Hro & Hid). exists y. split_and!; try done. exists mt'.
    rewrite Hfs', Hb. split; [done|]. split; [done|]. rewrite (host_mount_eq w' m r' rt); [done|by exists mt', a'|done].
  - pose proof (tmp_alloc_vnode_spec H (E := Z) _ m 0 Hwf) as [_ Hf]. rewrite Hroot in Hf. destruct (Hf u eq_refl) as [(y & Hy & Hm & Hb) Hd].
    exists y. split_and!; try done. exists mt'. by rewrite Hfs', Hb.
  - apply dev_alloc_Ok in Hroot as (_ & y & Hy & Hb & Hd); [|done|by do 4 eexists]. exists y. split_and!; try done.
    exists mt'. rewrite Hfs', Hb. by destruct Hs.
  - by destruct (Hn _ _ l Hmt).
Qed.

(** ** The loop *)

(** A vnode that [follow] returns itself. *)
Definition stays (x : Vnode) : Prop := match v_ty x with Directory _ => v_item x = None | Link => False | _ => True end.
Lemma follow_stays w v x : vnodes w !! v = Some x -> stays x -> follow H v w = (w, Ok v).
Proof.
  intros Hx Hs. unfold follow, mbind, io_bind, the_vnode, deref. rewrite Hx. cbn. unfold stays in Hs.
  destruct (v_ty x); try done. by rewrite Hs.
Qed.
Lemma follow_Ok w w' v x u :
  wf w -> no_null w -> vnodes w !! v = Some x -> follow H v w = (w', Ok u) ->
  u = v /\ w' = w /\ stays x \/ exists m y, v_item x = Some (IMount m) /\ vnodes w' !! u = Some y /\ root_of w' m y.
Proof.
  intros Hwf Hn Hx Hr. unfold follow in Hr. io_inv. simplify_eq. unfold stays. destruct (v_ty x) eqn:Ht; io_inv; [by left| |by left].
  destruct (v_item x) as [[m|d]|] eqn:Hi; io_inv; [|by left]. rewrite (item_alive H w v x m) in * by done.
  match goal with Hm : mount_root _ _ _ = _ |- _ => apply mount_root_Ok in Hm as (y & Hy & Hro & _); [|done..] end.
  right. by exists m, y.
Qed.
Lemma inside_valid w r v : is_Some (vnodes w !! r) -> inside w r v -> is_Some (vnodes w !! v).
Proof. intros Hr []; [done|by eexists..]. Qed.
Lemma follow_inside w w' r v u :
  wf w -> no_null w -> is_Some (vnodes w !! r) -> inside w r v -> follow H v w = (w', Ok u) -> inside w' r u.
Proof.
  intros Hwf Hn Hr Hin Hf. destruct (inside_valid _ _ _ Hr Hin) as [x Hx].
  destruct (keeps_eq _ _ _ _ _ (follow_looks H v) Hf Hwf) as (_ & Hl & _).
  destruct (follow_Ok _ _ _ _ _ Hwf Hn Hx Hf) as [(-> & -> & _)|(m & y & Hi & Hy & Hro)]; [done|].
  eapply inside_mount; [by eapply inside_lext|by eapply vnodes_lext|done|done|done].
Qed.
Lemma lookup_step_inside w w1 w2 r xr root td com vn res next :
  wf w -> no_null w -> is_alive w r -> vnodes w !! r = Some xr -> (stays xr -> root = r) -> inside w r vn ->
  follow H vn w = (w1, Ok res) -> (com = VPath.dotdot -> res <> root) -> vnode_lookup H td com res w1 = (w2, Ok next) ->
  wf w2 /\ lext w w2 /\ dead w2 = dead w /\ inside w2 r next.
Proof.
  intros Hwf Hn Halive Hr Hroot Hin Hf Hcom Hlk. assert (Hrs : is_Some (vnodes w !! r)) by by eexists.
  pose proof (follow_inside _ _ _ _ _ Hwf Hn Hrs Hin Hf) as Hin1. destruct (inside_valid _ _ _ Hrs Hin) as [xv Hv].
  destruct (keeps_eq _ _ _ _ _ (follow_looks H vn) Hf Hwf) as (Hwf1 & Hl1 & Hd1).
  destruct (keeps_eq _ _ _ _ _ (lookup_looks H res td com res) Hlk Hwf1) as (Hwf2 & Hl2 & Hd2).
  split; [done|]. split; [by etrans|]. split; [congruence|].
  destruct (inside_valid w1 r res) as [xs Hxs]; [by eexists; eapply vnodes_lext|done|].
  destruct (vnode_lookup_Ok _ _ _ _ _ _ _ Hwf1 (no_null_lext _ _ Hl1 Hn) Hxs Hlk) as [->|(y & Hy & Hdy & Hm)]; [by eapply inside_lext|].
  eapply (inside_moves w2 r res xs com next y); try done.
  - destruct Halive as [Hlt Hdead]. split; [|by rewrite Hd2, Hd1]. eapply lookup_lt_Some. by eapply vnodes_lext, vnodes_lext.
  - by eapply inside_lext.
  - by eapply vnodes_lext.
  - intros Hdd ->. destruct (follow_Ok _ _ _ _ _ Hwf Hn Hv Hf) as [(<- & -> & Hs)|(m & y' & Hi & Hy' & Hro)].
    + simplify_eq. by destruct (Hcom eq_refl), (Hroot Hs).
    + simplify_eq. exists m. by eapply root_of_lext.
Qed.
Lemma lookup_loop_inside locals td root r xr coms : forall i vn w w' u,
  wf w -> no_null w -> r ∈ locals -> is_alive w r -> vnodes w !! r = Some xr -> (stays xr -> root = r) -> inside w r vn ->
  lookup_loop H locals td root i coms vn w = (w', Ok u) -> wf w' /\ lext w w' /\ inside w' r u.
Proof.
  induction coms as [|com coms IH]; intros i vn w w' u Hwf Hn Hloc Halive Hr Hroot Hin Hlp; cbn [lookup_loop] in Hlp.
  { by apply ret_Ok in Hlp as [-> ->]. }
  io_inv. match goal with
    Hf : follow _ _ _ = (?w1, Ok ?res), Hlk : vnode_lookup _ _ _ _ _ = (?w2, Ok ?nx), Hrel : release _ _ = (?w3, _), Hq : _ = (w', Ok u) |- _ =>
    rename w2 into w2', w3 into w3', nx into next;
    destruct (lookup_step_inside w w1 w2' r xr root td com vn res next) as (Hwf2 & Hl2 & Hd2 & Hin2); try done;
    [intros -> ->; by rewrite !bool_decide_true in * by done|];
    pose proof (release_wf H (E := LookupError) w2' (root :: next :: locals) Hwf2) as Hwf3;
    pose proof (release_lext (E := LookupError) w2' (root :: next :: locals)) as Hl3;
    pose proof (dead_release H (E := LookupError) w2' (root :: next :: locals) r Hwf2) as Hd3;
    rewrite Hrel in Hwf3, Hl3, Hd3; cbn [fst] in Hwf3, Hl3, Hd3; clear Hrel end.
  assert (Hl : lext w w3') by by etrans. assert (Hr3 : vnodes w3' !! r = Some xr) by by eapply vnodes_lext.
  destruct (IH (S i) next w3' w' u) as (Hwf' & Hl' & Hin'); [done|by apply (no_null_lext w)|done| |done|done|by apply (inside_lext w2')|done|].
  - split; [by apply lookup_lt_Some in Hr3|]. destruct Halive as [_ Hdead]. apply Hd3; [|by rewrite Hd2|].
    + eapply lookup_lt_Some. by eapply vnodes_lext.
    + intros alive _. apply references_held. set_solver.
  - split; [done|]. split; [by etrans|done].
Qed.

(** A vnode that [lookup] returns to a process with root directory [td_root]
    is below it: *)
Lemma lookup_inside w w' locals path fl td u :
  wf w -> no_null w -> is_alive w (td_root td) ->
  (VPath.is_absolute path = false -> inside w (td_root td) (td_cwd td)) ->
  lookup H locals path fl (Some td) w = (w', Ok u) -> inside w' (td_root td) u.
Proof.
  intros Hwf Hn Halive Hcwd. unfold lookup, scoped. set (r := td_root td) in *. destruct (lookup_lt_is_Some_2 (vnodes w) r) as [xr Hr]; [apply Halive|].
  match goal with |- (let '(_, _) := ?m w in _) = _ -> _ => destruct (m w) as [w1 o] eqn:Hm end. intros [= <- ->].
  eapply inside_lext; [apply (release_lext (E := LookupError))|]. io_inv.
  match goal with Hf : follow _ r w = (?w2, Ok ?root), Hlp : lookup_loop _ _ _ _ _ _ _ _ = (?w3, Ok ?v) |- _ =>
    rename w2 into w2', w3 into w3', v into v3, root into root', Hf into Hfol, Hlp into Hloop end.
  destruct (keeps_eq _ _ _ _ _ (follow_looks H r) Hfol Hwf) as (Hwf2 & Hl2 & Hd2).
  assert (Hr2 : vnodes w2' !! r = Some xr) by by eapply vnodes_lext.
  eapply lookup_loop_inside in Hloop as (Hwf3 & Hl3 & Hin3); [|done|by eapply no_null_lext|apply list_elem_of_here| |done| |].
  - destruct fl; io_inv; [|done].
    eapply (follow_inside w3'); [done|by eapply no_null_lext, no_null_lext| |done|done]. eexists. by eapply vnodes_lext.
  - split; [by apply lookup_lt_Some in Hr2|]. rewrite Hd2. apply Halive.
  - intros Hs. rewrite (follow_stays w r xr Hr Hs) in Hfol. by simplify_eq.
  - unfold start_of. destruct (VPath.is_absolute path); [constructor|]. eapply inside_lext; [done|]. by apply Hcwd.
Qed.
Lemma running_step w w' : running H w -> fs_step H w w' -> running H w'.
Proof. intros (kern & sys & w0 & w1 & Hi & Hnew & Hs) Hw. exists kern, sys, w0, w1. split_and!; [done..|]. by eapply rtc_r. Qed.
End chroot.

(** C15: a process cannot look up anything outside of its root directory where
    no nullfs is mounted and no directory of the host has a link to it, as long
    as the files of the host keep their identifiers.  In every state of a
    system that has started, a path, with any number of [..] in it, leads from
    the root directory or from a working directory below it only to vnodes that
    are reached from the root directory through entries of directories and
    mounts.  Regular files may have links, and directories may have more than
    one name in the directory that they are in. *)
Theorem chroot_confined {HS} (H : Host HS) w w' locals path fl td u :
  ids_stable H -> dirs_unlinked H -> running H w -> no_null w -> is_alive w (td_root td) ->
  (VPath.is_absolute path = false -> inside H w (td_root td) (td_cwd td)) ->
  lookup H locals path fl (Some td) w = (w', Ok u) -> inside H w' (td_root td) u.
Proof. intros Hst Hdirs Hrun. apply lookup_inside; [done|done|]. by apply running_wf. Qed.

(** C16: every file has at most one vnode that is in use, which [Vnode] asks
    of the file systems: in every state of a system that has started, two
    vnodes that were not dropped and that are of the same file of a directory
    of the host, of a tmpfs or of a devfs are the same object.  Files of the
    host are the same when the host gives them the same identifier, under
    whatever names and through whatever links they were found, and they keep
    their identifiers. *)
Theorem vnode_unique {HS} (H : Host HS) w v u x y :
  ids_stable H -> running H w -> vnodes w !! v = Some x -> vnodes w !! u = Some y -> v ∉ dead w -> u ∉ dead w ->
  same_file H w x y -> v = u.
Proof. intros Hst Hrun. apply wf_unique; [done|]. by apply running_wf. Qed.

(** ** A host *)

(** The directories of a host that does not tell upper from lower case, and
    their names in lower case as identifiers. *)
Definition lower (f : list str) : list str := (fmap (M := list) (fun b => if (65 <=? b) && (b <=? 90) then b + 32 else b)) <$> f.
(** A host with the directories [s], where [canon] gives the directory that a
    path leads to. *)
Definition host_of (canon : list str -> list str) : Host (list (list str)) := MkHost _
  (fun _ _ => Ok 0)
  (fun _ _ f => Ok (Zpos (encode (canon f))))
  (fun _ _ _ => Ok true)
  (fun _ _ _ => Ok 0)
  (fun s _ f => if bool_decide (canon f ∈ s) then Ok tt else Err OtherError)
  (fun s _ f => if bool_decide (canon f ∈ s) then (s, Err AlreadyExists) else (canon f :: s, Ok tt)).
Definition demo_host : Host (list (list str)) := host_of lower.
Lemma host_of_same canon root f g : same_id (host_of canon) root f g <-> canon f = canon g.
Proof.
  split.
  - intros (s & s' & i & Hf & Hg). cbn in Hf, Hg. simplify_eq. done.
  - intros Heq. exists [], [], (Zpos (encode (canon f))). cbn. by rewrite Heq.
Qed.
Lemma host_of_stable canon : ids_stable (host_of canon).
Proof. intros s s' r f i i' Hf Hf'. cbn in *. by simplify_eq. Qed.
Lemma demo_unlinked : dirs_unlinked demo_host.
Proof.
  intros root f g _ Hid%host_of_same. unfold lower in Hid.
  destruct f as [|n f _] using rev_ind; destruct g as [|n' g _] using rev_ind; rewrite ?fmap_app in Hid;
    [by left|by apply app_cons_not_nil in Hid|by symmetry in Hid; apply app_cons_not_nil in Hid|].
  right. exists f, g, n, n'. split; [done|]. split; [done|]. apply host_of_same. by apply app_inj_tail in Hid as [? _].
Qed.
Definition demo_kern : Cred.Ucred := Cred.Cr 0 0 [0] Cred.SYS_CORE.
Definition system : str := bytes_of "system".
Definition lib : str := bytes_of "lib".
Definition demo_start : World (list (list str)) :=
  MkWorld [[system]; [system; lib]] [] ∅ [] [] [] 0 [] [] 0 3 0 ∅ Arnd.state_new 0.
Definition demo_new : World (list (list str)) := Eval vm_compute in (fs_new demo_host demo_kern [] demo_start).1.
(** A process whose root directory is [/system] of the host. *)
Definition demo_vnode : nat := 3.
Definition demo_world : World (list (list str)) :=
  Eval vm_compute in set_held [demo_vnode] (lookup demo_host [] (bytes_of "/system") true None demo_new).1.
Definition demo_td : Td := MkTd demo_vnode demo_vnode demo_kern.
Lemma demo_world_eq : demo_world = set_held [demo_vnode] (lookup demo_host [] (bytes_of "/system") true None demo_new).1.
Proof. vm_compute. reflexivity. Qed.
Lemma demo_running : running demo_host demo_world.
Proof.
  exists demo_kern, [], demo_start, demo_new. split; [done|]. split; [by vm_compute|].
  eapply rtc_l; [apply (step_lookup demo_host [] (bytes_of "/system") true None)|].
  apply rtc_once. rewrite demo_world_eq. constructor.
Qed.
Lemma no_null_check {HS} (w : World HS) :
  forallb (fun mt => if m_fs mt is DNull _ then false else true) (mounts w) = true -> no_null w.
Proof.
  intros Hall m mt l Hm Hfs. rewrite forallb_forall in Hall. specialize (Hall mt). rewrite Hfs in Hall.
  discriminate Hall. apply list_elem_of_In. by eapply list_elem_of_lookup_2.
Qed.
Lemma demo_no_null : no_null demo_world.
Proof. by apply no_null_check; vm_compute. Qed.
Definition demo_path : str := bytes_of "/lib/../lib/..".
Lemma chroot_confined_witness :
  exists w' u, lookup demo_host [] demo_path true (Some demo_td) demo_world = (w', Ok u) /\ inside demo_host w' demo_vnode u.
Proof.
  pose proof (surjective_pairing (lookup demo_host [] demo_path true (Some demo_td) demo_world)) as Hl.
  assert (Hr : (lookup demo_host [] demo_path true (Some demo_td) demo_world).2 = Ok demo_vnode) by (vm_compute; reflexivity).
  rewrite Hr in Hl. exists (lookup demo_host [] demo_path true (Some demo_td) demo_world).1, demo_vnode. split; [exact Hl|].
  apply (chroot_confined demo_host demo_world _ [] demo_path true demo_td demo_vnode (host_of_stable lower) demo_unlinked demo_running demo_no_null);
    [by apply (bool_decide_unpack (is_alive demo_world demo_vnode)); vm_compute|by vm_compute|exact Hl].
Defined.
(** The same directory under another name. *)
Definition demo_again : World (list (list str)) * outcome LookupError nat := lookup demo_host [] (bytes_of "/lib/../lib") true (Some demo_td) demo_world.
Definition demo_twice : World (list (list str)) * outcome LookupError nat :=
  lookup demo_host [5%nat] (bytes_of "/LIB") true (Some demo_td) demo_again.1.
Lemma vnode_unique_witness :
  exists v u x y, demo_again.2 = Ok v /\ demo_twice.2 = Ok u /\ vnodes demo_twice.1 !! v = Some x /\ vnodes demo_twice.1 !! u = Some y /\ v = u.
Proof.
  assert (Hrun : running demo_host demo_twice.1).
  { eapply running_step; [|apply step_lookup]. eapply running_step; [apply demo_running|apply step_lookup]. }
  assert (Hd : 5%nat ∉ dead demo_twice.1) by (apply (bool_decide_unpack (5%nat ∉ dead demo_twice.1)); vm_compute; exact I).
  eexists 5%nat, 5%nat, _, _. split; [vm_compute; reflexivity|]. split; [vm_compute; reflexivity|].
  split; [vm_compute; reflexivity|]. split; [vm_compute; reflexivity|].
  eapply (vnode_unique demo_host demo_twice.1 5 5 _ _ (host_of_stable lower) Hrun);
    [vm_compute; reflexivity|vm_compute; reflexivity|exact Hd|exact Hd|].
  split; [reflexivity|]. exists 0. split; [|by apply host_of_same]. eexists _, _. split; [vm_compute; reflexivity|reflexivity].
Defined.

(** ** What nullfs does *)

(** The mounts of a sandbox as the kernel makes them at its start: a tmpfs on
    [/mnt], and a nullfs with a directory of the system in it. *)
Definition opts_of (l : list (string * MountOpt)) : Opts := list_to_map l.
Definition sandbox : io (World (list (list str))) Z nat :=
  map_io (fun _ => 0) (mkdir demo_host [] (bytes_of "/mnt") None);;
  map_io mount_errno (mount demo_host demo_kern []
    (opts_of [("fstype", OStr (bytes_of "tmpfs")); ("fspath", OVPath (bytes_of "/mnt"))]%string) 0 None);;
  box ← map_io (fun _ => 0) (mkdir demo_host [] (bytes_of "/mnt/box") None);
  map_io (fun _ => 0) (mkdir demo_host [] (bytes_of "/mnt/box/lib") None);;
  map_io mount_errno (mount demo_host demo_kern []
    (opts_of [("fstype", OStr (bytes_of "nullfs")); ("fspath", OVPath (bytes_of "/mnt/box/lib")); ("target", OVPath (bytes_of "/system/lib"))]%string)
    0 None);;
  mret box.
(** A process in the sandbox that looks up [/lib/..] gets the directory of the
    system that has the directory below the nullfs in it. *)
Definition leave : io (World (list (list str))) Z nat :=
  box ← sandbox; map_io lookup_errno (lookup demo_host [] (bytes_of "/lib/..") true (Some (MkTd box box demo_kern))).
Example nullfs_leaves_root :
  exists u lower, (leave demo_new).2 = Ok u /\
    (v_backend <$> vnodes (leave demo_new).1 !! u) = Some (BNull lower) /\
    (v_backend <$> vnodes (leave demo_new).1 !! lower) = Some (BHost [system]).
Proof. exists 11%nat, 10%nat. split; [by vm_compute|]. split; by vm_compute. Qed.
(** A nullfs on a directory of the host is gone as soon as [mount] returns: it
    keeps the directory below it instead of the one that it covers. *)
Definition null_on_host : io (World (list (list str))) Z (nat * nat) :=
  map_io (fun _ => 0) (mkdir demo_host [] (bytes_of "/a") None);;
  root ← map_io mount_errno (mount demo_host demo_kern []
    (opts_of [("fstype", OStr (bytes_of "nullfs")); ("fspath", OVPath (bytes_of "/a")); ("target", OVPath (bytes_of "/system"))]%string) 0 None);
  v ← map_io lookup_errno (lookup demo_host [] (bytes_of "/a") true None);
  mret (root, v).
Example nullfs_mount_lost :
  exists root v, (null_on_host demo_new).2 = Ok (root, v) /\
    (v_backend <$> vnodes (null_on_host demo_new).1 !! root) = Some (BNull 4) /\
    (v_backend <$> vnodes (null_on_host demo_new).1 !! v) = Some (BHost [bytes_of "a"]).
Proof. exists 5%nat, 6%nat. split; [by vm_compute|]. split; by vm_compute. Qed.

(** ** What links do *)

(** A host where [/system/out] is a link to the directory [/data]. *)
Definition data : str := bytes_of "data".
Definition out : str := bytes_of "out".
Definition linked (f : list str) : list str :=
  match f with
  | a :: b :: f' => if bool_decide (a = system /\ b = out) then data :: f' else f
  | _ => f
  end.
Definition link_host : Host (list (list str)) := host_of linked.
Definition link_start : World (list (list str)) := MkWorld [[system]; [data]] [] ∅ [] [] [] 0 [] [] 0 3 0 ∅ Arnd.state_new 0.
(** Two processes: the root directory of the first one is [/system], and the
    working directory of the second one is [/data]. *)
Definition link_new : World (list (list str)) := Eval vm_compute in (fs_new link_host demo_kern [] link_start).1.
Definition link_first : World (list (list str)) * outcome LookupError nat := lookup link_host [] (bytes_of "/system") true None link_new.
Definition link_held (r : outcome LookupError nat) : list nat := if r is Ok v then [v] else [].
Definition link_second : World (list (list str)) * outcome LookupError nat :=
  lookup link_host [] (bytes_of "/data") true None (set_held (link_held link_first.2) link_first.1).
Definition link_world : World (list (list str)) :=
  Eval vm_compute in set_held (link_held link_first.2 ++ link_held link_second.2) link_second.1.
Definition link_left : World (list (list str)) * outcome LookupError nat :=
  Eval vm_compute in lookup link_host [] (bytes_of "/out/..") true (Some (MkTd 3 3 demo_kern)) link_world.
Lemma link_world_eq : link_world = set_held (link_held link_first.2 ++ link_held link_second.2) link_second.1.
Proof. vm_compute. reflexivity. Qed.
Lemma link_running : running link_host link_world.
Proof.
  rewrite link_world_eq. eapply running_step; [|apply step_held]. unfold link_second. eapply running_step; [|apply step_lookup].
  eapply running_step; [|apply step_held]. unfold link_first. eapply running_step; [|apply step_lookup].
  exists demo_kern, [], link_start, link_new. split; [done|]. split; [by vm_compute|constructor].
Qed.
Lemma linked_nil f : linked f = [] -> f = [].
Proof. destruct f as [|a [|b f]]; cbn; [done..|]. by case_bool_decide. Qed.
(** The directory that the host has mounted is an entry of no directory. *)
Lemma link_outside : ~ inside link_host link_left.1 3 1.
Proof.
  intros Hin. inversion Hin as [|v x u y _ Hx Hy He|v x m u y _ Hx Hi Hy Hr]; subst; cbn in Hy; injection Hy as <-.
  - unfold entry_of in He. destruct (v_backend x) as [f| | |]; try done. destruct He as [_ (root & name & _ & Hid)].
    apply host_of_same, linked_nil in Hid. by apply app_eq_nil in Hid as [_ ?].
  - destruct v as [|[|[|[|[|v]]]]]; try done; cbn in Hx; injection Hx as <-; try done. injection Hi as <-.
    destruct Hr as (mt & Hm & Hr). cbn in Hm. by injection Hm as <-.
Qed.

(** The first process looks up [/out/..] and gets the directory that the host
    has mounted: the link leads to the vnode that the second process uses, and
    [..] goes to the directory in which that one was found. *)
Example link_leaves_root :
  running link_host link_world /\ no_null link_world /\ ids_stable link_host
  /\ exists u, lookup link_host [] (bytes_of "/out/..") true (Some (MkTd 3 3 demo_kern)) link_world = (link_left.1, Ok u)
       /\ (v_backend <$> vnodes link_left.1 !! u) = Some (BHost []) /\ ~ inside link_host link_left.1 3 u.
Proof.
  split; [apply link_running|]. split; [by apply no_null_check; vm_compute|]. split; [apply host_of_stable|].
  exists 1%nat. split; [vm_compute; reflexivity|]. split; [done|]. apply link_outside.
Qed.
End ChrootProps.
