(* ===== verification/MountProps.v ===== *)
(** * Properties of mounts and of memory file systems

    Every mount gets an identifier of its own, and directories that are made
    in a tmpfs are found again. *)
From S2P Require Import Prelude Env Cred VPath Sysctl FileDesc Vnode VnodeProps Fs FsProps ChrootProps.

Module MountProps.
Import Env Vnode VnodeProps Fs FsProps ChrootProps.
Local Open Scope list_scope.
Local Open Scope Z_scope.

(** ** Identifiers *)

(** The base that an identifier was made from. *)
Definition base_of (v : Z) : Z := Z.lor (Z.shiftl (Z.land (Z.shiftr v 16) 0xff) 8) (Z.land v 0xff).
Definition low24 (base : Z) : Z := Z.lor (Z.lor (Z.shiftl base 8) base) 0xff00.
Lemma base_of_low24_all :
  forallb (fun h => forallb (fun l => base_of (low24 (256 * h + l)) =? 256 * h + l) (seqZ 0 256)) (seqZ 0 256) = true.
Proof. vm_compute. reflexivity. Qed.
Lemma base_of_low24 b : 0 <= b < 2 ^ 16 -> base_of (low24 b) = b.
Proof.
  intros Hb. pose proof base_of_low24_all as Hall. rewrite (Z.div_mod b 256) by lia.
  pose proof (Z.mod_pos_bound b 256). assert (0 <= b / 256 < 256) by (split; [apply Z.div_pos|apply Z.div_lt_upper_bound]; lia).
  rewrite forallb_forall in Hall. specialize (Hall (b / 256)). rewrite forallb_forall in Hall.
  apply Z.eqb_eq, Hall; apply list_elem_of_In, elem_of_seqZ; lia.
Qed.
(** The type of the file system is above the bits of the base. *)
Lemma base_of_high v h : base_of (Z.lor v (Z.shiftl h 24)) = base_of v.
Proof.
  unfold base_of. f_equal; [f_equal|]; apply Z.bits_inj'; intros k Hk;
    rewrite !Z.land_spec, ?Z.shiftr_spec, !Z.lor_spec, Z.shiftl_spec by lia; change 0xff with (Z.ones 8);
    (destruct (decide (k < 8)); [rewrite (Z.testbit_neg_r h) by lia; by rewrite orb_false_r|
      rewrite Z.ones_spec_high by lia; by rewrite !andb_false_r]).
Qed.
Lemma base_of_fsid b ty : 0 <= b < 2 ^ 16 -> base_of (fsid b ty) = b.
Proof.
  intros Hb. unfold fsid. assert (Hs : 0 <= Z.shiftl b 8 < 2 ^ 32) by (rewrite Z.shiftl_mul_pow2 by lia; lia).
  rewrite (Z.mod_small (Z.shiftl b 8)) by done.
  assert (Ht : Z.shiftl ty 24 mod 2 ^ 32 = Z.shiftl (ty mod 2 ^ 8) 24).
  { rewrite !Z.shiftl_mul_pow2 by lia. change (2 ^ 32) with (2 ^ 8 * 2 ^ 24). by rewrite Z.mul_mod_distr_r by lia. }
  rewrite Ht. etrans; [|by apply base_of_low24]. rewrite <- (base_of_high (low24 b) (ty mod 2 ^ 8)). unfold low24. f_equal.
  rewrite (Z.lor_comm (Z.shiftl (ty mod 2 ^ 8) 24)). by rewrite Z.lor_assoc.
Qed.

Lemma set_id_None fuel ids ty : forall base,
  set_id fuel ids ty base = None ->
  forall j, (j <= fuel)%nat -> exists b, b = (if decide (j = 0%nat) then base else (base + Z.of_nat j) mod 2 ^ 16) /\ (fsid b ty, ty) ∈ ids.
Proof.
  induction fuel as [|fuel IH]; intros base; cbn; (case_bool_decide as Hin; [|done]).
  - intros _ j Hj. exists base. by rewrite decide_True by lia.
  - intros Hn j Hj. destruct j as [|j]; [by exists base|]. destruct (IH _ Hn j) as (b & -> & Hb); [lia|].
    eexists. split; [reflexivity|]. rewrite decide_False by done. case_decide as Hj0.
    + subst j. done.
    + rewrite Zplus_mod_idemp_l in Hb. by replace (base + Z.of_nat (S j)) with (base + 1 + Z.of_nat j) by lia.
Qed.
Lemma set_id_Some fuel ids ty : forall base v next,
  0 <= base < 2 ^ 16 -> set_id fuel ids ty base = Some (v, next) -> (v, ty) ∉ ids /\ 0 <= next < 2 ^ 16.
Proof.
  induction fuel as [|fuel IH]; intros base v next Hb; cbn; case_bool_decide as Hin; try done.
  - intros [= <- <-]. split; [done|]. apply Z.mod_pos_bound. lia.
  - apply IH. apply Z.mod_pos_bound. lia.
  - intros [= <- <-]. split; [done|]. apply Z.mod_pos_bound. lia.
Qed.
(** There are 65536 identifiers for each type. *)
Lemma set_id_terminates ids ty base :
  0 <= base < 2 ^ 16 -> (Z.of_nat (length ids) < 2 ^ 16) -> is_Some (set_id (length ids) ids ty base).
Proof.
  intros Hb Hlen. destruct (set_id (length ids) ids ty base) as [r|] eqn:Hs; [by eexists|exfalso].
  pose (f := fun j : nat => (fsid ((base + Z.of_nat j) mod 2 ^ 16) ty, ty)).
  assert (Hin : forall j, (j <= length ids)%nat -> f j ∈ ids).
  { intros j Hj. destruct (set_id_None _ _ _ _ Hs j Hj) as (b & -> & Hin). unfold f. case_decide; [|done].
    subst j. by rewrite Z.add_0_r, Z.mod_small by done. }
  assert (Hnd : NoDup (f <$> seq 0 (S (length ids)))).
  { apply NoDup_fmap_2_strong; [|apply NoDup_seq]. intros i j Hi%elem_of_seq Hj%elem_of_seq [= Hf].
    apply (f_equal base_of) in Hf. rewrite !base_of_fsid in Hf by (apply Z.mod_pos_bound; lia).
    destruct (decide (i = j)) as [|Hne]; [done|exfalso].
    assert (Hd : (Z.of_nat i - Z.of_nat j) mod 2 ^ 16 = 0).
    { replace (Z.of_nat i - Z.of_nat j) with ((base + Z.of_nat i) - (base + Z.of_nat j)) by lia. by rewrite Zminus_mod, Hf, Z.sub_diag. }
    apply Z.mod_divide in Hd as [q Hq]; lia. }
  assert (Hsub : f <$> seq 0 (S (length ids)) ⊆+ ids).
  { apply NoDup_submseteq; [done|]. intros y (j & -> & Hj%elem_of_seq)%list_elem_of_fmap. apply Hin. lia. }
  apply submseteq_length in Hsub. rewrite length_fmap, length_seq in Hsub. lia.
Qed.

Lemma length_omap_le {A B} (f : A -> option B) (l : list A) : (length (omap f l) <= length l)%nat.
Proof. induction l as [|a l IH]; cbn; [done|]. destruct (f a); cbn; lia. Qed.

Section mounts.
Context {HS : Type} (H : Host HS).
Implicit Types (w : World HS).

(** ** Directories of a tmpfs *)

Lemma mounts_alter w m f mt : mounts w !! m = Some mt -> mounts (set_mounts (alter (M := list Mount) f m (mounts w)) w) !! m = Some (f mt).
Proof. intros Hm. cbn. by rewrite list_lookup_alter_eq, Hm. Qed.
(** The nodes of the tmpfs on the mount [m]. *)
Definition tmp_nodes w (m : nat) : option (list TNode) :=
  mt ← mounts w !! m; if m_fs mt is DTmp _ nodes then Some nodes else None.
Lemma nodes_alloc_Ok w w' m dir c :
  nodes_alloc m dir w = (w', Ok c) ->
  exists nodes, tmp_nodes w m = Some nodes /\ c = length nodes /\ tmp_nodes w' m = Some (nodes ++ [MkTNode None dir]) /\ vnodes w' = vnodes w.
Proof.
  unfold nodes_alloc, tmp_nodes. intros Hr. io_inv. case_match eqn:Hfs; io_inv.
  match goal with Hm : mounts _ !! m = Some ?mt, Hu : upd_mount _ _ _ = _ |- _ => injection Hu as <-; rewrite (mounts_alter _ _ _ _ Hm), Hm end.
  cbn. rewrite Hfs. by eexists.
Qed.
Lemma tmp_alloc_Ok {E} w w' m n u nodes nd :
  tmp_nodes w m = Some nodes -> nodes !! n = Some nd -> tmp_alloc_vnode (E := E) m n w = (w', Ok u) ->
  tmp_nodes w' m = Some (alter (M := list TNode) (fun nd => MkTNode (Some u) (t_dir nd)) n nodes).
Proof.
  unfold tmp_alloc_vnode, tmp_nodes. intros Hn Hnd Hr. io_inv.
  match goal with Hm : mounts _ !! m = Some ?mt |- _ => rename Hm into Hmt; rewrite Hmt in Hn; cbn in Hn end.
  case_match eqn:Hfs; io_inv. simplify_eq. case_match eqn:Hv; io_inv.
  - rewrite Hmt. cbn. rewrite Hfs. f_equal. apply list_eq. intros i. destruct (decide (i = n)) as [->|Hne].
    + rewrite list_lookup_alter_eq, Hnd. cbn. f_equal. destruct nd. by simplify_eq/=.
    + by rewrite list_lookup_alter_ne.
  - match goal with Hv' : vnode_new ?m ?ty ?b ?i ?w0 = _ |- _ => destruct (vnode_new_eq (E := E) m ty b i w0) as (s & h & Heq); rewrite Heq in Hv'; simplify_eq end.
    match goal with Hu : upd_mount _ _ _ = _ |- _ => injection Hu as <- end. cbn. rewrite list_lookup_alter_eq, Hmt. cbn.
    unfold node_upd. cbn. by rewrite Hfs.
Qed.
Lemma tmp_nodes_upd w m n f nodes :
  tmp_nodes w m = Some nodes ->
  tmp_nodes (set_mounts (alter (M := list Mount) (node_upd n f) m (mounts w)) w) m = Some (alter (M := list TNode) f n nodes).
Proof.
  unfold tmp_nodes. intros Hn. cbn. rewrite list_lookup_alter_eq. destruct (mounts w !! m) as [mt|]; [|done]. cbn in *.
  unfold node_upd. cbn. by destruct (m_fs mt); simplify_eq/=.
Qed.
Lemma vnode_new_keeps {E} m ty b i w w' u v x :
  vnode_new (E := E) m ty b i w = (w', Ok u) -> vnodes w !! v = Some x -> vnodes w' !! v = Some x.
Proof.
  intros Hv Hx. destruct (vnode_new_eq (E := E) m ty b i w) as (s & h & Heq). rewrite Heq in Hv. simplify_eq. by apply lookup_app_l_Some.
Qed.
Lemma tmp_alloc_vnodes {E} m n w w' u v x :
  tmp_alloc_vnode (E := E) m n w = (w', Ok u) -> vnodes w !! v = Some x -> vnodes w' !! v = Some x.
Proof.
  unfold tmp_alloc_vnode. intros Hr Hx. io_inv. case_match; io_inv. case_match; io_inv; [done|].
  match goal with Hu : upd_mount _ _ _ = _ |- _ => injection Hu as <- end. cbn. by eapply vnode_new_keeps.
Qed.
Lemma tmp_nodes_of_Ok {E} m w w' nodes : tmp_nodes_of (E := E) m w = (w', Ok nodes) -> w' = w /\ tmp_nodes w m = Some nodes.
Proof.
  unfold tmp_nodes_of, tmp_nodes. intros Hr. io_inv. case_match eqn:Hfs; io_inv.
  split; [done|]. match goal with Hm : mounts _ !! m = _ |- _ => rewrite Hm end. cbn. by rewrite Hfs.
Qed.
(** What [mkdir] leaves. *)
Lemma tmp_mkdir_Ok w w' td name v x n nodes nd root l u :
  vnodes w !! v = Some x -> v_backend x = BTmp n -> tmp_nodes w (v_mount x) = Some nodes -> nodes !! n = Some nd ->
  t_dir nd = Some (root, l) -> vnode_mkdir H td name v w = (w', Ok u) ->
  vnodes w' !! v = Some x /\ exists nodes', tmp_nodes w' (v_mount x) = Some nodes' /\
    nodes' !! n = Some (MkTNode (t_vnode nd) (Some (root, l ++ [(name, length nodes)]))) /\
    nodes' !! length nodes = Some (MkTNode (Some u) (Some (false, []))) /\
    (forall c cd, c <> n -> nodes !! c = Some cd -> nodes' !! c = Some cd).
Proof.
  intros Hx Hb Hn Hnd Hdir Hr. assert (Hlt := lookup_lt_Some _ _ _ Hnd). unfold vnode_mkdir in Hr. io_inv. simplify_eq. rewrite Hb in *.
  unfold tmp_mkdir in *. io_inv.
  match goal with Ha : nodes_alloc _ _ _ = _ |- _ => apply nodes_alloc_Ok in Ha as (nodes0 & Hn0 & -> & Hn1 & Hv1) end. simplify_eq.
  match goal with Ha : tmp_alloc_vnode _ _ _ = _ |- _ =>
    pose proof (tmp_alloc_Ok _ _ _ _ _ _ _ Hn1 (list_lookup_middle _ [] _ _ eq_refl) Ha) as Hn2;
    eapply tmp_alloc_vnodes in Ha; [|by rewrite Hv1] end.
  match goal with Hu : upd_mount _ _ _ = _ |- _ => injection Hu as <- end.
  match goal with Ht : tmp_nodes_of _ _ = _ |- _ => apply tmp_nodes_of_Ok in Ht as [-> _] end.
  split; [done|]. eexists. split; [by eapply tmp_nodes_upd|].
  split; [|split].
  - rewrite list_lookup_alter_eq, list_lookup_alter_ne, lookup_app_l, Hnd by lia. cbn. by rewrite Hdir.
  - by rewrite list_lookup_alter_ne, list_lookup_alter_eq, list_lookup_middle by lia.
  - intros c cd Hc Hcd. assert (c < length nodes)%nat by by eapply lookup_lt_Some.
    by rewrite !list_lookup_alter_ne, lookup_app_l by lia.
Qed.
Lemma tmp_lookup_eq w td name v x n nodes nd root l i c cd u :
  vnodes w !! v = Some x -> v_backend x = BTmp n -> tmp_nodes w (v_mount x) = Some nodes -> nodes !! n = Some nd ->
  t_dir nd = Some (root, l) -> name <> VPath.dot -> name <> VPath.dotdot ->
  list_find (fun e => e.1 = name) l = Some (i, (name, c)) -> nodes !! c = Some cd -> t_vnode cd = Some u ->
  vnode_lookup H td name v w = (w, Ok u).
Proof.
  intros Hx Hb Hn Hnd Hdir Hdot Hdd Hf Hc Hu.
  assert (Ha : access (HS := HS) td Cred.EXEC v w = (w, Ok tt)).
  { unfold access. destruct v; cbn [access_]; erewrite io_bind_eq by (unfold the_vnode, deref; by rewrite Hx); by rewrite Hb. }
  assert (Ht : tmp_lookup v x n td name w = (w, Ok u)).
  { unfold tmp_lookup. rewrite (io_bind_eq _ _ _ _ _ Ha), !bool_decide_false by done. unfold tmp_nodes in Hn.
    destruct (mounts w !! v_mount x) as [mt|] eqn:Hm; [|done]. cbn in Hn. destruct (m_fs mt) as [|max ns| |] eqn:Hfs; simplify_eq.
    unfold tmp_nodes_of, tmp_alloc_vnode, mbind, io_bind, the_mount, deref, lift. rewrite Hm. cbn. rewrite Hfs. cbn.
    rewrite Hnd. cbn. rewrite Hdir. cbn. rewrite Hf. cbn. rewrite Hm. cbn. rewrite Hfs. cbn. rewrite Hc. cbn. by rewrite Hu. }
  unfold vnode_lookup. destruct v; cbn [lookup_]; erewrite io_bind_eq by (unfold the_vnode, deref; by rewrite Hx); by rewrite Hb.
Qed.
End mounts.

(** C40: mounts get identifiers that tell them apart, and the search for one
    ends: as long as there are fewer than 65536 mounts, adding a mount returns
    and gives it an identifier that no mount of the list has. *)
Theorem mount_id_fresh {HS} (w : World HS) x :
  0 <= mount_base w < 2 ^ 16 -> Z.of_nat (length (mount_list w)) < 2 ^ 16 ->
  (forall m, m ∈ mount_list w -> (m < length (mounts w))%nat) ->
  exists w' m id, push (E := Z) x w = (w', Ok m) /\ ids_of w' = ids_of w ++ [id] /\ id ∉ ids_of w /\ 0 <= mount_base w' < 2 ^ 16.
Proof.
  intros Hb Hlen Hl. pose proof (push_eq (E := Z) x w) as Hp.
  assert (Hids : (length (ids_of w) <= length (mount_list w))%nat) by (unfold ids_of; rewrite length_fmap; apply length_omap_le).
  destruct (set_id_terminates (ids_of w) (m_ty x) (mount_base w)) as [[v1 base] Hs]; [done|lia|]. rewrite Hs in Hp.
  destruct (set_id_Some _ _ _ _ _ _ Hb Hs) as [Hfresh Hbase]. eexists _, _, (v1, m_ty x). split; [exact Hp|].
  split; [|by split]. unfold ids_of. cbn. rewrite omap_app, fmap_app. f_equal.
  - f_equal. apply list_omap_ext, Forall_Forall2_diag, Forall_forall. intros m Hm%Hl. by rewrite lookup_app_l.
  - cbn. by rewrite list_lookup_middle.
Qed.
(** A tmpfs on [/mnt] of the new root file system. *)
Definition demo_mounts : World (list (list str)) :=
  Eval vm_compute in
  ((map_io (fun _ => 0) (mkdir demo_host [] (bytes_of "/mnt") None);;
    map_io mount_errno (mount demo_host demo_kern []
      (opts_of [("fstype", OStr (bytes_of "tmpfs")); ("fspath", OVPath (bytes_of "/mnt"))]%string) 0 None)) demo_new).1.
Lemma mount_id_fresh_witness :
  exists w' m id, push (E := Z) (MkMount 44 (DHost 0 ∅) None 0 0 (0, 0) 0) demo_mounts = (w', Ok m) /\
    ids_of w' = ids_of demo_mounts ++ [id] /\ id ∉ ids_of demo_mounts /\ 0 <= mount_base w' < 2 ^ 16.
Proof.
  apply (mount_id_fresh demo_mounts); [by vm_compute|by vm_compute|].
  assert (Hall : Forall (fun m => (m < length (mounts demo_mounts))%nat) (mount_list demo_mounts)) by (cbn; repeat constructor).
  exact (proj1 (Forall_forall _ _) Hall).
Defined.

(** A directory that is made in a tmpfs is found again, with the same vnode,
    when its name was not there before. *)
Theorem tmpfs_mkdir_lookup {HS} (H : Host HS) w w' td name v x n nodes nd root l u :
  vnodes w !! v = Some x -> v_backend x = BTmp n -> tmp_nodes w (v_mount x) = Some nodes -> nodes !! n = Some nd ->
  t_dir nd = Some (root, l) -> name <> VPath.dot -> name <> VPath.dotdot -> name ∉ l.*1 ->
  vnode_mkdir H td name v w = (w', Ok u) -> vnode_lookup H td name v w' = (w', Ok u).
Proof.
  intros Hx Hb Hn Hnd Hdir Hdot Hdd Hl Hr.
  destruct (tmp_mkdir_Ok _ _ _ _ _ _ _ _ _ _ _ _ _ Hx Hb Hn Hnd Hdir Hr) as (Hx' & nodes' & Hn' & Hnd' & Hc & _).
  eapply tmp_lookup_eq; [exact Hx'|done|done|exact Hnd'|done|done|done| |exact Hc|done].
  rewrite list_find_app_r; [cbn; by rewrite decide_True|].
  apply list_find_None, Forall_forall. intros e He <-. apply Hl, list_elem_of_fmap. eauto.
Qed.
Lemma tmpfs_mkdir_lookup_witness :
  exists w' u, vnode_mkdir demo_host None (bytes_of "box") 4 demo_mounts = (w', Ok u) /\
    vnode_lookup demo_host None (bytes_of "box") 4 w' = (w', Ok u).
Proof.
  pose (r := vnode_mkdir demo_host None (bytes_of "box") 4 demo_mounts).
  assert (Hr : r = (r.1, Ok 5%nat)) by (vm_compute; reflexivity).
  exists r.1, 5%nat. split; [exact Hr|].
  eapply (tmpfs_mkdir_lookup demo_host demo_mounts r.1 None (bytes_of "box") 4);
    [vm_compute; reflexivity|vm_compute; reflexivity|vm_compute; reflexivity|vm_compute; reflexivity
    |vm_compute; reflexivity|discriminate|discriminate|apply not_elem_of_nil|exact Hr].
Defined.
(** When it was there, a second directory of the name is made that cannot be
    found: the name still leads to the first one. *)
Theorem tmpfs_mkdir_twice {HS} (H : Host HS) w w' td name v x n nodes nd root l u i c cd old :
  vnodes w !! v = Some x -> v_backend x = BTmp n -> tmp_nodes w (v_mount x) = Some nodes -> nodes !! n = Some nd ->
  t_dir nd = Some (root, l) -> name <> VPath.dot -> name <> VPath.dotdot ->
  list_find (fun e => e.1 = name) l = Some (i, (name, c)) -> c <> n -> nodes !! c = Some cd -> t_vnode cd = Some old ->
  vnode_mkdir H td name v w = (w', Ok u) -> vnode_lookup H td name v w' = (w', Ok old).
Proof.
  intros Hx Hb Hn Hnd Hdir Hdot Hdd Hl Hcn Hcd Hold Hr.
  destruct (tmp_mkdir_Ok _ _ _ _ _ _ _ _ _ _ _ _ _ Hx Hb Hn Hnd Hdir Hr) as (Hx' & nodes' & Hn' & Hnd' & _ & Hkeep).
  eapply tmp_lookup_eq; [exact Hx'|done|done|exact Hnd'|done|done|done| |by apply Hkeep|done].
  by apply list_find_app_l.
Qed.
End MountProps.
